(* ===== verification/_CoqProject ===== *)
-Q . S2P
Prelude.v
Decimal.v
Utf8.v
Crypto.v
Keys.v
Buffer.v
Tsmp.v
Mdns.v
Upgrade.v
Json.v
JsonTree.v
ControlRequest.v
Disco.v
StateError.v
Framing.v
Socket.v
DerpFrame.v
DerpHandshake.v
ControlResponse.v
NetmapStream.v
CoreRoot.v
H2Reader.v
H2Writer.v
H2Events.v
Noise.v
ControlServer.v
WireGuard.v
WgHandshake.v
Replay.v
WgTransport.v
WgPeer.v
WgNode.v
FwDerp.v
Smoltcp.v
FwTunnel.v
FwMdns.v
FwControl.v
FwServe.v
HostDerp.v
HostState.v
HostTunnel.v
HostNode.v
FwConfig.v
H2Conn.v
H2Post.v
HostTransport.v
HostPost.v
HostMain.v
FwConsole.v
FwMain.v
