(* ===== verification/Prelude.v ===== *)
(** * lando: a machine-checked model of a minimal Tailscale node.

    ** The program

    lando is a Tailscale client small enough for a microcontroller.
    [crates/tailscale-core] holds every protocol decision and no I/O: keys, the
    Noise control channel, HTTP/2 and the control-plane RPCs, WireGuard, DERP
    framing, endpoint discovery, JSON. [crates/lando-fw] drives it on a Pico 2 W
    over embassy, [crates/lando-host] on a laptop over std. A node registers
    with the control plane over HTTP/2 inside Noise records inside a switched
    HTTP/1.1 connection; its peers then reach it by WireGuard, directly over UDP
    or through a DERP relay.

    ** How the model reads

    The embedding is shallow. A [u8] is a [Byte.byte], a slice or array a list
    of them, a wider integer a [Z] with its wrap-around or overflow check written
    out, a [usize] that only indexes a buffer a [nat]. Fallible code returns
    [Prelude.outcome]: [Ok], [Err], [Panic] for an out-of-range access or an
    overflow, and [NoFuel] for a loop of the model that ran out of fuel; [let?]
    is [?]. A theorem that ends in [Ok] or [Err] therefore also says that the code
    neither panics nor loops. A method that changes its object gives the new
    object back. Arithmetic that Rust checks in debug builds panics.

    Third-party code is a parameter: [Crypto.Primitives] (hash, MAC, X25519,
    AEADs), [FwConfig.FlashOps] (flash), [Socket.SocketOps] (sockets) and their
    like, each with a second class for what the code relies on, and a concrete
    instance that the examples run.

    ** The files

    Foundations. [Prelude]: outcomes, bytes, slices, integers, the tactics
    [inv_ok], [len], [copy_step], the rewrite database [len]. [Decimal]: digits
    and [str::parse]. [Utf8]: [from_utf8]. [Buffer]: the cursor shared by three
    writers. [Framing]: the interface of the incremental readers, with the
    theorem that a stream is read as itself however it is cut.

    tailscale-core, one file per source file. [Crypto] (crypto.rs), [Keys]
    (key.rs), [Tsmp] (tsmp.rs), [Mdns] (mdns.rs), [Upgrade] (upgrade.rs),
    [Json], [JsonTree] (json.rs), [ControlRequest], [ControlResponse]
    (control.rs), [Disco] (disco.rs), [DerpFrame], [DerpHandshake] (derp/),
    [H2Reader], [H2Writer] (h2.rs), [Noise] (noise.rs), [WireGuard],
    [WgHandshake], [Replay], [WgTransport], [WgPeer] (wireguard/).

    Shared by the three. [StateError]: computations that keep their state when
    they fail. [Socket]: TCP and TLS as both programs rely on them ([SocketOps],
    [SocketView], [SocketUp]), and the LAN side of a node. [Smoltcp]: the sockets
    of smoltcp. [H2Events]: HTTP/2 as the frames both clients send and the responses
    they get. [ControlServer]: the control server of the connection tests.
    [NetmapStream]: the loop over the chunks of a netmap stream. [CoreRoot]: the
    constants of lib.rs. The laws of [Smoltcp] are what both tunnels rely on; a
    packet that resets a connection is named only where it matters
    ([FwTunnel.IfaceReset]).

    lando-fw. [WgNode] and [FwServe] (wg.rs: the node, and the loop that serves it
    over UDP), [FwDerp] (derp.rs), [FwTunnel] (tunnel.rs), [FwMdns] (mdns.rs),
    [FwControl] (control.rs), [FwConfig] (config.rs), [H2Conn] (h2conn.rs) and
    [H2Post], which proves a whole request of it, [FwConsole] and [FwMain]
    (main.rs: the panic report, the console and the boot keys; the requests of the
    control session and the loop that supervises it).

    lando-host. [HostDerp] (derp.rs), [HostState] (state.rs), [HostTunnel]
    (tunnel.rs), [HostNode] (node.rs), [HostTransport] (transport.rs) and [HostPost],
    which proves a whole request of it, [HostMain] (main.rs: login, registration and
    the netmap poll).

    How they meet. [HostNode] runs [HostDerp], the WireGuard files and [HostTunnel]
    over one packet loop; [FwServe] joins [WgNode] to the queue of [FwTunnel], and
    [FwDerp] to both through [WgNode.Relayed]; [FwMdns] calls the tunnel through its
    class [Discovery]; [FwControl] opens the connection that [H2Conn] runs on and
    [FwMain] makes its requests on; [HostMain] does so on [HostTransport].

    Definitions keep the names of the source; an [impl] method is a function
    with the object as its first argument; a loop is a [Fixpoint] named after its
    function with [_loop], a turn of a reader's loop [_turn].

    ** What the theorems show

    Two parties agree: [WgHandshake.handshake_agreement] and
    [Noise.noise_agreement] run our side against the other side of the protocol
    and get mirrored keys. Messages arrive: [WgTransport.transport_channel],
    [Noise.record_stream], [DerpFrame.derp_frames_delivered],
    [H2Reader.h2_frames_delivered], [ControlResponse.map_frames_delivered],
    [Disco.disco_pong_delivered]. Arbitrary input is harmless:
    [WgHandshake.consume_initiation_sound], [WgTransport.transport_authenticated],
    [DerpFrame.derp_only_oversize_refused], [Json.json_reader_total],
    [WgNode.node_total]. An optimised structure is its specification:
    [Replay.replay_refines_history] (the ring of bits and the history of
    counters), [Crypto.kdf_is_hkdf] (RFC 5869). State machines keep their
    promises in every run: [WgPeer.session_lifetime], [WgPeer.initiations_bounded],
    [WgPeer.timestamps_increase]. What is written is read back: JSON requests
    ([ControlRequest]), the header block ([H2Writer.post_headers_decodes]), the
    configuration ([FwConfig.config_roundtrip]), keys, base64, mDNS edits.
    Components composed: [WgNode.node_serves_peer] (handshake, transport, ping),
    [H2Post.post_exchange] (writer, records, staging, reader, flow control).

    The firmware's data path: [FwDerp.relay_session] (a session of the relay),
    [FwServe.drain_carried] (what the LAN has for the peer reaches it),
    [FwTunnel.route_faithful], [FwTunnel.claims_exclusive] and
    [FwTunnel.listener_returns] (the tunnel's workers, over every interleaving of
    their steps), [FwMdns.query_proxied], stated of datagrams as [Mdns.datagram]
    reads them. Its control path:
    [FwControl.connect_session], [H2Post.post_exchange], [FwMain.poll_watched],
    [FwMain.supervised], and before it [FwConsole.device_provisioned] and
    [FwConsole.PanicReport.panic_reported].

    The host's data path: [HostNode.host_serves_peer] and [HostNode.handshakes_fresh],
    [HostDerp.host_session], [HostTunnel.proxy_faithful]. Its control path:
    [HostTransport.connect_coalesced] ends in a session, and from there
    [HostMain.online_published] composes [HostPost.start_idle], the exchange of
    [HostPost.host_post], the registration and [HostMain.netmap_published], down to
    the peers the datapath is told of; [HostMain.login_followed] is the login through
    a browser.

    Some theorems show what the code does where it does not do what it means to:
    [WgNode.ephemeral_on_the_wire], [WgNode.initiation_replayed],
    [FwTunnel.stranded_forever], [HostDerp.tick_tears_packet], the second half of
    [HostTransport.connect_coalesced] and of [FwConsole.device_provisioned], and the
    examples named in the comments of others ([HostMain.delta_forgets],
    [FwServe.burst_overruns_relay], [FwConsole.Bench.accent_mangled]).

    ** Fuel and bounds

    The fuel of a loop is a bound the code itself has (the bytes left, the
    digits of a [u64], three turns of a frame reader), given where the loop is
    called; the theorems conclude [Ok] or [Err], so it is enough. Loops that
    wait for a peer take the number of reads as fuel, and the theorem about them
    bounds it by the bytes in flight.

    ** Not modelled

    Logging and the log queue of the firmware, what the host prints (but for the
    report of a netmap), the spawning of tasks and threads, the set-up of USB, radio
    and DHCP ([lando-fw/src/main.rs], [main] down to the network stack), the command
    line and the listening mode of the host ([run], [derp_check], [node_mode] in
    [lando-host/src/main.rs]), [trace_frames] of the host's transport; smoltcp,
    embassy, cyw43, TLS and the cryptographic primitives, which are parameters. The
    tasks of the firmware are modelled each by itself: they share the node and the
    tunnel, whose operations are atomic there, and [FwTunnel] has the interleavings
    of its workers. A failed request of [H2Conn] gives no connection back, so that
    [FwMain] does not follow a session past a failed [advertise]. The counter of
    netmaps that [FwMain] logs wraps, as it does in the release build. *)
From Stdlib Require Export Init.Byte.
From Stdlib Require Import Strings.Byte Strings.String.
From Stdlib Require Export ZArith Lia.
From stdpp Require Export base option list numbers.
From Stdlib Require Import Strings.Ascii.
Export String.StringSyntax.

Declare Scope rust_scope.
Delimit Scope rust_scope with rust.
Open Scope rust_scope.

(** ** Results of Rust code

    [Ok] and [Err] are [Result]; [Panic] is an out-of-range slice, a failed
    [expect] or an arithmetic underflow; [NoFuel] marks a model loop that ran
    out of fuel, so that a theorem ending in [Ok] or [Err] also says that the
    loop terminates. *)
Inductive outcome (E A : Type) : Type :=
| Ok (a : A)
| Err (e : E)
| Panic
| NoFuel.
Arguments Ok {E A} a.
Arguments Err {E A} e.
Arguments Panic {E A}.
Arguments NoFuel {E A}.

Definition obind {E A B} (m : outcome E A) (f : A -> outcome E B) : outcome E B :=
  match m with
  | Ok a => f a
  | Err e => Err e
  | Panic => Panic
  | NoFuel => NoFuel
  end.

Notation "'let?' x ':=' m 'in' k" := (obind m (fun x => k))
  (at level 10, x pattern, m at level 100, k at level 200,
   format "'[v' 'let?'  x  ':='  m  'in' '/' k ']'") : rust_scope.

(** [Result::map_err] *)
Definition map_err {E F A} (f : E -> F) (m : outcome E A) : outcome F A :=
  match m with
  | Ok a => Ok a
  | Err e => Err (f e)
  | Panic => Panic
  | NoFuel => NoFuel
  end.

(** [Option::ok_or] *)
Definition ok_or {E A} (o : option A) (e : E) : outcome E A :=
  match o with Some a => Ok a | None => Err e end.

(** [Result::ok]; a panic stays a panic. *)
Definition result_ok {E F A} (m : outcome E A) : outcome F (option A) :=
  match m with
  | Ok a => Ok (Some a)
  | Err _ => Ok None
  | Panic => Panic
  | NoFuel => NoFuel
  end.

(** [Option::unwrap], [expect] *)
Definition unwrap {E A} (o : option A) : outcome E A :=
  match o with Some a => Ok a | None => Panic end.

(** [Option::and_then] *)
Definition and_then {A B} (o : option A) (f : A -> option B) : option B :=
  match o with Some a => f a | None => None end.

(** [let Ok(x) = m else { return r }; k], which is also what [m.ok()?] does in a
    function that returns an option; a panic stays a panic. *)
Definition try_or {E F A B} (m : outcome E A) (r : B) (k : A -> outcome F B) : outcome F B :=
  match m with
  | Ok a => k a
  | Err _ => Ok r
  | Panic => Panic
  | NoFuel => NoFuel
  end.

Notation "'try?' x ':=' m 'else' r 'in' k" := (try_or m r (fun x => k))
  (at level 10, x pattern, m at level 100, r at level 100, k at level 200,
   format "'[v' 'try?'  x  ':='  m  'else'  r  'in' '/' k ']'") : rust_scope.

(** [Result::expect] *)
Definition expect_ok {E F A} (m : outcome E A) : outcome F A :=
  match m with Ok a => Ok a | Err _ => Panic | Panic => Panic | NoFuel => NoFuel end.

Definition is_ok {E A} (m : outcome E A) : bool :=
  match m with Ok _ => true | _ => false end.

Lemma obind_Ok {E A B} (a : A) (f : A -> outcome E B) : obind (Ok a) f = f a.
Proof. reflexivity. Qed.

Lemma obind_Ok_inv {E A B} (m : outcome E A) (f : A -> outcome E B) b :
  obind m f = Ok b -> exists a, m = Ok a /\ f a = Ok b.
Proof. destruct m; simpl; try discriminate. eauto. Qed.

Lemma Ok_inj {E A} (a b : A) : Ok (E:=E) a = Ok b -> a = b.
Proof. by intros [= ->]. Qed.

(** Following a computation that ended in [Ok] through its binds and tests. *)
Ltac inv_ok :=
  repeat match goal with
  | H : obind _ _ = Ok _ |- _ => apply obind_Ok_inv in H as (? & ? & H)
  | H : (if decide _ then _ else _) = Ok _ |- _ => case_decide
  | H : Ok _ = Ok _ |- _ => apply Ok_inj in H
  | H : Err _ = Ok _ |- _ => discriminate H
  | H : Panic = Ok _ |- _ => discriminate H
  | H : (let (_, _) := ?p in _) = Ok _ |- _ => first [is_var p; destruct p|destruct p eqn:?]
  end.

Lemma obind_assoc {E A B C} (m : outcome E A) (f : A -> outcome E B) (g : B -> outcome E C) :
  obind (obind m f) g = obind m (fun a => obind (f a) g).
Proof. by destruct m. Qed.

(** Two computations that make the same calls in the same order, up to the
    nesting of their binds. *)
Ltac bind_eq :=
  repeat (rewrite ?obind_assoc; cbn beta;
    match goal with |- obind ?m _ = obind ?m _ => destruct m; cbn [obind]; [|reflexivity..] end);
  reflexivity.

(** ** Bytes *)
Abbreviation bytes := (list byte).

#[export] Instance byte_eq_dec : EqDecision byte := Byte.byte_eq_dec.

(** The value of a [u8]. *)
Definition bz (b : byte) : Z := Z.of_N (Byte.to_N b).

(** [as u8]: the low eight bits. *)
Definition zb (z : Z) : byte :=
  match Byte.of_N (Z.to_N (z mod 256)) with Some b => b | None => x00 end.

(** A byte-string literal [b"..."]. *)
Definition bs (s : string) : bytes := list_byte_of_string s.
Arguments bs s%_string.

Lemma bz_range b : (0 <= bz b < 256)%Z.
Proof. unfold bz. pose proof (Byte.to_N_bounded b). lia. Qed.

Lemma zb_bz b : zb (bz b) = b.
Proof. by destruct b. Qed.

Lemma bz_zb z : bz (zb z) = (z mod 256)%Z.
Proof.
  unfold zb. pose proof (Z.mod_pos_bound z 256 ltac:(lia)) as Hz.
  destruct (Byte.of_N (Z.to_N (z mod 256))) as [b|] eqn:E.
  - apply Byte.to_of_N in E. unfold bz. lia.
  - apply Byte.of_N_None_iff in E. lia.
Qed.

Lemma bz_inj b1 b2 : bz b1 = bz b2 -> b1 = b2.
Proof. intros H. by rewrite <- (zb_bz b1), <- (zb_bz b2), H. Qed.

Lemma bz_zb_small z : (0 <= z < 256)%Z -> bz (zb z) = z.
Proof. intros. rewrite bz_zb. by apply Z.mod_small. Qed.

(** ** Slices and buffers

    A [&[u8]] or [[u8; N]] is a list; an access out of range panics. *)

(** [l.get(a..b)] *)
Definition get_range {A} (l : list A) (a b : nat) : option (list A) :=
  if decide (a <= b /\ b <= length l) then Some (take (b - a) (drop a l)) else None.

(** [&l[a..b]] *)
Definition slice {E A} (l : list A) (a b : nat) : outcome E (list A) :=
  unwrap (get_range l a b).

(** [l[i]] *)
Definition index {E A} (l : list A) (i : nat) : outcome E A := unwrap (l !! i).

(** [l[i] = x] *)
Definition set_at {E A} (l : list A) (i : nat) (x : A) : outcome E (list A) :=
  if decide (i < length l) then Ok (<[i:=x]> l) else Panic.

(** The list [l] with [src] written over the positions from [a]. *)
Definition overwrite {A} (l : list A) (a : nat) (src : list A) : list A :=
  take a l ++ src ++ drop (a + length src) l.

(** [l[a..b].copy_from_slice(src)] *)
Definition copy_range {E A} (l : list A) (a b : nat) (src : list A) : outcome E (list A) :=
  if decide (a <= b /\ b <= length l /\ length src = b - a)
  then Ok (overwrite l a src) else Panic.

(** [[0u8; n]] *)
Definition zeros (n : nat) : bytes := replicate n x00.

Create Rewrite HintDb len.
#[export] Hint Rewrite @length_app @length_take @length_drop @length_replicate
  @length_rev @length_map @length_insert @length_cons @length_nil
  @length_zip_with @length_fmap @length_seq : len.

(** Length side conditions. *)
Ltac len := autorewrite with len in *; simpl in *; lia.

(** Right-nested appends, singletons as conses. *)
Tactic Notation "norm_app" := repeat progress (rewrite <- ?app_assoc; cbn [app]).
Tactic Notation "norm_app" "in" hyp(H) := repeat progress (rewrite <- ?app_assoc in H; cbn [app] in H).

Lemma length_zeros n : length (zeros n) = n.
Proof. apply length_replicate. Qed.
#[export] Hint Rewrite length_zeros : len.

Lemma length_overwrite {A} (l : list A) a src :
  a + length src <= length l -> length (overwrite l a src) = length l.
Proof. intros. unfold overwrite. len. Qed.

Lemma get_range_ok {A} (l : list A) a b :
  a <= b -> b <= length l -> get_range l a b = Some (take (b - a) (drop a l)).
Proof. intros. unfold get_range. rewrite decide_True; auto. Qed.

Lemma slice_ok {E A} (l : list A) a b :
  a <= b -> b <= length l -> slice (E:=E) l a b = Ok (take (b - a) (drop a l)).
Proof. intros. unfold slice. by rewrite get_range_ok. Qed.

Lemma slice_to {E A} (l : list A) b :
  b <= length l -> slice (E:=E) l 0 b = Ok (take b l).
Proof. intros. rewrite slice_ok by lia. by rewrite Nat.sub_0_r, drop_0. Qed.

Lemma slice_from {E A} (l : list A) a :
  a <= length l -> slice (E:=E) l a (length l) = Ok (drop a l).
Proof. intros. rewrite slice_ok by lia. rewrite take_ge; [done|]. len. Qed.

(** Slicing a segment out of a concatenation. *)
Lemma slice_seg {E A} (p m s : list A) a b :
  a = length p -> b = length p + length m ->
  slice (E:=E) (p ++ m ++ s) a b = Ok m.
Proof.
  intros -> ->. rewrite slice_ok by len.
  rewrite drop_app_length. replace (_ + _ - _) with (length m) by lia.
  by rewrite take_app_length.
Qed.

Lemma copy_range_ok {E A} (l : list A) a b src :
  b <= length l -> b = a + length src ->
  copy_range (E:=E) l a b src = Ok (overwrite l a src).
Proof. intros. unfold copy_range. rewrite decide_True; [done|lia]. Qed.

(** Overwriting a segment of a concatenation by one of the same length. *)
Lemma overwrite_seg {A} (p m s src : list A) a :
  a = length p -> length src = length m ->
  overwrite (p ++ m ++ s) a src = p ++ src ++ s.
Proof.
  intros -> Hl. unfold overwrite. rewrite take_app_length.
  rewrite <- drop_drop, drop_app_length, Hl, drop_app_length. done.
Qed.

Lemma overwrite_app {A} (p m src : list A) a :
  a = length p -> overwrite (p ++ m) a src = p ++ src ++ drop (length src) m.
Proof. intros ->. unfold overwrite. by rewrite take_app_length, <- drop_drop, drop_app_length. Qed.

Lemma take_overwrite {A} (l : list A) a src : a <= length l -> take (a + length src) (overwrite l a src) = take a l ++ src.
Proof. intros Ha. unfold overwrite. rewrite app_assoc, take_app_le by len. rewrite take_ge; [done|len]. Qed.

Lemma index_ok {E A} (l : list A) i x : l !! i = Some x -> index (E:=E) l i = Ok x.
Proof. unfold index. by intros ->. Qed.

Lemma set_at_ok {E A} (l : list A) i x : i < length l -> set_at (E:=E) l i x = Ok (<[i:=x]> l).
Proof. intros. unfold set_at. by rewrite decide_True. Qed.

(** Accesses that stay inside a prefix. *)
Lemma copy_range_app_l {E A} (h r : list A) a b src :
  b <= length h -> b = a + length src ->
  copy_range (E:=E) (h ++ r) a b src = Ok (overwrite h a src ++ r).
Proof.
  intros Hb ->. rewrite copy_range_ok by len. unfold overwrite.
  rewrite take_app_le, drop_app_le by lia. by rewrite <- !app_assoc.
Qed.

Lemma set_at_app_l {E A} (h r : list A) i x :
  i < length h -> set_at (E:=E) (h ++ r) i x = Ok (<[i:=x]> h ++ r).
Proof. intros. rewrite set_at_ok by len. by rewrite insert_app_l. Qed.

Lemma set_at_app_r {E A} (p l : list A) i n x :
  n = length p + i -> i < length l -> set_at (E:=E) (p ++ l) n x = Ok (p ++ <[i:=x]> l).
Proof. intros -> ?. rewrite set_at_ok by len. by rewrite insert_app_r. Qed.

Lemma slice_app_l {E A} (h r : list A) a b :
  a <= b -> b <= length h -> slice (E:=E) (h ++ r) a b = Ok (take (b - a) (drop a h)).
Proof.
  intros. rewrite slice_ok by len. rewrite drop_app_le by lia.
  rewrite take_app_le; [done|]. len.
Qed.

Lemma slice_app_l_exact {E A} (h r : list A) b : b = length h -> slice (E:=E) (h ++ r) 0 b = Ok h.
Proof. intros ->. rewrite slice_app_l by lia. by rewrite Nat.sub_0_r, drop_0, take_ge. Qed.

(** ** Fixed-width integers

    A [uN] is a [Z] in range; [to_le n], [to_be n] write its [n] bytes and
    [from_le], [from_be] read them. *)
Fixpoint to_le (n : nat) (z : Z) : bytes :=
  match n with O => [] | S n => zb z :: to_le n (z / 256) end.
Definition to_be (n : nat) (z : Z) : bytes := rev (to_le n z).
Fixpoint from_le (l : bytes) : Z :=
  match l with [] => 0%Z | b :: l => (bz b + 256 * from_le l)%Z end.
Definition from_be (l : bytes) : Z := from_le (rev l).

Definition u16_max : Z := (2 ^ 16 - 1)%Z.
Definition u32_max : Z := (2 ^ 32 - 1)%Z.
Definition u64_max : Z := (2 ^ 64 - 1)%Z.
(** Wrapping to a width. *)
Definition wrap (w z : Z) : Z := (z mod 2 ^ w)%Z.

Lemma length_to_le n z : length (to_le n z) = n.
Proof. revert z. induction n; intros; simpl; auto. Qed.
Lemma length_to_be n z : length (to_be n z) = n.
Proof. unfold to_be. by rewrite length_rev, length_to_le. Qed.
#[export] Hint Rewrite length_to_le length_to_be : len.

Lemma from_le_range l : (0 <= from_le l < 256 ^ Z.of_nat (length l))%Z.
Proof.
  induction l as [|b l IH]; [simpl; lia|].
  pose proof (bz_range b). cbn [from_le length].
  rewrite Nat2Z.inj_succ, Z.pow_succ_r by lia. nia.
Qed.

Lemma from_be_range l : (0 <= from_be l < 256 ^ Z.of_nat (length l))%Z.
Proof. unfold from_be. rewrite <- (length_rev l). apply from_le_range. Qed.

Lemma from_to_le n z : from_le (to_le n z) = (z mod 256 ^ Z.of_nat n)%Z.
Proof.
  revert z. induction n as [|n IH]; intros z.
  { cbn. by rewrite Z.mod_1_r. }
  cbn [to_le from_le]. rewrite IH, bz_zb, Nat2Z.inj_succ, Z.pow_succ_r by lia.
  rewrite Z.rem_mul_r by lia. lia.
Qed.

Lemma to_from_le l : to_le (length l) (from_le l) = l.
Proof.
  induction l as [|b l IH]; [done|]. cbn [length to_le from_le].
  pose proof (bz_range b). f_equal.
  - apply bz_inj. rewrite bz_zb.
    rewrite Z.add_mod, (Z.mul_comm 256), Z.mod_mul by lia.
    rewrite Z.add_0_r, Z.mod_mod by lia. by apply Z.mod_small.
  - etrans; [|exact IH]. f_equal.
    rewrite (Z.mul_comm 256), Z.div_add by lia. rewrite Z.div_small by lia. lia.
Qed.

Lemma from_to_be n z : from_be (to_be n z) = (z mod 256 ^ Z.of_nat n)%Z.
Proof. unfold from_be, to_be. rewrite rev_involutive. apply from_to_le. Qed.

Lemma to_from_be l : to_be (length l) (from_be l) = l.
Proof.
  unfold from_be, to_be. rewrite <- (length_rev l), to_from_le. apply rev_involutive.
Qed.

Lemma from_to_le_small n z :
  (0 <= z < 256 ^ Z.of_nat n)%Z -> from_le (to_le n z) = z.
Proof. intros. rewrite from_to_le. by apply Z.mod_small. Qed.

Lemma from_to_be_small n z :
  (0 <= z < 256 ^ Z.of_nat n)%Z -> from_be (to_be n z) = z.
Proof. intros. rewrite from_to_be. by apply Z.mod_small. Qed.

Lemma from_le_inj l1 l2 : length l1 = length l2 -> from_le l1 = from_le l2 -> l1 = l2.
Proof. intros Hl H. by rewrite <- (to_from_le l1), <- (to_from_le l2), Hl, H. Qed.

Lemma from_be_inj l1 l2 : length l1 = length l2 -> from_be l1 = from_be l2 -> l1 = l2.
Proof. intros Hl H. by rewrite <- (to_from_be l1), <- (to_from_be l2), Hl, H. Qed.

(** ** Standard-library scans *)

(** [s.starts_with(p)] *)
Definition starts_with (s p : bytes) : bool := bool_decide (take (length p) s = p).

(** [s.strip_prefix(p)] *)
Definition strip_prefix (s p : bytes) : option bytes :=
  if decide (take (length p) s = p) then Some (drop (length p) s) else None.

(** [s.iter().position(f)] *)
Fixpoint position {A} (f : A -> bool) (l : list A) : option nat :=
  match l with
  | [] => None
  | x :: l => if f x then Some 0 else S <$> position f l
  end.

(** [s.windows(n).position(|w| w == pat)], with [n] the length of [pat] *)
Fixpoint find_window (pat l : bytes) : option nat :=
  if starts_with l pat then Some 0
  else match l with [] => None | _ :: l => S <$> find_window pat l end.

(** [s.chunks(n)]; the fuel is the length of the slice. *)
Fixpoint chunks_aux {A} (fuel n : nat) (l : list A) : list (list A) :=
  match fuel, l with
  | S fuel, _ :: _ => take n l :: chunks_aux fuel n (drop n l)
  | _, _ => []
  end.
Definition chunks {A} (n : nat) (l : list A) : list (list A) := chunks_aux (length l) n l.

(** [s.chunks_exact(n)] *)
Definition chunks_exact {A} (n : nat) (l : list A) : list (list A) :=
  filter (fun c => length c = n) (chunks n l).

Lemma starts_with_app p s : starts_with (p ++ s) p = true.
Proof. unfold starts_with. rewrite take_app_length. by apply bool_decide_eq_true_2. Qed.

Lemma starts_with_true s p : starts_with s p = true <-> exists r, s = p ++ r.
Proof.
  unfold starts_with. rewrite bool_decide_eq_true. split.
  - intros H. exists (drop (length p) s). by rewrite <- H at 1; rewrite take_drop.
  - intros [r ->]. apply take_app_length.
Qed.

Lemma strip_prefix_app p s : strip_prefix (p ++ s) p = Some s.
Proof. unfold strip_prefix. rewrite take_app_length, decide_True, drop_app_length; done. Qed.

Lemma strip_prefix_Some s p r : strip_prefix s p = Some r <-> s = p ++ r.
Proof.
  split; [|intros ->; apply strip_prefix_app]. unfold strip_prefix.
  case_decide as H; intros [= <-]. by rewrite <- H at 1; rewrite take_drop.
Qed.

Lemma starts_with_app_mono l m p : starts_with l p = true -> starts_with (l ++ m) p = true.
Proof. rewrite !starts_with_true. intros [r ->]. exists (r ++ m). by rewrite <- app_assoc. Qed.

Lemma position_lt {A} (f : A -> bool) l i : position f l = Some i -> i < length l.
Proof.
  revert i. induction l as [|x l IH]; intros i; simpl; [done|].
  destruct (f x); [intros [= <-]; lia|]. destruct (position f l) as [j|]; [|done].
  intros [= <-]. specialize (IH j eq_refl). lia.
Qed.

Lemma position_app {A} (f : A -> bool) l m i : position f l = Some i -> position f (l ++ m) = Some i.
Proof.
  revert i. induction l as [|x l IH]; intros i; simpl; [done|].
  destruct (f x); [done|]. destruct (position f l) as [j|]; [|done].
  intros [= <-]. by rewrite (IH j).
Qed.

Lemma find_window_Some pat l i :
  find_window pat l = Some i ->
  exists r, l = take i l ++ pat ++ r /\ i + length pat <= length l /\
    forall j, j < i -> starts_with (drop j l) pat = false.
Proof.
  revert i. induction l as [|x l IH]; intros i; cbn [find_window].
  - destruct (starts_with [] pat) eqn:E; [|done]. intros [= <-].
    apply starts_with_true in E as [r Hr]. exists r. rewrite Hr. simpl.
    rewrite length_app. split_and!; [done|lia|intros; lia].
  - destruct (starts_with (x :: l) pat) eqn:E.
    + intros [= <-]. apply starts_with_true in E as [r Hr]. exists r. rewrite Hr. simpl.
      rewrite length_app. split_and!; [done|lia|intros; lia].
    + destruct (find_window pat l) as [k|] eqn:Ek; [|done]. intros [= <-].
      destruct (IH k eq_refl) as (r & Hr & Hl & Hj). exists r. split_and!; simpl; [by f_equal|lia|].
      intros [|j] Hlt; [done|]. simpl. apply Hj. lia.
Qed.

Lemma find_window_None pat l : find_window pat l = None -> forall a b, l <> a ++ pat ++ b.
Proof.
  intros H a b ->. revert H. induction a as [|x a IH]; simpl.
  - destruct (pat ++ b) eqn:E; cbn [find_window]; rewrite <- E, starts_with_app; done.
  - destruct (starts_with _ _); [done|]. destruct (find_window pat (a ++ pat ++ b)); [done|]. by intros; apply IH.
Qed.

Lemma find_window_app pat l m i : find_window pat l = Some i -> find_window pat (l ++ m) = Some i.
Proof.
  revert i. induction l as [|x l IH]; intros i; cbn [find_window app].
  - destruct (starts_with [] pat) eqn:E; [|done]. intros [= <-].
    apply (starts_with_app_mono [] m) in E. destruct m; cbn [find_window app] in *; by rewrite E.
  - destruct (starts_with (x :: l) pat) eqn:E.
    + intros [= <-]. apply (starts_with_app_mono _ m) in E. cbn [app] in E. by rewrite E.
    + destruct (find_window pat l) as [k|] eqn:Ek; [|done]. intros [= <-].
      destruct (find_window_Some _ _ _ Ek) as (r & _ & Hl & _).
      assert (starts_with (x :: l ++ m) pat = false) as ->; [|by rewrite (IH k)].
      unfold starts_with in *. apply bool_decide_eq_false. apply bool_decide_eq_false in E.
      intros H. apply E. etrans; [|exact H]. rewrite (app_comm_cons l m x), take_app_le; [done|]. simpl. lia.
Qed.

Lemma position_Some {A} (f : A -> bool) l i :
  position f l = Some i -> exists x r, l = take i l ++ x :: r /\ f x = true /\ Forall (fun y => f y = false) (take i l).
Proof.
  revert i. induction l as [|x l IH]; intros i; simpl; [done|].
  destruct (f x) eqn:E; [intros [= <-]; exists x, l; by repeat constructor|].
  destruct (position f l) as [j|]; [|done]. intros [= <-].
  destruct (IH j eq_refl) as (y & r & Hr & Hy & Hf). exists y, r. simpl. split_and!; [by f_equal|done|by constructor].
Qed.

Lemma position_None {A} (f : A -> bool) l : position f l = None -> Forall (fun y => f y = false) l.
Proof.
  induction l as [|x l IH]; simpl; [constructor|]. destruct (f x) eqn:E; [done|].
  destruct (position f l); [done|]. constructor; auto.
Qed.

Lemma chunks_concat {A} n (l : list A) : 0 < n -> concat (chunks n l) = l.
Proof.
  intros Hn. unfold chunks. remember (length l) as k eqn:Hk.
  assert (length l <= k) as Hl by lia. clear Hk. revert l Hl.
  induction k as [|k IH]; intros [|x l] Hl; simpl in *; try done; try lia.
  rewrite IH by (rewrite length_drop; simpl; lia). apply (take_drop n (x :: l)).
Qed.

Lemma chunks_aux_fuel {A} n (l : list A) j k :
  0 < n -> length l <= j -> length l <= k -> chunks_aux j n l = chunks_aux k n l.
Proof.
  intros Hn. revert k l. induction j as [|j IH]; intros [|k] [|x l] Hj Hk; simpl in *; try done; try lia.
  f_equal. apply IH; rewrite length_drop; simpl; lia.
Qed.

Lemma chunks_step {A} n (l : list A) :
  0 < n -> l <> [] -> chunks n l = take n l :: chunks n (drop n l).
Proof.
  intros Hn Hl. destruct l as [|x l]; [done|]. unfold chunks. cbn [length chunks_aux]. f_equal.
  apply chunks_aux_fuel; [done| |done]. rewrite length_drop. simpl. lia.
Qed.

Lemma chunks_length {A} n (l : list A) : 0 < n -> length (chunks n l) * n < length l + n.
Proof.
  intros Hn. induction l as [l IH] using (induction_ltof1 _ length). unfold ltof in IH.
  destruct (decide (l = [])) as [->|Hl]; [simpl; lia|]. rewrite chunks_step by done. simpl.
  assert (length l <> 0) by (by destruct l).
  specialize (IH (drop n l)). rewrite length_drop in IH. specialize (IH ltac:(lia)).
  destruct (decide (length l <= n)); [|lia].
  rewrite drop_ge by done. simpl. lia.
Qed.

(** ** Bit operations on [u8] *)
Definition bxor (a b : byte) : byte := zb (Z.lxor (bz a) (bz b)).
Definition band (a b : byte) : byte := zb (Z.land (bz a) (bz b)).
Definition bor (a b : byte) : byte := zb (Z.lor (bz a) (bz b)).
Definition bnot (a : byte) : byte := zb (255 - bz a).
Definition bshr (a : byte) (n : Z) : byte := zb (Z.shiftr (bz a) n).
Definition bshl (a : byte) (n : Z) : byte := zb (Z.shiftl (bz a) n).

Lemma bxor_comm a b : bxor a b = bxor b a.
Proof. unfold bxor. by rewrite Z.lxor_comm. Qed.

(** [a + b] on a [w]-bit type in a build with overflow checks. *)
Definition uadd {E} (w a b : Z) : outcome E Z :=
  if decide (a + b < 2 ^ w)%Z then Ok (a + b)%Z else Panic.

Lemma uadd_ok {E} w a b : (a + b < 2 ^ w)%Z -> uadd (E:=E) w a b = Ok (a + b)%Z.
Proof. intros. unfold uadd. by rewrite decide_True. Qed.

(** [a - b] on an unsigned type, [nsub] on [usize]. *)
Definition usub {E} (a b : Z) : outcome E Z := if decide (b <= a)%Z then Ok (a - b)%Z else Panic.
Definition nsub {E} (a b : nat) : outcome E nat := if decide (b <= a) then Ok (a - b) else Panic.

Lemma usub_ok {E} a b : (b <= a)%Z -> usub (E:=E) a b = Ok (a - b)%Z.
Proof. intros. unfold usub. by rewrite decide_True. Qed.
Lemma nsub_ok {E} a b : b <= a -> nsub (E:=E) a b = Ok (a - b).
Proof. intros. unfold nsub. by rewrite decide_True. Qed.

Lemma uadd_Ok_inv {E} w a b c : uadd (E:=E) w a b = Ok c -> c = (a + b)%Z /\ (a + b < 2 ^ w)%Z.
Proof. unfold uadd. case_decide; [|done]. by intros [= <-]. Qed.
Lemma nsub_Ok_inv {E} a b c : nsub (E:=E) a b = Ok c -> c = a - b /\ b <= a.
Proof. unfold nsub. case_decide; [|done]. by intros [= <-]. Qed.
Lemma slice_Ok_inv {E A} (l : list A) a b s : slice (E:=E) l a b = Ok s -> s = take (b - a) (drop a l) /\ a <= b <= length l.
Proof. unfold slice, get_range. case_decide; [|done]. by intros [= <-]. Qed.

(** [n as i64] *)
Definition as_i64 (n : Z) : Z := let n := wrap 64 n in if decide (n < 2 ^ 63)%Z then n else (n - 2 ^ 64)%Z.

(** A shifted value and a small one do not overlap: [|] is addition. *)
Lemma lor_shiftl x y k :
  (0 <= k)%Z -> (0 <= y < 2 ^ k)%Z -> Z.lor (Z.shiftl x k) y = (x * 2 ^ k + y)%Z.
Proof.
  intros Hk Hy. rewrite <- Z.shiftl_mul_pow2 by lia.
  assert (Z.land (Z.shiftl x k) y = 0)%Z as H0; [|pose proof (Z.add_lor_land (Z.shiftl x k) y); lia].
  apply Z.bits_inj'. intros i Hi. rewrite Z.land_spec, Z.bits_0.
  destruct (decide (i < k)%Z).
  - by rewrite Z.shiftl_spec_low by lia.
  - rewrite <- (Z.mod_small y (2 ^ k)) by lia. rewrite Z.mod_pow2_bits_high by lia. apply andb_false_r.
Qed.

(** ** Buffers made of segments

    A message with fields at fixed offsets is the concatenation of its
    segments; reading or writing a field is reading or replacing a segment. *)
Lemma slice_segs {E} (ls : list bytes) i j a b :
  i <= j -> a = length (concat (take i ls)) -> b = length (concat (take j ls)) ->
  slice (E:=E) (concat ls) a b = Ok (concat (drop i (take j ls))).
Proof.
  intros Hij -> ->. rewrite <- (take_drop j ls) at 1. rewrite concat_app.
  assert (take i ls = take i (take j ls)) as -> by (rewrite take_take; f_equal; lia).
  rewrite <- (take_drop i (take j ls)) at 1 3. rewrite !concat_app, <- app_assoc.
  apply slice_seg; [done|]. by rewrite length_app.
Qed.

Lemma slice_nth {E} (ls : list bytes) i m a b :
  ls !! i = Some m -> a = length (concat (take i ls)) -> b = a + length m ->
  slice (E:=E) (concat ls) a b = Ok m.
Proof.
  intros Hi -> ->. rewrite <- (take_drop_middle ls i m Hi) at 1. rewrite concat_app.
  by apply slice_seg.
Qed.

Lemma copy_seg {E} (ls : list bytes) i m a b src :
  ls !! i = Some m -> length src = length m ->
  a = length (concat (take i ls)) -> b = a + length m ->
  copy_range (E:=E) (concat ls) a b src = Ok (concat (<[i:=src]> ls)).
Proof.
  intros Hi Hs -> ->. set (A := concat (take i ls)). set (B := concat (drop (S i) ls)).
  assert (concat ls = A ++ m ++ B) as ->.
  { rewrite <- (take_drop_middle ls i m Hi). by rewrite concat_app. }
  assert (concat (<[i:=src]> ls) = A ++ src ++ B) as ->.
  { rewrite insert_take_drop by by eapply lookup_lt_Some. by rewrite concat_app. }
  rewrite copy_range_ok by len. f_equal. by apply overwrite_seg.
Qed.

(** Splitting a buffer into segments of given lengths, and the rest. *)
Lemma set_seg {E} (ls : list bytes) i x a y :
  ls !! i = Some [x] -> a = length (concat (take i ls)) ->
  set_at (E:=E) (concat ls) a y = Ok (concat (<[i:=[y]]> ls)).
Proof.
  intros Hi ->. assert (i < length ls) by by eapply lookup_lt_Some.
  rewrite insert_take_drop by done. rewrite concat_app.
  rewrite <- (take_drop_middle ls i [x] Hi) at 1. rewrite concat_app. cbn [concat app].
  rewrite (set_at_app_r _ _ 0) by (simpl; lia). done.
Qed.

Lemma segments ns l :
  sum_list ns <= length l -> exists ss, l = concat (ss ++ [drop (sum_list ns) l]) /\ map (@length byte) ss = ns.
Proof.
  revert l. induction ns as [|n ns IH]; intros l Hl.
  - exists []. change (sum_list []) with 0. rewrite drop_0. cbn. by rewrite app_nil_r.
  - change (sum_list (n :: ns)) with (n + sum_list ns) in *.
    destruct (IH (drop n l)) as (ss & Hs & Hm); [rewrite length_drop; lia|].
    exists (take n l :: ss). rewrite <- drop_drop. cbn [app concat map]. rewrite <- Hs, take_drop. split; [done|].
    f_equal; [|done]. rewrite length_take. lia.
Qed.

(** One write to the [i]-th segment of a buffer in segment form. *)
Ltac seg_side := done || lia || (cbn [take concat]; len).
Tactic Notation "copy_step" constr(i) constr(s) :=
  rewrite (copy_seg _ i s) by seg_side; cbn [obind insert list_insert].
Tactic Notation "set_step" constr(i) constr(x) :=
  rewrite (set_seg _ i x) by seg_side; cbn [obind insert list_insert].

(** Byte arrays compare like the integers they spell in big-endian order. *)
Fixpoint bytes_gt (a b : bytes) : bool :=
  match a, b with
  | x :: a, y :: b => if decide (x = y) then bytes_gt a b else bool_decide (bz y < bz x)%Z
  | _ :: _, [] => true
  | [], _ => false
  end.

Lemma from_be_cons b l : from_be (b :: l) = (bz b * 256 ^ Z.of_nat (length l) + from_be l)%Z.
Proof.
  unfold from_be. simpl rev. rewrite <- (length_rev l). generalize (rev l). clear l.
  intros l. induction l as [|c l IH]; simpl app; cbn [from_le length]; [simpl; lia|].
  rewrite IH, Nat2Z.inj_succ, Z.pow_succ_r by lia. lia.
Qed.

Lemma bytes_gt_from_be a b : length a = length b -> bytes_gt a b = true <-> (from_be b < from_be a)%Z.
Proof.
  revert b. induction a as [|x a IH]; intros [|y b] Hl; try done; cbn [bytes_gt].
  injection Hl as Hl. rewrite !from_be_cons, Hl. pose proof (from_be_range a) as Ha. pose proof (from_be_range b) as Hb.
  rewrite Hl in Ha. case_decide as Hxy.
  - subst. rewrite (IH b Hl). lia.
  - rewrite bool_decide_eq_true. assert (bz x <> bz y) by (intros E; by apply Hxy, bz_inj). split; nia.
Qed.
