(* ===== verification/Decimal.v ===== *)
(** Decimal rendering and parsing.

    Four functions of the core render an integer into a fixed array from the
    right ([json::Writer::u64_value], [h2::write_usize], [noise::decimal],
    [control::write_region_key]) with the same loop; [dec_loop] is that loop.
    [dec] is the reference rendering, [dec_value] reads digits back, and
    [parse_uint] is [str::parse] of the standard library for unsigned types. *)
From S2P Require Import Prelude.

(** [while v > 0 { i -= 1; buf[i] = b'0' + (v % 10) as u8; v /= 10; }] *)
Fixpoint dec_loop {E} (fuel : nat) (v : Z) (i : nat) (buf : bytes) : outcome E (nat * bytes) :=
  match fuel with
  | O => NoFuel
  | S fuel =>
      if decide (0 < v)%Z then
        match i with
        | O => Panic
        | S i =>
            let? buf := set_at buf i (zb (48 + v mod 10)) in
            dec_loop fuel (v / 10) i buf
        end
      else Ok (i, buf)
  end.

(** [buf.copy_within(i..n, 0); &buf[..n - i]] *)
Definition dec_compact {E} (n i : nat) (buf : bytes) : outcome E bytes :=
  let? tail := slice buf i n in
  slice (overwrite buf 0 tail) 0 (n - i).

(** The decimal digits of [v], most significant first, no leading zero. *)
Fixpoint dec_aux (fuel : nat) (v : Z) (acc : bytes) : bytes :=
  match fuel with
  | O => acc
  | S fuel => if decide (0 < v)%Z then dec_aux fuel (v / 10) (zb (48 + v mod 10) :: acc) else acc
  end.
Definition dec (v : Z) : bytes := if decide (v = 0)%Z then [x30] else dec_aux 20 v [].

Definition is_digit (b : byte) : bool := bool_decide (48 <= bz b <= 57)%Z.

(** The value of a digit string. *)
Definition dec_value (l : bytes) : Z := fold_left (fun a b => (10 * a + (bz b - 48))%Z) l 0%Z.

(** [s.parse::<uN>().ok()] with [max] the largest [uN]: an optional [+], at
    least one digit, no overflow at any step. *)
Fixpoint parse_digits (max acc : Z) (l : bytes) : option Z :=
  match l with
  | [] => Some acc
  | b :: l =>
      if is_digit b then
        let v := (10 * acc + (bz b - 48))%Z in
        if decide (v <= max)%Z then parse_digits max v l else None
      else None
  end.
Definition strip_plus (s : bytes) : bytes :=
  match s with
  | b :: ((_ :: _) as t) => if decide (b = x2b) then t else s
  | _ => s
  end.
Definition parse_uint (max : Z) (s : bytes) : option Z :=
  match strip_plus s with [] => None | s => parse_digits max 0 s end.

Lemma digit_bz v : bz (zb (48 + v mod 10)) = (48 + v mod 10)%Z.
Proof. apply bz_zb_small. pose proof (Z.mod_pos_bound v 10). lia. Qed.

Lemma pow10_div v i : (0 <= v < 10 ^ Z.of_nat (S i))%Z -> (0 <= v / 10 < 10 ^ Z.of_nat i)%Z.
Proof.
  rewrite Nat2Z.inj_succ, Z.pow_succ_r by lia. intros.
  split; [apply Z.div_pos; lia|]. apply Z.div_lt_upper_bound; lia.
Qed.

Lemma dec_aux_app fuel v acc : dec_aux fuel v acc = dec_aux fuel v [] ++ acc.
Proof.
  revert v acc. induction fuel as [|fuel IH]; intros; simpl; [done|].
  case_decide; [|done]. rewrite IH, (IH _ [_]), <- app_assoc. done.
Qed.

Lemma dec_aux_fuel n m v acc :
  (0 <= v < 10 ^ Z.of_nat n)%Z -> n <= m -> dec_aux m v acc = dec_aux n v acc.
Proof.
  revert m v acc. induction n as [|n IH]; intros m v acc Hv Hm.
  { destruct m; simpl in *; [done|]. rewrite decide_False; [done|lia]. }
  destruct m as [|m]; [lia|]. simpl. case_decide; [|done].
  apply IH; [by apply pow10_div|lia].
Qed.

Lemma dec_aux_length n v acc :
  (0 <= v < 10 ^ Z.of_nat n)%Z -> length (dec_aux n v acc) <= n + length acc.
Proof.
  revert v acc. induction n as [|n IH]; intros v acc Hv; [done|]. cbn [dec_aux].
  case_decide; [|lia]. etrans; [apply IH; by apply pow10_div|]. simpl. lia.
Qed.

(** The loop writes the digits at the right end of the free prefix. *)
Lemma dec_loop_spec {E} n v pre acc fuel :
  (0 <= v < 10 ^ Z.of_nat n)%Z -> length pre = n -> n < fuel ->
  exists k, k <= n /\
    dec_loop (E:=E) fuel v n (pre ++ acc) = Ok (k, take k pre ++ dec_aux n v acc).
Proof.
  revert v pre acc fuel. induction n as [|n IH]; intros v pre acc fuel Hv Hp Hf;
    (destruct fuel as [|fuel]; [lia|]); cbn [dec_loop dec_aux].
  { destruct pre; [|done]. rewrite decide_False by (simpl in Hv; lia).
    exists 0. done. }
  destruct (decide (0 < v)%Z).
  - destruct pre as [|b pre _] using rev_ind; [done|].
    rewrite length_app in Hp. simpl in Hp.
    rewrite set_at_ok by len. simpl.
    rewrite <- (app_assoc pre). rewrite insert_app_r_alt by lia.
    replace (n - length pre) with 0 by lia. simpl.
    destruct (IH (v / 10)%Z pre (zb (48 + v mod 10) :: acc) fuel) as (k & Hk & ->);
      [by apply pow10_div|lia|lia|].
    exists k. split; [lia|]. rewrite take_app_le by lia. done.
  - exists (S n). split; [lia|]. rewrite take_ge by lia. done.
Qed.

Lemma dec_aux_value n v acc :
  (0 <= v < 10 ^ Z.of_nat n)%Z ->
  dec_value (dec_aux n v acc) = fold_left (fun a b => (10 * a + (bz b - 48))%Z) acc v.
Proof.
  revert v acc. induction n as [|n IH]; intros v acc Hv.
  { simpl in *. by replace v with 0%Z by lia. }
  cbn [dec_aux]. case_decide.
  - rewrite IH by (by apply pow10_div). simpl. rewrite digit_bz. f_equal.
    pose proof (Z.div_mod v 10). lia.
  - by replace v with 0%Z by lia.
Qed.

Lemma dec_loop_length {E} m v k fuel (pre acc r : bytes) :
  length pre = m -> dec_loop (E:=E) fuel v m (pre ++ acc) = Ok (k, r) -> length r = m + length acc.
Proof.
  revert v k fuel pre acc r. induction m as [|m IH]; intros v k [|fuel] pre acc r Hp; simpl; try discriminate;
    case_decide; try discriminate; try (intros [= <- <-]; len).
  destruct pre as [|b pre _] using rev_ind; [done|].
  rewrite length_app in Hp. simpl in Hp.
  rewrite set_at_ok by len. simpl. rewrite <- (app_assoc pre).
  rewrite insert_app_r_alt by lia. replace (m - length pre) with 0 by lia. simpl.
  intros Hr%IH; len.
Qed.

(** On a zeroed array: the digits end up at the right, from index [k]. *)
Lemma dec_loop_zeros {E} n v fuel :
  (0 <= v < 10 ^ Z.of_nat n)%Z -> n < fuel ->
  exists k, k <= n /\ length (dec_aux n v []) = n - k /\
    dec_loop (E:=E) fuel v n (zeros n) = Ok (k, take k (zeros n) ++ dec_aux n v []).
Proof.
  intros Hv Hf. destruct (dec_loop_spec (E:=E) n v (zeros n) [] fuel) as (k & Hk & Hd);
    [done|apply length_zeros|done|].
  exists k. pose proof (dec_loop_length n v k fuel (zeros n) [] _ (length_zeros n) Hd) as Hl.
  rewrite app_nil_r in Hd. split_and!; [done| |done]. len.
Qed.

Lemma dec_loop_compact {E} n v fuel :
  (0 <= v < 10 ^ Z.of_nat n)%Z -> n < fuel ->
  (let? (i, buf) := dec_loop (E:=E) fuel v n (zeros n) in dec_compact n i buf)
  = Ok (dec_aux n v []).
Proof.
  intros Hv Hf. destruct (dec_loop_zeros (E:=E) n v fuel Hv Hf) as (k & Hk & Hlen & Hd).
  rewrite Hd. cbn [obind]. unfold dec_compact.
  rewrite slice_ok by len. cbn [obind].
  rewrite drop_app_length' by len. rewrite (take_ge (dec_aux n v [])) by len.
  rewrite slice_to by (rewrite length_overwrite; len).
  f_equal. unfold overwrite. simpl. rewrite take_app_le by len. by rewrite (take_ge (dec_aux n v [])) by len.
Qed.

Lemma dec_aux_dec n v : (0 < v < 10 ^ Z.of_nat n)%Z -> n <= 20 -> dec_aux n v [] = dec v.
Proof.
  intros Hv Hn. unfold dec. rewrite decide_False by lia.
  symmetry. apply dec_aux_fuel; [lia|done].
Qed.

Lemma dec_dec_value v : (0 <= v < 10 ^ 20)%Z -> dec_value (dec v) = v.
Proof.
  intros. unfold dec. case_decide; [by subst|]. by rewrite dec_aux_value.
Qed.

Lemma dec_aux_digits fuel v acc :
  Forall (fun b => is_digit b = true) acc -> Forall (fun b => is_digit b = true) (dec_aux fuel v acc).
Proof.
  revert v acc. induction fuel as [|fuel IH]; intros v acc Hacc; simpl; [done|].
  case_decide; [|done]. apply IH. constructor; [|done].
  apply bool_decide_eq_true. rewrite digit_bz. pose proof (Z.mod_pos_bound v 10). lia.
Qed.

Lemma dec_digits v : Forall (fun b => is_digit b = true) (dec v).
Proof. unfold dec. case_decide; [by repeat constructor|]. by apply dec_aux_digits. Qed.

Lemma dec_aux_nonempty fuel v : (0 < v)%Z -> dec_aux (S fuel) v [] <> [].
Proof.
  intros Hv. cbn [dec_aux]. rewrite decide_True by done. rewrite dec_aux_app.
  by destruct (dec_aux fuel (v / 10) []).
Qed.

Lemma dec_nonempty v : (0 <= v)%Z -> dec v <> [].
Proof. intros Hv. unfold dec. case_decide; [done|]. apply dec_aux_nonempty. lia. Qed.

Lemma dec_length v : (0 <= v < 10 ^ 20)%Z -> 1 <= length (dec v) <= 20.
Proof.
  intros Hv. split.
  - pose proof (dec_nonempty v ltac:(lia)). destruct (dec v); simpl; [done|lia].
  - unfold dec. case_decide; [simpl; lia|].
    etrans; [by apply (dec_aux_length 20)|]. simpl. lia.
Qed.

Lemma fold_value_ge l a :
  (0 <= a)%Z -> Forall (fun b => is_digit b = true) l ->
  (a <= fold_left (fun a b => (10 * a + (bz b - 48))%Z) l a)%Z.
Proof.
  revert a. induction l as [|b l IH]; intros a Ha Hl; simpl; [lia|].
  apply Forall_cons_1 in Hl as [Hb Hl]. apply bool_decide_eq_true in Hb.
  specialize (IH (10 * a + (bz b - 48))%Z ltac:(lia) Hl). lia.
Qed.

Lemma parse_digits_value max acc l :
  (0 <= acc)%Z -> Forall (fun b => is_digit b = true) l ->
  (fold_left (fun a b => (10 * a + (bz b - 48))%Z) l acc <= max)%Z ->
  parse_digits max acc l = Some (fold_left (fun a b => (10 * a + (bz b - 48))%Z) l acc).
Proof.
  revert acc. induction l as [|b l IH]; intros acc Ha Hl Hm; simpl in *; [done|].
  apply Forall_cons_1 in Hl as [Hb Hl]. rewrite Hb. apply bool_decide_eq_true in Hb.
  pose proof (fold_value_ge l (10 * acc + (bz b - 48)) ltac:(lia) Hl).
  rewrite decide_True by lia. apply IH; [lia|done|done].
Qed.

Lemma parse_digits_range max acc l v :
  (0 <= acc)%Z -> (acc <= max)%Z -> parse_digits max acc l = Some v -> (0 <= v <= max)%Z.
Proof.
  revert acc. induction l as [|b l IH]; intros acc Ha Hm; simpl; [intros [= <-]; lia|].
  destruct (is_digit b) eqn:Hb; [|done]. apply bool_decide_eq_true in Hb.
  case_decide; [|done]. apply IH; lia.
Qed.

(** Parsing a rendered integer gives it back. *)
Lemma parse_uint_dec max v :
  (0 <= v <= max)%Z -> (v < 10 ^ 20)%Z -> parse_uint max (dec v) = Some v.
Proof.
  intros Hv Hb. unfold parse_uint.
  assert (strip_plus (dec v) = dec v) as ->.
  { pose proof (dec_digits v) as Hd. unfold strip_plus.
    destruct (dec v) as [|b [|c l]]; try done. case_decide; [|done]. subst.
    by apply Forall_cons_1 in Hd as [Hd _]. }
  destruct (dec v) as [|b l] eqn:E; [by apply dec_nonempty in E; lia|]. rewrite <- E.
  rewrite parse_digits_value; try lia.
  - fold (dec_value (dec v)). rewrite dec_dec_value; [done|lia].
  - apply dec_digits.
  - fold (dec_value (dec v)). rewrite dec_dec_value; lia.
Qed.
