(* ===== verification/Utf8.v ===== *)
(** UTF-8 validation, as [core::str::from_utf8] performs it.

    A Rust [&str] is a byte list for which [utf8_valid] holds; [from_utf8]
    is the checked conversion the parsers call. *)
From S2P Require Import Prelude.

Definition in_range (lo hi : Z) (b : byte) : bool := bool_decide (lo <= bz b <= hi)%Z.
Definition is_ascii (b : byte) : bool := in_range 0 127 b.
Definition is_cont (b : byte) : bool := in_range 128 191 b.

(** Second byte allowed after a three-byte lead: no overlong form, no surrogate. *)
Definition second3 (b0 b1 : byte) : bool :=
  if in_range 224 224 b0 then in_range 160 191 b1
  else if in_range 237 237 b0 then in_range 128 159 b1
  else in_range 225 239 b0 && is_cont b1.

(** Second byte allowed after a four-byte lead: at most U+10FFFF. *)
Definition second4 (b0 b1 : byte) : bool :=
  if in_range 240 240 b0 then in_range 144 191 b1
  else if in_range 244 244 b0 then in_range 128 143 b1
  else in_range 241 243 b0 && is_cont b1.

(** The tail after one well-formed character. *)
Definition utf8_step (l : bytes) : option bytes :=
  match l with
  | [] => None
  | b0 :: l0 =>
      if is_ascii b0 then Some l0
      else match l0 with
      | [] => None
      | b1 :: l1 =>
          if in_range 194 223 b0 then if is_cont b1 then Some l1 else None
          else match l1 with
          | [] => None
          | b2 :: l2 =>
              if in_range 224 239 b0 then if second3 b0 b1 && is_cont b2 then Some l2 else None
              else match l2 with
              | [] => None
              | b3 :: l3 =>
                  if second4 b0 b1 && is_cont b2 && is_cont b3 then Some l3 else None
              end
          end
      end
  end.

Fixpoint utf8_fuel (fuel : nat) (l : bytes) : bool :=
  match l, fuel with
  | [], _ => true
  | _, O => false
  | _, S fuel => match utf8_step l with Some r => utf8_fuel fuel r | None => false end
  end.

Definition utf8_valid (l : bytes) : bool := utf8_fuel (length l) l.

(** [core::str::from_utf8(l).ok()] *)
Definition from_utf8 (l : bytes) : option bytes := if utf8_valid l then Some l else None.

Lemma utf8_step_shape l r :
  utf8_step l = Some r ->
  exists c, l = c ++ r /\ 0 < length c <= 4 /\ (forall s, utf8_step (c ++ s) = Some s) /\
    ((exists b, c = [b] /\ is_ascii b = true) \/ Forall (fun b => is_ascii b = false) c).
Proof.
  assert (forall b, is_cont b = true -> is_ascii b = false) as Hc.
  { intros b. unfold is_cont, is_ascii, in_range. rewrite bool_decide_eq_true, bool_decide_eq_false. lia. }
  assert (forall b c, second3 b c = true -> is_ascii c = false) as H3.
  { intros b c. unfold second3, is_cont, is_ascii, in_range.
    repeat case_bool_decide; simpl; rewrite ?bool_decide_eq_true, ?bool_decide_eq_false; try done; lia. }
  assert (forall b c, second4 b c = true -> is_ascii c = false) as H4.
  { intros b c. unfold second4, is_cont, is_ascii, in_range.
    repeat case_bool_decide; simpl; rewrite ?bool_decide_eq_true, ?bool_decide_eq_false; try done; lia. }
  intros H. destruct l as [|b0 l0]; [done|]. simpl in H.
  destruct (is_ascii b0) eqn:E0.
  { injection H as ->. exists [b0]. split_and!; simpl; try lia; try done.
    - intros s. by rewrite E0.
    - left. by exists b0. }
  destruct l0 as [|b1 l1]; [done|].
  destruct (in_range 194 223 b0) eqn:E1.
  { destruct (is_cont b1) eqn:E2; [|done]. injection H as ->. exists [b0; b1].
    split_and!; simpl; try lia; try done.
    - intros s. by rewrite E0, E1, E2.
    - right. repeat constructor; auto. }
  destruct l1 as [|b2 l2]; [done|].
  destruct (in_range 224 239 b0) eqn:E3.
  { destruct (second3 b0 b1) eqn:E4, (is_cont b2) eqn:E5; try done. simpl in H.
    injection H as ->. exists [b0; b1; b2]. split_and!; simpl; try lia; try done.
    - intros s. by rewrite E0, E1, E3, E4, E5.
    - right. repeat constructor; eauto. }
  destruct l2 as [|b3 l3]; [done|].
  destruct (second4 b0 b1) eqn:E4, (is_cont b2) eqn:E5, (is_cont b3) eqn:E6; try done.
  simpl in H. injection H as ->. exists [b0; b1; b2; b3]. split_and!; simpl; try lia; try done.
  - intros s. by rewrite E0, E1, E3, E4, E5, E6.
  - right. repeat constructor; eauto.
Qed.

Lemma utf8_fuel_enough n m l : length l <= n -> length l <= m -> utf8_fuel n l = utf8_fuel m l.
Proof.
  revert m l. induction n as [|n IH]; intros m l Hn Hm.
  { destruct l; [by destruct m|simpl in Hn; lia]. }
  destruct l as [|b l]; [by destruct m|]. destruct m as [|m]; [simpl in Hm; lia|].
  cbn [utf8_fuel]. destruct (utf8_step (b :: l)) as [r|] eqn:E; [|done].
  apply utf8_step_shape in E as (c & Hc & Hl & _).
  apply (f_equal length) in Hc. rewrite length_app in Hc. simpl in *. apply IH; lia.
Qed.

(** One character, then the rest: the recursion that [utf8_valid] follows. *)
Lemma utf8_valid_step l r : utf8_step l = Some r -> utf8_valid l = utf8_valid r.
Proof.
  intros H. unfold utf8_valid. pose proof (utf8_step_shape _ _ H) as (c & -> & Hl & _).
  rewrite length_app. destruct c as [|b c]; [simpl in Hl; lia|].
  change ((b :: c) ++ r) with (b :: (c ++ r)) in *.
  change (length (b :: c) + length r) with (S (length c + length r)).
  cbn [utf8_fuel]. rewrite H. apply utf8_fuel_enough; lia.
Qed.

Lemma utf8_valid_inv l : utf8_valid l = true -> l = [] \/ exists r, utf8_step l = Some r /\ utf8_valid r = true.
Proof.
  destruct l as [|b l]; [by left|]. right. unfold utf8_valid in *. cbn [length utf8_fuel] in *.
  destruct (utf8_step (b :: l)) as [r|] eqn:E; [|done]. exists r. split; [done|].
  pose proof (utf8_step_shape _ _ E) as (c & Hc & Hl & _).
  apply (f_equal length) in Hc. rewrite length_app in Hc. simpl in Hc.
  rewrite <- H. apply utf8_fuel_enough; lia.
Qed.

(** Induction over the characters of a valid string. *)
Lemma utf8_ind (P : bytes -> Prop) :
  P [] -> (forall c r, (forall s, utf8_step (c ++ s) = Some s) ->
     ((exists b, c = [b] /\ is_ascii b = true) \/ Forall (fun b => is_ascii b = false) c) ->
     utf8_valid r = true -> P r -> P (c ++ r)) ->
  forall l, utf8_valid l = true -> P l.
Proof.
  intros H0 HS l. remember (length l) as n eqn:Hn. assert (length l <= n) as Hl by lia. clear Hn.
  revert l Hl. induction n as [|n IH]; intros l Hl Hv.
  { by destruct l; [|simpl in Hl; lia]. }
  apply utf8_valid_inv in Hv as [->|(r & Hs & Hr)]; [done|].
  apply utf8_step_shape in Hs as (c & -> & Hc & Hst & Ha).
  apply HS; try done. apply IH; [|done]. rewrite length_app in Hl. lia.
Qed.

Lemma utf8_valid_app l1 l2 : utf8_valid l1 = true -> utf8_valid (l1 ++ l2) = utf8_valid l2.
Proof.
  revert l1. apply (utf8_ind (fun l1 => utf8_valid (l1 ++ l2) = utf8_valid l2)); [done|].
  intros c r Hs _ _ IH. rewrite <- app_assoc, <- IH. by apply utf8_valid_step.
Qed.

Lemma utf8_ascii l : Forall (fun b => is_ascii b = true) l -> utf8_valid l = true.
Proof.
  induction 1 as [|b l Hb Hl IH]; [done|]. rewrite <- IH. apply utf8_valid_step. simpl. by rewrite Hb.
Qed.

Lemma from_utf8_valid l : utf8_valid l = true -> from_utf8 l = Some l.
Proof. unfold from_utf8. by intros ->. Qed.

Lemma from_utf8_Some l r : from_utf8 l = Some r -> r = l /\ utf8_valid l = true.
Proof. unfold from_utf8. destruct (utf8_valid l); [|done]. by intros [= <-]. Qed.
