(* ===== verification/Crypto.v ===== *)
(** Cryptographic primitives and [crypto.rs].

    The hash, the keyed MAC, X25519 and the two AEADs come from third-party
    crates (blake2, x25519-dalek, chacha20poly1305, crypto_box): they are the
    fields of the class [Primitives], and what the protocol code relies on is
    the class [PrimitiveLaws]. The constructions that [crypto.rs] builds on top
    of them (HMAC, the KDF) are definitions. [Toy] instantiates both classes by
    concrete functions for the examples. *)
From S2P Require Import Prelude.

Class Primitives : Type := {
  (** [Blake2s256]: the digest of everything passed to [update]. *)
  blake2s256 : bytes -> bytes;
  (** [Blake2sMac<U16>]: [None] when [new_from_slice] refuses the key. *)
  blake2s_mac16 : bytes -> bytes -> option bytes;
  (** [XPublic::from(&StaticSecret)] and [diffie_hellman]. *)
  x25519_public : bytes -> bytes;
  x25519_dh : bytes -> bytes -> bytes;
  (** [encrypt_in_place_detached(nonce, ad, plaintext)] under a key, giving the
      ciphertext and the tag, and its inverse. *)
  chacha_encrypt : bytes -> bytes -> bytes -> bytes -> option (bytes * bytes);
  chacha_decrypt : bytes -> bytes -> bytes -> bytes -> bytes -> option bytes;
  (** [SalsaBox::new(public, secret)] then encrypt or decrypt, no associated data. *)
  box_encrypt : bytes -> bytes -> bytes -> bytes -> option (bytes * bytes);
  box_decrypt : bytes -> bytes -> bytes -> bytes -> bytes -> option bytes;
}.

(** The documented behaviour the protocol code relies on. Both AEADs refuse
    only plaintexts far above any buffer here; 2^32 bytes is below both limits. *)
Class PrimitiveLaws (P : Primitives) : Prop := {
  blake2s256_length m : length (blake2s256 m) = 32;
  blake2s_mac16_ok k m : length k <= 32 -> exists t, blake2s_mac16 k m = Some t /\ length t = 16;
  x25519_public_length s : length s = 32 -> length (x25519_public s) = 32;
  x25519_dh_length s p : length s = 32 -> length p = 32 -> length (x25519_dh s p) = 32;
  x25519_dh_comm a b : length a = 32 -> length b = 32 ->
    x25519_dh a (x25519_public b) = x25519_dh b (x25519_public a);
  chacha_encrypt_ok k n ad p : length k = 32 -> length n = 12 -> (Z.of_nat (length p) < 2 ^ 32)%Z ->
    exists c t, chacha_encrypt k n ad p = Some (c, t) /\ length c = length p /\ length t = 16;
  chacha_decrypt_encrypt k n ad p c t :
    chacha_encrypt k n ad p = Some (c, t) -> chacha_decrypt k n ad c t = Some p;
  chacha_decrypt_length k n ad c t p : chacha_decrypt k n ad c t = Some p -> length p = length c;
  box_encrypt_ok pk sk n p : length pk = 32 -> length sk = 32 -> length n = 24 ->
    (Z.of_nat (length p) < 2 ^ 32)%Z ->
    exists c t, box_encrypt pk sk n p = Some (c, t) /\ length c = length p /\ length t = 16;
  box_decrypt_encrypt a b n p c t : length a = 32 -> length b = 32 ->
    box_encrypt (x25519_public b) a n p = Some (c, t) ->
    box_decrypt (x25519_public a) b n c t = Some p;
  box_decrypt_length pk sk n c t p : box_decrypt pk sk n c t = Some p -> length p = length c;
}.

Definition BLAKE2S_BLOCK : nat := 64.
Definition HASH_LEN : nat := 32.
Definition MAC_LEN : nat := 16.

Section Crypto.
Context `{P : Primitives}.

Definition hash (data : bytes) : bytes := blake2s256 data.

(** Updating part by part hashes the concatenation. *)
Definition hash_parts (parts : list bytes) : bytes := blake2s256 (concat parts).

(** HMAC: [padded] is the block-sized key, hashed down first when it is longer
    than a block. *)
Definition hmac (key : bytes) (parts : list bytes) : bytes :=
  let padded :=
    if decide (BLAKE2S_BLOCK < length key)
    then overwrite (zeros BLAKE2S_BLOCK) 0 (hash key)
    else overwrite (zeros BLAKE2S_BLOCK) 0 key in
  let ipad := zip_with bxor (replicate BLAKE2S_BLOCK x36) padded in
  let opad := zip_with bxor (replicate BLAKE2S_BLOCK x5c) padded in
  let inner := blake2s256 (ipad ++ concat parts) in
  blake2s256 (opad ++ inner).

(** The loop [for i in 0..N] of [kdf], with the outputs so far. *)
Fixpoint kdf_loop (n : nat) (prk : bytes) (i : nat) (out : list bytes) : list bytes :=
  match n with
  | O => out
  | S n =>
      let counter := [zb (Z.of_nat (i + 1))] in
      let o := match i with
               | O => hmac prk [counter]
               | S j => hmac prk [default (zeros HASH_LEN) (out !! j); counter]
               end in
      kdf_loop n prk (S i) (out ++ [o])
  end.

Definition kdf (n : nat) (key input : bytes) : list bytes :=
  kdf_loop n (hmac key [input]) 0 [].

(** The array patterns [let [a] = kdf::<1>(..)], [let [a, b] = kdf::<2>(..)] and
    [let [a, b, c] = kdf::<3>(..)] of the callers. *)
Definition kdf1 (key input : bytes) : bytes :=
  match kdf 1 key input with [a] => a | _ => [] end.
Definition kdf2 (key input : bytes) : bytes * bytes :=
  match kdf 2 key input with [a; b] => (a, b) | _ => ([], []) end.
Definition kdf3 (key input : bytes) : bytes * bytes * bytes :=
  match kdf 3 key input with [a; b; c] => (a, b, c) | _ => ([], [], []) end.

(** The [expect] on the key length makes a longer key a panic. *)
Definition keyed_mac {E} (key : bytes) (parts : list bytes) : outcome E bytes :=
  unwrap (blake2s_mac16 key (concat parts)).

(** *** RFC 2104 and RFC 5869 as references *)

(** The key as one block: hashed if too long, then padded with zeros. *)
Definition rfc2104_block (key : bytes) : bytes :=
  let k := if decide (64 < length key) then blake2s256 key else key in
  k ++ zeros (64 - length k).
Definition rfc2104_hmac (key text : bytes) : bytes :=
  let k := rfc2104_block key in
  blake2s256 (map (bxor x5c) k ++ blake2s256 (map (bxor x36) k ++ text)).

(** [T(i)] of HKDF-Expand with an empty info string; [T(0)] is empty. *)
Fixpoint rfc5869_T (prk : bytes) (i : nat) : bytes :=
  match i with
  | O => []
  | S j => rfc2104_hmac prk (rfc5869_T prk j ++ [zb (Z.of_nat i)])
  end.
Definition rfc5869 (n : nat) (salt ikm : bytes) : list bytes :=
  map (rfc5869_T (rfc2104_hmac salt ikm)) (seq 1 n).

Lemma hash_parts_concat parts : hash_parts parts = hash (concat parts).
Proof. reflexivity. Qed.

Lemma zip_with_replicate {A B C} (f : A -> B -> C) n x l :
  length l = n -> zip_with f (replicate n x) l = map (f x) l.
Proof. intros <-. induction l as [|y l IH]; simpl; [done|]. by f_equal. Qed.

Context `{L : !PrimitiveLaws P}.

Lemma hmac_rfc2104 key parts : hmac key parts = rfc2104_hmac key (concat parts).
Proof.
  unfold hmac, rfc2104_hmac.
  assert ((if decide (BLAKE2S_BLOCK < length key) then overwrite (zeros BLAKE2S_BLOCK) 0 (hash key)
           else overwrite (zeros BLAKE2S_BLOCK) 0 key) = rfc2104_block key) as ->.
  { unfold rfc2104_block, overwrite, BLAKE2S_BLOCK, hash, zeros. simpl take. rewrite app_nil_l, Nat.add_0_l.
    case_decide; rewrite drop_replicate; done. }
  assert (length (rfc2104_block key) = BLAKE2S_BLOCK) as Hl.
  { unfold rfc2104_block, BLAKE2S_BLOCK. case_decide; rewrite length_app, length_zeros.
    - rewrite blake2s256_length. done.
    - lia. }
  rewrite !zip_with_replicate by done. done.
Qed.

Lemma hmac_length key parts : length (hmac key parts) = 32.
Proof. unfold hmac. apply blake2s256_length. Qed.

Lemma kdf_loop_spec n prk i out :
  out = map (rfc5869_T prk) (seq 1 i) ->
  kdf_loop n prk i out = map (rfc5869_T prk) (seq 1 (i + n)).
Proof.
  revert i out. induction n as [|n IH]; intros i out Ho; simpl; [by rewrite Nat.add_0_r|].
  rewrite (IH (S i)); [f_equal; f_equal; lia|].
  replace (S i) with (i + 1) by lia. rewrite seq_app, map_app, <- Ho. f_equal. simpl.
  rewrite Nat.add_comm. destruct i as [|j]; simpl; rewrite hmac_rfc2104; simpl.
  - done.
  - subst out. rewrite list_lookup_fmap, lookup_seq_lt by lia. simpl.
    done.
Qed.

Lemma kdf_rfc5869 n key input : kdf n key input = rfc5869 n key input.
Proof.
  unfold kdf, rfc5869. rewrite (kdf_loop_spec n _ 0 []) by done.
  rewrite hmac_rfc2104. simpl. by rewrite app_nil_r.
Qed.

Lemma kdf1_length k i : length (kdf1 k i) = 32.
Proof. apply hmac_length. Qed.
Lemma kdf2_length k i : length (kdf2 k i).1 = 32 /\ length (kdf2 k i).2 = 32.
Proof. split; apply hmac_length. Qed.
Lemma kdf3_length k i :
  length (kdf3 k i).1.1 = 32 /\ length (kdf3 k i).1.2 = 32 /\ length (kdf3 k i).2 = 32.
Proof. split_and!; apply hmac_length. Qed.

Lemma keyed_mac_ok {E} key parts :
  length key <= 32 -> exists t, keyed_mac (E:=E) key parts = Ok t /\ length t = 16.
Proof.
  intros Hk. destruct (blake2s_mac16_ok key (concat parts) Hk) as (t & Ht & Hl).
  exists t. unfold keyed_mac. by rewrite Ht.
Qed.

(** C40. The in-place key derivation is the standard one: [hmac] is RFC 2104 over
    BLAKE2s for a key of any length, and [kdf] is the [n] blocks of HKDF
    (RFC 5869) with an empty info, of 32 bytes each. *)
Theorem kdf_is_hkdf n (key input : bytes) (parts : list bytes) :
  hmac key parts = rfc2104_hmac key (concat parts) /\ kdf n key input = rfc5869 n key input /\
  length (kdf n key input) = n /\ Forall (fun k => length k = 32) (kdf n key input).
Proof.
  split; [apply hmac_rfc2104|]. rewrite kdf_rfc5869. unfold rfc5869. rewrite length_map, length_seq. split_and!; [done..|].
  apply Forall_map, Forall_seq. intros [|j] Hj; [lia|]. apply blake2s256_length.
Qed.

End Crypto.
#[export] Hint Rewrite @hmac_length @blake2s256_length using typeclasses eauto : len.

(** A concrete instance: a truncating hash, exclusive-or for the key
    agreement, and ciphers that leave the text alone and tag it with the key
    and the associated data. It is only used to evaluate examples. *)
Module Toy.
Definition pad (n : nat) (l : bytes) : bytes := take n (l ++ zeros n).
Definition seal (key ad p : bytes) : bytes * bytes :=
  (p, pad 8 (take 8 key) ++ pad 8 (rev ad)).
Definition open (key ad c t : bytes) : option bytes :=
  if decide (t = (seal key ad c).2) then Some c else None.
Definition dh (a b : bytes) : bytes := zip_with bxor (pad 32 a) (pad 32 b).

#[export] Instance toy : Primitives := {
  blake2s256 m := pad 32 (map (fun b => zb (bz b + 1)) (rev m));
  blake2s_mac16 k m := if decide (length k <= 32) then Some (pad 16 (k ++ m)) else None;
  x25519_public s := s;
  x25519_dh := dh;
  chacha_encrypt k n ad p := Some (seal k ad p);
  chacha_decrypt k n ad c t := open k ad c t;
  box_encrypt pk sk n p := Some (seal (dh pk sk) [] p);
  box_decrypt pk sk n c t := open (dh pk sk) [] c t;
}.

Lemma length_pad n l : length (pad n l) = n.
Proof. unfold pad. len. Qed.
Lemma xor_dh_comm a b : dh a b = dh b a.
Proof.
  unfold dh. generalize (pad 32 a), (pad 32 b). intros la. induction la as [|x la IH]; intros [|y lb]; simpl; [done..|].
  by rewrite IH, bxor_comm.
Qed.
Lemma open_seal key ad p c t : seal key ad p = (c, t) -> open key ad c t = Some p.
Proof. unfold open. intros H. injection H as <- <-. by rewrite decide_True. Qed.

Lemma open_length key ad c t p : open key ad c t = Some p -> length p = length c.
Proof. unfold open. case_decide; [|done]. by intros [= <-]. Qed.

#[export] Instance toy_laws : PrimitiveLaws toy.
Proof.
  split; simpl.
  - intros. apply length_pad.
  - intros k m H. rewrite decide_True by done. eexists. split; [done|apply length_pad].
  - done.
  - intros. unfold dh. rewrite length_zip_with, !length_pad. done.
  - intros. apply xor_dh_comm.
  - intros. eexists _, _. split_and!; [done|done|]. rewrite length_app, !length_pad. done.
  - intros k n ad p c t [= <- <-]. by apply open_seal.
  - intros. by eapply open_length.
  - intros. eexists _, _. split_and!; [done|done|]. rewrite length_app, !length_pad. done.
  - intros a b n p c t _ _ [= <- <-]. rewrite (xor_dh_comm a b). by apply open_seal.
  - intros. by eapply open_length.
Qed.
End Toy.

#[local] Existing Instances Toy.toy Toy.toy_laws.
Lemma kdf_is_hkdf_witness :
  hmac (zeros 70) [bs "a"; bs "b"] = rfc2104_hmac (zeros 70) (bs "ab") /\ kdf 3 (zeros 32) (bs "dh") = rfc5869 3 (zeros 32) (bs "dh") /\
  length (kdf 3 (zeros 32) (bs "dh")) = 3 /\ Forall (fun k => length k = 32) (kdf 3 (zeros 32) (bs "dh")).
Proof. exact (conj (proj1 (kdf_is_hkdf 3 (zeros 70) (bs "dh") [bs "a"; bs "b"])) (proj2 (kdf_is_hkdf 3 (zeros 32) (bs "dh") []))). Defined.
