(* ===== verification/Keys.v ===== *)
(** Curve25519 key types: [key.rs].

    The macro [define_key_pair!] makes three pairs of types that differ in
    their wire prefix; here they are one record each, indexed by [key_kind]. *)
From S2P Require Import Prelude Crypto.

Definition KEY_LEN : nat := 32.

Inductive KeyError := BadHex | BadPrefix | ShortBuffer.

(** [define_key_pair!(MachinePrivate, MachinePublic, "mkey:")], and the node and
    disco pairs. *)
Inductive key_kind := Machine | Node | Disco.
Definition PREFIX (k : key_kind) : bytes :=
  match k with
  | Machine => bs "mkey:"
  | Node => bs "nodekey:"
  | Disco => bs "discokey:"
  end.

Record private (k : key_kind) := Private { priv_bytes : bytes }.
Arguments Private {k} _.
Arguments priv_bytes {k} _.
Record public (k : key_kind) := Public { pub_bytes : bytes }.
Arguments Public {k} _.
Arguments pub_bytes {k} _.
Abbreviation MachinePrivate := (private Machine).
Abbreviation MachinePublic := (public Machine).
Abbreviation NodePrivate := (private Node).
Abbreviation NodePublic := (public Node).
Abbreviation DiscoPrivate := (private Disco).
Abbreviation DiscoPublic := (public Disco).

#[export] Instance public_eq_dec k : EqDecision (public k).
Proof. solve_decision. Defined.

(** A key as the type system guarantees it: an array of 32 bytes. *)
Definition priv_ok {k} (s : private k) : Prop := length (priv_bytes s) = KEY_LEN.
Definition pub_ok {k} (p : public k) : Prop := length (pub_bytes p) = KEY_LEN.

Definition HEX : bytes := bs "0123456789abcdef".

(** [nibble]; the subtractions stay inside [u8] because of the ranges. *)
Definition nibble (c : byte) : outcome KeyError byte :=
  if decide (48 <= bz c <= 57)%Z then Ok (zb (bz c - 48))
  else if decide (97 <= bz c <= 102)%Z then Ok (zb (bz c - 97 + 10))
  else if decide (65 <= bz c <= 70)%Z then Ok (zb (bz c - 65 + 10))
  else Err BadHex.

Section Keys.
Context {k : key_kind}.

Definition from_bytes (b : bytes) : private k := Private b.
Definition as_bytes (p : public k) : bytes := pub_bytes p.

(** [generate]: [fill_bytes] hands out the next 32 bytes of the generator. *)
Definition generate (rng : bytes) : private k * bytes :=
  (Private (take KEY_LEN rng), drop KEY_LEN rng).

(** The loop of [parse_hex] over [bytes.chunks_exact(2).enumerate()]. *)
Fixpoint parse_hex_loop (cs : list bytes) (i : nat) (out : bytes) : outcome KeyError bytes :=
  match cs with
  | [] => Ok out
  | c :: cs =>
      let? c0 := index c 0 in
      let? hi := nibble c0 in
      let? c1 := index c 1 in
      let? lo := nibble c1 in
      let? out := set_at out i (bor (bshl hi 4) lo) in
      parse_hex_loop cs (S i) out
  end.

Definition parse_hex (hex : bytes) : outcome KeyError (public k) :=
  if decide (length hex <> KEY_LEN * 2) then Err BadHex
  else
    let? out := parse_hex_loop (chunks_exact 2 hex) 0 (zeros KEY_LEN) in
    Ok (Public out).

Definition parse (s : bytes) : outcome KeyError (public k) :=
  let? hex := ok_or (strip_prefix s (PREFIX k)) BadPrefix in
  parse_hex hex.

(** The loop of [write] over [self.0.iter().enumerate()]. *)
Fixpoint write_loop (bsq : bytes) (i : nat) (out : bytes) : outcome KeyError bytes :=
  match bsq with
  | [] => Ok out
  | b :: bsq =>
      let? h := index HEX (Z.to_nat (bz (bshr b 4))) in
      let? out := set_at out (length (PREFIX k) + i * 2) h in
      let? l := index HEX (Z.to_nat (bz (band b x0f))) in
      let? out := set_at out (length (PREFIX k) + i * 2 + 1) l in
      write_loop bsq (S i) out
  end.

(** [write]: the buffer after the call and the length written. *)
Definition write (p : public k) (out : bytes) : outcome KeyError (bytes * nat) :=
  let total := length (PREFIX k) + KEY_LEN * 2 in
  if decide (length out < total) then Err ShortBuffer
  else
    let? out := copy_range out 0 (length (PREFIX k)) (PREFIX k) in
    let? out := write_loop (pub_bytes p) 0 out in
    Ok (out, total).

Context `{P : Primitives}.

Definition public_of (s : private k) : public k := Public (x25519_public (priv_bytes s)).
Definition dh (s : private k) (peer : public k) : bytes := x25519_dh (priv_bytes s) (pub_bytes peer).

Context `{L : !PrimitiveLaws P}.

Lemma public_of_ok s : priv_ok s -> pub_ok (public_of s).
Proof. apply x25519_public_length. Qed.

Lemma dh_length s p : priv_ok s -> pub_ok p -> length (dh s p) = 32.
Proof. apply x25519_dh_length. Qed.

Lemma dh_comm (a b : private k) : priv_ok a -> priv_ok b -> dh a (public_of b) = dh b (public_of a).
Proof. apply x25519_dh_comm. Qed.
End Keys.

(** The wire form: prefix, then two lower-case hex digits per byte. *)
Definition hex_digit (b : byte) : bytes :=
  [default x00 (HEX !! Z.to_nat (bz (bshr b 4))); default x00 (HEX !! Z.to_nat (bz (band b x0f)))].
Definition hex (l : bytes) : bytes := concat (map hex_digit l).
Definition wire_form {k} (p : public k) : bytes := PREFIX k ++ hex (pub_bytes p).

(** ** Proofs *)

Lemma length_hex l : length (hex l) = 2 * length l.
Proof. unfold hex. induction l as [|b l IH]; simpl; [done|]. rewrite IH. lia. Qed.
#[export] Hint Rewrite length_hex : len.

Lemma hex_cons b l : hex (b :: l) = hex_digit b ++ hex l.
Proof. reflexivity. Qed.

Lemma length_wire_form {k} (p : public k) :
  pub_ok p -> length (wire_form p) = length (PREFIX k) + 2 * KEY_LEN.
Proof. unfold wire_form, pub_ok. intros H. rewrite length_app, length_hex, H. lia. Qed.

(** The two digits of a byte, by inspection of the 256 bytes. *)
Lemma hex_digit_index {E} b :
  index (E:=E) HEX (Z.to_nat (bz (bshr b 4))) = Ok (default x00 (HEX !! Z.to_nat (bz (bshr b 4))))
  /\ index (E:=E) HEX (Z.to_nat (bz (band b x0f))) = Ok (default x00 (HEX !! Z.to_nat (bz (band b x0f)))).
Proof. by destruct b. Qed.

Lemma hex_digit_nibbles b :
  exists hi lo, nibble (default x00 (HEX !! Z.to_nat (bz (bshr b 4)))) = Ok hi
    /\ nibble (default x00 (HEX !! Z.to_nat (bz (band b x0f)))) = Ok lo
    /\ bor (bshl hi 4) lo = b.
Proof.
  assert (match nibble (default x00 (HEX !! Z.to_nat (bz (bshr b 4)))), nibble (default x00 (HEX !! Z.to_nat (bz (band b x0f)))) with
    | Ok hi, Ok lo => bool_decide (bor (bshl hi 4) lo = b)
    | _, _ => false
    end = true) as H by (destruct b; vm_compute; reflexivity).
  destruct (nibble _) as [hi| | |]; [|done..]. destruct (nibble _) as [lo| | |]; [|done..]. exists hi, lo. by apply bool_decide_eq_true_1 in H.
Qed.

Lemma nibble_no_panic c : (exists b, nibble c = Ok b) \/ nibble c = Err BadHex.
Proof. unfold nibble. repeat case_decide; eauto. Qed.

Lemma set_at_seg {E A} (pre : list A) x y s i :
  i = length pre -> set_at (E:=E) (pre ++ x :: s) i y = Ok (pre ++ y :: s).
Proof.
  intros ->. rewrite set_at_ok by len. rewrite insert_app_r_alt by lia.
  by replace (length pre - length pre) with 0 by lia.
Qed.

Lemma write_loop_spec k (l : bytes) i pre mid s :
  length pre = length (PREFIX k) + i * 2 -> length mid = 2 * length l ->
  write_loop (k:=k) l i (pre ++ mid ++ s) = Ok (pre ++ hex l ++ s).
Proof.
  revert i pre mid. induction l as [|b l IH]; intros i pre mid Hp Hm.
  { by destruct mid. }
  destruct mid as [|x [|y mid]]; simpl in Hm; [lia|lia|].
  cbn [write_loop]. destruct (hex_digit_index (E:=KeyError) b) as [-> ->]. cbn [obind].
  cbn [app]. rewrite set_at_seg by lia. cbn [obind].
  rewrite (cons_middle _ pre), app_assoc.
  rewrite set_at_seg by len. cbn [obind].
  rewrite (cons_middle _ (pre ++ _)), app_assoc.
  rewrite IH by len. rewrite hex_cons, <- !app_assoc. done.
Qed.

Lemma write_spec k (p : public k) out :
  pub_ok p ->
  write p out =
    if decide (length out < length (PREFIX k) + KEY_LEN * 2) then Err ShortBuffer
    else Ok (overwrite out 0 (wire_form p), length (PREFIX k) + KEY_LEN * 2).
Proof.
  intros Hp. unfold write. case_decide as Hs; [done|].
  rewrite copy_range_ok by lia. cbn [obind].
  unfold overwrite. simpl take. rewrite app_nil_l, Nat.add_0_l.
  rewrite <- (take_drop (KEY_LEN * 2) (drop (length (PREFIX k)) out)).
  rewrite (write_loop_spec k (pub_bytes p) 0 (PREFIX k)) by (unfold pub_ok in Hp; rewrite ?length_take, ?length_drop; lia).
  cbn [obind]. rewrite drop_drop. f_equal. f_equal. unfold wire_form. rewrite take_0, <- app_assoc.
  rewrite length_app, length_hex, Hp. done.
Qed.

Lemma chunks_cons2 {A} (x y : A) l : chunks 2 (x :: y :: l) = [x; y] :: chunks 2 l.
Proof. by rewrite chunks_step by (done || lia). Qed.

Lemma chunks_exact_cons2 {A} (x y : A) l : chunks_exact 2 (x :: y :: l) = [x; y] :: chunks_exact 2 l.
Proof. unfold chunks_exact. rewrite chunks_cons2, filter_cons_True; done. Qed.

Lemma parse_hex_loop_hex l i pre suf :
  length pre = i -> length suf = length l ->
  parse_hex_loop (chunks_exact 2 (hex l)) i (pre ++ suf) = Ok (pre ++ l).
Proof.
  revert i pre suf. induction l as [|b l IH]; intros i pre suf Hp Hs.
  { by destruct suf. }
  destruct suf as [|x suf]; [done|]. rewrite hex_cons. unfold hex_digit. simpl app.
  rewrite chunks_exact_cons2. cbn [parse_hex_loop].
  destruct (hex_digit_nibbles b) as (hi & lo & H1 & H2 & H3).
  rewrite (index_ok _ 0 (default x00 (HEX !! Z.to_nat (bz (bshr b 4))))) by done. cbn [obind]. rewrite H1. cbn [obind].
  rewrite (index_ok _ 1 (default x00 (HEX !! Z.to_nat (bz (band b x0f))))) by done. cbn [obind]. rewrite H2. cbn [obind].
  rewrite set_at_seg by done. cbn [obind]. rewrite H3.
  rewrite (cons_middle b pre suf), (cons_middle b pre l), !app_assoc.
  simpl in Hs. apply IH; len.
Qed.

Lemma parse_hex_hex k (p : public k) : pub_ok p -> parse_hex (hex (pub_bytes p)) = Ok p.
Proof.
  unfold pub_ok. intros Hp. unfold parse_hex. rewrite decide_False by (rewrite length_hex; lia).
  pose proof (parse_hex_loop_hex (pub_bytes p) 0 [] (zeros KEY_LEN) eq_refl) as E.
  rewrite !app_nil_l in E.
  rewrite E by (by rewrite length_zeros, Hp). by destruct p.
Qed.

(** A successful loop keeps the length of the buffer; it never panics when
    the buffer has room for every chunk. *)
Lemma parse_hex_loop_total cs i out :
  Forall (fun c => length c = 2) cs -> i + length cs <= length out ->
  (exists o, parse_hex_loop cs i out = Ok o /\ length o = length out) \/ parse_hex_loop cs i out = Err BadHex.
Proof.
  revert i out. induction cs as [|c cs IH]; intros i out Hc Hl; [left; eauto|].
  apply Forall_cons_1 in Hc as [Hc Hcs]. destruct c as [|c0 [|c1 [|]]]; try done.
  cbn [parse_hex_loop]. rewrite (index_ok _ 0 c0), (index_ok _ 1 c1) by done. cbn [obind].
  destruct (nibble_no_panic c0) as [[b0 ->]| ->]; [|by right].
  destruct (nibble_no_panic c1) as [[b1 ->]| ->]; [|by right]. cbn [obind].
  simpl in Hl. rewrite set_at_ok by lia. cbn [obind].
  destruct (IH (S i) (<[i:=bor (bshl b0 4) b1]> out) Hcs) as [(o & -> & Ho)| ->]; [len|left|by right].
  exists o. split; [done|]. by rewrite Ho, length_insert.
Qed.

Lemma parse_hex_total k h :
  (exists p, parse_hex (k:=k) h = Ok p /\ pub_ok p) \/ parse_hex (k:=k) h = Err BadHex.
Proof.
  unfold parse_hex. case_decide as Hl; [by right|].
  destruct (parse_hex_loop_total (chunks_exact 2 h) 0 (zeros KEY_LEN)) as [(o & -> & Ho)| ->].
  - apply Forall_forall. intros c [Hc _]%list_elem_of_In%list_elem_of_filter. done.
  - pose proof (chunks_length 2 h ltac:(lia)). unfold chunks_exact.
    pose proof (length_filter (fun c => length c = 2) (chunks 2 h)). rewrite length_zeros.
    unfold KEY_LEN in *. lia.
  - left. eexists. split; [done|]. unfold pub_ok. simpl. by rewrite Ho, length_zeros.
  - by right.
Qed.

(** A key survives its wire form: [write] puts the prefix and the 64 hex
    digits at the start of any buffer with room for them, leaves the rest of
    the buffer alone, and [parse] of what it wrote gives the same key back. *)
Theorem key_roundtrip k (p : public k) out :
  pub_ok p -> length (PREFIX k) + 64 <= length out ->
  exists out' n,
    write p out = Ok (out', n) /\ n = length (PREFIX k) + 64 /\
    drop n out' = drop n out /\ parse (k:=k) (take n out') = Ok p.
Proof.
  intros Hp Ho. pose proof (length_wire_form p Hp) as Hw. unfold KEY_LEN in Hw.
  rewrite write_spec, decide_False by (try done; unfold KEY_LEN; lia).
  eexists _, _. split; [done|]. unfold overwrite. simpl take. simpl app. split; [done|].
  change (KEY_LEN * 2) with 64. rewrite drop_app_length', take_app_length' by lia.
  rewrite Hw. split; [f_equal; unfold KEY_LEN; lia|].
  unfold parse, wire_form. rewrite strip_prefix_app. by apply parse_hex_hex.
Qed.

(** [parse] never panics, accepts only the prefix of its own key type, and
    a key it accepts has 32 bytes; in particular no key parses as two kinds. *)
Theorem key_parse_typed k s :
  (exists p : public k, parse s = Ok p /\ pub_ok p /\ exists h, s = PREFIX k ++ h /\ length h = 64)
  \/ ((exists h, s = PREFIX k ++ h) /\ parse (k:=k) s = Err BadHex)
  \/ ((forall h, s <> PREFIX k ++ h) /\ parse (k:=k) s = Err BadPrefix).
Proof.
  unfold parse. destruct (strip_prefix s (PREFIX k)) as [h|] eqn:E; cbn [ok_or obind].
  - apply strip_prefix_Some in E as ->. destruct (parse_hex_total k h) as [(p & Hp & Hok)|He].
    + left. exists p. split_and!; [done..|]. exists h. split; [done|].
      unfold parse_hex in Hp. case_decide as Hd; [done|]. exact Hd.
    + right; left. split; [eauto|done].
  - right; right. split; [|done]. intros h ->. by rewrite strip_prefix_app in E.
Qed.

Lemma key_roundtrip_witness :
  length (PREFIX Node) + 64 <= length (zeros 80) /\
  exists out' n, write (Public (replicate 32 xa7) : NodePublic) (zeros 80) = Ok (out', n) /\ n = length (PREFIX Node) + 64 /\
    drop n out' = drop n (zeros 80) /\ parse (k:=Node) (take n out') = Ok (Public (replicate 32 xa7)).
Proof.
  split; [vm_compute; lia|].
  apply (key_roundtrip Node (Public (replicate 32 xa7)) (zeros 80)); [reflexivity|vm_compute; lia].
Defined.
