(* ===== verification/Buffer.v ===== *)
(** A cursor over a caller's buffer.

    [upgrade::Writer], [json::Writer] and [h2::Writer] append to a [&mut [u8]]
    and refuse what does not fit with their own error; [wput] is that append.
    Sequences of appends fuse ([wput_app]), so a function that emits a message
    piece by piece is one [wput] of the whole message, on success and on error. *)
From S2P Require Import Prelude.

Record writer := Writer { w_buf : bytes; w_pos : nat }.

Definition wput {E} (e : E) (w : writer) (b : bytes) : outcome E writer :=
  if decide (length (w_buf w) < w_pos w + length b) then Err e
  else
    let? buf := copy_range (w_buf w) (w_pos w) (w_pos w + length b) b in
    Ok (Writer buf (w_pos w + length b)).

(** What has been written so far. *)
Definition written (w : writer) : bytes := take (w_pos w) (w_buf w).

Definition writer_ok (w : writer) : Prop := w_pos w <= length (w_buf w).

(** The writer after appending [b], room provided. *)
Definition advance (w : writer) (b : bytes) : writer :=
  Writer (overwrite (w_buf w) (w_pos w) b) (w_pos w + length b).

Lemma wput_eq {E} (e : E) w b :
  wput e w b = if decide (length (w_buf w) < w_pos w + length b) then Err e else Ok (advance w b).
Proof. unfold wput. case_decide; [done|]. by rewrite copy_range_ok by lia. Qed.

Lemma advance_advance w a b :
  w_pos w + length a <= length (w_buf w) -> advance (advance w a) b = advance w (a ++ b).
Proof.
  intros Hl. destruct w as [buf pos]. unfold advance in *. cbn [w_buf w_pos] in *. rewrite length_app, Nat.add_assoc. f_equal.
  rewrite <- (take_drop pos buf). set (p := take pos buf). set (m := drop pos buf).
  assert (length p = pos) as Hp by (unfold p; len).
  rewrite !(overwrite_app p) by done. rewrite (app_assoc p a).
  rewrite overwrite_app by len. rewrite <- !app_assoc, drop_drop. by rewrite overwrite_app, length_app, <- !app_assoc.
Qed.

Lemma wput_app {E} (e : E) w a b :
  (let? w := wput e w a in wput e w b) = wput e w (a ++ b).
Proof.
  rewrite !(wput_eq e w), length_app. case_decide as Ha; cbn [obind].
  { by rewrite decide_True by lia. }
  rewrite wput_eq. cbn [advance w_buf w_pos]. rewrite length_overwrite by lia.
  rewrite Nat.add_assoc. case_decide; [done|]. by rewrite advance_advance by lia.
Qed.

Lemma wput_app_k {E A} (e : E) w a b (k : writer -> outcome E A) :
  (let? w := wput e w a in let? w := wput e w b in k w) = let? w := wput e w (a ++ b) in k w.
Proof. rewrite <- wput_app. by destruct (wput e w a). Qed.

Lemma wput_nil {E} (e : E) w : writer_ok w -> wput e w [] = Ok w.
Proof.
  unfold writer_ok. intros Hl. rewrite wput_eq. simpl. rewrite decide_False by lia.
  unfold advance, overwrite. destruct w as [buf pos]; simpl in *. f_equal. rewrite !Nat.add_0_r. f_equal.
  apply take_drop.
Qed.

Lemma wput_Ok {E} (e : E) w b w' :
  wput e w b = Ok w' -> w_pos w + length b <= length (w_buf w) /\ w' = advance w b.
Proof. rewrite wput_eq. case_decide; [done|]. intros [= <-]. split; [lia|done]. Qed.

Lemma wput_fits {E} (e : E) w b :
  w_pos w + length b <= length (w_buf w) -> wput e w b = Ok (advance w b).
Proof. intros. rewrite wput_eq, decide_False; [done|lia]. Qed.

Lemma wput_full {E} (e : E) w b :
  length (w_buf w) < w_pos w + length b -> wput e w b = Err e.
Proof. intros. by rewrite wput_eq, decide_True. Qed.

Lemma written_advance w b :
  w_pos w + length b <= length (w_buf w) -> written (advance w b) = written w ++ b.
Proof.
  intros. unfold written, advance, overwrite. simpl. rewrite app_assoc.
  rewrite take_app_le by len. by rewrite take_ge by len.
Qed.

Lemma advance_ok w b : w_pos w + length b <= length (w_buf w) -> writer_ok (advance w b).
Proof. intros. unfold writer_ok, advance. simpl. by rewrite length_overwrite. Qed.

Lemma advance_length w b :
  w_pos w + length b <= length (w_buf w) -> length (w_buf (advance w b)) = length (w_buf w).
Proof. intros. unfold advance. simpl. by rewrite length_overwrite. Qed.

(** From the start of a buffer: the message, then the rest of the buffer. *)
Lemma advance_start out b :
  length b <= length out -> advance (Writer out 0) b = Writer (b ++ drop (length b) out) (length b).
Proof. intros. unfold advance, overwrite. done. Qed.
