(* ===== verification/Tsmp.v ===== *)
(** The in-tunnel ping: [tsmp.rs].

    [parse_ping] recognises a TSMP ping in a decrypted IPv4 packet and
    [write_pong] builds the reply, header checksum included. *)
From S2P Require Import Prelude.

Definition IP_PROTO_TSMP : byte := x63.
Definition TYPE_PING : byte := x70.
Definition TYPE_PONG : byte := x6f.
Definition IPV4_HEADER_LEN : nat := 20.
Definition PONG_PAYLOAD_LEN : nat := 11.

Record Ping := { ping_data : bytes; ping_src : bytes; ping_dst : bytes }.

(** The widths of the arrays. *)
Definition ping_ok (p : Ping) : Prop :=
  length (ping_data p) = 8 /\ length (ping_src p) = 4 /\ length (ping_dst p) = 4.

Section Tsmp.
Context {E : Type}.

Definition parse_ping (packet : bytes) : outcome E (option Ping) :=
  if decide (length packet < IPV4_HEADER_LEN) then Ok None
  else
    let? b0 := index packet 0 in
    if decide (bz (bshr b0 4) <> 4)%Z then Ok None
    else
      let ihl := Z.to_nat (bz (band b0 x0f)) * 4 in
      if decide (ihl < IPV4_HEADER_LEN \/ length packet < ihl + 9) then Ok None
      else
        let? b9 := index packet 9 in
        if decide (b9 <> IP_PROTO_TSMP) then Ok None
        else
          let? payload := slice packet ihl (length packet) in
          let? t := index payload 0 in
          if decide (t <> TYPE_PING) then Ok None
          else
            let? data := slice payload 1 9 in
            let? src := slice packet 12 16 in
            let? dst := slice packet 16 20 in
            Ok (Some {| ping_data := data; ping_src := src; ping_dst := dst |}).

(** The first loop of [checksum]: two bytes at a time; the index and the sum. *)
Fixpoint sum_loop (fuel : nat) (header : bytes) (i : nat) (sum : Z) : outcome E (nat * Z) :=
  match fuel with
  | O => NoFuel
  | S fuel =>
      if decide (i + 1 < length header) then
        let? hi := index header i in
        let? lo := index header (i + 1) in
        let? sum := uadd 32 sum (from_be [hi; lo]) in
        sum_loop fuel header (i + 2) sum
      else Ok (i, sum)
  end.

(** [while sum >> 16 != 0] *)
Fixpoint fold_loop (fuel : nat) (sum : Z) : outcome E Z :=
  match fuel with
  | O => NoFuel
  | S fuel =>
      if decide (Z.shiftr sum 16 <> 0)%Z
      then fold_loop fuel (Z.land sum 65535 + Z.shiftr sum 16)
      else Ok sum
  end.

Definition checksum (header : bytes) : outcome E Z :=
  let? (i, sum) := sum_loop (S (length header)) header 0 0 in
  let? sum :=
    if decide (i < length header)
    then let? b := index header i in uadd 32 sum (Z.shiftl (bz b) 8)
    else Ok sum in
  let? sum := fold_loop 4 sum in
  Ok (65535 - wrap 16 sum)%Z.

(** [write_pong]: the buffer after the call and the length of the packet. *)
Definition write_pong (ping : Ping) (out : bytes) : outcome E (option (bytes * nat)) :=
  let total := IPV4_HEADER_LEN + PONG_PAYLOAD_LEN in
  if decide (length out < total) then Ok None
  else
    let? out := copy_range out 0 total (zeros total) in
    let? out := set_at out 0 x45 in
    let? out := copy_range out 2 4 (to_be 2 (Z.of_nat total)) in
    let? out := set_at out 8 x40 in
    let? out := set_at out 9 IP_PROTO_TSMP in
    let? out := copy_range out 12 16 (ping_dst ping) in
    let? out := copy_range out 16 20 (ping_src ping) in
    let? header := slice out 0 IPV4_HEADER_LEN in
    let? sum := checksum header in
    let? out := copy_range out 10 12 (to_be 2 sum) in
    let? out := set_at out IPV4_HEADER_LEN TYPE_PONG in
    let? out := copy_range out (IPV4_HEADER_LEN + 1) (IPV4_HEADER_LEN + 9) (ping_data ping) in
    Ok (Some (out, total)).
End Tsmp.

(** The ones' complement sum of RFC 791 as a receiver checks it: the sum of the
    16-bit words, the last byte of an odd header in the high half. *)
Fixpoint word_sum (fuel : nat) (l : bytes) : Z :=
  match fuel with
  | O => 0
  | S fuel =>
      match l with
      | hi :: lo :: l => (256 * bz hi + bz lo + word_sum fuel l)%Z
      | [hi] => (256 * bz hi)%Z
      | [] => 0
      end
  end.
Definition header_valid (l : bytes) : Prop :=
  (0 < word_sum (length l) l)%Z /\ (word_sum (length l) l mod 65535 = 0)%Z.

(** The packet a pong must be, its checksum aside. *)
Definition pong_packet (p : Ping) (sum : Z) : bytes :=
  ([x45; x00] ++ to_be 2 31 ++ [x00; x00; x00; x00; x40; IP_PROTO_TSMP] ++ to_be 2 sum
   ++ ping_dst p ++ ping_src p) ++ [TYPE_PONG] ++ ping_data p ++ [x00; x00].

(** ** Proofs *)

Lemma length_pong_packet p sum : ping_ok p -> length (pong_packet p sum) = 31.
Proof. intros (? & ? & ?). unfold pong_packet. len. Qed.

Lemma from_be2 a b : from_be [a; b] = (256 * bz a + bz b)%Z.
Proof. unfold from_be. simpl. lia. Qed.

Lemma fold_loop_spec {E} s :
  (0 <= s < 2 ^ 32)%Z ->
  exists r, fold_loop (E:=E) 4 s = Ok r /\ (0 <= r < 65536)%Z /\ (r mod 65535 = s mod 65535)%Z
    /\ ((0 < s)%Z -> (0 < r)%Z).
Proof.
  intros Hs.
  assert (forall x, (0 <= x)%Z -> x = (65536 * (Z.shiftr x 16) + Z.land x 65535)%Z
    /\ (0 <= Z.land x 65535 < 65536)%Z) as Hsplit.
  { intros x Hx. change 65535%Z with (Z.ones 16). rewrite Z.land_ones, Z.shiftr_div_pow2 by lia.
    pose proof (Z.div_mod x (2 ^ 16)). pose proof (Z.mod_pos_bound x (2 ^ 16)). lia. }
  assert (forall x, (0 <= x)%Z -> let y := (Z.land x 65535 + Z.shiftr x 16)%Z in
    (y mod 65535 = x mod 65535)%Z) as Hmod.
  { intros x Hx y. destruct (Hsplit x Hx) as [Hd _].
    replace x with (y + (Z.shiftr x 16) * 65535)%Z at 1 by (unfold y; lia).
    by rewrite Z.mod_add by lia. }
  cbn [fold_loop]. destruct (Hsplit s ltac:(lia)) as [H1 H1'].
  case_decide; [|exists s; split_and!; try done; lia].
  set (s1 := (Z.land s 65535 + Z.shiftr s 16)%Z).
  pose proof (Hmod s ltac:(lia)) as Hm1. fold s1 in Hm1. cbn zeta in Hm1.
  destruct (Hsplit s1 ltac:(lia)) as [H2 H2'].
  case_decide; [|exists s1; split_and!; try done; lia].
  set (s2 := (Z.land s1 65535 + Z.shiftr s1 16)%Z).
  pose proof (Hmod s1 ltac:(lia)) as Hm2. fold s2 in Hm2. cbn zeta in Hm2.
  destruct (Hsplit s2 ltac:(lia)) as [H3 H3'].
  case_decide; [lia|]. exists s2. split_and!; try done; lia.
Qed.

Lemma word_sum_nonneg n l : (0 <= word_sum n l <= 65535 * Z.of_nat n)%Z.
Proof.
  revert l. induction n as [|n IH]; intros l; cbn [word_sum]; [lia|].
  destruct l as [|a [|b l]]; [lia|pose proof (bz_range a); lia|].
  pose proof (bz_range a). pose proof (bz_range b). specialize (IH l). lia.
Qed.

(** On a header of an even length the first loop adds up the words. *)
Lemma sum_loop_even {E} k : forall fuel header i sum,
  i + 2 * k = length header -> k < fuel -> (0 <= sum)%Z ->
  (sum + 65535 * Z.of_nat k < 2 ^ 32)%Z ->
  sum_loop (E:=E) fuel header i sum = Ok (length header, sum + word_sum k (drop i header))%Z.
Proof.
  induction k as [|k IH]; intros [|fuel] header i sum Hi Hf Hs Hb; try lia.
  { cbn [sum_loop word_sum]. rewrite decide_False by lia. f_equal. f_equal; lia. }
  cbn [sum_loop]. rewrite decide_True by lia.
  destruct (lookup_lt_is_Some_2 header i ltac:(lia)) as [a Ha].
  destruct (lookup_lt_is_Some_2 header (i + 1) ltac:(lia)) as [b Hb'].
  rewrite (index_ok _ _ _ Ha), (index_ok _ _ _ Hb'). cbn [obind].
  pose proof (bz_range a). pose proof (bz_range b).
  rewrite from_be2, uadd_ok by lia. cbn [obind]. rewrite IH by lia.
  rewrite (drop_S _ _ _ Ha). replace (S i) with (i + 1) by lia. rewrite (drop_S _ _ _ Hb').
  cbn [word_sum]. replace (S (i + 1)) with (i + 2) by lia. do 2 f_equal. lia.
Qed.

(** The checksum of an even header, as a receiver of it sees it. *)
Lemma checksum_even {E} header k :
  length header = 2 * k -> k <= 60 ->
  exists r, checksum (E:=E) header = Ok (65535 - r)%Z /\ (0 <= r < 65536)%Z /\
    (r mod 65535 = word_sum k header mod 65535)%Z /\ ((0 < word_sum k header)%Z -> (0 < r)%Z).
Proof.
  intros Hl Hk. unfold checksum. rewrite (sum_loop_even k) by lia. cbn [obind].
  rewrite decide_False by lia. cbn [obind]. rewrite drop_0, Z.add_0_l.
  pose proof (word_sum_nonneg k header).
  destruct (fold_loop_spec (E:=E) (word_sum k header)) as (r & -> & Hr & Hm & Hp); [lia|].
  cbn [obind]. exists r. split_and!; try done; try lia.
  unfold wrap. rewrite Z.mod_small by lia. done.
Qed.

(** The packet is written in full, around the checksum of its header. *)
Lemma write_pong_eq {E} p out :
  ping_ok p -> 31 <= length out ->
  write_pong (E:=E) p out =
    (let? sum := checksum (take 20 (pong_packet p 0)) in Ok (Some (pong_packet p sum ++ drop 31 out, 31))).
Proof.
  intros (Hd & Hs & Ht) Ho. destruct p as [d s t]. simpl in *.
  destruct d as [|d0 [|d1 [|d2 [|d3 [|d4 [|d5 [|d6 [|d7 [|]]]]]]]]]; try done.
  destruct s as [|s0 [|s1 [|s2 [|s3 [|]]]]]; try done.
  destruct t as [|t0 [|t1 [|t2 [|t3 [|]]]]]; try done. clear Hd Hs Ht.
  unfold write_pong. change (IPV4_HEADER_LEN + PONG_PAYLOAD_LEN) with 31. rewrite decide_False by lia.
  rewrite copy_range_ok by (try done; lia). cbn [obind].
  unfold overwrite at 1. rewrite length_zeros. rewrite take_0, app_nil_l. change (0 + 31) with 31.
  set (r := drop 31 out).
  rewrite set_at_app_l by (rewrite length_zeros; lia). cbn [obind].
  rewrite copy_range_app_l by len. cbn [obind].
  do 2 (rewrite set_at_app_l by (unfold zeros; vm_compute; lia); cbn [obind]).
  do 2 (rewrite copy_range_app_l by (cbn [length]; try reflexivity; vm_compute; lia); cbn [obind]).
  rewrite slice_app_l by (try lia; vm_compute; lia). cbn [obind].
  match goal with |- context [checksum ?h] => set (header := h); vm_compute in header end.
  match goal with |- _ = obind (checksum ?h) _ => change h with header end.
  destruct (checksum header) as [c| | |]; [|done..]. cbn [obind].
  rewrite copy_range_app_l by (try (rewrite length_to_be; reflexivity); vm_compute; lia). cbn [obind].
  rewrite set_at_app_l by (vm_compute; lia). cbn [obind].
  rewrite copy_range_app_l by (try reflexivity; vm_compute; lia). reflexivity.
Qed.

(** The header with its checksum in place adds up to zero. *)
Lemma header_checked {E} header :
  length header = 20 -> (0 < word_sum 10 header)%Z -> (word_sum 10 header mod 65535 = 0)%Z ->
  header_valid header /\ checksum (E:=E) header = Ok 0%Z.
Proof.
  intros Hl Hpos Hmod. split.
  - unfold header_valid. rewrite Hl. assert (word_sum 20 header = word_sum 10 header) as ->; [|done].
    do 20 (destruct header as [|? header]; [done|]). by destruct header.
  - destruct (checksum_even (E:=E) header 10) as (v & -> & Hr & Hrm & Hrp); [lia..|].
    rewrite Hmod in Hrm. specialize (Hrp Hpos).
    assert (v = 65535)%Z as ->; [|done].
    apply Z.mod_divide in Hrm as [q Hq]; lia.
Qed.

Lemma pong_checksum {E} p :
  ping_ok p -> exists sum, (0 <= sum < 65536)%Z /\ checksum (E:=E) (take 20 (pong_packet p 0)) = Ok sum /\
    header_valid (take 20 (pong_packet p sum)) /\ checksum (E:=E) (take 20 (pong_packet p sum)) = Ok 0%Z.
Proof.
  intros (Hd & Hs & Ht). destruct p as [d s t]. simpl in *.
  destruct s as [|s0 [|s1 [|s2 [|s3 [|]]]]]; try done.
  destruct t as [|t0 [|t1 [|t2 [|t3 [|]]]]]; try done. clear Hd Hs Ht.
  set (p := {| ping_data := d; ping_src := [s0; s1; s2; s3]; ping_dst := [t0; t1; t2; t3] |}).
  set (h := take 20 (pong_packet p 0)).
  assert (forall c, (0 <= c < 65536)%Z -> word_sum 10 (take 20 (pong_packet p c)) = (word_sum 10 h + c)%Z) as Hw.
  { intros c Hc. pose proof (from_to_be_small 2 _ Hc) as Hb. change (to_be 2 c) with [zb (c / 256); zb c] in Hb.
    rewrite from_be2 in Hb. unfold h, pong_packet. cbn -[Z.add Z.mul Z.sub bz zb Z.div].
    change (zb (0 / 256)) with x00. change (zb 0) with x00. change (bz x00) with 0%Z. lia. }
  assert (0 < word_sum 10 h)%Z as Hpos.
  { unfold h, pong_packet. cbn -[Z.add Z.mul Z.sub bz zb Z.div].
    repeat match goal with |- context [bz ?b] => is_var b; pose proof (bz_range b); generalize dependent (bz b); intros end.
    vm_compute bz. lia. }
  destruct (checksum_even (E:=E) h 10 eq_refl) as (c & Hck & Hc & Hm & Hp); [lia|]. specialize (Hp Hpos).
  exists (65535 - c)%Z. split; [lia|]. split; [done|].
  apply (header_checked (take 20 (pong_packet p (65535 - c)))); [done|rewrite Hw; lia|].
  rewrite Hw, Z.add_mod, <- Hm, <- Z.add_mod by lia. by replace (c + (65535 - c))%Z with 65535%Z by lia.
Qed.

(** The reply to a ping is a valid IPv4 packet: without room for 31 bytes
    there is none; given room, [write_pong] writes exactly the packet that swaps
    the addresses and echoes the data, leaves the rest of the buffer alone, and
    its 20-byte header verifies at the receiver (the ones' complement sum over
    it is zero). *)
Theorem write_pong_valid {E} p out :
  ping_ok p ->
  if decide (length out < 31) then write_pong (E:=E) p out = Ok None
  else exists sum, (0 <= sum < 65536)%Z /\
    write_pong (E:=E) p out = Ok (Some (pong_packet p sum ++ drop 31 out, 31)) /\
    header_valid (take 20 (pong_packet p sum)) /\
    checksum (E:=E) (take 20 (pong_packet p sum)) = Ok 0%Z.
Proof.
  intros Hp. case_decide as Ho.
  - unfold write_pong. by rewrite decide_True.
  - destruct (pong_checksum (E:=E) p Hp) as (sum & Hr & Hc & Hv & H0). exists sum. split; [done|]. split; [|done].
    rewrite write_pong_eq by (done || lia). by rewrite Hc.
Qed.

Lemma write_pong_valid_witness :
  exists sum, (0 <= sum < 65536)%Z /\
    let p := {| ping_data := bs "12345678"; ping_src := [x64; x40; x00; x02]; ping_dst := [x64; x40; x00; x01] |} in
    write_pong (E:=Empty_set) p (zeros 64) = Ok (Some (pong_packet p sum ++ drop 31 (zeros 64), 31)) /\
    header_valid (take 20 (pong_packet p sum)) /\
    checksum (E:=Empty_set) (take 20 (pong_packet p sum)) = Ok 0%Z.
Proof.
  apply (write_pong_valid {| ping_data := bs "12345678"; ping_src := [x64; x40; x00; x02]; ping_dst := [x64; x40; x00; x01] |}
    (zeros 64)). split_and!; reflexivity.
Defined.

(** [parse_ping] never panics, on any packet, and what it accepts is a ping:
    version 4, a header of at least 20 bytes, protocol 99, and a payload that
    starts with ['p'] and carries the echoed bytes; the addresses are the
    header's. *)
Theorem parse_ping_total {E} packet :
  parse_ping (E:=E) packet = Ok None \/
  exists p ihl, parse_ping (E:=E) packet = Ok (Some p) /\ ping_ok p /\
    20 <= ihl /\ ihl + 9 <= length packet /\
    packet !! 9 = Some IP_PROTO_TSMP /\
    ping_src p = take 4 (drop 12 packet) /\ ping_dst p = take 4 (drop 16 packet) /\
    take 9 (drop ihl packet) = TYPE_PING :: ping_data p.
Proof.
  unfold parse_ping, IPV4_HEADER_LEN. case_decide as Hl; [by left|].
  destruct (lookup_lt_is_Some_2 packet 0 ltac:(lia)) as [b0 H0]. rewrite (index_ok _ _ _ H0). cbn [obind].
  case_decide; [by left|]. case_decide as Hi; [by left|].
  set (ihl := Z.to_nat (bz (band b0 x0f)) * 4) in *.
  destruct (lookup_lt_is_Some_2 packet 9 ltac:(lia)) as [b9 H9]. rewrite (index_ok _ _ _ H9). cbn [obind].
  case_decide as Hp; [by left|]. subst b9.
  rewrite slice_from by lia. cbn [obind].
  destruct (drop ihl packet) as [|t pl] eqn:E1; [apply (f_equal length) in E1; len|].
  assert (8 <= length pl) as Hpl by (apply (f_equal length) in E1; len).
  rewrite (index_ok _ 0 t) by done. cbn [obind]. case_decide as Ht; [by left|]. subst t.
  rewrite !slice_ok by (simpl; lia). cbn [obind]. right.
  eexists _, ihl. split; [done|]. unfold ping_ok. cbn [ping_data ping_src ping_dst].
  split_and!; try done; try lia; cbn [drop]; rewrite ?length_take, ?length_drop; try lia. by rewrite E1, drop_0.
Qed.
