(* ===== verification/Mdns.v ===== *)
(** The mDNS relay's message edits: [mdns.rs] of the core.

    The functions take the message buffer and give it back with their result,
    because a caller that ignores an error still sees the edits made before it. *)
From S2P Require Import Prelude.

Definition GROUP : bytes := [xe0; x00; x00; xfb].
Definition PORT : Z := 5353.
Definition HEADER_LEN : nat := 12.
Definition QU_BIT : byte := x80.

Inductive MdnsError := Malformed.

(** [skip_name]: the loop advances by at least one byte inside the message, so
    the length is enough fuel. A position below the length of a buffer plus a
    length byte is far below [usize::MAX], so [checked_add] always succeeds. *)
Fixpoint skip_name_loop (fuel : nat) (msg : bytes) (pos : nat) : outcome MdnsError nat :=
  match fuel with
  | O => NoFuel
  | S fuel =>
      let? len := ok_or (msg !! pos) Malformed in
      if decide (band len xc0 <> x00) then Err Malformed
      else
        let pos := pos + 1 in
        if decide (len = x00) then Ok pos
        else
          let pos := pos + Z.to_nat (bz len) in
          if decide (length msg < pos) then Err Malformed else skip_name_loop fuel msg pos
  end.
Definition skip_name (msg : bytes) (pos : nat) : outcome MdnsError nat :=
  skip_name_loop (S (length msg)) msg pos.

Definition edit_class (set : bool) (b : byte) : byte :=
  if set then bor b QU_BIT else band b (bnot QU_BIT).

(** [for _ in 0..questions]; an error leaves the edits made so far. *)
Fixpoint rewrite_loop (questions : nat) (msg : bytes) (pos : nat) (set : bool) : bytes * outcome MdnsError unit :=
  match questions with
  | O => (msg, Ok tt)
  | S questions =>
      match skip_name msg pos with
      | Ok pos =>
          let class_at := pos + 2 in
          if decide (length msg < class_at + 2) then (msg, Err Malformed)
          else
            match msg !! class_at with
            | Some b => rewrite_loop questions (<[class_at := edit_class set b]> msg) (class_at + 2) set
            | None => (msg, Panic)
            end
      | Err e => (msg, Err e)
      | Panic => (msg, Panic)
      | NoFuel => (msg, NoFuel)
      end
  end.

Definition rewrite_question_class (msg : bytes) (set : bool) : bytes * outcome MdnsError Z :=
  if decide (length msg < HEADER_LEN) then (msg, Err Malformed)
  else
    match msg !! 4, msg !! 5 with
    | Some hi, Some lo =>
        let questions := from_be [hi; lo] in
        let (msg, r) := rewrite_loop (Z.to_nat questions) msg HEADER_LEN set in
        (msg, let? _ := r in Ok questions)
    | _, _ => (msg, Panic)
    end.

Definition request_unicast_replies (msg : bytes) : bytes * outcome MdnsError Z :=
  rewrite_question_class msg true.
Definition restore_multicast_questions (msg : bytes) : bytes * outcome MdnsError Z :=
  rewrite_question_class msg false.

Definition is_response (msg : bytes) : outcome MdnsError bool :=
  if decide (HEADER_LEN <= length msg)
  then let? b := index msg 2 in Ok (bool_decide (band b x80 <> x00))
  else Ok false.

Definition transaction_id (msg : bytes) : outcome MdnsError (option Z) :=
  if decide (length msg < HEADER_LEN) then Ok None
  else
    let? b0 := index msg 0 in
    let? b1 := index msg 1 in
    Ok (Some (from_be [b0; b1])).

Definition set_transaction_id (msg : bytes) (id : Z) : outcome MdnsError bytes :=
  if decide (HEADER_LEN <= length msg) then
    let be := to_be 2 id in
    let? b0 := index be 0 in
    let? msg := set_at msg 0 b0 in
    let? b1 := index be 1 in
    set_at msg 1 b1
  else Ok msg.

(** ** The DNS messages the edits are about (RFC 1035, section 4) *)

Record question := { q_name : list bytes; q_type : byte * byte; q_class : byte * byte }.

Definition encode_label (l : bytes) : bytes := zb (Z.of_nat (length l)) :: l.
Definition encode_name (ls : list bytes) : bytes := concat (map encode_label ls) ++ [x00].
Definition encode_question (q : question) : bytes :=
  encode_name (q_name q) ++ [(q_type q).1; (q_type q).2; (q_class q).1; (q_class q).2].

Definition label_ok (l : bytes) : Prop := 1 <= length l <= 63.
Definition question_ok (q : question) : Prop := Forall label_ok (q_name q).

Definition edit_question (set : bool) (q : question) : question :=
  {| q_name := q_name q; q_type := q_type q; q_class := (edit_class set (q_class q).1, (q_class q).2) |}.

(** A message: a header that announces the questions, the questions, and
    whatever follows them. *)
Definition message (id flags : byte * byte) (counts : bytes) (qs : list question) (rest : bytes) : bytes :=
  [id.1; id.2; flags.1; flags.2] ++ to_be 2 (Z.of_nat (length qs)) ++ counts
  ++ concat (map encode_question qs) ++ rest.

(** ** Proofs *)

Lemma band_c0_small b : (bz b < 64)%Z -> band b xc0 = x00.
Proof. by destruct b. Qed.

Lemma edit_class_low b set : band (edit_class set b) x7f = band b x7f.
Proof. by destruct set, b. Qed.

Lemma skip_name_encoded fuel ls pre suf :
  Forall label_ok ls -> length ls < fuel ->
  skip_name_loop fuel (pre ++ encode_name ls ++ suf) (length pre) = Ok (length pre + length (encode_name ls)).
Proof.
  revert fuel pre. induction ls as [|l ls IH]; intros [|fuel] pre Hls Hf; try (simpl in Hf; lia).
  { cbn [skip_name_loop encode_name map concat app].
    rewrite list_lookup_middle by done. cbn [ok_or obind]. rewrite decide_False by (intros []; reflexivity).
    by rewrite decide_True. }
  apply Forall_cons_1 in Hls as [Hl Hls]. red in Hl.
  unfold encode_name in *. cbn [map concat]. unfold encode_label at 1. cbn [app].
  cbn [skip_name_loop]. rewrite list_lookup_middle by done. cbn [ok_or obind].
  rewrite decide_False by (intros []; apply band_c0_small; rewrite bz_zb_small; lia).
  rewrite decide_False by (intros H; apply (f_equal bz) in H; rewrite bz_zb_small in H; [change (bz x00) with 0%Z in H|]; lia).
  rewrite bz_zb_small, Nat2Z.id by lia. rewrite decide_False by len.
  specialize (IH fuel (pre ++ encode_label l) Hls ltac:(simpl in Hf; lia)).
  assert (length (encode_label l) = S (length l)) as Hel by done.
  rewrite <- !app_assoc in *.
  replace (length pre + 1 + length l) with (length (pre ++ encode_label l)) by len.
  change (zb (Z.of_nat (length l)) :: l ++ ?X) with (encode_label l ++ X).
  rewrite IH. f_equal. len.
Qed.

Lemma encode_question_eq q :
  encode_question q = encode_name (q_name q) ++ [(q_type q).1; (q_type q).2; (q_class q).1; (q_class q).2].
Proof. reflexivity. Qed.

Lemma encode_name_length ls : length ls < length (encode_name ls).
Proof.
  unfold encode_name. rewrite length_app. simpl length. induction ls as [|l ls IH]; simpl in *; [lia|]. rewrite length_app. simpl. lia.
Qed.

(** A question at the position is edited. *)
Lemma rewrite_loop_question set n q pre suf : question_ok q ->
  rewrite_loop (S n) (pre ++ encode_question q ++ suf) (length pre) set
  = rewrite_loop n ((pre ++ encode_question (edit_question set q)) ++ suf) (length (pre ++ encode_question (edit_question set q))) set.
Proof.
  intros Hq. cbn [rewrite_loop]. unfold skip_name. rewrite !encode_question_eq, <- !app_assoc.
  rewrite skip_name_encoded; [|done|pose proof (encode_name_length (q_name q)); rewrite !length_app; lia].
  cbn [edit_question q_name q_type q_class fst snd]. set (nm := encode_name (q_name q)). rewrite decide_False by len.
  rewrite lookup_app_r by lia. rewrite lookup_app_r by lia.
  replace (length pre + length nm + 2 - length pre - length nm) with 2 by lia. cbn [app lookup list_lookup].
  replace (length pre + length nm + 2) with (length pre + (length nm + 2)) by lia.
  rewrite !insert_app_r. cbn [app insert list_insert]. rewrite !length_app. cbn [length].
  replace (length pre + (length nm + 2) + 2) with (length pre + (length nm + 4)) by lia. done.
Qed.

Lemma rewrite_loop_encoded set qs pre suf :
  Forall question_ok qs ->
  rewrite_loop (length qs) (pre ++ concat (map encode_question qs) ++ suf) (length pre) set
  = (pre ++ concat (map encode_question (map (edit_question set) qs)) ++ suf, Ok tt).
Proof.
  revert pre. induction qs as [|q qs IH]; intros pre Hqs; [done|].
  apply Forall_cons_1 in Hqs as [Hq Hqs]. cbn [map concat length]. rewrite <- !app_assoc, rewrite_loop_question by done.
  by rewrite IH, <- !app_assoc by done.
Qed.

Lemma rewrite_message set id flags counts qs rest :
  length counts = 6 -> Forall question_ok qs -> (Z.of_nat (length qs) < 65536)%Z ->
  rewrite_question_class (message id flags counts qs rest) set
  = (message id flags counts (map (edit_question set) qs) rest, Ok (Z.of_nat (length qs))).
Proof.
  intros Hc Hqs Hn. unfold rewrite_question_class, message. rewrite !length_map.
  pose proof (from_to_be_small 2 (Z.of_nat (length qs)) ltac:(lia)) as Hz.
  set (hd := [_; _; _; _]) in *. set (n := to_be 2 _) in *.
  rewrite decide_False by (unfold HEADER_LEN, n, hd; rewrite !length_app, length_to_be; simpl; lia).
  assert (length n = 2) as Hln by apply length_to_be.
  destruct n as [|n0 [|n1 [|]]]; try done. cbn [app hd lookup list_lookup]. rewrite Hz, Nat2Z.id.
  pose proof (rewrite_loop_encoded set qs (hd ++ [n0; n1] ++ counts) rest Hqs) as H.
  assert (length (hd ++ [n0; n1] ++ counts) = HEADER_LEN) as Hh by (unfold hd, HEADER_LEN; len).
  rewrite Hh in H. unfold hd in H. rewrite <- !app_assoc in H. cbn [app] in H. by rewrite H.
Qed.

Lemma skip_name_bounds fuel msg pos :
  length msg < fuel + pos -> pos <= length msg ->
  (exists p, skip_name_loop fuel msg pos = Ok p /\ pos < p <= length msg)
  \/ skip_name_loop fuel msg pos = Err Malformed.
Proof.
  revert pos. induction fuel as [|fuel IH]; intros pos Hf Hp; [lia|].
  cbn [skip_name_loop]. destruct (msg !! pos) as [b|] eqn:E; cbn [ok_or obind]; [|by right].
  apply lookup_lt_Some in E. case_decide; [by right|]. case_decide; [left; eexists; split; [done|lia]|].
  case_decide; [by right|]. destruct (IH (pos + 1 + Z.to_nat (bz b))) as [(p & -> & Hl)| ->]; [lia..| |by right].
  left. exists p. split; [done|lia].
Qed.

(** What is skipped is a name. *)
Lemma skip_name_decodes fuel msg pos p : skip_name_loop fuel msg pos = Ok p ->
  exists ls, Forall label_ok ls /\ drop pos msg = encode_name ls ++ drop p msg.
Proof.
  revert pos. induction fuel as [|fuel IH]; intros pos; [done|]. cbn [skip_name_loop]. destruct (msg !! pos) as [b|] eqn:Eb; [|done].
  cbn [ok_or obind]. case_decide as Hp; [done|]. case_decide as H0.
  { intros [= <-]. subst b. exists []. split; [constructor|]. by rewrite Nat.add_1_r, (drop_S _ _ _ Eb). }
  case_decide as Hl; [done|]. intros Hs. destruct (IH _ Hs) as (ls & Hls & Hd). set (n := Z.to_nat (bz b)) in *.
  assert (0 < bz b < 64)%Z as Hb by (revert Hp H0; clear; destruct b; intros; (split; [|]; try done; by destruct Hp || by destruct H0)).
  exists (take n (drop (pos + 1) msg) :: ls). assert (length (take n (drop (pos + 1) msg)) = n) as Hn by (rewrite length_take, length_drop; lia).
  split; [constructor; [unfold label_ok; lia|done]|]. unfold encode_name, encode_label in *. cbn [map concat]. rewrite Hn.
  replace (zb (Z.of_nat n)) with b by (unfold n; rewrite Z2Nat.id by lia; by rewrite zb_bz). rewrite (drop_S _ _ _ Eb), <- app_assoc. cbn [app]. f_equal.
  rewrite <- (take_drop n (drop (S pos) msg)) at 1. rewrite <- Nat.add_1_r, <- !app_assoc. f_equal. rewrite drop_drop, Hd. by rewrite <- app_assoc.
Qed.

(** No question starts here: a name that is compressed or cut off, or no room for
    its type and class. *)
Definition no_question (rest : bytes) : Prop := forall q rest', question_ok q -> rest <> encode_question q ++ rest'.

(** On any bytes the loop edits the questions there are, up to the number
    announced, and nothing else. *)
Lemma rewrite_loop_parses set n pre rest0 : exists qs rest, rest0 = concat (map encode_question qs) ++ rest /\ Forall question_ok qs /\ length qs <= n /\
  rewrite_loop n (pre ++ rest0) (length pre) set =
    (pre ++ concat (map encode_question (map (edit_question set) qs)) ++ rest, if decide (length qs = n) then Ok tt else Err Malformed) /\
  (length qs <> n -> no_question rest).
Proof.
  revert pre rest0. induction n as [|n IH]; intros pre rest0; [by exists [], rest0|].
  assert (no_question rest0 -> (rewrite_loop (S n) (pre ++ rest0) (length pre) set) = (pre ++ rest0, Err Malformed) ->
    exists qs rest, rest0 = concat (map encode_question qs) ++ rest /\ Forall question_ok qs /\ length qs <= S n /\
      rewrite_loop (S n) (pre ++ rest0) (length pre) set =
        (pre ++ concat (map encode_question (map (edit_question set) qs)) ++ rest, if decide (length qs = S n) then Ok tt else Err Malformed) /\
      (length qs <> S n -> no_question rest)) as Hstop.
  { intros Hno E. exists [], rest0. rewrite E. split; [done|]. split; [constructor|]. split; [simpl; lia|]. by rewrite decide_False. }
  assert (forall q rest', question_ok q -> rest0 = encode_question q ++ rest' ->
    skip_name (pre ++ rest0) (length pre) = Ok (length pre + length (encode_name (q_name q))) /\ length (encode_name (q_name q)) + 4 <= length rest0) as Hskip.
  { intros q rest' Hq ->. rewrite encode_question_eq, <- app_assoc. split; [|rewrite !length_app; simpl; lia].
    apply skip_name_encoded; [done|]. pose proof (encode_name_length (q_name q)). rewrite !length_app. lia. }
  destruct (skip_name_bounds (S (length (pre ++ rest0))) (pre ++ rest0) (length pre)) as [(p & Hs & Hl)|Hs]; [lia|rewrite length_app; lia| |].
  2:{ apply Hstop; [|cbn [rewrite_loop]; unfold skip_name; by rewrite Hs]. intros q rest' Hq E. destruct (Hskip q rest' Hq E) as [E' _]. unfold skip_name in E'. congruence. }
  destruct (decide (length (pre ++ rest0) < p + 2 + 2)) as [Hcut|Hroom].
  { apply Hstop; [|cbn [rewrite_loop]; unfold skip_name; by rewrite Hs, decide_True]. intros q rest' Hq E. destruct (Hskip q rest' Hq E) as [E' Hq4]. unfold skip_name in E'.
    assert (p = length pre + length (encode_name (q_name q))) by congruence. rewrite length_app in Hcut. lia. }
  clear Hstop Hskip. apply skip_name_decodes in Hs as (ls & Hls & Hd). rewrite drop_app_length in Hd.
  destruct (drop p (pre ++ rest0)) as [|t0 [|t1 [|c0 [|c1 tail]]]] eqn:Et; [apply (f_equal length) in Et; rewrite length_drop in Et; simpl in Et; lia..|].
  set (q := {| q_name := ls; q_type := (t0, t1); q_class := (c0, c1) |}).
  assert (rest0 = encode_question q ++ tail) as -> by (rewrite Hd, encode_question_eq, <- app_assoc; done). assert (question_ok q) as Hq by exact Hls.
  rewrite rewrite_loop_question by done. destruct (IH (pre ++ encode_question (edit_question set q)) tail) as (qs & rest & -> & Hqs & Hn & -> & Hno).
  exists (q :: qs), rest. cbn [map concat length]. rewrite <- !app_assoc. split; [done|]. split; [by constructor|]. split; [lia|]. split; [|intros ?; apply Hno; lia].
  f_equal. destruct (decide (length qs = n)); [by rewrite decide_True by lia|by rewrite decide_False by lia].
Qed.

(** A datagram of at least a header, whose count of questions is [n]. *)
Definition datagram (id flags : byte * byte) (n : Z) (counts : bytes) (qs : list question) (rest : bytes) : bytes :=
  [id.1; id.2; flags.1; flags.2] ++ to_be 2 n ++ counts ++ concat (map encode_question qs) ++ rest.
(** [qs] are all the questions it has. *)
Definition questions_of (n : Z) (counts : bytes) (qs : list question) (rest : bytes) : Prop :=
  length counts = 6 /\ (0 <= n < 65536)%Z /\ Forall question_ok qs /\ (Z.of_nat (length qs) = n \/ (Z.of_nat (length qs) < n)%Z /\ no_question rest).

(** A datagram reads in one way. *)
Lemma encode_name_unique ls ls' r r' : Forall label_ok ls -> Forall label_ok ls' -> encode_name ls ++ r = encode_name ls' ++ r' -> ls = ls' /\ r = r'.
Proof.
  assert (forall l, label_ok l -> zb (Z.of_nat (length l)) <> x00) as Hne.
  { unfold label_ok. intros l Hl Hz. apply (f_equal bz) in Hz. rewrite bz_zb_small in Hz by lia. change (bz x00) with 0%Z in Hz. lia. }
  intros Hls. revert ls'. induction Hls as [|l ls Hl Hls IH]; intros ls' Hls'; destruct Hls' as [|l' ls' Hl' Hls']; unfold encode_name, encode_label in *; cbn [map concat app].
  - intros [= ->]. done.
  - intros [= Hz _]. by destruct (Hne l' Hl').
  - intros [= Hz _]. by destruct (Hne l Hl).
  - intros [= Hz He]. apply (f_equal bz) in Hz. unfold label_ok in *. rewrite !bz_zb_small in Hz by lia. rewrite <- !app_assoc in He.
    apply app_inj_1 in He as [-> He]; [|lia]. rewrite !app_assoc in He. destruct (IH ls' Hls') as [-> ->]; [by rewrite <- !app_assoc in *|done].
Qed.
Lemma encode_question_unique q q' r r' : question_ok q -> question_ok q' -> encode_question q ++ r = encode_question q' ++ r' -> q = q' /\ r = r'.
Proof.
  destruct q as [nm [t0 t1] [c0 c1]], q' as [nm' [t0' t1'] [c0' c1']]. unfold question_ok. rewrite !encode_question_eq, <- !app_assoc. cbn [q_name q_type q_class fst snd].
  intros Hq Hq' He. apply encode_name_unique in He as [-> He]; [|done..]. cbn [app] in He. by injection He as -> -> -> -> ->.
Qed.
Lemma questions_unique n counts counts' qs qs' rest rest' : questions_of n counts qs rest -> questions_of n counts' qs' rest' ->
  concat (map encode_question qs) ++ rest = concat (map encode_question qs') ++ rest' -> qs = qs' /\ rest = rest'.
Proof.
  intros (_ & _ & Hqs & Hn) (_ & _ & Hqs' & Hn'). clear counts counts'. revert n qs' Hqs' Hn Hn'. induction Hqs as [|q qs Hq Hqs IH]; intros n qs' Hqs' Hn Hn'; destruct Hqs' as [|q' qs' Hq' Hqs']; cbn [map concat app length] in *; [done|..].
  - intros He. rewrite <- app_assoc in He. destruct Hn as [Hn|[_ Hno]]; [lia|]. by destruct (Hno q' _ Hq' He).
  - intros He. rewrite <- app_assoc in He. destruct Hn' as [Hn'|[_ Hno]]; [lia|]. by destruct (Hno q _ Hq (eq_sym He)).
  - rewrite <- !app_assoc. intros He. apply encode_question_unique in He as [-> He]; [|done..].
    destruct (IH (n - 1)%Z qs' Hqs') as [-> ->]; try done; [destruct Hn as [?|[? ?]]; [left|right]; (split; [lia|done]) || lia|destruct Hn' as [?|[? ?]]; [left|right]; (split; [lia|done]) || lia].
Qed.
Lemma datagram_unique id id' flags flags' n n' counts counts' qs qs' rest rest' : questions_of n counts qs rest -> questions_of n' counts' qs' rest' ->
  datagram id flags n counts qs rest = datagram id' flags' n' counts' qs' rest' -> id = id' /\ flags = flags' /\ n = n' /\ counts = counts' /\ qs = qs' /\ rest = rest'.
Proof.
  intros Hq Hq'. pose proof Hq as (Hc & Hn & _). pose proof Hq' as (Hc' & Hn' & _). unfold datagram. intros He. apply app_inj_1 in He as [Hid He]; [|done].
  apply app_inj_1 in He as [Hz He]; [|by rewrite !length_to_be]. apply (f_equal from_be) in Hz. rewrite !from_to_be_small in Hz by lia. subst n'.
  apply app_inj_1 in He as [-> He]; [|lia]. destruct (questions_unique n counts' counts' qs qs' rest rest' Hq Hq' He) as [-> ->].
  destruct id, id', flags, flags'. cbn in Hid. by injection Hid as -> -> -> ->.
Qed.

Lemma rewrite_parses msg set : HEADER_LEN <= length msg -> exists id flags n counts qs rest,
  msg = datagram id flags n counts qs rest /\ questions_of n counts qs rest /\
  rewrite_question_class msg set = (datagram id flags n counts (map (edit_question set) qs) rest, if decide (Z.of_nat (length qs) = n) then Ok n else Err Malformed).
Proof.
  unfold HEADER_LEN. intros Hl. destruct msg as [|i0 [|i1 [|f0 [|f1 [|n0 [|n1 [|k0 [|k1 [|k2 [|k3 [|k4 [|k5 rest0]]]]]]]]]]]]; [simpl in Hl; lia..|].
  set (n := from_be [n0; n1]). assert (0 <= n < 65536)%Z as Hn by apply (from_be_range [n0; n1]). assert (to_be 2 n = [n0; n1]) as Hbe by apply (to_from_be [n0; n1]).
  destruct (rewrite_loop_parses set (Z.to_nat n) [i0; i1; f0; f1; n0; n1; k0; k1; k2; k3; k4; k5] rest0) as (qs & rest & -> & Hqs & Hle & E & Hno).
  exists (i0, i1), (f0, f1), n, [k0; k1; k2; k3; k4; k5], qs, rest. unfold datagram. rewrite Hbe. split; [done|]. split.
  { split_and!; try done; try lia. destruct (decide (length qs = Z.to_nat n)); [left; lia|right]. split; [lia|by apply Hno]. }
  unfold rewrite_question_class. rewrite decide_False by (unfold HEADER_LEN; simpl; lia). cbn [lookup list_lookup app]. fold n.
  cbn [app length] in E. unfold HEADER_LEN. rewrite E. cbn [app]. f_equal. destruct (decide (length qs = Z.to_nat n)); [by rewrite decide_True by lia|by rewrite decide_False by lia].
Qed.

(** The edits of the loop stay inside the top bits, whatever the message. *)
Lemma rewrite_loop_total n : forall msg pos set,
  pos <= length msg ->
  exists msg' r, rewrite_loop n msg pos set = (msg', r) /\ (r = Ok tt \/ r = Err Malformed) /\
    map (fun b => band b x7f) msg' = map (fun b => band b x7f) msg.
Proof.
  induction n as [|n IH]; intros msg pos set Hp; cbn [rewrite_loop]; [eauto 6|].
  destruct (skip_name_bounds (S (length msg)) msg pos) as [(p & Hs & Hl)|Hs]; [lia|done| |];
    unfold skip_name; rewrite Hs; [|eauto 6].
  case_decide; [eauto 6|].
  destruct (lookup_lt_is_Some_2 msg (p + 2) ltac:(lia)) as [b Hb]. rewrite Hb.
  destruct (IH (<[p + 2:=edit_class set b]> msg) (p + 2 + 2) set) as (m & r & -> & Hr & Hm); [len|].
  exists m, r. split_and!; try done. rewrite Hm.
  change (map ?f (<[?i:=?x]> ?l)) with (f <$> <[i:=x]> l).
  rewrite list_fmap_insert, edit_class_low. apply list_insert_id. by rewrite list_lookup_fmap, Hb.
Qed.

(** The relay can undo its edit: on a well-formed query whose questions do
    not have the QU bit, [request_unicast_replies] sets that bit in every
    question and nothing else, and [restore_multicast_questions] then gives
    back the client's own message, byte for byte. *)
Theorem mdns_unicast_roundtrip id flags counts qs rest :
  length counts = 6 -> Forall question_ok qs -> (Z.of_nat (length qs) < 65536)%Z ->
  Forall (fun q => band (q_class q).1 QU_BIT = x00) qs ->
  let m := message id flags counts qs rest in
  let m' := message id flags counts (map (edit_question true) qs) rest in
  request_unicast_replies m = (m', Ok (Z.of_nat (length qs))) /\
  Forall (fun q => band (q_class q).1 QU_BIT = QU_BIT) (map (edit_question true) qs) /\
  restore_multicast_questions m' = (m, Ok (Z.of_nat (length qs))).
Proof.
  intros Hc Hqs Hn Hqu m m'. split_and!.
  - by apply rewrite_message.
  - apply Forall_map, Forall_true. intros [? ? [c ?]]. cbn. by destruct c.
  - unfold m', restore_multicast_questions. rewrite rewrite_message; try done; [|by apply Forall_map|by rewrite length_map].
    rewrite length_map. do 2 f_equal. unfold m. f_equal.
    rewrite map_map. clear -Hqu. induction Hqu as [|[nm ty [c d]] qs Hq _ IH]; [done|].
    cbn [map]. rewrite IH. f_equal. unfold edit_question. cbn in *. do 2 f_equal.
    revert Hq. clear. by destruct c.
Qed.

(** On an arbitrary datagram the edit never panics and always terminates,
    and it changes nothing but top bits: the length and the low seven bits of
    every byte stay, also when it stops half-way with an error. *)
Theorem mdns_rewrite_total msg set :
  exists msg' r, rewrite_question_class msg set = (msg', r) /\
    ((exists n, r = Ok n) \/ r = Err Malformed) /\
    map (fun b => band b x7f) msg' = map (fun b => band b x7f) msg.
Proof.
  unfold rewrite_question_class. case_decide as Hl; [eauto 7|]. unfold HEADER_LEN in *.
  destruct (lookup_lt_is_Some_2 msg 4 ltac:(lia)) as [a ->].
  destruct (lookup_lt_is_Some_2 msg 5 ltac:(lia)) as [b ->].
  destruct (rewrite_loop_total (Z.to_nat (from_be [a; b])) msg 12 set) as (m & r & -> & Hr & Hm); [lia|].
  eexists _, _. split; [done|]. split; [|done]. destruct Hr as [-> | ->]; cbn; eauto.
Qed.

Lemma mdns_unicast_roundtrip_witness :
  let q := {| q_name := [bs "_http"; bs "_tcp"; bs "local"]; q_type := (x00, x0c); q_class := (x00, x01) |} in
  let m := message (x12, x34) (x00, x00) (zeros 6) [q] [xab] in
  let m' := message (x12, x34) (x00, x00) (zeros 6) (map (edit_question true) [q]) [xab] in
  request_unicast_replies m = (m', Ok 1%Z) /\
  Forall (fun q => band (q_class q).1 QU_BIT = QU_BIT) (map (edit_question true) [q]) /\
  restore_multicast_questions m' = (m, Ok 1%Z).
Proof.
  apply (mdns_unicast_roundtrip (x12, x34) (x00, x00) (zeros 6)
    [{| q_name := [bs "_http"; bs "_tcp"; bs "local"]; q_type := (x00, x0c); q_class := (x00, x01) |}] [xab]).
  - reflexivity.
  - repeat constructor; vm_compute; lia.
  - simpl. lia.
  - repeat constructor.
Defined.
