(* ===== verification/Upgrade.v ===== *)
(** The HTTP/1.1 protocol switch: [upgrade.rs].

    [base64_encode], the upgrade request that carries the Noise initiation, and
    the check of the server's answer. [b64] and [b64_decode] are the reference
    encoding of RFC 4648. *)
From S2P Require Import Prelude Buffer.

Definition UPGRADE_PATH : bytes := bs "/ts2021".
Definition UPGRADE_HEADER_VALUE : bytes := bs "tailscale-control-protocol".
Definition HANDSHAKE_HEADER_NAME : bytes := bs "X-Tailscale-Handshake".
Definition MAX_REQUEST_LEN : nat := 512.
Definition CRLF : bytes := [x0d; x0a].
Definition BLANK_LINE : bytes := CRLF ++ CRLF.

Inductive UpgradeError := Incomplete | NotSwitching | Malformed | ShortBuffer.

Definition B64 : bytes := bs "ABCDEFGHIJKLMNOPQRSTUVWXYZabcdefghijklmnopqrstuvwxyz0123456789+/".

(** [B64[(n >> s) as usize & 0x3f]] *)
Definition b64_char (n s : Z) : outcome UpgradeError byte :=
  index B64 (Z.to_nat (Z.land (Z.shiftr n s) 63)).

(** The body of the loop of [base64_encode] for one chunk. *)
Definition b64_chunk (chunk : bytes) (o : nat) (out : bytes) : outcome UpgradeError bytes :=
  let? c0 := index chunk 0 in
  let b0 := bz c0 in
  let b1 := bz (default x00 (chunk !! 1)) in
  let b2 := bz (default x00 (chunk !! 2)) in
  let n := Z.lor (Z.lor (Z.shiftl b0 16) (Z.shiftl b1 8)) b2 in
  let? d0 := b64_char n 18 in
  let? out := set_at out o d0 in
  let? d1 := b64_char n 12 in
  let? out := set_at out (o + 1) d1 in
  let? d2 := if decide (1 < length chunk) then b64_char n 6 else Ok x3d in
  let? out := set_at out (o + 2) d2 in
  let? d3 := if decide (2 < length chunk) then b64_char n 0 else Ok x3d in
  set_at out (o + 3) d3.

Fixpoint b64_loop (cs : list bytes) (o : nat) (out : bytes) : outcome UpgradeError bytes :=
  match cs with
  | [] => Ok out
  | c :: cs => let? out := b64_chunk c o out in b64_loop cs (o + 4) out
  end.

Definition div_ceil (a b : nat) : nat := (a + (b - 1)) / b.

(** [base64_encode]: the buffer after the call and the length written. *)
Definition base64_encode (input out : bytes) : outcome UpgradeError (bytes * nat) :=
  let needed := div_ceil (length input) 3 * 4 in
  if decide (length out < needed) then Err ShortBuffer
  else
    let? out := b64_loop (chunks 3 input) 0 out in
    Ok (out, needed).

Definition wbytes (w : writer) (b : bytes) : outcome UpgradeError writer := wput ShortBuffer w b.

(** [build_request]: the buffer after the call and the length written. *)
Definition build_request (host initiation out : bytes) : outcome UpgradeError (bytes * nat) :=
  let? (b64, n) := base64_encode initiation (zeros 200) in
  let w := Writer out 0 in
  let? w := wbytes w (bs "POST ") in
  let? w := wbytes w UPGRADE_PATH in
  let? w := wbytes w (bs " HTTP/1.1" ++ CRLF ++ bs "Host: ") in
  let? w := wbytes w host in
  let? w := wbytes w (CRLF ++ bs "Upgrade: ") in
  let? w := wbytes w UPGRADE_HEADER_VALUE in
  let? w := wbytes w (CRLF ++ bs "Connection: upgrade" ++ CRLF) in
  let? w := wbytes w HANDSHAKE_HEADER_NAME in
  let? w := wbytes w (bs ": ") in
  let? v := slice b64 0 n in
  let? w := wbytes w v in
  let? w := wbytes w (CRLF ++ bs "Content-Length: 0" ++ BLANK_LINE) in
  Ok (w_buf w, w_pos w).

Definition find_headers_end (buf : bytes) : option nat :=
  (fun i => i + 4) <$> find_window BLANK_LINE buf.

Definition parse_response (buf : bytes) : outcome UpgradeError nat :=
  let? stop := ok_or (find_headers_end buf) Incomplete in
  let? line_end := ok_or (position (fun b => bool_decide (b = x0d)) buf) Malformed in
  let? status := slice buf 0 line_end in
  let? sp := ok_or (position (fun b => bool_decide (b = x20)) status) Malformed in
  let code_start := sp + 1 in
  if decide (length status < code_start + 3) then Err Malformed
  else
    let? code := slice status code_start (code_start + 3) in
    if decide (code <> bs "101") then Err NotSwitching else Ok stop.

(** ** Reference: base64 with padding (RFC 4648, section 4) *)

Definition b64_digit (v : Z) : byte := default x00 (B64 !! Z.to_nat v).

Definition b64_group (c : bytes) : bytes :=
  match c with
  | [a] => let n := (65536 * bz a)%Z in
      [b64_digit (n / 2 ^ 18); b64_digit (n / 2 ^ 12 mod 64); x3d; x3d]
  | [a; b] => let n := (65536 * bz a + 256 * bz b)%Z in
      [b64_digit (n / 2 ^ 18); b64_digit (n / 2 ^ 12 mod 64); b64_digit (n / 2 ^ 6 mod 64); x3d]
  | [a; b; c] => let n := (65536 * bz a + 256 * bz b + bz c)%Z in
      [b64_digit (n / 2 ^ 18); b64_digit (n / 2 ^ 12 mod 64); b64_digit (n / 2 ^ 6 mod 64); b64_digit (n mod 64)]
  | _ => []
  end.
Definition b64 (l : bytes) : bytes := concat (map b64_group (chunks 3 l)).

Definition b64_value (b : byte) : option Z :=
  Z.of_nat <$> position (fun c => bool_decide (c = b)) B64.

Definition b64_ungroup (d0 d1 d2 d3 : byte) : option bytes :=
  v0 ← b64_value d0; v1 ← b64_value d1;
  match b64_value d2, b64_value d3 with
  | Some v2, Some v3 =>
      let n := (2 ^ 18 * v0 + 2 ^ 12 * v1 + 2 ^ 6 * v2 + v3)%Z in
      Some [zb (n / 65536); zb (n / 256); zb n]
  | Some v2, None => let n := (2 ^ 10 * v0 + 2 ^ 4 * v1 + v2 / 4)%Z in Some [zb (n / 256); zb n]
  | _, _ => Some [zb (4 * v0 + v1 / 16)]
  end.
Fixpoint b64_decode (l : bytes) : option bytes :=
  match l with
  | d0 :: d1 :: d2 :: d3 :: l => x ← b64_ungroup d0 d1 d2 d3; y ← b64_decode l; Some (x ++ y)
  | [] => Some []
  | _ => None
  end.

(** The request text, the initiation in base64 in its header. *)
Definition request_text (host initiation : bytes) : bytes :=
  bs "POST /ts2021 HTTP/1.1" ++ CRLF ++ bs "Host: " ++ host ++ CRLF
  ++ bs "Upgrade: tailscale-control-protocol" ++ CRLF ++ bs "Connection: upgrade" ++ CRLF
  ++ bs "X-Tailscale-Handshake: " ++ b64 initiation ++ CRLF ++ bs "Content-Length: 0" ++ BLANK_LINE.

(** ** Proofs *)

Lemma b64_value_digit v : (0 <= v < 64)%Z -> b64_value (b64_digit v) = Some v.
Proof.
  intros Hv. assert (forallb (fun v => bool_decide (b64_value (b64_digit (Z.of_nat v)) = Some (Z.of_nat v))) (seq 0 64) = true)
    as H by (vm_compute; reflexivity).
  rewrite forallb_forall in H. specialize (H (Z.to_nat v)). rewrite in_seq, bool_decide_eq_true in H.
  rewrite Z2Nat.id in H by lia. apply H. lia.
Qed.

Lemma b64_index v : (0 <= v < 64)%Z -> index (E:=UpgradeError) B64 (Z.to_nat v) = Ok (b64_digit v).
Proof.
  intros. unfold b64_digit. destruct (lookup_lt_is_Some_2 B64 (Z.to_nat v)) as [d Hd]; [vm_compute length; lia|].
  rewrite (index_ok _ _ _ Hd). by rewrite Hd.
Qed.

Lemma b64_char_eq n s : (0 <= n)%Z -> (0 <= s)%Z -> b64_char n s = Ok (b64_digit (n / 2 ^ s mod 64)).
Proof.
  intros. unfold b64_char. change 63%Z with (Z.ones 6). rewrite Z.land_ones, Z.shiftr_div_pow2 by lia.
  apply b64_index. apply Z.mod_pos_bound. lia.
Qed.

Lemma lor3 a b c :
  (0 <= a)%Z -> (0 <= b < 256)%Z -> (0 <= c < 256)%Z ->
  Z.lor (Z.lor (Z.shiftl a 16) (Z.shiftl b 8)) c = (65536 * a + 256 * b + c)%Z.
Proof.
  intros. rewrite <- Z.lor_assoc. rewrite (lor_shiftl b c 8) by lia. rewrite lor_shiftl by lia. lia.
Qed.

Lemma b64_char_small n s : (0 <= n < 2 ^ 24)%Z -> s = 18%Z -> b64_char n s = Ok (b64_digit (n / 2 ^ 18)).
Proof.
  intros Hn ->. rewrite b64_char_eq by lia. rewrite Z.mod_small; [done|].
  split; [apply Z.div_pos; lia|]. apply Z.div_lt_upper_bound; lia.
Qed.

Lemma b64_char_0 n : (0 <= n)%Z -> b64_char n 0 = Ok (b64_digit (n mod 64)).
Proof. intros. rewrite b64_char_eq by lia. by rewrite Z.div_1_r. Qed.

Lemma b64_chunk_spec c pre x0 x1 x2 x3 suf :
  1 <= length c <= 3 ->
  b64_chunk c (length pre) (pre ++ x0 :: x1 :: x2 :: x3 :: suf) = Ok (pre ++ b64_group c ++ suf).
Proof.
  intros Hc. unfold b64_chunk.
  destruct c as [|a [|b [|c [|]]]]; try (simpl in Hc; lia);
    rewrite (index_ok _ 0 a) by done; cbn [obind]; cbn [lookup list_lookup from_option id length];
    change (bz x00) with 0%Z; pose proof (bz_range a); try pose proof (bz_range b); try pose proof (bz_range c);
    rewrite lor3, ?Z.add_0_r by lia; rewrite b64_char_small by lia; cbn [obind];
    rewrite (set_at_app_r pre _ 0) by (simpl; lia); cbn [obind];
    rewrite !b64_char_eq by lia; cbn [obind];
    rewrite (set_at_app_r pre _ 1) by (simpl; lia); cbn [obind];
    repeat (case_decide; [|lia]); repeat (case_decide; [lia|]); cbn [obind];
    rewrite (set_at_app_r pre _ 2) by (simpl; lia); cbn [obind];
    rewrite (set_at_app_r pre _ 3) by (simpl; lia);
    rewrite ?Z.pow_0_r, ?Z.div_1_r; done.
Qed.

Lemma chunk_lengths (l : bytes) : Forall (fun c => 1 <= length c <= 3) (chunks 3 l).
Proof.
  induction l as [l IH] using (induction_ltof1 _ (@List.length byte)). unfold ltof in IH.
  destruct l as [|x l]; [constructor|]. rewrite chunks_step by (done || lia). constructor; [rewrite length_take; cbn [length]; lia|].
  apply IH. rewrite length_drop. simpl. lia.
Qed.

Lemma b64_group_length c : 1 <= length c <= 3 -> length (b64_group c) = 4.
Proof. destruct c as [|? [|? [|? [|]]]]; simpl; lia. Qed.

Lemma b64_concat_length cs :
  Forall (fun c => 1 <= length c <= 3) cs -> length (concat (map b64_group cs)) = 4 * length cs.
Proof.
  induction 1 as [|c cs Hc _ IH]; [done|]. cbn [map concat length]. rewrite length_app, IH, b64_group_length by done. lia.
Qed.

Lemma chunks_count (l : bytes) : length (chunks 3 l) = div_ceil (length l) 3.
Proof.
  unfold div_ceil. induction l as [l IH] using (induction_ltof1 _ (@List.length byte)). unfold ltof in IH.
  destruct (decide (l = [])) as [->|Hl]; [done|]. rewrite chunks_step by (done || lia). cbn [length].
  assert (length l <> 0) by (by destruct l).
  rewrite IH by len. rewrite length_drop.
  destruct (decide (length l <= 3)).
  - replace (length l - 3) with 0 by lia. destruct (length l) as [|[|[|[|]]]]; try lia; done.
  - replace (length l + (3 - 1)) with ((length l - 3 + (3 - 1)) + 1 * 3) by lia. rewrite Nat.div_add by lia. lia.
Qed.

Lemma b64_length l : length (b64 l) = div_ceil (length l) 3 * 4.
Proof. unfold b64. rewrite b64_concat_length by apply chunk_lengths. rewrite chunks_count. lia. Qed.

Lemma b64_loop_spec cs pre mid suf :
  Forall (fun c => 1 <= length c <= 3) cs -> length mid = 4 * length cs ->
  b64_loop cs (length pre) (pre ++ mid ++ suf) = Ok (pre ++ concat (map b64_group cs) ++ suf).
Proof.
  intros Hcs. revert pre mid. induction Hcs as [|c cs Hc _ IH]; intros pre mid Hm; [by destruct mid|].
  simpl in Hm. destruct mid as [|x0 [|x1 [|x2 [|x3 mid]]]]; simpl in Hm; try lia.
  cbn [b64_loop map concat app]. rewrite b64_chunk_spec by done. cbn [obind].
  specialize (IH (pre ++ b64_group c) mid ltac:(lia)).
  rewrite length_app, b64_group_length, <- !app_assoc in IH by done. by rewrite <- app_assoc.
Qed.

Lemma base64_encode_spec input out :
  base64_encode input out =
    if decide (length out < div_ceil (length input) 3 * 4) then Err ShortBuffer
    else Ok (b64 input ++ drop (length (b64 input)) out, length (b64 input)).
Proof.
  unfold base64_encode. case_decide as Hl; [done|]. rewrite <- b64_length in *.
  rewrite <- (take_drop (length (b64 input)) out) at 1.
  pose proof (b64_loop_spec (chunks 3 input) [] (take (length (b64 input)) out) (drop (length (b64 input)) out)
    (chunk_lengths _)) as H.
  cbn [length app] in H. rewrite H; [done|].
  rewrite length_take. rewrite b64_length, chunks_count in *. lia.
Qed.

Lemma b64_pad : b64_value x3d = None.
Proof. reflexivity. Qed.

Lemma div64 n k : (0 <= n)%Z -> (0 < k)%Z -> (0 <= n / k mod 64 < 64)%Z.
Proof. intros. apply Z.mod_pos_bound. lia. Qed.

(** Four digits give back the bytes they were made of. *)
Lemma b64_ungroup_group c d0 d1 d2 d3 :
  1 <= length c <= 3 -> b64_group c = [d0; d1; d2; d3] -> b64_ungroup d0 d1 d2 d3 = Some c.
Proof.
  intros Hc. destruct c as [|a [|b [|c [|]]]]; try (simpl in Hc; lia); clear Hc; cbn [b64_group];
    pose proof (bz_range a); try pose proof (bz_range b); try pose proof (bz_range c);
    match goal with |- context [b64_digit (?m / 2 ^ 18)] => set (n := m) end; intros [= <- <- <- <-];
    assert (0 <= n < 2 ^ 24)%Z as Hn by (unfold n; lia);
    assert (0 <= n / 2 ^ 18 < 64)%Z by (split; [apply Z.div_pos; lia|apply Z.div_lt_upper_bound; lia]);
    pose proof (div64 n (2 ^ 12) ltac:(lia) ltac:(lia));
    pose proof (div64 n (2 ^ 6) ltac:(lia) ltac:(lia));
    pose proof (Z.mod_pos_bound n 64 ltac:(lia));
    unfold b64_ungroup; rewrite ?b64_value_digit by done; rewrite ?b64_pad;
    cbn [mbind option_bind]; f_equal; repeat f_equal; apply bz_inj; rewrite bz_zb; unfold n in *; clear n;
    Z.to_euclidean_division_equations; lia.
Qed.

Lemma b64_decode_groups cs :
  Forall (fun c => 1 <= length c <= 3) cs -> b64_decode (concat (map b64_group cs)) = Some (concat cs).
Proof.
  induction 1 as [|c cs Hc _ IH]; [done|]. cbn [map concat].
  pose proof (b64_group_length c Hc) as Hl. destruct (b64_group c) as [|d0 [|d1 [|d2 [|d3 [|]]]]] eqn:E; try done.
  cbn [app b64_decode]. rewrite (b64_ungroup_group c) by done. cbn [mbind option_bind]. by rewrite IH.
Qed.

(** Base64 is lossless: given room, [base64_encode] writes the padded
    RFC 4648 encoding of its input and nothing else, four characters per group
    of three bytes, and decoding what it wrote gives the input back; without
    room it refuses. *)
Theorem base64_roundtrip input out :
  (div_ceil (length input) 3 * 4 <= length out ->
    exists out' n, base64_encode input out = Ok (out', n) /\ n = div_ceil (length input) 3 * 4 /\
      drop n out' = drop n out /\ b64_decode (take n out') = Some input) /\
  (length out < div_ceil (length input) 3 * 4 -> base64_encode input out = Err ShortBuffer).
Proof.
  rewrite base64_encode_spec. split; intros Hl.
  - rewrite decide_False by lia. eexists _, _. split; [done|]. split; [apply b64_length|].
    rewrite drop_app_length, take_app_length. split; [done|].
    unfold b64. rewrite b64_decode_groups by apply chunk_lengths. by rewrite chunks_concat by lia.
  - by rewrite decide_True.
Qed.

(** The request on the wire: [build_request] writes exactly the switch
    request with the initiation in base64 in its handshake header (and so one
    that decodes to the initiation), or refuses when the buffer is short;
    a Noise initiation of 101 bytes always fits the internal array. *)
Theorem build_request_exact host initiation out :
  length initiation <= 150 ->
  build_request host initiation out =
    if decide (length out < length (request_text host initiation)) then Err ShortBuffer
    else Ok (request_text host initiation ++ drop (length (request_text host initiation)) out,
             length (request_text host initiation)).
Proof.
  intros Hi. unfold build_request. rewrite base64_encode_spec, length_zeros.
  assert (div_ceil (length initiation) 3 * 4 <= 200) as Hd.
  { unfold div_ceil. assert ((length initiation + (3 - 1)) / 3 < 51); [|lia].
    apply Nat.Div0.div_lt_upper_bound; lia. }
  rewrite decide_False by lia. cbn [obind]. rewrite slice_app_l by lia.
  rewrite drop_0, Nat.sub_0_r, take_ge by lia. unfold wbytes.
  rewrite !wput_app_k. cbn [obind]. rewrite !wput_app_k.
  match goal with |- context [wput ShortBuffer _ ?b] => assert (b = request_text host initiation) as -> end.
  { unfold request_text. rewrite <- !app_assoc. reflexivity. }
  rewrite wput_eq. cbn [w_buf w_pos]. rewrite Nat.add_0_l. case_decide; [done|].
  cbn [obind]. rewrite advance_start by lia. done.
Qed.

Lemma build_request_exact_witness :
  length (zeros 101) <= 150 /\
  build_request (bs "controlplane.tailscale.com") (zeros 101) (zeros 512) =
    Ok (request_text (bs "controlplane.tailscale.com") (zeros 101)
          ++ drop (length (request_text (bs "controlplane.tailscale.com") (zeros 101))) (zeros 512),
        length (request_text (bs "controlplane.tailscale.com") (zeros 101))).
Proof.
  split; [vm_compute; lia|].
  rewrite (build_request_exact (bs "controlplane.tailscale.com") (zeros 101) (zeros 512)) by (vm_compute; lia).
  reflexivity.
Defined.

(** The line that [parse_response] looks at does not depend on what follows
    the first blank line. *)
Lemma line_end_found buf i :
  find_window BLANK_LINE buf = Some i ->
  exists le, position (fun b => bool_decide (b = x0d)) buf = Some le /\ le <= i.
Proof.
  intros (r & Hr & Hl & _)%find_window_Some.
  destruct (position _ buf) as [le|] eqn:E.
  - exists le. split; [done|]. apply position_Some in E as (x & r' & _ & _ & Hf).
    destruct (decide (le <= i)); [done|]. exfalso.
    rewrite Hr, take_app, Forall_app in Hf. destruct Hf as [_ Hf].
    rewrite length_take in Hf. replace (le - i `min` length buf) with (S (le - i - 1)) in Hf by lia.
    cbn in Hf. apply Forall_cons_1 in Hf as [Hf _]. by rewrite bool_decide_eq_false in Hf.
  - apply position_None in E. rewrite Hr, Forall_app in E. destruct E as [_ E].
    cbn in E. apply Forall_cons_1 in E as [E _]. by rewrite bool_decide_eq_false in E.
Qed.

(** The status code test, as a fact about the line. *)
Lemma status_code_101 st sp :
  position (fun b => bool_decide (b = x20)) st = Some sp ->
  take (sp + 1 + 3 - (sp + 1)) (drop (sp + 1) st) = bs "101" ->
  exists reason, st = take sp st ++ bs " 101" ++ reason /\ (x20 ∉ take sp st).
Proof.
  intros Hp Hc. pose proof (position_lt _ _ _ Hp).
  apply position_Some in Hp as (x & r & Hst & Hx & Hf). apply bool_decide_eq_true in Hx. subst x.
  replace (sp + 1 + 3 - (sp + 1)) with 3 in Hc by lia.
  assert (drop (sp + 1) st = r) as Hr.
  { rewrite Hst, <- drop_drop, drop_app_length' by (rewrite length_take; lia). done. }
  rewrite Hr in Hc. exists (drop 3 r). split.
  - rewrite Hst at 1. f_equal. change (bs " 101") with (x20 :: bs "101"). cbn [app]. f_equal.
    rewrite <- Hc at 1. by rewrite take_drop.
  - intros Hin. rewrite Forall_forall in Hf. apply list_elem_of_In, Hf in Hin.
    by rewrite bool_decide_eq_false in Hin.
Qed.

(** The outcomes once a blank line is there. *)
Lemma parse_response_cases buf i (Q : outcome UpgradeError nat -> Prop) :
  find_window BLANK_LINE buf = Some i ->
  Q (Err Malformed) -> Q (Err NotSwitching) ->
  ((exists version reason, take i buf = version ++ bs " 101" ++ reason /\ (x20 ∉ version) /\ (x0d ∉ version)) -> Q (Ok (i + 4))) ->
  Q (parse_response buf).
Proof.
  intros Hi Hm Hns Hok. destruct (line_end_found _ _ Hi) as (le & Hle & Hlei).
  pose proof (position_lt _ _ _ Hle).
  unfold parse_response, find_headers_end. rewrite Hi. cbn [fmap option_fmap option_map ok_or obind].
  rewrite Hle. cbn [ok_or obind]. rewrite slice_to by lia. cbn [obind].
  destruct (position _ (take le buf)) as [sp|] eqn:Esp; cbn [ok_or obind]; [|done].
  case_decide as Hs; [done|]. rewrite slice_ok by lia. cbn [obind]. case_decide as Hc; [done|].
  apply Hok. destruct (status_code_101 _ _ Esp Hc) as (reason & Hst & Hsp).
  apply position_Some in Hle as (x & r & _ & _ & Hf).
  exists (take sp (take le buf)), (reason ++ drop le (take i buf)). split_and!; [|done|].
  - rewrite !app_assoc, <- (app_assoc (take sp _)), <- Hst.
    rewrite <- (take_drop le (take i buf)) at 1. f_equal. rewrite take_take. f_equal. lia.
  - intros Hin.
    assert (x0d ∈ take le buf) as Hin' by (rewrite Hst; apply elem_of_app; by left).
    rewrite Forall_forall in Hf. apply list_elem_of_In, Hf in Hin'. by rewrite bool_decide_eq_false in Hin'.
Qed.

(** What arrives behind a decided answer changes nothing. *)
Lemma parse_response_app buf more i : find_window BLANK_LINE buf = Some i -> parse_response (buf ++ more) = parse_response buf.
Proof.
  intros Ei. destruct (line_end_found _ _ Ei) as (le & Hle & _). pose proof (position_lt _ _ _ Hle).
  unfold parse_response, find_headers_end. rewrite (find_window_app _ _ more _ Ei), Ei. cbn [fmap option_fmap option_map ok_or obind].
  rewrite (position_app _ _ more _ Hle), Hle. cbn [ok_or obind]. by rewrite slice_app_l, slice_ok by lia.
Qed.

(** The answer is read correctly from a stream: [parse_response] asks for
    more exactly while no blank line has arrived; once it decides, later bytes
    do not change the decision; and an offset it returns is just past the first
    blank line, in a response whose status code is 101. It never panics. *)
Theorem parse_response_stream buf :
  (parse_response buf = Err Incomplete <-> forall a b, buf <> a ++ BLANK_LINE ++ b) /\
  (parse_response buf <> Err Incomplete -> forall more, parse_response (buf ++ more) = parse_response buf) /\
  (forall n, parse_response buf = Ok n ->
    exists head rest, buf = head ++ BLANK_LINE ++ rest /\ n = length (head ++ BLANK_LINE) /\
      (forall j, j < length head -> starts_with (drop j buf) BLANK_LINE = false) /\
      exists version reason, head = version ++ bs " 101" ++ reason /\ (x20 ∉ version) /\ (x0d ∉ version)) /\
  parse_response buf <> Panic.
Proof.
  destruct (find_window BLANK_LINE buf) as [i|] eqn:Ei.
  2: { assert (parse_response buf = Err Incomplete) as ->.
       { unfold parse_response, find_headers_end. by rewrite Ei. }
       split_and!; try done. split; [|done]. intros _. by apply find_window_None. }
  destruct (line_end_found _ _ Ei) as (le & Hle & _). pose proof (position_lt _ _ _ Hle).
  pose proof (find_window_Some _ _ _ Ei) as (r & Hr & Hl & Hfirst). change (length BLANK_LINE) with 4 in Hl.
  split_and!.
  - split; [|intros Hno; by destruct (Hno _ _ Hr)].
    intros Hin. exfalso. revert Hin. by apply (parse_response_cases buf i (fun o => o <> Err Incomplete) Ei).
  - intros _ more. by apply (parse_response_app buf more i).
  - apply (parse_response_cases buf i (fun o => forall n, o = Ok n -> _) Ei); [done|done|]. intros Hv n [= <-].
    exists (take i buf), r. rewrite length_app, length_take. change (length BLANK_LINE) with 4.
    split_and!; [done|lia| |done]. intros j Hj. apply Hfirst. lia.
  - by apply (parse_response_cases buf i (fun o => o <> Panic) Ei).
Qed.

Lemma base64_roundtrip_witness :
  exists out' n, base64_encode (bs "lando") (zeros 8) = Ok (out', n) /\ n = 8 /\
    drop n out' = drop n (zeros 8) /\ b64_decode (take n out') = Some (bs "lando").
Proof. apply (proj1 (base64_roundtrip (bs "lando") (zeros 8))). vm_compute. lia. Defined.

Definition example_response : bytes :=
  bs "HTTP/1.1 101 Switching Protocols" ++ CRLF ++ bs "Upgrade: x" ++ BLANK_LINE.

Lemma parse_response_stream_witness :
  parse_response example_response = Ok (length example_response) /\
  parse_response (example_response ++ bs "noise") = parse_response example_response.
Proof.
  split; [reflexivity|].
  apply (proj1 (proj2 (parse_response_stream example_response))). vm_compute. discriminate.
Defined.
