(* ===== verification/Json.v ===== *)
(** The JSON writer and field extractor: [json.rs].

    [jwriter] is [json::Writer]; the reader walks a complete buffer by index.
    The grammar the theorems speak of is [jv], a JSON value with the whitespace
    between its tokens, and [text], its bytes. *)
From S2P Require Import Prelude Decimal Utf8 Buffer.

Inductive JsonError := ShortBuffer | Truncated | Malformed.

(** ** Writing *)

Record jwriter := JWriter { jw : writer; needs_comma : bool }.

Definition jnew (buf : bytes) : jwriter := JWriter (Writer buf 0) false.
Definition jlen (w : jwriter) : nat := w_pos (jw w).
Definition jis_empty (w : jwriter) : bool := bool_decide (w_pos (jw w) = 0).
Definition jas_bytes (w : jwriter) : outcome JsonError bytes := slice (w_buf (jw w)) 0 (w_pos (jw w)).

Definition set_comma (b : bool) (w : jwriter) : jwriter := JWriter (jw w) b.

Definition raw (w : jwriter) (b : bytes) : outcome JsonError jwriter :=
  let? w' := wput ShortBuffer (jw w) b in Ok (JWriter w' (needs_comma w)).
Definition jbyte (w : jwriter) (b : byte) : outcome JsonError jwriter := raw w [b].

Definition separate (w : jwriter) : outcome JsonError jwriter :=
  if needs_comma w then jbyte w x2c else Ok w.

Definition begin_object (w : jwriter) : outcome JsonError jwriter :=
  let? w := separate w in jbyte (set_comma false w) x7b.
Definition end_object (w : jwriter) : outcome JsonError jwriter := jbyte (set_comma true w) x7d.
Definition begin_array (w : jwriter) : outcome JsonError jwriter :=
  let? w := separate w in jbyte (set_comma false w) x5b.
Definition end_array (w : jwriter) : outcome JsonError jwriter := jbyte (set_comma true w) x5d.

Definition HEX : bytes := bs "0123456789abcdef".

(** The body of the loop of [write_string]: one byte of the string. *)
Definition write_char (w : jwriter) (b : byte) : outcome JsonError jwriter :=
  if decide (b = x22) then raw w [x5c; x22]
  else if decide (b = x5c) then raw w [x5c; x5c]
  else if decide (b = x0a) then raw w [x5c; x6e]
  else if decide (b = x0d) then raw w [x5c; x72]
  else if decide (b = x09) then raw w [x5c; x74]
  else if decide (bz b <= 31)%Z then
    let? h := index HEX (Z.to_nat (bz (bshr b 4))) in
    let? l := index HEX (Z.to_nat (bz (band b x0f))) in
    raw w [x5c; x75; x30; x30; h; l]
  else jbyte w b.

Fixpoint write_chars (w : jwriter) (s : bytes) : outcome JsonError jwriter :=
  match s with
  | [] => Ok w
  | b :: s => let? w := write_char w b in write_chars w s
  end.

Definition write_string (w : jwriter) (s : bytes) : outcome JsonError jwriter :=
  let? w := jbyte w x22 in
  let? w := write_chars w s in
  jbyte w x22.

Definition key (w : jwriter) (k : bytes) : outcome JsonError jwriter :=
  let? w := separate w in
  let? w := write_string w k in
  jbyte (set_comma false w) x3a.

Definition str_value (w : jwriter) (v : bytes) : outcome JsonError jwriter :=
  let? w := separate w in
  let? w := write_string w v in
  Ok (set_comma true w).

Definition raw_value (w : jwriter) (v : bytes) : outcome JsonError jwriter :=
  let? w := separate w in
  let? w := raw w v in
  Ok (set_comma true w).

(** [u64_value]; the digits are rendered from the right of a 20-byte array. *)
Definition u64_digits (v : Z) : outcome JsonError bytes :=
  let digits := zeros 20 in
  if decide (v = 0)%Z then
    let? digits := set_at digits 0 x30 in slice digits 0 1
  else
    let? (i, digits) := dec_loop 21 v 20 digits in dec_compact 20 i digits.
Definition u64_value (w : jwriter) (v : Z) : outcome JsonError jwriter :=
  let? w := separate w in
  let? s := u64_digits v in
  let? w := raw w s in
  Ok (set_comma true w).

Definition bool_value (w : jwriter) (v : bool) : outcome JsonError jwriter :=
  let? w := separate w in
  let? w := raw w (if v then bs "true" else bs "false") in
  Ok (set_comma true w).

Definition field_str (w : jwriter) (k v : bytes) : outcome JsonError jwriter :=
  let? w := key w k in str_value w v.
Definition field_u64 (w : jwriter) (k : bytes) (v : Z) : outcome JsonError jwriter :=
  let? w := key w k in u64_value w v.
Definition field_bool (w : jwriter) (k : bytes) (v : bool) : outcome JsonError jwriter :=
  let? w := key w k in bool_value w v.

(** ** Reading *)

Inductive Value := VStr (s : bytes) | VNumber (s : bytes) | VBool (b : bool) | VNull | VRaw (l : bytes).

Definition as_str (v : Value) : option bytes := match v with VStr s => Some s | _ => None end.
Definition as_bool (v : Value) : option bool := match v with VBool b => Some b | _ => None end.
Definition is_empty_str (v : Value) : bool := match v with VStr [] => true | _ => false end.

(** A [Parser] is the buffer [s] and the index [i]; each method gives back the
    new index. *)
Definition is_ws (b : byte) : bool := bool_decide (b = x20 \/ b = x09 \/ b = x0a \/ b = x0d).
Definition num_char (b : byte) : bool :=
  bool_decide (b = x2d \/ b = x2b \/ b = x2e \/ b = x65 \/ b = x45) || is_digit b.

(** Advancing over the bytes that satisfy [f], from index [i] of the buffer
    whose remaining bytes are [l]. *)
Fixpoint skip_while (f : byte -> bool) (l : bytes) (i : nat) : nat :=
  match l with
  | [] => i
  | b :: l => if f b then skip_while f l (S i) else i
  end.

Section Parser.
Context (s : bytes).

Definition peek (i : nat) : option byte := s !! i.
Definition next (i : nat) : option byte * nat :=
  match peek i with Some b => (Some b, i + 1) | None => (None, i) end.
Definition expect (b : byte) (i : nat) : outcome JsonError nat :=
  let (o, i) := next i in if decide (o = Some b) then Ok i else Err Malformed.
Definition skip_ws (i : nat) : nat := skip_while is_ws (drop i s) i.

(** The loop of [parse_string] over the remaining bytes; the index just past
    the closing quote. *)
Fixpoint string_loop (l : bytes) (i : nat) : outcome JsonError nat :=
  match l with
  | [] => Err Truncated
  | b :: l =>
      if decide (b = x22) then Ok (i + 1)
      else if decide (b = x5c) then
        match l with [] => Err Truncated | _ :: l => string_loop l (i + 2) end
      else string_loop l (i + 1)
  end.
Definition parse_string (i : nat) : outcome JsonError (bytes * nat) :=
  let? start := expect x22 i in
  let? i := string_loop (drop start s) start in
  let? raw := slice s start (i - 1) in
  let? str := ok_or (from_utf8 raw) Malformed in
  Ok (str, i).

Definition literal (lit : bytes) (i : nat) : outcome JsonError nat :=
  if decide (length s < i + length lit) then Err Malformed
  else
    let? t := slice s i (i + length lit) in
    if decide (t <> lit) then Err Malformed else Ok (i + length lit).

(** [skip_nested]: every step consumes a byte. *)
Fixpoint nested_loop (fuel : nat) (open close : byte) (start i depth : nat) : outcome JsonError (bytes * nat) :=
  match fuel with
  | O => NoFuel
  | S fuel =>
      let (o, i) := next i in
      let? b := ok_or o Truncated in
      if decide (b = x22) then
        let? (_, i) := parse_string (i - 1) in nested_loop fuel open close start i depth
      else if decide (b = open) then nested_loop fuel open close start i (depth + 1)
      else if decide (b = close) then
        match depth with
        | O => Panic
        | S depth =>
            if decide (depth = 0) then let? l := slice s start i in Ok (l, i)
            else nested_loop fuel open close start i depth
        end
      else nested_loop fuel open close start i depth
  end.
Definition skip_nested (open close : byte) (i : nat) : outcome JsonError (bytes * nat) :=
  nested_loop (S (length s)) open close i i 0.

Definition parse_value (i : nat) : outcome JsonError (Value * nat) :=
  let? b := ok_or (peek i) Truncated in
  if decide (b = x22) then let? (str, i) := parse_string i in Ok (VStr str, i)
  else if decide (b = x7b) then let? (l, i) := skip_nested x7b x7d i in Ok (VRaw l, i)
  else if decide (b = x5b) then let? (l, i) := skip_nested x5b x5d i in Ok (VRaw l, i)
  else if decide (b = x74) then let? i := literal (bs "true") i in Ok (VBool true, i)
  else if decide (b = x66) then let? i := literal (bs "false") i in Ok (VBool false, i)
  else if decide (b = x6e) then let? i := literal (bs "null") i in Ok (VNull, i)
  else
    let start := i in
    let i := skip_while num_char (drop i s) i in
    if decide (i = start) then Err Malformed
    else
      let? t := slice s start i in
      let? n := ok_or (from_utf8 t) Malformed in
      Ok (VNumber n, i).

(** The loop of [field]: one member per step. *)
Fixpoint field_loop (fuel : nat) (want : bytes) (i : nat) : outcome JsonError (option Value) :=
  match fuel with
  | O => NoFuel
  | S fuel =>
      let? (k, i) := parse_string (skip_ws i) in
      let? i := expect x3a (skip_ws i) in
      let? (value, i) := parse_value (skip_ws i) in
      if decide (k = want) then Ok (Some value)
      else
        match next (skip_ws i) with
        | (Some b, i) =>
            if decide (b = x2c) then field_loop fuel want i
            else if decide (b = x7d) then Ok None else Err Malformed
        | (None, _) => Err Malformed
        end
  end.
Definition field (want : bytes) : outcome JsonError (option Value) :=
  let? i := expect x7b (skip_ws 0) in
  let i := skip_ws i in
  if decide (peek i = Some x7d) then Ok None else field_loop (S (length s)) want i.
End Parser.

(** [Elements] and its iterator. *)
Record Elements := { e_s : bytes; e_i : nat; e_started : bool; e_done : bool }.
Definition elements (raw : bytes) : Elements :=
  {| e_s := raw; e_i := 0; e_started := false; e_done := false |}.

Definition elements_done (e : Elements) (i : nat) : Elements :=
  {| e_s := e_s e; e_i := i; e_started := true; e_done := true |}.

(** [Elements::next]: the item and the iterator afterwards. *)
Definition elements_next (e : Elements) : outcome JsonError (option Value * Elements) :=
  let s := e_s e in
  if e_done e then Ok (None, e)
  else
    let (o, i) := next s (skip_ws s (e_i e)) in
    if decide (o <> Some (if e_started e then x2c else x5b)) then Ok (None, elements_done e i)
    else
      let i := skip_ws s i in
      if decide (peek s i = Some x5d) then Ok (None, elements_done e i)
      else
        match parse_value s i with
        | Ok (v, i) => Ok (Some v, {| e_s := s; e_i := i; e_started := true; e_done := false |})
        | Err _ => Ok (None, elements_done e i)
        | Panic => Panic
        | NoFuel => NoFuel
        end.

(** [for v in elements(raw)]: the values in order, with fuel for the items. *)
Fixpoint collect (fuel : nat) (e : Elements) : outcome JsonError (list Value) :=
  match fuel with
  | O => NoFuel
  | S fuel =>
      let? (o, e) := elements_next e in
      match o with
      | None => Ok []
      | Some v => let? vs := collect fuel e in Ok (v :: vs)
      end
  end.

(** ** Grammar: JSON texts (RFC 8259), with the whitespace between tokens

    Strings keep their escapes ([str_body]): a JSON string body is any valid
    UTF-8 in which a quote only occurs after a backslash. *)
Inductive jv :=
| JStr (body : bytes)
| JNum (digits : bytes)
| JBool (b : bool)
| JNull
| JObj (w : bytes) (ms : members)
| JArr (w : bytes) (es : elems)
with members :=
| MNil
| MCons (w0 k w1 w2 : bytes) (v : jv) (w3 : bytes) (ms : members)
with elems :=
| ENil
| ECons (w0 : bytes) (v : jv) (w1 : bytes) (es : elems).

Scheme jv_mut := Induction for jv Sort Prop
  with members_mut := Induction for members Sort Prop
  with elems_mut := Induction for elems Sort Prop.
Combined Scheme jv_members_elems_ind from jv_mut, members_mut, elems_mut.

Definition quote (body : bytes) : bytes := [x22] ++ body ++ [x22].

Definition comma (first : bool) : bytes := if first then [] else [x2c].
Fixpoint text (v : jv) : bytes :=
  match v with
  | JStr b => quote b
  | JNum d => d
  | JBool b => if b then bs "true" else bs "false"
  | JNull => bs "null"
  | JObj w ms => [x7b] ++ w ++ text_members true ms ++ [x7d]
  | JArr w es => [x5b] ++ w ++ text_elems true es ++ [x5d]
  end
with text_members (first : bool) (ms : members) : bytes :=
  match ms with
  | MNil => []
  | MCons w0 k w1 w2 v w3 ms =>
      comma first ++ w0 ++ quote k ++ w1 ++ [x3a] ++ w2 ++ text v ++ w3 ++ text_members false ms
  end
with text_elems (first : bool) (es : elems) : bytes :=
  match es with
  | ENil => []
  | ECons w0 v w1 es => comma first ++ w0 ++ text v ++ w1 ++ text_elems false es
  end.

(** A string body: ordinary bytes, and escapes of two bytes. *)
Fixpoint str_body (l : bytes) : bool :=
  match l with
  | [] => true
  | b :: l =>
      if decide (b = x22) then false
      else if decide (b = x5c) then match l with [] => false | _ :: l => str_body l end
      else str_body l
  end.
Definition body_ok (l : bytes) : bool := str_body l && utf8_valid l.
Definition ws_ok (w : bytes) : bool := forallb is_ws w.

Fixpoint jv_ok (v : jv) : bool :=
  match v with
  | JStr b => body_ok b
  | JNum d => bool_decide (d <> []) && forallb num_char d
  | JBool _ | JNull => true
  | JObj w ms => ws_ok w && members_ok ms
  | JArr w es => ws_ok w && elems_ok es
  end
with members_ok (ms : members) : bool :=
  match ms with
  | MNil => true
  | MCons w0 k w1 w2 v w3 ms =>
      ws_ok w0 && body_ok k && ws_ok w1 && ws_ok w2 && jv_ok v && ws_ok w3 && members_ok ms
  end
with elems_ok (es : elems) : bool :=
  match es with
  | ENil => true
  | ECons w0 v w1 es => ws_ok w0 && jv_ok v && ws_ok w1 && elems_ok es
  end.

(** What the extractor gives back for a value: nested ones stay text. *)
Definition value_of (v : jv) : Value :=
  match v with
  | JStr b => VStr b
  | JNum d => VNumber d
  | JBool b => VBool b
  | JNull => VNull
  | JObj _ _ | JArr _ _ => VRaw (text v)
  end.

(** The first member with that key. *)
Fixpoint lookup_member (want : bytes) (ms : members) : option jv :=
  match ms with
  | MNil => None
  | MCons _ k _ _ v _ ms => if decide (k = want) then Some v else lookup_member want ms
  end.
Fixpoint elem_values (es : elems) : list Value :=
  match es with ENil => [] | ECons _ v _ es => value_of v :: elem_values es end.

(** The escaped form of a string, as [write_string] emits it. *)
Definition escape_char (b : byte) : bytes :=
  if decide (b = x22) then [x5c; x22]
  else if decide (b = x5c) then [x5c; x5c]
  else if decide (b = x0a) then [x5c; x6e]
  else if decide (b = x0d) then [x5c; x72]
  else if decide (b = x09) then [x5c; x74]
  else if decide (bz b <= 31)%Z then
    [x5c; x75; x30; x30; default x00 (HEX !! Z.to_nat (bz (bshr b 4))); default x00 (HEX !! Z.to_nat (bz (band b x0f)))]
  else [b].
Definition escape (s : bytes) : bytes := concat (map escape_char s).

(** Unescaping, for the round trip of strings (RFC 8259, section 7; the
    four-digit escapes below U+0080 that the writer uses). *)
Definition hex_value (b : byte) : option Z :=
  Z.of_nat <$> position (fun c => bool_decide (c = b)) HEX.
Fixpoint unescape (fuel : nat) (l : bytes) : option bytes :=
  match fuel, l with
  | _, [] => Some []
  | O, _ => None
  | S fuel, b :: l =>
      if decide (b = x5c) then
        match l with
        | c :: l =>
            if decide (c = x75) then
              match l with
              | _ :: _ :: h :: d :: l =>
                  x ← hex_value h; y ← hex_value d; r ← unescape fuel l; Some (zb (16 * x + y) :: r)
              | _ => None
              end
            else
              x ← (if decide (c = x6e) then Some x0a else if decide (c = x72) then Some x0d
                   else if decide (c = x74) then Some x09 else if decide (c = x22 \/ c = x5c) then Some c else None);
              r ← unescape fuel l; Some (x :: r)
        | [] => None
        end
      else r ← unescape fuel l; Some (b :: r)
  end.

(** ** What the writer emits

    [Emits f b d]: started with the comma flag [c], [f] appends exactly [b c]
    (or fails with [ShortBuffer] when that does not fit) and leaves the flag
    [d c]. The instances below compose, so a request built by a sequence of
    calls has its text computed by instance resolution. *)
Definition jemit (w : jwriter) (b : bytes) (c : bool) : outcome JsonError jwriter :=
  let? w' := wput ShortBuffer (jw w) b in Ok (JWriter w' c).

Class Emits (f : jwriter -> outcome JsonError jwriter) (b : bool -> bytes) (d : bool -> bool) : Prop :=
  emits w : writer_ok (jw w) -> f w = jemit w (b (needs_comma w)) (d (needs_comma w)).

Definition sep (c : bool) : bytes := if c then [x2c] else [].

Lemma jemit_nil w : writer_ok (jw w) -> jemit w [] (needs_comma w) = Ok w.
Proof. intros. unfold jemit. rewrite wput_nil by done. by destruct w. Qed.

Lemma jemit_Ok w b c w' :
  jemit w b c = Ok w' ->
  w_pos (jw w) + length b <= length (w_buf (jw w)) /\ w' = JWriter (advance (jw w) b) c.
Proof.
  unfold jemit. destruct (wput ShortBuffer (jw w) b) as [u| | |] eqn:E; try done. intros [= <-].
  apply wput_Ok in E as [? ->]. done.
Qed.

Lemma jemit_app w a b c d :
  (let? w := jemit w a c in jemit w b d) = jemit w (a ++ b) d.
Proof.
  unfold jemit. rewrite <- wput_app. rewrite !obind_assoc. by destruct (wput ShortBuffer (jw w) a).
Qed.

#[export] Instance emits_seq f g b1 d1 b2 d2 :
  Emits f b1 d1 -> Emits g b2 d2 ->
  Emits (fun w => let? w := f w in g w) (fun c => b1 c ++ b2 (d1 c)) (fun c => d2 (d1 c)).
Proof.
  intros Hf Hg w Hw. rewrite (Hf w Hw), <- (jemit_app w _ _ (d1 (needs_comma w))).
  destruct (jemit w (b1 (needs_comma w)) (d1 (needs_comma w))) as [w'| | |] eqn:E; try done. cbn [obind].
  apply jemit_Ok in E as [Hl ->]. rewrite Hg by (by apply advance_ok). done.
Qed.

#[export] Instance emits_ok : Emits Ok (fun _ => []) (fun c => c).
Proof. intros w Hw. by rewrite jemit_nil. Qed.

(** For conversions of the computed text. *)
Lemma emits_ext f b d b' d' :
  Emits f b d -> (forall c, b c = b' c) -> (forall c, d c = d' c) -> Emits f b' d'.
Proof. intros H Hb Hd w Hw. by rewrite (H w Hw), Hb, Hd. Qed.

Lemma emits_eq f g b d : Emits f b d -> (forall w, g w = f w) -> Emits g b d.
Proof. intros H E w Hw. by rewrite E, (H w Hw). Qed.

#[export] Instance emits_raw l : Emits (fun w => raw w l) (fun _ => l) (fun c => c).
Proof. intros w _. done. Qed.
#[export] Instance emits_byte b : Emits (fun w => jbyte w b) (fun _ => [b]) (fun c => c).
Proof. intros w _. done. Qed.

#[export] Instance emits_separate : Emits separate sep (fun c => c).
Proof.
  intros w Hw. unfold separate, sep. destruct (needs_comma w) eqn:E.
  - unfold jbyte, raw. by rewrite E.
  - rewrite <- E at 1. by rewrite jemit_nil.
Qed.

#[export] Instance emits_set_comma b : Emits (fun w => Ok (set_comma b w)) (fun _ => []) (fun _ => b).
Proof. intros w Hw. unfold jemit. rewrite wput_nil by done. done. Qed.

(** Setting the flag and then emitting. *)
Lemma emits_set_k b f t d :
  Emits f t d -> Emits (fun w => f (set_comma b w)) (fun _ => t b) (fun _ => d b).
Proof. intros H w Hw. by rewrite (H (set_comma b w) Hw). Qed.

#[export] Instance emits_begin_object : Emits begin_object (fun c => sep c ++ [x7b]) (fun _ => false).
Proof. apply (emits_seq _ _ _ _ _ _ emits_separate (emits_set_k false _ _ _ (emits_byte x7b))). Qed.
#[export] Instance emits_end_object : Emits end_object (fun _ => [x7d]) (fun _ => true).
Proof. apply (emits_set_k true _ _ _ (emits_byte x7d)). Qed.
#[export] Instance emits_begin_array : Emits begin_array (fun c => sep c ++ [x5b]) (fun _ => false).
Proof. apply (emits_seq _ _ _ _ _ _ emits_separate (emits_set_k false _ _ _ (emits_byte x5b))). Qed.
#[export] Instance emits_end_array : Emits end_array (fun _ => [x5d]) (fun _ => true).
Proof. apply (emits_set_k true _ _ _ (emits_byte x5d)). Qed.

Lemma hex_index {E} b :
  index (E:=E) HEX (Z.to_nat (bz (bshr b 4))) = Ok (default x00 (HEX !! Z.to_nat (bz (bshr b 4))))
  /\ index (E:=E) HEX (Z.to_nat (bz (band b x0f))) = Ok (default x00 (HEX !! Z.to_nat (bz (band b x0f)))).
Proof. by destruct b. Qed.

#[export] Instance emits_write_char b : Emits (fun w => write_char w b) (fun _ => escape_char b) (fun c => c).
Proof.
  intros w Hw. unfold write_char, escape_char. repeat (case_decide; [done|]).
  case_decide; [|done]. destruct (hex_index (E:=JsonError) b) as [-> ->]. done.
Qed.

#[export] Instance emits_write_chars s : Emits (fun w => write_chars w s) (fun _ => escape s) (fun c => c).
Proof.
  induction s as [|b s IH]; [exact emits_ok|].
  apply (emits_seq _ _ _ _ _ _ (emits_write_char b) IH).
Qed.

#[export] Instance emits_write_string s : Emits (fun w => write_string w s) (fun _ => quote (escape s)) (fun c => c).
Proof.
  apply (emits_seq _ _ _ _ _ _ (emits_byte x22) (emits_seq _ _ _ _ _ _ (emits_write_chars s) (emits_byte x22))).
Qed.

#[export] Instance emits_key k : Emits (fun w => key w k) (fun c => sep c ++ quote (escape k) ++ [x3a]) (fun _ => false).
Proof.
  apply (emits_seq _ _ _ _ _ _ emits_separate
    (emits_seq _ _ _ _ _ _ (emits_write_string k) (emits_set_k false _ _ _ (emits_byte x3a)))).
Qed.

(** A value after its separator. *)
Lemma emits_value f t :
  Emits f (fun _ => t) (fun c => c) ->
  Emits (fun w => let? w := separate w in let? w := f w in Ok (set_comma true w)) (fun c => sep c ++ t) (fun _ => true).
Proof.
  intros Hf. eapply emits_ext.
  - apply (emits_seq _ _ _ _ _ _ emits_separate (emits_seq _ _ _ _ _ _ Hf (emits_set_comma true))).
  - intros c. cbn beta. by rewrite app_nil_r.
  - done.
Qed.

#[export] Instance emits_str_value v : Emits (fun w => str_value w v) (fun c => sep c ++ quote (escape v)) (fun _ => true).
Proof. apply (emits_value (fun w => write_string w v)), _. Qed.
#[export] Instance emits_raw_value v : Emits (fun w => raw_value w v) (fun c => sep c ++ v) (fun _ => true).
Proof. apply (emits_value (fun w => raw w v)), _. Qed.
#[export] Instance emits_bool_value (v : bool) :
  Emits (fun w => bool_value w v) (fun c => sep c ++ if v then bs "true" else bs "false") (fun _ => true).
Proof. apply (emits_value (fun w => raw w (if v then bs "true" else bs "false"))), _. Qed.

Lemma u64_digits_dec v : (0 <= v < 2 ^ 64)%Z -> u64_digits v = Ok (dec v).
Proof.
  intros Hv. unfold u64_digits. case_decide as H0; [by subst|].
  rewrite dec_loop_compact by lia. f_equal. apply dec_aux_dec; lia.
Qed.

Lemma emits_u64_value v :
  (0 <= v < 2 ^ 64)%Z -> Emits (fun w => u64_value w v) (fun c => sep c ++ dec v) (fun _ => true).
Proof.
  intros Hv. eapply emits_eq; [apply (emits_value (fun w => raw w (dec v))), _|].
  intros w. unfold u64_value. by rewrite u64_digits_dec.
Qed.

Lemma emits_field f k t :
  Emits f (fun c => sep c ++ t) (fun _ => true) ->
  Emits (fun w => let? w := key w k in f w) (fun c => sep c ++ quote (escape k) ++ [x3a] ++ t) (fun _ => true).
Proof.
  intros Hf. eapply emits_ext; [apply (emits_seq _ _ _ _ _ _ (emits_key k) Hf)| |done].
  intros c. cbn beta. by rewrite <- !app_assoc.
Qed.

#[export] Instance emits_field_str k v :
  Emits (fun w => field_str w k v) (fun c => sep c ++ quote (escape k) ++ [x3a] ++ quote (escape v)) (fun _ => true).
Proof. apply (emits_field (fun w => str_value w v)), _. Qed.
#[export] Instance emits_field_bool k (v : bool) :
  Emits (fun w => field_bool w k v)
    (fun c => sep c ++ quote (escape k) ++ [x3a] ++ if v then bs "true" else bs "false") (fun _ => true).
Proof. apply (emits_field (fun w => bool_value w v)), _. Qed.
Lemma emits_field_u64 k v :
  (0 <= v < 2 ^ 64)%Z ->
  Emits (fun w => field_u64 w k v) (fun c => sep c ++ quote (escape k) ++ [x3a] ++ dec v) (fun _ => true).
Proof. intros. apply (emits_field (fun w => u64_value w v)), emits_u64_value. done. Qed.

(** ** What the reader finds

    Positions in the buffer are given by splitting it: at index [i], [t] comes
    next, when the buffer is [p ++ t ++ r] with [i] the length of [p]. *)
Definition at_pos (s : bytes) (i : nat) (t r : bytes) : Prop :=
  exists p, s = p ++ t ++ r /\ i = length p.

Lemma at_pos_app s i t1 t2 r : at_pos s i (t1 ++ t2) r <-> at_pos s i t1 (t2 ++ r).
Proof. unfold at_pos. by setoid_rewrite <- app_assoc. Qed.

Lemma at_pos_step s i j t r : at_pos s i t r -> j = i + length t -> forall t' r', r = t' ++ r' -> at_pos s j t' r'.
Proof. intros (p & -> & ->) -> t' r' ->. exists (p ++ t). rewrite <- app_assoc. split; [done|len]. Qed.

Lemma at_pos_drop s i t r : at_pos s i t r -> drop i s = t ++ r.
Proof. intros (p & -> & ->). apply drop_app_length. Qed.

Lemma at_pos_slice {E} s i t r : at_pos s i t r -> slice (E:=E) s i (i + length t) = Ok t.
Proof. intros (p & -> & ->). by apply slice_seg. Qed.

Lemma at_pos_lookup s i b t r : at_pos s i (b :: t) r -> s !! i = Some b.
Proof. intros (p & -> & ->). by apply list_lookup_middle. Qed.

Lemma at_pos_length s i t r : at_pos s i t r -> length s = i + length t + length r.
Proof. intros (p & -> & ->). len. Qed.

Lemma skip_while_run f a r i :
  forallb f a = true -> match r with b :: _ => f b = false | [] => True end ->
  skip_while f (a ++ r) i = i + length a.
Proof.
  revert i. induction a as [|b a IH]; intros i Ha Hr; simpl in *.
  - destruct r as [|b r]; simpl; [lia|]. rewrite Hr. lia.
  - apply andb_true_iff in Ha as [-> Ha]. rewrite IH by done. lia.
Qed.

Definition no_ws (r : bytes) : Prop := match r with b :: _ => is_ws b = false | [] => True end.
Definition no_num (r : bytes) : Prop := match r with b :: _ => num_char b = false | [] => True end.

Lemma skip_ws_run s i w r : at_pos s i w r -> ws_ok w = true -> no_ws r -> skip_ws s i = i + length w.
Proof. intros Hp Hw Hr. unfold skip_ws. rewrite (at_pos_drop _ _ _ _ Hp). by apply skip_while_run. Qed.

Lemma expect_ok s i b r : at_pos s i [b] r -> expect s b i = Ok (i + 1).
Proof. intros Hp. unfold expect, next, peek. rewrite (at_pos_lookup _ _ _ _ _ Hp). by rewrite decide_True. Qed.

Lemma string_loop_body body r i :
  str_body body = true -> string_loop (body ++ x22 :: r) i = Ok (i + length body + 1).
Proof.
  revert i. induction body as [l IH] using (induction_ltof1 _ (@length byte)). unfold ltof in IH.
  intros i. destruct l as [|b l]; simpl; [intros; f_equal; lia|].
  case_decide; [done|]. case_decide.
  - destruct l as [|c l]; [done|]. intros Hl. simpl. rewrite IH by (simpl; lia || done). f_equal. lia.
  - intros Hl. rewrite IH by (simpl; lia || done). f_equal. lia.
Qed.

Lemma parse_string_quote s i body r :
  body_ok body = true -> at_pos s i (quote body) r -> parse_string s i = Ok (body, i + length (quote body)).
Proof.
  intros [Hb Hu]%andb_true_iff Hp. unfold quote in *.
  apply at_pos_app in Hp. unfold parse_string. rewrite (expect_ok _ _ _ _ Hp). cbn [obind].
  assert (at_pos s (i + 1) body (x22 :: r)) as Hp1.
  { apply (at_pos_step _ _ _ _ _ Hp); [done|]. by rewrite <- app_assoc. }
  rewrite (at_pos_drop _ _ _ _ Hp1), string_loop_body by done. cbn [obind].
  replace (i + 1 + length body + 1 - 1) with (i + 1 + length body) by lia.
  rewrite (at_pos_slice _ _ _ _ Hp1). cbn [obind]. rewrite from_utf8_valid by done. cbn [ok_or obind].
  do 2 f_equal. len.
Qed.

Lemma literal_ok s i lit r : at_pos s i lit r -> literal s lit i = Ok (i + length lit).
Proof.
  intros Hp. unfold literal. rewrite decide_False by (rewrite (at_pos_length _ _ _ _ Hp); lia).
  rewrite (at_pos_slice _ _ _ _ Hp). cbn [obind]. by rewrite decide_False by auto.
Qed.

(** *** Every parse step moves forward inside the buffer *)

Lemma next_bounds s i b i' : next s i = (Some b, i') -> i' = i + 1 /\ i < length s.
Proof.
  unfold next, peek. destruct (s !! i) eqn:E; [|done]. intros [= <- <-]. split; [done|]. by eapply lookup_lt_Some.
Qed.

Lemma expect_bounds s b i i' : expect s b i = Ok i' -> i' = i + 1 /\ i < length s.
Proof.
  unfold expect. destruct (next s i) as [o j] eqn:E. case_decide; [|done]. intros [= <-]. subst o.
  by apply next_bounds in E.
Qed.

Lemma expect_total s b i : (exists i', expect s b i = Ok i') \/ expect s b i = Err Malformed.
Proof. unfold expect. destruct (next s i). case_decide; eauto. Qed.

Lemma string_loop_bounds l i : (exists i', string_loop l i = Ok i' /\ i < i' <= i + length l) \/ string_loop l i = Err Truncated.
Proof.
  revert i. induction l as [l IH] using (induction_ltof1 _ (@length byte)). unfold ltof in IH.
  intros i. destruct l as [|b l]; simpl; [by right|].
  case_decide; [left; eexists; split; [done|lia]|]. case_decide.
  - destruct l as [|c l]; [by right|]. destruct (IH l ltac:(simpl; lia) (i + 2)) as [(i' & -> & Hi)|Hi]; [left|by right].
    exists i'. split; [done|simpl; lia].
  - destruct (IH l ltac:(simpl; lia) (i + 1)) as [(i' & -> & Hi)|Hi]; [left|by right].
    exists i'. split; [done|lia].
Qed.

(** A step that does not panic, and on success moves the index forward but not
    past the end. *)
Definition steps {A} (s : bytes) (i : nat) (o : outcome JsonError (A * nat)) : Prop :=
  (exists a i', o = Ok (a, i') /\ i < i' <= length s) \/ exists e, o = Err e.

Lemma parse_string_steps s i : steps s i (parse_string s i).
Proof.
  unfold parse_string, steps. destruct (expect_total s x22 i) as [[j Hj]| ->]; [|right; by eexists].
  rewrite Hj. apply expect_bounds in Hj as [-> Hi]. cbn [obind].
  destruct (string_loop_bounds (drop (i + 1) s) (i + 1)) as [(k & -> & Hk)| ->]; [|right; by eexists].
  rewrite length_drop in Hk. cbn [obind]. rewrite slice_ok by lia. cbn [obind].
  destruct (from_utf8 _); cbn; [left|right; by eexists]. eexists _, _. split; [done|lia].
Qed.

Lemma literal_steps s lit i {A} (v : A) :
  lit <> [] -> steps s i (let? i := literal s lit i in Ok (v, i)).
Proof.
  intros Hl. assert (length lit <> 0) by (by destruct lit). unfold literal, steps. case_decide; [right; by eexists|].
  rewrite slice_ok by lia. cbn [obind]. case_decide; [right; by eexists|].
  left. eexists _, _. split; [done|lia].
Qed.

Lemma nested_fuel s open close start depth : forall n m i,
  length s < n + i -> length s < m + i -> i <= length s ->
  nested_loop s n open close start i depth = nested_loop s m open close start i depth.
Proof.
  intros n. revert depth. induction n as [|n IH]; intros depth m i Hn Hm Hi; [lia|].
  destruct m as [|m]; [lia|]. cbn [nested_loop].
  destruct (next s i) as [[b|] j] eqn:E; [|done]. apply next_bounds in E as [-> Hb]. cbn [ok_or obind].
  case_decide.
  { destruct (parse_string_steps s (i + 1 - 1)) as [(a & k & -> & Hk)|[e ->]]; [|done]. cbn [obind]. apply IH; lia. }
  case_decide; [apply IH; lia|]. case_decide; [|apply IH; lia].
  destruct depth; [done|]. case_decide; [done|]. apply IH; lia.
Qed.

(** One step at a known byte. *)
Lemma nested_at s fuel open close start i depth b :
  s !! i = Some b ->
  nested_loop s (S fuel) open close start i depth =
    if decide (b = x22) then
      let? (_, i) := parse_string s (i + 1 - 1) in nested_loop s fuel open close start i depth
    else if decide (b = open) then nested_loop s fuel open close start (i + 1) (depth + 1)
    else if decide (b = close) then
      match depth with
      | O => Panic
      | S depth =>
          if decide (depth = 0) then let? l := slice s start (i + 1) in Ok (l, i + 1)
          else nested_loop s fuel open close start (i + 1) depth
      end
    else nested_loop s fuel open close start (i + 1) depth.
Proof. intros Hb. cbn [nested_loop]. unfold next at 1, peek at 1. by rewrite Hb. Qed.

Lemma nested_total s open close start : forall fuel i depth,
  length s < fuel + i -> start <= i -> i <= length s ->
  steps s i (nested_loop s fuel open close start i (S depth)).
Proof.
  induction fuel as [|fuel IH]; intros i depth Hf Hs Hi; [lia|]. unfold steps in *.
  cbn [nested_loop]. destruct (next s i) as [[b|] j] eqn:E; cbn [ok_or obind]; [|right; by eexists].
  apply next_bounds in E as [-> Hb].
  assert (forall j depth, i < j -> j <= length s ->
    (exists a i', nested_loop s fuel open close start j (S depth) = Ok (a, i') /\ i < i' <= length s)
    \/ exists e, nested_loop s fuel open close start j (S depth) = Err e) as IH'.
  { intros k d Hk Hk'. destruct (IH k d) as [(a & i' & -> & Hl)|[e ->]]; [lia..| |right; by eexists].
    left. eexists _, _. split; [done|lia]. }
  case_decide.
  { destruct (parse_string_steps s (i + 1 - 1)) as [(a & k & -> & Hk)|[e ->]]; [|right; by eexists].
    cbn [obind]. apply IH'; lia. }
  case_decide; [replace (S depth + 1) with (S (S depth)) by lia; apply IH'; lia|].
  case_decide; [|apply IH'; lia]. case_decide.
  - rewrite slice_ok by lia. left. eexists _, _. split; [done|lia].
  - destruct depth; [done|]. apply IH'; lia.
Qed.

Lemma skip_nested_steps s open close i :
  open <> x22 -> s !! i = Some open -> steps s i (skip_nested s open close i).
Proof.
  intros Ho Hi. pose proof (lookup_lt_Some _ _ _ Hi). unfold skip_nested. cbn [nested_loop].
  unfold next at 1, peek. rewrite Hi. cbn [ok_or obind].
  rewrite decide_False by done. rewrite decide_True by done. change (0 + 1) with 1.
  destruct (nested_total s open close i (length s) (i + 1) 0) as [(a & k & -> & Hk)|[e ->]]; [lia..| |right; by eexists].
  left. eexists _, _. split; [done|lia].
Qed.

Lemma skip_while_bounds f l i : i <= skip_while f l i <= i + length l.
Proof. revert i. induction l as [|b l IH]; intros i; simpl; [lia|]. destruct (f b); [specialize (IH (S i))|]; lia. Qed.

Lemma skip_ws_bounds s i : i <= length s -> i <= skip_ws s i <= length s.
Proof. intros. unfold skip_ws. pose proof (skip_while_bounds is_ws (drop i s) i). rewrite length_drop in *. lia. Qed.

Lemma parse_value_steps s i : steps s i (parse_value s i).
Proof.
  unfold parse_value, peek. destruct (s !! i) as [b|] eqn:E; cbn [ok_or obind]; [|right; by eexists].
  pose proof (lookup_lt_Some _ _ _ E).
  assert (forall A (g : A -> Value) (o : outcome JsonError (A * nat)), steps s i o ->
    steps s i (let? (a, i) := o in Ok (g a, i))) as Hmap.
  { intros A g o [(a & k & -> & Hk)|[e ->]]; [left|right; by eexists]. eexists _, _. split; [done|lia]. }
  case_decide; [apply (Hmap _ VStr), parse_string_steps|].
  case_decide; [subst; apply (Hmap _ VRaw), skip_nested_steps; done|].
  case_decide; [subst; apply (Hmap _ VRaw), skip_nested_steps; done|].
  do 3 (case_decide; [by apply literal_steps|]).
  case_decide; [right; by eexists|]. pose proof (skip_while_bounds num_char (drop i s) i).
  rewrite length_drop in *. rewrite slice_ok by lia. cbn [obind].
  destruct (from_utf8 _); [left|right; by eexists]. eexists _, _. split; [done|lia].
Qed.

Lemma field_loop_total s want : forall fuel i,
  length s < fuel + i -> i <= length s ->
  (exists o, field_loop s fuel want i = Ok o) \/ exists e, field_loop s fuel want i = Err e.
Proof.
  induction fuel as [|fuel IH]; intros i Hf Hi; [lia|]. cbn [field_loop].
  pose proof (skip_ws_bounds s i Hi).
  destruct (parse_string_steps s (skip_ws s i)) as [(k & j & -> & Hj)|[e ->]]; cbn [obind]; [|right; by eexists].
  pose proof (skip_ws_bounds s j ltac:(lia)).
  destruct (expect_total s x3a (skip_ws s j)) as [[j2 Hj2]| ->]; [|right; by eexists].
  rewrite Hj2. apply expect_bounds in Hj2 as [-> ?]. cbn [obind].
  pose proof (skip_ws_bounds s (skip_ws s j + 1) ltac:(lia)).
  destruct (parse_value_steps s (skip_ws s (skip_ws s j + 1))) as [(v & j3 & -> & Hj3)|[e ->]]; cbn [obind]; [|right; by eexists].
  case_decide; [left; by eexists|].
  pose proof (skip_ws_bounds s j3 ltac:(lia)).
  destruct (next s (skip_ws s j3)) as [[b|] j4] eqn:E; [|right; by eexists].
  apply next_bounds in E as [-> ?]. case_decide; [apply IH; lia|].
  case_decide; [left|right]; by eexists.
Qed.

(** *** Texts of the grammar *)

(** A text [t] that [skip_nested] passes over without a change of depth. *)
Definition passes (open close : byte) (t : bytes) : Prop :=
  forall s i r start depth fuel,
    at_pos s i t r -> length s < fuel + i ->
    nested_loop s fuel open close start i (S depth) = nested_loop s fuel open close start (i + length t) (S depth).

Section Passes.
Context (open close : byte) (Hkind : (open = x7b /\ close = x7d) \/ (open = x5b /\ close = x5d)).

Lemma passes_nil : passes open close [].
Proof. intros s i r start depth fuel _ _. by rewrite Nat.add_0_r. Qed.

Lemma passes_app a b : passes open close a -> passes open close b -> passes open close (a ++ b).
Proof.
  intros Ha Hb s i r start depth fuel Hp Hf. apply at_pos_app in Hp. rewrite (Ha s i (b ++ r)) by done.
  rewrite (Hb s (i + length a) r); [f_equal; len| |lia]. by apply (at_pos_step _ _ _ _ _ Hp).
Qed.

Lemma passes_byte b : b <> x22 -> b <> open -> b <> close -> passes open close [b].
Proof.
  intros H1 H2 H3 s i r start depth fuel Hp Hf. pose proof (at_pos_length _ _ _ _ Hp) as Hl. simpl in Hl.
  destruct fuel as [|fuel]; [lia|]. rewrite (nested_at s fuel _ _ _ i _ _ (at_pos_lookup _ _ _ _ _ Hp)). rewrite !decide_False by done.
  apply nested_fuel; simpl; lia.
Qed.

Lemma passes_plain t : Forall (fun b => b <> x22 /\ b <> open /\ b <> close) t -> passes open close t.
Proof.
  induction 1 as [|b t (H1 & H2 & H3) _ IH]; [apply passes_nil|].
  apply (passes_app [b]); [by apply passes_byte|done].
Qed.

Lemma passes_quote body : body_ok body = true -> passes open close (quote body).
Proof.
  intros Hb s i r start depth fuel Hp Hf. pose proof (at_pos_length _ _ _ _ Hp) as Hl.
  destruct fuel as [|fuel]; [lia|]. 
  pose proof (proj1 (at_pos_app _ _ _ _ _) (Hp : at_pos s i ([x22] ++ body ++ [x22]) r)) as Hp'.
  rewrite (nested_at s fuel _ _ _ i _ _ (at_pos_lookup _ _ _ _ _ Hp')).
  rewrite decide_True by done. replace (i + 1 - 1) with i by lia.
  rewrite (parse_string_quote s i body r) by done. cbn [obind].
  assert (0 < length (quote body)) by (unfold quote; len). apply nested_fuel; lia.
Qed.

Lemma passes_brackets t : passes open close t -> passes open close ([open] ++ t ++ [close]).
Proof.
  intros Ht s i r start depth fuel Hp Hf. pose proof (at_pos_length _ _ _ _ Hp) as Hl. rewrite !length_app in Hl. simpl in Hl.
  assert (open <> x22 /\ close <> x22 /\ close <> open) as (Ho & Hc & Hco) by (destruct Hkind as [[-> ->]|[-> ->]]; done).
  destruct fuel as [|fuel]; [lia|].
  apply at_pos_app in Hp. rewrite (nested_at s fuel _ _ _ i _ _ (at_pos_lookup _ _ _ _ _ Hp)).
  rewrite decide_False, decide_True by done. replace (S depth + 1) with (S (S depth)) by lia.
  assert (at_pos s (i + 1) t ([close] ++ r)) as Hp1.
  { apply (at_pos_step _ _ _ _ _ Hp); [done|]. by rewrite <- app_assoc. }
  rewrite (Ht s (i + 1) ([close] ++ r)) by (done || lia).
  assert (at_pos s (i + 1 + length t) [close] r) as Hp2 by by apply (at_pos_step _ _ _ _ _ Hp1).
  destruct fuel as [|fuel]; [lia|]. rewrite (nested_at s fuel _ _ _ _ _ _ (at_pos_lookup _ _ _ _ _ Hp2)).
  rewrite !decide_False by done. rewrite decide_True by done.
  rewrite (nested_fuel s open close start (S depth) fuel (S (S fuel))) by len.
  f_equal. len.
Qed.

Lemma ws_plain w : ws_ok w = true -> passes open close w.
Proof.
  intros Hw. apply passes_plain. unfold ws_ok in Hw. rewrite forallb_forall in Hw. apply Forall_forall.
  intros b Hb. apply Hw, bool_decide_eq_true in Hb.
  destruct Hkind as [[-> ->]|[-> ->]]; destruct Hb as [->|[->|[->| ->]]]; done.
Qed.

Lemma num_plain d : forallb num_char d = true -> passes open close d.
Proof.
  intros Hd. apply passes_plain. rewrite forallb_forall in Hd. apply Forall_forall.
  intros b Hb. apply Hd in Hb. destruct Hkind as [[-> ->]|[-> ->]]; split_and!; intros ->; done.
Qed.

(** The brackets of the other kind are ordinary bytes here. *)
Lemma passes_obj t : passes open close t -> passes open close ([x7b] ++ t ++ [x7d]).
Proof.
  intros Ht. destruct Hkind as [[Ho Hc]|[Ho Hc]].
  - rewrite <- Ho, <- Hc. by apply passes_brackets.
  - apply passes_app; [|apply passes_app; [done|]]; apply passes_byte; rewrite ?Ho, ?Hc; done.
Qed.
Lemma passes_arr t : passes open close t -> passes open close ([x5b] ++ t ++ [x5d]).
Proof.
  intros Ht. destruct Hkind as [[Ho Hc]|[Ho Hc]].
  - apply passes_app; [|apply passes_app; [done|]]; apply passes_byte; rewrite ?Ho, ?Hc; done.
  - rewrite <- Ho, <- Hc. by apply passes_brackets.
Qed.

Lemma passes_comma first : passes open close (comma first).
Proof.
  destruct first; [apply passes_nil|]. apply passes_plain. repeat constructor; destruct Hkind as [[-> ->]|[-> ->]]; done.
Qed.

Lemma passes_text :
  (forall v, jv_ok v = true -> passes open close (text v)) /\
  (forall ms, members_ok ms = true -> forall first, passes open close (text_members first ms)) /\
  (forall es, elems_ok es = true -> forall first, passes open close (text_elems first es)).
Proof.
  apply jv_members_elems_ind; cbn [jv_ok members_ok elems_ok text text_members text_elems].
  - intros b Hb. by apply passes_quote.
  - intros d [_ Hd]%andb_true_iff. by apply num_plain.
  - intros b _. apply passes_plain. destruct Hkind as [[-> ->]|[-> ->]], b; repeat constructor; done.
  - intros _. apply passes_plain. destruct Hkind as [[-> ->]|[-> ->]]; repeat constructor; done.
  - intros w ms IH [Hw Hm]%andb_true_iff. rewrite (app_assoc w). apply passes_obj, passes_app; [by apply ws_plain|by apply IH].
  - intros w es IH [Hw Hm]%andb_true_iff. rewrite (app_assoc w). apply passes_arr, passes_app; [by apply ws_plain|by apply IH].
  - intros _ first. apply passes_nil.
  - intros w0 k w1 w2 v IHv w3 ms IHms H first. rewrite !andb_true_iff in H. destruct H as ((((((H0 & Hk) & H1) & H2) & Hv) & H3) & Hms).
    assert (passes open close [x3a]) by (apply passes_byte; destruct Hkind as [[-> ->]|[-> ->]]; done).
    do 8 (apply passes_app; [solve [auto using ws_plain, passes_comma, passes_quote]|]). by apply IHms.
  - intros _ first. apply passes_nil.
  - intros w0 v IHv w1 es IHes H first. rewrite !andb_true_iff in H. destruct H as (((H0 & Hv) & H1) & Hes).
    do 4 (apply passes_app; [solve [auto using ws_plain, passes_comma]|]). by apply IHes.
Qed.

(** A bracketed text is skipped whole. *)
Lemma skip_nested_text s i t r :
  passes open close t -> at_pos s i ([open] ++ t ++ [close]) r ->
  skip_nested s open close i = Ok ([open] ++ t ++ [close], i + length ([open] ++ t ++ [close])).
Proof.
  intros Ht Hp. pose proof (at_pos_length _ _ _ _ Hp) as Hl. rewrite !length_app in Hl. simpl in Hl.
  assert (open <> x22 /\ close <> x22 /\ close <> open) as (Ho & Hc & Hco) by (destruct Hkind as [[-> ->]|[-> ->]]; done).
  unfold skip_nested.
  pose proof (proj1 (at_pos_app _ _ _ _ _) Hp) as Hp0. rewrite (nested_at s _ _ _ _ i _ _ (at_pos_lookup _ _ _ _ _ Hp0)).
  rewrite decide_False, decide_True by done. cbn [Nat.add].
  assert (at_pos s (i + 1) t ([close] ++ r)) as Hp1.
  { apply (at_pos_step _ _ _ _ _ Hp0); [done|]. by rewrite <- app_assoc. }
  rewrite (Ht s (i + 1) ([close] ++ r)) by (done || lia).
  assert (at_pos s (i + 1 + length t) [close] r) as Hp2 by by apply (at_pos_step _ _ _ _ _ Hp1).
  destruct (length s) as [|fuel] eqn:Hls; [lia|]. rewrite (nested_at s fuel _ _ _ _ _ _ (at_pos_lookup _ _ _ _ _ Hp2)).
  rewrite !decide_False by done. rewrite !decide_True by done.
  pose proof (at_pos_slice (E:=JsonError) _ _ _ _ Hp) as Hs. rewrite !length_app in Hs. cbn [length] in Hs.
  replace (i + 1 + length t + 1) with (i + (1 + (length t + 1))) by lia. rewrite Hs. cbn [obind].
  do 2 f_equal. len.
Qed.
End Passes.

Lemma num_ascii d : forallb num_char d = true -> utf8_valid d = true.
Proof.
  intros Hd. apply utf8_ascii, Forall_forall. rewrite forallb_forall in Hd. intros b Hb. apply Hd in Hb. revert Hb.
  unfold num_char, is_digit, is_ascii, in_range. rewrite orb_true_iff, !bool_decide_eq_true.
  intros [[->|[->|[->|[->| ->]]]]|]; [by vm_compute..|lia].
Qed.

Lemma parse_value_text s i v r :
  jv_ok v = true -> at_pos s i (text v) r -> no_num r -> parse_value s i = Ok (value_of v, i + length (text v)).
Proof.
  intros Hv Hp Hr. unfold parse_value, peek.
  assert (forall b t, text v = b :: t -> s !! i = Some b) as Hhead.
  { intros b t E. rewrite E in Hp. by eapply at_pos_lookup. }
  destruct passes_text with (open := x7b) (close := x7d) as (_ & Hobj & _); [by left|].
  destruct passes_text with (open := x5b) (close := x5d) as (_ & _ & Harr); [by right|].
  destruct v as [b|d|b| |w ms|w es]; cbn [jv_ok value_of] in *.
  - rewrite (Hhead x22 (b ++ [x22])) by done. cbn [ok_or obind]. rewrite decide_True by done.
    by rewrite (parse_string_quote s i b r).
  - apply andb_true_iff in Hv as [Hne Hd]. apply bool_decide_eq_true in Hne.
    destruct d as [|c d]; [done|]. rewrite (Hhead c d) by done. cbn [ok_or obind].
    assert (num_char c = true) as Hc by (by apply andb_true_iff in Hd as [? _]).
    repeat (rewrite decide_False by (intros ->; done)).
    rewrite (at_pos_drop _ _ _ _ Hp). cbn [text]. rewrite skip_while_run by done.
    rewrite decide_False by (simpl; lia). rewrite (at_pos_slice _ _ _ _ Hp). cbn [obind text].
    rewrite from_utf8_valid by by apply num_ascii. done.
  - destruct b; (rewrite (Hhead _ _ eq_refl)); cbn [ok_or obind]; repeat (rewrite decide_False by done);
      rewrite decide_True by done; rewrite (literal_ok s i _ r) by done; done.
  - rewrite (Hhead _ _ eq_refl). cbn [ok_or obind]. repeat (rewrite decide_False by done).
    rewrite decide_True by done. rewrite (literal_ok s i _ r) by done. done.
  - apply andb_true_iff in Hv as [Hw Hm]. rewrite (Hhead _ _ eq_refl). cbn [ok_or obind].
    rewrite decide_False, decide_True by done.
    cbn [text] in *. rewrite (app_assoc w) in *.
    rewrite (skip_nested_text x7b x7d (or_introl (conj eq_refl eq_refl)) s i (w ++ text_members true ms) r); [done| |done].
    apply passes_app; [apply ws_plain; [by left|done]|by apply Hobj].
  - apply andb_true_iff in Hv as [Hw Hm]. rewrite (Hhead _ _ eq_refl). cbn [ok_or obind].
    rewrite !decide_False by done. rewrite decide_True by done.
    cbn [text] in *. rewrite (app_assoc w) in *.
    rewrite (skip_nested_text x5b x5d (or_intror (conj eq_refl eq_refl)) s i (w ++ text_elems true es) r); [done| |done].
    apply passes_app; [apply ws_plain; [by right|done]|by apply Harr].
Qed.

(** The first byte of a value is neither white space nor a closing bracket. *)
Lemma text_head v : jv_ok v = true -> exists b t, text v = b :: t /\ is_ws b = false /\ b <> x5d.
Proof.
  destruct v as [b|d|b| |w ms|w es]; cbn [jv_ok text]; intros Hv.
  - by eexists _, _.
  - apply andb_true_iff in Hv as [Hne Hd]. apply bool_decide_eq_true in Hne. destruct d as [|c d]; [done|].
    apply andb_true_iff in Hd as [Hd _]. exists c, d. split; [done|].
    split; [|intros ->; done]. destruct (is_ws c) eqn:E; [|done]. apply bool_decide_eq_true in E.
    destruct E as [->|[->|[->| ->]]]; done.
  - destruct b; by eexists _, _.
  - by eexists _, _.
  - by eexists _, _.
  - by eexists _, _.
Qed.

Lemma ws_no_num w c r : ws_ok w = true -> num_char c = false -> no_num (w ++ c :: r).
Proof.
  destruct w as [|b w]; simpl; [done|]. intros [Hb _]%andb_true_iff _. apply bool_decide_eq_true in Hb.
  destruct Hb as [->|[->|[->| ->]]]; done.
Qed.

(** One member, and what follows it. *)
Lemma field_loop_member s fuel i want w0 k w1 w2 v w3 c r :
  ws_ok w0 = true -> body_ok k = true -> ws_ok w1 = true -> ws_ok w2 = true -> jv_ok v = true -> ws_ok w3 = true ->
  c = x2c \/ c = x7d ->
  at_pos s i (w0 ++ quote k ++ w1 ++ [x3a] ++ w2 ++ text v ++ w3 ++ [c]) r ->
  field_loop s (S fuel) want i =
    if decide (k = want) then Ok (Some (value_of v))
    else if decide (c = x2c)
         then field_loop s fuel want (i + length (w0 ++ quote k ++ w1 ++ [x3a] ++ w2 ++ text v ++ w3 ++ [c]))
         else Ok None.
Proof.
  intros H0 Hk H1 H2 Hv H3 Hc Hp.
  destruct (text_head v Hv) as (hv & tv & Htv & Hws & _).
  cbn [field_loop].
  apply at_pos_app in Hp. rewrite (skip_ws_run s i w0 _ Hp) by done.
  assert (at_pos s (i + length w0) (quote k) (w1 ++ [x3a] ++ w2 ++ text v ++ w3 ++ [c] ++ r)) as Hp1.
  { apply (at_pos_step _ _ _ _ _ Hp); [done|]. by rewrite <- !app_assoc. }
  rewrite (parse_string_quote _ _ _ _ Hk Hp1). cbn [obind].
  pose proof (at_pos_step _ _ _ _ _ Hp1 eq_refl _ _ eq_refl) as Hp2.
  rewrite (skip_ws_run _ _ _ _ Hp2) by done.
  pose proof (at_pos_step _ _ _ _ _ Hp2 eq_refl _ _ eq_refl) as Hp3.
  rewrite (expect_ok _ _ _ _ Hp3). cbn [obind].
  pose proof (at_pos_step _ _ _ _ _ Hp3 eq_refl _ _ eq_refl) as Hp4. cbn [length] in Hp4.
  rewrite (skip_ws_run _ _ _ _ Hp4) by (try done; rewrite Htv; done).
  pose proof (at_pos_step _ _ _ _ _ Hp4 eq_refl _ _ eq_refl) as Hp5.
  rewrite (parse_value_text _ _ _ _ Hv Hp5) by (apply ws_no_num; [done|destruct Hc as [-> | ->]; done]).
  cbn [obind]. case_decide; [done|].
  pose proof (at_pos_step _ _ _ _ _ Hp5 eq_refl _ _ eq_refl) as Hp6.
  rewrite (skip_ws_run _ _ _ _ Hp6) by (try done; destruct Hc as [-> | ->]; done).
  pose proof (at_pos_step _ _ _ _ _ Hp6 eq_refl _ _ eq_refl) as Hp7.
  unfold next, peek. rewrite (at_pos_lookup _ _ _ _ _ Hp7).
  case_decide; [f_equal; len|]. destruct Hc as [-> | ->]; [done|]. by rewrite decide_True.
Qed.

Lemma field_loop_members s want ms : forall w0 k w1 w2 v w3 fuel i r,
  members_ok (MCons w0 k w1 w2 v w3 ms) = true -> length s < fuel + i ->
  at_pos s i (text_members true (MCons w0 k w1 w2 v w3 ms) ++ [x7d]) r ->
  field_loop s fuel want i = Ok (value_of <$> lookup_member want (MCons w0 k w1 w2 v w3 ms)).
Proof.
  induction ms as [|w0' k' w1' w2' v' w3' ms IH]; intros w0 k w1 w2 v w3 fuel i r Hok Hf Hp;
    pose proof (at_pos_length _ _ _ _ Hp) as Hl; (destruct fuel as [|fuel]; [rewrite !length_app in Hl; simpl in Hl; lia|]);
    cbn [members_ok] in Hok; rewrite !andb_true_iff in Hok.
  - destruct Hok as ((((((H0 & Hk) & H1) & H2) & Hv) & H3) & _).
    cbn [text_members comma app lookup_member] in *. norm_app in Hp.
    rewrite (field_loop_member s fuel i want w0 k w1 w2 v w3 x7d r H0 Hk H1 H2 Hv H3 (or_intror eq_refl) Hp).
    case_decide; [done|]. by rewrite decide_False.
  - destruct Hok as ((((((H0 & Hk) & H1) & H2) & Hv) & H3) & Hms).
    set (rest := MCons w0' k' w1' w2' v' w3' ms) in *.
    cbn [text_members comma app] in Hp. norm_app in Hp.
    assert (text_members false rest = [x2c] ++ text_members true rest) as Hrest by done.
    rewrite Hrest in Hp.
    assert (at_pos s i (w0 ++ quote k ++ w1 ++ [x3a] ++ w2 ++ text v ++ w3 ++ [x2c]) ((text_members true rest ++ [x7d]) ++ r)) as Hp1.
    { destruct Hp as (p & -> & ->). exists p. split; [|done]. by norm_app. }
    rewrite (field_loop_member s fuel i want w0 k w1 w2 v w3 x2c _ H0 Hk H1 H2 Hv H3 (or_introl eq_refl) Hp1).
    cbn [lookup_member]. case_decide; [done|]. rewrite decide_True by done.
    pose proof (at_pos_step _ _ _ _ _ Hp1 eq_refl _ _ eq_refl) as Hp2.
    apply (IH _ _ _ _ _ _ _ _ r); [cbn [members_ok]; by rewrite !andb_true_iff in *| |done].
    rewrite !length_app. simpl. lia.
Qed.

Lemma field_text w ms lead rest want :
  jv_ok (JObj w ms) = true -> ws_ok lead = true ->
  field (lead ++ text (JObj w ms) ++ rest) want = Ok (value_of <$> lookup_member want ms).
Proof.
  intros [Hw Hms]%andb_true_iff Hlead. unfold field. set (s := lead ++ text (JObj w ms) ++ rest).
  assert (at_pos s 0 lead (text (JObj w ms) ++ rest)) as Hp by (by exists []).
  rewrite (skip_ws_run _ _ _ _ Hp) by done. cbn [Nat.add].
  assert (at_pos s (length lead) [x7b] (w ++ text_members true ms ++ [x7d] ++ rest)) as Hp0.
  { apply (at_pos_step _ _ _ _ _ Hp); [done|]. cbn [text]. by norm_app. }
  rewrite (expect_ok _ _ _ _ Hp0). cbn [obind].
  pose proof (at_pos_step _ _ _ _ _ Hp0 eq_refl _ _ eq_refl) as Hp1. cbn [length] in Hp1.
  destruct ms as [|w0 k w1 w2 v w3 ms].
  - rewrite (skip_ws_run _ _ _ _ Hp1) by done.
    pose proof (at_pos_step _ _ _ _ _ Hp1 eq_refl _ _ eq_refl) as Hp2.
    unfold peek. rewrite (at_pos_lookup s _ x7d [] rest (proj2 (at_pos_app _ _ [] [x7d] rest) Hp2)). by rewrite decide_True.
  - assert (ws_ok w0 = true) as H0 by (cbn [members_ok] in Hms; rewrite !andb_true_iff in Hms; tauto).
    assert (at_pos s (length lead + 1) (w ++ w0) (quote k ++ w1 ++ [x3a] ++ w2 ++ text v ++ w3 ++ text_members false ms ++ [x7d] ++ rest)) as Hp2.
    { destruct Hp1 as (p & Hs & Hi). exists p. split; [|done]. rewrite Hs. cbn [text_members comma app]. by norm_app. }
    rewrite (skip_ws_run _ _ _ _ Hp2); [|unfold ws_ok in *; by rewrite forallb_app, Hw, H0|done].
    pose proof (at_pos_step _ _ _ _ _ Hp2 eq_refl _ _ eq_refl) as Hp3.
    unfold peek. pose proof (proj1 (at_pos_app s _ [x22] (k ++ [x22]) _) Hp3) as Hq. rewrite (at_pos_lookup _ _ _ _ _ Hq).
    rewrite decide_False by done.
    pose proof (at_pos_length _ _ _ _ Hp2) as Hl.
    replace (Ok (value_of <$> lookup_member want (MCons w0 k w1 w2 v w3 ms)))
      with (Ok (E:=JsonError) (value_of <$> lookup_member want (MCons [] k w1 w2 v w3 ms))) by done.
    apply (field_loop_members _ _ _ _ _ _ _ _ _ _ _ rest).
    + cbn [members_ok] in *. rewrite !andb_true_iff in *. tauto.
    + lia.
    + destruct Hp3 as (p & Hs & Hi). exists p. split; [|done]. rewrite Hs. cbn [text_members comma app]. by norm_app.
Qed.

Lemma field_no_panic s want : (exists o, field s want = Ok o) \/ exists e, field s want = Err e.
Proof.
  unfold field. pose proof (skip_ws_bounds s 0 ltac:(lia)).
  destruct (expect_total s x7b (skip_ws s 0)) as [[i Hi]| ->]; [|right; by eexists].
  rewrite Hi. apply expect_bounds in Hi as [-> ?]. cbn [obind].
  pose proof (skip_ws_bounds s (skip_ws s 0 + 1) ltac:(lia)).
  case_decide; [left; by eexists|]. apply field_loop_total; lia.
Qed.

(** *** The element iterator *)

Definition elements_at (s : bytes) (i : nat) (started : bool) : Elements :=
  {| e_s := s; e_i := i; e_started := started; e_done := false |}.

Lemma collect_done fuel e : e_done e = true -> collect (S fuel) e = Ok [].
Proof. intros H. cbn [collect]. unfold elements_next. by rewrite H. Qed.

(** One step at a known separator that is not followed by the end. *)
Lemma elements_next_at s i (started : bool) w0 c w1 v r :
  ws_ok w0 = true -> ws_ok w1 = true -> jv_ok v = true -> no_num r ->
  c = (if started then x2c else x5b) ->
  at_pos s i (w0 ++ [c] ++ w1 ++ text v) r ->
  elements_next (elements_at s i started)
  = Ok (Some (value_of v), elements_at s (i + length (w0 ++ [c] ++ w1 ++ text v)) true).
Proof.
  intros H0 H1 Hv Hr Hc Hp. destruct (text_head v Hv) as (hv & tv & Htv & Hws & Hne).
  unfold elements_next, elements_at. cbn [e_done e_s e_i e_started].
  apply at_pos_app in Hp. rewrite (skip_ws_run _ _ _ _ Hp) by (try done; subst c; by destruct started).
  pose proof (at_pos_step _ _ _ _ _ Hp eq_refl [c] (w1 ++ text v ++ r) ltac:(by norm_app)) as Hp1.
  unfold next, peek. rewrite (at_pos_lookup _ _ _ _ _ Hp1), <- Hc, decide_False by auto.
  pose proof (at_pos_step _ _ _ _ _ Hp1 eq_refl _ _ eq_refl) as Hp2. cbn [length] in Hp2.
  rewrite (skip_ws_run _ _ _ _ Hp2) by (try done; by rewrite Htv).
  pose proof (at_pos_step _ _ _ _ _ Hp2 eq_refl _ _ eq_refl) as Hp3.
  rewrite decide_False.
  2: { rewrite Htv in Hp3. rewrite (at_pos_lookup _ _ _ _ _ Hp3). congruence. }
  rewrite (parse_value_text _ _ _ _ Hv Hp3) by done. do 3 f_equal. len.
Qed.

Lemma no_num_elems w es r : ws_ok w = true -> no_num (w ++ text_elems false es ++ [x5d] ++ r).
Proof.
  intros Hw. destruct es; [by apply (ws_no_num _ x5d)|]. cbn [text_elems comma app]. by apply ws_no_num.
Qed.

Lemma collect_elems s es : forall fuel i w r,
  elems_ok es = true -> ws_ok w = true -> length (elem_values es) < fuel ->
  at_pos s i (w ++ text_elems false es ++ [x5d]) r ->
  collect fuel (elements_at s i true) = Ok (elem_values es).
Proof.
  induction es as [|w0 v w1 es IH]; intros [|fuel] i w r Hok Hw Hf Hp; try (simpl in Hf; lia).
  - cbn [collect text_elems elem_values] in *. unfold elements_next, elements_at. cbn [e_done e_s e_i e_started].
    apply at_pos_app in Hp. rewrite (skip_ws_run _ _ _ _ Hp) by done.
    pose proof (at_pos_step _ _ _ _ _ Hp eq_refl [x5d] r eq_refl) as Hp1.
    unfold next, peek. rewrite (at_pos_lookup _ _ _ _ _ Hp1), decide_True by done. done.
  - cbn [elems_ok elem_values] in *. rewrite !andb_true_iff in Hok. destruct Hok as (((H0 & Hv) & H1) & Hes).
    cbn [collect]. cbn [text_elems comma] in Hp.
    assert (at_pos s i (w ++ [x2c] ++ w0 ++ text v) (w1 ++ text_elems false es ++ [x5d] ++ r)) as Hp1.
    { destruct Hp as (p & -> & ->). exists p. split; [|done]. by norm_app. }
    rewrite (elements_next_at s i true w x2c w0 v _ Hw H0 Hv (no_num_elems _ _ r H1) eq_refl Hp1).
    cbn [obind]. rewrite (IH fuel _ w1 r); [done|done|done|simpl in Hf; lia|].
    apply (at_pos_step _ _ _ _ _ Hp1 eq_refl). by norm_app.
Qed.

Lemma elements_text w es lead rest fuel :
  jv_ok (JArr w es) = true -> ws_ok lead = true -> length (elem_values es) < fuel ->
  collect fuel (elements (lead ++ text (JArr w es) ++ rest)) = Ok (elem_values es).
Proof.
  intros [Hw Hes]%andb_true_iff Hlead Hf. set (s := lead ++ text (JArr w es) ++ rest).
  change (elements s) with (elements_at s 0 false).
  destruct fuel as [|fuel]; [lia|]. destruct es as [|w0 v w1 es].
  - cbn [collect elem_values]. unfold elements_next, elements_at. cbn [e_done e_s e_i e_started].
    assert (at_pos s 0 lead ([x5b] ++ w ++ [x5d] ++ rest)) as Hp by (exists []; split; [unfold s; cbn [text text_elems]; by norm_app|done]).
    rewrite (skip_ws_run _ _ _ _ Hp) by done.
    pose proof (at_pos_step _ _ _ _ _ Hp eq_refl _ _ eq_refl) as Hp1. unfold next, peek.
    rewrite (at_pos_lookup _ _ _ _ _ Hp1), decide_False by auto.
    pose proof (at_pos_step _ _ _ _ _ Hp1 eq_refl _ _ eq_refl) as Hp2. cbn [length] in Hp2.
    rewrite (skip_ws_run _ _ _ _ Hp2) by done.
    pose proof (at_pos_step _ _ _ _ _ Hp2 eq_refl _ _ eq_refl) as Hp3.
    by rewrite (at_pos_lookup _ _ _ _ _ Hp3), decide_True.
  - cbn [elems_ok elem_values] in *. rewrite !andb_true_iff in Hes. destruct Hes as (((H0 & Hv) & H1) & Hes).
    assert (at_pos s 0 (lead ++ [x5b] ++ (w ++ w0) ++ text v) (w1 ++ text_elems false es ++ [x5d] ++ rest)) as Hp.
    { exists []. split; [|done]. unfold s. cbn [text text_elems comma]. by norm_app. }
    assert (ws_ok (w ++ w0) = true) as Hww by (unfold ws_ok in *; by rewrite forallb_app, Hw, H0).
    cbn [collect]. rewrite (elements_next_at s 0 false lead x5b (w ++ w0) v _ Hlead Hww Hv (no_num_elems _ _ rest H1) eq_refl Hp).
    cbn [obind]. rewrite (collect_elems s es fuel _ w1 rest); [done|done|done|simpl in Hf; lia|].
    apply (at_pos_step _ _ _ _ _ Hp eq_refl). by norm_app.
Qed.

(** The iterator on arbitrary bytes: it stops after at most as many items as
    there are bytes left. *)
Lemma collect_total : forall fuel e,
  e_i e <= length (e_s e) -> length (e_s e) < fuel + e_i e ->
  exists vs, collect fuel e = Ok vs.
Proof.
  induction fuel as [|fuel IH]; intros e Hi Hf; [lia|]. cbn [collect]. unfold elements_next.
  destruct (e_done e); [by eexists|].
  pose proof (skip_ws_bounds (e_s e) (e_i e) Hi).
  destruct (next (e_s e) (skip_ws (e_s e) (e_i e))) as [o j] eqn:E. case_decide as Ho; [by eexists|].
  subst o. apply next_bounds in E as [-> Hj].
  pose proof (skip_ws_bounds (e_s e) (skip_ws (e_s e) (e_i e) + 1) ltac:(lia)).
  case_decide; [by eexists|].
  destruct (parse_value_steps (e_s e) (skip_ws (e_s e) (skip_ws (e_s e) (e_i e) + 1))) as [(v & k & -> & Hk)|[err ->]];
    [|by eexists].
  cbn [obind]. destruct (IH (elements_at (e_s e) k true)) as [vs Hvs]; [simpl; lia..|].
  unfold elements_at in Hvs. rewrite Hvs. by eexists.
Qed.

(** *** Strings: escaping loses nothing and lets nothing out *)

Lemma escape_app a b : escape (a ++ b) = escape a ++ escape b.
Proof. unfold escape. by rewrite map_app, concat_app. Qed.

Lemma str_body_app a b : str_body a = true -> str_body b = true -> str_body (a ++ b) = true.
Proof.
  induction a as [l IH] using (induction_ltof1 _ (@length byte)). unfold ltof in IH.
  destruct l as [|x l]; [done|]. simpl. case_decide; [done|]. case_decide.
  - destruct l as [|y l]; [done|]. simpl. apply IH. simpl. lia.
  - apply IH. simpl. lia.
Qed.

Lemma escape_body s : str_body (escape s) = true.
Proof.
  induction s as [|b s IH]; [done|]. change (b :: s) with ([b] ++ s). rewrite escape_app.
  apply str_body_app; [|done]. by destruct b.
Qed.

Lemma escape_char_ascii b : is_ascii b = true -> Forall (fun c => is_ascii c = true) (escape_char b).
Proof. destruct b; intros H; try discriminate H; repeat constructor. Qed.

Lemma escape_char_high b : is_ascii b = false -> escape_char b = [b].
Proof. by destruct b. Qed.

Lemma escape_utf8 s : utf8_valid s = true -> utf8_valid (escape s) = true.
Proof.
  revert s. apply utf8_ind; [done|]. intros c r Hc Ha Hr IH. rewrite escape_app.
  destruct Ha as [(b & -> & Hb)|Ha].
  - change (escape [b]) with (escape_char b ++ []). rewrite app_nil_r.
    rewrite utf8_valid_app; [done|]. by apply utf8_ascii, escape_char_ascii.
  - assert (escape c = c) as ->.
    { clear -Ha. induction Ha as [|b c Hb _ IH]; [done|]. change (escape (b :: c)) with (escape_char b ++ escape c).
      by rewrite IH, escape_char_high. }
    rewrite <- IH. by apply utf8_valid_step.
Qed.

Lemma escape_ok s : utf8_valid s = true -> body_ok (escape s) = true.
Proof. intros. unfold body_ok. by rewrite escape_body, escape_utf8. Qed.

Lemma unescape_fuel n m l : length l <= n -> length l <= m -> unescape n l = unescape m l.
Proof.
  revert m l. induction n as [|n IH]; intros m l Hn Hm; [by destruct l; [destruct m|simpl in Hn; lia]|].
  destruct l as [|b l]; [by destruct m|]. destruct m as [|m]; [simpl in Hm; lia|]. simpl in Hn, Hm. cbn [unescape].
  case_decide; [|by rewrite (IH m l) by lia].
  destruct l as [|c l]; [done|]. simpl in Hn, Hm. case_decide; [|by rewrite (IH m l) by lia].
  destruct l as [|? [|? [|h [|d l]]]]; try done. simpl in Hn, Hm. by rewrite (IH m l) by lia.
Qed.

Lemma unescape_char b : forall l, unescape (length (escape_char b ++ l)) (escape_char b ++ l)
  = r ← unescape (length l) l; Some (b :: r).
Proof.
  intros l. destruct (decide (escape_char b = [b])) as [E|E].
  - rewrite E. cbn [app length unescape]. rewrite decide_False; [done|]. intros ->. done.
  - assert (length (escape_char b) <= 6) as Hl by (destruct b; vm_compute; lia).
    rewrite (unescape_fuel _ (S (length l + 6))) by len. rewrite (unescape_fuel (length l) (length l + 6) l) by lia.
    destruct b; try (exfalso; apply E; reflexivity); reflexivity.
Qed.

Lemma unescape_escape s : unescape (length (escape s)) (escape s) = Some s.
Proof.
  induction s as [|b s IH]; [done|]. change (escape (b :: s)) with (escape_char b ++ escape s).
  by rewrite unescape_char, IH.
Qed.

(** C38. The extractor implements JSON: on any object text of the grammar,
    whatever its white space, its escapes, the nesting of its values and the
    bytes after it, [field] gives the value of the first member whose key is
    the one asked for, with nested values as their own text; a key inside a
    nested value or inside a string never shadows it. *)
Theorem field_spec w ms lead rest want :
  jv_ok (JObj w ms) = true -> ws_ok lead = true ->
  field (lead ++ text (JObj w ms) ++ rest) want = Ok (value_of <$> lookup_member want ms).
Proof. apply field_text. Qed.

(** The element iterator implements JSON arrays: it yields the values of
    the array in order and then stops. *)
Theorem elements_spec w es lead rest fuel :
  jv_ok (JArr w es) = true -> ws_ok lead = true -> length (elem_values es) < fuel ->
  collect fuel (elements (lead ++ text (JArr w es) ++ rest)) = Ok (elem_values es).
Proof. apply elements_text. Qed.

(** C39. Both readers are total: on any bytes from the network [field] gives a
    value, no value or an error, and the iterator ends after at most one item
    per byte. Neither panics, overruns the buffer or loops. *)
Theorem json_reader_total s want :
  ((exists o, field s want = Ok o) \/ exists e, field s want = Err e) /\
  exists vs, collect (S (length s)) (elements s) = Ok vs.
Proof. split; [apply field_no_panic|]. apply collect_total; simpl; lia. Qed.

(** No string can break out of its quotes: what the writer emits for any
    text is one well-formed JSON string body that unescapes to that text, so a
    member with it is read back and the members after it are still found. *)
Theorem string_injection_safe k v rest_members want :
  utf8_valid k = true -> utf8_valid v = true -> members_ok rest_members = true ->
  (forall w, writer_ok (jw w) -> field_str w k v = jemit w (sep (needs_comma w) ++ quote (escape k) ++ [x3a] ++ quote (escape v)) true) /\
  unescape (length (escape v)) (escape v) = Some v /\
  field (text (JObj [] (MCons [] (escape k) [] [] (JStr (escape v)) [] rest_members))) want
  = Ok (if decide (escape k = want) then Some (VStr (escape v)) else value_of <$> lookup_member want rest_members).
Proof.
  intros Hk Hv Hr. split_and!.
  - intros w Hw. apply (emits (Emits := emits_field_str k v) w Hw).
  - apply unescape_escape.
  - pose proof (field_text [] (MCons [] (escape k) [] [] (JStr (escape v)) [] rest_members) [] [] want) as H.
    rewrite app_nil_r in H. cbn [app] in H. rewrite H; [|cbn; by rewrite !escape_ok, Hr|done].
    cbn [lookup_member]. by case_decide.
Qed.

Definition example_members : members :=
  MCons [] (bs "Nested") [] [x20] (JObj [] (MCons [] (bs "User") [] [] (JStr (bs "inner")) [] MNil)) []
    (MCons [x0a] (bs "User") [] [] (JStr (bs "a\n}")) [] MNil).

Lemma field_spec_witness :
  jv_ok (JObj [] example_members) = true /\
  field ([x20] ++ text (JObj [] example_members) ++ bs "trailing") (bs "User")
  = Ok (value_of <$> lookup_member (bs "User") example_members).
Proof. split; [reflexivity|]. apply (field_spec [] example_members [x20] (bs "trailing") (bs "User")); reflexivity. Defined.

Definition example_elems : elems := ECons [] (JNum (bs "1")) [] (ECons [x20] (JArr [] ENil) [] ENil).

Lemma elements_spec_witness :
  jv_ok (JArr [] example_elems) = true /\
  collect 3 (elements ([] ++ text (JArr [] example_elems) ++ [])) = Ok (elem_values example_elems).
Proof.
  split; [reflexivity|]. apply (elements_spec [] example_elems [] [] 3); [reflexivity|reflexivity|simpl; lia].
Defined.

Lemma string_injection_safe_witness :
  let k := bs "Hostname" in
  let v := [x78; x22; x2c; x22; x0a] in
  let ms := MCons [] (bs "Auth") [] [] (JBool true) [] MNil in
  (forall w, writer_ok (jw w) -> field_str w k v = jemit w (sep (needs_comma w) ++ quote (escape k) ++ [x3a] ++ quote (escape v)) true) /\
  unescape (length (escape v)) (escape v) = Some v /\
  field (text (JObj [] (MCons [] (escape k) [] [] (JStr (escape v)) [] ms))) (bs "Auth")
  = Ok (if decide (escape k = bs "Auth") then Some (VStr (escape v)) else value_of <$> lookup_member (bs "Auth") ms).
Proof.
  apply (string_injection_safe (bs "Hostname") [x78; x22; x2c; x22; x0a]
    (MCons [] (bs "Auth") [] [] (JBool true) [] MNil) (bs "Auth")); reflexivity.
Defined.
