(* ===== verification/JsonTree.v ===== *)
(** Writing whole JSON values.

    [Emits] gives the text of a sequence of writer calls; here the text is that
    of a tree of the grammar: [WritesMembers f ms] for calls that add the
    members [ms] to the open object, [WritesElems f es] for calls that add to
    the open array, [WritesValue f v] for calls that write one value. A request
    is then described by its tree, and what the reader finds in it by
    [field_text]. *)
From S2P Require Import Prelude Decimal Utf8 Buffer Json.

Fixpoint mapp (a b : members) : members :=
  match a with MNil => b | MCons w0 k w1 w2 v w3 a => MCons w0 k w1 w2 v w3 (mapp a b) end.
Fixpoint eapp (a b : elems) : elems :=
  match a with ENil => b | ECons w0 v w1 a => ECons w0 v w1 (eapp a b) end.

(** A member and an element without white space. *)
Definition member (k : bytes) (v : jv) : members := MCons [] (escape k) [] [] v [] MNil.
Definition elem (v : jv) : elems := ECons [] v [] ENil.
Definition when (b : bool) (ms : members) : members := if b then ms else MNil.
Fixpoint elems_of (vs : list jv) : elems := match vs with [] => ENil | v :: vs => ECons [] v [] (elems_of vs) end.

Definition some_members (ms : members) : bool := match ms with MNil => false | _ => true end.
Definition some_elems (es : elems) : bool := match es with ENil => false | _ => true end.

Class WritesMembers (f : jwriter -> outcome JsonError jwriter) (ms : members) : Prop :=
  writes_members :: Emits f (fun c => text_members (negb c) ms) (fun c => c || some_members ms).
Class WritesElems (f : jwriter -> outcome JsonError jwriter) (es : elems) : Prop :=
  writes_elems :: Emits f (fun c => text_elems (negb c) es) (fun c => c || some_elems es).
Class WritesValue (f : jwriter -> outcome JsonError jwriter) (v : jv) : Prop :=
  writes_value :: Emits f (fun c => sep c ++ text v) (fun _ => true).

Lemma text_mapp first a b : text_members first (mapp a b) = text_members first a ++ text_members (first && negb (some_members a)) b.
Proof.
  revert first. induction a as [|w0 k w1 w2 v w3 a IH]; intros first; cbn [mapp text_members some_members].
  - by rewrite andb_true_r.
  - rewrite IH. cbn [andb]. rewrite andb_false_r. by norm_app.
Qed.
Lemma text_eapp first a b : text_elems first (eapp a b) = text_elems first a ++ text_elems (first && negb (some_elems a)) b.
Proof.
  revert first. induction a as [|w0 v w1 a IH]; intros first; cbn [eapp text_elems some_elems].
  - by rewrite andb_true_r.
  - rewrite IH. cbn [andb]. rewrite andb_false_r. by norm_app.
Qed.
Lemma some_mapp a b : some_members (mapp a b) = some_members a || some_members b.
Proof. by destruct a. Qed.
Lemma some_eapp a b : some_elems (eapp a b) = some_elems a || some_elems b.
Proof. by destruct a. Qed.

Lemma comma_sep c : comma (negb c) = sep c.
Proof. by destruct c. Qed.

#[export] Instance members_seq f g a b : WritesMembers f a -> WritesMembers g b -> WritesMembers (fun w => let? w := f w in g w) (mapp a b).
Proof.
  intros Hf Hg. unfold WritesMembers. eapply emits_ext; [apply emits_seq; [exact Hf|exact Hg]| |].
  - intros c. cbn beta. by rewrite text_mapp, negb_orb.
  - intros c. cbn beta. by rewrite some_mapp, orb_assoc.
Qed.
#[export] Instance elems_seq f g a b : WritesElems f a -> WritesElems g b -> WritesElems (fun w => let? w := f w in g w) (eapp a b).
Proof.
  intros Hf Hg. unfold WritesElems. eapply emits_ext; [apply emits_seq; [exact Hf|exact Hg]| |].
  - intros c. cbn beta. by rewrite text_eapp, negb_orb.
  - intros c. cbn beta. by rewrite some_eapp, orb_assoc.
Qed.

#[export] Instance members_nil : WritesMembers Ok MNil.
Proof. unfold WritesMembers. eapply emits_ext; [apply emits_ok|done|]. intros c. by rewrite orb_false_r. Qed.
#[export] Instance elems_nil : WritesElems Ok ENil.
Proof. unfold WritesElems. eapply emits_ext; [apply emits_ok|done|]. intros c. by rewrite orb_false_r. Qed.

(** The code nests its binds to the right, whatever the structure. *)
Lemma members_eq f g ms : WritesMembers f ms -> (forall w, g w = f w) -> WritesMembers g ms.
Proof. apply emits_eq. Qed.
Lemma value_eq f g v : WritesValue f v -> (forall w, g w = f w) -> WritesValue g v.
Proof. apply emits_eq. Qed.

(** Optional members. *)
#[export] Instance members_when (b : bool) f ms : WritesMembers f ms -> WritesMembers (fun w => if b then f w else Ok w) (when b ms).
Proof. intros Hf. destruct b; [exact Hf|apply members_nil]. Qed.

(** A key, then a value. *)
#[export] Instance member_value k f v : WritesValue f v -> WritesMembers (fun w => let? w := key w k in f w) (member k v).
Proof.
  intros Hf. unfold WritesMembers. eapply emits_ext; [apply (emits_field f k (text v) Hf)| |by intros []].
  intros c. unfold member. cbn [text_members app]. rewrite comma_sep, app_nil_r. by norm_app.
Qed.

#[export] Instance elem_value f v : WritesValue f v -> WritesElems f (elem v).
Proof.
  intros Hf. unfold WritesElems. eapply emits_ext; [exact Hf| |by intros []].
  intros c. unfold elem. cbn [text_elems app]. by rewrite comma_sep, app_nil_r.
Qed.

#[export] Instance value_str s : WritesValue (fun w => str_value w s) (JStr (escape s)).
Proof. apply emits_str_value. Qed.
#[export] Instance value_raw s : WritesValue (fun w => raw_value w s) (JNum s).
Proof. apply emits_raw_value. Qed.
#[export] Instance value_bool b : WritesValue (fun w => bool_value w b) (JBool b).
Proof. apply emits_bool_value. Qed.
Lemma value_u64 v : (0 <= v < 2 ^ 64)%Z -> WritesValue (fun w => u64_value w v) (JNum (dec v)).
Proof. apply emits_u64_value. Qed.

#[export] Instance member_str k v : WritesMembers (fun w => field_str w k v) (member k (JStr (escape v))).
Proof. apply (member_value k (fun w => str_value w v)), _. Qed.
#[export] Instance member_bool k b : WritesMembers (fun w => field_bool w k b) (member k (JBool b)).
Proof. apply (member_value k (fun w => bool_value w b)), _. Qed.
Lemma member_u64 k v : (0 <= v < 2 ^ 64)%Z -> WritesMembers (fun w => field_u64 w k v) (member k (JNum (dec v))).
Proof. intros Hv. apply (member_value k (fun w => u64_value w v)). by apply value_u64. Qed.

(** An object or array around members or elements. *)
Lemma value_object f ms : WritesMembers f ms ->
  WritesValue (fun w => let? w := begin_object w in let? w := f w in end_object w) (JObj [] ms).
Proof.
  intros Hf. unfold WritesValue.
  eapply emits_ext; [apply emits_seq; [apply emits_begin_object|apply emits_seq; [exact Hf|apply emits_end_object]]| |done].
  intros c. cbn beta. cbn [text app negb]. by norm_app.
Qed.
Lemma value_array f es : WritesElems f es ->
  WritesValue (fun w => let? w := begin_array w in let? w := f w in end_array w) (JArr [] es).
Proof.
  intros Hf. unfold WritesValue.
  eapply emits_ext; [apply emits_seq; [apply emits_begin_array|apply emits_seq; [exact Hf|apply emits_end_array]]| |done].
  intros c. cbn beta. cbn [text app negb]. by norm_app.
Qed.

(** The loop over the elements of a list. *)
Fixpoint for_each {A} (f : jwriter -> A -> outcome JsonError jwriter) (w : jwriter) (l : list A) : outcome JsonError jwriter :=
  match l with [] => Ok w | x :: l => let? w := f w x in for_each f w l end.

Lemma elems_for_each {A} (f : jwriter -> A -> outcome JsonError jwriter) (v : A -> jv) l :
  Forall (fun x => WritesValue (fun w => f w x) (v x)) l -> WritesElems (fun w => for_each f w l) (elems_of (map v l)).
Proof.
  induction 1 as [|x l Hx _ IH]; cbn [for_each map elems_of]; [apply elems_nil|].
  change (ECons [] (v x) [] (elems_of (map v l))) with (eapp (elem (v x)) (elems_of (map v l))).
  apply elems_seq; [by apply elem_value|exact IH].
Qed.

(** *** Well-formedness of trees built this way *)
Lemma members_ok_mapp a b : members_ok (mapp a b) = members_ok a && members_ok b.
Proof.
  induction a as [|w0 k w1 w2 v w3 a IH]; [done|]. cbn [mapp members_ok]. rewrite IH. by rewrite !andb_assoc.
Qed.
Lemma members_ok_member k v : utf8_valid k = true -> jv_ok v = true -> members_ok (member k v) = true.
Proof. intros Hk Hv. unfold member. cbn [members_ok ws_ok forallb]. by rewrite escape_ok, Hv. Qed.
Lemma members_ok_when b ms : (b = true -> members_ok ms = true) -> members_ok (when b ms) = true.
Proof. destruct b; auto. Qed.
Lemma jv_ok_str s : utf8_valid s = true -> jv_ok (JStr (escape s)) = true.
Proof. apply escape_ok. Qed.
Lemma jv_ok_obj ms : members_ok ms = true -> jv_ok (JObj [] ms) = true.
Proof. done. Qed.
Lemma jv_ok_dec v : (0 <= v)%Z -> jv_ok (JNum (dec v)) = true.
Proof.
  intros Hv. cbn [jv_ok]. apply andb_true_iff. split; [apply bool_decide_eq_true_2; by apply dec_nonempty|].
  apply forallb_forall. intros b Hb. pose proof (proj1 (List.Forall_forall _ _) (dec_digits v)) as Hd.
  unfold num_char. rewrite (Hd b Hb). apply orb_true_r.
Qed.
Lemma elems_ok_of vs : Forall (fun v => jv_ok v = true) vs -> elems_ok (elems_of vs) = true.
Proof. induction 1 as [|v vs Hv _ IH]; [done|]. cbn [elems_of elems_ok ws_ok forallb]. by rewrite Hv, IH. Qed.
Lemma elem_values_of vs : elem_values (elems_of vs) = map value_of vs.
Proof. induction vs as [|v vs IH]; [done|]. cbn. by rewrite IH. Qed.

Lemma lookup_mapp want a b : lookup_member want (mapp a b) =
  match lookup_member want a with Some v => Some v | None => lookup_member want b end.
Proof. induction a as [|w0 k w1 w2 v w3 a IH]; [done|]. cbn [mapp lookup_member]. by case_decide. Qed.

(** A value written from the start of a buffer: the text, or no room. *)
Lemma writes_from_start f v out : WritesValue f v ->
  f (jnew out) = if decide (length out < length (text v)) then Err ShortBuffer
                 else Ok (JWriter (Writer (text v ++ drop (length (text v)) out) (length (text v))) true).
Proof.
  intros Hf. rewrite (Hf (jnew out)) by (unfold writer_ok, jnew; cbn; lia). unfold jemit, jnew. cbn [jw needs_comma sep app].
  rewrite wput_eq. cbn [w_buf w_pos Nat.add]. case_decide; [done|]. cbn [obind]. by rewrite advance_start by lia.
Qed.

(** The reader's view of an array written this way. *)
Lemma reads_array vs rest fuel : Forall (fun v => jv_ok v = true) vs -> length vs < fuel ->
  collect fuel (elements (text (JArr [] (elems_of vs)) ++ rest)) = Ok (map value_of vs).
Proof.
  intros Hv Hf. pose proof (elements_text [] (elems_of vs) [] rest fuel) as H. rewrite elem_values_of, length_map in H.
  apply H; [|done|done]. cbn [jv_ok ws_ok forallb andb]. by apply elems_ok_of.
Qed.
