(* ===== verification/ControlRequest.v ===== *)
(** What the node tells the control plane: the request half of [control.rs].

    A request is described by the tree of its members; the theorems say that
    the writer emits exactly its text, and that the reader finds in it what was
    put in. *)
From S2P Require Import Prelude Decimal Utf8 Crypto Keys Buffer Json JsonTree.

Definition REGISTER_PATH : bytes := bs "/machine/register".
Definition MAP_PATH : bytes := bs "/machine/map".

Record Hostinfo := {
  hostname : bytes;
  ipn_version : bytes;
  os : bytes;
  os_version : bytes;
  machine : bytes;
  routable_ips : list bytes;
  preferred_derp : Z;
  derp_latency_ms : option Z;
  working_udp : bool;
}.

(** [Hostinfo::default] *)
Definition hostinfo_default : Hostinfo :=
  {| hostname := bs "lando"; ipn_version := bs "1.98.9"; os := bs "linux"; os_version := []; machine := bs "thumbv8m";
     routable_ips := []; preferred_derp := 0; derp_latency_ms := None; working_udp := false |}.

(** [write_region_key]: the used prefix of [out]. *)
Definition write_region_key (region : Z) (out : bytes) : outcome JsonError bytes :=
  let digits := zeros 10 in
  let? (i, digits) :=
    if decide (region = 0)%Z then let? digits := set_at digits 9 x30 in Ok (9, digits)
    else dec_loop 11 region 10 digits in
  let len := 10 - i in
  let? d := slice digits i 10 in
  let? out := copy_range out 0 len d in
  let? out := copy_range out len (len + 3) (bs "-v4") in
  slice out 0 (len + 3).

(** [write_seconds]: five characters. *)
Definition write_seconds (ms : Z) (out : bytes) : outcome JsonError bytes :=
  let whole := (ms / 1000)%Z in
  let frac := (ms mod 1000)%Z in
  let? out := set_at out 0 (zb (48 + whole mod 10)) in
  let? out := set_at out 1 x2e in
  let? out := set_at out 2 (zb (48 + frac / 100)) in
  let? out := set_at out 3 (zb (48 + (frac / 10) mod 10)) in
  let? out := set_at out 4 (zb (48 + frac mod 10)) in
  slice out 0 5.

(** The [DERPLatency] block of [Hostinfo::write]. *)
Definition write_latency (region ms : Z) (w : jwriter) : outcome JsonError jwriter :=
  let? w := key w (bs "DERPLatency") in
  let? w := begin_object w in
  let? region := write_region_key region (zeros 16) in
  let? region := ok_or (from_utf8 region) Malformed in
  let? w := key w region in
  let? rendered := write_seconds ms (zeros 12) in
  let? w := raw_value w rendered in
  end_object w.

(** The [NetInfo] block. *)
Definition write_net_info (h : Hostinfo) (w : jwriter) : outcome JsonError jwriter :=
  let? w := key w (bs "NetInfo") in
  let? w := begin_object w in
  let? w := field_bool w (bs "MappingVariesByDestIP") false in
  let? w := field_bool w (bs "WorkingIPv6") false in
  let? w := field_bool w (bs "OSHasIPv6") false in
  let? w := field_bool w (bs "WorkingUDP") (working_udp h) in
  let? w := field_bool w (bs "HavePortMap") false in
  let? w := field_bool w (bs "UPnP") false in
  let? w := field_bool w (bs "PMP") false in
  let? w := field_bool w (bs "PCP") false in
  let? w := field_u64 w (bs "PreferredDERP") (preferred_derp h) in
  let? w := match derp_latency_ms h with Some ms => write_latency (preferred_derp h) ms w | None => Ok w end in
  let? w := field_str w (bs "LinkType") (bs "wifi") in
  end_object w.

(** An array of strings under a key, as [RoutableIPs] and [Endpoints] are written. *)
Definition write_strings (k : bytes) (l : list bytes) (w : jwriter) : outcome JsonError jwriter :=
  let? w := key w k in
  let? w := begin_array w in
  let? w := for_each str_value w l in
  end_array w.

(** [Hostinfo::write] *)
Definition hostinfo_write (h : Hostinfo) (w : jwriter) : outcome JsonError jwriter :=
  let? w := begin_object w in
  let? w := field_str w (bs "IPNVersion") (ipn_version h) in
  let? w := field_str w (bs "OS") (os h) in
  let? w := if bool_decide (os_version h <> []) then field_str w (bs "OSVersion") (os_version h) else Ok w in
  let? w := field_str w (bs "Hostname") (hostname h) in
  let? w := field_str w (bs "Machine") (machine h) in
  let? w := if bool_decide (preferred_derp h <> 0%Z) then write_net_info h w else Ok w in
  let? w := if bool_decide (routable_ips h <> []) then write_strings (bs "RoutableIPs") (routable_ips h) w else Ok w in
  end_object w.

Record Register := {
  r_capability_version : Z;
  r_node_key : NodePublic;
  auth_key : option bytes;
  followup : option bytes;
  r_hostinfo : Hostinfo;
  ephemeral : bool;
}.

(** A key in its text form, through the 80-byte buffer. *)
Definition key_text {k} (p : public k) : outcome JsonError bytes :=
  let? (buf, n) := map_err (fun _ => ShortBuffer) (write p (zeros 80)) in
  let? t := slice buf 0 n in
  ok_or (from_utf8 t) Malformed.

(** The [Auth] block. *)
Definition write_auth (k : bytes) (w : jwriter) : outcome JsonError jwriter :=
  let? w := key w (bs "Auth") in
  let? w := begin_object w in
  let? w := field_str w (bs "AuthKey") k in
  end_object w.

(** [write_register_request]: the buffer and the length. *)
Definition write_register_request (out : bytes) (req : Register) : outcome JsonError (bytes * nat) :=
  let? key_str := key_text (r_node_key req) in
  let w := jnew out in
  let? w := begin_object w in
  let? w := field_u64 w (bs "Version") (r_capability_version req) in
  let? w := field_str w (bs "NodeKey") key_str in
  let? w := match auth_key req with Some k => write_auth k w | None => Ok w end in
  let? w := match followup req with Some url => field_str w (bs "Followup") url | None => Ok w end in
  let? w := key w (bs "Hostinfo") in
  let? w := hostinfo_write (r_hostinfo req) w in
  let? w := if ephemeral req then field_bool w (bs "Ephemeral") true else Ok w in
  let? w := end_object w in
  Ok (w_buf (jw w), jlen w).

Record MapRequest := {
  m_capability_version : Z;
  m_node_key : NodePublic;
  m_disco_key : DiscoPublic;
  m_hostinfo : Hostinfo;
  stream : bool;
  keep_alive : bool;
  omit_peers : bool;
  endpoints : list bytes;
  endpoint_types : list Z;
}.

Module endpoint_type.
Definition UNKNOWN : Z := 0.
Definition LOCAL : Z := 1.
Definition STUN : Z := 2.
Definition PORTMAPPED : Z := 3.
Definition STUN4_LOCAL_PORT : Z := 4.
Definition EXPLICIT_CONF : Z := 5.
End endpoint_type.

(** The [EndpointTypes] block. *)
Definition write_endpoint_types (l : list Z) (w : jwriter) : outcome JsonError jwriter :=
  let? w := key w (bs "EndpointTypes") in
  let? w := begin_array w in
  let? w := for_each u64_value w l in
  end_array w.
Definition write_endpoints (req : MapRequest) (w : jwriter) : outcome JsonError jwriter :=
  let? w := write_strings (bs "Endpoints") (endpoints req) w in
  if bool_decide (endpoint_types req <> []) then write_endpoint_types (endpoint_types req) w else Ok w.

(** [write_map_request]: the buffer and the length. *)
Definition write_map_request (out : bytes) (req : MapRequest) : outcome JsonError (bytes * nat) :=
  let? node_str := key_text (m_node_key req) in
  let? disco_str := key_text (m_disco_key req) in
  let w := jnew out in
  let? w := begin_object w in
  let? w := field_u64 w (bs "Version") (m_capability_version req) in
  let? w := field_str w (bs "Compress") [] in
  let? w := field_bool w (bs "KeepAlive") (keep_alive req) in
  let? w := field_str w (bs "NodeKey") node_str in
  let? w := field_str w (bs "DiscoKey") disco_str in
  let? w := if stream req then field_bool w (bs "Stream") true else Ok w in
  let? w := if omit_peers req then field_bool w (bs "OmitPeers") true else Ok w in
  let? w := if bool_decide (endpoints req <> []) then write_endpoints req w else Ok w in
  let? w := key w (bs "Hostinfo") in
  let? w := hostinfo_write (m_hostinfo req) w in
  let? w := end_object w in
  Ok (w_buf (jw w), jlen w).

(** ** The trees *)

Definition str (s : bytes) : jv := JStr (escape s).
Definition num (n : Z) : jv := JNum (dec n).
Definition opt {A} (o : option A) (f : A -> members) : members := match o with Some x => f x | None => MNil end.

(** [ms] milliseconds as seconds, with three decimals and one digit before
    the point. *)
Definition seconds (ms : Z) : bytes :=
  [zb (48 + (ms / 1000) mod 10); x2e; zb (48 + (ms mod 1000) / 100); zb (48 + ((ms mod 1000) / 10) mod 10); zb (48 + (ms mod 1000) mod 10)].

Definition latency_tree (region ms : Z) : members :=
  member (bs "DERPLatency") (JObj [] (member (dec region ++ bs "-v4") (JNum (seconds ms)))).

Definition net_info_tree (h : Hostinfo) : jv :=
  JObj [] (mapp (member (bs "MappingVariesByDestIP") (JBool false)) (mapp (member (bs "WorkingIPv6") (JBool false))
    (mapp (member (bs "OSHasIPv6") (JBool false)) (mapp (member (bs "WorkingUDP") (JBool (working_udp h)))
    (mapp (member (bs "HavePortMap") (JBool false)) (mapp (member (bs "UPnP") (JBool false))
    (mapp (member (bs "PMP") (JBool false)) (mapp (member (bs "PCP") (JBool false))
    (mapp (member (bs "PreferredDERP") (num (preferred_derp h)))
    (mapp (opt (derp_latency_ms h) (latency_tree (preferred_derp h))) (member (bs "LinkType") (str (bs "wifi"))))))))))))).

Definition strings_tree (l : list bytes) : jv := JArr [] (elems_of (map str l)).

Definition hostinfo_tree (h : Hostinfo) : jv :=
  JObj [] (mapp (member (bs "IPNVersion") (str (ipn_version h))) (mapp (member (bs "OS") (str (os h)))
    (mapp (when (bool_decide (os_version h <> [])) (member (bs "OSVersion") (str (os_version h))))
    (mapp (member (bs "Hostname") (str (hostname h))) (mapp (member (bs "Machine") (str (machine h)))
    (mapp (when (bool_decide (preferred_derp h <> 0%Z)) (member (bs "NetInfo") (net_info_tree h)))
          (when (bool_decide (routable_ips h <> [])) (member (bs "RoutableIPs") (strings_tree (routable_ips h)))))))))).

Definition register_tree (req : Register) : members :=
  mapp (member (bs "Version") (num (r_capability_version req))) (mapp (member (bs "NodeKey") (str (wire_form (r_node_key req))))
    (mapp (opt (auth_key req) (fun k => member (bs "Auth") (JObj [] (member (bs "AuthKey") (str k)))))
    (mapp (opt (followup req) (fun url => member (bs "Followup") (str url)))
    (mapp (member (bs "Hostinfo") (hostinfo_tree (r_hostinfo req)))
          (when (ephemeral req) (member (bs "Ephemeral") (JBool true))))))).

Definition map_tree (req : MapRequest) : members :=
  mapp (member (bs "Version") (num (m_capability_version req))) (mapp (member (bs "Compress") (str []))
    (mapp (member (bs "KeepAlive") (JBool (keep_alive req))) (mapp (member (bs "NodeKey") (str (wire_form (m_node_key req))))
    (mapp (member (bs "DiscoKey") (str (wire_form (m_disco_key req))))
    (mapp (when (stream req) (member (bs "Stream") (JBool true)))
    (mapp (when (omit_peers req) (member (bs "OmitPeers") (JBool true)))
    (mapp (when (bool_decide (endpoints req <> [])) (mapp (member (bs "Endpoints") (strings_tree (endpoints req)))
             (when (bool_decide (endpoint_types req <> [])) (member (bs "EndpointTypes") (JArr [] (elems_of (map num (endpoint_types req))))))))
          (member (bs "Hostinfo") (hostinfo_tree (m_hostinfo req)))))))))).


(** ** Proofs *)

Lemma write_region_key_spec region : (0 <= region < 2 ^ 32)%Z -> write_region_key region (zeros 16) = Ok (dec region ++ bs "-v4").
Proof.
  intros Hr. unfold write_region_key. case_decide as H0; [by subst|].
  destruct (dec_loop_zeros (E:=JsonError) 10 region 11 ltac:(lia) ltac:(lia)) as (k & Hk & Hl & ->). cbn [obind].
  rewrite dec_aux_dec in * by lia. set (d := dec region) in *.
  rewrite slice_ok by (rewrite ?length_app, ?length_take, ?length_zeros; lia). cbn [obind].
  rewrite drop_app_length' by (rewrite length_take, length_zeros; lia). rewrite (take_ge d) by lia.
  rewrite copy_range_ok by (rewrite ?length_zeros; lia). cbn [obind].
  pose proof (overwrite_app [] (zeros 16) d 0 eq_refl : overwrite (zeros 16) 0 d = d ++ _) as ->.
  rewrite copy_range_ok by (rewrite ?length_app, ?length_drop, ?length_zeros; simpl; lia). cbn [obind].
  rewrite overwrite_app by lia. rewrite app_assoc. apply (slice_app_l_exact (d ++ bs "-v4")). rewrite length_app. simpl. lia.
Qed.

Lemma write_seconds_spec ms : write_seconds ms (zeros 12) = Ok (seconds ms).
Proof. reflexivity. Qed.

Lemma hex_digit_ascii b : Forall (fun c => is_ascii c = true) (hex_digit b).
Proof. destruct b; repeat constructor. Qed.

Lemma wire_form_utf8 {k} (p : public k) : utf8_valid (wire_form p) = true.
Proof.
  apply utf8_ascii. unfold wire_form, hex. apply Forall_app. split; [destruct k; repeat constructor|].
  induction (pub_bytes p) as [|b l IH]; [constructor|]. cbn [map concat]. apply Forall_app. split; [apply hex_digit_ascii|exact IH].
Qed.

Lemma key_text_spec {k} (p : public k) : pub_ok p -> length (PREFIX k) <= 16 -> key_text p = Ok (wire_form p).
Proof.
  intros Hp Hk. pose proof (length_wire_form p Hp) as Hl. unfold KEY_LEN in *. unfold key_text. rewrite write_spec by done. unfold KEY_LEN.
  rewrite decide_False by (rewrite length_zeros; lia). cbn [map_err obind].
  pose proof (overwrite_app [] (zeros 80) (wire_form p) 0 eq_refl : overwrite (zeros 80) 0 (wire_form p) = wire_form p ++ _) as ->.
  rewrite slice_app_l_exact by lia. cbn [obind]. by rewrite from_utf8_valid by apply wire_form_utf8.
Qed.

Definition hostinfo_ok (h : Hostinfo) : Prop :=
  utf8_valid (hostname h) = true /\ utf8_valid (ipn_version h) = true /\ utf8_valid (os h) = true /\
  utf8_valid (os_version h) = true /\ utf8_valid (machine h) = true /\
  Forall (fun s => utf8_valid s = true) (routable_ips h) /\ (0 <= preferred_derp h < 2 ^ 32)%Z.

Lemma region_key_utf8 r : utf8_valid (dec r ++ bs "-v4") = true.
Proof.
  apply utf8_ascii, Forall_app. split; [|repeat constructor]. refine (List.Forall_impl _ _ (dec_digits r)).
  intros b Hb. unfold is_digit in Hb. apply bool_decide_eq_true in Hb. unfold is_ascii, in_range. apply bool_decide_eq_true. lia.
Qed.

Lemma writes_latency region ms : (0 <= region < 2 ^ 32)%Z -> WritesMembers (write_latency region ms) (latency_tree region ms).
Proof.
  intros Hr. unfold latency_tree.
  refine (members_eq _ _ _ (member_value (bs "DERPLatency") _ _ (value_object _ _ (member_value _ _ _ (value_raw (seconds ms))))) _).
  intros w. unfold write_latency. rewrite write_region_key_spec by done. cbn [obind].
  rewrite from_utf8_valid by apply region_key_utf8. cbn [ok_or obind]. bind_eq.
Qed.

Lemma writes_strings k l : WritesMembers (write_strings k l) (member k (strings_tree l)).
Proof.
  assert (WritesElems (fun w => for_each str_value w l) (elems_of (map str l))) as He.
  { apply (elems_for_each str_value str), List.Forall_forall. intros s _. apply value_str. }
  exact (member_value k _ _ (value_array _ _ He)).
Qed.

Lemma members_opt {A} (o : option A) (f : A -> jwriter -> outcome JsonError jwriter) ms :
  (forall x, WritesMembers (f x) (ms x)) -> WritesMembers (fun w => match o with Some x => f x w | None => Ok w end) (opt o ms).
Proof. intros Hf. destruct o; [apply Hf|apply members_nil]. Qed.

Lemma writes_net_info h : (0 <= preferred_derp h < 2 ^ 32)%Z -> WritesMembers (write_net_info h) (member (bs "NetInfo") (net_info_tree h)).
Proof.
  intros Hd. unfold net_info_tree.
  assert (WritesMembers (fun w => match derp_latency_ms h with Some ms => write_latency (preferred_derp h) ms w | None => Ok w end)
    (opt (derp_latency_ms h) (latency_tree (preferred_derp h)))) as Hl by (apply members_opt; intros; by apply writes_latency).
  pose proof (member_u64 (bs "PreferredDERP") (preferred_derp h) ltac:(lia)) as Hp.
  refine (members_eq _ _ _ (member_value (bs "NetInfo") _ _ (value_object _ _ _)) _).
  intros w. unfold write_net_info. bind_eq.
Qed.

Lemma writes_hostinfo h : (0 <= preferred_derp h < 2 ^ 32)%Z -> WritesValue (hostinfo_write h) (hostinfo_tree h).
Proof.
  intros Hd. unfold hostinfo_tree. pose proof (writes_net_info h Hd) as Hn. pose proof (writes_strings (bs "RoutableIPs") (routable_ips h)) as Hr.
  refine (value_eq _ _ _ (value_object _ _ _) _). intros w. unfold hostinfo_write. bind_eq.
Qed.

Lemma writes_auth k : WritesMembers (write_auth k) (member (bs "Auth") (JObj [] (member (bs "AuthKey") (str k)))).
Proof. exact (member_value (bs "Auth") _ _ (value_object _ _ (member_str (bs "AuthKey") k))). Qed.

Lemma writes_endpoints req : Forall (fun t => 0 <= t < 256)%Z (endpoint_types req) ->
  WritesMembers (write_endpoints req) (mapp (member (bs "Endpoints") (strings_tree (endpoints req)))
     (when (bool_decide (endpoint_types req <> [])) (member (bs "EndpointTypes") (JArr [] (elems_of (map num (endpoint_types req))))))).
Proof.
  intros Ht. unfold write_endpoints. apply members_seq; [apply writes_strings|]. apply members_when.
  assert (WritesElems (fun w => for_each u64_value w (endpoint_types req)) (elems_of (map num (endpoint_types req)))) as He.
  { apply (elems_for_each u64_value num). refine (List.Forall_impl _ _ Ht). intros t Hr. apply value_u64. lia. }
  exact (member_value (bs "EndpointTypes") _ _ (value_array _ _ He)).
Qed.

(** A request written from the start of the buffer. *)
Lemma request_from_start f ms out : WritesMembers f ms ->
  (let w := jnew out in let? w := begin_object w in let? w := f w in let? w := end_object w in Ok (w_buf (jw w), jlen w)) =
    let t := text (JObj [] ms) in
    if decide (length out < length t) then Err ShortBuffer else Ok (t ++ drop (length t) out, length t).
Proof.
  intros Hf. pose proof (writes_from_start _ _ out (value_object f ms Hf)) as Hw. cbn zeta in *.
  transitivity (let? w := (let? w := begin_object (jnew out) in let? w := f w in end_object w) in Ok (E:=JsonError) (w_buf (jw w), jlen w)).
  { bind_eq. }
  rewrite Hw. by case_decide.
Qed.

(** What the server's parser sees of a tree we wrote: every member, whatever
    follows in the buffer. *)
Lemma reads_tree ms rest want : members_ok ms = true -> field (text (JObj [] ms) ++ rest) want = Ok (value_of <$> lookup_member want ms).
Proof. intros Hm. apply (field_text [] ms [] rest want); [by apply jv_ok_obj|done]. Qed.

Lemma strings_ok l : Forall (fun s => utf8_valid s = true) l -> jv_ok (strings_tree l) = true.
Proof.
  intros Hl. unfold strings_tree. cbn [jv_ok ws_ok forallb andb]. apply elems_ok_of. apply Forall_map.
  refine (List.Forall_impl _ _ Hl). intros s Hs. by apply jv_ok_str.
Qed.

Lemma seconds_ok ms : (0 <= ms)%Z -> jv_ok (JNum (seconds ms)) = true.
Proof.
  intros Hm. assert (forall d, num_char (zb (48 + d mod 10)) = true) as Hd.
  { intros d. unfold num_char, is_digit. rewrite digit_bz. pose proof (Z.mod_pos_bound d 10).
    rewrite (bool_decide_eq_true_2 (48 <= _ <= 57)%Z) by lia. apply orb_true_r. }
  unfold seconds. cbn [jv_ok]. rewrite bool_decide_eq_true_2 by done. cbn [forallb andb].
  replace (ms mod 1000 / 100)%Z with ((ms mod 1000 / 100) mod 10)%Z.
  2:{ apply Z.mod_small. pose proof (Z.mod_pos_bound ms 1000). split; [apply Z.div_pos; lia|apply Z.div_lt_upper_bound; lia]. }
  by rewrite !Hd.
Qed.

Lemma str_ok s : utf8_valid s = true -> jv_ok (str s) = true.
Proof. apply jv_ok_str. Qed.

Create HintDb tree.
#[export] Hint Resolve members_ok_member members_ok_when jv_ok_obj str_ok jv_ok_dec strings_ok seconds_ok wire_form_utf8 region_key_utf8 : tree.
#[export] Hint Extern 0 (utf8_valid (bs _) = true) => reflexivity : tree.
Create Rewrite HintDb members.
#[export] Hint Rewrite members_ok_mapp andb_true_iff : members.

Lemma net_info_ok h : hostinfo_ok h -> match derp_latency_ms h with Some ms => (0 <= ms)%Z | None => True end -> jv_ok (net_info_tree h) = true.
Proof.
  intros (_ & _ & _ & _ & _ & _ & Hd) Hl. unfold net_info_tree. apply jv_ok_obj. autorewrite with members.
  split_and!; try (apply members_ok_member; [done|]; try done; apply jv_ok_dec; lia).
  destruct (derp_latency_ms h) as [ms|]; [|done]. cbn [opt]. unfold latency_tree.
  auto 6 with tree.
Qed.

Lemma hostinfo_tree_ok h : hostinfo_ok h -> match derp_latency_ms h with Some ms => (0 <= ms)%Z | None => True end -> jv_ok (hostinfo_tree h) = true.
Proof.
  intros Hh Hl. pose proof (net_info_ok h Hh Hl). destruct Hh as (? & ? & ? & ? & ? & ? & Hd).
  unfold hostinfo_tree. apply jv_ok_obj. autorewrite with members.
  split_and!; first [apply members_ok_when; intros _; apply members_ok_member|apply members_ok_member]; first [done|by apply jv_ok_str|by apply strings_ok].
Qed.

(** *** The requests *)

(** What the Rust types guarantee of the arguments: strings are UTF-8, keys are
    32 bytes, and the integers have their width. *)
Definition latency_ok (h : Hostinfo) : Prop := match derp_latency_ms h with Some ms => (0 <= ms < 2 ^ 32)%Z | None => True end.
Definition opt_utf8 (o : option bytes) : Prop := match o with Some s => utf8_valid s = true | None => True end.
Definition register_ok (req : Register) : Prop :=
  (0 <= r_capability_version req < 2 ^ 16)%Z /\ pub_ok (r_node_key req) /\ opt_utf8 (auth_key req) /\ opt_utf8 (followup req) /\
  hostinfo_ok (r_hostinfo req) /\ latency_ok (r_hostinfo req).
Definition map_ok (req : MapRequest) : Prop :=
  (0 <= m_capability_version req < 2 ^ 16)%Z /\ pub_ok (m_node_key req) /\ pub_ok (m_disco_key req) /\
  hostinfo_ok (m_hostinfo req) /\ latency_ok (m_hostinfo req) /\
  Forall (fun s => utf8_valid s = true) (endpoints req) /\ Forall (fun t => 0 <= t < 256)%Z (endpoint_types req).

Lemma register_tree_ok req : register_ok req -> members_ok (register_tree req) = true.
Proof.
  intros (Hv & Hk & Ha & Hf & Hh & Hl). unfold register_tree. autorewrite with members.
  split_and!; try (apply members_ok_member; [done|]).
  - apply jv_ok_dec. lia.
  - apply jv_ok_str, wire_form_utf8.
  - destruct (auth_key req); [|done]. cbn [opt opt_utf8] in *. auto 6 with tree.
  - destruct (followup req); [|done]. cbn [opt opt_utf8] in *. auto 6 with tree.
  - apply hostinfo_tree_ok; [done|]. unfold latency_ok in Hl. destruct (derp_latency_ms _); [lia|done].
  - auto with tree.
Qed.

Lemma writes_register req : register_ok req ->
  (forall out, write_register_request out req =
    let t := text (JObj [] (register_tree req)) in
    if decide (length out < length t) then Err ShortBuffer else Ok (t ++ drop (length t) out, length t)).
Proof.
  intros (Hv & Hk & Ha & Hf & (_ & _ & _ & _ & _ & _ & Hd) & Hl) out. unfold write_register_request.
  rewrite key_text_spec by (done || (simpl; lia)). cbn [obind].
  pose proof (writes_hostinfo (r_hostinfo req) Hd) as Hh. pose proof (member_u64 (bs "Version") (r_capability_version req) ltac:(lia)) as Hver.
  assert (WritesMembers (fun w => match auth_key req with Some k => write_auth k w | None => Ok w end)
    (opt (auth_key req) (fun k => member (bs "Auth") (JObj [] (member (bs "AuthKey") (str k)))))) as Hau by (apply members_opt, writes_auth).
  assert (WritesMembers (fun w => match followup req with Some url => field_str w (bs "Followup") url | None => Ok w end)
    (opt (followup req) (fun url => member (bs "Followup") (str url)))) as Hfo by (apply (members_opt _ (fun url w => field_str w (bs "Followup") url)); intros; apply _).
  rewrite <- (request_from_start (fun w =>
    let? w := field_u64 w (bs "Version") (r_capability_version req) in
    let? w := field_str w (bs "NodeKey") (wire_form (r_node_key req)) in
    let? w := match auth_key req with Some k => write_auth k w | None => Ok w end in
    let? w := match followup req with Some url => field_str w (bs "Followup") url | None => Ok w end in
    let? w := (let? w := key w (bs "Hostinfo") in hostinfo_write (r_hostinfo req) w) in
    if ephemeral req then field_bool w (bs "Ephemeral") true else Ok w)) by apply _.
  cbn zeta. bind_eq.
Qed.

Lemma escape_plain s : Forall (fun b => escape_char b = [b]) s -> escape s = s.
Proof. induction 1 as [|b s Hb _ IH]; [done|]. change (escape (b :: s)) with (escape_char b ++ escape s). by rewrite Hb, IH. Qed.

Lemma escape_wire_form {k} (p : public k) : escape (wire_form p) = wire_form p.
Proof.
  apply escape_plain. unfold wire_form, hex. apply Forall_app. split; [destruct k; repeat constructor|].
  induction (pub_bytes p) as [|b l IH]; [constructor|]. cbn [map concat]. apply Forall_app. split; [destruct b; repeat constructor|exact IH].
Qed.

Lemma parse_wire_form {k} (p : public k) : pub_ok p -> parse (k:=k) (wire_form p) = Ok p.
Proof. intros Hp. unfold parse, wire_form. rewrite strip_prefix_app. cbn [ok_or obind]. by apply parse_hex_hex. Qed.

Lemma map_tree_ok req : map_ok req -> members_ok (map_tree req) = true.
Proof.
  intros (Hv & Hk & Hk' & Hh & Hl & He & Ht). unfold map_tree. autorewrite with members.
  assert (jv_ok (hostinfo_tree (m_hostinfo req)) = true).
  { apply hostinfo_tree_ok; [done|]. unfold latency_ok in Hl. destruct (derp_latency_ms _); [lia|done]. }
  assert (jv_ok (num (m_capability_version req)) = true) by (apply jv_ok_dec; lia).
  split_and!; auto with tree.
  apply members_ok_when. intros _. autorewrite with members. split; [by auto with tree|].
  apply members_ok_when. intros _. apply members_ok_member; [done|]. cbn [jv_ok ws_ok forallb andb]. apply elems_ok_of, Forall_map.
  refine (List.Forall_impl _ _ Ht). intros t Hr. apply jv_ok_dec. lia.
Qed.

Lemma writes_map req : map_ok req ->
  (forall out, write_map_request out req =
    let t := text (JObj [] (map_tree req)) in
    if decide (length out < length t) then Err ShortBuffer else Ok (t ++ drop (length t) out, length t)).
Proof.
  intros (Hv & Hk & Hk' & (_ & _ & _ & _ & _ & _ & Hd) & Hl & He & Ht) out. unfold write_map_request.
  rewrite !key_text_spec by (done || (simpl; lia)). cbn [obind].
  pose proof (writes_hostinfo (m_hostinfo req) Hd) as Hh. pose proof (member_u64 (bs "Version") (m_capability_version req) ltac:(lia)) as Hver.
  pose proof (writes_endpoints req Ht) as Hep.
  rewrite <- (request_from_start (fun w =>
    let? w := field_u64 w (bs "Version") (m_capability_version req) in
    let? w := field_str w (bs "Compress") [] in
    let? w := field_bool w (bs "KeepAlive") (keep_alive req) in
    let? w := field_str w (bs "NodeKey") (wire_form (m_node_key req)) in
    let? w := field_str w (bs "DiscoKey") (wire_form (m_disco_key req)) in
    let? w := if stream req then field_bool w (bs "Stream") true else Ok w in
    let? w := if omit_peers req then field_bool w (bs "OmitPeers") true else Ok w in
    let? w := if bool_decide (endpoints req <> []) then write_endpoints req w else Ok w in
    let? w := key w (bs "Hostinfo") in hostinfo_write (m_hostinfo req) w)) by apply _.
  cbn zeta. bind_eq.
Qed.

(** Registration says what it means to: for all arguments, and provided the
    buffer has room, the request written is the JSON text of [register_tree]
    and nothing else, otherwise the writer reports the short buffer; every
    member is found again by a JSON reader, whatever the strings contain, and
    the node key it carries parses back to ours. *)
Theorem register_request_read (req : Register) (out : bytes) :
  register_ok req ->
  let t := text (JObj [] (register_tree req)) in
  write_register_request out req =
    (if decide (length out < length t) then Err ShortBuffer else Ok (t ++ drop (length t) out, length t)) /\
  (forall rest want, field (t ++ rest) want = Ok (value_of <$> lookup_member want (register_tree req))) /\
  (forall rest, exists s, field (t ++ rest) (bs "NodeKey") = Ok (Some (VStr s)) /\ parse s = Ok (r_node_key req)).
Proof.
  intros Hr t. assert (forall rest want, field (t ++ rest) want = Ok (value_of <$> lookup_member want (register_tree req))) as Hf.
  { intros rest want. by apply reads_tree, register_tree_ok. }
  split_and!; [by apply writes_register|done|]. intros rest. exists (wire_form (r_node_key req)).
  rewrite Hf. unfold register_tree. rewrite lookup_mapp. cbn [lookup_member member]. rewrite decide_False by done.
  rewrite lookup_mapp. cbn [lookup_member member]. rewrite decide_True by done. split.
  - unfold str. by rewrite escape_wire_form.
  - by apply parse_wire_form, Hr.
Qed.

(** The same of the netmap request: its text is that of [map_tree], read
    back member by member, and the endpoints and their types stand at the same
    positions of their two arrays. *)
Theorem map_request_read (req : MapRequest) (out : bytes) :
  map_ok req ->
  let t := text (JObj [] (map_tree req)) in
  write_map_request out req =
    (if decide (length out < length t) then Err ShortBuffer else Ok (t ++ drop (length t) out, length t)) /\
  (forall rest want, field (t ++ rest) want = Ok (value_of <$> lookup_member want (map_tree req))) /\
  (endpoints req <> [] -> exists e, lookup_member (bs "Endpoints") (map_tree req) = Some e /\
     forall rest fuel, length (endpoints req) < fuel ->
       collect fuel (elements (text e ++ rest)) = Ok (map (fun s => VStr (escape s)) (endpoints req))) /\
  (endpoints req <> [] -> endpoint_types req <> [] -> exists e, lookup_member (bs "EndpointTypes") (map_tree req) = Some e /\
     forall rest fuel, length (endpoint_types req) < fuel ->
       collect fuel (elements (text e ++ rest)) = Ok (map (fun t => VNumber (dec t)) (endpoint_types req))).
Proof.
  intros Hr t. split_and!; [by apply writes_map|intros rest want; by apply reads_tree, map_tree_ok| |].
  - intros He. exists (strings_tree (endpoints req)). split.
    + unfold map_tree, when. rewrite (bool_decide_eq_true_2 _ He). destruct (stream req), (omit_peers req); reflexivity.
    + intros rest fuel Hf. destruct Hr as (_ & _ & _ & _ & _ & Hs & _).
      unfold strings_tree. rewrite reads_array; [by rewrite map_map| |by rewrite length_map].
      apply Forall_map. refine (List.Forall_impl _ _ Hs). apply str_ok.
  - intros He Ht. exists (JArr [] (elems_of (map num (endpoint_types req)))). split.
    + unfold map_tree, when. rewrite (bool_decide_eq_true_2 _ He), (bool_decide_eq_true_2 _ Ht). destruct (stream req), (omit_peers req); reflexivity.
    + intros rest fuel Hf. destruct Hr as (_ & _ & _ & _ & _ & _ & Hs).
      rewrite reads_array; [by rewrite map_map| |by rewrite length_map].
      apply Forall_map. refine (List.Forall_impl _ _ Hs). intros x Hx. apply jv_ok_dec. lia.
Qed.

(** The latency is rendered to the millisecond with one digit for the whole
    seconds: what is reported is the latency modulo ten seconds, hence exact
    below that bound and wrong above it. *)
Theorem latency_rendered ms :
  (0 <= ms)%Z -> exists d0 d1 d2 d3, write_seconds ms (zeros 12) = Ok [d0; x2e; d1; d2; d3] /\
    dec_value [d0; d1; d2; d3] = (ms mod 10000)%Z /\ Forall (fun d => is_digit d = true) [d0; d1; d2; d3].
Proof.
  intros Hm. rewrite write_seconds_spec. unfold seconds. eexists _, _, _, _. split; [reflexivity|].
  assert (0 <= ms mod 1000 / 100 < 10)%Z as Hd.
  { pose proof (Z.mod_pos_bound ms 1000). split; [apply Z.div_pos; lia|apply Z.div_lt_upper_bound; lia]. }
  assert (bz (zb (48 + ms mod 1000 / 100)) = 48 + ms mod 1000 / 100)%Z as Hb by (apply bz_zb_small; lia). split.
  - unfold dec_value. cbn [fold_left]. rewrite !digit_bz, Hb. clear Hb Hd. Z.to_euclidean_division_equations. lia.
  - repeat constructor; unfold is_digit; rewrite ?digit_bz, ?Hb; apply bool_decide_eq_true;
      try (match goal with |- context [(?x mod 10)%Z] => pose proof (Z.mod_pos_bound x 10) end); lia.
Qed.

(** *** Examples *)
Definition example_hostinfo : Hostinfo :=
  {| hostname := bs "pico"; ipn_version := bs "1.98.9"; os := bs "linux"; os_version := []; machine := bs "thumbv8m";
     routable_ips := [bs "192.168.1.0/24"]; preferred_derp := 4; derp_latency_ms := Some 55%Z; working_udp := true |}.
Definition example_register : Register :=
  {| r_capability_version := 133; r_node_key := Public (replicate 32 xab); auth_key := Some (bs "tskey-auth-1"); followup := None;
     r_hostinfo := example_hostinfo; ephemeral := false |}.
Definition example_map_request : MapRequest :=
  {| m_capability_version := 133; m_node_key := Public (replicate 32 xab); m_disco_key := Public (replicate 32 xcd);
     m_hostinfo := example_hostinfo; stream := false; keep_alive := true; omit_peers := true;
     endpoints := [bs "10.0.0.2:41641"]; endpoint_types := [endpoint_type.LOCAL] |}.

Lemma example_hostinfo_ok : hostinfo_ok example_hostinfo /\ latency_ok example_hostinfo.
Proof. split; [split_and!; try reflexivity; cbn; try lia; repeat constructor|cbn; lia]. Qed.

Lemma register_request_read_witness :
  let t := text (JObj [] (register_tree example_register)) in
  write_register_request (zeros 64) example_register =
    (if decide (length (zeros 64) < length t) then Err ShortBuffer else Ok (t ++ drop (length t) (zeros 64), length t)) /\
  (forall rest want, field (t ++ rest) want = Ok (value_of <$> lookup_member want (register_tree example_register))) /\
  (forall rest, exists s, field (t ++ rest) (bs "NodeKey") = Ok (Some (VStr s)) /\ parse s = Ok (r_node_key example_register)).
Proof.
  apply (register_request_read example_register (zeros 64)). pose proof example_hostinfo_ok as [? ?].
  split_and!; try done; cbn; lia.
Defined.

Lemma map_request_read_witness :
  exists e, lookup_member (bs "Endpoints") (map_tree example_map_request) = Some e /\
     forall rest fuel, 1 < fuel -> collect fuel (elements (text e ++ rest)) = Ok [VStr (escape (bs "10.0.0.2:41641"))].
Proof.
  apply (map_request_read example_map_request (zeros 2000)); [|done]. pose proof example_hostinfo_ok as [? ?].
  split_and!; try done; try (cbn; lia).
  - by apply Forall_singleton.
  - apply Forall_singleton. unfold endpoint_type.LOCAL. lia.
Defined.

Lemma latency_rendered_witness : exists d0 d1 d2 d3, write_seconds 12345 (zeros 12) = Ok [d0; x2e; d1; d2; d3] /\
    dec_value [d0; d1; d2; d3] = (12345 mod 10000)%Z /\ Forall (fun d => is_digit d = true) [d0; d1; d2; d3].
Proof. apply (latency_rendered 12345). lia. Defined.
