(* ===== verification/Disco.v ===== *)
(** Endpoint discovery: [disco.rs].

    [sealed_packet] is what any disco sender puts on the wire: the magic, its
    key, a nonce, then the NaCl box with its tag in front. *)
From S2P Require Import Prelude Crypto Keys.

Definition MAGIC : bytes := [x54; x53; xf0; x9f; x92; xac].
Definition NONCE_LEN : nat := 24.
Definition TAG_LEN : nat := 16.
Definition HEADER_LEN : nat := length MAGIC + KEY_LEN + NONCE_LEN.
Definition TYPE_PING : byte := x01.
Definition TYPE_PONG : byte := x02.
Definition TYPE_CALL_ME_MAYBE : byte := x03.
Definition V0 : byte := x00.
Definition PONG_BODY : nat := 12 + 16 + 2.

Inductive DiscoError := NotDisco | Crypto | Malformed | ShortBuffer.

Record Header := { sender : DiscoPublic; nonce : bytes }.
Record Ping := { tx_id : bytes; node_key : option NodePublic }.

(** [parse_header]: the header and the sealed remainder. *)
Definition parse_header (packet : bytes) : outcome DiscoError (Header * bytes) :=
  if decide (length packet < HEADER_LEN) then Err NotDisco
  else
    let? magic := slice packet 0 (length MAGIC) in
    if decide (magic <> MAGIC) then Err NotDisco
    else
      let? sender := slice packet (length MAGIC) (length MAGIC + KEY_LEN) in
      let? nonce := slice packet (length MAGIC + KEY_LEN) HEADER_LEN in
      let? rest := slice packet HEADER_LEN (length packet) in
      Ok ({| sender := Public sender; nonce := nonce |}, rest).

Section Disco.
Context `{P : Primitives}.

(** [open]: the buffer [out] afterwards and the plaintext at its start. *)
Definition open (our_disco_secret : bytes) (header : Header) (sealed out : bytes) : outcome DiscoError (bytes * bytes) :=
  if decide (length sealed < TAG_LEN) then Err Malformed
  else
    let body := length sealed - TAG_LEN in
    if decide (length out < body) then Err ShortBuffer
    else
      let? tag := slice sealed 0 TAG_LEN in
      let? ciphertext := slice sealed TAG_LEN (length sealed) in
      let? out := copy_range out 0 body ciphertext in
      let? ct := slice out 0 body in
      let? p := ok_or (box_decrypt (pub_bytes (sender header)) our_disco_secret (nonce header) ct tag) Crypto in
      let? out := copy_range out 0 body p in
      let? p := slice out 0 body in
      Ok (out, p).

Definition parse_ping (plaintext : bytes) : outcome DiscoError Ping :=
  if decide (length plaintext < 2 + 12) then Err Malformed
  else
    let? t := index plaintext 0 in
    if decide (t <> TYPE_PING) then Err Malformed
    else
      let? body := slice plaintext 2 (length plaintext) in
      let? tx_id := slice body 0 12 in
      let? node_key :=
        if decide (12 + KEY_LEN <= length body)
        then let? k := slice body 12 (12 + KEY_LEN) in Ok (Some (Public k : NodePublic))
        else Ok None in
      Ok {| tx_id := tx_id; node_key := node_key |}.

(** [write_pong]: the buffer and the packet length. *)
Definition write_pong (our_disco_secret : bytes) (our_disco_public peer : DiscoPublic) (nonce tx_id src_ip : bytes)
    (src_port : Z) (out : bytes) : outcome DiscoError (bytes * nat) :=
  let total := HEADER_LEN + TAG_LEN + 2 + PONG_BODY in
  if decide (length out < total) then Err ShortBuffer
  else
    let? out := copy_range out 0 (length MAGIC) MAGIC in
    let? out := copy_range out (length MAGIC) (length MAGIC + KEY_LEN) (pub_bytes our_disco_public) in
    let? out := copy_range out (length MAGIC + KEY_LEN) HEADER_LEN nonce in
    let body_at := HEADER_LEN + TAG_LEN in
    let? out := set_at out body_at TYPE_PONG in
    let? out := set_at out (body_at + 1) V0 in
    let p := body_at + 2 in
    let? out := copy_range out p (p + 12) tx_id in
    let? out := copy_range out (p + 12) (p + 24) (zeros 10 ++ [xff; xff]) in
    let? out := copy_range out (p + 24) (p + 28) src_ip in
    let? out := copy_range out (p + 28) (p + 30) (to_be 2 src_port) in
    let? body := slice out body_at total in
    let? (ct, tag) := ok_or (box_encrypt (pub_bytes peer) our_disco_secret nonce body) Crypto in
    let? out := copy_range out body_at total ct in
    let? out := copy_range out HEADER_LEN (HEADER_LEN + TAG_LEN) tag in
    Ok (out, total).

(** ** What disco senders put on the wire *)

Definition sealed_packet (from : DiscoPrivate) (to : DiscoPublic) (nonce p : bytes) : option bytes :=
  '(ct, tag) ← box_encrypt (pub_bytes to) (priv_bytes from) nonce p;
  Some (MAGIC ++ pub_bytes (public_of from) ++ nonce ++ tag ++ ct).
End Disco.

Definition ping_body (tx_id : bytes) (node_key : option NodePublic) (trailing : bytes) : bytes :=
  [TYPE_PING; V0] ++ tx_id ++ match node_key with Some k => pub_bytes k ++ trailing | None => [] end.
Definition pong_body (tx_id src_ip : bytes) (src_port : Z) : bytes :=
  [TYPE_PONG; V0] ++ tx_id ++ zeros 10 ++ [xff; xff] ++ src_ip ++ to_be 2 src_port.

(** ** Proofs *)
Section DiscoProofs.
Context `{P : Primitives, L : !PrimitiveLaws P}.

Lemma sealed_packet_ok (a : DiscoPrivate) (b : DiscoPublic) n p :
  priv_ok a -> pub_ok b -> length n = 24 -> (Z.of_nat (length p) < 2 ^ 32)%Z ->
  exists ct tag, box_encrypt (pub_bytes b) (priv_bytes a) n p = Some (ct, tag) /\ length ct = length p /\ length tag = 16 /\
    sealed_packet a b n p = Some (MAGIC ++ pub_bytes (public_of a) ++ n ++ tag ++ ct).
Proof.
  intros Ha Hb Hn Hp. destruct (box_encrypt_ok (pub_bytes b) (priv_bytes a) n p) as (ct & tag & E & Hc & Ht); try done.
  exists ct, tag. split_and!; try done. unfold sealed_packet. by rewrite E.
Qed.

(** The receiver's half: header, then the box. *)
Lemma disco_open_sealed (a b : DiscoPrivate) n p pkt out :
  priv_ok a -> priv_ok b -> length n = 24 -> length p <= length out -> (Z.of_nat (length p) < 2 ^ 32)%Z ->
  sealed_packet a (public_of b) n p = Some pkt ->
  exists sealed, parse_header pkt = Ok ({| sender := public_of a; nonce := n |}, sealed) /\
    open (priv_bytes b) {| sender := public_of a; nonce := n |} sealed out = Ok (overwrite out 0 p, p).
Proof.
  intros Ha Hb Hn Ho Hp Hs.
  destruct (sealed_packet_ok a (public_of b) n p Ha (public_of_ok b Hb) Hn Hp) as (ct & tag & E & Hc & Ht & Hs').
  rewrite Hs' in Hs. assert (pkt = MAGIC ++ pub_bytes (public_of a) ++ n ++ tag ++ ct) as -> by congruence. clear Hs Hs'.
  set (pa := pub_bytes (public_of a)). assert (length pa = 32) as Hpa by (apply public_of_ok; done).
  exists (tag ++ ct). split.
  - unfold parse_header. change HEADER_LEN with 62. change (length MAGIC) with 6. unfold KEY_LEN.
    rewrite decide_False by (rewrite !length_app; change (length MAGIC) with 6; lia).
    rewrite (slice_app_l_exact MAGIC) by done. cbn [obind]. rewrite decide_False by auto.
    rewrite (slice_seg MAGIC pa) by (done || (simpl; lia)). cbn [obind].
    rewrite (app_assoc MAGIC). rewrite (slice_seg (MAGIC ++ pa) n) by (rewrite length_app; simpl; lia). cbn [obind].
    rewrite (app_assoc (MAGIC ++ pa)).
    assert (length ((MAGIC ++ pa) ++ n) = 62) as Hh by (rewrite !length_app; simpl; lia).
    rewrite <- Hh at 1. rewrite slice_from by (rewrite (length_app _ (tag ++ ct)); lia). rewrite drop_app_length. done.
  - unfold open, TAG_LEN. rewrite !decide_False by len. 
    rewrite (slice_app_l_exact tag) by done. cbn [obind].
    rewrite slice_from by len. rewrite drop_app_length' by done. cbn [obind].
    replace (length (tag ++ ct) - 16) with (length ct) by len.
    rewrite copy_range_ok by lia. cbn [obind].
    pose proof (overwrite_app [] out ct 0 eq_refl : overwrite out 0 ct = ct ++ _) as ->.
    rewrite (slice_app_l_exact ct) by done. cbn [obind sender nonce].
    assert (box_decrypt (pub_bytes (public_of a)) (priv_bytes b) n ct tag = Some p) as ->.
    { by apply (box_decrypt_encrypt (priv_bytes a) (priv_bytes b) n p ct tag Ha Hb). }
    cbn [ok_or obind]. rewrite copy_range_app_l by lia. cbn [obind].
    pose proof (overwrite_app [] ct p 0 eq_refl : overwrite ct 0 p = p ++ _) as ->.
    rewrite (drop_ge ct) by lia. rewrite app_nil_r, (slice_app_l_exact p) by lia. cbn [obind]. do 2 f_equal.
    pose proof (overwrite_app [] out p 0 eq_refl : overwrite out 0 p = p ++ _) as ->. by rewrite Hc.
Qed.

(** A disco ping reaches us whole: the packet a peer seals for our key is
    recognised, opened and read as a ping with the same transaction and node
    key, whatever a newer sender appends. *)
Theorem disco_ping_received (a b : DiscoPrivate) n tx nk trailing out pkt :
  priv_ok a -> priv_ok b -> length n = 24 -> length tx = 12 -> (forall k, nk = Some k -> pub_ok k) ->
  length (ping_body tx nk trailing) <= length out -> (Z.of_nat (length (ping_body tx nk trailing)) < 2 ^ 32)%Z ->
  sealed_packet a (public_of b) n (ping_body tx nk trailing) = Some pkt ->
  exists h sealed out' p, parse_header pkt = Ok (h, sealed) /\ sender h = public_of a /\
    open (priv_bytes b) h sealed out = Ok (out', p) /\
    parse_ping p = Ok {| tx_id := tx; node_key := nk |}.
Proof.
  intros Ha Hb Hn Htx Hnk Ho Hz Hs.
  destruct (disco_open_sealed a b n _ pkt out Ha Hb Hn Ho Hz Hs) as (sealed & Hh & Hop).
  eexists _, _, _, _. split; [exact Hh|]. split; [done|]. split; [exact Hop|].
  unfold parse_ping, ping_body, KEY_LEN. rewrite decide_False by (rewrite !length_app; simpl; lia).
  rewrite (index_ok _ 0 TYPE_PING) by done. cbn [obind]. rewrite decide_False by auto.
  set (rest := match nk with Some k => _ | None => _ end).
  rewrite slice_from by (rewrite length_app; simpl; lia). rewrite drop_app_length' by done. cbn [obind].
  rewrite (slice_app_l_exact tx) by done. cbn [obind]. rewrite length_app, Htx. unfold rest.
  destruct nk as [k|].
  - specialize (Hnk k eq_refl). unfold pub_ok, KEY_LEN in Hnk. rewrite decide_True by (rewrite length_app; lia).
    rewrite (slice_seg tx (pub_bytes k)) by lia. cbn [obind]. by destruct k.
  - rewrite decide_False by (simpl; lia). done.
Qed.

(** The pong for any peer key: the packet sealed for it. *)
Lemma write_pong_sealed (a : DiscoPrivate) (b : DiscoPublic) n tx ip port out :
  priv_ok a -> pub_ok b -> length n = 24 -> length tx = 12 -> length ip = 4 -> 110 <= length out ->
  exists pkt, write_pong (priv_bytes a) (public_of a) b n tx ip port out = Ok (pkt ++ drop 110 out, 110) /\
    length pkt = 110 /\ sealed_packet a b n (pong_body tx ip port) = Some pkt.
Proof.
  intros Ha Hb Hn Htx Hip Ho.
  assert (length (pong_body tx ip port) = 32) as Hpl by (unfold pong_body; len).
  destruct (sealed_packet_ok a b n (pong_body tx ip port) Ha Hb Hn) as (ct & tag & E & Hc & Ht & Hs); [lia|].
  exists (MAGIC ++ pub_bytes (public_of a) ++ n ++ tag ++ ct).
  set (pa := pub_bytes (public_of a)) in *. assert (length pa = 32) as Hpa by (apply public_of_ok; done).
  split; [|split; [rewrite !length_app; simpl; lia|done]].
  unfold write_pong. change HEADER_LEN with 62. unfold TAG_LEN, PONG_BODY, KEY_LEN. change (length MAGIC) with 6. cbn [Nat.add].
  rewrite decide_False by lia.
  destruct (segments [6; 32; 24; 16; 1; 1; 12; 12; 4; 2] out) as (ss & Hss & Hm); [simpl; lia|].
  change (sum_list [6; 32; 24; 16; 1; 1; 12; 12; 4; 2]) with 110 in Hss. set (r := drop 110 out) in *.
  rewrite Hss at 1. clear Hss.
  destruct ss as [|s0 [|s1 [|s2 [|s3 [|s4 [|s5 [|s6 [|s7 [|s8 [|s9 [|]]]]]]]]]]]; try done.
  injection Hm as H0 H1 H2 H3 H4 H5 H6 H7 H8 H9.
  destruct s4 as [|x4 [|]]; try done. destruct s5 as [|x5 [|]]; try done. cbn [app].
  fold pa. copy_step 0 s0. copy_step 1 s1. copy_step 2 s2. set_step 4 x4. set_step 5 x5.
  copy_step 6 s6. copy_step 7 s7. copy_step 8 s8. copy_step 9 s9.
  assert (concat [MAGIC; pa; n; s3; [TYPE_PONG]; [V0]; tx; zeros 10 ++ [xff; xff]; ip; to_be 2 port; r]
    = concat [MAGIC ++ pa ++ n; s3; pong_body tx ip port; r]) as ->.
  { unfold pong_body. cbn [concat]. rewrite app_nil_r. by norm_app. }
  rewrite (slice_nth _ 2 (pong_body tx ip port)) by (done || (cbn [take concat]; len)). cbn [obind].
  rewrite E. cbn [ok_or obind].
  copy_step 2 (pong_body tx ip port).
  copy_step 1 s3. cbn [concat].
  rewrite app_nil_r. by norm_app.
Qed.

(** The pong we answer with is one the peer can read, and only it: without
    room there is none; given room, [write_pong] writes exactly the packet our
    key seals for the peer's, and the peer opens it to a pong that echoes its
    transaction and carries the address and port the ping came from. *)
Theorem disco_pong_delivered (a b : DiscoPrivate) n tx ip port out peer_out :
  priv_ok a -> priv_ok b -> length n = 24 -> length tx = 12 -> length ip = 4 -> 32 <= length peer_out ->
  if decide (length out < 110) then write_pong (priv_bytes a) (public_of a) (public_of b) n tx ip port out = Err ShortBuffer
  else exists pkt sealed, 
    write_pong (priv_bytes a) (public_of a) (public_of b) n tx ip port out = Ok (pkt ++ drop 110 out, 110) /\
    length pkt = 110 /\ sealed_packet a (public_of b) n (pong_body tx ip port) = Some pkt /\
    parse_header pkt = Ok ({| sender := public_of a; nonce := n |}, sealed) /\
    open (priv_bytes b) {| sender := public_of a; nonce := n |} sealed peer_out
    = Ok (overwrite peer_out 0 (pong_body tx ip port), pong_body tx ip port).
Proof.
  intros Ha Hb Hn Htx Hip Hpo. case_decide as Ho; [unfold write_pong; by rewrite decide_True|].
  assert (length (pong_body tx ip port) = 32) as Hpl by (unfold pong_body; len).
  destruct (write_pong_sealed a (public_of b) n tx ip port out) as (pkt & Hw & Hl & Hs); try done; [by apply public_of_ok|lia|].
  destruct (disco_open_sealed a b n (pong_body tx ip port) _ peer_out Ha Hb Hn ltac:(lia) ltac:(lia) Hs) as (sealed & Hh & Hop).
  exists pkt, sealed. by split_and!.
Qed.

Lemma disco_header_total packet :
  (exists h rest, parse_header packet = Ok (h, rest) /\ packet = MAGIC ++ pub_bytes (sender h) ++ nonce h ++ rest /\
      pub_ok (sender h) /\ length (nonce h) = 24) \/ parse_header packet = Err NotDisco.
Proof.
  unfold parse_header. change HEADER_LEN with 62. change (length MAGIC) with 6. unfold KEY_LEN. cbn [Nat.add].
  case_decide; [by right|]. rewrite slice_to by lia. cbn [obind]. case_decide as Hm; [by right|].
  rewrite !slice_ok by lia. cbn [obind Nat.sub]. left. eexists _, _. split; [reflexivity|]. cbn [sender nonce pub_bytes].
  unfold pub_ok, KEY_LEN. cbn [pub_bytes]. rewrite (take_ge (drop 62 packet)) by (rewrite length_drop; lia).
  split_and!; [|rewrite length_take, length_drop; lia..].
  rewrite <- (take_drop 6 packet) at 1. rewrite Hm. f_equal.
  rewrite <- (take_drop 32 (drop 6 packet)) at 1. f_equal. rewrite drop_drop. cbn [Nat.add].
  rewrite <- (take_drop 24 (drop 38 packet)) at 1. f_equal. by rewrite drop_drop.
Qed.

(** A packet without the magic is not disco. *)
Lemma disco_header_other packet : starts_with packet MAGIC = false -> parse_header packet = Err NotDisco.
Proof.
  intros Hm. unfold parse_header. case_decide as Hl; [done|]. change HEADER_LEN with 62 in *.
  rewrite slice_to by (change (length MAGIC) with 6; lia). cbn [obind]. rewrite decide_True; [done|].
  unfold starts_with in Hm. by apply bool_decide_eq_false in Hm.
Qed.

Lemma disco_open_total secret h sealed out :
  (exists o q, open secret h sealed out = Ok (o, q) /\ length q + 16 = length sealed /\ length o = length out) \/
  exists e, open secret h sealed out = Err e.
Proof.
  unfold open, TAG_LEN. case_decide; [by right; eexists|]. case_decide; [by right; eexists|].
  rewrite slice_to, slice_from by lia. cbn [obind]. rewrite copy_range_ok by (rewrite ?length_drop; lia). cbn [obind].
  rewrite slice_to by (rewrite length_overwrite; rewrite ?length_drop; lia). cbn [obind].
  destruct (box_decrypt _ _ _ _ _) as [q|] eqn:E; cbn [ok_or obind]; [|by right; eexists].
  apply box_decrypt_length in E. rewrite length_take, length_overwrite in E by (rewrite length_drop; lia).
  rewrite copy_range_ok by (rewrite ?length_overwrite; rewrite ?length_drop; lia). cbn [obind].
  rewrite slice_to by (rewrite !length_overwrite; rewrite ?length_overwrite; rewrite ?length_drop; lia).
  left. eexists _, _. split; [reflexivity|]. 
  rewrite length_take, !length_overwrite; rewrite ?length_overwrite; rewrite ?length_drop; lia.
Qed.

Lemma disco_ping_total p : (exists g, parse_ping p = Ok g /\ length (tx_id g) = 12) \/ parse_ping p = Err Malformed.
Proof.
  unfold parse_ping, KEY_LEN. case_decide; [by right|].
  destruct (lookup_lt_is_Some_2 p 0 ltac:(lia)) as [t H0]. rewrite (index_ok _ _ _ H0). cbn [obind].
  case_decide; [by right|]. rewrite slice_from by lia. cbn [obind]. rewrite slice_to by (rewrite length_drop; lia). cbn [obind].
  left. case_decide.
  - rewrite slice_ok by (rewrite ?length_drop in *; lia). eexists. split; [reflexivity|]. cbn. rewrite length_take, length_drop. lia.
  - eexists. split; [reflexivity|]. cbn. rewrite length_take, length_drop. lia.
Qed.

(** Every UDP datagram can be passed through: the three readers never panic,
    and a datagram without the magic is left to WireGuard. *)
Theorem disco_input_total secret h packet sealed out p :
  ((exists h' rest, parse_header packet = Ok (h', rest) /\ packet = MAGIC ++ pub_bytes (sender h') ++ nonce h' ++ rest /\
      pub_ok (sender h') /\ length (nonce h') = 24) \/ parse_header packet = Err NotDisco) /\
  (starts_with packet MAGIC = false -> parse_header packet = Err NotDisco) /\
  ((exists o q, open secret h sealed out = Ok (o, q) /\ length q + 16 = length sealed /\ length o = length out) \/
   exists e, open secret h sealed out = Err e) /\
  ((exists g, parse_ping p = Ok g /\ length (tx_id g) = 12) \/ parse_ping p = Err Malformed).
Proof. split_and!; [apply disco_header_total|apply disco_header_other|apply disco_open_total|apply disco_ping_total]. Qed.
End DiscoProofs.

(** *** Examples, with the toy primitives *)
#[local] Existing Instances Toy.toy Toy.toy_laws.

Lemma disco_ping_received_witness :
  let pkt := default [] (sealed_packet (Private (replicate 32 x01)) (public_of (Private (replicate 32 x09))) (replicate 24 x02)
                           (ping_body (replicate 12 x03) (Some (Public (replicate 32 x04))) (bs "more"))) in
  exists h sealed out' p, parse_header pkt = Ok (h, sealed) /\ sender h = public_of (Private (replicate 32 x01)) /\
    open (replicate 32 x09) h sealed (zeros 100) = Ok (out', p) /\
    parse_ping p = Ok {| tx_id := replicate 12 x03; node_key := Some (Public (replicate 32 x04)) |}.
Proof.
  apply (disco_ping_received (Private (replicate 32 x01)) (Private (replicate 32 x09)) (replicate 24 x02) (replicate 12 x03)
           (Some (Public (replicate 32 x04))) (bs "more") (zeros 100)); try reflexivity.
  - intros k [= <-]. reflexivity.
  - vm_compute. lia.
Defined.

Lemma disco_pong_delivered_witness :
  let a := Private (replicate 32 x01) : DiscoPrivate in
  let b := Private (replicate 32 x09) : DiscoPrivate in
  let pong := pong_body (replicate 12 x03) [xc0; xa8; x00; x02] 41641 in
  exists pkt sealed,
    write_pong (priv_bytes a) (public_of a) (public_of b) (replicate 24 x02) (replicate 12 x03) [xc0; xa8; x00; x02] 41641 (zeros 128)
      = Ok (pkt ++ zeros 18, 110) /\
    length pkt = 110 /\ sealed_packet a (public_of b) (replicate 24 x02) pong = Some pkt /\
    parse_header pkt = Ok ({| sender := public_of a; nonce := replicate 24 x02 |}, sealed) /\
    open (priv_bytes b) {| sender := public_of a; nonce := replicate 24 x02 |} sealed (zeros 32) = Ok (overwrite (zeros 32) 0 pong, pong).
Proof.
  apply (disco_pong_delivered (Private (replicate 32 x01)) (Private (replicate 32 x09)) (replicate 24 x02) (replicate 12 x03)
           [xc0; xa8; x00; x02] 41641 (zeros 128) (zeros 32)); try reflexivity; vm_compute; lia.
Defined.

Lemma disco_input_total_witness :
  parse_header (bs "not a disco packet") = Err NotDisco.
Proof.
  apply (disco_input_total [] {| sender := Public (zeros 32); nonce := zeros 24 |} (bs "not a disco packet") [] [] []). reflexivity.
Defined.
