(* ===== verification/StateError.v ===== *)
(** Computations on a state that outlives their errors: what such a computation
    did before it failed stays done, so it gives the state back with its result. *)
From S2P Require Import Prelude.

Definition SE (S E A : Type) : Type := S -> S * outcome E A.

Section Monad.
Context {S E : Type}.

Definition ret {A} (a : A) : SE S E A := fun s => (s, Ok a).
Definition lift {A} (m : outcome E A) : SE S E A := fun s => (s, m).
Definition bind {A B} (m : SE S E A) (k : A -> SE S E B) : SE S E B := fun s =>
  match m s with
  | (s, Ok a) => k a s
  | (s, Err e) => (s, Err e)
  | (s, Panic) => (s, Panic)
  | (s, NoFuel) => (s, NoFuel)
  end.
Definition get_state : SE S E S := fun s => (s, Ok s).
Definition modify (f : S -> S) : SE S E unit := fun s => (f s, Ok tt).

Lemma bind_ok {A B} (m : SE S E A) (k : A -> SE S E B) s s' a : m s = (s', Ok a) -> bind m k s = k a s'.
Proof. unfold bind. by intros ->. Qed.
Lemma bind_err {A B} (m : SE S E A) (k : A -> SE S E B) s s' e : m s = (s', Err e) -> bind m k s = (s', Err e).
Proof. unfold bind. by intros ->. Qed.
Lemma bind_lift {A B} (a : A) (k : A -> SE S E B) s : bind (lift (Ok a)) k s = k a s.
Proof. done. Qed.
Lemma bind_get {B} (k : S -> SE S E B) s : bind get_state k s = k s s.
Proof. done. Qed.
Lemma bind_modify {B} f (k : unit -> SE S E B) s : bind (modify f) k s = k tt (f s).
Proof. done. Qed.
Lemma bind_assoc {A B C} (m : SE S E A) (f : A -> SE S E B) (g : B -> SE S E C) s : bind (bind m f) g s = bind m (fun a => bind (f a) g) s.
Proof. unfold bind. by destruct (m s) as [s' []]. Qed.
End Monad.

Notation "'do!' x ':=' m 'in' k" := (bind m (fun x => k))
  (at level 10, x pattern, m at level 100, k at level 200,
   format "'[v' 'do!'  x  ':='  m  'in' '/' k ']'") : rust_scope.

(** ** What a computation is sure to do: it ends in [Ok], with [Q] of the state it
    leaves and of its result. *)
Definition sure {S E A} (m : SE S E A) (s : S) (Q : S -> A -> Prop) : Prop := exists s' a, m s = (s', Ok a) /\ Q s' a.

Section Sure.
Context {S E A B : Type}.

Lemma sure_ret (a : A) (s : S) (Q : S -> A -> Prop) : Q s a -> sure (ret (E:=E) a) s Q.
Proof. by exists s, a. Qed.
Lemma sure_lift (m : outcome E A) (s : S) a (Q : S -> A -> Prop) : m = Ok a -> Q s a -> sure (lift m) s Q.
Proof. intros -> HQ. by exists s, a. Qed.
Lemma sure_get (s : S) (Q : S -> S -> Prop) : Q s s -> sure (get_state (E:=E)) s Q.
Proof. by exists s, s. Qed.
Lemma sure_modify f (s : S) (Q : S -> unit -> Prop) : Q (f s) tt -> sure (modify (E:=E) f) s Q.
Proof. by exists (f s), tt. Qed.
Lemma sure_bind (m : SE S E A) (k : A -> SE S E B) s Q : sure m s (fun s' a => sure (k a) s' Q) -> sure (bind m k) s Q.
Proof. intros (s' & a & Em & Hk). unfold sure. by rewrite (bind_ok _ _ _ _ _ Em). Qed.
Lemma sure_wand (m : SE S E A) s (Q R : S -> A -> Prop) : sure m s Q -> (forall s' a, Q s' a -> R s' a) -> sure m s R.
Proof. intros (s' & a & Em & HQ) Hw. exists s', a. auto. Qed.
End Sure.
