(* ===== verification/Framing.v ===== *)
(** Incremental frame readers.

    Three readers of the program (DERP frames, HTTP/2 frames, netmap frames)
    take whatever bytes have arrived and give back how many they used and at
    most one item. [FrameFormat] describes such a stream, [step] reads it one
    byte at a time, and the class [Framing] is what an implementation promises:
    its [feed] is some number of those steps, and it makes progress. The
    theorems are proved once against the class: however the stream is cut into
    reads, [read_all] gives the items of the whole stream. *)
From S2P Require Import Prelude.

Record FrameFormat (H E : Type) := {
  header_len : nat;
  (** What a complete header says, or why it is refused. *)
  decode : bytes -> E + H;
  total : H -> Z;
  (** Whether the payload is captured, up to [cap] bytes, or streamed. *)
  captured : H -> bool;
  cap : nat;
  (** Whether an empty frame counts as captured. *)
  empty_captured : H -> bool;
  (** What an item with a captured payload still tells of the header. *)
  captured_as : H -> H;
}.
Arguments header_len {H E}.
Arguments decode {H E}.
Arguments total {H E}.
Arguments captured {H E}.
Arguments cap {H E}.
Arguments empty_captured {H E}.
Arguments captured_as {H E}.

(** What the stream says, byte by byte: a captured frame, a frame without
    payload, or one byte of a streamed payload and whether it is the last. *)
Inductive event (H : Type) :=
| EvCaptured (h : H) (payload : bytes)
| EvEmpty (h : H)
| EvByte (h : H) (b : byte) (last : bool).
Arguments EvCaptured {H}.
Arguments EvEmpty {H}.
Arguments EvByte {H}.

Inductive position_in (H : Type) :=
| InHeader (have : bytes)
| InPayload (h : H) (rest : Z) (stored : option bytes).
Arguments InHeader {H}.
Arguments InPayload {H}.

Definition between {H} : position_in H := InHeader [].

(** The bytes of a streamed chunk, the last one marked if [ends]. *)
Fixpoint body_events {H} (h : H) (chunk : bytes) (ends : bool) : list (event H) :=
  match chunk with
  | [] => []
  | [b] => [EvByte h b ends]
  | b :: chunk => EvByte h b false :: body_events h chunk ends
  end.

Section Format.
Context {H E : Type} (f : FrameFormat H E).

Definition empty_event (h : H) : event H := if empty_captured f h then EvCaptured (captured_as f h) [] else EvEmpty h.

Definition step (p : position_in H) (b : byte) : E + (position_in H * list (event H)) :=
  match p with
  | InHeader have =>
      let have := have ++ [b] in
      if decide (length have < header_len f) then inr (InHeader have, [])
      else
        match decode f have with
        | inl e => inl e
        | inr h =>
            if decide (total f h = 0)%Z then inr (between, [empty_event h])
            else inr (InPayload h (total f h) (if captured f h then Some [] else None), [])
        end
  | InPayload h rest None =>
      if decide (rest = 1)%Z then inr (between, [EvByte h b true])
      else inr (InPayload h (rest - 1) None, [EvByte h b false])
  | InPayload h rest (Some c) =>
      let c := if decide (length c < cap f) then c ++ [b] else c in
      if decide (rest = 1)%Z then inr (between, [EvCaptured (captured_as f h) c])
      else inr (InPayload h (rest - 1) (Some c), [])
  end.

Fixpoint run (p : position_in H) (input : bytes) : E + (position_in H * list (event H)) :=
  match input with
  | [] => inr (p, [])
  | b :: input =>
      match step p b with
      | inl e => inl e
      | inr (p, ev) =>
          match run p input with
          | inl e => inl e
          | inr (p, ev') => inr (p, ev ++ ev')
          end
      end
  end.

(** A frame as the sender sees it, and what a reader makes of it. *)
Definition frame_events (h : H) (payload : bytes) : list (event H) :=
  match payload with
  | [] => [empty_event h]
  | _ => if captured f h then [EvCaptured (captured_as f h) (take (cap f) payload)] else body_events h payload true
  end.

(** [wire] is a frame with the header [h]. *)
Definition frame_on_wire (h : H) (payload wire : bytes) : Prop :=
  exists hdr, wire = hdr ++ payload /\ length hdr = header_len f /\ decode f hdr = inr h /\
    total f h = Z.of_nat (length payload).

Lemma run_app p a b :
  run p (a ++ b) = match run p a with
                   | inl e => inl e
                   | inr (q, ev) => match run q b with inl e => inl e | inr (q, ev') => inr (q, ev ++ ev') end
                   end.
Proof.
  revert p. induction a as [|x a IH]; intros p; cbn [run app].
  - by destruct (run p b) as [|[q ev]].
  - destruct (step p x) as [|[q ev]]; [done|]. rewrite IH. destruct (run q a) as [|[q' ev']]; [done|].
    destruct (run q' b) as [|[q'' ev'']]; [done|]. by rewrite app_assoc.
Qed.

Lemma run_app_inr p a b q ev : run p a = inr (q, ev) ->
  run p (a ++ b) = match run q b with inl e => inl e | inr (q, ev') => inr (q, ev ++ ev') end.
Proof. intros Hr. by rewrite run_app, Hr. Qed.

Lemma run_header have l : length (have ++ l) < header_len f -> run (InHeader have) l = inr (InHeader (have ++ l), []).
Proof.
  revert have. induction l as [|b l IH]; intros have Hl; cbn [run step]; [by rewrite app_nil_r|].
  rewrite decide_True by (rewrite length_app in *; simpl in *; lia).
  rewrite IH by (rewrite <- app_assoc; done). by rewrite <- app_assoc.
Qed.

(** The header's last byte decides. *)
Lemma run_header_end have l : length have < header_len f -> length (have ++ l) = header_len f ->
  run (InHeader have) l =
    match decode f (have ++ l) with
    | inl e => inl e
    | inr h => if decide (total f h = 0)%Z then inr (between, [empty_event h])
               else inr (InPayload h (total f h) (if captured f h then Some [] else None), [])
    end.
Proof.
  intros Hh Hl. destruct l as [|b l _] using rev_ind; [rewrite app_nil_r in Hl; lia|].
  rewrite app_assoc in *. rewrite (run_app_inr _ _ _ _ _ (run_header have l ltac:(rewrite !length_app in *; simpl in *; lia))).
  cbn [run step]. rewrite decide_False by lia.
  destruct (decode f _) as [e|h]; [done|]. case_decide; done.
Qed.

Lemma run_stream h rest l : (Z.of_nat (length l) < rest)%Z ->
  run (InPayload h rest None) l = inr (InPayload h (rest - Z.of_nat (length l)) None, body_events h l false).
Proof.
  revert rest. induction l as [|b l IH]; intros rest Hl; cbn [run step].
  { simpl. by rewrite Z.sub_0_r. }
  cbn [length] in *. rewrite decide_False by lia. rewrite IH by lia. cbn [app body_events]. do 2 f_equal; [f_equal; lia|].
  destruct l; done.
Qed.

Lemma run_stream_end h rest l : l <> [] -> rest = Z.of_nat (length l) ->
  run (InPayload h rest None) l = inr (between, body_events h l true).
Proof.
  intros Hl ->. induction l as [|b l IH]; [done|]. cbn [run step length]. destruct l as [|c l].
  - by rewrite decide_True.
  - rewrite decide_False by (simpl; lia). specialize (IH ltac:(done)). rewrite Nat2Z.inj_succ.
    replace (Z.succ (Z.of_nat (length (c :: l))) - 1)%Z with (Z.of_nat (length (c :: l))) by lia.
    rewrite IH. done.
Qed.

(** A stream that ends between frames says something. *)
Lemma run_between_events p l q ev : l <> [] -> run p l = inr (q, ev) -> q = between -> ev <> [].
Proof.
  intros Hl Hr ->. destruct l as [|b l _] using rev_ind; [done|]. rewrite run_app in Hr.
  destruct (run p l) as [|[p1 ev1]]; [done|]. cbn [run] in Hr. destruct (step p1 b) as [|[p2 ev2]] eqn:Hs; [done|].
  injection Hr as -> <-. rewrite app_nil_r. intros [_ ->]%app_nil. revert Hs. unfold step, between.
  destruct p1 as [have|h rest [c|]].
  - case_decide; [intros [= Hn]; by destruct have|]. destruct (decode f _); [done|]. by case_decide.
  - by case_decide.
  - by case_decide.
Qed.

Definition capture (c l : bytes) : bytes := c ++ take (cap f - length c) l.

Lemma capture_cons c b l : capture (if decide (length c < cap f) then c ++ [b] else c) l = capture c (b :: l).
Proof.
  unfold capture. case_decide as Hd.
  - rewrite <- app_assoc. f_equal. cbn [app]. rewrite length_app. simpl.
    replace (cap f - length c) with (S (cap f - (length c + 1))) by lia. done.
  - replace (cap f - length c) with 0 by lia. done.
Qed.

Lemma run_captured h rest c l : (Z.of_nat (length l) < rest)%Z ->
  run (InPayload h rest (Some c)) l = inr (InPayload h (rest - Z.of_nat (length l)) (Some (capture c l)), []).
Proof.
  revert rest c. induction l as [|b l IH]; intros rest c Hl; cbn [run step].
  { unfold capture. rewrite take_nil, app_nil_r. simpl. by rewrite Z.sub_0_r. }
  cbn [length] in *. rewrite (decide_False (P:=rest = 1%Z)) by lia. rewrite IH by lia. rewrite capture_cons. cbn [app]. do 3 f_equal. lia.
Qed.

Lemma run_captured_end h rest c l : l <> [] -> rest = Z.of_nat (length l) ->
  run (InPayload h rest (Some c)) l = inr (between, [EvCaptured (captured_as f h) (capture c l)]).
Proof.
  intros Hl ->. destruct l as [|b l _] using rev_ind; [done|].
  assert (Z.of_nat (length l) < Z.of_nat (length (l ++ [b])))%Z as Hlt by len.
  rewrite (run_app_inr _ _ _ _ _ (run_captured h _ c l Hlt)). cbn [run step].
  replace (Z.of_nat (length (l ++ [b])) - Z.of_nat (length l))%Z with 1%Z by len. rewrite (decide_True (P:=(1 = 1)%Z)) by done. cbn [app]. do 4 f_equal.
  pose proof (capture_cons (capture c l) b []) as Hc. unfold capture at 1 in Hc. rewrite take_nil, app_nil_r in Hc.
  rewrite Hc. unfold capture. rewrite <- app_assoc. f_equal.
  rewrite length_app, length_take. rewrite (take_app l). f_equal. f_equal. lia.
Qed.

(** A capture buffer of [cap] bytes, filled up to [n]. *)
Lemma capture_buffer buf n src : length buf = cap f -> n + length src <= cap f ->
  capture (take n buf) src = take (n + length src) (overwrite buf n src).
Proof.
  intros Hb Hl. rewrite take_overwrite by lia. unfold capture. by rewrite (take_ge src) by (rewrite length_take; lia).
Qed.

Lemma capture_full buf l : length buf = cap f -> capture (take (cap f) buf) l = take (cap f) buf.
Proof. intros Hb. unfold capture. rewrite length_take. replace (_ - _) with 0 by lia. by rewrite app_nil_r. Qed.

(** A whole frame is its header and its events. *)
Lemma run_frame h payload wire : 0 < header_len f -> frame_on_wire h payload wire ->
  run between wire = inr (between, frame_events h payload).
Proof.
  intros Hpos (hdr & -> & Hl & Hd & Ht). rewrite run_app.
  unfold between at 1. rewrite (run_header_end [] hdr) by (simpl; lia). cbn [app]. rewrite Hd. unfold frame_events. destruct payload as [|b payload].
  - rewrite decide_True by done. done.
  - rewrite decide_False by (simpl in *; lia). destruct (captured f h).
    + rewrite run_captured_end by done. unfold capture. cbn [app length]. by rewrite Nat.sub_0_r.
    + rewrite run_stream_end by done. done.
Qed.

Lemma run_frames frames wires : 0 < header_len f -> Forall2 (fun '(h, p) w => frame_on_wire h p w) frames wires ->
  run between (concat wires) = inr (between, concat (map (fun '(h, p) => frame_events h p) frames)).
Proof.
  intros Hpos. induction 1 as [|[h p] w frames wires Hw _ IH]; [done|]. cbn [concat map].
  rewrite (run_app_inr _ _ _ _ _ (run_frame h p w Hpos Hw)), IH. done.
Qed.

(** A stream is refused at the header of some frame. *)
Lemma run_error_inv s e : 0 < header_len f -> (forall hdr h, decode f hdr = inr h -> (0 <= total f h)%Z) ->
  run between s = inl e ->
  exists frames wires hdr rest, Forall2 (fun '(h, p) w => frame_on_wire h p w) frames wires /\
    s = concat wires ++ hdr ++ rest /\ length hdr = header_len f /\ decode f hdr = inl e.
Proof.
  intros Hpos Htot. remember (length s) as n eqn:Hn. revert s Hn.
  induction n as [n IH] using lt_wf_ind. intros s -> Hs.
  destruct (decide (length s < header_len f)) as [Hlt|Hge].
  { unfold between in Hs. by rewrite (run_header [] s) in Hs. }
  pose proof (take_drop (header_len f) s) as Hsplit. set (hdr := take _ s) in *. set (rest := drop _ s) in *.
  assert (length hdr = header_len f) as Hl by (unfold hdr; rewrite length_take; lia).
  rewrite <- Hsplit, run_app in Hs. unfold between in Hs. rewrite (run_header_end [] hdr) in Hs by (simpl; lia). cbn [app] in Hs.
  destruct (decode f hdr) as [e'|h] eqn:Hd.
  { exists [], [], hdr, rest. by simplify_eq/=. }
  specialize (Htot _ _ Hd). set (p := take (Z.to_nat (total f h)) rest).
  destruct (decide (Z.of_nat (length rest) < total f h)%Z) as [Hshort|Hfull].
  { rewrite decide_False in Hs by lia. destruct (captured f h); [by rewrite run_captured in Hs|by rewrite run_stream in Hs]. }
  assert (frame_on_wire h p (hdr ++ p)) as Hw.
  { exists hdr. split_and!; [done..|]. unfold p. rewrite length_take. lia. }
  destruct (IH (length (drop (Z.to_nat (total f h)) rest))) with (s := drop (Z.to_nat (total f h)) rest)
    as (frames & wires & hdr' & rest' & Hws & Hrest & Hl' & Hd'); [|done| |].
  - rewrite length_drop, <- Hsplit, length_app. lia.
  - pose proof (run_frame h p _ Hpos Hw) as Hf. assert (run between s = inl e) as Hs'.
    { rewrite <- Hsplit, run_app. unfold between. rewrite (run_header_end [] hdr) by (simpl; lia). cbn [app]. by rewrite Hd. }
    rewrite <- Hsplit, <- (take_drop (Z.to_nat (total f h)) rest), app_assoc in Hs'. fold p in Hs'.
    rewrite (run_app_inr _ _ _ _ _ Hf) in Hs'. destruct (run between (drop _ rest)) as [e'|[q ev]]; congruence.
  - exists ((h, p) :: frames), ((hdr ++ p) :: wires), hdr', rest'. split_and!; [by constructor| |done..].
    cbn [concat]. rewrite <- Hsplit, <- (take_drop (Z.to_nat (total f h)) rest), Hrest. fold p. by rewrite <- !app_assoc.
Qed.
End Format.

Lemma body_events_length {H} (h : H) c e : length (body_events h c e) = length c.
Proof. induction c as [|b [|c l] IH]; [done..|]. cbn [body_events length]. by f_equal. Qed.

(** ** The interface *)

(** [R] is the reader, [I] its items. *)
Class Framing (R I E : Type) := {
  feed : R -> bytes -> outcome E (R * nat * option I);
}.

Class FramingLaws {R I H E} (f : FrameFormat H E) `{Framing R I E} := {
  (** Well-formed, with room for so many more bytes. *)
  reader_ok : nat -> R -> Prop;
  reader_at : R -> position_in H;
  item_events : I -> list (event H);
  header_pos : 0 < header_len f;
  (** [feed] is the steps over the bytes it used; it stops without an item only
      when it has used them all, and uses some when there are any. *)
  feed_steps r input k : reader_ok (length input + k) r ->
    match feed r input with
    | Ok (r', n, i) =>
        reader_ok (length input - n + k) r' /\ n <= length input /\ (0 < length input -> 0 < n) /\ (i = None -> n = length input) /\
        run f (reader_at r) (take n input) = inr (reader_at r', from_option item_events [] i)
    | Err e => exists n, n <= length input /\ run f (reader_at r) (take n input) = inl e
    | Panic | NoFuel => False
    end;
}.

(** ** Readers that loop

    The [feed] of such a reader is [loop { match self.state { .. } }]: a turn
    either goes on from a later position or returns. *)
Inductive turn (R I : Type) :=
| Continue (r : R) (pos : nat)
| Return (r : R) (pos : nat) (item : option I).
Arguments Continue {R I}.
Arguments Return {R I}.

Section Turns.
Context {R I H E : Type} (one_turn : R -> bytes -> nat -> outcome E (turn R I)).

Fixpoint feed_loop (fuel : nat) (r : R) (input : bytes) (pos : nat) : outcome E (R * nat * option I) :=
  match fuel with
  | O => NoFuel
  | S fuel =>
      let? t := one_turn r input pos in
      match t with
      | Continue r pos => feed_loop fuel r input pos
      | Return r pos item => Ok (r, pos, item)
      end
  end.

Context (f : FrameFormat H E) (ok : nat -> R -> Prop) (at_ : R -> position_in H) (item_ev : I -> list (event H))
  (rank : R -> nat -> nat).

(** What one turn does: some steps of the format; [rank] is the turns still
    needed with so many bytes left. *)
Definition turn_steps (r : R) (input : bytes) (pos k : nat) (m : outcome E (turn R I)) : Prop :=
  match m with
  | Ok (Continue r' pos') =>
      ok (length input - pos' + k) r' /\ pos <= pos' <= length input /\ (pos < length input -> pos < pos') /\
      rank r' (length input - pos') < rank r (length input - pos) /\
      run f (at_ r) (take (pos' - pos) (drop pos input)) = inr (at_ r', [])
  | Ok (Return r' pos' i) =>
      ok (length input - pos' + k) r' /\ pos <= pos' <= length input /\ (pos < length input -> pos < pos') /\
      (i = None -> pos' = length input) /\
      run f (at_ r) (take (pos' - pos) (drop pos input)) = inr (at_ r', from_option item_ev [] i)
  | Err e => exists n, pos + n <= length input /\ run f (at_ r) (take n (drop pos input)) = inl e
  | Panic | NoFuel => False
  end.

Context (turns : forall r input pos k, ok (length input - pos + k) r -> pos <= length input ->
  turn_steps r input pos k (one_turn r input pos)) (rank_pos : forall r n, 0 < rank r n).

(** The loop is its turns, one after the other. *)
Lemma feed_loop_steps fuel r input pos k :
  ok (length input - pos + k) r -> pos <= length input -> rank r (length input - pos) <= fuel ->
  match feed_loop fuel r input pos with
  | Ok (r', n, i) =>
      ok (length input - n + k) r' /\ pos <= n <= length input /\ (pos < length input -> pos < n) /\ (i = None -> n = length input) /\
      run f (at_ r) (take (n - pos) (drop pos input)) = inr (at_ r', from_option item_ev [] i)
  | Err e => exists n, n <= length input - pos /\ run f (at_ r) (take n (drop pos input)) = inl e
  | Panic | NoFuel => False
  end.
Proof.
  revert r pos. induction fuel as [|fuel IH]; intros r pos Hr Hp Hf.
  { specialize (rank_pos r (length input - pos)). lia. }
  cbn [feed_loop]. pose proof (turns r input pos k Hr Hp) as Ht.
  destruct (one_turn r input pos) as [[r1 pos1|r1 pos1 i]|e| |]; cbn [turn_steps obind] in *; try done.
  - destruct Ht as (Hr1 & Hp1 & Hprog & Hrank & Hrun). specialize (IH r1 pos1 Hr1 ltac:(lia) ltac:(lia)).
    assert (forall n, pos1 <= n -> take (n - pos) (drop pos input) = take (pos1 - pos) (drop pos input) ++ take (n - pos1) (drop pos1 input)) as Hsplit.
    { intros n Hn. replace (drop pos1 input) with (drop (pos1 - pos) (drop pos input)) by (rewrite drop_drop; f_equal; lia).
      replace (n - pos) with ((pos1 - pos) + (n - pos1)) by lia. by rewrite take_take_drop. }
    destruct (feed_loop fuel r1 input pos1) as [[[r2 n] i]|e| |]; try done.
    + destruct IH as (Hr2 & Hn & Hprog2 & Hnone & Hrun2). split_and!; try (done || lia).
      rewrite Hsplit by lia. rewrite (run_app_inr _ _ _ _ _ _ Hrun), Hrun2. done.
    + destruct IH as (n & Hn & He). exists (pos1 - pos + n). split; [lia|].
      replace (pos1 - pos + n) with ((pos1 + n) - pos) by lia. rewrite Hsplit by lia.
      rewrite (run_app_inr _ _ _ _ _ _ Hrun). replace (pos1 + n - pos1) with n by lia. by rewrite He.
  - destruct Ht as (n & Hn & He). exists n. split; [lia|done].
Qed.
End Turns.

Section Reading.
Context {R I E : Type} `{F : Framing R I E}.

(** The callers' loop: feed what is left of a read until nothing is left. *)
Fixpoint read_loop (fuel : nat) (r : R) (input : bytes) : outcome E (R * list I) :=
  match input with
  | [] => Ok (r, [])
  | _ =>
      match fuel with
      | O => NoFuel
      | S fuel =>
          let? (r, used, item) := feed r input in
          let? (r, items) := read_loop fuel r (drop used input) in
          Ok (r, option_list item ++ items)
      end
  end.

(** Reads one after the other. *)
Fixpoint read_all (r : R) (reads : list bytes) : outcome E (R * list I) :=
  match reads with
  | [] => Ok (r, [])
  | input :: reads =>
      let? (r, items) := read_loop (length input) r input in
      let? (r, items') := read_all r reads in
      Ok (r, items ++ items')
  end.

Context {H : Type} (f : FrameFormat H E) `{!FramingLaws f}.

Definition events_of (items : list I) : list (event H) := concat (map item_events items).

Lemma events_of_app a b : events_of (a ++ b) = events_of a ++ events_of b.
Proof. unfold events_of. by rewrite map_app, concat_app. Qed.

(** What reading to the end gives, against the stream's own account. *)
Definition agrees (k : nat) (m : outcome E (R * list I)) (spec : E + (position_in H * list (event H))) : Prop :=
  match m, spec with
  | Ok (r, items), inr (p, ev) => reader_ok k r /\ reader_at r = p /\ events_of items = ev
  | Err e, inl e' => e = e'
  | _, _ => False
  end.

Lemma read_loop_spec fuel r input k : reader_ok (length input + k) r -> length input <= fuel ->
  agrees k (read_loop fuel r input) (run f (reader_at r) input).
Proof.
  revert r input. induction fuel as [|fuel IH]; intros r input Hr Hf.
  { destruct input; [|simpl in Hf; lia]. done. }
  destruct input as [|b l]; [done|]. cbn [read_loop]. pose proof (feed_steps r (b :: l) k Hr) as Hs.
  destruct (feed r (b :: l)) as [[[r' n] i]|e| |]; [|destruct Hs as (n & Hn & He)|done..].
  - destruct Hs as (Hr' & Hn & Hpos & Hnone & Hrun). cbn [obind]. specialize (Hpos ltac:(simpl; lia)).
    specialize (IH r' (drop n (b :: l)) ltac:(by rewrite length_drop) ltac:(rewrite length_drop; lia)).
    rewrite <- (take_drop n (b :: l)) at 2. rewrite (run_app_inr _ _ _ _ _ _ Hrun).
    destruct (read_loop fuel r' _) as [[r'' items]|e| |]; destruct (run f (reader_at r') _) as [e'|[p ev]]; try done.
    destruct IH as (Hr'' & Hp & Hev). cbn [obind agrees]. split_and!; [done..|].
    rewrite events_of_app, Hev. f_equal. destruct i as [i|]; [|done]. unfold events_of. simpl. by rewrite app_nil_r.
  - rewrite <- (take_drop n (b :: l)), run_app, He. done.
Qed.

Lemma read_all_spec r reads k : reader_ok (length (concat reads) + k) r ->
  agrees k (read_all r reads) (run f (reader_at r) (concat reads)).
Proof.
  revert r. induction reads as [|input reads IH]; intros r Hr; cbn [read_all concat]; [done|].
  cbn [concat] in Hr. rewrite length_app, <- Nat.add_assoc in Hr.
  pose proof (read_loop_spec (length input) r input _ Hr ltac:(done)) as Hl. rewrite run_app.
  destruct (read_loop _ r input) as [[r' items]|e| |]; destruct (run f (reader_at r) input) as [e'|[p ev]]; try done.
  destruct Hl as (Hr' & <- & <-). cbn [obind]. specialize (IH r' Hr').
  destruct (read_all r' reads) as [[r'' items']|e| |]; destruct (run f (reader_at r') _) as [e'|[p ev]]; try done.
  destruct IH as (Hr'' & <- & <-). cbn [obind agrees]. split_and!; [done..|]. apply events_of_app.
Qed.

(** However a sequence of frames is cut into reads, it is read as itself. *)
Lemma read_frames r frames wires reads k :
  reader_ok (length (concat reads) + k) r -> reader_at r = between ->
  Forall2 (fun '(h, p) w => frame_on_wire f h p w) frames wires -> concat reads = concat wires ->
  exists r' items, read_all r reads = Ok (r', items) /\ reader_ok k r' /\ reader_at r' = between /\
    events_of items = concat (map (fun '(h, p) => frame_events f h p) frames).
Proof.
  intros Hr Hb Hw Hc. pose proof (read_all_spec r reads k Hr) as Hs.
  rewrite Hc, Hb, (run_frames f frames wires header_pos Hw) in Hs.
  destruct (read_all r reads) as [[r' items]|e| |]; try done. destruct Hs as (Hr' & Hp & Hev).
  by exists r', items.
Qed.
End Reading.
