(* ===== verification/Socket.v ===== *)
(** The connections the program reads and writes, as it relies on them.

    TCP and TLS are third-party code (embassy-net, embedded-tls, std::net):
    [SocketOps] has the operations used, [SocketView] what is relied on, stated
    with the bytes still to come each way, [SocketUp] a connection that stays up.
    With them, the staging buffers such bytes are read into, and the LAN side. *)
From S2P Require Import Prelude.

(** [read] into a slice of so many bytes, [write_all]. *)
Class SocketOps (W : Type) := {
  sock_read : W -> nat -> W * option bytes;
  sock_write : W -> bytes -> W * bool;
}.

(** A stream each way: a read takes a prefix of what is inbound, and takes
    nothing only at the end; a write appends. *)
Class SocketView (W : Type) `{SocketOps W} := {
  inbound : W -> bytes;
  outbound : W -> bytes;
  sock_read_view w n w' b : sock_read w n = (w', Some b) ->
    length b <= n /\ inbound w = b ++ inbound w' /\ outbound w' = outbound w /\ (0 < n -> b = [] -> inbound w = []);
  sock_write_view w b w' : sock_write w b = (w', true) -> outbound w' = outbound w ++ b /\ inbound w' = inbound w;
}.

(** A connection that stays up: writes are accepted, and a read gives something
    while anything is still inbound. *)
Class SocketUp (W : Type) `{SocketView W} := {
  sock_read_up w n : 0 < n -> inbound w <> [] -> exists w' b, sock_read w n = (w', Some b);
  sock_write_up w b : exists w', sock_write w b = (w', true);
}.

Lemma sock_read_some `{SocketUp W} (w : W) n : 0 < n -> inbound w <> [] ->
  exists w' b, sock_read w n = (w', Some b) /\ 0 < length b <= n /\ inbound w = b ++ inbound w' /\ outbound w' = outbound w.
Proof.
  intros Hn Hi. destruct (sock_read_up w n Hn Hi) as (w' & b & E). destruct (sock_read_view _ _ _ _ E) as (Hb & Hin & Ho & He).
  exists w', b. split_and!; try done. destruct b; [by destruct Hi; apply He|simpl; lia].
Qed.

(** The LAN side of a node: it takes the packets a peer sent through. *)
Class LanSide (T : Type) := { deliver : T -> bytes -> T }.

(** [buf.copy_within(a..b, 0)] *)
Definition copy_down {E} (buf : bytes) (a b : nat) : outcome E bytes :=
  let? src := slice buf a b in
  copy_range buf 0 (b - a) src.

Lemma app_cut {A} (a b c d : list A) : a ++ b = c ++ d -> length c <= length a -> a = c ++ drop (length c) a /\ drop (length c) a ++ b = d.
Proof.
  intros He Hl. assert (take (length c) a = c) as Ht.
  { rewrite <- (take_app_le a b) by done. rewrite He. apply take_app_length. }
  split; [by rewrite <- Ht at 1; rewrite take_drop|].
  apply (app_inv_head c). rewrite <- He, app_assoc. f_equal. rewrite <- Ht at 1. apply take_drop.
Qed.

(** A message that ends with the first [pat] of it, among what has arrived. *)
Lemma window_ends pat (msg got future rest : bytes) : pat <> [] -> length pat <= length msg -> find_window pat msg = Some (length msg - length pat) ->
  got ++ future = msg ++ rest ->
  find_window pat got = if decide (length msg <= length got) then Some (length msg - length pat) else None.
Proof.
  intros Hp Hl Hw He. case_decide as Hd.
  - apply app_cut in He as [-> _]; [|done]. by apply find_window_app.
  - destruct (find_window pat got) as [i|] eqn:E; [|done]. exfalso.
    pose proof (find_window_Some _ _ _ E) as (r & _ & Hi & _). apply (find_window_app _ _ future) in E.
    apply (find_window_app _ _ rest) in Hw. rewrite He, Hw in E. simplify_eq. lia.
Qed.

Lemma copy_down_ok {E} (buf : bytes) a b :
  a <= b -> b <= length buf -> exists buf', copy_down (E:=E) buf a b = Ok buf' /\ length buf' = length buf /\ take (b - a) buf' = take (b - a) (drop a buf).
Proof.
  intros Hab Hb. unfold copy_down. rewrite slice_ok by done. cbn [obind].
  rewrite copy_range_ok by (rewrite ?length_take, ?length_drop; lia). eexists. split; [done|].
  split; [apply length_overwrite; rewrite length_take, length_drop; lia|].
  set (src := take (b - a) (drop a buf)). assert (length src = b - a) as Hs by (unfold src; rewrite length_take, length_drop; lia).
  rewrite <- Hs at 1. by apply (take_overwrite buf 0 src); lia.
Qed.

(** An example: a pipe each way that gives at most five bytes a read. *)
Definition pipe : Type := bytes * bytes.
#[export] Instance pipe_ops : SocketOps pipe := {
  sock_read p n := ((drop (n `min` 5) p.1, p.2), Some (take (n `min` 5) p.1));
  sock_write p b := ((p.1, p.2 ++ b), true);
}.
#[export] Instance pipe_view : SocketView pipe.
Proof.
  refine {| inbound := fst; outbound := snd |}.
  - intros w n w' b [= <- <-]. cbn [fst snd]. rewrite length_take, take_drop. split_and!; try (done || lia).
    intros Hn Hb. apply (f_equal length) in Hb. rewrite length_take in Hb. destruct w.1; [done|]. simpl in Hb. lia.
  - by intros w b w' [= <-].
Defined.
#[export] Instance pipe_up : SocketUp pipe.
Proof. split; intros; eexists; [eexists|]; reflexivity. Defined.
