(* ===== verification/DerpFrame.v ===== *)
(** DERP framing: [derp/frame.rs].

    [FrameReader.feed] is an instance of [Framing]: the stream format is
    [derp_format]. An error of [feed] ends the connection in every caller, so
    the reader is not returned with it. *)
From S2P Require Import Prelude Framing.

Definition MAGIC : bytes := [x44; x45; x52; x50; xf0; x9f; x94; x91].
Definition HEADER_LEN : nat := 5.
Definition MAX_FRAME_LEN : Z := 64 * 1024.
Definition CONTROL_FRAME_MAX : nat := 512.
Definition KEY_LEN : nat := 32.

Inductive FrameType :=
| ServerKey | ClientInfo | ServerInfo | SendPacket | RecvPacket | KeepAlive | NotePreferred | PeerGone
| PeerPresent | ForwardPacket | WatchConns | ClosePeer | Ping | Pong | Health | Restarting | Unknown.

#[export] Instance FrameType_eq_dec : EqDecision FrameType.
Proof. solve_decision. Defined.

(** [kind as u8] *)
Definition frame_type_u8 (k : FrameType) : byte :=
  match k with
  | ServerKey => x01 | ClientInfo => x02 | ServerInfo => x03 | SendPacket => x04 | RecvPacket => x05
  | KeepAlive => x06 | NotePreferred => x07 | PeerGone => x08 | PeerPresent => x09 | ForwardPacket => x0a
  | WatchConns => x10 | ClosePeer => x11 | Ping => x12 | Pong => x13 | Health => x14 | Restarting => x15
  | Unknown => xff
  end.

Definition from_u8 (v : byte) : FrameType :=
  match v with
  | x01 => ServerKey | x02 => ClientInfo | x03 => ServerInfo | x04 => SendPacket | x05 => RecvPacket
  | x06 => KeepAlive | x07 => NotePreferred | x08 => PeerGone | x09 => PeerPresent | x0a => ForwardPacket
  | x10 => WatchConns | x11 => ClosePeer | x12 => Ping | x13 => Pong | x14 => Health | x15 => Restarting
  | _ => Unknown
  end.

Definition is_control (k : FrameType) : bool :=
  match k with SendPacket | RecvPacket | ForwardPacket | Unknown => false | _ => true end.

Inductive DerpError := FrameTooLarge | BadServerKey | Crypto | ShortBuffer.

Record ControlPayload := { cp_buf : bytes; cp_len : nat }.
(** [ControlPayload::as_slice] *)
Definition as_slice {E} (p : ControlPayload) : outcome E bytes := slice (cp_buf p) 0 (cp_len p).

Inductive Frame :=
| Control (kind : FrameType) (payload : ControlPayload)
| Body (kind : FrameType) (total_len : Z) (chunk : bytes) (ends : bool).

Inductive State := Header | Buffering | Streaming | Draining.

Record FrameReader := {
  state : State;
  header : bytes;
  header_have : nat;
  kind : FrameType;
  total : Z;
  remaining : Z;
  control : bytes;
  control_len : nat;
}.

(** [FrameReader::new] *)
Definition new : FrameReader :=
  {| state := Header; header := zeros HEADER_LEN; header_have := 0; kind := Unknown; total := 0; remaining := 0;
     control := zeros CONTROL_FRAME_MAX; control_len := 0 |}.

Definition control_frame (r : FrameReader) (k : FrameType) : Frame :=
  Control k {| cp_buf := control r; cp_len := control_len r |}.

(** Assignments to the reader's fields. *)
Definition set_state (st : State) (r : FrameReader) : FrameReader :=
  {| state := st; header := header r; header_have := header_have r; kind := kind r; total := total r;
     remaining := remaining r; control := control r; control_len := control_len r |}.
Definition set_header (hdr : bytes) (have : nat) (r : FrameReader) : FrameReader :=
  {| state := state r; header := hdr; header_have := have; kind := kind r; total := total r;
     remaining := remaining r; control := control r; control_len := control_len r |}.
Definition set_frame (k : FrameType) (n : Z) (r : FrameReader) : FrameReader :=
  {| state := state r; header := header r; header_have := 0; kind := k; total := n;
     remaining := n; control := control r; control_len := 0 |}.
Definition set_payload (rem : Z) (c : bytes) (len : nat) (r : FrameReader) : FrameReader :=
  {| state := state r; header := header r; header_have := header_have r; kind := kind r; total := total r;
     remaining := rem; control := c; control_len := len |}.

(** One turn of the loop in [feed]. *)
Definition feed_turn (r : FrameReader) (input : bytes) (pos : nat) : outcome DerpError (turn FrameReader Frame) :=
  match state r with
  | Header =>
      let? need := nsub HEADER_LEN (header_have r) in
      let? avail := nsub (length input) pos in
      let n := need `min` avail in
      let? src := slice input pos (pos + n) in
      let? hdr := copy_range (header r) (header_have r) (header_have r + n) src in
      let r := set_header hdr (header_have r + n) r in
      let pos := pos + n in
      if decide (header_have r < HEADER_LEN) then Ok (Return r pos None)
      else
        let? k := index (header r) 0 in
        let? len := slice (header r) 1 5 in
        let len := from_be len in
        if decide (MAX_FRAME_LEN < len)%Z then Err FrameTooLarge
        else
          let r := set_frame (from_u8 k) len r in
          if decide (total r = 0)%Z then Ok (Return (set_state Header r) pos (Some (control_frame r (kind r))))
          else Ok (Continue (set_state (if is_control (kind r) then Buffering else Streaming) r) pos)
  | Buffering =>
      let? avail := nsub (length input) pos in
      if decide (avail = 0) then Ok (Return r pos None)
      else
        let? space := nsub CONTROL_FRAME_MAX (control_len r) in
        let n := (Z.to_nat (remaining r) `min` avail) `min` space in
        let? src := slice input pos (pos + n) in
        let? c := copy_range (control r) (control_len r) (control_len r + n) src in
        let? rem := usub (remaining r) (wrap 32 (Z.of_nat n)) in
        let r := set_payload rem c (control_len r + n) r in
        let pos := pos + n in
        if decide (remaining r = 0)%Z then Ok (Return (set_state Header r) pos (Some (control_frame r (kind r))))
        else if decide (control_len r = CONTROL_FRAME_MAX) then Ok (Continue (set_state Draining r) pos)
        else Ok (Continue r pos)
  | Draining =>
      let? avail := nsub (length input) pos in
      let n := Z.to_nat (remaining r) `min` avail in
      let? rem := usub (remaining r) (wrap 32 (Z.of_nat n)) in
      let r := set_payload rem (control r) (control_len r) r in
      let pos := pos + n in
      if decide (0 < remaining r)%Z then Ok (Return r pos None)
      else Ok (Return (set_state Header r) pos (Some (control_frame r (kind r))))
  | Streaming =>
      let? avail := nsub (length input) pos in
      if decide (avail = 0) then Ok (Return r pos None)
      else
        let n := Z.to_nat (remaining r) `min` avail in
        let? chunk := slice input pos (pos + n) in
        let? rem := usub (remaining r) (wrap 32 (Z.of_nat n)) in
        let r := set_payload rem (control r) (control_len r) r in
        let pos := pos + n in
        let ends := bool_decide (remaining r = 0)%Z in
        Ok (Return (if ends then set_state Header r else r) pos (Some (Body (kind r) (total r) chunk ends)))
  end.

(** Three turns are enough: a header, what there is of the payload, and the
    turn that finds nothing left or drains. *)
#[export] Instance derp_framing : Framing FrameReader Frame DerpError :=
  {| feed := fun r input => feed_loop feed_turn 3 r input 0 |}.

Definition parse_server_key (payload : bytes) : outcome DerpError bytes :=
  if decide (length payload < length MAGIC + KEY_LEN) then Err BadServerKey
  else if starts_with payload MAGIC then slice payload (length MAGIC) (length MAGIC + KEY_LEN)
  else Err BadServerKey.

(** [write_header]: the buffer and the bytes written. *)
Definition write_header (out : bytes) (k : FrameType) (len : Z) : outcome DerpError (bytes * nat) :=
  if decide (length out < HEADER_LEN) then Err ShortBuffer
  else
    let? out := set_at out 0 (frame_type_u8 k) in
    let? out := copy_range out 1 5 (to_be 4 len) in
    Ok (out, HEADER_LEN).

(** ** The format *)

Definition derp_format : FrameFormat (FrameType * Z) DerpError := {|
  header_len := HEADER_LEN;
  decode hdr :=
    match hdr with
    | k :: len =>
        if decide (MAX_FRAME_LEN < from_be len)%Z then inl FrameTooLarge else inr (from_u8 k, from_be len)
    | [] => inl FrameTooLarge
    end;
  Framing.total h := h.2;
  captured h := is_control h.1;
  cap := CONTROL_FRAME_MAX;
  empty_captured h := true;
  captured_as h := (h.1, 0%Z);
|}.

(** What a caller sees of an item: a captured payload through [as_slice]. *)
Definition frame_item (i : Frame) : list (event (FrameType * Z)) :=
  match i with
  | Control k p =>
      match as_slice (E:=DerpError) p with Ok payload => [EvCaptured (k, 0%Z) payload] | _ => [] end
  | Body k n chunk ends => body_events (k, n) chunk ends
  end.

(** ** Proofs *)

(** Where the reader stands in the stream. *)
Definition derp_at (r : FrameReader) : position_in (FrameType * Z) :=
  match state r with
  | Header => InHeader (take (header_have r) (header r))
  | Streaming => InPayload (kind r, total r) (remaining r) None
  | _ => InPayload (kind r, total r) (remaining r) (Some (take (control_len r) (control r)))
  end.

Definition derp_ok (r : FrameReader) : Prop :=
  length (header r) = HEADER_LEN /\ length (control r) = CONTROL_FRAME_MAX /\
  (0 <= remaining r <= MAX_FRAME_LEN)%Z /\
  match state r with
  | Header => header_have r < HEADER_LEN
  | Streaming => header_have r = 0 /\ (0 < remaining r)%Z
  | Buffering => header_have r = 0 /\ (0 < remaining r)%Z /\ control_len r < CONTROL_FRAME_MAX
  | Draining => header_have r = 0 /\ (0 < remaining r)%Z /\ control_len r = CONTROL_FRAME_MAX
  end.

(** The turns still needed with [avail] bytes left. *)
Definition rank (r : FrameReader) (avail : nat) : nat :=
  match state r with
  | Header => 3
  | Buffering => if decide (avail = 0) then 1 else 2
  | _ => 1
  end.

Abbreviation derp_turn := (turn_steps derp_format (fun _ => derp_ok) derp_at frame_item rank).

Lemma header_turn r input pos k : derp_ok r -> state r = Header -> pos <= length input ->
  derp_turn r input pos k (feed_turn r input pos).
Proof.
  intros (Hh & Hc & Hr & Hs) E Hpos. unfold feed_turn. rewrite E in *.
  rewrite !nsub_ok by lia. cbn [obind]. set (n := _ `min` _).
  assert (n <= HEADER_LEN - header_have r /\ n <= length input - pos /\ (n = HEADER_LEN - header_have r \/ n = length input - pos)) as Hn by lia.
  clearbody n. rewrite slice_ok by lia. cbn [obind]. replace (pos + n - pos) with n by lia.
  set (src := take n (drop pos input)). assert (length src = n) as Hsrc by (unfold src; len).
  rewrite copy_range_ok by lia. cbn [obind set_header header header_have].
  set (hdr := overwrite _ _ _). assert (length hdr = HEADER_LEN) as Hl by (unfold hdr; rewrite length_overwrite by lia; done).
  assert (take (header_have r + n) hdr = take (header_have r) (header r) ++ src) as Ht.
  { unfold hdr. rewrite <- Hsrc. apply take_overwrite. lia. }
  assert (length (take (header_have r) (header r)) = header_have r) as Hth by len.
  case_decide as Hd; [|].
  - cbn [turn_steps]. unfold derp_ok, derp_at. cbn. rewrite E, Ht. split_and!; try (done || lia).
    replace (pos + n - pos) with n by lia. fold src. apply run_header. rewrite length_app, Hth, Hsrc. done.
  - assert (header_have r + n = HEADER_LEN) as Hall by lia. rewrite Hall, take_ge in Ht by lia.
    destruct hdr as [|kb [|l0 [|l1 [|l2 [|l3 [|]]]]]]; try done. clear Hl. rewrite (index_ok _ 0 kb) by done. cbn [obind].
    rewrite slice_ok by (simpl; lia). cbn [obind drop take Nat.sub].
    pose proof (from_be_range [l0; l1; l2; l3]) as [Hlen _].
    pose proof (run_header_end derp_format (take (header_have r) (header r)) src) as Hrun.
    cbn [header_len derp_format] in Hrun. rewrite <- Ht in Hrun. specialize (Hrun ltac:(lia) ltac:(done)).
    cbn [decode derp_format] in Hrun. generalize dependent (from_be [l0; l1; l2; l3]). intros len Hlen Hrun.
    case_decide as Hmax.
    + exists n. split; [lia|]. unfold derp_at. rewrite E. exact Hrun.
    + cbn [Framing.total derp_format snd set_frame total kind] in *. case_decide as Hz.
      * cbn [turn_steps]. unfold derp_at at 1. rewrite E. replace (pos + n - pos) with n by lia. fold src. rewrite Hrun.
        unfold derp_ok. cbn. split_and!; try (done || lia).
      * cbn [turn_steps]. unfold derp_at at 1. rewrite E. replace (pos + n - pos) with n by lia. fold src. rewrite Hrun.
        unfold derp_ok, derp_at, rank. rewrite E. cbn. destruct (is_control _); cbn; split_and!; try (done || lia).
        { unfold CONTROL_FRAME_MAX; lia. }
        case_decide; lia.
Qed.

Lemma wrap_small n z : (z <= MAX_FRAME_LEN)%Z -> n <= Z.to_nat z -> wrap 32 (Z.of_nat n) = Z.of_nat n.
Proof. intros. unfold wrap, MAX_FRAME_LEN in *. apply Z.mod_small. lia. Qed.

Lemma streaming_turn r input pos k : derp_ok r -> state r = Streaming -> pos <= length input ->
  derp_turn r input pos k (feed_turn r input pos).
Proof.
  intros (Hh & Hc & Hr & Hs) E Hpos. unfold feed_turn. rewrite E in *. destruct Hs as [H0 Hrem].
  rewrite !nsub_ok by lia. cbn [obind]. case_decide as Hav.
  { cbn [turn_steps]. unfold derp_ok. rewrite E. replace (pos - pos) with 0 by lia.
    unfold derp_at. rewrite E. split_and!; try (done || lia). }
  set (n := _ `min` _).
  assert (n <= Z.to_nat (remaining r) /\ n <= length input - pos /\ 0 < n) as Hn by lia. clearbody n.
  rewrite slice_ok by lia. cbn [obind]. replace (pos + n - pos) with n by lia.
  set (src := take n (drop pos input)). assert (length src = n) as Hsrc by (unfold src; len).
  rewrite (wrap_small n (remaining r)) by lia. rewrite usub_ok by lia. cbn [obind set_payload remaining].
  cbn [turn_steps]. replace (pos + n - pos) with n by lia. fold src. unfold derp_at at 1. rewrite E.
  case_bool_decide as Hz.
  - rewrite run_stream_end by (lia || by intros Hnil; rewrite Hnil in Hsrc; simpl in Hsrc; lia).
    unfold derp_ok, HEADER_LEN. cbn. rewrite H0. split_and!; try (done || lia).
  - rewrite run_stream by lia. unfold derp_ok, derp_at. cbn. rewrite E, Hsrc. split_and!; try (done || lia).
Qed.

Lemma frame_item_control r k : length (control r) = CONTROL_FRAME_MAX -> control_len r <= CONTROL_FRAME_MAX ->
  frame_item (control_frame r k) = [EvCaptured (k, 0%Z) (take (control_len r) (control r))].
Proof. intros Hc Hl. unfold frame_item, control_frame, as_slice. cbn. by rewrite slice_to by lia. Qed.

Lemma buffering_turn r input pos k : derp_ok r -> state r = Buffering -> pos <= length input ->
  derp_turn r input pos k (feed_turn r input pos).
Proof.
  intros (Hh & Hc & Hr & Hs) E Hpos. unfold feed_turn. rewrite E in *. destruct Hs as (H0 & Hrem & Hlen).
  rewrite !nsub_ok by lia. cbn [obind]. case_decide as Hav.
  { cbn [turn_steps]. unfold derp_ok. rewrite E. replace (pos - pos) with 0 by lia.
    unfold derp_at. rewrite E. split_and!; try (done || lia). }
  set (n := (_ `min` _)).
  assert (n <= Z.to_nat (remaining r) /\ n <= length input - pos /\ n <= CONTROL_FRAME_MAX - control_len r /\ 0 < n /\
    (n = Z.to_nat (remaining r) \/ n = length input - pos \/ n = CONTROL_FRAME_MAX - control_len r)) as Hn by lia. clearbody n.
  rewrite slice_ok by lia. cbn [obind]. replace (pos + n - pos) with n by lia.
  set (src := take n (drop pos input)). assert (length src = n) as Hsrc by (unfold src; len).
  assert (src <> []) as Hne by (intros Hnil; rewrite Hnil in Hsrc; simpl in Hsrc; lia).
  rewrite copy_range_ok by lia. cbn [obind]. rewrite (wrap_small n (remaining r)) by lia. rewrite usub_ok by lia.
  pose proof (capture_buffer derp_format (control r) (control_len r) src Hc ltac:(cbn; lia)) as Hcap. rewrite Hsrc in Hcap.
  assert (length (overwrite (control r) (control_len r) src) = CONTROL_FRAME_MAX) as Hco by (rewrite length_overwrite by lia; done).
  cbn [obind]. set (r' := set_payload _ _ _ _). case_decide as Hz; [|case_decide as Hfull].
  - cbn [turn_steps from_option]. replace (pos + n - pos) with n by lia. fold src. unfold derp_at at 1. rewrite E. cbn in Hz.
    rewrite run_captured_end by (done || lia). rewrite frame_item_control by (cbn; lia). cbn [r' set_payload control control_len]. rewrite Hcap.
    unfold derp_ok, HEADER_LEN. cbn. rewrite H0. split_and!; try (done || lia).
  - cbn [turn_steps]. replace (pos + n - pos) with n by lia. fold src. unfold derp_at at 1. rewrite E. cbn in Hz, Hfull.
    rewrite run_captured by lia. rewrite Hcap. unfold derp_ok, derp_at, rank. cbn. rewrite E, Hsrc.
    rewrite (decide_False (P:=length input - pos = 0)) by lia. split_and!; try (done || lia).
  - cbn [turn_steps]. replace (pos + n - pos) with n by lia. fold src. unfold derp_at at 1. rewrite E. cbn in Hz, Hfull.
    rewrite run_captured by lia. rewrite Hcap. unfold derp_ok, derp_at, rank. cbn. rewrite E, Hsrc.
    rewrite (decide_False (P:=length input - pos = 0)) by lia. rewrite (decide_True (P:=length input - (pos + n) = 0)) by lia.
    split_and!; try (done || lia).
Qed.

Lemma draining_turn r input pos k : derp_ok r -> state r = Draining -> pos <= length input ->
  derp_turn r input pos k (feed_turn r input pos).
Proof.
  intros (Hh & Hc & Hr & Hs) E Hpos. unfold feed_turn. rewrite E in *. destruct Hs as (H0 & Hrem & Hlen).
  rewrite !nsub_ok by lia. cbn [obind]. set (n := (_ `min` _)).
  assert (n <= Z.to_nat (remaining r) /\ n <= length input - pos /\ (n = Z.to_nat (remaining r) \/ n = length input - pos)) as Hn by lia.
  clearbody n. rewrite (wrap_small n (remaining r)) by lia. rewrite usub_ok by lia. cbn [obind].
  set (src := take n (drop pos input)). assert (length src = n) as Hsrc by (unfold src; len).
  assert (forall l, capture derp_format (take (control_len r) (control r)) l = take (control_len r) (control r)) as Hcap.
  { intros l. rewrite Hlen. by apply (capture_full derp_format). }
  set (r' := set_payload _ _ _ _). case_decide as Hz; cbn in Hz; cbn [turn_steps from_option]; replace (pos + n - pos) with n by lia; fold src;
    unfold derp_at at 1; rewrite E.
  - rewrite run_captured by lia. rewrite Hcap. unfold derp_ok, derp_at. cbn. rewrite E, Hsrc. split_and!; try (done || lia).
  - assert (src <> []) by (intros Hnil; rewrite Hnil in Hsrc; simpl in Hsrc; lia).
    rewrite run_captured_end by (done || lia). rewrite Hcap, frame_item_control by (cbn; lia).
    unfold derp_ok, HEADER_LEN. cbn. rewrite H0. split_and!; try (done || lia).
Qed.

Lemma feed_turn_steps r input pos k : derp_ok r -> pos <= length input -> derp_turn r input pos k (feed_turn r input pos).
Proof.
  intros Hr Hp. destruct (state r) eqn:E; [by apply header_turn|by apply buffering_turn|by apply streaming_turn|by apply draining_turn].
Qed.

Lemma rank_pos r n : 0 < rank r n <= 3.
Proof. unfold rank. destruct (state r); try lia. case_decide; lia. Qed.

#[export] Instance derp_framing_laws : FramingLaws derp_format.
Proof.
  refine {| reader_ok := fun _ => derp_ok; reader_at := derp_at; item_events := frame_item |}.
  - cbn. unfold HEADER_LEN. lia.
  - intros r input k Hr. unfold feed, derp_framing.
    pose proof (feed_loop_steps feed_turn derp_format (fun _ => derp_ok) derp_at frame_item rank (fun r i p k => feed_turn_steps r i p k)
      (fun r n => proj1 (rank_pos r n)) 3 r input 0 k Hr ltac:(lia) (proj2 (rank_pos _ _))) as Hl.
    rewrite drop_0 in Hl. destruct (feed_loop feed_turn 3 r input 0) as [[[r' n] i]|e| |]; try done.
    + rewrite Nat.sub_0_r in Hl. destruct Hl as (? & ? & ? & ? & ?). split_and!; try (done || lia).
    + destruct Hl as (n & Hn & He). exists n. split; [lia|done].
Defined.

(** ** What the relay's frames become *)

(** A frame as a DERP peer sends it. *)
Definition derp_wire (k : FrameType) (payload : bytes) : bytes :=
  frame_type_u8 k :: to_be 4 (Z.of_nat (length payload)) ++ payload.

(** What is delivered of it: a small frame whole (the first 512 bytes of it), a
    packet byte by byte with its end marked. *)
Definition derp_delivered (k : FrameType) (payload : bytes) : list (event (FrameType * Z)) :=
  if decide (is_control k = true \/ payload = [])
  then [EvCaptured (k, 0%Z) (take CONTROL_FRAME_MAX payload)]
  else body_events (k, Z.of_nat (length payload)) payload true.

Lemma from_u8_frame_type k : from_u8 (frame_type_u8 k) = k.
Proof. by destruct k. Qed.

Lemma derp_wire_frame k payload : (Z.of_nat (length payload) <= MAX_FRAME_LEN)%Z ->
  frame_on_wire derp_format (k, Z.of_nat (length payload)) payload (derp_wire k payload).
Proof.
  intros Hm. exists (frame_type_u8 k :: to_be 4 (Z.of_nat (length payload))). split_and!; [done|by rewrite length_cons, length_to_be| |done].
  cbn [decode derp_format]. unfold MAX_FRAME_LEN in *. rewrite from_to_be_small by lia. rewrite decide_False by lia. by rewrite from_u8_frame_type.
Qed.

Lemma derp_frame_events k payload : frame_events derp_format (k, Z.of_nat (length payload)) payload = derp_delivered k payload.
Proof.
  unfold frame_events, derp_delivered, empty_event. destruct payload as [|b l].
  - rewrite decide_True by (by right). done.
  - cbn [captured derp_format captured_as cap fst]. destruct (is_control k).
    + rewrite decide_True by (by left). done.
    + rewrite decide_False by (intros [|]; done). done.
Qed.

Lemma new_ok : derp_ok new.
Proof. unfold derp_ok, new, HEADER_LEN, MAX_FRAME_LEN. cbn. split_and!; try (done || lia). Qed.

(** ** Whole frames

    Callers put a frame together from its items. *)

(** What is held of the current body, and the frames completed. *)
Fixpoint assemble (held : bytes) (ev : list (event (FrameType * Z))) : bytes * list (FrameType * bytes) :=
  match ev with
  | [] => (held, [])
  | EvCaptured (k, _) p :: ev => let (held, fs) := assemble held ev in (held, (k, p) :: fs)
  | EvEmpty _ :: ev => assemble held ev
  | EvByte (k, _) b true :: ev => let (held', fs) := assemble [] ev in (held', (k, held ++ [b]) :: fs)
  | EvByte _ b false :: ev => assemble (held ++ [b]) ev
  end.

(** A frame as it is put together: of a small one, its first 512 bytes. *)
Definition whole (f : FrameType * bytes) : FrameType * bytes := (f.1, if is_control f.1 then take CONTROL_FRAME_MAX f.2 else f.2).

Definition item_ok (i : Frame) : Prop :=
  match i with Control _ p => cp_len p <= length (cp_buf p) | Body _ _ chunk _ => chunk <> [] end.

Lemma assemble_app held a b :
  assemble held (a ++ b) = let (held, fs) := assemble held a in let (held, fs') := assemble held b in (held, fs ++ fs').
Proof.
  revert held. induction a as [|[[k n] p|h|[k n] c []] a IH]; intros held; cbn [app assemble]; rewrite ?IH; [by destruct (assemble held b)| |done| |done].
  - destruct (assemble held a) as [h1 f1]. by destruct (assemble h1 b).
  - destruct (assemble [] a) as [h1 f1]. by destruct (assemble h1 b).
Qed.

Lemma assemble_body held h chunk ends : chunk <> [] ->
  assemble held (body_events h chunk ends) = if ends then ([], [(h.1, held ++ chunk)]) else (held ++ chunk, []).
Proof.
  destruct h as [k n]. revert held. induction chunk as [|b [|c l] IH]; intros held Hne; [done|by destruct ends|].
  change (body_events (k, n) (b :: c :: l) ends) with (EvByte (k, n) b false :: body_events (k, n) (c :: l) ends).
  cbn [assemble]. rewrite IH by done. by rewrite <- app_assoc.
Qed.

Lemma assemble_frames frames :
  assemble [] (concat (map (fun f => derp_delivered f.1 f.2) frames)) = ([], map whole frames).
Proof.
  induction frames as [|[k p] frames IH]; [done|]. cbn [map concat fst snd]. rewrite assemble_app. unfold derp_delivered at 1.
  destruct (decide (is_control k = true \/ p = [])) as [Hd|Hd].
  - cbn [assemble]. rewrite IH. assert (whole (k, p) = (k, take CONTROL_FRAME_MAX p)) as ->; [|done].
    unfold whole. cbn [fst snd]. f_equal. destruct Hd as [-> | ->]; [done|]. by destruct (is_control k).
  - rewrite assemble_body by (intros ->; tauto). rewrite IH. assert (whole (k, p) = (k, p)) as ->; [|done].
    unfold whole. cbn [fst snd]. f_equal. destruct (is_control k); [tauto|done].
Qed.

Lemma assemble_item held i : item_ok i -> assemble held (frame_item i) =
  match i with
  | Control k p => (held, [(k, take (cp_len p) (cp_buf p))])
  | Body k _ chunk ends => if ends then ([], [(k, held ++ chunk)]) else (held ++ chunk, [])
  end.
Proof.
  destruct i as [k p|k n chunk ends]; cbn [item_ok frame_item]; intros Hi; [|by rewrite assemble_body].
  unfold as_slice. by rewrite slice_to.
Qed.

(** Outside a packet's payload nothing is held. *)
Definition fits (p : position_in (FrameType * Z)) (held : bytes) : Prop :=
  match p with InPayload _ _ None => True | _ => held = [] end.

Lemma step_fits p b q ev held : step derp_format p b = inr (q, ev) -> fits p held -> fits q (assemble held ev).1.
Proof.
  unfold step. destruct p as [have|[k n] rest [c|]]; cbn [fits].
  - intros Hs ->. case_decide; [by simplify_eq|]. destruct (decode _ _) as [|[k n]]; [done|].
    case_decide; simplify_eq; [done|]. by destruct (captured _ _).
  - intros Hs ->. case_decide; by simplify_eq.
  - case_decide; intros Hs _; simplify_eq; done.
Qed.

Lemma run_fits p l q ev held : run derp_format p l = inr (q, ev) -> fits p held -> fits q (assemble held ev).1.
Proof.
  revert p ev held. induction l as [|b l IH]; intros p ev held; cbn [run]; [intros [= <- <-]; done|].
  destruct (step derp_format p b) as [|[p1 ev1]] eqn:Es; [done|]. destruct (run derp_format p1 l) as [|[p2 ev2]] eqn:Er; [done|].
  intros [= <- <-] Hf. apply (step_fits _ _ _ _ held) in Es; [|done]. rewrite assemble_app.
  destruct (assemble held ev1) as [h1 f1]. specialize (IH p1 ev2 h1 Er Es). by destruct (assemble h1 ev2).
Qed.

Lemma captured_fits p l q h c held : run derp_format p l = inr (q, [EvCaptured h c]) -> fits p held -> held = [].
Proof.
  intros Hr Hf. destruct p as [have|[k n] rest [c'|]]; cbn [fits] in Hf; [done..|].
  destruct l as [|b l]; [done|]. cbn [run step] in Hr.
  case_decide; destruct (run derp_format _ l) as [|[p1 ev1]]; simplify_eq.
Qed.

Lemma feed_turn_item_ok r input pos : derp_ok r -> pos <= length input ->
  match feed_turn r input pos with Ok (Return _ _ (Some i)) => item_ok i | _ => True end.
Proof.
  intros (Hh & Hc & Hrem & Hs) Hp.
  destruct (feed_turn r input pos) as [[|r' pos' [i|]]|e| |] eqn:E; try done; revert E; unfold feed_turn;
    destruct (state r) eqn:Es; intros E; inv_ok; simplify_eq/=; unfold item_ok; cbn; try lia.
  - unfold copy_range in H3. case_decide; [|done]. apply Ok_inj in H3 as <-. rewrite length_overwrite; lia.
  - intros ->. apply slice_Ok_inv in H1 as [He ?]. apply nsub_Ok_inv in H as [-> _]. apply (f_equal length) in He.
    rewrite length_take, length_drop in He. simpl in He. lia.
Qed.

Lemma derp_item_ok r input r' n i : derp_ok r -> feed r input = Ok (r', n, Some i) -> item_ok i.
Proof.
  intros Hr. unfold feed, derp_framing. generalize 3, (Nat.le_0_l (length input)). intros fuel. revert r Hr. generalize 0 as pos.
  induction fuel as [|fuel IH]; intros pos r Hr Hp E; [done|]. cbn [feed_loop] in E. apply obind_Ok_inv in E as (t & Et & E).
  pose proof (feed_turn_item_ok r input pos Hr Hp) as Hi. pose proof (feed_turn_steps r input pos 0 Hr Hp) as Hs.
  rewrite Et in Hi, Hs. destruct t as [r1 p1|r1 p1 i1]; cbn [turn_steps] in Hs; [|by simplify_eq].
  destruct Hs as (Hr1 & Hp1 & _). apply (IH p1 r1 Hr1 ltac:(lia) E).
Qed.

(** The relay's frames arrive as they were sent, however TCP and TLS cut
    the stream: any sequence of frames within the size limit, in any reads, is
    delivered frame by frame, nothing lost, merged or left over. *)
Theorem derp_frames_delivered (frames : list (FrameType * bytes)) (reads : list bytes) :
  Forall (fun f => Z.of_nat (length f.2) <= MAX_FRAME_LEN)%Z frames ->
  concat reads = concat (map (fun f => derp_wire f.1 f.2) frames) ->
  exists r items, read_all new reads = Ok (r, items) /\ derp_at r = between /\
    events_of derp_format items = concat (map (fun f => derp_delivered f.1 f.2) frames).
Proof.
  intros Hf Hc.
  destruct (read_frames derp_format new (map (fun f => ((f.1, Z.of_nat (length f.2)), f.2)) frames)
    (map (fun f => derp_wire f.1 f.2) frames) reads 0) as (r & items & Hr & _ & Hp & Hev); [exact new_ok|done| |done|].
  - clear Hc. induction Hf as [|[k p] frames Hp _ IH]; cbn [map]; constructor; [by apply derp_wire_frame|done].
  - exists r, items. split_and!; [done..|]. rewrite Hev, map_map. f_equal. apply map_ext. intros [k p]. apply derp_frame_events.
Qed.

Lemma derp_frames_delivered_witness :
  exists r items, read_all new [[x05; x00; x00]; [x00; x02; xaa]; [xbb; x06]; [x00; x00; x00; x00]] = Ok (r, items) /\ derp_at r = between /\
    events_of derp_format items =
      [EvByte (RecvPacket, 2%Z) xaa false; EvByte (RecvPacket, 2%Z) xbb true; EvCaptured (KeepAlive, 0%Z) []].
Proof.
  apply (derp_frames_delivered [(RecvPacket, [xaa; xbb]); (KeepAlive, [])]); [|reflexivity].
  repeat constructor; vm_compute; discriminate.
Defined.

(** A stream that at a frame boundary announces more than the limit. *)
Definition announces_too_much (s : bytes) : Prop :=
  exists (frames : list (FrameType * Z * bytes)) wires k len rest,
    Forall2 (fun '(h, p) w => frame_on_wire derp_format h p w) frames wires /\
    s = concat wires ++ (k :: len) ++ rest /\ length len = 4 /\ (MAX_FRAME_LEN < from_be len)%Z.

(** Whatever the relay sends is survived: reading never panics and never
    stalls; it is refused exactly when a frame announces more than 64 KiB, at
    its header. *)
Theorem derp_only_oversize_refused (reads : list bytes) :
  ((exists r items, read_all new reads = Ok (r, items)) /\ ~ announces_too_much (concat reads)) \/
  (read_all new reads = Err FrameTooLarge /\ announces_too_much (concat reads)).
Proof.
  pose proof (read_all_spec derp_format new reads 0 new_ok) as Hs. change (reader_at new) with (between (H:=FrameType * Z)) in Hs.
  destruct (read_all new reads) as [[r items]|e| |]; destruct (run derp_format between (concat reads)) as [e'|[p ev]] eqn:E; try done.
  - left. split; [by eexists _, _|]. intros (frames & wires & k & len & rest & Hw & Hc & Hl & Hm).
    rewrite Hc in E. rewrite (run_app_inr _ _ _ _ _ _ (run_frames derp_format frames wires header_pos Hw)) in E.
    rewrite run_app in E. unfold between in E. rewrite (run_header_end derp_format [] (k :: len)) in E by (cbn; unfold HEADER_LEN; lia).
    cbn [app decode derp_format] in E. by rewrite decide_True in E.
  - right. assert (e' = FrameTooLarge /\ announces_too_much (concat reads)) as [-> Ha].
    { destruct (run_error_inv derp_format (concat reads) e') as (frames & wires & hdr & rest & Hw & Hc & Hl & Hd); [apply header_pos| |done|].
      - intros hdr [k n]. destruct hdr as [|b l]; [done|]. cbn. case_decide; [done|]. intros [= <- <-]. apply from_be_range.
      - destruct hdr as [|k len]; [done|]. cbn in Hd. case_decide as Hm; [|done]. split; [congruence|].
        exists frames, wires, k, len, rest. split_and!; try done. cbn in Hl. unfold HEADER_LEN in Hl. lia. }
    cbn in Hs. by subst.
Qed.

(** A header written is the header a reader decodes. *)
Lemma write_header_spec out k n :
  HEADER_LEN <= length out -> write_header out k n = Ok (frame_type_u8 k :: to_be 4 n ++ drop 5 out, 5).
Proof.
  unfold write_header, HEADER_LEN. intros Hl. rewrite decide_False by lia.
  destruct out as [|b out]; [simpl in Hl; lia|]. rewrite set_at_ok by (simpl; lia). cbn [obind insert list_insert].
  rewrite copy_range_ok by len. cbn [obind]. do 2 f_equal.
Qed.
