(* ===== verification/DerpHandshake.v ===== *)
(** The DERP handshake: [derp/handshake.rs]. *)
From S2P Require Import Prelude Crypto Buffer Json Framing DerpFrame.

Definition NONCE_LEN : nat := 24.
Definition TAG_LEN : nat := 16.
Definition PROTOCOL_VERSION : Z := 2.
Definition SEAL_OVERHEAD : nat := NONCE_LEN + TAG_LEN.

Section Handshake.
Context `{P : Primitives}.

(** [seal]: the buffer and the bytes written. *)
Definition seal (client_secret peer_public nonce plaintext out : bytes) : outcome DerpError (bytes * nat) :=
  let total := SEAL_OVERHEAD + length plaintext in
  if decide (length out < total) then Err DerpFrame.ShortBuffer
  else
    let? out := copy_range out 0 NONCE_LEN nonce in
    let? out := copy_range out (NONCE_LEN + TAG_LEN) total plaintext in
    let? body := slice out (NONCE_LEN + TAG_LEN) total in
    let? (ct, tag) := ok_or (box_encrypt peer_public client_secret nonce body) Crypto in
    let? out := copy_range out (NONCE_LEN + TAG_LEN) total ct in
    let? out := copy_range out NONCE_LEN (NONCE_LEN + TAG_LEN) tag in
    Ok (out, total).

(** [open]: the payload decrypted in place and the plaintext in its tail. *)
Definition open (client_secret peer_public payload : bytes) : outcome DerpError (bytes * bytes) :=
  if decide (length payload < SEAL_OVERHEAD) then Err Crypto
  else
    let? nonce := slice payload 0 NONCE_LEN in
    let? tag := slice payload NONCE_LEN (NONCE_LEN + TAG_LEN) in
    let? body := slice payload SEAL_OVERHEAD (length payload) in
    let? p := ok_or (box_decrypt peer_public client_secret nonce body tag) Crypto in
    let? payload := copy_range payload SEAL_OVERHEAD (length payload) p in
    let? p := slice payload SEAL_OVERHEAD (length payload) in
    Ok (payload, p).

(** [client_info_payload]: the buffer and the payload length. *)
Definition client_info_payload (client_secret client_public server_public nonce out : bytes)
    : outcome DerpError (bytes * nat) :=
  let short (e : JsonError) := DerpFrame.ShortBuffer in
  let? w := map_err short (begin_object (jnew (zeros 64))) in
  let? w := map_err short (field_u64 w (bs "Version") PROTOCOL_VERSION) in
  let? w := map_err short (end_object w) in
  let info_len := jlen w in
  if decide (length out < KEY_LEN) then Err DerpFrame.ShortBuffer
  else
    let? out := copy_range out 0 KEY_LEN client_public in
    let? info := slice (w_buf (jw w)) 0 info_len in
    let? tail := slice out KEY_LEN (length out) in
    let? (tail, sealed) := seal client_secret server_public nonce info tail in
    let? out := copy_range out KEY_LEN (length out) tail in
    Ok (out, KEY_LEN + sealed).

(** The NaCl box on the wire: the tag ahead of the ciphertext. *)
Definition boxed (from to_public nonce p : bytes) : option bytes :=
  '(ct, tag) ← box_encrypt to_public from nonce p;
  Some (nonce ++ tag ++ ct).

Context `{L : !PrimitiveLaws P}.

Lemma boxed_ok a pb n p :
  length a = 32 -> length pb = 32 -> length n = NONCE_LEN -> (Z.of_nat (length p) < 2 ^ 32)%Z ->
  exists ct tag, box_encrypt pb a n p = Some (ct, tag) /\ length ct = length p /\ length tag = 16 /\
    boxed a pb n p = Some (n ++ tag ++ ct).
Proof.
  intros Ha Hb Hn Hp. destruct (box_encrypt_ok pb a n p) as (ct & tag & E & Hc & Ht); try done.
  exists ct, tag. split_and!; try done. unfold boxed. by rewrite E.
Qed.

(** With room, [seal] writes the box and nothing else. *)
Lemma seal_spec a pb n p out :
  length a = 32 -> length pb = 32 -> length n = NONCE_LEN -> (Z.of_nat (length p) < 2 ^ 32)%Z ->
  SEAL_OVERHEAD + length p <= length out ->
  exists blob, boxed a pb n p = Some blob /\ length blob = SEAL_OVERHEAD + length p /\
    seal a pb n p out = Ok (blob ++ drop (length blob) out, length blob).
Proof.
  intros Ha Hb Hn Hp Ho. destruct (boxed_ok a pb n p Ha Hb Hn Hp) as (ct & tag & E & Hc & Ht & Hbox).
  exists (n ++ tag ++ ct). unfold SEAL_OVERHEAD, NONCE_LEN, TAG_LEN in *.
  assert (length (n ++ tag ++ ct) = 40 + length p) as Hl by (rewrite !length_app; lia).
  split; [done|split; [done|]]. rewrite Hl. unfold seal, SEAL_OVERHEAD, NONCE_LEN, TAG_LEN. rewrite decide_False by lia.
  destruct (segments [24; 16; length p] out) as (ss & Hss & Hm); [simpl; lia|].
  assert (sum_list [24; 16; length p] = 40 + length p) as Hsum by (simpl; lia). rewrite Hsum in Hss.
  set (r := drop _ out) in *. rewrite Hss at 1.
  destruct ss as [|s0 [|s1 [|s2 [|]]]]; try done. injection Hm as H0 H1 H2. cbn [app].
  copy_step 0 s0. copy_step 2 s2. rewrite (slice_nth _ 2 p) by seg_side. cbn [obind]. rewrite E. cbn [ok_or obind].
  copy_step 2 p. copy_step 1 s1. cbn [concat]. by rewrite app_nil_r, <- !app_assoc.
Qed.

(** The receiver: the blob opens to the plaintext. *)
Lemma open_boxed a b n p blob :
  length a = 32 -> length b = 32 -> length n = NONCE_LEN -> (Z.of_nat (length p) < 2 ^ 32)%Z ->
  boxed a (x25519_public b) n p = Some blob -> exists blob', open b (x25519_public a) blob = Ok (blob', p).
Proof.
  intros Ha Hb Hn Hp Hbox.
  destruct (boxed_ok a (x25519_public b) n p Ha (x25519_public_length b Hb) Hn Hp) as (ct & tag & E & Hc & Ht & Hbox').
  rewrite Hbox' in Hbox. assert (blob = n ++ tag ++ ct) as -> by congruence. clear Hbox Hbox'.
  unfold open, SEAL_OVERHEAD, NONCE_LEN, TAG_LEN in *. assert (length (n ++ tag ++ ct) = 40 + length ct) as Hl by (rewrite !length_app; lia).
  rewrite decide_False by lia. rewrite slice_app_l_exact by done. cbn [obind].
  rewrite (slice_seg n tag) by lia. cbn [obind]. rewrite slice_from by lia. cbn [obind].
  assert (length (n ++ tag) = 40) as Hnt by (rewrite length_app; lia).
  rewrite (app_assoc n), drop_app_length' by done. rewrite (box_decrypt_encrypt a b n p ct tag) by done. cbn [ok_or obind].
  rewrite copy_range_ok by (rewrite length_app; lia). cbn [obind]. rewrite overwrite_app by done. rewrite drop_ge, app_nil_r by lia.
  replace (length ((n ++ tag) ++ ct)) with (length ((n ++ tag) ++ p)) by (rewrite (length_app _ p), (length_app _ ct); lia).
  rewrite slice_from by (rewrite length_app; lia). rewrite drop_app_length' by done. by eexists.
Qed.

Definition VERSION_INFO : bytes := [x7b; x22] ++ bs "Version" ++ [x22; x3a; x32; x7d].

(** The relay learns our key and version: given room, [client_info_payload]
    writes our public key and a box that the server, and only the holder of the
    server's secret by the box's contract, opens to [{Version: 2}]; what it
    needs is 85 bytes. *)
Theorem client_info_accepted (client server nonce out : bytes) :
  length client = 32 -> length server = 32 -> length nonce = NONCE_LEN -> 85 <= length out ->
  exists blob blob', client_info_payload client (x25519_public client) (x25519_public server) nonce out
      = Ok (x25519_public client ++ blob ++ drop 85 out, 85) /\
    boxed client (x25519_public server) nonce VERSION_INFO = Some blob /\
    open server (x25519_public client) blob = Ok (blob', VERSION_INFO).
Proof.
  intros Hc Hs Hn Ho. pose proof (x25519_public_length server Hs) as Hps. pose proof (x25519_public_length client Hc) as Hpc.
  destruct (seal_spec client (x25519_public server) nonce VERSION_INFO (drop 32 out) Hc Hps Hn) as (blob & Hb & Hl & Hseal);
    [by vm_compute|change (SEAL_OVERHEAD + _) with 53; rewrite length_drop; lia|].
  destruct (open_boxed client server nonce VERSION_INFO blob Hc Hs Hn ltac:(by vm_compute) Hb) as (blob' & Hopen).
  exists blob, blob'. split; [|done]. change (SEAL_OVERHEAD + length VERSION_INFO) with 53 in Hl.
  unfold client_info_payload.
  set (w1 := map_err _ (begin_object _)). set (k := fun w => obind (map_err _ (field_u64 w _ _)) _).
  assert (exists w, obind w1 k = (let w := w in
    if decide (length out < KEY_LEN) then Err DerpFrame.ShortBuffer
    else
      let? out := copy_range out 0 KEY_LEN (x25519_public client) in
      let? info := slice (w_buf (jw w)) 0 (jlen w) in
      let? tail := slice out KEY_LEN (length out) in
      let? (tail, sealed) := seal client (x25519_public server) nonce info tail in
      let? out := copy_range out KEY_LEN (length out) tail in
      Ok (out, KEY_LEN + sealed)) /\ slice (E:=DerpError) (w_buf (jw w)) 0 (jlen w) = Ok VERSION_INFO) as (w & -> & Hinfo).
  { exists (JWriter (Writer (VERSION_INFO ++ zeros 51) 13) true). split; [|reflexivity]. unfold k, w1. reflexivity. }
  cbn zeta. unfold KEY_LEN. rewrite decide_False by lia. rewrite copy_range_ok by lia. cbn [obind].
  rewrite Hinfo. cbn [obind]. pose proof (overwrite_app [] out (x25519_public client) 0 eq_refl : overwrite out 0 (x25519_public client) = x25519_public client ++ _) as ->. rewrite Hpc.
  rewrite slice_from by (rewrite length_app, length_drop; lia). rewrite drop_app_length' by done. cbn [obind].
  rewrite Hseal. cbn [obind]. rewrite Hl, drop_drop. cbn [Nat.add].
  rewrite copy_range_ok by (rewrite !length_app, !length_drop; lia). cbn [obind]. rewrite overwrite_app by done.
  rewrite (drop_ge (drop 32 out)), app_nil_r by (rewrite !length_app, !length_drop; lia). done.
Qed.

(** No payload crashes the client, and none is opened that the box does not
    vouch for: [open] yields the decryption of everything after nonce and tag
    or the crypto error. *)
Theorem derp_open_total secret peer payload :
  (exists payload' p, open secret peer payload = Ok (payload', p) /\
     box_decrypt peer secret (take 24 payload) (drop 40 payload) (take 16 (drop 24 payload)) = Some p /\
     payload' = take 40 payload ++ p /\ length p + 40 = length payload) \/
  open secret peer payload = Err Crypto.
Proof.
  unfold open, SEAL_OVERHEAD, NONCE_LEN, TAG_LEN. cbn [Nat.add]. case_decide; [by right|].
  rewrite slice_to, slice_ok, slice_from by lia. cbn [obind Nat.sub].
  destruct (box_decrypt _ _ _ _ _) as [p|] eqn:E; cbn [ok_or obind]; [|by right]. left.
  pose proof (box_decrypt_length _ _ _ _ _ _ E) as Hp. rewrite length_drop in Hp.
  rewrite copy_range_ok by lia. cbn [obind]. unfold overwrite. rewrite drop_ge, app_nil_r by lia.
  replace (length payload) with (length (take 40 payload ++ p)) at 1 by (rewrite length_app, length_take; lia).
  rewrite slice_from by (rewrite length_app, length_take; lia). rewrite drop_app_length' by (rewrite length_take; lia).
  eexists _, _. split_and!; [done|done|done|lia].
Qed.
End Handshake.

(** *** Examples, with the toy primitives *)
#[local] Existing Instances Toy.toy Toy.toy_laws.

Lemma client_info_accepted_witness :
  exists blob blob', client_info_payload (replicate 32 x01) (x25519_public (replicate 32 x01)) (x25519_public (replicate 32 x02))
        (replicate 24 x07) (zeros 128)
      = Ok (x25519_public (replicate 32 x01) ++ blob ++ zeros 43, 85) /\
    boxed (replicate 32 x01) (x25519_public (replicate 32 x02)) (replicate 24 x07) VERSION_INFO = Some blob /\
    open (replicate 32 x02) (x25519_public (replicate 32 x01)) blob = Ok (blob', VERSION_INFO).
Proof.
  apply (client_info_accepted (replicate 32 x01) (replicate 32 x02) (replicate 24 x07) (zeros 128)); try reflexivity.
  vm_compute. lia.
Defined.

Lemma derp_open_total_witness :
  (exists payload' p, open (zeros 32) (zeros 32) (zeros 41) = Ok (payload', p) /\
     box_decrypt (zeros 32) (zeros 32) (zeros 24) [x00] (zeros 16) = Some p /\ payload' = zeros 40 ++ p /\ length p + 40 = 41) \/
  open (zeros 32) (zeros 32) (zeros 41) = Err Crypto.
Proof. exact (derp_open_total (zeros 32) (zeros 32) (zeros 41)). Defined.
