(* ===== verification/ControlResponse.v ===== *)
(** What the control plane tells the node: the response half of [control.rs].

    The netmap stream is an instance of [Framing]; the readers of a response
    are proved against the tree of the JSON they are given. *)
From S2P Require Import Prelude Decimal Utf8 Crypto Keys Framing Json.

Definition EARLY_PAYLOAD_MAGIC : bytes := [xff; xff; xff; x54; x53].

Inductive EarlyPayload := Absent | Incomplete | Present (consumed : nat) (json : bytes).

(** [parse_early_payload]; [usize_bits] is the width of [usize] on the target,
    64 on the host and 32 on the device. *)
Definition parse_early_payload (usize_bits : Z) (buf : bytes) : outcome Empty_set EarlyPayload :=
  let magic := EARLY_PAYLOAD_MAGIC in
  let common := length buf `min` length magic in
  let? b := slice buf 0 common in
  let? m := slice magic 0 common in
  if decide (b <> m) then Ok Absent
  else if decide (length buf < length magic + 4) then Ok Incomplete
  else
    let? l := slice buf (length magic) (length magic + 4) in
    let len := from_be l in
    let start := length magic + 4 in
    let? stop := uadd usize_bits (Z.of_nat start) len in
    if decide (Z.of_nat (length buf) < stop)%Z then Ok Incomplete
    else let? json := slice buf start (Z.to_nat stop) in Ok (Present (Z.to_nat stop) json).

(** ** The netmap stream *)

Record MapFrame := { total_len : Z; chunk : bytes; ends : bool }.
Record MapFrames := { len_buf : bytes; len_have : nat; remaining : Z; total : Z }.

(** [MapFrames::new] *)
Definition map_frames_new : MapFrames := {| len_buf := zeros 4; len_have := 0; remaining := 0; total := 0 |}.

(** The second half of [feed]: a chunk of the current frame. *)
Definition map_feed_body (f : MapFrames) (input : bytes) (pos : nat) : outcome Empty_set (MapFrames * nat * option MapFrame) :=
  let? avail := nsub (length input) pos in
  if decide (avail = 0) then Ok (f, pos, None)
  else
    let n := Z.to_nat (remaining f) `min` avail in
    let? c := slice input pos (pos + n) in
    let? rem := usub (remaining f) (wrap 32 (Z.of_nat n)) in
    let f := {| len_buf := len_buf f; len_have := len_have f; remaining := rem; total := total f |} in
    let pos := pos + n in
    Ok (f, pos, Some {| total_len := total f; chunk := c; ends := bool_decide (remaining f = 0)%Z |}).

(** [MapFrames::feed] *)
Definition map_feed (f : MapFrames) (input : bytes) : outcome Empty_set (MapFrames * nat * option MapFrame) :=
  if decide (remaining f = 0)%Z then
    let? need := nsub 4 (len_have f) in
    let n := need `min` length input in
    let? src := slice input 0 n in
    let? buf := copy_range (len_buf f) (len_have f) (len_have f + n) src in
    let have := len_have f + n in
    if decide (have < 4) then Ok ({| len_buf := buf; len_have := have; remaining := remaining f; total := total f |}, n, None)
    else
      let len := from_le buf in
      let f := {| len_buf := buf; len_have := 0; remaining := len; total := len |} in
      if decide (len = 0)%Z then Ok (f, n, Some {| total_len := 0; chunk := []; ends := true |})
      else map_feed_body f input n
  else map_feed_body f input 0.

#[export] Instance map_framing : Framing MapFrames MapFrame Empty_set := {| feed := map_feed |}.

(** ** Peers *)

Record PeerInfo := {
  node_key : NodePublic;
  disco_key : option DiscoPublic;
  home_derp : Z;
  online : bool;
  allowed_ips : bytes;
}.

Definition derp_region (s : bytes) : option Z :=
  and_then (strip_prefix s (bs "127.3.3.40:")) (parse_uint u32_max).

(** The closures of [peers]: the array under a key, and a field of a node. *)
Definition peer_list (netmap k : bytes) : outcome JsonError bytes :=
  let? r := result_ok (field netmap k) in
  Ok match r with Some (Some (VRaw l)) => l | _ => [] end.
Definition peer_get (node k : bytes) : outcome JsonError (option Value) :=
  let? r := result_ok (field node k) in Ok (mjoin r).

(** The [filter_map] of [peers]. *)
Definition peer_info (entry : Value) : outcome JsonError (option PeerInfo) :=
  match entry with
  | VRaw node =>
      let? k := peer_get node (bs "Key") in
      match and_then k as_str with
      | None => Ok None
      | Some s =>
          let? nk := result_ok (parse s) in
          match nk with
          | None => Ok None
          | Some nk =>
              let? d := peer_get node (bs "DiscoKey") in
              let? dk := match and_then d as_str with None => Ok None | Some s => result_ok (parse s) end in
              let? h := peer_get node (bs "HomeDERP") in
              let? r :=
                match and_then h (fun v => match v with VNumber n => parse_uint u32_max n | _ => None end) with
                | Some r => Ok (Some r)
                | None => let? d := peer_get node (bs "DERP") in Ok (and_then (and_then d as_str) derp_region)
                end in
              let? o := peer_get node (bs "Online") in
              let? a := peer_get node (bs "AllowedIPs") in
              let? a := match a with Some v => Ok (Some v) | None => peer_get node (bs "Addresses") end in
              Ok (Some {| node_key := nk; disco_key := dk; home_derp := default 0%Z r;
                          online := default false (and_then o as_bool);
                          allowed_ips := match a with Some (VRaw r) => r | _ => [] end |})
          end
      end
  | _ => Ok None
  end.

Fixpoint filter_peers (vs : list Value) : outcome JsonError (list PeerInfo) :=
  match vs with
  | [] => Ok []
  | v :: vs =>
      let? p := peer_info v in
      let? ps := filter_peers vs in
      Ok (option_list p ++ ps)
  end.

(** [peers]: the iterator run to its end. *)
Definition peers (netmap : bytes) : outcome JsonError (list PeerInfo) :=
  let? a := peer_list netmap (bs "Peers") in
  let? b := peer_list netmap (bs "PeersChanged") in
  let? va := collect (S (length a)) (elements a) in
  let? vb := collect (S (length b)) (elements b) in
  filter_peers (va ++ vb).

(** ** Register response *)

Record RegisterResponse := {
  machine_authorized : bool;
  node_key_expired : bool;
  auth_url : bytes;
  error : bytes;
}.

Definition is_success (r : RegisterResponse) : bool :=
  bool_decide (error r = []) && bool_decide (auth_url r = []) && negb (node_key_expired r).

(** The closures [s] and [b]. *)
Definition response_str (body k : bytes) : outcome JsonError bytes :=
  let? o := field body k in Ok (default [] (and_then o as_str)).
Definition response_bool (body k : bytes) : outcome JsonError bool :=
  let? o := field body k in Ok (default false (and_then o as_bool)).

Definition parse_register_response (body : bytes) : outcome JsonError RegisterResponse :=
  let? ma := response_bool body (bs "MachineAuthorized") in
  let? ne := response_bool body (bs "NodeKeyExpired") in
  let? au := response_str body (bs "AuthURL") in
  let? er := response_str body (bs "Error") in
  Ok {| machine_authorized := ma; node_key_expired := ne; auth_url := au; error := er |}.

Definition nested_str (raw : Value) (key : bytes) : outcome JsonError (option bytes) :=
  match raw with
  | VRaw b => let? r := result_ok (field b key) in Ok (and_then (mjoin r) as_str)
  | _ => Ok None
  end.
Definition nested_raw (raw : Value) (key : bytes) : outcome JsonError (option bytes) :=
  match raw with
  | VRaw b => let? r := result_ok (field b key) in Ok match r with Some (Some (VRaw inner)) => Some inner | _ => None end
  | _ => Ok None
  end.

(** ** Proofs: the early payload *)

(** The decision as a function of the bytes. *)
Definition early_of (buf : bytes) : EarlyPayload :=
  let len := Z.to_nat (from_be (take 4 (drop 5 buf))) in
  if decide (take 5 buf <> take (length buf) EARLY_PAYLOAD_MAGIC) then Absent
  else if decide (length buf < 9) then Incomplete
  else if decide (length buf < 9 + len) then Incomplete
  else Present (9 + len) (take len (drop 9 buf)).

Lemma early_spec buf : parse_early_payload 64 buf = Ok (early_of buf).
Proof.
  unfold parse_early_payload, early_of. change (length EARLY_PAYLOAD_MAGIC) with 5. change (5 + 4) with 9.
  rewrite !slice_to by (change (length EARLY_PAYLOAD_MAGIC) with 5; lia). cbn [obind].
  assert (take (length buf `min` 5) buf = take 5 buf) as ->.
  { destruct (decide (length buf <= 5)); [rewrite !take_ge by lia; done|]. by replace (length buf `min` 5) with 5 by lia. }
  assert (take (length buf `min` 5) EARLY_PAYLOAD_MAGIC = take (length buf) EARLY_PAYLOAD_MAGIC) as ->.
  { destruct (decide (length buf <= 5)); [by replace (length buf `min` 5) with (length buf) by lia|].
    rewrite !take_ge; [done|change (length EARLY_PAYLOAD_MAGIC) with 5; lia..]. }
  case_decide; [done|]. case_decide; [done|]. rewrite slice_ok by lia. cbn [obind]. change (9 - 5) with 4.
  set (l := take 4 (drop 5 buf)). pose proof (from_be_range l) as Hr.
  assert (length l = 4) as Hl by (unfold l; rewrite length_take, length_drop; lia). rewrite Hl in Hr. change (256 ^ Z.of_nat 4)%Z with (2 ^ 32)%Z in Hr.
  rewrite uadd_ok by lia. cbn [obind].
  destruct (decide (length buf < 9 + Z.to_nat (from_be l))).
  - by rewrite !decide_True by lia.
  - rewrite !decide_False by lia. rewrite slice_ok by lia. cbn [obind]. do 2 f_equal; [lia|]. f_equal. lia.
Qed.

Lemma early_magic buf : take 5 buf = take (length buf) EARLY_PAYLOAD_MAGIC <-> exists more, starts_with (buf ++ more) EARLY_PAYLOAD_MAGIC = true.
Proof.
  split.
  - intros H. destruct (decide (5 <= length buf)) as [Hl|Hl].
    + exists []. rewrite app_nil_r. apply starts_with_true. exists (drop 5 buf).
      rewrite (take_ge EARLY_PAYLOAD_MAGIC) in H by done. rewrite <- H. by rewrite take_drop.
    + rewrite take_ge in H by lia. exists (drop (length buf) EARLY_PAYLOAD_MAGIC). apply starts_with_true. exists [].
      rewrite H at 1. by rewrite take_drop, app_nil_r.
  - intros [more [r Hr]%starts_with_true]. apply (f_equal (fun l => take (length buf) (take 5 l))) in Hr.
    rewrite (take_app_length' EARLY_PAYLOAD_MAGIC r 5 eq_refl) in Hr. rewrite <- Hr, take_take.
    destruct (decide (length buf <= 5)).
    + rewrite take_app_le, !take_ge by lia. done.
    + rewrite take_app_le by lia. f_equal. lia.
Qed.

Lemma early_wire json rest : (Z.of_nat (length json) < 2 ^ 32)%Z ->
  early_of (EARLY_PAYLOAD_MAGIC ++ to_be 4 (Z.of_nat (length json)) ++ json ++ rest) = Present (9 + length json) json.
Proof.
  intros Hj. unfold early_of. set (n := to_be 4 _). assert (length n = 4) as Hn by apply length_to_be.
  assert (take 5 (EARLY_PAYLOAD_MAGIC ++ n ++ json ++ rest) = EARLY_PAYLOAD_MAGIC) as -> by by apply take_app_length'.
  rewrite (take_ge EARLY_PAYLOAD_MAGIC) by (rewrite length_app; lia). rewrite decide_False by auto.
  rewrite (drop_app_length' EARLY_PAYLOAD_MAGIC _ 5) by done. rewrite (take_app_length' n) by done.
  assert (from_be n = Z.of_nat (length json)) as -> by (apply from_to_be_small; lia). rewrite Nat2Z.id.
  rewrite !length_app, Hn. change (length EARLY_PAYLOAD_MAGIC) with 5. rewrite !decide_False by lia.
  f_equal. rewrite (app_assoc EARLY_PAYLOAD_MAGIC), drop_app_length' by (rewrite length_app, Hn; done). by rewrite take_app_length.
Qed.

Lemma early_wire_prefix json k : let wire := EARLY_PAYLOAD_MAGIC ++ to_be 4 (Z.of_nat (length json)) ++ json in
  (Z.of_nat (length json) < 2 ^ 32)%Z -> k < length wire -> early_of (take k wire) = Incomplete.
Proof.
  intros wire Hj Hk. assert (length wire = 9 + length json) as Hw by (unfold wire; rewrite !length_app, length_to_be; done).
  unfold early_of. rewrite length_take. replace (k `min` length wire) with k by lia.
  rewrite decide_False.
  2:{ intros Hne. apply Hne. rewrite take_take, (Nat.min_comm 5 k), <- take_take. unfold wire. by rewrite (take_app_length' EARLY_PAYLOAD_MAGIC _ 5). }
  case_decide as H9; [done|]. rewrite decide_True; [done|].
  assert (take 4 (drop 5 (take k wire)) = to_be 4 (Z.of_nat (length json))) as ->.
  { unfold wire. rewrite (take_app EARLY_PAYLOAD_MAGIC). change (length EARLY_PAYLOAD_MAGIC) with 5.
    rewrite (take_ge EARLY_PAYLOAD_MAGIC) by (change (length EARLY_PAYLOAD_MAGIC) with 5; lia).
    rewrite drop_app_length' by done. rewrite take_app. rewrite (take_ge (to_be _ _)) by (rewrite length_to_be; lia).
    by rewrite take_app_length' by by rewrite length_to_be. }
  rewrite from_to_be_small, Nat2Z.id by lia. lia.
Qed.

Lemma early_decided buf :
  match early_of buf with
  | Absent => ~ (exists more, starts_with (buf ++ more) EARLY_PAYLOAD_MAGIC = true)
  | Incomplete => exists more, starts_with (buf ++ more) EARLY_PAYLOAD_MAGIC = true
  | Present n json => buf = EARLY_PAYLOAD_MAGIC ++ to_be 4 (Z.of_nat (length json)) ++ json ++ drop n buf
  end.
Proof.
  unfold early_of. case_decide as Hm; [by rewrite <- early_magic|].
  case_decide as H9; [by apply early_magic|]. case_decide as Hl; [by apply early_magic|].
  rewrite (take_ge EARLY_PAYLOAD_MAGIC) in Hm by (change (length EARLY_PAYLOAD_MAGIC) with 5; lia). set (l := take 4 (drop 5 buf)) in *. pose proof (from_be_range l) as [Hr _].
  rewrite length_take, length_drop. replace (Z.to_nat (from_be l) `min` (length buf - 9)) with (Z.to_nat (from_be l)) by lia.
  rewrite Z2Nat.id by done. assert (length l = 4) as Hl4 by (unfold l; rewrite length_take, length_drop; lia).
  assert (to_be 4 (from_be l) = l) as -> by (rewrite <- Hl4; apply to_from_be). rewrite <- Hm.
  rewrite <- (take_drop 5 buf) at 1. f_equal. rewrite <- (take_drop 4 (drop 5 buf)) at 1. fold l. f_equal.
  rewrite drop_drop. rewrite <- (take_drop (Z.to_nat (from_be l)) (drop (5 + 4) buf)) at 1.
  f_equal. by rewrite drop_drop.
Qed.

Lemma early_stable buf more : early_of buf <> Incomplete -> early_of (buf ++ more) = early_of buf.
Proof.
  intros Hd. pose proof (early_decided buf) as Hb. destruct (early_of buf) as [| |n json] eqn:E; [|done|].
  - unfold early_of. rewrite decide_True; [done|]. rewrite early_magic. intros [m Hm]. apply Hb. exists (more ++ m). by rewrite app_assoc.
  - assert (n = 9 + length json /\ (Z.of_nat (length json) < 2 ^ 32)%Z) as [Hn Hj].
    { unfold early_of in E. repeat case_decide; try done. injection E as <- <-. rewrite length_take, length_drop.
      pose proof (from_be_range (take 4 (drop 5 buf))) as Hr. rewrite length_take, length_drop in Hr.
      replace (4 `min` (length buf - 5)) with 4 in Hr by lia. change (256 ^ Z.of_nat 4)%Z with (2 ^ 32)%Z in Hr. lia. }
    rewrite Hb at 1. rewrite <- !app_assoc, early_wire by done. f_equal. lia.
Qed.

(** The early payload is told apart from HTTP/2 as soon as the bytes allow
    and never wrongly, on a 64-bit [usize]: its encoding is recognised whole
    with exactly its length and JSON, every strict prefix of it asks for more,
    anything that departs from the magic is HTTP/2, and no decision is changed
    by later bytes. On a 32-bit one the sum of the offset and an announced length
    near 2^32 leaves the type, and nine bytes from the server are a crash. *)
Theorem early_payload_stream (buf : bytes) :
  (forall json rest, (Z.of_nat (length json) < 2 ^ 32)%Z ->
     let wire := EARLY_PAYLOAD_MAGIC ++ to_be 4 (Z.of_nat (length json)) ++ json in
     parse_early_payload 64 (wire ++ rest) = Ok (Present (length wire) json) /\
     (forall k, k < length wire -> parse_early_payload 64 (take k wire) = Ok Incomplete)) /\
  (exists d, parse_early_payload 64 buf = Ok d /\
     match d with
     | Absent => ~ (exists more, starts_with (buf ++ more) EARLY_PAYLOAD_MAGIC = true)
     | Incomplete => exists more, starts_with (buf ++ more) EARLY_PAYLOAD_MAGIC = true
     | Present n json => buf = EARLY_PAYLOAD_MAGIC ++ to_be 4 (Z.of_nat (length json)) ++ json ++ drop n buf
     end /\
     forall more, d <> Incomplete -> parse_early_payload 64 (buf ++ more) = Ok d) /\
  parse_early_payload 32 (EARLY_PAYLOAD_MAGIC ++ [xff; xff; xff; xff]) = Panic.
Proof.
  split; [|split; [|reflexivity]].
  - intros json rest Hj wire. split.
    + rewrite early_spec. f_equal. unfold wire. rewrite <- !app_assoc, early_wire by done. f_equal.
    + intros k Hk. rewrite early_spec. f_equal. by apply early_wire_prefix.
  - exists (early_of buf). split_and!; [apply early_spec|apply early_decided|]. intros more Hd. rewrite early_spec. f_equal. by apply early_stable.
Qed.

Lemma early_payload_stream_witness :
  let wire := EARLY_PAYLOAD_MAGIC ++ to_be 4 2 ++ bs "{}" in
  parse_early_payload 64 (wire ++ bs "h2") = Ok (Present (length wire) (bs "{}")) /\
  (forall k, k < length wire -> parse_early_payload 64 (take k wire) = Ok Incomplete).
Proof.
  destruct (early_payload_stream []) as [H _]. destruct (H (bs "{}") (bs "h2") ltac:(vm_compute; reflexivity)) as [H1 H2]. split; [exact H1|exact H2].
Defined.

(** ** Proofs: the netmap stream *)

Definition map_format : FrameFormat Z Empty_set := {|
  header_len := 4;
  decode b := inr (from_le b);
  Framing.total n := n;
  captured _ := false;
  cap := 0;
  empty_captured _ := false;
  captured_as n := n;
|}.

Definition map_seen (f : MapFrame) : list (event Z) :=
  match chunk f with [] => [EvEmpty (total_len f)] | c => body_events (total_len f) c (ends f) end.

Definition map_at (f : MapFrames) : position_in Z :=
  if decide (remaining f = 0)%Z then InHeader (take (len_have f) (len_buf f)) else InPayload (total f) (remaining f) None.

Definition map_ok (f : MapFrames) : Prop :=
  length (len_buf f) = 4 /\ (0 <= remaining f < 2 ^ 32)%Z /\ len_have f < 4 /\ (remaining f <> 0%Z -> len_have f = 0).

(** What [feed] does from position [pos] of a read. *)
Definition map_steps (f : MapFrames) (input : bytes) (pos : nat) (m : outcome Empty_set (MapFrames * nat * option MapFrame)) : Prop :=
  match m with
  | Ok (f', n, i) =>
      map_ok f' /\ pos <= n <= length input /\ (pos < length input -> pos < n) /\ (i = None -> n = length input) /\
      run map_format (map_at f) (take (n - pos) (drop pos input)) = inr (map_at f', from_option map_seen [] i)
  | _ => False
  end.

Lemma map_body_steps f input pos : map_ok f -> (0 < remaining f)%Z -> pos <= length input ->
  map_steps f input pos (map_feed_body f input pos).
Proof.
  intros (Hb & Hr & Hh & H0) Hpos Hp. specialize (H0 ltac:(lia)). unfold map_feed_body. rewrite nsub_ok by lia. cbn [obind].
  unfold map_at. case_decide as Hav.
  { cbn [map_steps]. unfold map_ok, map_at. replace (pos - pos) with 0 by lia. rewrite decide_False by lia. split_and!; try (done || lia). }
  set (n := _ `min` _). assert (n <= Z.to_nat (remaining f) /\ n <= length input - pos /\ 0 < n) as Hn by lia. clearbody n.
  rewrite slice_ok by lia. cbn [obind]. replace (pos + n - pos) with n by lia.
  set (src := take n (drop pos input)). assert (length src = n) as Hsrc by (unfold src; len).
  assert (src <> []) as Hne by (intros Hnil; rewrite Hnil in Hsrc; simpl in Hsrc; lia).
  assert (wrap 32 (Z.of_nat n) = Z.of_nat n) as -> by (unfold wrap; apply Z.mod_small; lia).
  rewrite usub_ok by lia. cbn [obind map_steps]. replace (pos + n - pos) with n by lia. fold src.
  assert (map_seen {| total_len := total f; chunk := src; ends := bool_decide (remaining f - Z.of_nat n = 0)%Z |}
    = body_events (total f) src (bool_decide (remaining f - Z.of_nat n = 0)%Z)) as Hseen by (unfold map_seen; cbn; by destruct src).
  cbn [from_option remaining total]. rewrite Hseen. clear Hseen. unfold map_at. rewrite (decide_False (P:=remaining f = 0%Z)) by lia. cbn [remaining].
  case_bool_decide as Hz.
  - rewrite run_stream_end by (done || lia). rewrite decide_True by done. unfold map_ok. cbn. rewrite H0. split_and!; try (done || lia).
  - rewrite run_stream by lia. rewrite decide_False by done. unfold map_ok. cbn. rewrite Hsrc. split_and!; try (done || lia).
Qed.

Lemma map_feed_steps f input : map_ok f -> map_steps f input 0 (map_feed f input).
Proof.
  intros Hok. pose proof Hok as (Hb & Hr & Hh & H0). unfold map_feed. case_decide as Hz.
  2:{ apply map_body_steps; [done|lia|lia]. }
  rewrite nsub_ok by lia. cbn [obind]. set (n := _ `min` _).
  assert (n <= 4 - len_have f /\ n <= length input /\ (n = 4 - len_have f \/ n = length input)) as Hn by lia. clearbody n.
  rewrite slice_to by lia. cbn [obind]. set (src := take n input). assert (length src = n) as Hsrc by (unfold src; len).
  rewrite copy_range_ok by lia. cbn [obind]. set (buf := overwrite _ _ _). assert (length buf = 4) as Hl by (unfold buf; by rewrite length_overwrite by lia).
  assert (take (len_have f + n) buf = take (len_have f) (len_buf f) ++ src) as Ht.
  { unfold buf. rewrite <- Hsrc. apply take_overwrite. lia. }
  assert (length (take (len_have f) (len_buf f)) = len_have f) as Hth by len.
  assert (map_at f = InHeader (take (len_have f) (len_buf f))) as Hat by (unfold map_at; by rewrite decide_True).
  case_decide as Hd.
  - cbn [map_steps]. rewrite Nat.sub_0_r, drop_0. fold src. rewrite Hat, run_header by (cbn; rewrite length_app; lia).
    unfold map_ok, map_at. cbn. rewrite decide_True by done. rewrite Ht. split_and!; try (done || lia).
  - rewrite take_ge in Ht by lia.
    pose proof (run_header_end map_format (take (len_have f) (len_buf f)) src) as Hrun. cbn [header_len map_format] in Hrun.
    rewrite <- Ht in Hrun. specialize (Hrun ltac:(lia) ltac:(lia)). cbn [decode map_format Framing.total captured] in Hrun.
    pose proof (from_le_range buf) as Hlen. rewrite Hl in Hlen. change (256 ^ Z.of_nat 4)%Z with (2 ^ 32)%Z in Hlen.
    case_decide as Hzero.
    + cbn [map_steps]. rewrite Nat.sub_0_r, drop_0. fold src. rewrite Hat, Hrun. unfold map_ok, map_at. cbn. rewrite decide_True by done.
      split_and!; try (done || lia). by rewrite Hzero.
    + set (f1 := {| len_buf := buf; len_have := 0; remaining := _; total := _ |}).
      pose proof (map_body_steps f1 input n) as Hs. destruct (map_feed_body f1 input n) as [[[f' m] i]|e| |]; cbn [map_steps] in *;
        try (apply Hs; [unfold map_ok; cbn; lia|cbn; lia|lia]).
      destruct Hs as (Hf' & Hm & Hprog & Hnone & Hrun'); [unfold map_ok; cbn; lia|cbn; lia|lia|].
      split_and!; try (done || lia). rewrite Nat.sub_0_r, drop_0, Hat.
      replace m with (n + (m - n)) by lia. rewrite <- take_take_drop. fold src. rewrite (run_app_inr _ _ _ _ _ _ Hrun).
      unfold map_at in Hrun' at 1. cbn [remaining total f1] in Hrun'. rewrite decide_False in Hrun' by done. rewrite Hrun'. done.
Qed.

#[export] Instance map_framing_laws : FramingLaws map_format.
Proof.
  refine {| reader_ok := fun _ => map_ok; reader_at := map_at; item_events := map_seen |}.
  - cbn. lia.
  - intros f input k Hf. pose proof (map_feed_steps f input Hf) as Hs. unfold feed, map_framing.
    destruct (map_feed f input) as [[[f' n] i]|e| |]; cbn [map_steps] in Hs; try done.
    rewrite Nat.sub_0_r, drop_0 in Hs. destruct Hs as (? & ? & ? & ? & ?). split_and!; try (done || lia).
Defined.

Lemma map_new_ok : map_ok map_frames_new.
Proof. unfold map_ok, map_frames_new. cbn [len_buf remaining len_have]. split_and!; [done|lia..|done]. Qed.

(** A netmap frame on the wire, and what is delivered of it: a keep-alive, or
    its bytes with the last one marked. *)
Definition map_wire (p : bytes) : bytes := to_le 4 (Z.of_nat (length p)) ++ p.
Definition map_delivered (p : bytes) : list (event Z) :=
  match p with [] => [EvEmpty 0%Z] | _ => body_events (Z.of_nat (length p)) p true end.

(** The netmap stream is split at its frames, however HTTP/2 cuts it: every
    frame below 4 GiB comes out with its bytes, its length and its end, and a
    zero length as a keep-alive. *)
Theorem map_frames_delivered (frames reads : list bytes) :
  Forall (fun p => Z.of_nat (length p) < 2 ^ 32)%Z frames -> concat reads = concat (map map_wire frames) ->
  exists f items, read_all map_frames_new reads = Ok (f, items) /\ map_at f = between /\
    events_of map_format items = concat (map map_delivered frames).
Proof.
  intros Hf Hc.
  destruct (read_frames map_format map_frames_new (map (fun p => (Z.of_nat (length p), p)) frames) (map map_wire frames) reads 0)
    as (f & items & Hr & _ & Hp & Hev); [exact map_new_ok|done| |done|].
  - clear Hc. induction Hf as [|p frames Hp _ IH]; cbn [map]; constructor; [|done].
    exists (to_le 4 (Z.of_nat (length p))). split_and!; try done. cbn [decode map_format]. f_equal. apply from_to_le_small. lia.
  - exists f, items. split_and!; [done..|]. rewrite Hev, map_map. f_equal. apply map_ext. intros p. by destruct p.
Qed.

Lemma map_frames_delivered_witness :
  exists f items, read_all map_frames_new [[x02; x00]; [x00; x00; x7b]; [x7d; x00; x00; x00; x00]] = Ok (f, items) /\ map_at f = between /\
    events_of map_format items = [EvByte 2%Z x7b false; EvByte 2%Z x7d true; EvEmpty 0%Z].
Proof. apply (map_frames_delivered [bs "{}"; []]); [repeat constructor; vm_compute; reflexivity|reflexivity]. Defined.

(** ** Proofs: peers and responses *)

Fixpoint elem_list (es : elems) : list jv := match es with ENil => [] | ECons _ v _ es => v :: elem_list es end.
Definition array_at (k : bytes) (ms : members) : list jv :=
  match lookup_member k ms with Some (JArr _ es) => elem_list es | _ => [] end.
Definition raw_text (v : jv) : bytes := match v with JObj _ _ | JArr _ _ => text v | _ => [] end.
Definition ok_of {E A} (m : outcome E A) : option A := match m with Ok a => Some a | _ => None end.
Definition jv_str (v : jv) : option bytes := match v with JStr s => Some s | _ => None end.
Definition jv_bool (v : jv) : option bool := match v with JBool b => Some b | _ => None end.
Definition jv_uint (v : jv) : option Z := match v with JNum n => parse_uint u32_max n | _ => None end.

(** What a node of the netmap says about a peer, as JSON: [None] without a
    readable node key; the region from [HomeDERP] or else from the placeholder
    address; the routes from [AllowedIPs] or else the addresses. *)
Definition peer_of_node (ms : members) : option PeerInfo :=
  let get k := lookup_member k ms in
  match and_then (and_then (get (bs "Key")) jv_str) (fun s => ok_of (parse s)) with
  | None => None
  | Some nk => Some {|
      node_key := nk;
      disco_key := and_then (and_then (get (bs "DiscoKey")) jv_str) (fun s => ok_of (parse s));
      home_derp := match and_then (get (bs "HomeDERP")) jv_uint with
                   | Some r => r
                   | None => default 0%Z (and_then (and_then (get (bs "DERP")) jv_str) derp_region)
                   end;
      online := default false (and_then (get (bs "Online")) jv_bool);
      allowed_ips := match get (bs "AllowedIPs") with
                     | Some v => raw_text v
                     | None => from_option raw_text [] (get (bs "Addresses"))
                     end |}
  end.
Definition peer_of (v : jv) : option PeerInfo := match v with JObj _ ms => peer_of_node ms | _ => None end.
Definition peers_of (ms : members) : list PeerInfo := omap peer_of (array_at (bs "Peers") ms ++ array_at (bs "PeersChanged") ms).

Lemma elem_values_list es : elem_values es = map value_of (elem_list es).
Proof. induction es as [|w0 v w1 es IH]; [done|]. cbn. by rewrite IH. Qed.

Lemma elem_list_ok es : elems_ok es = true -> Forall (fun v => jv_ok v = true) (elem_list es).
Proof.
  induction es as [|w0 v w1 es IH]; cbn [elem_list elems_ok]; [constructor|]. rewrite !andb_true_iff. intros (((? & ?) & ?) & ?).
  constructor; auto.
Qed.

Lemma elem_list_length first es : elems_ok es = true -> length (elem_list es) <= length (text_elems first es).
Proof.
  revert first. induction es as [|w0 v w1 es IH]; intros first; cbn [elem_list elems_ok text_elems length]; [lia|].
  rewrite !andb_true_iff. intros (((_ & Hv) & _) & Hes). specialize (IH false Hes). destruct (text_head v Hv) as (b & t & -> & _).
  rewrite !length_app. cbn [length]. lia.
Qed.

Lemma key_parse_ok {k} s : exists o, result_ok (F:=JsonError) (parse (k:=k) s) = Ok o /\ o = ok_of (parse (k:=k) s).
Proof.
  unfold parse. destruct (strip_prefix s (PREFIX k)) as [h|]; cbn [ok_or obind]; [|by eexists].
  destruct (parse_hex_total k h) as [(p & -> & _)| ->]; by eexists.
Qed.

Lemma field_text_exact w ms want : jv_ok (JObj w ms) = true -> field (text (JObj w ms)) want = Ok (value_of <$> lookup_member want ms).
Proof. intros H. rewrite <- (app_nil_r (text (JObj w ms))). by apply (field_text w ms [] []). Qed.

Lemma peer_get_obj w ms k : jv_ok (JObj w ms) = true -> peer_get (text (JObj w ms)) k = Ok (value_of <$> lookup_member k ms).
Proof. intros H. unfold peer_get. by rewrite field_text_exact. Qed.

Lemma seen_str o : and_then (value_of <$> o) as_str = and_then o jv_str.
Proof. destruct o as [v|]; [by destruct v|done]. Qed.
Lemma seen_bool o : and_then (value_of <$> o) as_bool = and_then o jv_bool.
Proof. destruct o as [v|]; [by destruct v|done]. Qed.

Lemma peer_info_value v : jv_ok v = true -> peer_info (value_of v) = Ok (peer_of v).
Proof.
  intros Hv. destruct v as [s|d|b| |w ms|w es]; try done.
  cbn [value_of peer_info peer_of]. rewrite !peer_get_obj by done. unfold peer_of_node. cbn [obind]. rewrite !seen_str, seen_bool.
    destruct (and_then (lookup_member (bs "Key") ms) jv_str) as [s|]; [|done]. cbn [and_then].
    destruct (key_parse_ok (k:=Node) s) as (o & -> & ->). cbn [obind]. destruct (ok_of (parse s)) as [nk|]; [|done].
    assert (match and_then (lookup_member (bs "DiscoKey") ms) jv_str with None => Ok None | Some s => result_ok (parse s) end
      = Ok (E:=JsonError) (and_then (and_then (lookup_member (bs "DiscoKey") ms) jv_str) (fun s => ok_of (parse (k:=Keys.Disco) s)))) as ->.
    { destruct (and_then _ jv_str) as [d|]; [|done]. by destruct (key_parse_ok (k:=Keys.Disco) d) as (o & -> & ->). }
    cbn [obind].
    assert (and_then (value_of <$> lookup_member (bs "HomeDERP") ms) (fun v => match v with VNumber n => parse_uint u32_max n | _ => None end)
      = and_then (lookup_member (bs "HomeDERP") ms) jv_uint) as -> by (destruct (lookup_member (bs "HomeDERP") ms) as [v|]; [by destruct v|done]).
    destruct (and_then (lookup_member (bs "HomeDERP") ms) jv_uint) as [r|]; cbn [obind];
      (destruct (lookup_member (bs "AllowedIPs") ms) as [a|]; cbn [obind fmap option_fmap option_map];
        [by destruct a|destruct (lookup_member (bs "Addresses") ms) as [a|]; [by destruct a|done]]).
Qed.

Lemma filter_peers_values vs : Forall (fun v => jv_ok v = true) vs -> filter_peers (map value_of vs) = Ok (omap peer_of vs).
Proof.
  induction 1 as [|v vs Hv _ IH]; [done|]. cbn [map filter_peers]. rewrite peer_info_value by done. cbn [obind]. rewrite IH.
  cbn. by destruct (peer_of v).
Qed.

Lemma lookup_member_ok k ms v : members_ok ms = true -> lookup_member k ms = Some v -> jv_ok v = true.
Proof.
  induction ms as [|w0 k' w1 w2 v' w3 ms IH]; [done|]. cbn [members_ok lookup_member]. rewrite !andb_true_iff.
  intros ((((((? & ?) & ?) & ?) & ?) & ?) & ?). case_decide; [by intros [= <-]|auto].
Qed.

(** The array under a key, as the iterator gives it. *)
Lemma peer_list_values w ms k : jv_ok (JObj w ms) = true ->
  exists l, peer_list (text (JObj w ms)) k = Ok l /\ collect (S (length l)) (elements l) = Ok (map value_of (array_at k ms)).
Proof.
  intros Hok. unfold peer_list, array_at. rewrite field_text_exact by done. cbn [result_ok obind].
  cbn [jv_ok] in Hok. apply andb_true_iff in Hok as [_ Hms].
  destruct (lookup_member k ms) as [v|] eqn:E; [|by eexists]. pose proof (lookup_member_ok k ms v Hms E) as Hv.
  destruct v as [s|d|b| |w' ms'|w' es]; cbn [value_of fmap option_fmap option_map]; try by eexists.
  exists (text (JArr w' es)). split; [done|]. rewrite <- elem_values_list. pose proof Hv as Hv'.
  cbn [jv_ok] in Hv'. apply andb_true_iff in Hv' as [_ Hes]. pose proof (elem_list_length true es Hes) as Hl.
  rewrite <- (app_nil_r (text (JArr w' es))) at 2. apply (elements_text w' es [] []); [done|done|].
  rewrite elem_values_list, length_map. cbn [text]. rewrite !length_app. simpl. lia.
Qed.

Lemma peer_get_total node k : exists o, peer_get node k = Ok o.
Proof. unfold peer_get. destruct (field_no_panic node k) as [[o ->]|[e ->]]; by eexists. Qed.

Lemma peer_info_total v : exists o, peer_info v = Ok o.
Proof.
  destruct v as [s|s|b| |node]; try by eexists. cbn [peer_info].
  destruct (peer_get_total node (bs "Key")) as [k ->]. cbn [obind]. destruct (and_then k as_str) as [s|]; [|by eexists].
  destruct (key_parse_ok (k:=Node) s) as (o & -> & _). cbn [obind]. destruct o as [nk|]; [|by eexists].
  destruct (peer_get_total node (bs "DiscoKey")) as [d ->]. cbn [obind].
  assert (exists dk, match and_then d as_str with None => Ok None | Some s => result_ok (parse (k:=Keys.Disco) s) end = Ok (E:=JsonError) dk) as [dk ->].
  { destruct (and_then d as_str) as [x|]; [|by eexists]. destruct (key_parse_ok (k:=Keys.Disco) x) as (o & -> & _). by eexists. }
  destruct (peer_get_total node (bs "HomeDERP")) as [h ->], (peer_get_total node (bs "DERP")) as [dp ->],
    (peer_get_total node (bs "Online")) as [on ->], (peer_get_total node (bs "AllowedIPs")) as [al ->], (peer_get_total node (bs "Addresses")) as [ad ->].
  cbn [obind]. destruct (and_then h _); destruct al; cbn [obind]; by eexists.
Qed.

Lemma filter_peers_total vs : exists l, filter_peers vs = Ok l.
Proof.
  induction vs as [|v vs [l IH]]; [by eexists|]. cbn [filter_peers]. destruct (peer_info_total v) as [o ->]. cbn [obind].
  rewrite IH. by eexists.
Qed.

Lemma peers_total junk : exists l, peers junk = Ok l.
Proof.
  assert (forall k, exists l, peer_list junk k = Ok l) as Hl.
  { intros k. unfold peer_list. destruct (field_no_panic junk k) as [[o ->]|[e ->]]; by eexists. }
  unfold peers. destruct (Hl (bs "Peers")) as [a ->], (Hl (bs "PeersChanged")) as [b ->]. cbn [obind].
  destruct (collect_total (S (length a)) (elements a)) as [va ->]; [simpl; lia..|].
  destruct (collect_total (S (length b)) (elements b)) as [vb ->]; [simpl; lia..|]. cbn [obind]. apply filter_peers_total.
Qed.

(** C34. The peers of a netmap are exactly those of its JSON: for any netmap
    text, in this order the readable nodes of [Peers] and of [PeersChanged],
    each with the fields [peer_of] names; entries without a readable node key
    are skipped and do not disturb the others. On arbitrary bytes the iterator
    ends without panic. *)
Theorem peers_read (w : bytes) (ms : members) (junk : bytes) :
  (jv_ok (JObj w ms) = true -> peers (text (JObj w ms)) = Ok (peers_of ms)) /\ (exists l, peers junk = Ok l).
Proof.
  split.
  - intros Hok. unfold peers. destruct (peer_list_values w ms (bs "Peers") Hok) as (a & -> & Ha).
    destruct (peer_list_values w ms (bs "PeersChanged") Hok) as (b & -> & Hb). cbn [obind]. rewrite Ha, Hb. cbn [obind].
    rewrite <- map_app. apply filter_peers_values, Forall_app.
    cbn [jv_ok] in Hok. apply andb_true_iff in Hok as [_ Hms].
    assert (forall k, Forall (fun v => jv_ok v = true) (array_at k ms)) as H; [|by split].
    intros k. unfold array_at. destruct (lookup_member k ms) as [v|] eqn:E; [|constructor]. apply lookup_member_ok in E; [|done].
    destruct v; try constructor. cbn [jv_ok] in E. apply andb_true_iff in E as [_ E]. by apply elem_list_ok.
  - apply peers_total.
Qed.

Lemma peers_read_witness :
  let netmap := JObj [] (MCons [] (bs "PeersChanged") [] [] (JArr [] (ECons [] (JNum (bs "7")) []
      (ECons [x20] (JObj [] (MCons [] (bs "DERP") [] [] (JStr (bs "127.3.3.40:4")) []
         (MCons [] (bs "Key") [] [] (JStr (wire_form (k:=Node) (Public (replicate 32 xab)))) [] MNil))) [] ENil))) [] MNil) in
  peers (text netmap) =
    Ok [{| node_key := Public (replicate 32 xab); disco_key := None; home_derp := 4; online := false; allowed_ips := [] |}].
Proof.
  refine (proj1 (peers_read [] (MCons [] (bs "PeersChanged") [] [] (JArr [] (ECons [] (JNum (bs "7")) []
      (ECons [x20] (JObj [] (MCons [] (bs "DERP") [] [] (JStr (bs "127.3.3.40:4")) []
         (MCons [] (bs "Key") [] [] (JStr (wire_form (k:=Node) (Public (replicate 32 xab)))) [] MNil))) [] ENil))) [] MNil) []) _).
  vm_compute. reflexivity.
Defined.

(** The placeholder address names the region it was made from. *)
Lemma derp_region_dec r : (0 <= r < 2 ^ 32)%Z -> derp_region (bs "127.3.3.40:" ++ dec r) = Some r.
Proof.
  intros Hr. unfold derp_region. rewrite strip_prefix_app. apply parse_uint_dec; unfold u32_max; lia.
Qed.

(** The registration answer is read as the JSON says and as its error
    handling needs: each of the four fields is the member of that name when it
    has its type and empty or false otherwise; success is claimed exactly when
    there is no error, no login URL and no expiry; arbitrary bytes give an
    answer or an error, never a panic. *)
Theorem register_response_read (w : bytes) (ms : members) (rest junk : bytes) :
  (jv_ok (JObj w ms) = true ->
   exists r, parse_register_response (text (JObj w ms) ++ rest) = Ok r /\
     machine_authorized r = default false (and_then (lookup_member (bs "MachineAuthorized") ms) jv_bool) /\
     node_key_expired r = default false (and_then (lookup_member (bs "NodeKeyExpired") ms) jv_bool) /\
     auth_url r = default [] (and_then (lookup_member (bs "AuthURL") ms) jv_str) /\
     error r = default [] (and_then (lookup_member (bs "Error") ms) jv_str) /\
     (is_success r = true <-> error r = [] /\ auth_url r = [] /\ node_key_expired r = false)) /\
  ((exists r, parse_register_response junk = Ok r) \/ exists e, parse_register_response junk = Err e).
Proof.
  split.
  - intros Hok. unfold parse_register_response, response_bool, response_str.
    assert (forall k, field (text (JObj w ms) ++ rest) k = Ok (value_of <$> lookup_member k ms)) as Hf by (intros k; by apply (field_text w ms [] rest)).
    rewrite !Hf. cbn [obind]. rewrite !seen_str, !seen_bool. eexists. split; [reflexivity|]. cbn [machine_authorized node_key_expired auth_url error].
    split_and!; try done. unfold is_success. cbn. rewrite !andb_true_iff, !bool_decide_eq_true, negb_true_iff. tauto.
  - unfold parse_register_response, response_bool, response_str.
    assert (forall k, (exists o, field junk k = Ok o) \/ exists e, field junk k = Err e) as Hf by (intros; apply field_no_panic).
    destruct (Hf (bs "MachineAuthorized")) as [[o1 ->]|[e ->]]; cbn [obind]; [|right; by eexists].
    destruct (Hf (bs "NodeKeyExpired")) as [[o2 ->]|[e ->]]; cbn [obind]; [|right; by eexists].
    destruct (Hf (bs "AuthURL")) as [[o3 ->]|[e ->]]; cbn [obind]; [|right; by eexists].
    destruct (Hf (bs "Error")) as [[o4 ->]|[e ->]]; cbn [obind]; [|right; by eexists]. left. by eexists.
Qed.

Lemma register_response_read_witness :
  exists r, parse_register_response (text (JObj [] (MCons [] (bs "Error") [] [] (JStr (bs "denied")) [] MNil)) ++ []) = Ok r /\
    is_success r = false.
Proof.
  destruct (proj1 (register_response_read [] (MCons [] (bs "Error") [] [] (JStr (bs "denied")) [] MNil) [] []) eq_refl)
    as (r & Hr & _ & _ & _ & He & _). exists r. split; [exact Hr|]. unfold is_success. rewrite He. reflexivity.
Defined.
