(* ===== verification/NetmapStream.v ===== *)
(** The netmap stream as its readers take it: the loop that the long polls of the
    firmware and of the host both run over the chunks of the response
    ([while !data.is_empty()] in the two [main.rs]), with what each does for a
    frame as a parameter.

    The reader of the frames is [ControlResponse.map_feed]; here is what a caller
    gets of it in the end, whatever the cuts. *)
From S2P Require Import Prelude Framing ControlResponse.

Section Loop.
Context {A E : Type} (handle : MapFrame -> A -> outcome E A).

(** The fuel is the number of bytes. *)
Fixpoint feed_each (fuel : nat) (frames : MapFrames) (data : bytes) (a : A) : outcome E (MapFrames * A) :=
  if decide (data = []) then Ok (frames, a)
  else
    match fuel with
    | O => NoFuel
    | S fuel =>
        let? (frames, used, frame) := expect_ok (map_feed frames data) in
        if decide (used = 0 /\ frame = None) then Ok (frames, a)
        else
          let? data := slice data used (length data) in
          match frame with
          | None => feed_each fuel frames data a
          | Some frame => let? a := handle frame a in feed_each fuel frames data a
          end
    end.

(** A frame as the reader gives them: without bytes it is a keep-alive. *)
Definition frame_ok (fr : MapFrame) : Prop := (0 <= total_len fr)%Z /\ (total_len fr = 0%Z <-> chunk fr = []).

(** Between reads: a frame that is under way has a length. *)
Definition stream_ok (f : MapFrames) : Prop := map_ok f /\ (0 < remaining f -> 0 < total f)%Z.

Lemma stream_new : stream_ok map_frames_new.
Proof. split; [apply map_new_ok|cbn; lia]. Qed.

Lemma feed_body_ok f input pos f' n i : stream_ok f -> (0 < remaining f)%Z -> map_feed_body f input pos = Ok (f', n, i) ->
  (0 < remaining f' -> 0 < total f')%Z /\ match i with Some fr => frame_ok fr | None => True end.
Proof.
  intros [Hok Ht] Hr. unfold map_feed_body. destruct (nsub _ _) as [avail| | |]; [|done..]. cbn [obind]. case_decide as Ha; [intros [= <- <- <-]; by split|].
  set (k := _ `min` _). assert (0 < k) as Hk by (unfold k; lia). clearbody k. unfold slice, get_range. case_decide as Hs; [|done]. cbn [unwrap obind].
  destruct (usub _ _) as [rem| | |]; [|done..]. cbn [obind]. intros Heq. apply Ok_inj in Heq. injection Heq as <- <- <-. cbn [total remaining]. split; [intros _; by apply Ht|].
  unfold frame_ok. cbn [total_len chunk]. specialize (Ht Hr). split; [lia|]. split; [lia|]. intros Hn. apply (f_equal length) in Hn. rewrite length_take, length_drop in Hn. simpl in Hn. lia.
Qed.

Lemma feed_ok f input f' n i : stream_ok f -> map_feed f input = Ok (f', n, i) -> stream_ok f' /\ match i with Some fr => frame_ok fr | None => True end.
Proof.
  intros Hok Em. pose proof Hok as [Hm Ht]. pose proof (map_feed_steps f input Hm) as Hs. rewrite Em in Hs. destruct Hs as (Hm' & _). unfold stream_ok.
  assert (((0 < remaining f' -> 0 < total f')%Z /\ match i with Some fr => frame_ok fr | None => True end) ->
    (map_ok f' /\ (0 < remaining f' -> 0 < total f')%Z) /\ match i with Some fr => frame_ok fr | None => True end) as Hgo by tauto. apply Hgo. clear Hgo.
  unfold map_feed in Em. destruct Hm as (Hl & Hr & Hh & H0). case_decide as Hz.
  2:{ apply (feed_body_ok _ _ _ _ _ _ Hok ltac:(lia) Em). }
  destruct (nsub _ _) as [need| | |]; [|done..]. cbn [obind] in Em. destruct (slice input _ _) as [src| | |]; [|done..]. cbn [obind] in Em.
  destruct (copy_range _ _ _ _) as [buf| | |] eqn:Eb; [|done..]. cbn [obind] in Em. case_decide; [apply Ok_inj in Em; injection Em as <- <- <-; cbn; split; [lia|done]|].
  case_decide as Hlen; [apply Ok_inj in Em; injection Em as <- <- <-; cbn [remaining total]; split; [lia|]; unfold frame_ok; cbn; split; [lia|done]|].
  pose proof (from_le_range buf) as Hrange. assert (length buf = 4) as Hb4.
  { unfold copy_range in Eb. case_decide; [|done]. apply Ok_inj in Eb. subst buf. rewrite length_overwrite by lia. exact Hl. }
  rewrite Hb4 in Hrange. change (256 ^ Z.of_nat 4)%Z with (2 ^ 32)%Z in Hrange.
  refine (feed_body_ok _ _ _ _ _ _ _ _ Em); [|cbn [remaining]; lia]. split; [unfold map_ok; cbn [len_buf remaining len_have]; split_and!; (done || lia)|cbn [remaining total]; lia].
Qed.

(** ** What the caller's state becomes, as long as it is as the caller keeps it *)
Context (on_event : A -> event Z -> A) (inv : A -> Prop).
Hypothesis handles : forall fr a, frame_ok fr -> inv a -> handle fr a = Ok (foldl on_event a (map_seen fr)) /\ inv (foldl on_event a (map_seen fr)).

Lemma feed_each_spec fuel f data a p ev : stream_ok f -> inv a -> length data <= fuel -> run map_format (map_at f) data = inr (p, ev) ->
  exists f', feed_each fuel f data a = Ok (f', foldl on_event a ev) /\ stream_ok f' /\ map_at f' = p /\ inv (foldl on_event a ev).
Proof using handles.
  revert f data a ev. induction fuel as [|fuel IH]; intros f data a ev Hok Ha Hf Hrun.
  { destruct data; [|simpl in Hf; lia]. cbn [run] in Hrun. injection Hrun as <- <-. exists f. by split_and!. }
  cbn [feed_each]. case_decide as Hd; [subst data; cbn [run] in Hrun; injection Hrun as <- <-; exists f; by split_and!|].
  pose proof (map_feed_steps f data (proj1 Hok)) as Hs. destruct (map_feed f data) as [[[f1 n] i]| | |] eqn:Ef; [|done..].
  destruct Hs as (Hm1 & Hn & Hprog & Hnone & Hstep). cbn [expect_ok obind]. assert (0 < length data) as Hl by (destruct data; [done|simpl; lia]). specialize (Hprog Hl).
  destruct (feed_ok f data f1 n i Hok Ef) as [Hok1 Hi]. rewrite decide_False by lia. rewrite slice_from by lia. cbn [obind].
  rewrite Nat.sub_0_r, drop_0 in Hstep. rewrite <- (take_drop n data), (run_app_inr _ _ _ _ _ _ Hstep) in Hrun.
  destruct (run map_format (map_at f1) (drop n data)) as [|[p1 ev1]] eqn:Hrest; [done|]. injection Hrun as -> <-. rewrite foldl_app.
  assert (length (drop n data) <= fuel) as Hf' by (rewrite length_drop; lia). destruct i as [fr|]; cbn [from_option].
  - destruct (handles fr a Hi Ha) as [-> Ha']. cbn [obind]. by apply IH.
  - cbn [foldl]. by apply IH.
Qed.

(** One chunk of the response after the other. *)
Fixpoint feed_chunks (f : MapFrames) (cs : list bytes) (a : A) : outcome E (MapFrames * A) :=
  match cs with
  | [] => Ok (f, a)
  | c :: cs => let? (f, a) := feed_each (length c) f c a in feed_chunks f cs a
  end.

Lemma feed_chunks_spec f cs a p ev : stream_ok f -> inv a -> run map_format (map_at f) (concat cs) = inr (p, ev) ->
  exists f', feed_chunks f cs a = Ok (f', foldl on_event a ev) /\ stream_ok f' /\ map_at f' = p /\ inv (foldl on_event a ev).
Proof using handles.
  revert f a ev. induction cs as [|c cs IH]; intros f a ev Hok Ha Hrun; cbn [feed_chunks concat] in *.
  { cbn [run] in Hrun. injection Hrun as <- <-. exists f. by split_and!. }
  rewrite run_app in Hrun. destruct (run map_format (map_at f) c) as [|[q ev1]] eqn:E1; [done|]. destruct (run map_format q (concat cs)) as [|[q2 ev2]] eqn:E2; [done|].
  injection Hrun as -> <-. destruct (feed_each_spec (length c) f c a q ev1 Hok Ha (Nat.le_refl _) E1) as (f1 & -> & Hok1 & <- & Ha1). cbn [obind].
  destruct (IH f1 (foldl on_event a ev1) ev2 Hok1 Ha1 E2) as (f2 & -> & ? & ? & ?). exists f2. by rewrite foldl_app.
Qed.

(** The frames of a stream, each a keep-alive or a netmap. *)
Lemma frames_run frames : Forall (fun p => Z.of_nat (length p) < 2 ^ 32)%Z frames ->
  run map_format between (concat (map map_wire frames)) = inr (between, concat (map map_delivered frames)).
Proof.
  intros Hf. pose proof (run_frames map_format (map (fun p => (Z.of_nat (length p), p)) frames) (map map_wire frames) (header_pos (FramingLaws:=map_framing_laws))) as Hr.
  rewrite Hr.
  - do 3 f_equal. rewrite map_map. apply map_ext. intros p. by destruct p.
  - clear Hr. induction Hf as [|p frames Hp _ IH]; cbn [map]; constructor; [|done].
    exists (to_le 4 (Z.of_nat (length p))). split_and!; try done. cbn [decode map_format]. f_equal. apply from_to_le_small. lia.
Qed.

(** With what the events of one frame come to. *)
Lemma netmaps_seen (on_frame : A -> bytes -> A) frames cs a :
  inv a -> (forall a p, foldl on_event a (map_delivered p) = on_frame a p) ->
  Forall (fun p => Z.of_nat (length p) < 2 ^ 32)%Z frames -> concat cs = concat (map map_wire frames) ->
  exists f', feed_chunks map_frames_new cs a = Ok (f', foldl on_frame a frames) /\ stream_ok f' /\ map_at f' = between.
Proof using handles.
  intros Ha Hframe Hf Hc. destruct (feed_chunks_spec map_frames_new cs a between (concat (map map_delivered frames)) stream_new Ha) as (f' & Ef & Hok & Hat & _).
  { rewrite Hc. by apply frames_run. }
  exists f'. split_and!; try done. rewrite Ef. do 2 f_equal. clear -Hframe. revert a. induction frames as [|p frames IH]; intros a; [done|].
  cbn [map concat foldl]. by rewrite foldl_app, Hframe, IH.
Qed.
End Loop.
