(* ===== verification/CoreRoot.v ===== *)
(** The root of the core crate: [tailscale-core/src/lib.rs], its two constants. *)
From S2P Require Import Prelude.

Definition CAPABILITY_VERSION : Z := 145.
Definition DEFAULT_CONTROL_HOST : bytes := bs "controlplane.tailscale.com".
