(* ===== verification/H2Reader.v ===== *)
(** Reading HTTP/2 frames: the reader of [h2.rs], an instance of [Framing]. *)
From S2P Require Import Prelude Framing.

Definition FRAME_HEADER_LEN : nat := 9.
Definition CONTROL_FRAME_MAX : nat := 128.

Module frame_type.
Definition DATA : byte := x00.
Definition HEADERS : byte := x01.
Definition RST_STREAM : byte := x03.
Definition SETTINGS : byte := x04.
Definition PING : byte := x06.
Definition GOAWAY : byte := x07.
Definition WINDOW_UPDATE : byte := x08.
End frame_type.

Module flag.
Definition END_STREAM : byte := x01.
Definition ACK : byte := x01.
Definition END_HEADERS : byte := x04.
Definition PADDED : byte := x08.
Definition PRIORITY : byte := x20.
End flag.

Record FrameHeader := { fh_length : Z; fh_kind : byte; fh_flags : byte; fh_stream_id : Z }.

Definition end_stream (h : FrameHeader) : bool := negb (bool_decide (band (fh_flags h) flag.END_STREAM = x00)).

Record ControlFrame := { cf_header : FrameHeader; cf_payload : bytes; payload_len : nat }.
(** [ControlFrame::payload] *)
Definition payload {E} (c : ControlFrame) : outcome E bytes := slice (cf_payload c) 0 (payload_len c).

Inductive Item :=
| Control (c : ControlFrame)
| Body (header : FrameHeader) (chunk : bytes) (ends : bool).

Inductive State := Header | Buffering | Streaming | Draining.

Record FrameReader := {
  state : State;
  header_buf : bytes;
  header_have : nat;
  current : FrameHeader;
  remaining : Z;
  control : bytes;
  control_len : nat;
  pending_window : Z;
}.

(** [FrameReader::new] *)
Definition new : FrameReader :=
  {| state := Header; header_buf := zeros FRAME_HEADER_LEN; header_have := 0;
     current := {| fh_length := 0; fh_kind := x00; fh_flags := x00; fh_stream_id := 0 |};
     remaining := 0; control := zeros CONTROL_FRAME_MAX; control_len := 0; pending_window := 0 |}.

Definition control_frame (r : FrameReader) (h : FrameHeader) : ControlFrame :=
  {| cf_header := h; cf_payload := control r; payload_len := control_len r |}.

Definition is_control (kind : byte) : bool :=
  bool_decide (kind ∈ [frame_type.SETTINGS; frame_type.PING; frame_type.WINDOW_UPDATE; frame_type.GOAWAY; frame_type.RST_STREAM]).

(** Assignments to the reader's fields. *)
Definition set_state (st : State) (r : FrameReader) : FrameReader :=
  {| state := st; header_buf := header_buf r; header_have := header_have r; current := current r; remaining := remaining r;
     control := control r; control_len := control_len r; pending_window := pending_window r |}.
Definition set_header (hdr : bytes) (have : nat) (r : FrameReader) : FrameReader :=
  {| state := state r; header_buf := hdr; header_have := have; current := current r; remaining := remaining r;
     control := control r; control_len := control_len r; pending_window := pending_window r |}.
Definition set_frame (h : FrameHeader) (r : FrameReader) : FrameReader :=
  {| state := state r; header_buf := header_buf r; header_have := 0; current := h; remaining := fh_length h;
     control := control r; control_len := 0; pending_window := pending_window r |}.
Definition set_payload (rem : Z) (c : bytes) (len : nat) (r : FrameReader) : FrameReader :=
  {| state := state r; header_buf := header_buf r; header_have := header_have r; current := current r; remaining := rem;
     control := c; control_len := len; pending_window := pending_window r |}.
Definition set_pending (n : Z) (r : FrameReader) : FrameReader :=
  {| state := state r; header_buf := header_buf r; header_have := header_have r; current := current r; remaining := remaining r;
     control := control r; control_len := control_len r; pending_window := n |}.

(** [take_pending_window]: the count and the reader. *)
Definition take_pending_window (r : FrameReader) : Z * FrameReader := (pending_window r, set_pending 0 r).

(** The header of nine bytes; the top bit of the stream id is ignored. *)
Definition parse_header (b : bytes) : outcome Empty_set FrameHeader :=
  let? len := slice b 0 3 in
  let? kind := index b 3 in
  let? flags := index b 4 in
  let? id := slice b 5 9 in
  Ok {| fh_length := from_be (x00 :: len); fh_kind := kind; fh_flags := flags;
        fh_stream_id := Z.land (from_be id) 0x7fffffff |}.

(** One turn of the loop in [feed]. *)
Definition feed_turn (r : FrameReader) (input : bytes) (pos : nat) : outcome Empty_set (turn FrameReader Item) :=
  match state r with
  | Header =>
      let? need := nsub FRAME_HEADER_LEN (header_have r) in
      let? avail := nsub (length input) pos in
      let n := need `min` avail in
      let? src := slice input pos (pos + n) in
      let? hdr := copy_range (header_buf r) (header_have r) (header_have r + n) src in
      let r := set_header hdr (header_have r + n) r in
      let pos := pos + n in
      if decide (header_have r < FRAME_HEADER_LEN) then Ok (Return r pos None)
      else
        let? h := parse_header (header_buf r) in
        let r := set_frame h r in
        if decide (fh_length (current r) = 0)%Z then
          let header := current r in
          let r := set_state Header r in
          Ok (Return r pos (Some (if is_control (fh_kind header) then Control (control_frame r header) else Body header [] true)))
        else Ok (Continue (set_state (if is_control (fh_kind (current r)) then Buffering else Streaming) r) pos)
  | Buffering =>
      let? avail := nsub (length input) pos in
      if decide (avail = 0) then Ok (Return r pos None)
      else
        let? space := nsub CONTROL_FRAME_MAX (control_len r) in
        let n := (Z.to_nat (remaining r) `min` avail) `min` space in
        let? src := slice input pos (pos + n) in
        let? c := copy_range (control r) (control_len r) (control_len r + n) src in
        let? rem := usub (remaining r) (wrap 32 (Z.of_nat n)) in
        let r := set_payload rem c (control_len r + n) r in
        let pos := pos + n in
        if decide (remaining r = 0)%Z then Ok (Return (set_state Header r) pos (Some (Control (control_frame r (current r)))))
        else if decide (control_len r = CONTROL_FRAME_MAX) then Ok (Continue (set_state Draining r) pos)
        else Ok (Continue r pos)
  | Draining =>
      let? avail := nsub (length input) pos in
      let n := Z.to_nat (remaining r) `min` avail in
      let? rem := usub (remaining r) (wrap 32 (Z.of_nat n)) in
      let r := set_payload rem (control r) (control_len r) r in
      let pos := pos + n in
      if decide (0 < remaining r)%Z then Ok (Return r pos None)
      else Ok (Return (set_state Header r) pos (Some (Control (control_frame r (current r)))))
  | Streaming =>
      let? avail := nsub (length input) pos in
      if decide (avail = 0) then Ok (Return r pos None)
      else
        let n := Z.to_nat (remaining r) `min` avail in
        let? chunk := slice input pos (pos + n) in
        let? rem := usub (remaining r) (wrap 32 (Z.of_nat n)) in
        let r := set_payload rem (control r) (control_len r) r in
        let pos := pos + n in
        let ends := bool_decide (remaining r = 0)%Z in
        let header := current r in
        let r := if ends then set_state Header r else r in
        let? r :=
          if decide (fh_kind header = frame_type.DATA)
          then let? p := uadd 32 (pending_window r) (wrap 32 (Z.of_nat n)) in Ok (set_pending p r)
          else Ok r in
        Ok (Return r pos (Some (Body header chunk ends)))
  end.

(** Three turns are enough, as for DERP. *)
#[export] Instance h2_framing : Framing FrameReader Item Empty_set :=
  {| feed := fun r input => feed_loop feed_turn 3 r input 0 |}.

(** ** The format *)

(** What nine bytes say. *)
Definition header_of (b : bytes) : FrameHeader :=
  {| fh_length := from_be (take 3 b); fh_kind := default x00 (b !! 3); fh_flags := default x00 (b !! 4);
     fh_stream_id := (from_be (drop 5 b) mod 2 ^ 31)%Z |}.

Definition h2_format : FrameFormat FrameHeader Empty_set := {|
  header_len := FRAME_HEADER_LEN;
  decode b := inr (header_of b);
  total := fh_length;
  captured h := is_control (fh_kind h);
  cap := CONTROL_FRAME_MAX;
  empty_captured h := is_control (fh_kind h);
  captured_as h := h;
|}.

(** What a caller sees of an item. *)
Definition item_seen (i : Item) : list (event FrameHeader) :=
  match i with
  | Control c => match payload (E:=Empty_set) c with Ok p => [EvCaptured (cf_header c) p] | _ => [] end
  | Body h [] _ => [EvEmpty h]
  | Body h chunk ends => body_events h chunk ends
  end.

(** ** Proofs *)

Definition h2_at (r : FrameReader) : position_in FrameHeader :=
  match state r with
  | Header => InHeader (take (header_have r) (header_buf r))
  | Streaming => InPayload (current r) (remaining r) None
  | _ => InPayload (current r) (remaining r) (Some (take (control_len r) (control r)))
  end.

(** [k] more bytes do not overflow the count of received data. *)
Definition h2_ok (k : nat) (r : FrameReader) : Prop :=
  length (header_buf r) = FRAME_HEADER_LEN /\ length (control r) = CONTROL_FRAME_MAX /\
  (0 <= remaining r < 2 ^ 24)%Z /\ (0 <= pending_window r)%Z /\ (pending_window r + Z.of_nat k < 2 ^ 32)%Z /\
  match state r with
  | Header => header_have r < FRAME_HEADER_LEN
  | Streaming => header_have r = 0 /\ (0 < remaining r)%Z
  | Buffering => header_have r = 0 /\ (0 < remaining r)%Z /\ control_len r < CONTROL_FRAME_MAX
  | Draining => header_have r = 0 /\ (0 < remaining r)%Z /\ control_len r = CONTROL_FRAME_MAX
  end.

Definition rank (r : FrameReader) (avail : nat) : nat :=
  match state r with
  | Header => 3
  | Buffering => if decide (avail = 0) then 1 else 2
  | _ => 1
  end.

Abbreviation h2_turn := (turn_steps h2_format h2_ok h2_at item_seen rank).

Lemma parse_header_ok b : length b = FRAME_HEADER_LEN -> parse_header b = Ok (header_of b) /\ (0 <= fh_length (header_of b) < 2 ^ 24)%Z.
Proof.
  intros Hl. destruct b as [|b0 [|b1 [|b2 [|b3 [|b4 [|b5 [|b6 [|b7 [|b8 [|]]]]]]]]]]; try done.
  split; [|apply (from_be_range [b0; b1; b2])].
  unfold parse_header. rewrite slice_to by (simpl; lia). cbn [obind].
  rewrite (index_ok _ 3 b3), (index_ok _ 4 b4) by done. cbn [obind]. rewrite slice_ok by (simpl; lia).
  cbn [obind drop take Nat.sub]. unfold header_of. rewrite (from_be_cons x00). change (bz x00) with 0%Z.
  cbn [take drop]. change 0x7fffffff%Z with (Z.ones 31). rewrite Z.land_ones by lia. done.
Qed.

Lemma h2_header_turn r input pos k : h2_ok (length input - pos + k) r -> state r = Header -> pos <= length input ->
  h2_turn r input pos k (feed_turn r input pos).
Proof.
  intros (Hh & Hc & Hr & Hw & Hk & Hs) E Hpos. unfold feed_turn. rewrite E in *.
  rewrite !nsub_ok by lia. cbn [obind]. set (n := _ `min` _).
  assert (n <= FRAME_HEADER_LEN - header_have r /\ n <= length input - pos /\ (n = FRAME_HEADER_LEN - header_have r \/ n = length input - pos)) as Hn by lia.
  clearbody n. rewrite slice_ok by lia. cbn [obind]. replace (pos + n - pos) with n by lia.
  set (src := take n (drop pos input)). assert (length src = n) as Hsrc by (unfold src; len).
  rewrite copy_range_ok by lia. cbn [obind set_header header_buf header_have].
  set (hdr := overwrite _ _ _). assert (length hdr = FRAME_HEADER_LEN) as Hl by (unfold hdr; rewrite length_overwrite by lia; done).
  assert (take (header_have r + n) hdr = take (header_have r) (header_buf r) ++ src) as Ht.
  { unfold hdr. rewrite <- Hsrc. apply take_overwrite. lia. }
  assert (length (take (header_have r) (header_buf r)) = header_have r) as Hth by len.
  case_decide as Hd.
  - cbn [turn_steps]. unfold h2_ok, h2_at. cbn. rewrite E, Ht. split_and!; try (done || lia).
    replace (pos + n - pos) with n by lia. fold src. apply run_header. rewrite length_app, Hth, Hsrc. done.
  - rewrite take_ge in Ht by lia. destruct (parse_header_ok hdr Hl) as [-> Hlen]. cbn [obind set_frame current].
    pose proof (run_header_end h2_format (take (header_have r) (header_buf r)) src) as Hrun.
    cbn [header_len h2_format] in Hrun. rewrite <- Ht in Hrun. specialize (Hrun ltac:(lia) ltac:(done)).
    cbn [decode h2_format] in Hrun. generalize dependent (header_of hdr). intros h Hlen Hrun. cbn [total h2_format] in Hrun.
    case_decide as Hz; cbn [turn_steps]; unfold h2_at at 1; rewrite E; replace (pos + n - pos) with n by lia; fold src; rewrite Hrun; clear Hrun.
    + unfold h2_ok, FRAME_HEADER_LEN. unfold empty_event. cbn. destruct (is_control _); cbn; split_and!; try (done || lia).
    + unfold h2_ok, h2_at, rank. rewrite E. cbn. destruct (is_control _); cbn; split_and!; try (done || lia).
      { unfold CONTROL_FRAME_MAX; lia. }
      case_decide; lia.
Qed.

Lemma h2_wrap_small n z : (z < 2 ^ 24)%Z -> n <= Z.to_nat z -> wrap 32 (Z.of_nat n) = Z.of_nat n.
Proof. intros. unfold wrap. apply Z.mod_small. lia. Qed.

Lemma item_seen_body h chunk ends : chunk <> [] -> item_seen (Body h chunk ends) = body_events h chunk ends.
Proof. by destruct chunk. Qed.

Lemma h2_streaming_turn r input pos k : h2_ok (length input - pos + k) r -> state r = Streaming -> pos <= length input ->
  h2_turn r input pos k (feed_turn r input pos).
Proof.
  intros (Hh & Hc & Hr & Hw & Hk & Hs) E Hpos. unfold feed_turn. rewrite E in *. destruct Hs as [H0 Hrem].
  rewrite !nsub_ok by lia. cbn [obind]. case_decide as Hav.
  { cbn [turn_steps]. unfold h2_ok. rewrite E. replace (pos - pos) with 0 by lia.
    unfold h2_at. rewrite E. split_and!; try (done || lia). }
  set (n := _ `min` _).
  assert (n <= Z.to_nat (remaining r) /\ n <= length input - pos /\ 0 < n) as Hn by lia. clearbody n.
  rewrite slice_ok by lia. cbn [obind]. replace (pos + n - pos) with n by lia.
  set (src := take n (drop pos input)). assert (length src = n) as Hsrc by (unfold src; len).
  assert (src <> []) as Hne by (intros Hnil; rewrite Hnil in Hsrc; simpl in Hsrc; lia).
  rewrite (h2_wrap_small n (remaining r)) by lia. rewrite usub_ok by lia. cbn [obind set_payload remaining current].
  set (r1 := if bool_decide _ then _ else _).
  assert (exists p, (if decide (fh_kind (current r) = frame_type.DATA) then let? p := uadd 32 (pending_window r1) (Z.of_nat n) in Ok (set_pending p r1) else Ok r1)
    = Ok (E:=Empty_set) (set_pending p r1) /\ (0 <= p)%Z /\ (p + Z.of_nat (length input - (pos + n) + k) < 2 ^ 32)%Z) as (p & -> & Hp0 & Hp).
  { assert (pending_window r1 = pending_window r) as -> by (unfold r1; by case_bool_decide).
    case_decide; [|exists (pending_window r); split; [|lia]].
    - rewrite uadd_ok by lia. cbn [obind]. eexists. split; [done|lia].
    - unfold r1, set_pending. by case_bool_decide. }
  cbn [obind turn_steps]. replace (pos + n - pos) with n by lia. fold src. unfold h2_at at 1. rewrite E.
  cbn [from_option]. rewrite item_seen_body by done. unfold r1. case_bool_decide as Hz.
  - rewrite run_stream_end by (done || lia).
    unfold h2_ok, FRAME_HEADER_LEN. cbn. rewrite H0. split_and!; try (done || lia).
  - rewrite run_stream by lia. unfold h2_ok, h2_at. cbn. rewrite E, Hsrc. split_and!; try (done || lia).
Qed.

Lemma item_seen_control r h : length (control r) = CONTROL_FRAME_MAX -> control_len r <= CONTROL_FRAME_MAX ->
  item_seen (Control (control_frame r h)) = [EvCaptured h (take (control_len r) (control r))].
Proof. intros Hc Hl. unfold item_seen, control_frame, payload. cbn. by rewrite slice_to by lia. Qed.

Lemma h2_buffering_turn r input pos k : h2_ok (length input - pos + k) r -> state r = Buffering -> pos <= length input ->
  h2_turn r input pos k (feed_turn r input pos).
Proof.
  intros (Hh & Hc & Hr & Hw & Hk & Hs) E Hpos. unfold feed_turn. rewrite E in *. destruct Hs as (H0 & Hrem & Hlen).
  rewrite !nsub_ok by lia. cbn [obind]. case_decide as Hav.
  { cbn [turn_steps]. unfold h2_ok. rewrite E. replace (pos - pos) with 0 by lia.
    unfold h2_at. rewrite E. split_and!; try (done || lia). }
  set (n := (_ `min` _)).
  assert (n <= Z.to_nat (remaining r) /\ n <= length input - pos /\ n <= CONTROL_FRAME_MAX - control_len r /\ 0 < n /\
    (n = Z.to_nat (remaining r) \/ n = length input - pos \/ n = CONTROL_FRAME_MAX - control_len r)) as Hn by lia. clearbody n.
  rewrite slice_ok by lia. cbn [obind]. replace (pos + n - pos) with n by lia.
  set (src := take n (drop pos input)). assert (length src = n) as Hsrc by (unfold src; len).
  assert (src <> []) as Hne by (intros Hnil; rewrite Hnil in Hsrc; simpl in Hsrc; lia).
  rewrite copy_range_ok by lia. cbn [obind]. rewrite (h2_wrap_small n (remaining r)) by lia. rewrite usub_ok by lia.
  pose proof (capture_buffer h2_format (control r) (control_len r) src Hc ltac:(cbn; lia)) as Hcap. rewrite Hsrc in Hcap.
  assert (length (overwrite (control r) (control_len r) src) = CONTROL_FRAME_MAX) as Hco by (rewrite length_overwrite by lia; done).
  cbn [obind]. set (r' := set_payload _ _ _ _). case_decide as Hz; [|case_decide as Hfull].
  - cbn [turn_steps from_option]. replace (pos + n - pos) with n by lia. fold src. unfold h2_at at 1. rewrite E. cbn in Hz.
    rewrite run_captured_end by (done || lia). rewrite item_seen_control by (cbn; lia). cbn [r' set_payload control control_len]. rewrite Hcap.
    unfold h2_ok, FRAME_HEADER_LEN. cbn. rewrite H0. split_and!; try (done || lia).
  - cbn [turn_steps]. replace (pos + n - pos) with n by lia. fold src. unfold h2_at at 1. rewrite E. cbn in Hz, Hfull.
    rewrite run_captured by lia. rewrite Hcap. unfold h2_ok, h2_at, rank. cbn. rewrite E, Hsrc.
    rewrite (decide_False (P:=length input - pos = 0)) by lia. split_and!; try (done || lia).
  - cbn [turn_steps]. replace (pos + n - pos) with n by lia. fold src. unfold h2_at at 1. rewrite E. cbn in Hz, Hfull.
    rewrite run_captured by lia. rewrite Hcap. unfold h2_ok, h2_at, rank. cbn. rewrite E, Hsrc.
    rewrite (decide_False (P:=length input - pos = 0)) by lia. rewrite (decide_True (P:=length input - (pos + n) = 0)) by lia.
    split_and!; try (done || lia).
Qed.

Lemma h2_draining_turn r input pos k : h2_ok (length input - pos + k) r -> state r = Draining -> pos <= length input ->
  h2_turn r input pos k (feed_turn r input pos).
Proof.
  intros (Hh & Hc & Hr & Hw & Hk & Hs) E Hpos. unfold feed_turn. rewrite E in *. destruct Hs as (H0 & Hrem & Hlen).
  rewrite !nsub_ok by lia. cbn [obind]. set (n := (_ `min` _)).
  assert (n <= Z.to_nat (remaining r) /\ n <= length input - pos /\ (n = Z.to_nat (remaining r) \/ n = length input - pos)) as Hn by lia.
  clearbody n. rewrite (h2_wrap_small n (remaining r)) by lia. rewrite usub_ok by lia. cbn [obind].
  set (src := take n (drop pos input)). assert (length src = n) as Hsrc by (unfold src; len).
  assert (forall l, capture h2_format (take (control_len r) (control r)) l = take (control_len r) (control r)) as Hcap.
  { intros l. rewrite Hlen. by apply (capture_full h2_format). }
  set (r' := set_payload _ _ _ _). case_decide as Hz; cbn in Hz; cbn [turn_steps from_option]; replace (pos + n - pos) with n by lia; fold src;
    unfold h2_at at 1; rewrite E.
  - rewrite run_captured by lia. rewrite Hcap. unfold h2_ok, h2_at. cbn. rewrite E, Hsrc. split_and!; try (done || lia).
  - assert (src <> []) by (intros Hnil; rewrite Hnil in Hsrc; simpl in Hsrc; lia).
    rewrite run_captured_end by (done || lia). rewrite Hcap, item_seen_control by (cbn; lia).
    unfold h2_ok, FRAME_HEADER_LEN. cbn. rewrite H0. split_and!; try (done || lia).
Qed.

Lemma h2_feed_turn_steps r input pos k : h2_ok (length input - pos + k) r -> pos <= length input ->
  h2_turn r input pos k (feed_turn r input pos).
Proof.
  intros Hr Hp. destruct (state r) eqn:E; [by apply h2_header_turn|by apply h2_buffering_turn|by apply h2_streaming_turn|by apply h2_draining_turn].
Qed.

Lemma rank_bounds r n : 0 < rank r n <= 3.
Proof. unfold rank. destruct (state r); try lia. case_decide; lia. Qed.

#[export] Instance h2_framing_laws : FramingLaws h2_format.
Proof.
  refine {| reader_ok := h2_ok; reader_at := h2_at; item_events := item_seen |}.
  - cbn. unfold FRAME_HEADER_LEN. lia.
  - intros r input k Hr. unfold feed, h2_framing. rewrite <- (Nat.sub_0_r (length input)) in Hr.
    pose proof (feed_loop_steps feed_turn h2_format h2_ok h2_at item_seen rank h2_feed_turn_steps
      (fun r n => proj1 (rank_bounds r n)) 3 r input 0 k Hr ltac:(lia) (proj2 (rank_bounds _ _))) as Hl.
    rewrite drop_0 in Hl. destruct (feed_loop feed_turn 3 r input 0) as [[[r' n] i]|e| |]; try done.
    rewrite Nat.sub_0_r in Hl. destruct Hl as (? & ? & ? & ? & ?). split_and!; try (done || lia).
Defined.

(** ** What the server's frames become *)

(** A frame on the wire; [r] is the reserved bit of the stream id. *)
Definition h2_wire (reserved : bool) (kind flags : byte) (stream_id : Z) (payload : bytes) : bytes :=
  to_be 3 (Z.of_nat (length payload)) ++ [kind; flags] ++ to_be 4 (stream_id + if reserved then 2 ^ 31 else 0) ++ payload.

Definition h2_header (kind flags : byte) (stream_id : Z) (payload : bytes) : FrameHeader :=
  {| fh_length := Z.of_nat (length payload); fh_kind := kind; fh_flags := flags; fh_stream_id := stream_id |}.

(** Control frames arrive whole, up to 128 bytes; others stream. *)
Definition h2_delivered (h : FrameHeader) (payload : bytes) : list (event FrameHeader) :=
  if is_control (fh_kind h) then [EvCaptured h (take CONTROL_FRAME_MAX payload)]
  else match payload with [] => [EvEmpty h] | _ => body_events h payload true end.

Lemma h2_frame_events h payload : frame_events h2_format h payload = h2_delivered h payload.
Proof. unfold frame_events, h2_delivered, empty_event. destruct payload; cbn; by destruct (is_control (fh_kind h)). Qed.

Lemma h2_wire_frame reserved kind flags id payload :
  (Z.of_nat (length payload) < 2 ^ 24)%Z -> (0 <= id < 2 ^ 31)%Z ->
  frame_on_wire h2_format (h2_header kind flags id payload) payload (h2_wire reserved kind flags id payload).
Proof.
  intros Hl Hid. unfold h2_wire. set (n := Z.of_nat (length payload)) in *. set (id' := (id + _)%Z).
  exists (to_be 3 n ++ [kind; flags] ++ to_be 4 id'). split_and!; [by rewrite <- !app_assoc|reflexivity| |done].
  cbn [decode h2_format]. f_equal. unfold header_of, h2_header. fold n.
  assert (from_be (take 3 (to_be 3 n ++ [kind; flags] ++ to_be 4 id')) = n) as ->.
  { rewrite take_app_length'; [|by rewrite length_to_be]. apply from_to_be_small. lia. }
  assert (from_be (drop 5 (to_be 3 n ++ [kind; flags] ++ to_be 4 id')) = id') as ->.
  { rewrite app_assoc, drop_app_length'; [|done]. apply from_to_be_small. unfold id'. destruct reserved; lia. }
  rewrite !lookup_app_r by (rewrite length_to_be; lia). rewrite length_to_be. cbn. f_equal.
  unfold id'. destruct reserved.
  - rewrite <- Z.add_mod_idemp_r, Z.mod_same, Z.add_0_r by lia. apply Z.mod_small. lia.
  - rewrite Z.add_0_r. apply Z.mod_small. lia.
Qed.

(** A frame the server sends: the reserved bit, kind, flags, stream, payload. *)
Record sent := Sent { s_reserved : bool; s_kind : byte; s_flags : byte; s_stream : Z; s_payload : bytes }.
Definition sent_ok (s : sent) : Prop := (Z.of_nat (length (s_payload s)) < 2 ^ 24)%Z /\ (0 <= s_stream s < 2 ^ 31)%Z.
Definition sent_header (s : sent) : FrameHeader := h2_header (s_kind s) (s_flags s) (s_stream s) (s_payload s).
Definition sent_wire (s : sent) : bytes := h2_wire (s_reserved s) (s_kind s) (s_flags s) (s_stream s) (s_payload s).

(** The [DATA] bytes among the items. *)
Definition data_bytes (i : Item) : nat :=
  match i with Body h chunk _ => if decide (fh_kind h = frame_type.DATA) then length chunk else 0 | Control _ => 0 end.

Lemma h2_new_ok k : (Z.of_nat k < 2 ^ 32)%Z -> h2_ok k new.
Proof. intros Hk. unfold h2_ok, new, FRAME_HEADER_LEN. cbn. split_and!; try (done || lia). Qed.

Lemma sent_frames frames : Forall sent_ok frames ->
  Forall2 (fun '(h, p) w => frame_on_wire h2_format h p w) (map (fun s => (sent_header s, s_payload s)) frames) (map sent_wire frames).
Proof.
  induction 1 as [|s frames [Hl Hid] _ IH]; cbn [map]; constructor; [by apply h2_wire_frame|done].
Qed.

(** The server's frames arrive as they were sent, however the records cut
    them: frames of every kind, known or not, with the reserved bit set or not,
    in any reads, are delivered one by one with their own header. *)
Theorem h2_frames_delivered (frames : list sent) (reads : list bytes) :
  Forall sent_ok frames -> concat reads = concat (map sent_wire frames) -> (Z.of_nat (length (concat reads)) < 2 ^ 32)%Z ->
  exists r items, read_all new reads = Ok (r, items) /\ h2_at r = between /\
    events_of h2_format items = concat (map (fun s => h2_delivered (sent_header s) (s_payload s)) frames).
Proof.
  intros Hf Hc Hlen.
  destruct (read_frames h2_format new (map (fun s => (sent_header s, s_payload s)) frames) (map sent_wire frames) reads 0)
    as (r & items & Hr & _ & Hp & Hev); [apply h2_new_ok; lia|done|by apply sent_frames|done|].
  exists r, items. split_and!; [done..|]. rewrite Hev, map_map. f_equal. apply map_ext. intros s. apply h2_frame_events.
Qed.

Lemma h2_frames_delivered_witness :
  let settings := Sent true frame_type.SETTINGS x00 0 [x00; x04; x00; x00; xff; xff] in
  let data := Sent false frame_type.DATA flag.END_STREAM 1 (bs "hi") in
  exists r items, read_all new [take 4 (sent_wire settings); drop 4 (sent_wire settings) ++ take 10 (sent_wire data); drop 10 (sent_wire data)]
      = Ok (r, items) /\ h2_at r = between /\
    events_of h2_format items =
      EvCaptured (sent_header settings) [x00; x04; x00; x00; xff; xff] :: body_events (sent_header data) (bs "hi") true ++ [].
Proof.
  apply (h2_frames_delivered [Sent true frame_type.SETTINGS x00 0 [x00; x04; x00; x00; xff; xff];
    Sent false frame_type.DATA flag.END_STREAM 1 (bs "hi")]).
  - repeat constructor; vm_compute; congruence.
  - reflexivity.
  - vm_compute. reflexivity.
Defined.

(** ** Flow control *)

Definition total_data (items : list Item) : Z := Z.of_nat (sum_list (map data_bytes items)).

Lemma turn_pending r input pos k : h2_ok (length input - pos + k) r -> pos <= length input ->
  match feed_turn r input pos with
  | Ok (Continue r' _) => pending_window r' = pending_window r
  | Ok (Return r' _ i) => pending_window r' = (pending_window r + Z.of_nat (from_option data_bytes 0%nat i))%Z
  | _ => True
  end.
Proof.
  intros (Hh & Hc & Hrem & Hw & Hk & Hs) Hp.
  destruct (feed_turn r input pos) as [[r' pos'|r' pos' i]|e| |] eqn:E; try done; revert E; unfold feed_turn;
    destruct (state r) eqn:Es; intros E; inv_ok; simplify_eq/=; try lia.
  - destruct (is_control _); cbn; [lia|case_decide; cbn; lia].
  - apply uadd_Ok_inv in H5 as [-> _]. rewrite decide_True by done. apply nsub_Ok_inv in H as [-> _].
    apply slice_Ok_inv in H1 as [-> ?]. rewrite (h2_wrap_small _ (remaining r)) by lia.
    rewrite length_take, length_drop. case_bool_decide; cbn; lia.
  - rewrite decide_False by done. case_bool_decide; cbn; lia.
Qed.

Lemma feed_pending fuel r input pos k r' n i : h2_ok (length input - pos + k) r -> pos <= length input ->
  feed_loop feed_turn fuel r input pos = Ok (r', n, i) ->
  pending_window r' = (pending_window r + Z.of_nat (from_option data_bytes 0%nat i))%Z.
Proof.
  revert r pos. induction fuel as [|fuel IH]; intros r pos Hr Hp E; [done|]. cbn [feed_loop] in E.
  apply obind_Ok_inv in E as (t & Et & E).
  pose proof (turn_pending r input pos k Hr Hp) as Hpend. pose proof (h2_feed_turn_steps r input pos k Hr Hp) as Hs.
  rewrite Et in Hpend, Hs. destruct t as [r1 p1|r1 p1 i1]; cbn [turn_steps] in Hs.
  - rewrite <- Hpend. destruct Hs as (Hr1 & Hp1 & _). apply (IH r1 p1 Hr1 ltac:(lia) E).
  - by simplify_eq.
Qed.

(** What an item always satisfies: a control frame's payload lies inside its
    buffer, and a body item without bytes is an empty frame, whole. *)
Definition item_ok (i : Item) : Prop :=
  match i with
  | Control c => payload_len c <= length (cf_payload c)
  | Body _ chunk ends => chunk = [] -> ends = true
  end.

Lemma turn_item_ok r input pos k : h2_ok (length input - pos + k) r -> pos <= length input ->
  match feed_turn r input pos with Ok (Return _ _ (Some i)) => item_ok i | _ => True end.
Proof.
  intros (Hh & Hc & Hrem & Hw & Hk & Hs) Hp.
  destruct (feed_turn r input pos) as [[|r' pos' [i|]]|e| |] eqn:E; try done; revert E; unfold feed_turn;
    destruct (state r) eqn:Es; intros E; inv_ok; simplify_eq/=; unfold item_ok; try lia.
  - destruct (is_control _); [cbn; lia|done].
  - unfold copy_range in H3. case_decide; [|done]. apply Ok_inj in H3 as <-. rewrite length_overwrite; lia.
  - intros ->. exfalso. apply nsub_Ok_inv in H as [-> _]. apply slice_Ok_inv in H1 as [He ?]. apply (f_equal length) in He.
    rewrite length_take, length_drop in He. simpl in He. lia.
  - intros ->. exfalso. apply nsub_Ok_inv in H as [-> _]. apply slice_Ok_inv in H1 as [He ?]. apply (f_equal length) in He.
    rewrite length_take, length_drop in He. simpl in He. lia.
Qed.

Lemma feed_item_ok fuel r input pos k r' n i : h2_ok (length input - pos + k) r -> pos <= length input ->
  feed_loop feed_turn fuel r input pos = Ok (r', n, Some i) -> item_ok i.
Proof.
  revert r pos. induction fuel as [|fuel IH]; intros r pos Hr Hp E; [done|]. cbn [feed_loop] in E.
  apply obind_Ok_inv in E as (t & Et & E).
  pose proof (turn_item_ok r input pos k Hr Hp) as Hi. pose proof (h2_feed_turn_steps r input pos k Hr Hp) as Hs.
  rewrite Et in Hi, Hs. destruct t as [r1 p1|r1 p1 i1]; cbn [turn_steps] in Hs.
  - destruct Hs as (Hr1 & Hp1 & _). apply (IH r1 p1 Hr1 ltac:(lia) E).
  - by simplify_eq.
Qed.

Lemma read_loop_pending fuel r input k r' items : h2_ok (length input + k) r -> read_loop fuel r input = Ok (r', items) ->
  pending_window r' = (pending_window r + total_data items)%Z /\ h2_ok k r'.
Proof.
  revert r input items. induction fuel as [|fuel IH]; intros r input items Hr E; (destruct input as [|b l]; [cbn in E; simplify_eq; unfold total_data; simpl; split; [lia|done]|]); [done|].
  cbn [read_loop] in E. apply obind_Ok_inv in E as ([[r1 n] i] & Ef & E). apply obind_Ok_inv in E as ([r2 it] & El & E). simplify_eq.
  pose proof (feed_steps (FramingLaws:=h2_framing_laws) r (b :: l) k Hr) as Hs. rewrite Ef in Hs. destruct Hs as (Hr1 & Hn & _).
  destruct (IH r1 (drop n (b :: l)) it ltac:(by rewrite length_drop) El) as [-> Hr2]. split; [|done].
  rewrite <- (Nat.sub_0_r (length (b :: l))) in Hr. pose proof (feed_pending 3 r (b :: l) 0 k r1 n i Hr ltac:(lia) Ef) as ->.
  unfold total_data. rewrite map_app, sum_list_with_app. destruct i as [i|]; simpl; lia.
Qed.

Lemma read_all_pending r reads k r' items : h2_ok (length (concat reads) + k) r -> read_all r reads = Ok (r', items) ->
  pending_window r' = (pending_window r + total_data items)%Z /\ h2_ok k r'.
Proof.
  revert r items. induction reads as [|input reads IH]; intros r items Hr E; cbn [read_all concat] in *.
  { simplify_eq. unfold total_data. simpl. split; [lia|done]. }
  rewrite length_app, <- Nat.add_assoc in Hr. apply obind_Ok_inv in E as ([r1 i1] & E1 & E). apply obind_Ok_inv in E as ([r2 i2] & E2 & E). simplify_eq.
  destruct (read_loop_pending _ r input _ r1 i1 Hr E1) as [Hp1 Hr1]. destruct (IH r1 i2 Hr1 E2) as [-> Hr2]. split; [|done].
  rewrite Hp1. unfold total_data. rewrite map_app, sum_list_with_app. lia.
Qed.

Lemma read_all_total r reads k : h2_ok (length (concat reads) + k) r -> exists r' items, read_all r reads = Ok (r', items).
Proof.
  intros Hr. pose proof (read_all_spec h2_format r reads k Hr) as Hs.
  destruct (read_all r reads) as [[r' items]|[]| |]; [by eexists _, _|by destruct (run _ _ _)..].
Qed.

(** Flow control counts every byte: whatever is read, [take_pending_window]
    gives exactly the [DATA] payload handed out since it was last taken, and
    starts again from zero. *)
Theorem h2_window_accounted (reads more : list bytes) :
  (Z.of_nat (length (concat reads)) < 2 ^ 32)%Z -> (Z.of_nat (length (concat more)) < 2 ^ 32)%Z ->
  exists r items r' items', read_all new reads = Ok (r, items) /\ (take_pending_window r).1 = total_data items /\
    read_all (take_pending_window r).2 more = Ok (r', items') /\ (take_pending_window r').1 = total_data items'.
Proof.
  intros H1 H2. pose proof (h2_new_ok (length (concat reads) + 0) ltac:(lia)) as Hn.
  destruct (read_all_total new reads 0 Hn) as (r & items & E1). destruct (read_all_pending _ _ _ _ _ Hn E1) as [Hp1 Hr].
  assert (h2_ok (length (concat more) + 0) (take_pending_window r).2) as Hr0.
  { destruct Hr as (? & ? & ? & ? & ? & ?). unfold h2_ok. cbn. split_and!; try (done || lia). }
  destruct (read_all_total _ more 0 Hr0) as (r' & items' & E2). destruct (read_all_pending _ _ _ _ _ Hr0 E2) as [Hp2 _].
  exists r, items, r', items'. by split_and!.
Qed.

Lemma h2_window_accounted_witness :
  let data := sent_wire (Sent false frame_type.DATA x00 1 (bs "hi")) in
  exists r items r' items', read_all new [take 10 data; drop 10 data] = Ok (r, items) /\ (take_pending_window r).1 = total_data items /\
    read_all (take_pending_window r).2 [data] = Ok (r', items') /\ (take_pending_window r').1 = total_data items'.
Proof.
  apply (h2_window_accounted [take 10 (sent_wire (Sent false frame_type.DATA x00 1 (bs "hi"))); drop 10 (sent_wire (Sent false frame_type.DATA x00 1 (bs "hi")))]
    [sent_wire (Sent false frame_type.DATA x00 1 (bs "hi"))]); vm_compute; reflexivity.
Defined.
