(* ===== verification/H2Writer.v ===== *)
(** Writing HTTP/2 frames and the request header block: the writer of [h2.rs].

    Every operation appends one frame, in the wire form [h2_wire] that
    [H2Reader] reads. [hpack_decode] is a reference decoder after RFC 7541, for
    the representations and the static-table entries that occur. *)
From S2P Require Import Prelude Decimal Buffer Framing H2Reader.

Definition PREFACE : bytes := bs "PRI * HTTP/2.0" ++ [x0d; x0a; x0d; x0a] ++ bs "SM" ++ [x0d; x0a; x0d; x0a].

Module setting.
Definition HEADER_TABLE_SIZE : Z := 1.
Definition ENABLE_PUSH : Z := 2.
Definition INITIAL_WINDOW_SIZE : Z := 4.
Definition MAX_FRAME_SIZE : Z := 5.
End setting.

Inductive H2Error := ShortBuffer.

Definition put (w : writer) (b : bytes) : outcome H2Error writer := wput ShortBuffer w b.
Definition put_u8 (w : writer) (b : byte) : outcome H2Error writer := put w [b].
Definition preface (w : writer) : outcome H2Error writer := put w PREFACE.

Definition frame_header (w : writer) (len : Z) (kind flags : byte) (stream_id : Z) : outcome H2Error writer :=
  let l := to_be 4 len in
  let? w := put w (drop 1 l ++ [kind; flags]) in
  put w (to_be 4 stream_id).

(** The loop over the four entries of [settings]. *)
Fixpoint put_entries (w : writer) (entries : list (Z * Z)) : outcome H2Error writer :=
  match entries with
  | [] => Ok w
  | (id, val) :: entries =>
      let? w := put w (to_be 2 id) in
      let? w := put w (to_be 4 val) in
      put_entries w entries
  end.
Definition settings_entries (initial_window max_frame : Z) : list (Z * Z) :=
  [(setting.HEADER_TABLE_SIZE, 0%Z); (setting.ENABLE_PUSH, 0%Z);
   (setting.INITIAL_WINDOW_SIZE, initial_window); (setting.MAX_FRAME_SIZE, max_frame)].
Definition settings (w : writer) (initial_window max_frame : Z) : outcome H2Error writer :=
  let entries := settings_entries initial_window max_frame in
  let? w := frame_header w (Z.of_nat (length entries * 6)) frame_type.SETTINGS x00 0 in
  put_entries w entries.

Definition settings_ack (w : writer) : outcome H2Error writer := frame_header w 0 frame_type.SETTINGS flag.ACK 0.

Definition ping_ack (w : writer) (payload : bytes) : outcome H2Error writer :=
  let n := length payload `min` 8 in
  let? p := slice payload 0 n in
  let? data := copy_range (zeros 8) 0 n p in
  let? w := frame_header w 8 frame_type.PING flag.ACK 0 in
  put w data.

Definition window_update (w : writer) (stream_id increment : Z) : outcome H2Error writer :=
  let? w := frame_header w 4 frame_type.WINDOW_UPDATE x00 stream_id in
  put w (to_be 4 (Z.land increment 0x7fffffff)).

Definition data (w : writer) (stream_id : Z) (payload : bytes) (end_stream : bool) : outcome H2Error writer :=
  let flags := if end_stream then flag.END_STREAM else x00 in
  let? w := frame_header w (wrap 32 (Z.of_nat (length payload))) frame_type.DATA flags stream_id in
  put w payload.

(** [write_usize]; a [usize] has at most 20 digits. *)
Definition write_usize (v : Z) : outcome H2Error bytes :=
  let buf := zeros 20 in
  if decide (v = 0)%Z then
    let? buf := set_at buf 0 x30 in slice buf 0 1
  else
    let? (i, buf) := dec_loop 21 v 20 buf in dec_compact 20 i buf.

(** The [while rest >= 128] of [encode_integer]; a [u32] needs at most four turns. *)
Fixpoint integer_loop (fuel : nat) (w : writer) (rest : Z) : outcome H2Error (writer * Z) :=
  if decide (128 <= rest)%Z then
    match fuel with
    | O => NoFuel
    | S fuel =>
        let? w := put_u8 w (zb (rest mod 128 + 128)) in
        integer_loop fuel w (rest / 128)
    end
  else Ok (w, rest).
Definition encode_integer (w : writer) (value prefix_bits : Z) (flags : byte) : outcome H2Error writer :=
  let max := (Z.shiftl 1 prefix_bits - 1)%Z in
  if decide (value < max)%Z then put_u8 w (bor flags (zb value))
  else
    let? w := put_u8 w (bor flags (zb max)) in
    let? (w, rest) := integer_loop 5 w (value - max) in
    put_u8 w (zb rest).

Definition literal (w : writer) (name_index : Z) (value : bytes) : outcome H2Error writer :=
  let? w := encode_integer w name_index 4 x10 in
  let? w := encode_integer w (wrap 32 (Z.of_nat (length value))) 7 x00 in
  put w value.

Definition literal_named (w : writer) (name value : bytes) : outcome H2Error writer :=
  let? w := put_u8 w x10 in
  let? w := encode_integer w (wrap 32 (Z.of_nat (length name))) 7 x00 in
  let? w := put w name in
  let? w := encode_integer w (wrap 32 (Z.of_nat (length value))) 7 x00 in
  put w value.

Definition post_headers (w : writer) (stream_id : Z) (authority path : bytes) (content_length : Z) : outcome H2Error writer :=
  let b := Writer (zeros 256) 0 in
  let? b := put_u8 b x83 in
  let? b := put_u8 b x86 in
  let? b := literal b 4 path in
  let? b := literal b 1 authority in
  let? b := literal_named b (bs "content-type") (bs "application/json") in
  let? len_str := write_usize content_length in
  let? b := literal_named b (bs "content-length") len_str in
  let block_len := w_pos b in
  let? w := frame_header w (wrap 32 (Z.of_nat block_len)) frame_type.HEADERS flag.END_HEADERS stream_id in
  let? block := slice (w_buf b) 0 block_len in
  put w block.

(** [settings_iter]: the identifiers and values of a SETTINGS payload. *)
Definition settings_iter (payload : bytes) : list (Z * Z) :=
  map (fun c => (from_be (take 2 c), from_be (drop 2 c))) (chunks_exact 6 payload).

(** ** HPACK, after RFC 7541 *)

(** Section 5.1: an integer with a prefix of [n] bits. *)
Fixpoint decode_rest (l : bytes) : option (Z * bytes) :=
  match l with
  | [] => None
  | b :: l =>
      if decide (bz b < 128)%Z then Some (bz b, l)
      else '(v, l) ← decode_rest l; Some ((bz b - 128) + 128 * v, l)%Z
  end.
Definition decode_integer (n : Z) (l : bytes) : option (Z * bytes) :=
  match l with
  | [] => None
  | b :: l =>
      let v := (bz b mod 2 ^ n)%Z in
      if decide (v < 2 ^ n - 1)%Z then Some (v, l)
      else '(r, l) ← decode_rest l; Some (v + r, l)%Z
  end.
(** Section 5.2, without Huffman coding. *)
Definition decode_string (l : bytes) : option (bytes * bytes) :=
  match l with
  | b :: _ =>
      if decide (128 <= bz b)%Z then None
      else
        '(n, l) ← decode_integer 7 l;
        if decide (Z.to_nat n <= length l) then Some (take (Z.to_nat n) l, drop (Z.to_nat n) l) else None
  | [] => None
  end.
(** Appendix A, the first seven entries. *)
Definition static_table : list (bytes * bytes) :=
  [(bs ":authority", []); (bs ":method", bs "GET"); (bs ":method", bs "POST"); (bs ":path", bs "/");
   (bs ":path", bs "/index.html"); (bs ":scheme", bs "http"); (bs ":scheme", bs "https")].
Definition static_entry (i : Z) : option (bytes * bytes) := static_table !! pred (Z.to_nat i).
(** Section 6.1 (indexed) and 6.2.3 (literal never indexed). *)
Definition decode_field (l : bytes) : option (bytes * bytes * bytes) :=
  match l with
  | [] => None
  | b :: _ =>
      if decide (128 <= bz b)%Z then
        '(i, l) ← decode_integer 7 l; '(n, v) ← static_entry i; Some (n, v, l)
      else if decide (16 <= bz b < 32)%Z then
        '(i, l) ← decode_integer 4 l;
        if decide (i = 0)%Z then
          '(n, l) ← decode_string l; '(v, l) ← decode_string l; Some (n, v, l)
        else
          '(n, _) ← static_entry i; '(v, l) ← decode_string l; Some (n, v, l)
      else None
  end.
Fixpoint hpack_decode (fuel : nat) (l : bytes) : option (list (bytes * bytes)) :=
  match l with
  | [] => Some []
  | _ =>
      match fuel with
      | O => None
      | S fuel => '(n, v, l) ← decode_field l; fs ← hpack_decode fuel l; Some ((n, v) :: fs)
      end
  end.

(** ** Proofs *)

Lemma put_app w a b : (let? w := put w a in put w b) = put w (a ++ b).
Proof. apply wput_app. Qed.
Lemma put_app_k {A} w a b (k : writer -> outcome H2Error A) :
  (let? w := put w a in let? w := put w b in k w) = let? w := put w (a ++ b) in k w.
Proof. apply wput_app_k. Qed.

Lemma put_cons w b l : (let? w := put_u8 w b in put w l) = put w (b :: l).
Proof. apply (put_app w [b]). Qed.

Lemma frame_header_spec w len kind flags id : frame_header w len kind flags id = put w (to_be 3 len ++ [kind; flags] ++ to_be 4 id).
Proof.
  unfold frame_header. rewrite put_app. rewrite <- app_assoc. f_equal.
Qed.

(** Header, then payload: one frame. *)
Lemma frame_spec w kind flags id p :
  (let? w := frame_header w (Z.of_nat (length p)) kind flags id in put w p) = put w (h2_wire false kind flags id p).
Proof.
  rewrite frame_header_spec, put_app. unfold h2_wire. rewrite Z.add_0_r. by rewrite <- !app_assoc.
Qed.

Definition entries_bytes (es : list (Z * Z)) : bytes := concat (map (fun e => to_be 2 e.1 ++ to_be 4 e.2) es).

Lemma put_entries_spec w es : writer_ok w -> put_entries w es = put w (entries_bytes es).
Proof.
  revert w. induction es as [|[id v] es IH]; intros w Hw; cbn [put_entries entries_bytes map concat].
  { by rewrite (wput_nil ShortBuffer). }
  cbn [fst snd]. rewrite put_app_k. fold (entries_bytes es). rewrite <- (put_app w (_ ++ _)).
  destruct (put w (to_be 2 id ++ to_be 4 v)) as [w'| | |] eqn:E; try done. cbn [obind]. apply IH.
  apply wput_Ok in E as [Hl ->]. by apply advance_ok.
Qed.

Lemma settings_iter_entries es : Forall (fun e => 0 <= e.1 < 2 ^ 16 /\ 0 <= e.2 < 2 ^ 32)%Z es -> settings_iter (entries_bytes es) = es.
Proof.
  unfold settings_iter, chunks_exact. induction 1 as [|[id v] es [Hid Hv] _ IH]; [done|].
  cbn [entries_bytes map concat fst snd]. fold (entries_bytes es).
  assert (length (to_be 2 id ++ to_be 4 v) = 6) as Hl by done.
  rewrite chunks_step by (lia || by destruct (to_be 2 id)).
  rewrite (take_app_length' _ _ 6), (drop_app_length' _ _ 6) by done.
  rewrite filter_cons, decide_True by done. cbn [map]. rewrite IH. f_equal.
  rewrite take_app_length', drop_app_length' by done. cbn [fst snd] in *. by rewrite !from_to_be_small by lia.
Qed.

Lemma write_usize_dec v : (0 <= v < 2 ^ 64)%Z -> write_usize v = Ok (dec v).
Proof.
  intros Hv. unfold write_usize. case_decide as H0; [by subst|].
  rewrite dec_loop_compact by lia. f_equal. apply dec_aux_dec; lia.
Qed.

(** *** Integers *)
Fixpoint rest_bytes (fuel : nat) (v : Z) : bytes :=
  if decide (128 <= v)%Z then
    match fuel with O => [] | S fuel => zb (v mod 128 + 128) :: rest_bytes fuel (v / 128) end
  else [zb v].
Definition int_bytes (v n : Z) (flags : byte) : bytes :=
  if decide (v < 2 ^ n - 1)%Z then [bor flags (zb v)] else bor flags (zb (2 ^ n - 1)) :: rest_bytes 5 (v - (2 ^ n - 1)).

Lemma integer_loop_spec fuel w v : (0 <= v < 128 ^ (Z.of_nat fuel + 1))%Z ->
  (let? (w, r) := integer_loop fuel w v in put_u8 w (zb r)) = put w (rest_bytes fuel v).
Proof.
  revert w v. induction fuel as [|fuel IH]; intros w v Hv; cbn [integer_loop rest_bytes].
  - rewrite decide_False by (simpl in Hv; lia). by rewrite decide_False by (simpl in Hv; lia).
  - case_decide; [|done]. rewrite obind_assoc, <- put_cons.
    destruct (put_u8 w _) as [w'| | |]; try done. cbn [obind]. apply IH.
    rewrite Nat2Z.inj_succ, Z.pow_add_r, Z.pow_succ_r in Hv by lia. rewrite Z.pow_add_r by lia.
    split; [apply Z.div_pos; lia|]. apply Z.div_lt_upper_bound; lia.
Qed.

Lemma encode_integer_spec w v n flags : (0 <= v < 2 ^ 32)%Z -> (1 <= n <= 8)%Z ->
  encode_integer w v n flags = put w (int_bytes v n flags).
Proof.
  intros Hv Hn. unfold encode_integer, int_bytes. rewrite Z.shiftl_1_l.
  pose proof (Z.pow_pos_nonneg 2 n ltac:(lia) ltac:(lia)) as Hp.
  case_decide; [done|]. rewrite <- put_cons. destruct (put_u8 w _) as [w'| | |]; try done. cbn [obind].
  apply integer_loop_spec. simpl. lia.
Qed.

Lemma decode_rest_bytes fuel v l : (0 <= v < 128 ^ (Z.of_nat fuel + 1))%Z -> decode_rest (rest_bytes fuel v ++ l) = Some (v, l).
Proof.
  revert v. induction fuel as [|fuel IH]; intros v Hv; cbn [rest_bytes].
  - rewrite decide_False by (simpl in Hv; lia). cbn [app decode_rest]. rewrite bz_zb_small by (simpl in Hv; lia).
    by rewrite decide_True by (simpl in Hv; lia).
  - case_decide.
    + pose proof (Z.mod_pos_bound v 128). cbn [app decode_rest]. rewrite bz_zb_small by lia. rewrite decide_False by lia.
      rewrite Nat2Z.inj_succ, Z.pow_add_r, Z.pow_succ_r in Hv by lia. rewrite IH.
      * cbn. do 2 f_equal. pose proof (Z.div_mod v 128). lia.
      * rewrite Z.pow_add_r by lia. split; [apply Z.div_pos; lia|]. apply Z.div_lt_upper_bound; lia.
    + cbn [app decode_rest]. rewrite bz_zb_small by lia. by rewrite decide_True by lia.
Qed.

(** The flags sit above the prefix. *)
Lemma bz_flags flags k n v : (0 <= n)%Z -> bz flags = (k * 2 ^ n)%Z -> (0 <= v < 2 ^ n)%Z -> (k * 2 ^ n + v < 256)%Z -> (0 <= k)%Z ->
  bz (bor flags (zb v)) = (k * 2 ^ n + v)%Z.
Proof.
  intros Hn Hf Hv Hb Hk. unfold bor. pose proof (bz_range flags). rewrite (bz_zb_small v) by nia.
  assert (Z.lor (k * 2 ^ n) v = k * 2 ^ n + v)%Z as Hor by (rewrite <- (Z.shiftl_mul_pow2 k n) at 1 by lia; apply lor_shiftl; lia).
  rewrite Hf, Hor. apply bz_zb_small. nia.
Qed.

Lemma decode_int_bytes v n k flags l : (0 <= v < 2 ^ 32)%Z -> (1 <= n <= 7)%Z -> (0 <= k)%Z -> bz flags = (k * 2 ^ n)%Z -> ((k + 1) * 2 ^ n <= 256)%Z ->
  decode_integer n (int_bytes v n flags ++ l) = Some (v, l) /\
  exists b t, int_bytes v n flags = b :: t /\ (k * 2 ^ n <= bz b < (k + 1) * 2 ^ n)%Z.
Proof.
  intros Hv Hn Hk Hf Hb. pose proof (Z.pow_pos_nonneg 2 n ltac:(lia) ltac:(lia)) as Hp. unfold int_bytes. case_decide as Hd.
  - assert (bz (bor flags (zb v)) = k * 2 ^ n + v)%Z as E by (apply bz_flags; lia).
    split; [|eexists _, _; split; [done|]; rewrite E; lia].
    cbn [app decode_integer]. rewrite E, Z.add_comm, Z.mod_add, Z.mod_small by lia. by rewrite decide_True by lia.
  - assert (bz (bor flags (zb (2 ^ n - 1))) = k * 2 ^ n + (2 ^ n - 1))%Z as E by (apply bz_flags; lia).
    split; [|eexists _, _; split; [done|]; rewrite E; lia].
    cbn [app decode_integer]. rewrite E, Z.add_comm, Z.mod_add, Z.mod_small by lia. rewrite decide_False by lia.
    rewrite decode_rest_bytes by (simpl; lia). cbn. do 2 f_equal. lia.
Qed.

(** *** Strings, fields, the block *)
Definition string_bytes (s : bytes) : bytes := int_bytes (Z.of_nat (length s)) 7 x00 ++ s.

(** A length the code can cast to [u32]. *)
Definition fits_u32 (s : bytes) : Prop := (Z.of_nat (length s) < 2 ^ 32)%Z.

Lemma wrap_length s : fits_u32 s -> wrap 32 (Z.of_nat (length s)) = Z.of_nat (length s).
Proof. intros. unfold wrap. apply Z.mod_small. unfold fits_u32 in *. lia. Qed.

Lemma decode_string_bytes s l : fits_u32 s -> decode_string (string_bytes s ++ l) = Some (s, l).
Proof.
  intros Hs. unfold fits_u32 in Hs. unfold string_bytes. rewrite <- app_assoc.
  destruct (decode_int_bytes (Z.of_nat (length s)) 7 0 x00 (s ++ l)) as [Hd (b & t & Hb & Hr)]; try (done || lia).
  rewrite Hb in *. cbn [app decode_string] in *. rewrite decide_False by lia. rewrite Hd. cbn. rewrite Nat2Z.id.
  rewrite decide_True by len. by rewrite take_app_length, drop_app_length.
Qed.

Definition literal_bytes (i : Z) (v : bytes) : bytes := int_bytes i 4 x10 ++ string_bytes v.
Definition literal_named_bytes (n v : bytes) : bytes := x10 :: string_bytes n ++ string_bytes v.

Lemma literal_spec w i v : (0 < i < 15)%Z -> fits_u32 v -> literal w i v = put w (literal_bytes i v).
Proof.
  intros Hi Hv. unfold literal, literal_bytes, string_bytes. rewrite encode_integer_spec by lia. rewrite wrap_length by done.
  rewrite <- (put_app w (int_bytes i 4 x10)). destruct (put w _) as [w'| | |]; try done. cbn [obind].
  rewrite encode_integer_spec by (unfold fits_u32 in *; lia). apply put_app.
Qed.

Lemma literal_named_spec w n v : fits_u32 n -> fits_u32 v -> literal_named w n v = put w (literal_named_bytes n v).
Proof.
  intros Hn Hv. unfold literal_named, literal_named_bytes, string_bytes. rewrite !wrap_length by done. rewrite <- put_cons.
  destruct (put_u8 w x10) as [w1| | |]; try done. cbn [obind]. rewrite <- app_assoc, <- put_app.
  rewrite encode_integer_spec by (unfold fits_u32 in *; lia). destruct (put w1 _) as [w2| | |]; try done. cbn [obind].
  rewrite <- put_app. destruct (put w2 n) as [w3| | |]; try done. cbn [obind].
  rewrite encode_integer_spec by (unfold fits_u32 in *; lia). apply put_app.
Qed.

Lemma decode_literal i n dv v l : (0 < i < 15)%Z -> static_entry i = Some (n, dv) -> fits_u32 v ->
  decode_field (literal_bytes i v ++ l) = Some (n, v, l).
Proof.
  intros Hi Hn Hv. unfold literal_bytes. rewrite <- app_assoc.
  destruct (decode_int_bytes i 4 1 x10 (string_bytes v ++ l)) as [Hd (b & t & Hb & Hr)]; try (done || lia).
  rewrite Hb in *. cbn [app decode_field] in *. rewrite decide_False by lia. rewrite decide_True by lia.
  rewrite Hd. cbn. rewrite decide_False by lia. rewrite Hn. cbn. by rewrite decode_string_bytes.
Qed.

Lemma decode_literal_named n v l : fits_u32 n -> fits_u32 v -> decode_field (literal_named_bytes n v ++ l) = Some (n, v, l).
Proof.
  intros Hn Hv. unfold literal_named_bytes. cbn [app decode_field].
  rewrite decide_False, decide_True by (change (bz x10) with 16%Z; lia).
  assert (forall t, decode_integer 4 (x10 :: t) = Some (0%Z, t)) as -> by done. cbn.
  rewrite <- app_assoc, decode_string_bytes by done. cbn. by rewrite decode_string_bytes.
Qed.

Definition block_bytes (authority path digits : bytes) : bytes :=
  [x83; x86] ++ literal_bytes 4 path ++ literal_bytes 1 authority ++
  literal_named_bytes (bs "content-type") (bs "application/json") ++ literal_named_bytes (bs "content-length") digits.

Definition request_fields (authority path digits : bytes) : list (bytes * bytes) :=
  [(bs ":method", bs "POST"); (bs ":scheme", bs "http"); (bs ":path", path); (bs ":authority", authority);
   (bs "content-type", bs "application/json"); (bs "content-length", digits)].

Lemma hpack_decode_cons fuel l n v r : l <> [] -> decode_field l = Some (n, v, r) ->
  hpack_decode (S fuel) l = (fs ← hpack_decode fuel r; Some ((n, v) :: fs)).
Proof. intros Hl Hd. destruct l as [|b l]; [done|]. cbn [hpack_decode]. by rewrite Hd. Qed.

Lemma block_decodes authority path digits : fits_u32 authority -> fits_u32 path -> fits_u32 digits ->
  hpack_decode 6 (block_bytes authority path digits) = Some (request_fields authority path digits).
Proof.
  intros Ha Hp Hd. unfold block_bytes. cbn [app].
  erewrite hpack_decode_cons; [|done|reflexivity]. erewrite hpack_decode_cons; [|done|reflexivity].
  erewrite hpack_decode_cons; [|done|by apply (decode_literal 4 _ (bs "/"))].
  erewrite hpack_decode_cons; [|done|by apply (decode_literal 1 _ [])].
  erewrite hpack_decode_cons; [|done|by apply decode_literal_named].
  rewrite <- (app_nil_r (literal_named_bytes _ digits)).
  erewrite hpack_decode_cons; [|done|by apply decode_literal_named]. done.
Qed.

Lemma build_block authority path n : fits_u32 authority -> fits_u32 path -> (0 <= n < 2 ^ 64)%Z ->
  (let? b := put_u8 (Writer (zeros 256) 0) x83 in
   let? b := put_u8 b x86 in
   let? b := literal b 4 path in
   let? b := literal b 1 authority in
   let? b := literal_named b (bs "content-type") (bs "application/json") in
   let? len_str := write_usize n in
   literal_named b (bs "content-length") len_str)
  = put (Writer (zeros 256) 0) (block_bytes authority path (dec n)).
Proof.
  intros Ha Hp Hn. unfold block_bytes. cbn [app]. rewrite <- put_cons. destruct (put_u8 _ x83) as [w1| | |]; try done. cbn [obind].
  rewrite <- put_cons. destruct (put_u8 w1 x86) as [w2| | |]; try done. cbn [obind].
  rewrite literal_spec by (lia || done). rewrite <- put_app. destruct (put w2 _) as [w3| | |]; try done. cbn [obind].
  rewrite literal_spec by (lia || done). rewrite <- put_app. destruct (put w3 _) as [w4| | |]; try done. cbn [obind].
  rewrite literal_named_spec by done. rewrite <- put_app. destruct (put w4 _) as [w5| | |]; try done. cbn [obind].
  rewrite write_usize_dec by done. cbn [obind]. apply literal_named_spec; [done|].
  unfold fits_u32. pose proof (dec_length n). lia.
Qed.

Lemma post_headers_spec w sid authority path n : fits_u32 authority -> fits_u32 path -> (0 <= n < 2 ^ 64)%Z ->
  let block := block_bytes authority path (dec n) in
  post_headers w sid authority path n =
    if decide (256 < length block) then Err ShortBuffer
    else put w (h2_wire false frame_type.HEADERS flag.END_HEADERS sid block).
Proof.
  intros Ha Hp Hn block. pose proof (build_block authority path n Ha Hp Hn) as Hb. fold block in Hb.
  transitivity (let? b := put (Writer (zeros 256) 0) block in
    let? w := frame_header w (wrap 32 (Z.of_nat (w_pos b))) frame_type.HEADERS flag.END_HEADERS sid in
    let? block := slice (w_buf b) 0 (w_pos b) in
    put w block).
  { rewrite <- Hb. unfold post_headers. rewrite !obind_assoc.
    repeat (match goal with |- obind ?m _ = obind ?m _ => destruct m as [?| | |]; [|done..] end; cbn [obind]; rewrite ?obind_assoc). done. }
  unfold put at 1. rewrite wput_eq. cbn [w_buf w_pos]. rewrite length_zeros, Nat.add_0_l.
  case_decide as Hl; [done|]. cbn [obind]. rewrite advance_start by (rewrite length_zeros; lia). cbn [w_buf w_pos].
  rewrite wrap_length by (unfold fits_u32; lia). rewrite <- frame_spec.
  destruct (frame_header w _ _ _ _) as [w'| | |]; try done. cbn [obind].
  by rewrite slice_app_l_exact by done.
Qed.

(** C33. The server can read our requests: [post_headers] appends one HEADERS
    frame whose block decodes, as RFC 7541 prescribes, to the POST request with
    this path, authority and content length; a block above 256 bytes and a
    full buffer are refused, and nothing else is. *)
Theorem post_headers_decodes (w : writer) (sid : Z) (authority path : bytes) (n : Z) :
  fits_u32 authority -> fits_u32 path -> (0 <= n < 2 ^ 64)%Z ->
  let block := block_bytes authority path (dec n) in
  hpack_decode 6 block = Some (request_fields authority path (dec n)) /\
  post_headers w sid authority path n =
    if decide (256 < length block) then Err ShortBuffer
    else put w (h2_wire false frame_type.HEADERS flag.END_HEADERS sid block).
Proof.
  intros Ha Hp Hn block. split; [|by apply post_headers_spec].
  apply block_decodes; try done. unfold fits_u32. pose proof (dec_length n). lia.
Qed.

Lemma post_headers_decodes_witness :
  let block := block_bytes (bs "controlplane.tailscale.com") (bs "/machine/map") (dec 345) in
  hpack_decode 6 block = Some (request_fields (bs "controlplane.tailscale.com") (bs "/machine/map") (dec 345)) /\
  post_headers (Writer (zeros 300) 0) 3 (bs "controlplane.tailscale.com") (bs "/machine/map") 345 =
    if decide (256 < length block) then Err ShortBuffer
    else put (Writer (zeros 300) 0) (h2_wire false frame_type.HEADERS flag.END_HEADERS 3 block).
Proof.
  apply (post_headers_decodes (Writer (zeros 300) 0) 3 (bs "controlplane.tailscale.com") (bs "/machine/map") 345);
    [vm_compute; reflexivity|vm_compute; reflexivity|lia].
Defined.

(** *** The other frames *)
Lemma settings_spec w iw mf : writer_ok w ->
  settings w iw mf = put w (h2_wire false frame_type.SETTINGS x00 0 (entries_bytes (settings_entries iw mf))).
Proof.
  intros Hw. rewrite <- frame_spec. unfold settings.
  destruct (frame_header w _ _ _ _) as [w'| | |] eqn:E; try done. cbn [obind]. apply put_entries_spec.
  rewrite frame_header_spec in E. apply wput_Ok in E as [Hl ->]. by apply advance_ok.
Qed.

Lemma settings_ack_spec w : settings_ack w = put w (h2_wire false frame_type.SETTINGS flag.ACK 0 []).
Proof. unfold settings_ack. rewrite frame_header_spec. unfold h2_wire. by rewrite app_nil_r. Qed.

Lemma ping_ack_spec w p : ping_ack w p = put w (h2_wire false frame_type.PING flag.ACK 0 (take 8 (p ++ zeros 8))).
Proof.
  unfold ping_ack. rewrite slice_to by lia. cbn [obind].
  rewrite copy_range_ok by (rewrite ?length_zeros, ?length_take; lia). cbn [obind].
  assert (overwrite (zeros 8) 0 (take (length p `min` 8) p) = take 8 (p ++ zeros 8)) as ->.
  2:{ rewrite <- frame_spec. replace (length (take 8 (p ++ zeros 8))) with 8 by (rewrite length_take, length_app, length_zeros; lia). done. }
  unfold overwrite, zeros. change (take 0 (replicate 8 x00)) with (@nil byte). rewrite app_nil_l, drop_replicate, take_app, length_take.
  rewrite take_replicate. destruct (decide (length p <= 8)).
  - rewrite !(take_ge p) by lia. do 2 f_equal. lia.
  - replace (length p `min` 8) with 8 by lia. do 2 f_equal. lia.
Qed.

Lemma window_update_spec w sid inc :
  window_update w sid inc = put w (h2_wire false frame_type.WINDOW_UPDATE x00 sid (to_be 4 (inc mod 2 ^ 31))).
Proof. unfold window_update. change 0x7fffffff%Z with (Z.ones 31). rewrite Z.land_ones by lia. rewrite <- frame_spec. by rewrite length_to_be. Qed.

Lemma data_spec w sid p fin : fits_u32 p ->
  data w sid p fin = put w (h2_wire false frame_type.DATA (if (fin : bool) then flag.END_STREAM else x00) sid p).
Proof. intros Hp. unfold data. rewrite wrap_length by done. apply frame_spec. Qed.

(** Every frame we send is one frame on the wire with the right length,
    flags and payload: our SETTINGS, whose payload [settings_iter] reads back to
    the four entries, its acknowledgement, a PING reply of eight bytes, a window
    update without the reserved bit, and DATA. *)
Theorem h2_frames_written (w : writer) :
  writer_ok w ->
  (forall iw mf, (0 <= iw < 2 ^ 32)%Z -> (0 <= mf < 2 ^ 32)%Z -> exists p,
     settings w iw mf = put w (h2_wire false frame_type.SETTINGS x00 0 p) /\ settings_iter p = [(1, 0); (2, 0); (4, iw); (5, mf)]%Z) /\
  settings_ack w = put w (h2_wire false frame_type.SETTINGS flag.ACK 0 []) /\
  (forall p, ping_ack w p = put w (h2_wire false frame_type.PING flag.ACK 0 (take 8 (p ++ zeros 8)))) /\
  (forall sid inc, window_update w sid inc = put w (h2_wire false frame_type.WINDOW_UPDATE x00 sid (to_be 4 (inc mod 2 ^ 31)))) /\
  (forall sid p fin, fits_u32 p -> data w sid p fin = put w (h2_wire false frame_type.DATA (if fin then flag.END_STREAM else x00) sid p)).
Proof.
  intros Hw. split_and!; [|apply settings_ack_spec|apply ping_ack_spec|apply window_update_spec|intros; by apply data_spec].
  intros iw mf Hi Hm. exists (entries_bytes (settings_entries iw mf)). split; [by apply settings_spec|].
  apply settings_iter_entries. repeat constructor; cbn; lia.
Qed.

Lemma h2_frames_written_witness :
  exists p, settings (Writer (zeros 64) 0) 65535 16384 = put (Writer (zeros 64) 0) (h2_wire false frame_type.SETTINGS x00 0 p) /\
    settings_iter p = [(1, 0); (2, 0); (4, 65535); (5, 16384)]%Z.
Proof. apply (h2_frames_written (Writer (zeros 64) 0)); [vm_compute; lia|lia|lia]. Defined.
