(* ===== verification/H2Events.v ===== *)
(** What the two clients share on HTTP/2: the events of the frames the server sends,
    as the caller of a request sees them, a complete response in terms of frames,
    and the frames a client sends of its own accord. *)
From S2P Require Import Prelude Framing H2Reader H2Writer.

(** ** Frames the clients send *)

Lemma length_h2_wire r k f i p : length (h2_wire r k f i p) = 9 + length p.
Proof. unfold h2_wire. rewrite !length_app, !length_to_be. simpl. lia. Qed.

(** The body of a request: [DATA] frames of up to 4068 bytes, the last one ending the stream. *)
Definition data_frame (sid : Z) (last : bool) (chunk : bytes) : sent :=
  Sent false frame_type.DATA (if last then flag.END_STREAM else x00) sid chunk.
Fixpoint body_frames (sid : Z) (cs : list bytes) : list sent :=
  match cs with
  | [] => []
  | [chunk] => [data_frame sid true chunk]
  | chunk :: cs => data_frame sid false chunk :: body_frames sid cs
  end.
Lemma body_frames_cons sid a b cs : body_frames sid (a :: b :: cs) = data_frame sid false a :: body_frames sid (b :: cs).
Proof. reflexivity. Qed.

Lemma length_body_frames sid cs : length (body_frames sid cs) = length cs.
Proof. induction cs as [|a [|b cs] IH]; cbn [body_frames length] in *; lia. Qed.

(** What the connection sends of its own accord. *)
Inductive reply : sent -> Prop :=
| reply_settings : reply (Sent false frame_type.SETTINGS flag.ACK 0 [])
| reply_ping p : length p = 8 -> reply (Sent false frame_type.PING flag.ACK 0 p)
| reply_credit n : (0 < n < 2 ^ 31)%Z -> reply (Sent false frame_type.WINDOW_UPDATE x00 0 (to_be 4 n)).
Definition credit (s : sent) : Z := if decide (s_kind s = frame_type.WINDOW_UPDATE) then from_be (s_payload s) else 0.
Definition total_credit (rs : list sent) : Z := foldr (fun s n => (credit s + n)%Z) 0%Z rs.

Lemma total_credit_app a b : total_credit (a ++ b) = (total_credit a + total_credit b)%Z.
Proof. induction a as [|s a IH]; [done|]. change (credit s + total_credit (a ++ b) = credit s + total_credit a + total_credit b)%Z. lia. Qed.

(** What a control frame asks for: SETTINGS and PING are acknowledged, a PING with
    the eight bytes it brought (zeros for those it lacks), and what acknowledges
    something itself is not. *)
Definition ack_of (kind flags : byte) (payload : bytes) : list sent :=
  if decide (band flags flag.ACK = x00) then
    if decide (kind = frame_type.SETTINGS) then [Sent false frame_type.SETTINGS flag.ACK 0 []]
    else if decide (kind = frame_type.PING) then [Sent false frame_type.PING flag.ACK 0 (take 8 (payload ++ zeros 8))]
    else []
  else [].
(** The acknowledgements that [frames] ask for, in their order. *)
Definition acks_for (frames : list sent) : list sent := concat (map (fun s => ack_of (s_kind s) (s_flags s) (s_payload s)) frames).
(** What of [rs] is not credit. *)
Definition acks (rs : list sent) : list sent := base.filter (fun s => s_kind s <> frame_type.WINDOW_UPDATE) rs.

(** ** Events *)

Definition event_acks (e : event FrameHeader) : list sent :=
  match e with EvCaptured h p => ack_of (fh_kind h) (fh_flags h) p | _ => [] end.
Definition asked_acks (ev : list (event FrameHeader)) : list sent := concat (map event_acks ev).

(** What the stream says to a caller waiting on stream [sid]: the body bytes,
    the end, and how many [DATA] bytes it must give credit for. *)
Definition data_of (sid : Z) (e : event FrameHeader) : bytes :=
  match e with EvByte h b _ => if decide (fh_kind h = frame_type.DATA /\ fh_stream_id h = sid) then [b] else [] | _ => [] end.
Definition our_data (sid : Z) (ev : list (event FrameHeader)) : bytes := concat (map (data_of sid) ev).
Definition ends_on (sid : Z) (e : event FrameHeader) : bool :=
  match e with
  | EvByte h _ last => bool_decide (fh_stream_id h = sid) && (last && end_stream h)
  | EvEmpty h => bool_decide (fh_stream_id h = sid) && end_stream h
  | EvCaptured _ _ => false
  end.
Definition ended (sid : Z) (ev : list (event FrameHeader)) : bool := existsb (ends_on sid) ev.
Definition data_byte (e : event FrameHeader) : nat :=
  match e with EvByte h _ _ => if decide (fh_kind h = frame_type.DATA) then 1 else 0 | _ => 0 end.
Definition data_count (ev : list (event FrameHeader)) : nat := sum_list (map data_byte ev).
(** The control frames among the events do not close the connection. *)
Definition stays_open (e : event FrameHeader) : Prop :=
  match e with EvCaptured h _ => fh_kind h <> frame_type.GOAWAY /\ fh_kind h <> frame_type.RST_STREAM | _ => True end.
Definition control_open (c : ControlFrame) : Prop :=
  payload_len c <= length (cf_payload c) /\ fh_kind (cf_header c) <> frame_type.GOAWAY /\ fh_kind (cf_header c) <> frame_type.RST_STREAM.

Lemma asked_acks_app a b : asked_acks (a ++ b) = asked_acks a ++ asked_acks b.
Proof. unfold asked_acks. by rewrite map_app, concat_app. Qed.
Lemma acks_app a b : acks (a ++ b) = acks a ++ acks b.
Proof. apply list.filter_app. Qed.
Lemma ack_of_acks kind flags p : acks (ack_of kind flags p) = ack_of kind flags p.
Proof. unfold ack_of. by repeat case_decide. Qed.
Lemma asked_acks_acks ev : acks (asked_acks ev) = asked_acks ev.
Proof.
  induction ev as [|e ev IH]; [done|]. change (asked_acks (e :: ev)) with (event_acks e ++ asked_acks ev). rewrite acks_app, IH.
  f_equal. destruct e; try done. apply ack_of_acks.
Qed.
Lemma ack_of_reply kind flags p : Forall reply (ack_of kind flags p) /\ total_credit (ack_of kind flags p) = 0%Z /\ length (ack_of kind flags p) <= 1.
Proof.
  unfold ack_of. repeat case_decide; (split; [|split; [done|simpl; lia]]); try constructor; try constructor.
  rewrite length_take, length_app, length_zeros. lia.
Qed.
Lemma asked_acks_reply ev : Forall reply (asked_acks ev) /\ total_credit (asked_acks ev) = 0%Z.
Proof.
  induction ev as [|e ev [IH1 IH2]]; [by split; [constructor|]|]. change (asked_acks (e :: ev)) with (event_acks e ++ asked_acks ev).
  rewrite total_credit_app, IH2. assert (Forall reply (event_acks e) /\ total_credit (event_acks e) = 0%Z) as [H1 ->]; [|by split; [apply Forall_app|]].
  destruct e; try by (split; [constructor|]). cbn [event_acks]. edestruct ack_of_reply as (? & ? & _). by split.
Qed.
Lemma asked_acks_body h chunk e : asked_acks (body_events h chunk e) = [].
Proof.
  induction chunk as [|b [|b' l] IH]; [done..|].
  change (body_events h (b :: b' :: l) e) with (EvByte h b false :: body_events h (b' :: l) e). exact IH.
Qed.

Lemma our_data_app sid a b : our_data sid (a ++ b) = our_data sid a ++ our_data sid b.
Proof. unfold our_data. by rewrite map_app, concat_app. Qed.
Lemma ended_app sid a b : ended sid (a ++ b) = ended sid a || ended sid b.
Proof. apply existsb_app. Qed.
Lemma data_count_app a b : data_count (a ++ b) = data_count a + data_count b.
Proof. unfold data_count. by rewrite map_app, sum_list_with_app. Qed.

Lemma our_data_body sid h chunk e :
  our_data sid (body_events h chunk e) = if decide (fh_kind h = frame_type.DATA /\ fh_stream_id h = sid) then chunk else [].
Proof.
  induction chunk as [|b [|b' l] IH]; [by case_decide|cbn; by case_decide|].
  change (body_events h (b :: b' :: l) e) with (EvByte h b false :: body_events h (b' :: l) e). change (our_data sid (?a :: ?t)) with (data_of sid a ++ our_data sid t). cbn [data_of]. rewrite IH. by case_decide.
Qed.

Lemma ended_body sid h chunk e : chunk <> [] ->
  ended sid (body_events h chunk e) = bool_decide (fh_stream_id h = sid) && (e && end_stream h).
Proof.
  intros Hne. induction chunk as [|b [|b' l] IH]; [done|cbn; by rewrite orb_false_r|].
  change (body_events h (b :: b' :: l) e) with (EvByte h b false :: body_events h (b' :: l) e). change (ended sid (?a :: ?t)) with (ends_on sid a || ended sid t). rewrite IH by done.
  cbn [ends_on]. by rewrite andb_false_r.
Qed.

Lemma data_count_body h chunk e : data_count (body_events h chunk e) = if decide (fh_kind h = frame_type.DATA) then length chunk else 0.
Proof.
  induction chunk as [|b [|b' l] IH]; [by case_decide|cbn; by case_decide|].
  change (body_events h (b :: b' :: l) e) with (EvByte h b false :: body_events h (b' :: l) e). change (data_count (?a :: ?t)) with (data_byte a + data_count t). cbn [data_byte]. rewrite IH. by case_decide.
Qed.

Lemma data_bytes_count i : item_ok i -> data_bytes i = data_count (item_seen i).
Proof.
  destruct i as [cf|h chunk e]; cbn [item_ok data_bytes item_seen].
  - intros Hl. unfold payload. by rewrite slice_to.
  - intros _. destruct chunk; [by case_decide|]. by rewrite data_count_body.
Qed.

Definition reader_idle (r : FrameReader) : Prop := pending_window r = 0%Z /\ forall k, (Z.of_nat k < 2 ^ 32)%Z -> h2_ok k r.

Lemma reader_idle_reset k r : h2_ok k r -> reader_idle (take_pending_window r).2.
Proof.
  intros (? & ? & ? & ? & ? & ?). split; [done|]. intros j Hj. unfold h2_ok, take_pending_window, H2Reader.set_pending.
  cbn [snd state header_buf header_have current remaining control control_len pending_window]. split_and!; (done || lia).
Qed.

(** The stream's end is its last event, and comes once. *)
Definition ends_last (sid : Z) (ev : list (event FrameHeader)) : Prop :=
  exists before e, ev = before ++ [e] /\ ends_on sid e = true /\ ended sid before = false.

Lemma ends_last_split sid ev1 ev2 : ends_last sid (ev1 ++ ev2) ->
  if ended sid ev1 then ev2 = [] else ev2 <> [] /\ ends_last sid ev2.
Proof.
  intros (before & e & He & Hend & Hb). destruct ev2 as [|e' ev2 _] using rev_ind.
  - rewrite app_nil_r in He. subst. rewrite ended_app. cbn. by rewrite Hend, orb_false_r, orb_true_r.
  - rewrite app_assoc in He. apply app_inj_tail in He as [<- ->]. rewrite ended_app in Hb. apply orb_false_iff in Hb as [-> Hb].
    split; [by destruct ev2|]. by exists ev2, e.
Qed.

(** *** In terms of frames *)
Definition ends_stream (sid : Z) (s : sent) : bool :=
  negb (is_control (s_kind s)) && (bool_decide (s_stream s = sid) && end_stream (sent_header s)).
Definition body_of (sid : Z) (s : sent) : bytes := if decide (s_kind s = frame_type.DATA /\ s_stream s = sid) then s_payload s else [].
Definition response_body (sid : Z) (frames : list sent) : bytes := concat (map (body_of sid) frames).
Definition data_len (s : sent) : nat := if decide (s_kind s = frame_type.DATA) then length (s_payload s) else 0.
Definition data_total (frames : list sent) : nat := sum_list (map data_len frames).
Definition delivered (s : sent) : list (event FrameHeader) := h2_delivered (sent_header s) (s_payload s).

(** A complete response on [sid]: any frames at all, none that closes the
    stream or the connection, the last one and only it ending the stream. *)
Definition response (sid : Z) (frames : list sent) : Prop :=
  Forall sent_ok frames /\ Forall (fun s => s_kind s <> frame_type.GOAWAY /\ s_kind s <> frame_type.RST_STREAM) frames /\
  exists before last, frames = before ++ [last] /\ ends_stream sid last = true /\ Forall (fun s => ends_stream sid s = false) before.

Lemma delivered_data sid s : our_data sid (delivered s) = body_of sid s.
Proof.
  unfold delivered, h2_delivered, body_of. cbn [sent_header h2_header fh_kind]. destruct (is_control (s_kind s)) eqn:Ec.
  - rewrite decide_False by (intros [Hk _]; by rewrite Hk in Ec). done.
  - destruct (s_payload s) as [|b l]; [by case_decide|]. by rewrite our_data_body.
Qed.

Lemma delivered_count s : data_count (delivered s) = data_len s.
Proof.
  unfold delivered, h2_delivered, data_len. cbn [sent_header h2_header fh_kind]. destruct (is_control (s_kind s)) eqn:Ec.
  - rewrite decide_False by (intros Hk; by rewrite Hk in Ec). done.
  - destruct (s_payload s) as [|b l]; [by case_decide|]. by rewrite data_count_body.
Qed.

Lemma delivered_acks s : asked_acks (delivered s) = ack_of (s_kind s) (s_flags s) (s_payload s).
Proof.
  unfold delivered, h2_delivered. cbn [sent_header h2_header fh_kind fh_flags]. destruct (is_control (s_kind s)) eqn:Ec.
  - cbn. rewrite app_nil_r. unfold ack_of. repeat case_decide; try done. do 2 f_equal.
    generalize (s_payload s). intros p. destruct (decide (length p <= 8)) as [Hl|Hl]; [by rewrite (take_ge p) by (unfold CONTROL_FRAME_MAX; lia)|].
    rewrite !take_app_le by (rewrite ?length_take; unfold CONTROL_FRAME_MAX; lia). rewrite take_take. f_equal.
  - assert (ack_of (s_kind s) (s_flags s) (s_payload s) = []) as ->.
    { unfold ack_of. repeat case_decide; try done; match goal with Hk : s_kind s = _ |- _ => by rewrite Hk in Ec end. }
    destruct (s_payload s) as [|b l]; [done|]. apply asked_acks_body.
Qed.

Lemma delivered_open s : s_kind s <> frame_type.GOAWAY /\ s_kind s <> frame_type.RST_STREAM -> Forall stays_open (delivered s).
Proof.
  intros Hk. unfold delivered, h2_delivered. destruct (is_control _); [by apply Forall_singleton|].
  destruct (s_payload s) as [|b l]; [by apply Forall_singleton|]. generalize (b :: l). clear. intros l.
  induction l as [|b [|b' l] IH]; cbn [body_events]; repeat constructor; done.
Qed.

Lemma ended_delivered sid s : ended sid (delivered s) = ends_stream sid s.
Proof.
  unfold delivered, h2_delivered, ends_stream. cbn [sent_header h2_header fh_kind]. destruct (is_control (s_kind s)); [done|].
  destruct (s_payload s) as [|b l]; [cbn; by rewrite orb_false_r|]. by rewrite ended_body by done.
Qed.

Lemma body_events_last (sid : Z) (h : FrameHeader) chunk : chunk <> [] ->
  exists before e, body_events h chunk true = before ++ [e] /\ ended sid before = false /\ ends_on sid e = bool_decide (fh_stream_id h = sid) && end_stream h.
Proof.
  induction chunk as [|b [|b' l] IH]; intros Hne; [done|by exists [], (EvByte h b true)|].
  destruct IH as (before & e & He & Hb & Hend); [done|]. exists (EvByte h b false :: before), e.
  change (body_events h (b :: b' :: l) true) with (EvByte h b false :: body_events h (b' :: l) true). rewrite He.
  split_and!; try done. cbn [ended existsb ends_on]. by rewrite andb_false_r.
Qed.

Lemma delivered_last sid s : ends_stream sid s = true -> ends_last sid (delivered s).
Proof.
  unfold ends_stream, delivered, h2_delivered, ends_last. cbn [sent_header h2_header fh_kind]. intros [Hc He]%andb_prop.
  destruct (is_control (s_kind s)); [done|]. destruct (s_payload s) as [|b l] eqn:Ep.
  - exists [], (EvEmpty (sent_header s)). unfold sent_header in *. rewrite Ep in *. done.
  - destruct (body_events_last sid (sent_header s) (b :: l)) as (before & e & Heq & Hb & Hend); [done|].
    exists before, e. unfold sent_header in *. rewrite Ep in *. rewrite Heq, Hend. done.
Qed.

Lemma frames_events sid frames : response sid frames ->
  let ev := concat (map delivered frames) in
  run h2_format between (concat (map sent_wire frames)) = inr (between, ev) /\ Forall stays_open ev /\ ends_last sid ev /\
  our_data sid ev = response_body sid frames /\ data_count ev = data_total frames /\ asked_acks ev = acks_for frames.
Proof.
  intros (Hok & Hopen & before & last & -> & Hlast & Hbefore) ev. split_and!.
  - pose proof (run_frames h2_format _ _ (header_pos (FramingLaws:=h2_framing_laws)) (sent_frames _ Hok)) as Hrun.
    rewrite map_map in Hrun. rewrite Hrun. do 3 f_equal. apply map_ext. intros s. apply h2_frame_events.
  - unfold ev. clear -Hopen. induction Hopen as [|s l Hs _ IH]; cbn [map concat]; [constructor|]. apply Forall_app. split; [by apply delivered_open|done].
  - unfold ev. rewrite map_app, concat_app. cbn [map concat]. rewrite app_nil_r.
    destruct (delivered_last sid last Hlast) as (b0 & e & -> & He & Hb0). exists (concat (map delivered before) ++ b0), e.
    rewrite app_assoc, ended_app, Hb0, orb_false_r. split_and!; try done. clear -Hbefore.
    induction Hbefore as [|s l Hs _ IH]; [done|]. cbn [map concat]. by rewrite ended_app, ended_delivered, Hs.
  - unfold ev, response_body. generalize (before ++ [last]). clear. intros l.
    induction l as [|s l IH]; [done|]. cbn [map concat]. by rewrite our_data_app, delivered_data, IH.
  - unfold ev, data_total. generalize (before ++ [last]). clear. intros l.
    induction l as [|s l IH]; [done|]. cbn [map concat sum_list]. by rewrite data_count_app, delivered_count, IH.
  - unfold ev, acks_for. generalize (before ++ [last]). clear. intros l.
    induction l as [|s l IH]; [done|]. cbn [map concat]. by rewrite asked_acks_app, delivered_acks, IH.
Qed.

(** What goes back for the frames [frames], besides requests: the acknowledgements
    they ask for, each once and in their order, and among these a byte of credit for
    each byte of DATA. *)
Definition replied (frames replies : list sent) : Prop :=
  Forall reply replies /\ acks replies = acks_for frames /\ total_credit replies = Z.of_nat (data_total frames).

(** An example: a server that opens with SETTINGS and a PING. *)
Module Example.
Definition example_frames : list sent :=
  [Sent false frame_type.SETTINGS x00 0 [x00; x04; x00; x00; xff; xff]; Sent true frame_type.PING x00 0 (bs "pingpong");
   Sent false frame_type.HEADERS flag.END_HEADERS 1 [x88]; Sent false frame_type.DATA flag.END_STREAM 1 (bs "hi")].
Definition example_stream : bytes := concat (map sent_wire example_frames).

Lemma example_response : response 1 example_frames.
Proof.
  split_and!.
  - repeat (constructor; [split; vm_compute; (done || split; (done || discriminate))|]). constructor.
  - repeat (constructor; [split; discriminate|]). constructor.
  - exists (take 3 example_frames), (Sent false frame_type.DATA flag.END_STREAM 1 (bs "hi")). split_and!; [reflexivity|reflexivity|].
    repeat (constructor; [reflexivity|]). constructor.
Qed.
End Example.
