(* ===== verification/Noise.v ===== *)
(** The ts2021 control channel: Noise IK and its record layer: [noise.rs].

    [Handshake::start] and [finish] are the client; the theorem about them runs
    them against [responder], the other side of the IK pattern as the Noise
    specification gives it with Tailscale's framing. *)
From S2P Require Import Prelude Decimal Crypto Keys.

Definition PROTOCOL_NAME : bytes := bs "Noise_IK_25519_ChaChaPoly_BLAKE2s".
Definition PROLOGUE_PREFIX : bytes := bs "Tailscale Control Protocol v".
Definition MSG_TYPE_INITIATION : byte := x01.
Definition MSG_TYPE_RESPONSE : byte := x02.
Definition MSG_TYPE_ERROR : byte := x03.
Definition MSG_TYPE_RECORD : byte := x04.
Definition INITIATION_LEN : nat := 101.
Definition RESPONSE_LEN : nat := 51.
Definition HEADER_LEN : nat := 3.
Definition INITIATION_HEADER_LEN : nat := 5.
Definition TAG_LEN : nat := 16.
Definition MAX_MESSAGE_SIZE : Z := 4096.
Definition MAX_CIPHERTEXT_SIZE : Z := MAX_MESSAGE_SIZE - Z.of_nat HEADER_LEN.
Definition MAX_PLAINTEXT_SIZE : Z := MAX_CIPHERTEXT_SIZE - Z.of_nat TAG_LEN.
Definition ZERO_NONCE : bytes := zeros 12.

Inductive NoiseError :=
| UnexpectedType (t : byte) | ServerError | BadLength | Decrypt | ShortBuffer | NonceExhausted.

Definition decimal (v : Z) (buf : bytes) : outcome NoiseError bytes :=
  if decide (v = 0)%Z then let? buf := set_at buf 0 x30 in slice buf 0 1
  else let? (i, buf) := dec_loop 6 v 5 buf in dec_compact 5 i buf.

Record SymmetricState := { h : bytes; ck : bytes }.
Record Handshake := { state : SymmetricState; machine_key : MachinePrivate; ephemeral : MachinePrivate }.
Record Session := { tx : bytes; rx : bytes; tx_nonce : Z; rx_nonce : Z; handshake_hash : bytes }.

(** [record_nonce]: four zero bytes, then the counter in big-endian order. *)
Definition record_nonce (counter : Z) : bytes := overwrite (zeros 12) 4 (to_be 8 counter).

Section Noise.
Context `{P : Primitives}.

Definition initialize : SymmetricState := let h := hash PROTOCOL_NAME in {| h := h; ck := h |}.
Definition mix_hash (s : SymmetricState) (data : bytes) : SymmetricState :=
  {| h := hash_parts [h s; data]; ck := ck s |}.
(** [mix_dh]: the cipher and the state. *)
Definition mix_dh (s : SymmetricState) (private : MachinePrivate) (public : MachinePublic) : bytes * SymmetricState :=
  let dh := dh private public in
  let (c, k) := kdf2 (ck s) dh in (k, {| h := h s; ck := c |}).

(** [encrypt_and_hash]: the state and the filled slice. *)
Definition encrypt_and_hash (s : SymmetricState) (cipher out plaintext : bytes) : outcome NoiseError (SymmetricState * bytes) :=
  if decide (length out <> length plaintext + TAG_LEN) then Err ShortBuffer
  else
    let? (body, tag) := ok_or (chacha_encrypt cipher ZERO_NONCE (h s) plaintext) Decrypt in
    let out := body ++ tag in
    Ok (mix_hash s out, out).

(** [decrypt_and_hash] into a slice of [out_len] bytes. *)
Definition decrypt_and_hash (s : SymmetricState) (cipher : bytes) (out_len : nat) (ciphertext : bytes)
    : outcome NoiseError (SymmetricState * bytes) :=
  if decide (length ciphertext < TAG_LEN \/ out_len <> length ciphertext - TAG_LEN) then Err BadLength
  else
    let? body := slice ciphertext 0 (length ciphertext - TAG_LEN) in
    let? tag := slice ciphertext (length ciphertext - TAG_LEN) (length ciphertext) in
    let? out := ok_or (chacha_decrypt cipher ZERO_NONCE (h s) body tag) Decrypt in
    Ok (mix_hash s ciphertext, out).

Definition split (s : SymmetricState) : bytes * bytes := kdf2 (ck s) [].

(** [Handshake::start]; the two [expect]s make a failed encryption a panic. *)
Definition start (machine_key : MachinePrivate) (control_key : MachinePublic) (version : Z) (ephemeral : MachinePrivate)
    : outcome NoiseError (Handshake * bytes) :=
  let state := initialize in
  let? digits := decimal version (zeros 5) in
  let plen := length PROLOGUE_PREFIX in
  let? prologue := copy_range (zeros (plen + 5)) 0 plen PROLOGUE_PREFIX in
  let? prologue := copy_range prologue plen (plen + length digits) digits in
  let? used := slice prologue 0 (plen + length digits) in
  let state := mix_hash state used in
  let state := mix_hash state (as_bytes control_key) in
  let msg := zeros INITIATION_LEN in
  let? msg := copy_range msg 0 2 (to_be 2 version) in
  let? msg := set_at msg 2 MSG_TYPE_INITIATION in
  let? msg := copy_range msg 3 5 (to_be 2 (Z.of_nat (INITIATION_LEN - INITIATION_HEADER_LEN))) in
  let ephemeral_pub := public_of ephemeral in
  let? msg := copy_range msg 5 37 (as_bytes ephemeral_pub) in
  let state := mix_hash state (as_bytes ephemeral_pub) in
  let (cipher, state) := mix_dh state ephemeral control_key in
  let machine_pub := public_of machine_key in
  let? out := slice msg 37 85 in
  let? (state, out) := expect_ok (encrypt_and_hash state cipher out (as_bytes machine_pub)) in
  let? msg := copy_range msg 37 85 out in
  let (cipher, state) := mix_dh state machine_key control_key in
  let? out := slice msg 85 101 in
  let? (state, out) := expect_ok (encrypt_and_hash state cipher out []) in
  let? msg := copy_range msg 85 101 out in
  Ok ({| state := state; machine_key := machine_key; ephemeral := ephemeral |}, msg).

(** [Handshake::finish] *)
Definition finish (self : Handshake) (resp : bytes) : outcome NoiseError Session :=
  if decide (length resp < HEADER_LEN) then Err BadLength
  else
    let? t := index resp 0 in
    if decide (t <> MSG_TYPE_RESPONSE) then
      if decide (t = MSG_TYPE_ERROR) then Err ServerError else Err (UnexpectedType t)
    else
      let? l1 := index resp 1 in
      let? l2 := index resp 2 in
      let declared := from_be [l1; l2] in
      if decide (declared <> Z.of_nat (RESPONSE_LEN - HEADER_LEN) \/ length resp <> RESPONSE_LEN) then Err BadLength
      else
        let? e := slice resp 3 35 in
        let control_ephemeral : MachinePublic := Public e in
        let state := mix_hash (state self) (as_bytes control_ephemeral) in
        let (_, state) := mix_dh state (ephemeral self) control_ephemeral in
        let (cipher, state) := mix_dh state (machine_key self) control_ephemeral in
        let? empty := slice resp 35 51 in
        let? (state, _) := decrypt_and_hash state cipher 0 empty in
        let handshake_hash := h state in
        let (tx, rx) := split state in
        Ok {| tx := tx; rx := rx; tx_nonce := 0; rx_nonce := 0; handshake_hash := handshake_hash |}.

(** [Session::write_record]: the session, the buffer and the frame length. *)
Definition write_record (self : Session) (plaintext out : bytes) : outcome NoiseError (Session * bytes * nat) :=
  if decide (MAX_PLAINTEXT_SIZE < Z.of_nat (length plaintext))%Z then Err BadLength
  else
    let total := HEADER_LEN + length plaintext + TAG_LEN in
    if decide (length out < total) then Err ShortBuffer
    else if decide (tx_nonce self = u64_max) then Err NonceExhausted
    else
      let? out := set_at out 0 MSG_TYPE_RECORD in
      let? out := copy_range out 1 3 (to_be 2 (Z.of_nat (length plaintext + TAG_LEN))) in
      let? (body, tag) := ok_or (chacha_encrypt (tx self) (record_nonce (tx_nonce self)) [] plaintext) Decrypt in
      let? out := copy_range out HEADER_LEN (HEADER_LEN + length plaintext) body in
      let? out := copy_range out (HEADER_LEN + length plaintext) total tag in
      let? n := uadd 64 (tx_nonce self) 1 in
      Ok ({| tx := tx self; rx := rx self; tx_nonce := n; rx_nonce := rx_nonce self; handshake_hash := handshake_hash self |},
          out, total).

(** [Session::read_record]: the session, the body decrypted in place and the
    plaintext length. *)
Definition read_record (self : Session) (body : bytes) : outcome NoiseError (Session * bytes * nat) :=
  if decide (length body < TAG_LEN) then Err BadLength
  else if decide (rx_nonce self = u64_max) then Err NonceExhausted
  else
    let plaintext_len := length body - TAG_LEN in
    let? ct := slice body 0 plaintext_len in
    let? tag := slice body plaintext_len (length body) in
    let? p := ok_or (chacha_decrypt (rx self) (record_nonce (rx_nonce self)) [] ct tag) Decrypt in
    let? body := copy_range body 0 plaintext_len p in
    let? n := uadd 64 (rx_nonce self) 1 in
    Ok ({| tx := tx self; rx := rx self; tx_nonce := tx_nonce self; rx_nonce := n; handshake_hash := handshake_hash self |},
        body, plaintext_len).

(** [parse_header] of three bytes. *)
Definition parse_header (hdr : bytes) : outcome NoiseError (byte * Z) :=
  let? t := index hdr 0 in
  let? l1 := index hdr 1 in
  let? l2 := index hdr 2 in
  Ok (t, from_be [l1; l2]).

(** ** The responder of the IK pattern

    [responder] reads an initiation with the control server's static key and
    answers with its own ephemeral: the client's static, the response, and the
    server's session. [None] when a check of the specification fails. *)
Definition responder_start (control : MachinePrivate) (msg : bytes) : option (SymmetricState * MachinePublic * MachinePublic) :=
  let version := from_be (take 2 msg) in
  if decide (length msg <> 101 \/ take 3 (drop 2 msg) <> MSG_TYPE_INITIATION :: to_be 2 96) then None
  else
    let s := mix_hash initialize (PROLOGUE_PREFIX ++ dec version) in
    let s := mix_hash s (as_bytes (public_of control)) in
    let e : MachinePublic := Public (take 32 (drop 5 msg)) in
    let s := mix_hash s (as_bytes e) in
    let (k, s) := mix_dh s control e in
    let ct := take 48 (drop 37 msg) in
    match chacha_decrypt k ZERO_NONCE (h s) (take 32 ct) (drop 32 ct) with
    | None => None
    | Some st =>
        let s := mix_hash s ct in
        let (k, s) := mix_dh s control (Public st) in
        let ct := drop 85 msg in
        match chacha_decrypt k ZERO_NONCE (h s) [] ct with
        | None => None
        | Some _ => Some (mix_hash s ct, Public st, e)
        end
    end.
Definition responder (control : MachinePrivate) (e_r : MachinePrivate) (msg : bytes)
    : option (MachinePublic * bytes * Session) :=
  match responder_start control msg with
  | None => None
  | Some (s, st, e) =>
      let s := mix_hash s (as_bytes (public_of e_r)) in
      let (_, s) := mix_dh s e_r e in
      let (k, s) := mix_dh s e_r st in
      match chacha_encrypt k ZERO_NONCE (h s) [] with
      | None => None
      | Some (c, t) =>
          let s := mix_hash s (c ++ t) in
          let (k1, k2) := split s in
          Some (st, [MSG_TYPE_RESPONSE] ++ to_be 2 48 ++ as_bytes (public_of e_r) ++ c ++ t,
                {| tx := k2; rx := k1; tx_nonce := 0; rx_nonce := 0; handshake_hash := h s |})
      end
  end.
End Noise.

(** ** Proofs *)

Lemma decimal_dec v : (0 <= v < 65536)%Z -> decimal v (zeros 5) = Ok (dec v).
Proof.
  intros Hv. unfold decimal. case_decide; [by subst|]. rewrite dec_loop_compact by lia. f_equal. apply dec_aux_dec; lia.
Qed.

Lemma dec_length5 v : (0 <= v < 65536)%Z -> length (dec v) <= 5.
Proof.
  intros Hv. destruct (decide (v = 0)%Z) as [->|]; [vm_compute; lia|].
  rewrite <- (dec_aux_dec 5) by lia. pose proof (dec_aux_length 5 v [] ltac:(lia)). simpl in *. lia.
Qed.

Lemma record_nonce_length c : length (record_nonce c) = 12.
Proof. unfold record_nonce. rewrite length_overwrite; len. Qed.

Section NoiseProofs.
Context `{P : Primitives, L : !PrimitiveLaws P}.

Lemma mix_dh_length s a b : length (mix_dh s a b).1 = 32.
Proof. unfold mix_dh. pose proof (kdf2_length (ck s) (dh a b)). destruct (kdf2 _ _). tauto. Qed.

Lemma dh_comm_mix (a b : MachinePrivate) s :
  priv_ok a -> priv_ok b -> mix_dh s a (public_of b) = mix_dh s b (public_of a).
Proof. intros. unfold mix_dh. by rewrite (dh_comm a b). Qed.

Lemma encrypt_and_hash_ok s k out p :
  length k = 32 -> length out = length p + TAG_LEN -> length p <= 64 ->
  exists c t, chacha_encrypt k ZERO_NONCE (h s) p = Some (c, t) /\ length c = length p /\ length t = 16 /\
    encrypt_and_hash s k out p = Ok (mix_hash s (c ++ t), c ++ t).
Proof.
  intros Hk Ho Hp. destruct (chacha_encrypt_ok k ZERO_NONCE (h s) p Hk) as (c & t & E & Hc & Ht); [done|lia|].
  exists c, t. split_and!; try done. unfold encrypt_and_hash. rewrite decide_False by auto. by rewrite E.
Qed.

Lemma decrypt_encrypted s k n p c t :
  chacha_encrypt k ZERO_NONCE (h s) p = Some (c, t) -> length c = n -> length t = 16 ->
  decrypt_and_hash s k n (c ++ t) = Ok (mix_hash s (c ++ t), p).
Proof.
  intros E Hc Ht. unfold decrypt_and_hash, TAG_LEN. rewrite decide_False by (intros [H|H]; [|apply H]; len).
  rewrite slice_to by len. cbn [obind]. rewrite slice_from by len. cbn [obind].
  replace (length (c ++ t) - 16) with (length c) by len.
  rewrite take_app_length, drop_app_length. by rewrite (chacha_decrypt_encrypt _ _ _ _ _ _ E).
Qed.

(** The initiation on the wire. *)
Definition initiation_segs (version : Z) (e st em : bytes) : list bytes :=
  [to_be 2 version; [MSG_TYPE_INITIATION]; to_be 2 96; e; st; em].

(** The hash after the prologue, the control static and the ephemeral. *)
Definition prologue_state (version : Z) (control : bytes) (e : bytes) : SymmetricState :=
  mix_hash (mix_hash (mix_hash initialize (PROLOGUE_PREFIX ++ dec version)) control) e.

Lemma start_spec m cp v e :
  priv_ok m -> pub_ok cp -> priv_ok e -> (0 <= v < 65536)%Z ->
  let s0 := prologue_state v (as_bytes cp) (as_bytes (public_of e)) in
  let ks1 := mix_dh s0 e cp in
  exists c1 t1 c2 t2,
    let ks2 := mix_dh (mix_hash ks1.2 (c1 ++ t1)) m cp in
    chacha_encrypt ks1.1 ZERO_NONCE (h ks1.2) (as_bytes (public_of m)) = Some (c1, t1) /\
    chacha_encrypt ks2.1 ZERO_NONCE (h ks2.2) [] = Some (c2, t2) /\
    length c1 = 32 /\ length t1 = 16 /\ c2 = [] /\ length t2 = 16 /\
    start m cp v e =
      Ok ({| state := mix_hash ks2.2 (c2 ++ t2); machine_key := m; ephemeral := e |},
          concat (initiation_segs v (as_bytes (public_of e)) (c1 ++ t1) (c2 ++ t2))).
Proof.
  intros Hm Hcp He Hv s0 ks1.
  assert (length (as_bytes (public_of e)) = 32) as Hpe by (apply public_of_ok; done).
  assert (length (as_bytes (public_of m)) = 32) as Hpm by (apply public_of_ok; done).
  destruct (encrypt_and_hash_ok ks1.2 ks1.1 (zeros 48) (as_bytes (public_of m))) as (c1 & t1 & E1 & Hc1 & Ht1 & S1);
    [apply mix_dh_length|rewrite length_zeros; unfold TAG_LEN; lia|lia|].
  set (ks2 := mix_dh (mix_hash ks1.2 (c1 ++ t1)) m cp).
  destruct (encrypt_and_hash_ok ks2.2 ks2.1 (zeros 16) []) as (c2 & t2 & E2 & Hc2 & Ht2 & S2);
    [apply mix_dh_length|done|simpl; lia|]. destruct c2; [|done].
  exists c1, t1, [], t2. cbv zeta. fold ks2. split_and!; try done; [lia|].
  unfold start. rewrite decimal_dec by done. cbn [obind].
  pose proof (dec_length5 v Hv) as Hd. change (length PROLOGUE_PREFIX) with 28.
  assert (exists prologue, (let? prologue := copy_range (zeros (28 + 5)) 0 28 PROLOGUE_PREFIX in
    copy_range prologue 28 (28 + length (dec v)) (dec v)) = Ok (E:=NoiseError) prologue /\
    slice (E:=NoiseError) prologue 0 (28 + length (dec v)) = Ok (PROLOGUE_PREFIX ++ dec v)) as (pr & Hp1 & Hp2).
  { rewrite copy_range_ok by (rewrite ?length_zeros; done || lia). cbn [obind].
    change (overwrite (zeros (28 + 5)) 0 PROLOGUE_PREFIX) with (PROLOGUE_PREFIX ++ zeros 5).
    rewrite copy_range_ok by (try done; rewrite length_app, length_zeros; change (length PROLOGUE_PREFIX) with 28; lia).
    eexists. split; [done|]. rewrite overwrite_app by done.
    rewrite app_assoc. by apply (slice_app_l_exact (PROLOGUE_PREFIX ++ dec v)). }
  rewrite <- obind_assoc, Hp1. cbn [obind]. rewrite Hp2. cbn [obind].
  change (zeros INITIATION_LEN) with (concat [zeros 2; [x00]; zeros 2; zeros 32; zeros 48; zeros 16]).
  rewrite (copy_seg _ 0 (zeros 2)) by (done || len). cbn [obind insert list_insert].
  rewrite (set_seg _ 1 x00) by (done || (cbn [take concat]; len)). cbn [obind insert list_insert].
  rewrite (copy_seg _ 2 (zeros 2)) by (done || (cbn [take concat]; len)). cbn [obind insert list_insert].
  rewrite (copy_seg _ 3 (zeros 32)) by (done || (cbn [take concat]; len)). cbn [obind insert list_insert].
  change (mix_hash (mix_hash (mix_hash initialize _) _) _) with s0. fold ks1. rewrite (surjective_pairing ks1).
  rewrite (slice_nth _ 4 (zeros 48)) by (done || (cbn [take concat]; len)). cbn [obind]. rewrite S1. cbn [obind expect_ok].
  rewrite (copy_seg _ 4 (zeros 48)) by (done || (cbn [take concat]; len)). cbn [obind insert list_insert].
  fold ks2. rewrite (surjective_pairing ks2).
  rewrite (slice_nth _ 5 (zeros 16)) by (done || (cbn [take concat]; len)). cbn [obind]. rewrite S2. cbn [obind expect_ok].
  rewrite (copy_seg _ 5 (zeros 16)) by (done || (cbn [take concat]; len)). done.
Qed.

(** The responder reads that initiation and ends in the client's state. *)
Lemma responder_reads m c v e hs msg :
  priv_ok m -> priv_ok c -> priv_ok e -> (0 <= v < 65536)%Z ->
  start m (public_of c) v e = Ok (hs, msg) ->
  length msg = 101 /\ responder_start c msg = Some (state hs, public_of m, public_of e) /\
  machine_key hs = m /\ ephemeral hs = e.
Proof.
  intros Hm Hc He Hv Hst.
  destruct (start_spec m (public_of c) v e Hm (public_of_ok c Hc) He Hv) as (c1 & t1 & c2 & t2 & E1 & E2 & Hc1 & Ht1 & -> & Ht2 & Hs).
  rewrite Hs in Hst. apply Ok_inj in Hst. pose proof (f_equal fst Hst) as Hh. pose proof (f_equal snd Hst) as Hmsg.
  cbn [fst snd] in Hh, Hmsg. subst hs msg. clear Hs Hst.
  set (pe := as_bytes (public_of e)) in *. assert (length pe = 32) as Hpe by (apply public_of_ok; done).
  unfold initiation_segs. split; [cbn [concat]; len|]. split; [|done].
  unfold responder_start. set (msg := concat _).
  assert (length msg = 101) as Hl by (unfold msg; cbn [concat]; len).
  assert (forall i m, [to_be 2 v; [MSG_TYPE_INITIATION]; to_be 2 96; pe; c1 ++ t1; [] ++ t2] !! i = Some m ->
    forall a, a = length (concat (take i [to_be 2 v; [MSG_TYPE_INITIATION]; to_be 2 96; pe; c1 ++ t1; [] ++ t2])) ->
    take (length m) (drop a msg) = m) as Hseg.
  { intros i x Hi a ->. pose proof (slice_nth (E:=NoiseError) _ i x _ _ Hi eq_refl eq_refl) as H. fold msg in H.
    unfold slice in H. destruct (get_range msg _ _) eqn:G; [|done]. cbn in H. apply Ok_inj in H as ->.
    unfold get_range in G. case_decide; [|done]. injection G as G. etrans; [|exact G]. f_equal. lia. }
  rewrite decide_False.
  2: { intros [H|H]; [lia|]. apply H. unfold msg. cbn [concat]. rewrite drop_app_length' by (symmetry; apply length_to_be).
       done. }
  pose proof (Hseg 0 _ eq_refl 0 eq_refl) as G0. rewrite length_to_be, drop_0 in G0. rewrite G0, from_to_be_small by lia.
  pose proof (Hseg 3 _ eq_refl 5 ltac:(cbn [take concat]; len)) as G3. rewrite Hpe in G3. rewrite G3.
  pose proof (Hseg 4 _ eq_refl 37 ltac:(cbn [take concat]; len)) as G4.
  replace (length (c1 ++ t1)) with 48 in G4 by len. rewrite G4.
  pose proof (Hseg 5 _ eq_refl 85 ltac:(cbn [take concat]; len)) as G5. cbn [app] in G5.
  assert (drop 85 msg = t2) as G5'.
  { etrans; [|exact G5]. symmetry. apply take_ge. rewrite length_drop. lia. }
  rewrite G5'. change (Public pe) with (public_of e).
  change (mix_hash (mix_hash (mix_hash initialize _) _) _) with (prologue_state v (as_bytes (public_of c)) pe) at 1. rewrite (dh_comm_mix c e) by done.
  set (ks1 := mix_dh (prologue_state _ _ _) _ _) in *. rewrite (surjective_pairing ks1) at 1.
  rewrite take_app_length', drop_app_length' by lia. rewrite (chacha_decrypt_encrypt _ _ _ _ _ _ E1).
  change (Public (as_bytes (public_of m))) with (public_of m). rewrite (dh_comm_mix c m) by done.
  set (ks2 := mix_dh (mix_hash _ _) _ _) in *. rewrite (surjective_pairing ks2) at 1.
  by rewrite (chacha_decrypt_encrypt _ _ _ _ _ _ E2).
Qed.

(** The client reads the response and ends in the responder's state. *)
Lemma finish_reads c er hs st msg resp sv :
  priv_ok er -> priv_ok (machine_key hs) -> priv_ok (ephemeral hs) ->
  responder_start c msg = Some (state hs, public_of (machine_key hs), public_of (ephemeral hs)) ->
  responder c er msg = Some (st, resp, sv) ->
  exists cl, finish hs resp = Ok cl /\ st = public_of (machine_key hs) /\ length resp = 51 /\
    tx cl = rx sv /\ rx cl = tx sv /\ handshake_hash cl = handshake_hash sv /\
    tx_nonce cl = 0%Z /\ rx_nonce cl = 0%Z /\ tx_nonce sv = 0%Z /\ rx_nonce sv = 0%Z /\
    length (tx cl) = 32 /\ length (rx cl) = 32.
Proof.
  intros Her Hm He Hst Hresp. unfold responder in Hresp. rewrite Hst in Hresp.
  set (pe := as_bytes (public_of er)) in *. assert (length pe = 32) as Hpe by (apply public_of_ok; done).
  destruct (mix_dh (mix_hash (state hs) pe) er _) as [k0 s1] eqn:E1.
  destruct (mix_dh s1 er _) as [k s2] eqn:E2.
  pose proof (mix_dh_length s1 er (public_of (machine_key hs))) as Hk. rewrite E2 in Hk. cbn in Hk.
  destruct (chacha_encrypt_ok k ZERO_NONCE (h s2) [] Hk) as (c0 & t & E & Hc0 & Ht); [done|done|]. destruct c0; [|done].
  rewrite E in Hresp. destruct (split (mix_hash s2 ([] ++ t))) as [k1 k2] eqn:Ek. 
  assert (st = public_of (machine_key hs)) as -> by congruence.
  assert (resp = [MSG_TYPE_RESPONSE] ++ to_be 2 48 ++ pe ++ [] ++ t) as -> by congruence.
  assert (sv = {| tx := k2; rx := k1; tx_nonce := 0; rx_nonce := 0; handshake_hash := h (mix_hash s2 ([] ++ t)) |}) as -> by congruence.
  pose proof (kdf2_length (ck (mix_hash s2 ([] ++ t))) []) as Hkl. unfold split in Ek. rewrite Ek in Hkl. cbn in Hkl.
  exists {| tx := k1; rx := k2; tx_nonce := 0; rx_nonce := 0; handshake_hash := h (mix_hash s2 ([] ++ t)) |}.
  split; [|cbn [tx rx tx_nonce rx_nonce handshake_hash]; destruct Hkl; split_and!; try done; rewrite !length_app, length_to_be; simpl; lia].
  change ([MSG_TYPE_RESPONSE] ++ to_be 2 48 ++ pe ++ [] ++ t) with ([MSG_TYPE_RESPONSE; x00; x30] ++ pe ++ t).
  unfold finish. rewrite decide_False by (unfold HEADER_LEN; len).
  rewrite (index_ok _ 0 MSG_TYPE_RESPONSE) by done. cbn [obind]. rewrite decide_False by auto.
  rewrite (index_ok _ 1 x00), (index_ok _ 2 x30) by done. cbn [obind].
  rewrite decide_False.
  2: { intros [H|H]; apply H; [done|]. unfold RESPONSE_LEN. len. }
  rewrite (slice_seg [MSG_TYPE_RESPONSE; x00; x30] pe t) by (done || (simpl; lia)). cbn [obind].
  change (as_bytes (Public pe)) with pe. change (Public pe) with (public_of er).
  rewrite (dh_comm_mix (ephemeral hs) er), E1 by done. rewrite (dh_comm_mix (machine_key hs) er), E2 by done.
  replace ([MSG_TYPE_RESPONSE; x00; x30] ++ pe ++ t) with (([MSG_TYPE_RESPONSE; x00; x30] ++ pe) ++ t ++ []) by (rewrite app_nil_r; by norm_app).
  rewrite (slice_seg _ t []) by (rewrite length_app; simpl; lia). cbn [obind].
  pose proof (decrypt_encrypted s2 k 0 [] [] t E eq_refl Ht) as Hd. cbn [app] in Hd. rewrite Hd. cbn [obind].
  unfold split. cbn [app] in Ek. rewrite Ek. reflexivity.
Qed.

(** C25. The control channel's handshake agrees with the other side of the IK
    pattern. For any keys, ephemerals and protocol version: the 101-byte
    initiation is accepted by the holder of the control key, who learns the
    machine's identity; the client accepts its response; and both ends have the
    same record keys with the directions swapped, the same channel binding and
    both counters at zero. *)
Theorem noise_agreement m c e er v :
  priv_ok m -> priv_ok c -> priv_ok e -> priv_ok er -> (0 <= v < 65536)%Z ->
  exists hs msg resp sv cl,
    start m (public_of c) v e = Ok (hs, msg) /\ length msg = INITIATION_LEN /\
    responder c er msg = Some (public_of m, resp, sv) /\ finish hs resp = Ok cl /\
    tx cl = rx sv /\ rx cl = tx sv /\ handshake_hash cl = handshake_hash sv /\
    tx_nonce cl = 0%Z /\ rx_nonce cl = 0%Z /\ tx_nonce sv = 0%Z /\ rx_nonce sv = 0%Z /\
    length (tx cl) = 32 /\ length (rx cl) = 32.
Proof.
  intros Hm Hc He Her Hv.
  destruct (start_spec m (public_of c) v e Hm (public_of_ok c Hc) He Hv) as (c1 & t1 & c2 & t2 & _ & _ & _ & _ & _ & _ & Hs).
  cbv zeta in Hs. destruct (responder_reads m c v e _ _ Hm Hc He Hv Hs) as (Hl & Hr & Hmk & Hek).
  set (hs := {| state := _; machine_key := _; ephemeral := _ |}) in *. set (msg := concat _) in *.
  assert (responder_start c msg = Some (state hs, public_of (machine_key hs), public_of (ephemeral hs))) as Hr' by (rewrite Hmk, Hek; exact Hr).
  assert (exists x, responder c er msg = Some x) as [[[st resp] sv] Hx].
  { unfold responder. rewrite Hr'. destruct (mix_dh _ er _) as [k0 s1]. destruct (mix_dh s1 er _) as [k s2] eqn:E2.
    pose proof (mix_dh_length s1 er (public_of (machine_key hs))) as Hk. rewrite E2 in Hk.
    destruct (chacha_encrypt_ok k ZERO_NONCE (h s2) [] Hk) as (c0 & t & -> & _); [done|done|].
    destruct (split _). by eexists. }
  destruct (finish_reads c er hs st msg resp sv Her) as (cl & Hf & -> & _ & Hrest); [by rewrite Hmk|by rewrite Hek|done|done|].
  rewrite Hmk in Hx. exists hs, msg, resp, sv, cl. destruct Hrest as (? & ? & ? & ? & ? & ? & ? & ? & ?). by split_and!.
Qed.

(** *** Records *)

Definition record_of (c t : bytes) : bytes := [MSG_TYPE_RECORD] ++ to_be 2 (Z.of_nat (length c + 16)) ++ c ++ t.

Lemma write_record_spec s p out :
  length (tx s) = 32 -> (0 <= tx_nonce s < u64_max)%Z -> (Z.of_nat (length p) <= MAX_PLAINTEXT_SIZE)%Z ->
  19 + length p <= length out ->
  exists c t, chacha_encrypt (tx s) (record_nonce (tx_nonce s)) [] p = Some (c, t) /\ length c = length p /\ length t = 16 /\
    write_record s p out =
      Ok ({| tx := tx s; rx := rx s; tx_nonce := tx_nonce s + 1; rx_nonce := rx_nonce s; handshake_hash := handshake_hash s |},
          record_of c t ++ drop (19 + length p) out, 19 + length p).
Proof.
  intros Hk Hn Hp Ho. unfold MAX_PLAINTEXT_SIZE, MAX_CIPHERTEXT_SIZE, MAX_MESSAGE_SIZE, HEADER_LEN, TAG_LEN in Hp.
  destruct (chacha_encrypt_ok (tx s) (record_nonce (tx_nonce s)) [] p Hk (record_nonce_length _)) as (c & t & E & Hc & Ht); [lia|].
  exists c, t. split_and!; try done. unfold write_record, HEADER_LEN, TAG_LEN.
  rewrite decide_False by (unfold MAX_PLAINTEXT_SIZE, MAX_CIPHERTEXT_SIZE, MAX_MESSAGE_SIZE, HEADER_LEN, TAG_LEN; lia).
  rewrite decide_False by lia. rewrite decide_False by lia.
  set (n := length p) in *.
  destruct (segments [1; 2; n; 16] out) as (ss & Hss & Hm); [simpl; lia|].
  replace (sum_list [1; 2; n; 16]) with (19 + n) in Hss by (simpl; lia). set (r := drop (19 + n) out) in *.
  rewrite Hss at 1. clear Hss.
  destruct ss as [|s0 [|s1 [|s2 [|s3 [|]]]]]; try done. injection Hm as H0 H1 H2 H3.
  destruct s0 as [|x [|]]; try done. cbn [app].
  rewrite (set_seg _ 0 x) by done. cbn [obind insert list_insert].
  rewrite (copy_seg _ 1 s1) by (done || (cbn [take concat]; len)). cbn [obind insert list_insert].
  rewrite E. cbn [ok_or obind].
  rewrite (copy_seg _ 2 s2) by (done || (cbn [take concat]; len) || lia). cbn [obind insert list_insert].
  rewrite (copy_seg _ 3 s3) by (done || (cbn [take concat]; len) || lia). cbn [obind insert list_insert].
  rewrite uadd_ok by (unfold u64_max in *; lia). cbn [obind concat].
  unfold record_of. rewrite Hc, app_nil_r. norm_app. by replace (3 + n + 16) with (19 + n) by lia.
Qed.

Lemma read_record_spec s p c t :
  length t = 16 -> (0 <= rx_nonce s < u64_max)%Z ->
  chacha_encrypt (rx s) (record_nonce (rx_nonce s)) [] p = Some (c, t) -> length c = length p ->
  read_record s (c ++ t) =
    Ok ({| tx := tx s; rx := rx s; tx_nonce := tx_nonce s; rx_nonce := rx_nonce s + 1; handshake_hash := handshake_hash s |},
        p ++ t, length p).
Proof.
  intros Ht Hn E Hc. unfold read_record, TAG_LEN. rewrite length_app, Ht, decide_False by lia.
  rewrite decide_False by lia. replace (length c + 16 - 16) with (length c) by lia.
  rewrite (slice_app_l_exact c) by done. cbn [obind].
  replace (length c + 16) with (length (c ++ t)) by len. rewrite slice_from by len. rewrite drop_app_length. cbn [obind].
  rewrite (chacha_decrypt_encrypt _ _ _ _ _ _ E). cbn [ok_or obind].
  rewrite copy_range_app_l by lia. cbn [obind]. rewrite uadd_ok by (unfold u64_max in *; lia). cbn [obind].
  pose proof (overwrite_app [] c p 0 eq_refl : overwrite c 0 p = p ++ drop (length p) c) as ->.
  rewrite drop_ge by lia. by rewrite app_nil_r, Hc.
Qed.

(** The wire of a sequence of messages under a key, from a nonce on. *)
Inductive carries (k : bytes) : Z -> list bytes -> bytes -> Prop :=
| carries_nil n : carries k n [] []
| carries_cons n p ps c t wire :
    (0 <= n < u64_max)%Z -> (Z.of_nat (length p) <= MAX_PLAINTEXT_SIZE)%Z ->
    chacha_encrypt k (record_nonce n) [] p = Some (c, t) -> length c = length p -> length t = 16 ->
    carries k (n + 1) ps wire -> carries k n (p :: ps) (record_of c t ++ wire).

Lemma carries_app k n ps wire qs wire' :
  carries k n ps wire -> carries k (n + Z.of_nat (length ps)) qs wire' -> carries k n (ps ++ qs) (wire ++ wire').
Proof.
  induction 1 as [n|n p ps c t wire Hn Hp E Hc Ht _ IH]; intros Hq; cbn [app length] in *.
  - by rewrite Z.add_0_r in Hq.
  - rewrite <- app_assoc. econstructor; try done. apply IH. by replace (n + 1 + Z.of_nat (length ps))%Z with (n + Z.of_nat (S (length ps)))%Z by lia.
Qed.

Lemma carries_nil_inv k n w : carries k n [] w -> w = [].
Proof. by inversion 1. Qed.
Lemma carries_cons_inv k n p ps w :
  carries k n (p :: ps) w -> exists c t wire, w = record_of c t ++ wire /\ (0 <= n < u64_max)%Z /\
    (Z.of_nat (length p) <= MAX_PLAINTEXT_SIZE)%Z /\ chacha_encrypt k (record_nonce n) [] p = Some (c, t) /\
    length c = length p /\ length t = 16 /\ carries k (n + 1) ps wire.
Proof. inversion 1; subst. eexists _, _, _. repeat (split; [first [reflexivity|assumption]|]). assumption. Qed.

Lemma length_record_of c t : length t = 16 -> length (record_of c t) = 19 + length c.
Proof. intros. unfold record_of. len. Qed.

Lemma drop_record_header c t : drop 3 (record_of c t) = c ++ t.
Proof. unfold record_of. rewrite app_assoc. by apply drop_app_length'. Qed.

(** The header of a record. *)
Lemma parse_header_record c t :
  (Z.of_nat (length c) <= MAX_PLAINTEXT_SIZE)%Z ->
  parse_header (take 3 (record_of c t)) = Ok (MSG_TYPE_RECORD, Z.of_nat (length c + 16)).
Proof.
  unfold MAX_PLAINTEXT_SIZE, MAX_CIPHERTEXT_SIZE, MAX_MESSAGE_SIZE, HEADER_LEN, TAG_LEN. intros Hl.
  unfold record_of. set (len := Z.of_nat (length c + 16)).
  pose proof (from_to_be_small 2 len ltac:(unfold len; lia)) as Hb. pose proof (length_to_be 2 len) as Hlb.
  destruct (to_be 2 len) as [|l1 [|l2 [|]]]; try done. cbn [app take]. unfold parse_header.
  rewrite (index_ok _ 0 MSG_TYPE_RECORD), (index_ok _ 1 l1), (index_ok _ 2 l2) by done. cbn [obind]. by rewrite Hb.
Qed.

(** Writing a sequence of records, each into its own frame; and reading frames:
    the header gives the length of the body. *)
Fixpoint write_all (s : Session) (ps : list bytes) : outcome NoiseError (Session * bytes) :=
  match ps with
  | [] => Ok (s, [])
  | p :: ps =>
      let? (s, out, n) := write_record s p (zeros (19 + length p)) in
      let? frame := slice out 0 n in
      let? (s, rest) := write_all s ps in
      Ok (s, frame ++ rest)
  end.
Fixpoint read_all (n : nat) (s : Session) (wire : bytes) : outcome NoiseError (Session * list bytes) :=
  match n with
  | O => Ok (s, [])
  | S n =>
      let? hdr := slice wire 0 HEADER_LEN in
      let? (_, len) := parse_header hdr in
      let? body := slice wire HEADER_LEN (HEADER_LEN + Z.to_nat len) in
      let? (s, body, plen) := read_record s body in
      let? p := slice body 0 plen in
      let? rest := slice wire (HEADER_LEN + Z.to_nat len) (length wire) in
      let? (s, ps) := read_all n s rest in
      Ok (s, p :: ps)
  end.

(** The record layer carries a stream faithfully: whatever records the one
    end writes (each within the 4077-byte limit), the other end, with the
    matching key and counter, reads exactly those plaintexts in order off the
    concatenated frames, and both counters advance by the number of records. *)
Theorem record_stream a b ps :
  length (tx a) = 32 -> tx a = rx b -> tx_nonce a = rx_nonce b -> (0 <= tx_nonce a)%Z ->
  (tx_nonce a + Z.of_nat (length ps) <= u64_max)%Z ->
  Forall (fun p => Z.of_nat (length p) <= MAX_PLAINTEXT_SIZE)%Z ps ->
  exists a' wire b', write_all a ps = Ok (a', wire) /\ read_all (length ps) b wire = Ok (b', ps) /\
    tx_nonce a' = (tx_nonce a + Z.of_nat (length ps))%Z /\ rx_nonce b' = tx_nonce a' /\
    length wire = list_sum (map (fun p => 19 + length p) ps).
Proof.
  revert a b. induction ps as [|p ps IH]; intros a b Hk Hab Hn H0 Hmax Hps.
  { exists a, [], b. cbn. split_and!; try done; lia. }
  apply Forall_cons_1 in Hps as [Hp Hps]. cbn [length] in Hmax.
  destruct (write_record_spec a p (zeros (19 + length p)) Hk ltac:(lia) Hp) as (c & t & E & Hc & Ht & Hw);
    [rewrite length_zeros; lia|].
  set (a1 := {| tx := tx a; rx := rx a; tx_nonce := tx_nonce a + 1; rx_nonce := rx_nonce a; handshake_hash := handshake_hash a |}) in *.
  set (b1 := {| tx := tx b; rx := rx b; tx_nonce := tx_nonce b; rx_nonce := rx_nonce b + 1; handshake_hash := handshake_hash b |}).
  destruct (IH a1 b1) as (a' & wire & b' & Hwr & Hrd & Hna & Hnb & Hl); try done; [cbn; lia..|].
  exists a', (record_of c t ++ wire), b'. split_and!.
  - cbn [write_all]. rewrite Hw. cbn [obind].
    rewrite drop_ge by (rewrite length_zeros; lia). rewrite app_nil_r.
    assert (length (record_of c t) = 19 + length p) as Hlr by (unfold record_of; len). rewrite <- Hlr.
    rewrite slice_to by lia. rewrite take_ge by lia. cbn [obind]. rewrite Hwr. done.
  - cbn [length read_all]. assert (19 + length p = 19 + length c) as Hpc by lia. unfold MAX_PLAINTEXT_SIZE, MAX_CIPHERTEXT_SIZE, MAX_MESSAGE_SIZE, HEADER_LEN, TAG_LEN in *.
    set (bd := c ++ t). assert (length bd = length c + 16) as Hbd by (unfold bd; len).
    set (hd := [MSG_TYPE_RECORD] ++ to_be 2 (Z.of_nat (length c + 16))).
    assert (record_of c t ++ wire = hd ++ bd ++ wire) as -> by (unfold record_of, hd, bd; by norm_app).
    rewrite (slice_app_l_exact hd) by done. cbn [obind].
    assert (parse_header hd = Ok (MSG_TYPE_RECORD, Z.of_nat (length c + 16))) as ->.
    { unfold hd. pose proof (from_to_be_small 2 (Z.of_nat (length c + 16)) ltac:(lia)) as Hb.
      pose proof (length_to_be 2 (Z.of_nat (length c + 16))) as Hlb.
      destruct (to_be 2 _) as [|l1 [|l2 [|]]]; try done. unfold parse_header.
      rewrite (index_ok _ 0 MSG_TYPE_RECORD), (index_ok _ 1 l1), (index_ok _ 2 l2) by done. cbn [obind]. by rewrite Hb. }
    cbn [obind]. rewrite Nat2Z.id, <- Hbd. rewrite (slice_seg hd bd wire) by done. cbn [obind].
    unfold bd at 1. rewrite (read_record_spec b p c t) by (rewrite <- ?Hab, <- ?Hn; done || lia). cbn [obind].
    rewrite (slice_app_l_exact p) by done. cbn [obind].
    rewrite app_assoc. assert (length (hd ++ bd) = 3 + length bd) as Hhb by (unfold hd; len). rewrite <- Hhb.
    rewrite slice_from by len. rewrite drop_app_length. cbn [obind]. fold b1. by rewrite Hrd.
  - rewrite Hna. cbn. lia.
  - done.
  - rewrite length_app, Hl. cbn [map list_sum fold_right].
    assert (length (record_of c t) = 19 + length p) by (unfold record_of; len). unfold list_sum. lia.
Qed.

(** The client survives any answer: on arbitrary bytes [finish] gives a
    session or an error and never panics, [read_record] likewise; an error
    frame is reported as the server's; and a session exists only when the
    response has its exact length and its tag verifies. *)
Theorem noise_input_total hs s resp :
  ((exists cl, finish hs resp = Ok cl /\ length resp = RESPONSE_LEN /\ resp !! 0 = Some MSG_TYPE_RESPONSE /\
      tx_nonce cl = 0%Z /\ rx_nonce cl = 0%Z /\ length (tx cl) = 32 /\ length (rx cl) = 32 /\
      exists k ad, chacha_decrypt k ZERO_NONCE ad [] (drop 35 resp) = Some []) \/
   exists e, finish hs resp = Err e) /\
  (forall r, resp = MSG_TYPE_ERROR :: r -> 2 <= length r -> finish hs resp = Err ServerError) /\
  ((0 <= rx_nonce s <= u64_max)%Z ->
   (exists s' b n, read_record s resp = Ok (s', b, n) /\ n + 16 = length resp /\ length b = length resp /\
      rx_nonce s' = (rx_nonce s + 1)%Z /\ tx_nonce s' = tx_nonce s) \/
   exists e, read_record s resp = Err e).
Proof.
  split_and!.
  - unfold finish, HEADER_LEN. case_decide; [by right; eexists|].
    destruct (lookup_lt_is_Some_2 resp 0 ltac:(lia)) as [t H0]. rewrite (index_ok _ _ _ H0). cbn [obind].
    case_decide as Ht; [case_decide; right; eexists; reflexivity|]. subst t.
    destruct (lookup_lt_is_Some_2 resp 1 ltac:(lia)) as [l1 H1]. rewrite (index_ok _ _ _ H1).
    destruct (lookup_lt_is_Some_2 resp 2 ltac:(lia)) as [l2 H2]. rewrite (index_ok _ _ _ H2). cbn [obind].
    case_decide as Hl; [right; eexists; reflexivity|]. assert (length resp = 51) as Hl51 by (unfold RESPONSE_LEN in Hl; lia).
    rewrite !slice_ok by lia. cbn [obind Nat.sub].
    destruct (mix_dh _ (ephemeral hs) _) as [k0 s1]. destruct (mix_dh s1 _ _) as [k s2].
    unfold decrypt_and_hash, TAG_LEN. assert (length (take 16 (drop 35 resp)) = 16) as Hl16 by (rewrite length_take, length_drop; lia).
    rewrite Hl16. rewrite decide_False by lia. cbn [Nat.sub]. rewrite !slice_ok by lia. cbn [obind Nat.sub]. rewrite !drop_0, take_0.
    destruct (chacha_decrypt k ZERO_NONCE (h s2) [] _) as [p|] eqn:E; cbn [ok_or obind]; [|right; eexists; reflexivity].
    pose proof (chacha_decrypt_length _ _ _ _ _ _ E) as Hp. destruct p; [|done].
    unfold split. match goal with |- context [kdf2 ?x ?y] => pose proof (kdf2_length x y); destruct (kdf2 x y) end.
    left. eexists. split; [reflexivity|]. cbn [tx rx tx_nonce rx_nonce fst snd] in *.
    split_and!; try tauto; try done. exists k, (h s2). rewrite (take_ge (take 16 _)) in E by lia. rewrite (take_ge (drop 35 _)) in E; [done|].
    rewrite length_drop. lia.
  - intros r -> Hl. unfold finish, HEADER_LEN. rewrite decide_False by (simpl; lia). done.
  - intros Hn. unfold read_record, TAG_LEN. case_decide; [by right; eexists|]. case_decide; [by right; eexists|].
    rewrite slice_to, slice_from by lia. cbn [obind].
    destruct (chacha_decrypt _ _ _ _ _) as [p|] eqn:E; cbn [ok_or obind]; [|by right; eexists].
    apply chacha_decrypt_length in E. rewrite length_take in E.
    rewrite copy_range_ok by lia. cbn [obind]. rewrite uadd_ok by (unfold u64_max in *; lia). cbn [obind].
    left. eexists _, _, _. split; [reflexivity|]. rewrite length_overwrite by lia. cbn. split_and!; try done; lia.
Qed.
End NoiseProofs.

#[local] Existing Instances Toy.toy Toy.toy_laws.

Lemma noise_agreement_witness :
  exists hs msg resp sv cl,
    start (Private (replicate 32 x01)) (public_of (Private (replicate 32 x02))) 133 (Private (replicate 32 x03)) = Ok (hs, msg) /\
    length msg = INITIATION_LEN /\
    responder (Private (replicate 32 x02)) (Private (replicate 32 x04)) msg = Some (public_of (Private (replicate 32 x01)), resp, sv) /\
    finish hs resp = Ok cl /\
    tx cl = rx sv /\ rx cl = tx sv /\ handshake_hash cl = handshake_hash sv /\
    tx_nonce cl = 0%Z /\ rx_nonce cl = 0%Z /\ tx_nonce sv = 0%Z /\ rx_nonce sv = 0%Z /\
    length (tx cl) = 32 /\ length (rx cl) = 32.
Proof.
  apply (noise_agreement (Private (replicate 32 x01)) (Private (replicate 32 x02)) (Private (replicate 32 x03))
    (Private (replicate 32 x04)) 133); (reflexivity || lia).
Defined.

Definition example_session : Session :=
  {| tx := replicate 32 x01; rx := replicate 32 x01; tx_nonce := 3; rx_nonce := 3; handshake_hash := zeros 32 |}.

Lemma record_stream_witness :
  exists a' wire b', write_all example_session [bs "one"; []; bs "three"] = Ok (a', wire) /\
    read_all 3 example_session wire = Ok (b', [bs "one"; []; bs "three"]) /\
    tx_nonce a' = 6%Z /\ rx_nonce b' = tx_nonce a' /\ length wire = 65.
Proof.
  apply (record_stream example_session example_session [bs "one"; []; bs "three"]);
    try reflexivity; try (vm_compute; discriminate).
  repeat (constructor; [vm_compute; discriminate|]). constructor.
Defined.

Lemma noise_input_total_witness :
  finish {| state := initialize; machine_key := Private (zeros 32); ephemeral := Private (zeros 32) |} [MSG_TYPE_ERROR; x00; x00] = Err ServerError.
Proof.
  apply (noise_input_total {| state := initialize; machine_key := Private (zeros 32); ephemeral := Private (zeros 32) |} example_session
    [MSG_TYPE_ERROR; x00; x00]) with (r := [x00; x00]); [reflexivity|simpl; lia].
Defined.
