(* ===== verification/ControlServer.v ===== *)
(** The control server as its clients, of the firmware and of the host, rely on it:
    the answer to the upgrade, the first bytes of the handshake response, and the
    session its end has. *)
From S2P Require Import Prelude Crypto Keys Upgrade Socket.
From S2P Require Noise.

(** The answer to the upgrade: it is accepted, and ends where its headers do. *)
Definition switches (head : bytes) : Prop := parse_response head = Ok (length head).

Lemma switches_window head : switches head -> 4 <= length head /\ find_window BLANK_LINE head = Some (length head - 4).
Proof.
  unfold switches, parse_response, find_headers_end. destruct (find_window BLANK_LINE head) as [i|] eqn:E; [|done]. cbn [fmap option_fmap option_map ok_or obind].
  intros Hp. assert (i + 4 = length head) as Hi.
  { destruct (position _ head) as [le|]; [|done]. cbn [ok_or obind] in Hp. destruct (slice head 0 le) as [st| | |]; try done. cbn [obind] in Hp.
    destruct (position _ st) as [sp|]; [|done]. cbn [ok_or obind] in Hp. case_decide; [done|]. destruct (slice st _ _) as [code| | |]; try done. cbn [obind] in Hp.
    case_decide; [done|]. congruence. }
  split; [lia|]. f_equal. lia.
Qed.

(** Where it is looked for in what has arrived of a stream that begins with it. *)
Lemma parse_response_prefix head got future rest : switches head -> got ++ future = head ++ rest ->
  parse_response got = if decide (length head <= length got) then Ok (length head) else Err Incomplete.
Proof.
  intros Hs He. destruct (switches_window head Hs) as [Hl Hw].
  pose proof (window_ends BLANK_LINE head got future rest ltac:(done) Hl Hw He) as Hg. case_decide as Hd.
  - apply app_cut in He as [-> _]; [|done]. rewrite (parse_response_app head _ _ Hw). exact Hs.
  - unfold parse_response, find_headers_end. by rewrite Hg.
Qed.

Section Server.
Context `{P : Primitives}.

Lemma responder_type c er msg st resp sv : Noise.responder c er msg = Some (st, resp, sv) -> resp !! 0 = Some Noise.MSG_TYPE_RESPONSE.
Proof.
  unfold Noise.responder. destruct (Noise.responder_start c msg) as [[[s0 st0] e0]|]; [|done]. destruct (Noise.mix_dh _ er e0) as [k0 s1]. destruct (Noise.mix_dh s1 er st0) as [k s2].
  destruct (chacha_encrypt _ _ _ _) as [[c0 t]|]; [|done]. destruct (Noise.split _) as [k1 k2]. intros Heq. assert (resp = _) as -> by (injection Heq; intros; by symmetry). done.
Qed.

End Server.

(** The two ends of a session. *)
Definition matched (cl sv : Noise.Session) : Prop :=
  Noise.tx cl = Noise.rx sv /\ Noise.rx cl = Noise.tx sv /\ Noise.handshake_hash cl = Noise.handshake_hash sv /\
  Noise.tx_nonce cl = 0%Z /\ Noise.rx_nonce cl = 0%Z /\ Noise.tx_nonce sv = 0%Z /\ Noise.rx_nonce sv = 0%Z.

(** *** An example: a server's answer to a client's initiation. *)
Module Example.
#[local] Existing Instances Toy.toy Toy.toy_laws.
Definition example_keys : MachinePrivate * MachinePrivate * MachinePrivate * MachinePrivate :=
  (Private (replicate 32 x01), Private (replicate 32 x02), Private (replicate 32 x03), Private (replicate 32 x04)).
Definition example_start : Noise.Handshake * bytes :=
  let '(m, c, e, _) := example_keys in
  match Noise.start m (public_of c) 133 e with Ok r => r | _ => ({| Noise.state := Noise.initialize; Noise.machine_key := m; Noise.ephemeral := e |}, []) end.
Definition example_answer : MachinePublic * bytes * Noise.Session :=
  let '(m, c, _, er) := example_keys in
  match Noise.responder c er example_start.2 with
  | Some r => r
  | None => (public_of m, [], {| Noise.tx := []; Noise.rx := []; Noise.tx_nonce := 0; Noise.rx_nonce := 0; Noise.handshake_hash := [] |})
  end.
Lemma example_started : Noise.start (Private (replicate 32 x01)) (public_of (Private (replicate 32 x02))) 133 (Private (replicate 32 x03)) = Ok (example_start.1, example_start.2).
Proof. vm_compute. reflexivity. Qed.
Lemma example_answered : Noise.responder (Private (replicate 32 x02)) (Private (replicate 32 x04)) example_start.2 = Some (example_answer.1.1, example_answer.1.2, example_answer.2).
Proof. vm_compute. reflexivity. Qed.
Lemma example_key_ok {k} b : priv_ok (Private (replicate 32 b) : private k).
Proof. exact (eq_refl 32). Qed.
End Example.
