(* ===== verification/WireGuard.v ===== *)
(** WireGuard constants, errors, timestamps and [mac1]: [wireguard/mod.rs]. *)
From S2P Require Import Prelude Crypto Keys.

Definition CONSTRUCTION : bytes := bs "Noise_IKpsk2_25519_ChaChaPoly_BLAKE2s".
Definition IDENTIFIER : bytes := bs "WireGuard v1 zx2c4 Jason@zx2c4.com".
Definition LABEL_MAC1 : bytes := bs "mac1----".
Definition LABEL_COOKIE : bytes := bs "cookie--".

Definition MSG_INITIATION : byte := x01.
Definition MSG_RESPONSE : byte := x02.
Definition MSG_COOKIE_REPLY : byte := x03.
Definition MSG_TRANSPORT : byte := x04.

Definition INITIATION_LEN : nat := 148.
Definition RESPONSE_LEN : nat := 92.
Definition COOKIE_REPLY_LEN : nat := 64.
Definition TRANSPORT_HEADER_LEN : nat := 16.
Definition TAG_LEN : nat := 16.

(** [pub mod init] and [pub mod resp]: field offsets. *)
Definition init_SENDER : nat := 4.
Definition init_EPHEMERAL : nat := 8.
Definition init_STATIC : nat := 40.
Definition init_TIMESTAMP : nat := 88.
Definition init_MAC1 : nat := 116.
Definition resp_SENDER : nat := 4.
Definition resp_RECEIVER : nat := 8.
Definition resp_EPHEMERAL : nat := 12.
Definition resp_EMPTY : nat := 44.
Definition resp_MAC1 : nat := 60.

Inductive WgError :=
| Malformed | Decrypt | BadMac | ReplayedHandshake | ReplayedTransport | NonceExhausted | ShortBuffer.

#[export] Instance WgError_eq_dec : EqDecision WgError.
Proof. solve_decision. Defined.

(** [Tai64n], a newtype over twelve bytes. *)
Abbreviation Tai64n := bytes.
Definition EPOCH : Z := 0x400000000000000A.

Definition from_unix {E} (seconds nanos : Z) : outcome E Tai64n :=
  let? s := uadd 64 EPOCH seconds in
  let? out := copy_range (zeros 12) 0 8 (to_be 8 s) in
  copy_range out 8 12 (to_be 4 nanos).
Definition from_counter {E} (counter : Z) : outcome E Tai64n := from_unix counter 0.
Definition is_newer_than (t previous : Tai64n) : bool := bytes_gt t previous.

Section Mac1.
Context `{P : Primitives}.

Definition mac1 (peer_static : NodePublic) (message_prefix : bytes) : outcome WgError bytes :=
  let key := hash_parts [LABEL_MAC1; as_bytes peer_static] in
  keyed_mac key [message_prefix].

Lemma mac1_ok `{!PrimitiveLaws P} p m : exists t, mac1 p m = Ok t /\ length t = 16.
Proof. apply keyed_mac_ok. unfold hash_parts. rewrite blake2s256_length. lia. Qed.
End Mac1.

(** ** Timestamps *)

Lemma from_unix_ok {E} seconds nanos :
  (EPOCH + seconds < 2 ^ 64)%Z -> from_unix (E:=E) seconds nanos = Ok (to_be 8 (EPOCH + seconds) ++ to_be 4 nanos).
Proof.
  intros H. unfold from_unix. rewrite uadd_ok by done. cbn [obind].
  change (zeros 12) with (concat [zeros 8; zeros 4]).
  rewrite (copy_seg [zeros 8; zeros 4] 0 (zeros 8)) by (done || apply length_to_be). cbn [obind insert list_insert].
  rewrite (copy_seg [to_be 8 (EPOCH + seconds); zeros 4] 1 (zeros 4)); [|done|apply length_to_be|cbn; len|cbn; len].
  cbn [insert list_insert concat]. by rewrite app_nil_r.
Qed.

(** Counter timestamps are ordered as their counters, which is all the
    protocol asks of a device with no clock: a peer that saw the timestamp of
    one counter accepts exactly the timestamps of larger ones. *)
Theorem counter_timestamps_ordered c1 c2 t1 t2 :
  (0 <= c1)%Z -> (0 <= c2)%Z ->
  from_counter (E:=WgError) c1 = Ok t1 -> from_counter (E:=WgError) c2 = Ok t2 ->
  length t1 = 12 /\ length t2 = 12 /\ (is_newer_than t2 t1 = true <-> (c1 < c2)%Z).
Proof.
  intros H1 H2 E1 E2.
  assert (forall c t, from_counter (E:=WgError) c = Ok t -> (EPOCH + c < 2 ^ 64)%Z) as Hov.
  { intros c t E. destruct (decide (EPOCH + c < 2 ^ 64)%Z) as [|Hn]; [done|].
    unfold from_counter, from_unix, uadd in E. by rewrite decide_False in E. }
  pose proof (Hov _ _ E1) as Ho1. pose proof (Hov _ _ E2) as Ho2.
  unfold from_counter in E1, E2. rewrite from_unix_ok in E1, E2 by done.
  apply Ok_inj in E1 as <-. apply Ok_inj in E2 as <-. rewrite !length_app, !length_to_be. split_and!; [done..|].
  unfold is_newer_than. etrans; [apply bytes_gt_from_be; by rewrite !length_app, !length_to_be|].
  assert (forall c, (0 <= c)%Z -> (EPOCH + c < 2 ^ 64)%Z -> from_be (to_be 8 (EPOCH + c) ++ to_be 4 0) = (2 ^ 32 * (EPOCH + c))%Z) as Hv.
  { intros c Hc Hb. unfold from_be. rewrite rev_app_distr. change (rev (to_be 4 0)) with (zeros 4).
    change (zeros 4 ++ ?l) with (x00 :: x00 :: x00 :: x00 :: l). cbn [from_le].
    change (bz x00) with 0%Z. pose proof (from_to_be_small 8 (EPOCH + c)) as H. unfold from_be in H.
    rewrite H by (unfold EPOCH in *; lia). lia. }
  rewrite !Hv by done. lia.
Qed.

Lemma counter_timestamps_ordered_witness :
  exists t1 t2, from_counter (E:=WgError) 5 = Ok t1 /\ from_counter (E:=WgError) 6 = Ok t2 /\
    length t1 = 12 /\ length t2 = 12 /\ (is_newer_than t2 t1 = true <-> (5 < 6)%Z).
Proof.
  eexists _, _. split; [reflexivity|]. split; [reflexivity|].
  apply (counter_timestamps_ordered 5 6); [lia|lia|reflexivity|reflexivity].
Defined.
