(* ===== verification/WgHandshake.v ===== *)
(** The WireGuard handshake, both roles: [wireguard/handshake.rs].

    Private keys, indices and timestamps are arguments, as in the source. A
    [ChaCha20Poly1305] value is the key it was built from. *)
From S2P Require Import Prelude Crypto Keys WireGuard.

Definition ZERO_NONCE : bytes := zeros 12.
Definition NO_PSK : bytes := zeros KEY_LEN.

(** The running [(chaining_key, hash)] pair. *)
Record State := { st_c : bytes; st_h : bytes }.

Record SessionKeys := { send : bytes; receive : bytes; local_index : Z; peer_index : Z }.

Record Initiator := {
  i_state : State; i_ephemeral : NodePrivate; i_static_private : NodePrivate; i_local_index : Z
}.
Record Responder := {
  r_state : State; r_static_private : NodePrivate; r_peer_static : NodePublic;
  r_peer_ephemeral : NodePublic; r_peer_index : Z
}.
Record Initiation := { in_peer_static : NodePublic; in_timestamp : Tai64n; in_peer_index : Z }.

Section Handshake.
Context `{P : Primitives}.

Definition state_new (responder_static : NodePublic) : State :=
  let c := hash CONSTRUCTION in
  let h := hash_parts [c; IDENTIFIER] in
  let h := hash_parts [h; as_bytes responder_static] in
  {| st_c := c; st_h := h |}.

Definition mix_hash (s : State) (data : bytes) : State :=
  {| st_c := st_c s; st_h := hash_parts [st_h s; data] |}.
Definition mix_key (s : State) (input : bytes) : State :=
  {| st_c := kdf1 (st_c s) input; st_h := st_h s |}.
(** [mix_key_and_cipher]: the cipher and the state. *)
Definition mix_key_and_cipher (s : State) (input : bytes) : bytes * State :=
  let (c, k) := kdf2 (st_c s) input in (k, {| st_c := c; st_h := st_h s |}).
Definition mix_psk (s : State) : bytes * State :=
  let '(c, tau, k) := kdf3 (st_c s) NO_PSK in
  (k, mix_hash {| st_c := c; st_h := st_h s |} tau).

(** [seal]: the state and the filled slice. *)
Definition seal (s : State) (cipher out plaintext : bytes) : outcome WgError (State * bytes) :=
  if decide (length out <> length plaintext + TAG_LEN) then Err ShortBuffer
  else
    let? (body, tag) := ok_or (chacha_encrypt cipher ZERO_NONCE (st_h s) plaintext) Decrypt in
    let out := body ++ tag in
    Ok (mix_hash s out, out).

(** [open]: the state and the plaintext in a slice of [out_len] bytes. *)
Definition open (s : State) (cipher : bytes) (out_len : nat) (ciphertext : bytes) : outcome WgError (State * bytes) :=
  if decide (length ciphertext <> out_len + TAG_LEN) then Err Malformed
  else
    let? body := slice ciphertext 0 (length ciphertext - TAG_LEN) in
    let? tag := slice ciphertext (length ciphertext - TAG_LEN) (length ciphertext) in
    let? out := ok_or (chacha_decrypt cipher ZERO_NONCE (st_h s) body tag) Decrypt in
    Ok (mix_hash s ciphertext, out).

Definition split (s : State) : bytes * bytes := kdf2 (st_c s) [].

(** [Initiator::new] *)
Definition initiator_new (static_private : NodePrivate) (peer_static : NodePublic) (ephemeral : NodePrivate)
    (local_index : Z) (timestamp : Tai64n) : outcome WgError (Initiator * bytes) :=
  let state := state_new peer_static in
  let msg := zeros INITIATION_LEN in
  let? msg := set_at msg 0 MSG_INITIATION in
  let? msg := copy_range msg init_SENDER (init_SENDER + 4) (to_le 4 local_index) in
  let ephemeral_pub := public_of ephemeral in
  let state := mix_key state (as_bytes ephemeral_pub) in
  let? msg := copy_range msg init_EPHEMERAL (init_EPHEMERAL + KEY_LEN) (as_bytes ephemeral_pub) in
  let state := mix_hash state (as_bytes ephemeral_pub) in
  let (cipher, state) := mix_key_and_cipher state (dh ephemeral peer_static) in
  let static_public := public_of static_private in
  let? out := slice msg init_STATIC (init_STATIC + (KEY_LEN + TAG_LEN)) in
  let? (state, out) := seal state cipher out (as_bytes static_public) in
  let? msg := copy_range msg init_STATIC (init_STATIC + (KEY_LEN + TAG_LEN)) out in
  let (cipher, state) := mix_key_and_cipher state (dh static_private peer_static) in
  let? out := slice msg init_TIMESTAMP (init_TIMESTAMP + (12 + TAG_LEN)) in
  let? (state, out) := seal state cipher out timestamp in
  let? msg := copy_range msg init_TIMESTAMP (init_TIMESTAMP + (12 + TAG_LEN)) out in
  let? prefix := slice msg 0 init_MAC1 in
  let? m := mac1 peer_static prefix in
  let? msg := copy_range msg init_MAC1 (init_MAC1 + length m) m in
  Ok ({| i_state := state; i_ephemeral := ephemeral; i_static_private := static_private;
         i_local_index := local_index |}, msg).

(** [Initiator::consume_response] *)
Definition consume_response (self : Initiator) (msg : bytes) : outcome WgError SessionKeys :=
  if decide (length msg <> RESPONSE_LEN) then Err Malformed
  else
    let? b0 := index msg 0 in
    if decide (b0 <> MSG_RESPONSE) then Err Malformed
    else
      let? idx := slice msg resp_SENDER (resp_SENDER + 4) in
      let peer_index := from_le idx in
      let? e := slice msg resp_EPHEMERAL (resp_EPHEMERAL + KEY_LEN) in
      let peer_ephemeral : NodePublic := Public e in
      let state := mix_key (i_state self) (as_bytes peer_ephemeral) in
      let state := mix_hash state (as_bytes peer_ephemeral) in
      let state := mix_key state (dh (i_ephemeral self) peer_ephemeral) in
      let state := mix_key state (dh (i_static_private self) peer_ephemeral) in
      let (cipher, state) := mix_psk state in
      let? empty := slice msg resp_EMPTY (resp_EMPTY + TAG_LEN) in
      let? (state, _) := open state cipher 0 empty in
      let (send, receive) := split state in
      Ok {| send := send; receive := receive; local_index := i_local_index self; peer_index := peer_index |}.

(** [Responder::consume_initiation] *)
Definition consume_initiation (static_private : NodePrivate) (msg : bytes)
    : outcome WgError (Responder * Initiation) :=
  if decide (length msg <> INITIATION_LEN) then Err Malformed
  else
    let? b0 := index msg 0 in
    if decide (b0 <> MSG_INITIATION) then Err Malformed
    else
      let static_public := public_of static_private in
      let? prefix := slice msg 0 init_MAC1 in
      let? expected := mac1 static_public prefix in
      let? got := slice msg init_MAC1 (init_MAC1 + length expected) in
      if decide (got <> expected) then Err BadMac
      else
        let? idx := slice msg init_SENDER (init_SENDER + 4) in
        let peer_index := from_le idx in
        let state := state_new static_public in
        let? e := slice msg init_EPHEMERAL (init_EPHEMERAL + KEY_LEN) in
        let peer_ephemeral : NodePublic := Public e in
        let state := mix_key state (as_bytes peer_ephemeral) in
        let state := mix_hash state (as_bytes peer_ephemeral) in
        let (cipher, state) := mix_key_and_cipher state (dh static_private peer_ephemeral) in
        let? sealed := slice msg init_STATIC (init_STATIC + KEY_LEN + TAG_LEN) in
        let? (state, ps) := open state cipher KEY_LEN sealed in
        let peer_static : NodePublic := Public ps in
        let (cipher, state) := mix_key_and_cipher state (dh static_private peer_static) in
        let? sealed := slice msg init_TIMESTAMP (init_TIMESTAMP + 12 + TAG_LEN) in
        let? (state, timestamp) := open state cipher 12 sealed in
        Ok ({| r_state := state; r_static_private := static_private; r_peer_static := peer_static;
               r_peer_ephemeral := peer_ephemeral; r_peer_index := peer_index |},
            {| in_peer_static := peer_static; in_timestamp := timestamp; in_peer_index := peer_index |}).

(** [Responder::respond] *)
Definition respond (self : Responder) (ephemeral : NodePrivate) (local_index : Z)
    : outcome WgError (bytes * SessionKeys) :=
  let msg := zeros RESPONSE_LEN in
  let? msg := set_at msg 0 MSG_RESPONSE in
  let? msg := copy_range msg resp_SENDER (resp_SENDER + 4) (to_le 4 local_index) in
  let? msg := copy_range msg resp_RECEIVER (resp_RECEIVER + 4) (to_le 4 (r_peer_index self)) in
  let ephemeral_pub := public_of ephemeral in
  let state := mix_key (r_state self) (as_bytes ephemeral_pub) in
  let? msg := copy_range msg resp_EPHEMERAL (resp_EPHEMERAL + KEY_LEN) (as_bytes ephemeral_pub) in
  let state := mix_hash state (as_bytes ephemeral_pub) in
  let state := mix_key state (dh ephemeral (r_peer_ephemeral self)) in
  let state := mix_key state (dh ephemeral (r_peer_static self)) in
  let (cipher, state) := mix_psk state in
  let? out := slice msg resp_EMPTY (resp_EMPTY + TAG_LEN) in
  let? (state, out) := seal state cipher out [] in
  let? msg := copy_range msg resp_EMPTY (resp_EMPTY + TAG_LEN) out in
  let? prefix := slice msg 0 resp_MAC1 in
  let? m := mac1 (r_peer_static self) prefix in
  let? msg := copy_range msg resp_MAC1 (resp_MAC1 + length m) m in
  let (receive, send) := split state in
  Ok (msg, {| send := send; receive := receive; local_index := local_index; peer_index := r_peer_index self |}).
End Handshake.

(** ** Proofs *)
Section HandshakeProofs.
Context `{P : Primitives, L : !PrimitiveLaws P}.

Lemma seal_ok s k out p :
  length k = 32 -> length out = length p + TAG_LEN -> length p <= 64 ->
  exists c t, chacha_encrypt k ZERO_NONCE (st_h s) p = Some (c, t) /\ length c = length p /\ length t = 16 /\
    seal s k out p = Ok (mix_hash s (c ++ t), c ++ t).
Proof.
  intros Hk Ho Hp. destruct (chacha_encrypt_ok k ZERO_NONCE (st_h s) p Hk) as (c & t & E & Hc & Ht); [done|lia|].
  exists c, t. split_and!; try done. unfold seal. rewrite decide_False by auto. by rewrite E.
Qed.

(** Opening what was sealed in the same state gives the plaintext back and the
    same next state. *)
Lemma open_sealed s k n p c t :
  chacha_encrypt k ZERO_NONCE (st_h s) p = Some (c, t) -> length c = n -> length t = 16 ->
  open s k n (c ++ t) = Ok (mix_hash s (c ++ t), p).
Proof.
  intros E Hc Ht. unfold open, TAG_LEN. rewrite decide_False by (intros H; apply H; len).
  rewrite slice_to by len. cbn [obind]. rewrite slice_from by len. cbn [obind].
  replace (length (c ++ t) - 16) with (length c) by len.
  rewrite take_app_length, drop_app_length. by rewrite (chacha_decrypt_encrypt _ _ _ _ _ _ E).
Qed.

Lemma mix_key_and_cipher_length s i : length (mix_key_and_cipher s i).1 = 32.
Proof. unfold mix_key_and_cipher. pose proof (kdf2_length (st_c s) i). destruct (kdf2 _ _). tauto. Qed.
Lemma mix_psk_length s : length (mix_psk s).1 = 32.
Proof. unfold mix_psk. pose proof (kdf3_length (st_c s) NO_PSK). destruct (kdf3 _ _) as [[? ?] ?]. tauto. Qed.

(** The message layouts. *)
Definition init_segs (idx e st ts m : bytes) : list bytes :=
  [[MSG_INITIATION; x00; x00; x00]; idx; e; st; ts; m; zeros 16].
Definition resp_segs (idx ridx e em m : bytes) : list bytes :=
  [[MSG_RESPONSE; x00; x00; x00]; idx; ridx; e; em; m; zeros 16].
End HandshakeProofs.

(** Length side conditions of segment accesses. *)
Ltac seglen := cbn [take drop concat lookup list_lookup insert list_insert]; unfold as_bytes, KEY_LEN, TAG_LEN, init_SENDER, init_EPHEMERAL, init_STATIC,
  init_TIMESTAMP, init_MAC1, resp_SENDER, resp_RECEIVER, resp_EPHEMERAL, resp_EMPTY, resp_MAC1 in *;
  rewrite ?length_app, ?length_to_le, ?length_zeros; cbn [length]; try lia.

Section Agreement.
Context `{P : Primitives, L : !PrimitiveLaws P}.

(** States after each half of a message, as both sides compute them. *)
Definition after_ephemeral (s : State) (e : bytes) : State := mix_hash (mix_key s e) e.
Definition resp_keys (s : State) (e dh1 dh2 : bytes) : bytes * State :=
  mix_psk (mix_key (mix_key (after_ephemeral s e) dh1) dh2).

Lemma initiator_new_spec a pb ea li ts :
  priv_ok a -> pub_ok pb -> priv_ok ea -> length ts = 12 ->
  let e := as_bytes (public_of ea) in
  let ks1 := mix_key_and_cipher (after_ephemeral (state_new pb) e) (dh ea pb) in
  exists c1 t1 c2 t2 m,
    let ct1 := c1 ++ t1 in let ct2 := c2 ++ t2 in
    let ks2 := mix_key_and_cipher (mix_hash ks1.2 ct1) (dh a pb) in
    chacha_encrypt ks1.1 ZERO_NONCE (st_h ks1.2) (as_bytes (public_of a)) = Some (c1, t1) /\
    chacha_encrypt ks2.1 ZERO_NONCE (st_h ks2.2) ts = Some (c2, t2) /\
    length c1 = 32 /\ length t1 = 16 /\ length c2 = 12 /\ length t2 = 16 /\ length m = 16 /\
    mac1 pb (concat (take 5 (init_segs (to_le 4 li) e ct1 ct2 m))) = Ok m /\
    initiator_new a pb ea li ts =
      Ok ({| i_state := mix_hash ks2.2 ct2; i_ephemeral := ea; i_static_private := a; i_local_index := li |},
          concat (init_segs (to_le 4 li) e ct1 ct2 m)).
Proof.
  intros Ha Hpb Hea Hts e ks1.
  assert (length e = 32) as He by (apply public_of_ok; done).
  assert (length (as_bytes (public_of a)) = 32) as Hsa by (apply public_of_ok; done).
  destruct (seal_ok ks1.2 ks1.1 (zeros 48) (as_bytes (public_of a))) as (c1 & t1 & E1 & Hc1 & Ht1 & S1);
    [apply mix_key_and_cipher_length|unfold TAG_LEN; rewrite length_zeros; lia|lia|].
  set (ks2 := mix_key_and_cipher (mix_hash ks1.2 (c1 ++ t1)) (dh a pb)).
  destruct (seal_ok ks2.2 ks2.1 (zeros 28) ts) as (c2 & t2 & E2 & Hc2 & Ht2 & S2);
    [apply mix_key_and_cipher_length|unfold TAG_LEN; rewrite length_zeros; lia|lia|].
  destruct (mac1_ok pb (concat (take 5 (init_segs (to_le 4 li) e (c1 ++ t1) (c2 ++ t2) (zeros 16))))) as (m & Hm & Hml).
  exists c1, t1, c2, t2, m. cbv zeta. fold ks2. split_and!; try done; [lia..|].
  unfold initiator_new. fold e.
  assert (set_at (E:=WgError) (zeros INITIATION_LEN) 0 MSG_INITIATION
    = Ok (concat (init_segs (zeros 4) (zeros 32) (zeros 48) (zeros 28) (zeros 16)))) as -> by (vm_compute; reflexivity).
  cbn [obind]. unfold init_segs in *.
  rewrite (copy_seg _ 1 (zeros 4)) by (done || seglen). cbn [obind insert list_insert].
  rewrite (copy_seg _ 2 (zeros 32)) by (done || seglen). cbn [obind insert list_insert].
  fold (after_ephemeral (state_new pb) e). fold ks1.
  rewrite (surjective_pairing ks1).
  rewrite (slice_nth _ 3 (zeros 48)) by (done || seglen). cbn [obind]. rewrite S1. cbn [obind].
  rewrite (copy_seg _ 3 (zeros 48)) by (done || seglen). cbn [obind insert list_insert].
  fold ks2. rewrite (surjective_pairing ks2).
  rewrite (slice_nth _ 4 (zeros 28)) by (done || seglen). cbn [obind]. rewrite S2. cbn [obind].
  rewrite (copy_seg _ 4 (zeros 28)) by (done || seglen). cbn [obind insert list_insert].
  rewrite (slice_segs _ 0 5) by (lia || seglen). rewrite drop_0. cbn [obind].
  cbn [take] in Hm |- *. rewrite Hm. cbn [obind].
  rewrite (copy_seg _ 5 (zeros 16)) by (done || seglen). cbn [obind insert list_insert]. done.
Qed.

(** The responder's reading of that message: it ends in the same state. *)
Lemma consume_initiation_spec a b ea li ts :
  priv_ok a -> priv_ok b -> priv_ok ea -> length ts = 12 -> (0 <= li < 2 ^ 32)%Z ->
  exists i msg r,
    initiator_new a (public_of b) ea li ts = Ok (i, msg) /\
    consume_initiation b msg =
      Ok (r, {| in_peer_static := public_of a; in_timestamp := ts; in_peer_index := li |}) /\
    r_state r = i_state i /\ r_peer_static r = public_of a /\
    r_peer_ephemeral r = public_of ea /\ r_peer_index r = li /\
    i_ephemeral i = ea /\ i_static_private i = a /\ i_local_index i = li.
Proof.
  intros Ha Hb Hea Hts Hli. assert (pub_ok (public_of b)) as Hpb by (by apply public_of_ok).
  destruct (initiator_new_spec a (public_of b) ea li ts Ha Hpb Hea Hts)
    as (c1 & t1 & c2 & t2 & m & E1 & E2 & Hc1 & Ht1 & Hc2 & Ht2 & Hm & Hmac & Hnew).
  set (e := as_bytes (public_of ea)) in *. assert (length e = 32) as He by (apply public_of_ok; done).
  eexists _, _, _. split; [exact Hnew|]. clear Hnew. cbn [i_state i_ephemeral i_static_private i_local_index].
  split; [|split_and!].
  - unfold consume_initiation. unfold init_segs in *.
    rewrite decide_False by (intros H; apply H; unfold INITIATION_LEN; seglen).
    rewrite (index_ok _ 0 MSG_INITIATION) by done. cbn [obind]. rewrite decide_False by auto.
    rewrite (slice_segs _ 0 5) by (lia || seglen). rewrite drop_0. cbn [obind].
    rewrite Hmac. cbn [obind]. rewrite (slice_nth _ 5 m) by (done || seglen). cbn [obind].
    rewrite decide_False by auto.
    rewrite (slice_nth _ 1 (to_le 4 li)) by (done || seglen). cbn [obind].
    rewrite (slice_nth _ 2 e) by (done || seglen). cbn [obind].
    change (as_bytes (Public e)) with e. fold (after_ephemeral (state_new (public_of b)) e).
    change (Public e) with (public_of ea). rewrite (dh_comm b ea) by done.
    rewrite (surjective_pairing (mix_key_and_cipher (after_ephemeral _ _) _)).
    rewrite (slice_nth _ 3 (c1 ++ t1)) by (done || seglen). cbn [obind].
    rewrite (open_sealed _ _ _ _ _ _ E1) by done. cbn [obind].
    change (Public (as_bytes (public_of a))) with (public_of a). rewrite (dh_comm b a) by done.
    rewrite (surjective_pairing (mix_key_and_cipher (mix_hash _ _) _)).
    rewrite (slice_nth _ 4 (c2 ++ t2)) by (done || seglen). cbn [obind].
    rewrite (open_sealed _ _ _ _ _ _ E2) by done. cbn [obind].
    rewrite from_to_le_small by done. reflexivity.
  - reflexivity.
  - reflexivity.
  - reflexivity.
  - reflexivity.
  - reflexivity.
  - reflexivity.
  - reflexivity.
Qed.

Lemma respond_spec r eb lj :
  priv_ok eb -> pub_ok (r_peer_static r) ->
  let e := as_bytes (public_of eb) in
  let ks := resp_keys (r_state r) e (dh eb (r_peer_ephemeral r)) (dh eb (r_peer_static r)) in
  exists c t m,
    chacha_encrypt ks.1 ZERO_NONCE (st_h ks.2) [] = Some (c, t) /\ length c = 0 /\ length t = 16 /\ length m = 16 /\
    let final := split (mix_hash ks.2 (c ++ t)) in
    respond r eb lj =
      Ok (concat (resp_segs (to_le 4 lj) (to_le 4 (r_peer_index r)) e (c ++ t) m),
          {| send := final.2; receive := final.1; local_index := lj; peer_index := r_peer_index r |}).
Proof.
  intros Heb Hps e ks. assert (length e = 32) as He by (apply public_of_ok; done).
  destruct (seal_ok ks.2 ks.1 (zeros 16) []) as (c & t & E & Hc & Ht & S);
    [apply mix_psk_length|done|simpl; lia|]. simpl in Hc.
  destruct (mac1_ok (r_peer_static r) (concat (take 5 (resp_segs (to_le 4 lj) (to_le 4 (r_peer_index r)) e (c ++ t) (zeros 16)))))
    as (m & Hm & Hml).
  exists c, t, m. cbv zeta. split_and!; try done. unfold respond. fold e.
  assert (set_at (E:=WgError) (zeros RESPONSE_LEN) 0 MSG_RESPONSE
    = Ok (concat (resp_segs (zeros 4) (zeros 4) (zeros 32) (zeros 16) (zeros 16)))) as -> by (vm_compute; reflexivity).
  cbn [obind]. unfold resp_segs in *.
  rewrite (copy_seg _ 1 (zeros 4)) by (done || seglen). cbn [obind insert list_insert].
  rewrite (copy_seg _ 2 (zeros 4)) by (done || seglen). cbn [obind insert list_insert].
  rewrite (copy_seg _ 3 (zeros 32)) by (done || seglen). cbn [obind insert list_insert].
  change (mix_psk _) with ks. rewrite (surjective_pairing ks).
  rewrite (slice_nth _ 4 (zeros 16)) by (done || seglen). cbn [obind]. rewrite S. cbn [obind].
  rewrite (copy_seg _ 4 (zeros 16)) by (done || seglen). cbn [obind insert list_insert].
  rewrite (slice_segs _ 0 5) by (lia || seglen). rewrite drop_0. cbn [obind].
  cbn [take] in Hm |- *. rewrite Hm. cbn [obind].
  rewrite (copy_seg _ 5 (zeros 16)) by (done || seglen). cbn [obind insert list_insert].
  by rewrite (surjective_pairing (split _)).
Qed.

(** Two fields of the response that anyone can read. *)
Lemma respond_fields r eb lj msg k :
  priv_ok eb -> pub_ok (r_peer_static r) -> respond r eb lj = Ok (msg, k) ->
  take 4 (drop 4 msg) = to_le 4 lj /\ take 32 (drop 12 msg) = pub_bytes (public_of eb).
Proof.
  intros He Hp. destruct (respond_spec r eb lj He Hp) as (c & t & m & _ & _ & _ & _ & Hr). cbv zeta in Hr. rewrite Hr.
  intros Hm%Ok_inj%(f_equal fst). cbn [fst] in Hm. subst msg. assert (length (pub_bytes (public_of eb)) = 32) as Hl by (apply public_of_ok; done).
  unfold resp_segs. cbn [concat]. split; [by rewrite drop_app_length', take_app_length' by done|].
  rewrite 2!app_assoc. rewrite drop_app_length' by (rewrite !length_app, !length_to_le; done). by rewrite take_app_length' by done.
Qed.

Lemma respond_consume i r eb lj :
  priv_ok eb -> priv_ok (i_ephemeral i) -> priv_ok (i_static_private i) -> (0 <= lj < 2 ^ 32)%Z ->
  r_state r = i_state i -> r_peer_static r = public_of (i_static_private i) ->
  r_peer_ephemeral r = public_of (i_ephemeral i) ->
  exists msg kr ki,
    respond r eb lj = Ok (msg, kr) /\ consume_response i msg = Ok ki /\
    send ki = receive kr /\ receive ki = send kr /\ length (send ki) = 32 /\ length (receive ki) = 32 /\
    local_index ki = i_local_index i /\ peer_index ki = lj /\ local_index kr = lj /\ peer_index kr = r_peer_index r.
Proof.
  intros Heb Hie His Hlj Hst Hps Hpe.
  destruct (respond_spec r eb lj Heb) as (c & t & m & E & Hc & Ht & Hm & Hr);
    [rewrite Hps; by apply public_of_ok|]. cbv zeta in Hr.
  rewrite Hst, Hps, Hpe in E, Hr.
  set (e := as_bytes (public_of eb)) in *. assert (length e = 32) as He by (apply public_of_ok; done).
  set (ks := resp_keys _ _ _ _) in *.
  eexists _, _, _. split; [exact Hr|]. clear Hr.
  split.
  - unfold consume_response, resp_segs.
    rewrite decide_False by (intros H; apply H; unfold RESPONSE_LEN; seglen).
    rewrite (index_ok _ 0 MSG_RESPONSE) by done. cbn [obind]. rewrite decide_False by auto.
    rewrite (slice_nth _ 1 (to_le 4 lj)) by (done || seglen). cbn [obind].
    rewrite (slice_nth _ 3 e) by (done || seglen). cbn [obind].
    change (as_bytes (Public e)) with e. change (Public e) with (public_of eb).
    rewrite (dh_comm (i_ephemeral i) eb), (dh_comm (i_static_private i) eb) by done.
    change (mix_psk _) with ks. rewrite (surjective_pairing ks).
    rewrite (slice_nth _ 4 (c ++ t)) by (done || seglen). cbn [obind].
    rewrite (open_sealed _ _ _ _ _ _ E) by done. cbn [obind].
    rewrite (surjective_pairing (split _)), from_to_le_small by done. reflexivity.
  - cbn [send receive local_index peer_index]. unfold split. 
    pose proof (kdf2_length (st_c (mix_hash ks.2 (c ++ t))) []). tauto.
Qed.

(** Opening anything: a plaintext of the asked length, or an error. *)
Lemma open_total s k n ct :
  (exists p, open s k n ct = Ok (mix_hash s ct, p) /\ length p = n /\
     chacha_decrypt k ZERO_NONCE (st_h s) (take n ct) (drop n ct) = Some p)
  \/ open s k n ct = Err Malformed \/ open s k n ct = Err Decrypt.
Proof.
  unfold open, TAG_LEN. case_decide as Hl; [by right; left|].
  rewrite slice_to, slice_from by lia. cbn [obind].
  replace (length ct - 16) with n by lia.
  destruct (chacha_decrypt k ZERO_NONCE (st_h s) (take n ct) (drop n ct)) as [p|] eqn:E; cbn [ok_or obind]; [|by right; right].
  left. exists p. split_and!; try done. apply chacha_decrypt_length in E. rewrite length_take in E. lia.
Qed.

(** C1. The handshake agrees on a session. For any two static keys, any
    ephemerals, indices and timestamp: the initiation our initiator builds is
    accepted by the responder it names, which learns exactly the initiator's
    identity, timestamp and index; its response is accepted; and the two ends
    hold the same two transport keys with the directions swapped and each
    other's indices. *)
Theorem handshake_agreement a b ea eb li lj ts :
  priv_ok a -> priv_ok b -> priv_ok ea -> priv_ok eb ->
  (0 <= li < 2 ^ 32)%Z -> (0 <= lj < 2 ^ 32)%Z -> length ts = 12 ->
  exists i m1 r m2 kr ki,
    initiator_new a (public_of b) ea li ts = Ok (i, m1) /\ 
    consume_initiation b m1 =
      Ok (r, {| in_peer_static := public_of a; in_timestamp := ts; in_peer_index := li |}) /\
    respond r eb lj = Ok (m2, kr) /\ consume_response i m2 = Ok ki /\
    send ki = receive kr /\ receive ki = send kr /\ length (send ki) = 32 /\ length (receive ki) = 32 /\
    local_index ki = li /\ peer_index ki = lj /\ local_index kr = lj /\ peer_index kr = li.
Proof.
  intros Ha Hb Hea Heb Hli Hlj Hts.
  destruct (consume_initiation_spec a b ea li ts) as (i & m1 & r & H1 & H2 & Hst & Hps & Hpe & Hpi & Hie & His & Hil); try done.
  destruct (respond_consume i r eb lj) as (m2 & kr & ki & H3 & H4 & Hk); try done; try congruence.
  rewrite Hpi, Hil in Hk. exists i, m1, r, m2, kr, ki. split_and!; try done; tauto.
Qed.

Lemma open_Ok_inv s k n ct st p :
  open s k n ct = Ok (st, p) -> st = mix_hash s ct /\ length p = n /\ chacha_decrypt k ZERO_NONCE (st_h s) (take n ct) (drop n ct) = Some p.
Proof. intros H. destruct (open_total s k n ct) as [(q & E & Hq & D)|[E|E]]; rewrite E in H; try done. by injection H as <- <-. Qed.

(** The responder is total on arbitrary bytes. *)
Lemma consume_initiation_no_panic b msg :
  (exists e, consume_initiation b msg = Err e /\ (e = Malformed \/ e = BadMac \/ e = Decrypt)) \/
  exists ri, consume_initiation b msg = Ok ri.
Proof.
  unfold consume_initiation, INITIATION_LEN. case_decide as Hl; [left; by eexists; split; [|left]|].
  destruct (lookup_lt_is_Some_2 msg 0 ltac:(lia)) as [b0 H0]. rewrite (index_ok _ _ _ H0). cbn [obind].
  case_decide as Ht; [left; by eexists; split; [|left]|].
  unfold init_MAC1, init_SENDER, init_EPHEMERAL, init_STATIC, init_TIMESTAMP, KEY_LEN, TAG_LEN.
  rewrite slice_to by lia. cbn [obind].
  destruct (mac1_ok (public_of b) (take 116 msg)) as (m & Hm & Hml). rewrite Hm. cbn [obind]. rewrite Hml.
  rewrite !slice_ok by lia. cbn [obind Nat.add Nat.sub].
  case_decide as Hmac; [left; by eexists; split; [|right; left]|].
  unfold mix_key_and_cipher. rewrite (surjective_pairing (kdf2 _ (dh b (Public _)))).
  match goal with |- context [open ?s ?k 32 ?ct] => destruct (open_total s k 32 ct) as [(p & -> & Hp & D1)|[-> | ->]] end;
    cbn [obind]; [|left; eexists; split; [reflexivity|auto]..].
  rewrite (surjective_pairing (kdf2 _ (dh b (Public p)))).
  match goal with |- context [open ?s ?k 12 ?ct] => destruct (open_total s k 12 ct) as [(q & -> & Hq & D2)|[-> | ->]] end;
    cbn [obind]; [|left; eexists; split; [reflexivity|auto]..].
  right. by eexists.
Qed.

(** What an accepted initiation is. *)
Definition initiation_accepted (b : NodePrivate) (msg : bytes) (r : Responder) (i : Initiation) : Prop :=
  let c0 := kdf1 (st_c (state_new (public_of b))) (take 32 (drop 8 msg)) in
  let ck1 := kdf2 c0 (dh b (r_peer_ephemeral r)) in
  let ck2 := kdf2 ck1.1 (dh b (in_peer_static i)) in
  length msg = INITIATION_LEN /\ msg !! 0 = Some MSG_INITIATION /\
  mac1 (public_of b) (take 116 msg) = Ok (take 16 (drop 116 msg)) /\
  r_peer_ephemeral r = Public (take 32 (drop 8 msg)) /\ r_peer_static r = in_peer_static i /\
  r_peer_index r = in_peer_index i /\ in_peer_index i = from_le (take 4 (drop 4 msg)) /\
  pub_ok (in_peer_static i) /\ length (in_timestamp i) = 12 /\
  exists ad1 ad2,
    chacha_decrypt ck1.2 ZERO_NONCE ad1 (take 32 (drop 40 msg)) (take 16 (drop 72 msg)) = Some (pub_bytes (in_peer_static i)) /\
    chacha_decrypt ck2.2 ZERO_NONCE ad2 (take 12 (drop 88 msg)) (take 16 (drop 100 msg)) = Some (in_timestamp i).

Lemma mix_key_and_cipher_inv s input k s' :
  mix_key_and_cipher s input = (k, s') -> k = (kdf2 (st_c s) input).2 /\ st_c s' = (kdf2 (st_c s) input).1.
Proof. unfold mix_key_and_cipher. destruct (kdf2 _ _) as [c k']. by intros [= <- <-]. Qed.

Lemma consume_initiation_Ok_inv b msg r i : consume_initiation b msg = Ok (r, i) -> initiation_accepted b msg r i.
Proof.
  unfold consume_initiation, initiation_accepted, INITIATION_LEN, init_MAC1, init_SENDER, init_EPHEMERAL, init_STATIC, init_TIMESTAMP,
    KEY_LEN, TAG_LEN, index, unwrap. intros H. inv_ok. injection H as <- <-.
  repeat match goal with
  | H : slice _ _ _ = Ok _ |- _ => apply slice_Ok_inv in H as [-> ?]
  | H : open _ _ _ _ = Ok _ |- _ => apply open_Ok_inv in H as (-> & ? & ?)
  | H : mix_key_and_cipher _ _ = _ |- _ => apply mix_key_and_cipher_inv in H as [-> ?]
  end.
  match goal with H : mac1 _ _ = Ok ?m |- _ => destruct (mac1_ok (public_of b) (take 116 msg)) as (m' & Hm & Hl);
    rewrite Nat.sub_0_r, drop_0, Hm in H; apply Ok_inj in H; subst m end.
  rewrite Hl in *. cbn [r_peer_ephemeral r_peer_static r_peer_index in_peer_static in_peer_index in_timestamp pub_bytes Nat.add Nat.sub] in *.
  split_and!; try done; [by destruct (msg !! 0); congruence|congruence|].
  cbn [mix_hash mix_key st_c as_bytes pub_bytes] in *. match goal with H : st_c _ = (kdf2 (kdf1 _ _) _).1 |- _ => rewrite <- H end.
  repeat match goal with H : chacha_decrypt _ _ _ _ _ = _ |- _ => rewrite take_take, skipn_firstn_comm, drop_drop in H end.
  eexists _, _. split; eassumption.
Qed.

(** C27. No initiation can crash or fool the responder: whatever the bytes,
    [consume_initiation] accepts or gives one of three errors, never a panic;
    [mac1] is checked before anything else is looked at; and what it accepts is
    a 148-byte message whose [mac1] was computed for our key, with the identity
    and the timestamp authenticated under the keys of the Diffie-Hellman
    results with our static key. *)
Theorem consume_initiation_sound b msg :
  (exists e, consume_initiation b msg = Err e /\ (e = Malformed \/ e = BadMac \/ e = Decrypt)) \/
  exists r i, consume_initiation b msg = Ok (r, i) /\ initiation_accepted b msg r i.
Proof.
  destruct (consume_initiation_no_panic b msg) as [He|[[r i] E]]; [by left|]. right. exists r, i. split; [done|].
  by apply consume_initiation_Ok_inv.
Qed.

Lemma consume_response_total i msg :
  (exists k, consume_response i msg = Ok k /\ length (send k) = 32 /\ length (receive k) = 32 /\
     local_index k = i_local_index i /\ peer_index k = from_le (take 4 (drop 4 msg))) \/
  consume_response i msg = Err Malformed \/ consume_response i msg = Err Decrypt.
Proof.
  unfold consume_response, RESPONSE_LEN. case_decide as Hl; [by right; left|].
  destruct (lookup_lt_is_Some_2 msg 0 ltac:(lia)) as [b0 H0]. rewrite (index_ok _ _ _ H0). cbn [obind].
  case_decide as Ht; [by right; left|]. unfold resp_SENDER, resp_EPHEMERAL, resp_EMPTY, KEY_LEN, TAG_LEN.
  rewrite !slice_ok by lia. cbn [obind Nat.add Nat.sub].
  destruct (mix_psk _) as [k st].
  match goal with |- context [open ?s ?k 0 ?ct] => destruct (open_total s k 0 ct) as [(p & -> & _)|[-> | ->]] end;
    cbn [obind]; [|right; left; reflexivity|right; right; reflexivity].
  unfold split. match goal with |- context [kdf2 ?x ?y] => pose proof (kdf2_length x y); destruct (kdf2 x y) end.
  left. eexists. split; [reflexivity|]. cbn [send receive local_index peer_index fst snd] in *. tauto.
Qed.
End Agreement.

#[local] Existing Instances Toy.toy Toy.toy_laws.

Lemma handshake_agreement_witness :
  exists i m1 r m2 kr ki,
    initiator_new (P:=Toy.toy) (Private (replicate 32 x01)) (public_of (Private (replicate 32 x02))) (Private (replicate 32 x03)) 7 (zeros 12) = Ok (i, m1) /\
    consume_initiation (Private (replicate 32 x02)) m1 =
      Ok (r, {| in_peer_static := public_of (Private (replicate 32 x01)); in_timestamp := zeros 12; in_peer_index := 7 |}) /\
    respond r (Private (replicate 32 x04)) 9 = Ok (m2, kr) /\ consume_response i m2 = Ok ki /\
    send ki = receive kr /\ receive ki = send kr /\ length (send ki) = 32 /\ length (receive ki) = 32 /\
    local_index ki = 7%Z /\ peer_index ki = 9%Z /\ local_index kr = 9%Z /\ peer_index kr = 7%Z.
Proof.
  apply (handshake_agreement (P:=Toy.toy) (Private (replicate 32 x01)) (Private (replicate 32 x02))
    (Private (replicate 32 x03)) (Private (replicate 32 x04)) 7 9 (zeros 12)); (reflexivity || lia).
Defined.

Lemma consume_initiation_sound_witness :
  exists e, consume_initiation (P:=Toy.toy) (Private (replicate 32 x02)) (zeros 148) = Err e.
Proof.
  destruct (consume_initiation_sound (P:=Toy.toy) (Private (replicate 32 x02)) (zeros 148)) as [(e & He & _)|(r & i & _ & _ & H0 & _)].
  - by exists e.
  - discriminate H0.
Defined.
