(* ===== verification/Replay.v ===== *)
(** The sliding-window replay filter: [ReplayWindow] of [wireguard/transport.rs].

    [rw_spec] is what the filter promises, in terms of the whole history of
    accepted counters; [accept_refines] shows that the 2048-bit ring implements
    it. A [u64] is a [Z] in range. *)
From S2P Require Import Prelude WireGuard.

Definition REJECT_AFTER_MESSAGES : Z := u64_max - 2 ^ 13 - 1.
Definition WINDOW_BITS : Z := 2048.
Definition WINDOW_WORDS : nat := Z.to_nat (WINDOW_BITS / 64).

Record ReplayWindow := { highest : Z; bits : list Z; started : bool }.

Definition rw_new : ReplayWindow :=
  {| highest := 0; bits := replicate WINDOW_WORDS 0%Z; started := false |}.

(** [index]: the word and the bit of a counter. *)
Definition rw_index (counter : Z) : nat * Z :=
  let bit := (counter mod WINDOW_BITS)%Z in (Z.to_nat (bit / 64), bit mod 64)%Z.

(** [!x] on [u64] *)
Definition not64 (x : Z) : Z := u64_max - x.

Definition rw_get (self : ReplayWindow) (counter : Z) : outcome WgError bool :=
  let (w, b) := rw_index counter in
  let? word := index (bits self) w in
  Ok (negb (bool_decide (Z.land word (Z.shiftl 1 b) = 0)))%Z.

Definition rw_set (self : ReplayWindow) (counter : Z) : outcome WgError ReplayWindow :=
  let (w, b) := rw_index counter in
  let? word := index (bits self) w in
  let? bits := set_at (bits self) w (Z.lor word (Z.shiftl 1 b)) in
  Ok {| highest := highest self; bits := bits; started := started self |}.

(** [for i in 1..=shift] of [shift_left], from [i], [n] steps. *)
Fixpoint shift_left_loop (n : nat) (i : Z) (self : ReplayWindow) : outcome WgError ReplayWindow :=
  match n with
  | O => Ok self
  | S n =>
      let (w, b) := rw_index (highest self + i) in
      let? word := index (bits self) w in
      let? bits := set_at (bits self) w (Z.land word (not64 (Z.shiftl 1 b))) in
      shift_left_loop n (i + 1) {| highest := highest self; bits := bits; started := started self |}
  end.
Definition shift_left (self : ReplayWindow) (shift : Z) : outcome WgError ReplayWindow :=
  shift_left_loop (Z.to_nat shift) 1 self.

(** [accept]: the verdict and the window afterwards. *)
Definition accept (self : ReplayWindow) (counter : Z) : outcome WgError (bool * ReplayWindow) :=
  if decide (REJECT_AFTER_MESSAGES <= counter)%Z then Ok (false, self)
  else if negb (started self) then
    let self := {| highest := counter; bits := bits self; started := true |} in
    let? self := rw_set self counter in Ok (true, self)
  else if decide (highest self < counter)%Z then
    let shift := (counter - highest self)%Z in
    let? self :=
      if decide (WINDOW_BITS <= shift)%Z
      then Ok {| highest := highest self; bits := replicate WINDOW_WORDS 0%Z; started := started self |}
      else shift_left self shift in
    let self := {| highest := counter; bits := bits self; started := started self |} in
    let? self := rw_set self counter in Ok (true, self)
  else
    let behind := (highest self - counter)%Z in
    if decide (WINDOW_BITS <= behind)%Z then Ok (false, self)
    else
      let? g := rw_get self counter in
      if (g : bool) then Ok (false, self)
      else let? self := rw_set self counter in Ok (true, self).

(** ** Specification: the history of accepted counters *)

Definition max_seen (seen : list Z) : Z := fold_right Z.max 0%Z seen.

(** Accept what is below the limit, was never accepted, and is less than a
    window behind the greatest accepted counter. *)
Definition rw_spec (seen : list Z) (counter : Z) : bool :=
  bool_decide (counter < REJECT_AFTER_MESSAGES /\ (counter ∉ seen) /\
    (seen = [] \/ max_seen seen - counter < WINDOW_BITS))%Z.

(** Running the filter, and the specification, over a sequence of counters. *)
Fixpoint accept_all (self : ReplayWindow) (cs : list Z) : outcome WgError (list bool * ReplayWindow) :=
  match cs with
  | [] => Ok ([], self)
  | c :: cs =>
      let? (v, self) := accept self c in
      let? (vs, self) := accept_all self cs in
      Ok (v :: vs, self)
  end.
Fixpoint spec_all (seen : list Z) (cs : list Z) : list bool :=
  match cs with
  | [] => []
  | c :: cs => let v := rw_spec seen c in v :: spec_all (if v then c :: seen else seen) cs
  end.

(** ** Bits of the ring *)

Definition bit_at (bs : list Z) (k : Z) : bool := Z.testbit (default 0%Z (bs !! Z.to_nat (k / 64))) (k mod 64).

Definition ring_ok (bs : list Z) : Prop := length bs = WINDOW_WORDS.

Lemma rw_index_lt c : (0 <= c)%Z -> (rw_index c).1 < WINDOW_WORDS /\ (0 <= (rw_index c).2 < 64)%Z.
Proof.
  intros. change WINDOW_WORDS with 32. unfold rw_index, WINDOW_BITS. cbv zeta. cbn [fst snd].
  pose proof (Z.mod_pos_bound c 2048). pose proof (Z.mod_pos_bound (c mod 2048) 64).
  assert (0 <= c mod 2048 / 64 < 32)%Z; [|lia].
  split; [apply Z.div_pos; lia|apply Z.div_lt_upper_bound; lia].
Qed.

Lemma not64_bit z i : (0 <= i < 64)%Z -> Z.testbit (not64 z) i = negb (Z.testbit z i).
Proof.
  intros Hi. unfold not64, u64_max. replace (2 ^ 64 - 1 - z)%Z with (Z.lnot z + 1 * 2 ^ 64)%Z by (unfold Z.lnot; lia).
  rewrite <- (Z.mod_pow2_bits_low (Z.lnot z + 1 * 2 ^ 64) 64 i) by lia.
  rewrite Z.mod_add by lia. rewrite Z.mod_pow2_bits_low by lia. apply Z.lnot_spec. lia.
Qed.

Lemma shiftl1_bit b i : (0 <= b)%Z -> (0 <= i)%Z -> Z.testbit (Z.shiftl 1 b) i = bool_decide (i = b).
Proof.
  intros. rewrite Z.shiftl_1_l. case_bool_decide; [subst; by rewrite Z.pow2_bits_true|].
  apply Z.pow2_bits_false. lia.
Qed.

Lemma land_bit x b : (0 <= b)%Z -> negb (bool_decide (Z.land x (Z.shiftl 1 b) = 0%Z)) = Z.testbit x b.
Proof.
  intros Hb. case_bool_decide as H; simpl.
  - assert (Z.testbit (Z.land x (Z.shiftl 1 b)) b = false) as H' by (rewrite H; apply Z.bits_0).
    rewrite Z.land_spec, shiftl1_bit, bool_decide_eq_true_2, andb_true_r in H' by (done || lia). done.
  - destruct (Z.testbit x b) eqn:E; [done|]. exfalso. apply H. apply Z.bits_inj'. intros i Hi.
    rewrite Z.land_spec, Z.bits_0, shiftl1_bit by done. case_bool_decide; [subst; by rewrite E|apply andb_false_r].
Qed.

(** Two ring positions share word and bit exactly when they are equal. *)
Lemma ring_pos_eq j k : (0 <= j)%Z -> (0 <= k)%Z -> (j / 64 = k / 64)%Z -> (j mod 64 = k mod 64)%Z -> j = k.
Proof. intros. rewrite (Z.div_mod j 64), (Z.div_mod k 64) by lia. lia. Qed.

(** Replacing the word of position [k]. *)
Lemma bit_at_update bs k j word f :
  ring_ok bs -> (0 <= k < 2048)%Z -> (0 <= j < 2048)%Z -> bs !! Z.to_nat (k / 64) = Some word ->
  (forall i, (0 <= i < 64)%Z -> Z.testbit (f word) i = if bool_decide (i = k mod 64)%Z then Z.testbit (f word) (k mod 64) else Z.testbit word i) ->
  bit_at (<[Z.to_nat (k / 64) := f word]> bs) j = if bool_decide (j = k) then Z.testbit (f word) (k mod 64) else bit_at bs j.
Proof.
  intros Hr Hk Hj Hw Hf. unfold bit_at. pose proof (Z.div_pos j 64). pose proof (Z.div_pos k 64).
  destruct (decide (Z.to_nat (j / 64) = Z.to_nat (k / 64))) as [E|E].
  - rewrite E, list_lookup_insert_eq by by eapply lookup_lt_Some. cbn [default from_option id].
    rewrite Hf by (apply Z.mod_pos_bound; lia). rewrite Hw. cbn.
    case_bool_decide as H1; case_bool_decide as H2; try done.
    + exfalso. apply H2. apply ring_pos_eq; lia.
    + subst. done.
  - rewrite list_lookup_insert_ne by auto. rewrite bool_decide_eq_false_2; [done|]. by intros ->.
Qed.

Lemma ring_word bs c : ring_ok bs -> (0 <= c)%Z -> exists word, bs !! (rw_index c).1 = Some word.
Proof. intros Hr Hc. apply lookup_lt_is_Some_2. rewrite Hr. by apply rw_index_lt. Qed.

Lemma rw_get_ok self c : ring_ok (bits self) -> (0 <= c)%Z -> rw_get self c = Ok (bit_at (bits self) (c mod WINDOW_BITS)).
Proof.
  intros Hr Hc. destruct (ring_word _ _ Hr Hc) as [word Hw]. pose proof (rw_index_lt c Hc) as [_ Hb].
  unfold rw_get. unfold rw_index in *. cbn [fst snd] in *. rewrite (index_ok _ _ _ Hw). cbn [obind].
  unfold bit_at. rewrite Hw. cbn. by rewrite land_bit by lia.
Qed.

Lemma rw_set_ok self c :
  ring_ok (bits self) -> (0 <= c)%Z ->
  exists bs, rw_set self c = Ok {| highest := highest self; bits := bs; started := started self |} /\ ring_ok bs /\
    forall j, (0 <= j < 2048)%Z -> bit_at bs j = bool_decide (j = c mod 2048)%Z || bit_at (bits self) j.
Proof.
  intros Hr Hc. destruct (ring_word _ _ Hr Hc) as [word Hw]. pose proof (rw_index_lt c Hc) as [_ Hb].
  unfold rw_set. unfold rw_index in *. cbn [fst snd] in *. rewrite (index_ok _ _ _ Hw). cbn [obind].
  rewrite set_at_ok by by eapply lookup_lt_Some. cbn [obind]. eexists. split; [done|].
  split; [unfold ring_ok; by rewrite length_insert|]. intros j Hj. unfold WINDOW_BITS in *.
  pose proof (Z.mod_pos_bound c 2048).
  rewrite (bit_at_update _ _ _ word (fun w => Z.lor w (Z.shiftl 1 (c mod 2048 mod 64)))); try done; try lia.
  - rewrite Z.lor_spec, shiftl1_bit by lia. rewrite (bool_decide_eq_true_2 (c mod 2048 mod 64 = _)%Z) by done. rewrite orb_true_r. by case_bool_decide.
  - intros i Hi. rewrite !Z.lor_spec, !shiftl1_bit by lia. case_bool_decide; [subst; by rewrite bool_decide_eq_true_2|apply orb_false_r].
Qed.

Lemma shift_left_loop_ok n : forall i self,
  ring_ok (bits self) -> (0 <= highest self)%Z -> (0 <= i)%Z ->
  exists bs, shift_left_loop n i self = Ok {| highest := highest self; bits := bs; started := started self |} /\ ring_ok bs /\
    forall j, (0 <= j < 2048)%Z -> bit_at bs j = bit_at (bits self) j &&
      bool_decide (Forall (fun m => j <> (highest self + i + Z.of_nat m) mod 2048)%Z (seq 0 n)).
Proof.
  induction n as [|n IH]; intros i self Hr Hh Hi; cbn [shift_left_loop].
  { exists (bits self). destruct self. split_and!; try done. intros j Hj. rewrite bool_decide_eq_true_2 by constructor.
    by rewrite andb_true_r. }
  destruct (ring_word _ (highest self + i) Hr ltac:(lia)) as [word Hw]. pose proof (rw_index_lt (highest self + i) ltac:(lia)) as [_ Hb].
  unfold rw_index in *. cbn [fst snd] in *. rewrite (index_ok _ _ _ Hw). cbn [obind].
  rewrite set_at_ok by by eapply lookup_lt_Some. cbn [obind]. unfold WINDOW_BITS in *.
  match goal with |- context [shift_left_loop n (i + 1) ?s] => destruct (IH (i + 1)%Z s) as (bs & Hbs & Hrb & Hbit) end;
    [unfold ring_ok; cbn; by rewrite length_insert|done|lia|].
  cbn [highest bits started] in *. exists bs. split_and!; try done. intros j Hj. rewrite Hbit by done.
  pose proof (Z.mod_pos_bound (highest self + i) 2048).
  rewrite (bit_at_update _ _ _ word (fun w => Z.land w (not64 (Z.shiftl 1 ((highest self + i) mod 2048 mod 64))))); try done; try lia.
  - rewrite Z.land_spec, not64_bit, shiftl1_bit by lia. rewrite (bool_decide_eq_true_2 ((highest self + i) mod 2048 mod 64 = _)%Z) by done.
    cbn [negb]. rewrite andb_false_r. cbn [seq]. rewrite <- seq_shift.
    assert ((Forall (fun m => j <> (highest self + i + Z.of_nat m) mod 2048)%Z (0 :: map S (seq 0 n))) <->
      j <> ((highest self + i) mod 2048)%Z /\ Forall (fun m => j <> (highest self + (i + 1) + Z.of_nat m) mod 2048)%Z (seq 0 n)) as Hiff.
    { rewrite List.Forall_cons_iff. change (Z.of_nat 0) with 0%Z. rewrite Z.add_0_r. apply and_iff_compat_l.
      rewrite !List.Forall_forall. split.
      - intros Hall m Hm. specialize (Hall (S m)). replace (highest self + (i + 1) + Z.of_nat m)%Z with (highest self + i + Z.of_nat (S m))%Z by lia.
        apply Hall, in_map, Hm.
      - intros Hall m (m' & <- & Hm)%in_map_iff. replace (highest self + i + Z.of_nat (S m'))%Z with (highest self + (i + 1) + Z.of_nat m')%Z by lia.
        by apply Hall. }
    rewrite (bool_decide_ext _ _ Hiff).
    case_bool_decide as E.
    + rewrite (bool_decide_eq_false_2 (_ /\ _)) by tauto. by rewrite andb_false_r.
    + f_equal. apply bool_decide_ext. tauto.
  - intros k Hk. rewrite !Z.land_spec, !not64_bit, !shiftl1_bit by lia. case_bool_decide; [subst; by rewrite bool_decide_eq_true_2|apply andb_true_r].
Qed.

(** ** The ring represents the history *)

Definition rw_repr (w : ReplayWindow) (seen : list Z) : Prop :=
  ring_ok (bits w) /\ started w = bool_decide (seen <> []) /\ highest w = max_seen seen /\
  Forall (fun c => 0 <= c)%Z seen /\
  forall j, (0 <= j < 2048)%Z ->
    bit_at (bits w) j = true <-> exists c, c ∈ seen /\ (c mod 2048 = j)%Z /\ (max_seen seen - c < 2048)%Z.

Lemma mod_window a b : (a mod 2048 = b mod 2048)%Z -> (-2048 < a - b < 2048)%Z -> a = b.
Proof. intros. pose proof (Z.div_mod a 2048 ltac:(lia)). pose proof (Z.div_mod b 2048 ltac:(lia)). lia. Qed.

Lemma max_seen_ge seen c : c ∈ seen -> (c <= max_seen seen)%Z.
Proof. induction 1 as [|c d seen _ IH]; cbn [max_seen fold_right]; unfold max_seen in *; lia. Qed.

Lemma max_seen_nonneg seen : (0 <= max_seen seen)%Z.
Proof. induction seen; cbn [max_seen fold_right]; unfold max_seen in *; lia. Qed.

Lemma max_seen_le seen c : (0 <= c)%Z -> Forall (fun d => d < c)%Z seen -> (max_seen seen <= c)%Z.
Proof. intros Hc. induction 1 as [|d seen Hd _ IH]; cbn [max_seen fold_right]; unfold max_seen in *; lia. Qed.

Lemma max_seen_cons c seen : (0 <= c)%Z -> max_seen (c :: seen) = Z.max c (max_seen seen).
Proof. done. Qed.

Lemma bit_at_zeros j : bit_at (replicate WINDOW_WORDS 0%Z) j = false.
Proof.
  unfold bit_at. destruct (replicate WINDOW_WORDS 0%Z !! Z.to_nat (j / 64)) eqn:E; cbn; [|apply Z.bits_0].
  apply lookup_replicate in E as [-> _]. apply Z.bits_0.
Qed.

Lemma rw_new_repr : rw_repr rw_new [].
Proof.
  split_and!; [done..|constructor|]. intros j Hj. cbn [rw_new bits]. rewrite bit_at_zeros.
  split; [done|]. intros (c & Hc & _). by apply not_elem_of_nil in Hc.
Qed.

(** Setting the bit of a counter that becomes part of the history. *)
Lemma repr_set w seen c :
  ring_ok (bits w) -> (0 <= c)%Z -> Forall (fun c => 0 <= c)%Z seen -> started w = true ->
  highest w = max_seen (c :: seen) -> (max_seen (c :: seen) - c < 2048)%Z ->
  (forall j, (0 <= j < 2048)%Z -> j <> (c mod 2048)%Z ->
    bit_at (bits w) j = true <-> exists d, d ∈ seen /\ (d mod 2048 = j)%Z /\ (max_seen (c :: seen) - d < 2048)%Z) ->
  exists w', rw_set w c = Ok w' /\ rw_repr w' (c :: seen).
Proof.
  intros Hr Hc Hs Hst Hh Hw Hb. destruct (rw_set_ok w c Hr Hc) as (bs & -> & Hrb & Hbit).
  eexists. split; [done|]. split_and!; cbn [highest bits started]; try done; [by constructor|].
  intros j Hj. rewrite Hbit by done. rewrite orb_true_iff, bool_decide_eq_true.
  destruct (decide (j = c mod 2048)%Z) as [->|Hne].
  - split; [|by left]. intros _. exists c. split_and!; [by left|done|done].
  - rewrite (Hb j Hj Hne). split.
    + intros [?|(d & Hd & Hm & Hl)]; [done|]. exists d. split_and!; [by right|done|done].
    + intros (d & Hd & Hm & Hl). right. apply elem_of_cons in Hd as [->|Hd]; [by subst|]. by exists d.
Qed.

Lemma accept_refines w seen c :
  rw_repr w seen -> (0 <= c)%Z ->
  exists w', accept w c = Ok (rw_spec seen c, w') /\ rw_repr w' (if rw_spec seen c then c :: seen else seen).
Proof.
  intros Hrep Hc. pose proof Hrep as (Hr & Hst & Hh & Hnn & Hb). pose proof (max_seen_nonneg seen) as Hmn.
  assert (forall P : Prop, (P -> c ∈ seen -> False) -> P -> c ∉ seen) as Hnotin by (intros P HP p Hin; by apply HP).
  unfold accept, rw_spec, WINDOW_BITS.
  case_decide as Hlim; [rewrite bool_decide_eq_false_2 by lia; by exists w|].
  rewrite Hst. destruct (decide (seen = [])) as [->|Hne].
  { rewrite (bool_decide_eq_false_2 ([] <> [])) by auto. cbn [negb].
    rewrite (bool_decide_eq_true_2 (_ /\ _)) by (split_and!; [lia|apply not_elem_of_nil|by left]).
    destruct (repr_set {| highest := c; bits := bits w; started := true |} [] c) as (w' & -> & Hw');
      cbn [highest bits started]; try done; cbn [max_seen fold_right]; try lia.
    - intros j Hj _. rewrite (Hb j Hj). split; intros (d & Hd & _); by apply not_elem_of_nil in Hd.
    - by exists w'. }
  rewrite (bool_decide_eq_true_2 (seen <> [])) by done. cbn [negb]. rewrite Hh.
  case_decide as Hgt.
  - assert (c ∉ seen) as Hnin by (intros Hin%max_seen_ge; lia).
    rewrite bool_decide_eq_true_2 by (split_and!; [lia|done|right; lia]).
    assert (max_seen (c :: seen) = c) as Hmax by (rewrite max_seen_cons by done; lia).
    case_decide as Hshift; cbn [obind bits started].
    + destruct (repr_set {| highest := c; bits := replicate WINDOW_WORDS 0%Z; started := true |} seen c) as (w' & -> & Hw');
        cbn [highest bits started]; rewrite ?Hmax; try done; try lia; [|by exists w'].
      intros j Hj _. rewrite bit_at_zeros. split; [done|]. intros (d & Hd & _ & Hl). apply max_seen_ge in Hd. lia.
    + unfold shift_left. destruct (shift_left_loop_ok (Z.to_nat (c - max_seen seen)) 1 w Hr) as (bs & -> & Hrb & Hbit); [lia..|].
      cbn [obind bits started]. rewrite ?Hst, ?(bool_decide_eq_true_2 (seen <> [])) by done.
      destruct (repr_set {| highest := c; bits := bs; started := true |} seen c) as (w' & -> & Hw');
        cbn [highest bits started]; rewrite ?Hmax; try done; try lia; [|by exists w'].
      intros j Hj Hjc. rewrite Hbit by done. rewrite andb_true_iff, bool_decide_eq_true, (Hb j Hj), Hh. split.
      * intros [(d & Hd & Hm & Hl) Hcl]. exists d. split_and!; try done. pose proof (max_seen_ge _ _ Hd).
        destruct (decide (c - d < 2048)%Z) as [|Hfar]; [done|]. exfalso.
        rewrite List.Forall_forall in Hcl. apply (Hcl (Z.to_nat (d + 2048 - max_seen seen - 1))).
        -- apply in_seq. lia.
        -- rewrite <- Hm. replace (max_seen seen + 1 + Z.of_nat _)%Z with (d + 1 * 2048)%Z by lia. by rewrite Z.mod_add by lia.
      * intros (d & Hd & Hm & Hl). pose proof (max_seen_ge _ _ Hd). split; [exists d; split_and!; [done|done|lia]|].
        apply List.Forall_forall. intros m Hin%in_seq Heq. rewrite <- Hm in Heq. apply mod_window in Heq; lia.
  - case_decide as Hbehind.
    + rewrite bool_decide_eq_false_2; [by exists w|]. intros (_ & _ & [?|?]); [done|lia].
    + rewrite rw_get_ok by done. cbn [obind]. unfold WINDOW_BITS. pose proof (Z.mod_pos_bound c 2048 ltac:(lia)).
      assert (bit_at (bits w) (c mod 2048) = true <-> c ∈ seen) as Hin.
      { rewrite Hb by done. split.
        - intros (d & Hd & Hm & Hl). pose proof (max_seen_ge _ _ Hd). apply mod_window in Hm as ->; [done|lia].
        - intros Hin. exists c. split_and!; [done|done|lia]. }
      destruct (bit_at (bits w) (c mod 2048)) eqn:Eb.
      * rewrite bool_decide_eq_false_2; [by exists w|]. intros (_ & Hn & _). by apply Hn, Hin.
      * assert (c ∉ seen) as Hnin by (intros H'%Hin; done).
        rewrite bool_decide_eq_true_2 by (split_and!; [lia|done|right; lia]).
        assert (max_seen (c :: seen) = max_seen seen) as Hmax by (rewrite max_seen_cons by done; lia).
        destruct (repr_set w seen c) as (w' & -> & Hw'); rewrite ?Hmax; try done; try lia.
        -- rewrite Hst. by apply bool_decide_eq_true_2.
        -- intros j Hj _. by apply Hb.
        -- by exists w'.
Qed.

Lemma accept_all_refines cs : forall w seen,
  rw_repr w seen -> Forall (fun c => 0 <= c)%Z cs ->
  exists w', accept_all w cs = Ok (spec_all seen cs, w').
Proof.
  induction cs as [|c cs IH]; intros w seen Hw Hcs; [by exists w|].
  apply Forall_cons_1 in Hcs as [Hc Hcs]. cbn [accept_all spec_all].
  destruct (accept_refines w seen c Hw Hc) as (w1 & -> & Hw1). cbn [obind].
  destruct (IH w1 _ Hw1 Hcs) as (w2 & ->). by exists w2.
Qed.

(** What the specification means for a whole run. *)
Lemma spec_all_once cs : forall seen,
  Forall (fun c => c ∉ map fst (filter (fun cv => cv.2 = true) (zip cs (spec_all seen cs)))) seen /\
  NoDup (map fst (filter (fun cv => cv.2 = true) (zip cs (spec_all seen cs)))).
Proof.
  induction cs as [|c cs IH]; intros seen; cbn [spec_all zip_with].
  { split; [|constructor]. apply Forall_forall. intros c _. apply not_elem_of_nil. }
  destruct (rw_spec seen c) eqn:E.
  - destruct (IH (c :: seen)) as [H1 H2]. apply Forall_cons_1 in H1 as [Hc Hs].
    rewrite filter_cons_True by done. cbn [map fst]. split; [|by constructor].
    apply bool_decide_eq_true in E as (_ & Hn & _). rewrite !List.Forall_forall in *. intros d Hd Hin.
    apply elem_of_cons in Hin as [->|Hin]; [by apply Hn, list_elem_of_In|]. by apply (Hs d).
  - destruct (IH seen) as [H1 H2]. rewrite filter_cons_False by done. done.
Qed.

(** C22. The filter refines its specification: on any sequence of received
    counters the 2048-bit ring gives exactly the verdicts of the history-based
    rule (never accepted before, less than a window behind the greatest, below
    the message limit), without panic; so no counter is accepted twice. *)
Theorem replay_refines_history cs :
  Forall (fun c => 0 <= c < 2 ^ 64)%Z cs ->
  exists w, accept_all rw_new cs = Ok (spec_all [] cs, w) /\
    NoDup (map fst (filter (fun cv => cv.2 = true) (zip cs (spec_all [] cs)))).
Proof.
  intros Hcs. destruct (accept_all_refines cs rw_new [] rw_new_repr) as (w & Hw).
  { eapply List.Forall_impl; [|exact Hcs]. simpl. lia. }
  exists w. split; [done|]. apply spec_all_once.
Qed.

Lemma replay_refines_history_witness :
  exists w, accept_all rw_new [3; 5; 5; 4; 5000; 2951; 2952; 3]%Z
      = Ok (spec_all [] [3; 5; 5; 4; 5000; 2951; 2952; 3]%Z, w) /\
    NoDup (map fst (filter (fun cv => cv.2 = true)
      (zip [3; 5; 5; 4; 5000; 2951; 2952; 3]%Z (spec_all [] [3; 5; 5; 4; 5000; 2951; 2952; 3]%Z)))).
Proof. apply (replay_refines_history [3; 5; 5; 4; 5000; 2951; 2952; 3]%Z). repeat (constructor; [lia|]). constructor. Defined.
