(* ===== verification/WgTransport.v ===== *)
(** WireGuard transport packets: [Session] of [wireguard/transport.rs].

    [decrypt] always gives the session back with its result, so that what a
    rejected packet leaves behind can be stated. [encrypt] changes the session
    only when it succeeds. *)
From S2P Require Import Prelude Crypto Keys WireGuard WgHandshake Replay.

Record Session := {
  send_cipher : bytes; receive_cipher : bytes; send_counter : Z; replay : ReplayWindow;
  s_local_index : Z; s_peer_index : Z
}.

Definition div_ceil (a b : nat) : nat := (a + (b - 1)) / b.

(** [nonce]: four zero bytes, then the counter in little-endian order. *)
Definition nonce (counter : Z) : bytes := overwrite (zeros 12) 4 (to_le 8 counter).

Definition session_new (keys : SessionKeys) : Session :=
  {| send_cipher := send keys; receive_cipher := receive keys; send_counter := 0; replay := rw_new;
     s_local_index := local_index keys; s_peer_index := peer_index keys |}.

Definition needs_rekey (self : Session) : bool := bool_decide (REJECT_AFTER_MESSAGES <= send_counter self)%Z.

Definition set_send_counter (self : Session) (c : Z) : Session :=
  {| send_cipher := send_cipher self; receive_cipher := receive_cipher self; send_counter := c; replay := replay self;
     s_local_index := s_local_index self; s_peer_index := s_peer_index self |}.
Definition set_replay (self : Session) (w : ReplayWindow) : Session :=
  {| send_cipher := send_cipher self; receive_cipher := receive_cipher self; send_counter := send_counter self; replay := w;
     s_local_index := s_local_index self; s_peer_index := s_peer_index self |}.

Section Transport.
Context `{P : Primitives}.

(** [Session::encrypt]: the session, the buffer and the packet length. *)
Definition encrypt (self : Session) (payload out : bytes) : outcome WgError (Session * bytes * nat) :=
  if decide (REJECT_AFTER_MESSAGES <= send_counter self)%Z then Err NonceExhausted
  else
    let padded_len := div_ceil (length payload) 16 * 16 in
    let total := TRANSPORT_HEADER_LEN + padded_len + TAG_LEN in
    if decide (length out < total) then Err ShortBuffer
    else
      let counter := send_counter self in
      let? out := set_at out 0 MSG_TRANSPORT in
      let? out := copy_range out 1 4 (zeros 3) in
      let? out := copy_range out 4 8 (to_le 4 (s_peer_index self)) in
      let? out := copy_range out 8 16 (to_le 8 counter) in
      let? body := slice out TRANSPORT_HEADER_LEN (TRANSPORT_HEADER_LEN + padded_len) in
      let? body := copy_range body 0 (length payload) payload in
      let? body := copy_range body (length payload) (length body) (zeros (length body - length payload)) in
      let? (body, tag) := ok_or (chacha_encrypt (send_cipher self) (nonce counter) [] body) Decrypt in
      let? out := copy_range out TRANSPORT_HEADER_LEN (TRANSPORT_HEADER_LEN + padded_len) body in
      let? out := copy_range out (TRANSPORT_HEADER_LEN + padded_len) total tag in
      let? next := uadd 64 counter 1 in
      Ok (set_send_counter self next, out, total).

(** [Session::decrypt]: the session and the plaintext with its padding. *)
Definition decrypt (self : Session) (packet : bytes) : Session * outcome WgError bytes :=
  if decide (length packet < TRANSPORT_HEADER_LEN + TAG_LEN) then (self, Err Malformed)
  else if decide (packet !! 0 <> Some MSG_TRANSPORT) then (self, Err Malformed)
  else
    match get_range packet 4 8, get_range packet 8 16 with
    | Some idx, Some ctr =>
        let receiver := from_le idx in
        if decide (receiver <> s_local_index self) then (self, Err Malformed)
        else
          let counter := from_le ctr in
          let body_len := length packet - TRANSPORT_HEADER_LEN - TAG_LEN in
          let rest := drop TRANSPORT_HEADER_LEN packet in
          let body := take body_len rest in
          let tag := drop body_len rest in
          match chacha_decrypt (receive_cipher self) (nonce counter) [] body tag with
          | None => (self, Err Decrypt)
          | Some body =>
              match accept (replay self) counter with
              | Ok (ok, w) => (set_replay self w, if (ok : bool) then Ok body else Err ReplayedTransport)
              | Err e => (self, Err e)
              | Panic => (self, Panic)
              | NoFuel => (self, NoFuel)
              end
          end
    | _, _ => (self, Panic)
    end.
End Transport.

(** ** Proofs *)

Lemma length_nonce c : length (nonce c) = 12.
Proof. unfold nonce. rewrite length_overwrite; len. Qed.

Lemma nonce_inj c d : (0 <= c < 2 ^ 64)%Z -> (0 <= d < 2 ^ 64)%Z -> nonce c = nonce d -> c = d.
Proof.
  intros Hc Hd H. unfold nonce, overwrite in H. rewrite !length_to_le in H.
  apply app_inv_head, app_inv_tail in H. rewrite <- (from_to_le_small 8 c), <- (from_to_le_small 8 d) by lia. by rewrite H.
Qed.

(** The plaintext as it is encrypted: padded with zeros to a multiple of 16. *)
Definition padded (payload : bytes) : bytes := payload ++ zeros (div_ceil (length payload) 16 * 16 - length payload).

Lemma div_ceil_ge n : n <= div_ceil n 16 * 16 < n + 16.
Proof.
  unfold div_ceil. pose proof (Nat.div_mod (n + 15) 16 ltac:(lia)). pose proof (Nat.mod_upper_bound (n + 15) 16 ltac:(lia)).
  simpl Nat.sub. lia.
Qed.

Lemma length_padded p : length (padded p) = div_ceil (length p) 16 * 16.
Proof. pose proof (div_ceil_ge (length p)). unfold padded. len. Qed.

(** The packet of a body and a tag. *)
Definition packet_of (index counter : Z) (body tag : bytes) : bytes :=
  [MSG_TRANSPORT; x00; x00; x00] ++ to_le 4 index ++ to_le 8 counter ++ body ++ tag.

(** A session whose keys, indices and counters have their widths and whose
    replay window represents the counters in [seen]. *)
Definition session_ok (s : Session) (seen : list Z) : Prop :=
  length (send_cipher s) = 32 /\ length (receive_cipher s) = 32 /\
  (0 <= send_counter s <= REJECT_AFTER_MESSAGES)%Z /\ (0 <= s_local_index s < 2 ^ 32)%Z /\ (0 <= s_peer_index s < 2 ^ 32)%Z /\
  rw_repr (replay s) seen.

Section TransportProofs.
Context `{P : Primitives, L : !PrimitiveLaws P}.

Lemma session_new_ok k :
  length (send k) = 32 -> length (receive k) = 32 -> (0 <= local_index k < 2 ^ 32)%Z -> (0 <= peer_index k < 2 ^ 32)%Z ->
  session_ok (session_new k) [].
Proof.
  intros. unfold session_ok, session_new. cbn. split_and!; try done; try lia. apply rw_new_repr.
Qed.

Lemma encrypt_spec s seen payload out :
  session_ok s seen -> (Z.of_nat (length payload) < 2 ^ 31)%Z -> (send_counter s < REJECT_AFTER_MESSAGES)%Z ->
  32 + div_ceil (length payload) 16 * 16 <= length out ->
  exists c t, chacha_encrypt (send_cipher s) (nonce (send_counter s)) [] (padded payload) = Some (c, t) /\
    length c = length (padded payload) /\ length t = 16 /\
    encrypt s payload out =
      Ok (set_send_counter s (send_counter s + 1),
          packet_of (s_peer_index s) (send_counter s) c t ++ drop (32 + length c) out, 32 + length c).
Proof.
  intros (Hsk & _ & Hctr & _ & Hpi & _) Hlen Hlt Hout. pose proof (div_ceil_ge (length payload)) as Hdc.
  destruct (chacha_encrypt_ok (send_cipher s) (nonce (send_counter s)) [] (padded payload)) as (c & t & E & Hc & Ht);
    [done|apply length_nonce|rewrite length_padded; lia|]. rewrite length_padded in Hc.
  exists c, t. rewrite length_padded. split_and!; try done. unfold encrypt, TRANSPORT_HEADER_LEN, TAG_LEN.
  set (n := div_ceil (length payload) 16 * 16) in *. rewrite !decide_False by lia.
  destruct (segments [1; 3; 4; 8; n; 16] out) as (ss & Hss & Hm); [simpl; lia|].
  replace (sum_list [1; 3; 4; 8; n; 16]) with (32 + n) in Hss by (simpl; lia). set (r := drop (32 + n) out) in *.
  rewrite Hss at 1. clear Hss.
  destruct ss as [|s0 [|s1 [|s2 [|s3 [|s4 [|s5 [|]]]]]]]; try done. injection Hm as H0 H1 H2 H3 H4 H5.
  destruct s0 as [|x [|]]; try done. cbn [app].
  assert (set_at (E:=WgError) (concat [[x]; s1; s2; s3; s4; s5; r]) 0 MSG_TRANSPORT = Ok (concat [[MSG_TRANSPORT]; s1; s2; s3; s4; s5; r])) as -> by done.
  cbn [obind].
  rewrite (copy_seg _ 1 s1) by (done || seglen). cbn [obind insert list_insert].
  rewrite (copy_seg _ 2 s2) by (done || seglen). cbn [obind insert list_insert].
  rewrite (copy_seg _ 3 s3) by (done || seglen). cbn [obind insert list_insert].
  rewrite (slice_nth _ 4 s4) by (done || seglen). cbn [obind].
  rewrite copy_range_ok by lia. cbn [obind]. rewrite (overwrite_app [] s4 payload 0 eq_refl : overwrite s4 0 payload = payload ++ _).
  assert (length (payload ++ drop (length payload) s4) = n) as Hbl by len.
  rewrite Hbl. rewrite copy_range_ok by (rewrite ?length_zeros; lia). cbn [obind].
  assert (overwrite (payload ++ drop (length payload) s4) (length payload) (zeros (n - length payload)) = padded payload) as ->.
  { rewrite overwrite_app by done. unfold padded. fold n. rewrite drop_ge by len. by rewrite app_nil_r. }
  rewrite E. cbn [ok_or obind].
  rewrite (copy_seg _ 4 s4) by (done || seglen). cbn [obind insert list_insert].
  rewrite (copy_seg _ 5 s5) by (done || seglen). cbn [obind insert list_insert].
  rewrite uadd_ok by (unfold REJECT_AFTER_MESSAGES, u64_max in *; lia). cbn [obind].
  unfold packet_of. cbn [concat]. rewrite Hc, app_nil_r. norm_app. by replace (16 + n + 16) with (32 + n) by lia.
Qed.

Lemma session_ok_next s seen :
  session_ok s seen -> (send_counter s < REJECT_AFTER_MESSAGES)%Z -> session_ok (set_send_counter s (send_counter s + 1)) seen.
Proof. intros (? & ? & ? & ? & ? & ?) ?. unfold session_ok. cbn. split_and!; (done || lia). Qed.

(** [encrypt] refuses an exhausted session and a short buffer, and nothing else. *)
Lemma encrypt_total s seen payload out :
  session_ok s seen -> (Z.of_nat (length payload) < 2 ^ 31)%Z ->
  (exists s' o n, encrypt s payload out = Ok (s', o, n) /\ session_ok s' seen /\ n <= length out /\ length o = length out /\
     s_local_index s' = s_local_index s /\ receive_cipher s' = receive_cipher s) \/
  encrypt s payload out = Err NonceExhausted \/ encrypt s payload out = Err ShortBuffer.
Proof.
  intros Hs Hl. destruct (decide (REJECT_AFTER_MESSAGES <= send_counter s)%Z) as [Hc|Hc].
  { right; left. unfold encrypt. by rewrite decide_True. }
  destruct (decide (length out < 32 + div_ceil (length payload) 16 * 16)) as [Ho|Ho].
  { right; right. unfold encrypt, TRANSPORT_HEADER_LEN, TAG_LEN. rewrite decide_False by done. by rewrite decide_True by lia. }
  destruct (encrypt_spec s seen payload out Hs Hl ltac:(lia) ltac:(lia)) as (c & t & _ & Hcl & Ht & ->).
  rewrite length_padded in Hcl. left. eexists _, _, _. split; [done|].
  split_and!; try done; [apply session_ok_next; [done|lia]|lia|].
  unfold packet_of. rewrite !length_app, !length_to_le, length_drop. simpl. lia.
Qed.

(** [decrypt] of a packet of the right shape. *)
Lemma decrypt_packet s seen index counter body tag :
  session_ok s seen -> (0 <= index < 2 ^ 32)%Z -> (0 <= counter < 2 ^ 64)%Z -> length tag = 16 ->
  exists w',
    rw_repr w' (if rw_spec seen counter then counter :: seen else seen) /\
    decrypt s (packet_of index counter body tag) =
      if decide (index <> s_local_index s) then (s, Err Malformed)
      else match chacha_decrypt (receive_cipher s) (nonce counter) [] body tag with
           | None => (s, Err Decrypt)
           | Some p => (set_replay s w', if rw_spec seen counter then Ok p else Err ReplayedTransport)
           end.
Proof.
  intros (_ & _ & _ & _ & _ & Hrep) Hi Hc Ht.
  destruct (accept_refines (replay s) seen counter Hrep ltac:(lia)) as (w' & Hacc & Hw'). exists w'. split; [done|].
  unfold decrypt, TRANSPORT_HEADER_LEN, TAG_LEN.
  assert (length (packet_of index counter body tag) = 32 + length body) as Hl by (unfold packet_of; len).
  rewrite Hl. rewrite decide_False by lia. rewrite decide_False by (intros Hn; by apply Hn).
  unfold packet_of.
  assert (forall a b m, slice (E:=WgError) (packet_of index counter body tag) a b = Ok m ->
    get_range (packet_of index counter body tag) a b = Some m) as Hget.
  { intros a b m. unfold slice. destruct (get_range _ a b); [|done]. by intros [= ->]. }
  unfold packet_of in Hget.
  rewrite (Hget 4 8 (to_le 4 index)) by (by apply (slice_seg [MSG_TRANSPORT; x00; x00; x00])).
  rewrite (Hget 8 16 (to_le 8 counter)).
  2: { rewrite (app_assoc [_; _; _; _]). by apply slice_seg. }
  rewrite !from_to_le_small by lia. case_decide; [done|].
  assert (drop 16 ([MSG_TRANSPORT; x00; x00; x00] ++ to_le 4 index ++ to_le 8 counter ++ body ++ tag) = body ++ tag) as ->.
  { rewrite 2!app_assoc. apply drop_app_length'. by rewrite !length_app, !length_to_le. }
  rewrite take_app_length', drop_app_length' by lia.
  destruct (chacha_decrypt _ _ _ _ _); [|done]. by rewrite Hacc.
Qed.

(** C23. The data channel works and cannot be replayed. Between two sessions
    with matching keys and indices, for any payload and any set of counters the
    receiver has already accepted: encryption succeeds, uses the next counter
    and only it; the packet decrypts to the zero-padded payload exactly when
    the replay rule allows its counter; and the same packet again is refused. *)
Theorem transport_channel s r seen payload out :
  session_ok s [] -> session_ok r seen ->
  send_cipher s = receive_cipher r -> s_peer_index s = s_local_index r ->
  (send_counter s < REJECT_AFTER_MESSAGES)%Z -> (Z.of_nat (length payload) < 2 ^ 31)%Z ->
  32 + div_ceil (length payload) 16 * 16 <= length out ->
  exists s' out' n r',
    encrypt s payload out = Ok (s', out', n) /\
    send_counter s' = (send_counter s + 1)%Z /\ drop n out' = drop n out /\
    decrypt r (take n out') =
      (r', if rw_spec seen (send_counter s) then Ok (padded payload) else Err ReplayedTransport) /\
    session_ok r' (if rw_spec seen (send_counter s) then send_counter s :: seen else seen) /\
    (rw_spec seen (send_counter s) = true -> (decrypt r' (take n out')).2 = Err ReplayedTransport).
Proof.
  intros Hs Hr Hkey Hidx Hctr Hlen Hout. pose proof Hs as (_ & _ & Hcr & _ & Hpi & _).
  destruct (encrypt_spec s [] payload out Hs Hlen Hctr Hout) as (c & t & E & Hcl & Htl & ->).
  assert (0 <= send_counter s < 2 ^ 64)%Z as Hc64 by (unfold REJECT_AFTER_MESSAGES, u64_max in *; lia).
  destruct (decrypt_packet r seen (s_peer_index s) (send_counter s) c t Hr Hpi Hc64 Htl) as (w & Hw & Hd).
  assert (length (packet_of (s_peer_index s) (send_counter s) c t) = 32 + length c) as Hpl by (unfold packet_of; len).
  assert (session_ok (set_replay r w) (if rw_spec seen (send_counter s) then send_counter s :: seen else seen)) as Hok.
  { destruct Hr as (? & ? & [? ?] & [? ?] & [? ?] & _). unfold session_ok. cbn. by split_and!. }
  eexists _, _, _, (set_replay r w). split; [done|]. rewrite take_app_length', drop_app_length' by lia.
  rewrite decide_False, <- Hkey, (chacha_decrypt_encrypt _ _ _ _ _ _ E) in Hd by (intros H; by apply H).
  split_and!; try done. intros Hv. rewrite Hv in Hok.
  destruct (decrypt_packet (set_replay r w) _ (s_peer_index s) (send_counter s) c t Hok Hpi Hc64 Htl) as (w2 & _ & ->).
  rewrite decide_False by (intros H; by apply H). cbn [receive_cipher set_replay].
  rewrite <- Hkey, (chacha_decrypt_encrypt _ _ _ _ _ _ E).
  assert (rw_spec (send_counter s :: seen) (send_counter s) = false) as ->; [|done].
  apply bool_decide_eq_false. intros (_ & Hn & _). apply Hn. by left.
Qed.

(** What one end sends the other accepts: matching key and index, and every
    counter the receiver has seen is below the next one of the sender. *)
Definition feeds (s r : Session) : Prop :=
  send_cipher s = receive_cipher r /\ s_peer_index s = s_local_index r /\
  exists seen, session_ok r seen /\ Forall (fun c => c < send_counter s)%Z seen.

Lemma rw_spec_newest seen c :
  Forall (fun d => d < c)%Z seen -> (0 <= c < REJECT_AFTER_MESSAGES)%Z -> rw_spec seen c = true.
Proof.
  intros Hf Hc. apply bool_decide_eq_true. split; [lia|]. split.
  - intros Hin. rewrite List.Forall_forall in Hf. apply list_elem_of_In in Hin. specialize (Hf c Hin). lia.
  - destruct seen as [|d seen]; [by left|right]. pose proof (max_seen_le (d :: seen) c ltac:(lia) Hf). unfold WINDOW_BITS. lia.
Qed.

Lemma channel_step s r payload out :
  feeds s r -> feeds r s -> (send_counter s < REJECT_AFTER_MESSAGES)%Z -> (Z.of_nat (length payload) < 2 ^ 31)%Z ->
  32 + length (padded payload) <= length out ->
  exists s' pkt r', encrypt s payload out = Ok (s', pkt ++ drop (length pkt) out, length pkt) /\
    length pkt = 32 + length (padded payload) /\ pkt !! 0 = Some MSG_TRANSPORT /\
    decrypt r pkt = (r', Ok (padded payload)) /\
    feeds s' r' /\ feeds r' s' /\ send_counter s' = (send_counter s + 1)%Z /\ send_counter r' = send_counter r.
Proof.
  intros (Hk & Hi & seen & Hr & Hseen) (Hk2 & Hi2 & seen2 & Hs & Hseen2) Hc Hl Ho. rewrite length_padded in *.
  pose proof Hs as (_ & _ & Hcr & _ & Hpi & _).
  destruct (encrypt_spec s seen2 payload out Hs Hl Hc Ho) as (c & t & E & Hcl & Htl & ->). rewrite length_padded in Hcl.
  assert (0 <= send_counter s < 2 ^ 64)%Z as Hc64 by (unfold REJECT_AFTER_MESSAGES, u64_max in *; lia).
  destruct (decrypt_packet r seen (s_peer_index s) (send_counter s) c t Hr Hpi Hc64 Htl) as (w & Hw & Hd).
  rewrite rw_spec_newest in Hw, Hd by (done || lia).
  rewrite decide_False, <- Hk, (chacha_decrypt_encrypt _ _ _ _ _ _ E) in Hd by (intros Hne; by apply Hne).
  assert (length (packet_of (s_peer_index s) (send_counter s) c t) = 32 + length c) as Hpl by (unfold packet_of; len).
  exists (set_send_counter s (send_counter s + 1)), (packet_of (s_peer_index s) (send_counter s) c t), (set_replay r w).
  rewrite Hpl. split_and!; try done; [lia| |].
  - split_and!; try done. exists (send_counter s :: seen). split.
    + destruct Hr as (? & ? & [? ?] & [? ?] & [? ?] & _). unfold session_ok. cbn. by split_and!.
    + cbn [send_counter set_send_counter]. constructor; [lia|]. refine (List.Forall_impl _ _ Hseen). intros; simpl in *. lia.
  - split_and!; try done. exists seen2. split; [by apply session_ok_next|done].
Qed.

(** Decrypting anything: refused and nothing changed, or authenticated and left
    to the replay rule. *)
Lemma decrypt_cases r seen packet :
  session_ok r seen ->
  let ctr := from_le (take 8 (drop 8 packet)) in
  let body := take (length packet - 32) (drop 16 packet) in
  let tag := drop (length packet - 32) (drop 16 packet) in
  (exists e, decrypt r packet = (r, Err e) /\ (e = Malformed \/ e = Decrypt)) \/
  (exists p w, 32 <= length packet /\ length p = length packet - 32 /\ packet !! 0 = Some MSG_TRANSPORT /\
     from_le (take 4 (drop 4 packet)) = s_local_index r /\
     chacha_decrypt (receive_cipher r) (nonce ctr) [] body tag = Some p /\
     decrypt r packet = (set_replay r w, if rw_spec seen ctr then Ok p else Err ReplayedTransport) /\
     session_ok (set_replay r w) (if rw_spec seen ctr then ctr :: seen else seen)).
Proof.
  intros (Hs & Hr & Hc & Hl & Hp & Hrep) ctr body tag. unfold decrypt, TRANSPORT_HEADER_LEN, TAG_LEN.
  case_decide; [left; eexists; split; [reflexivity|by left]|].
  case_decide as H0; [left; eexists; split; [reflexivity|by left]|].
  rewrite !get_range_ok by lia. cbn [Nat.sub].
  case_decide as Hi; [left; eexists; split; [reflexivity|by left]|].
  replace (length packet - 16 - 16) with (length packet - 32) by lia. fold ctr body tag.
  destruct (chacha_decrypt _ _ _ _ _) as [p|] eqn:E; [|left; eexists; split; [reflexivity|by right]].
  assert (0 <= ctr)%Z as Hctr by (pose proof (from_le_range (take 8 (drop 8 packet))); unfold ctr; lia).
  destruct (accept_refines (replay r) seen ctr Hrep Hctr) as (w & -> & Hw).
  pose proof (chacha_decrypt_length _ _ _ _ _ _ E) as Hpl. unfold body in Hpl. rewrite length_take, length_drop in Hpl.
  right. exists p, w. split_and!; try done; lia.
Qed.

Lemma rw_spec_again seen c : rw_spec (if rw_spec seen c then c :: seen else seen) c = false.
Proof.
  destruct (rw_spec seen c) eqn:E; [|done]. apply bool_decide_eq_false. intros (_ & Hn & _). apply Hn. by left.
Qed.

(** C28. Nothing unauthenticated gets through and nothing gets through twice:
    [decrypt] never panics on any packet; a forged, short or misaddressed one is
    refused and leaves the session, and so the replay window, untouched; one
    whose tag verifies under the receive key and its own counter, and only such
    a one, reaches the replay rule, which decides; and whatever the first
    decision, the same bytes are never accepted a second time. *)
Theorem transport_authenticated r seen packet :
  session_ok r seen ->
  let ctr := from_le (take 8 (drop 8 packet)) in
  let body := take (length packet - 32) (drop 16 packet) in
  let tag := drop (length packet - 32) (drop 16 packet) in
  (exists e, decrypt r packet = (r, Err e) /\ (e = Malformed \/ e = Decrypt)) \/
  (exists p r', 32 <= length packet /\ packet !! 0 = Some MSG_TRANSPORT /\
     from_le (take 4 (drop 4 packet)) = s_local_index r /\
     chacha_decrypt (receive_cipher r) (nonce ctr) [] body tag = Some p /\
     decrypt r packet = (r', if rw_spec seen ctr then Ok p else Err ReplayedTransport) /\
     session_ok r' (if rw_spec seen ctr then ctr :: seen else seen) /\
     exists e, (decrypt r' packet).2 = Err e).
Proof.
  intros Hr ctr body tag. destruct (decrypt_cases r seen packet Hr) as [He|(p & w & Hl & _ & H0 & Hi & Hp & Hd & Hok)]; [by left|].
  right. exists p, (set_replay r w). split_and!; try done.
  destruct (decrypt_cases _ _ packet Hok) as [(e & -> & _)|(q & w2 & _ & _ & _ & _ & _ & -> & _)]; [by exists e|].
  fold ctr. rewrite rw_spec_again. by eexists.
Qed.
End TransportProofs.

#[local] Existing Instances Toy.toy Toy.toy_laws.

Definition example_keys : SessionKeys :=
  {| send := replicate 32 x01; receive := replicate 32 x02; local_index := 7; peer_index := 9 |}.
Definition example_peer_keys : SessionKeys :=
  {| send := replicate 32 x02; receive := replicate 32 x01; local_index := 9; peer_index := 7 |}.

Lemma example_session_ok : session_ok (session_new example_keys) [] /\ session_ok (session_new example_peer_keys) [].
Proof. split; apply session_new_ok; (reflexivity || (simpl; lia)). Qed.

Lemma transport_channel_witness :
  exists s' out' n r',
    encrypt (session_new example_keys) (bs "hello") (zeros 64) = Ok (s', out', n) /\
    send_counter s' = 1%Z /\ drop n out' = drop n (zeros 64) /\
    decrypt (session_new example_peer_keys) (take n out') =
      (r', if rw_spec [] 0 then Ok (padded (bs "hello")) else Err ReplayedTransport) /\
    session_ok r' (if rw_spec [] 0 then [0%Z] else []) /\
    (rw_spec [] 0 = true -> (decrypt r' (take n out')).2 = Err ReplayedTransport).
Proof.
  apply (transport_channel (session_new example_keys) (session_new example_peer_keys) [] (bs "hello") (zeros 64));
    [apply example_session_ok|apply example_session_ok|reflexivity|reflexivity|reflexivity|reflexivity|vm_compute; lia].
Defined.

Lemma transport_authenticated_witness :
  exists e, decrypt (session_new example_keys) (zeros 40) = (session_new example_keys, Err e).
Proof.
  destruct (transport_authenticated (session_new example_keys) [] (zeros 40) (proj1 example_session_ok))
    as [(e & H & _)|(p & r' & _ & H0 & _)]; [by exists e|discriminate H0].
Defined.
