(* ===== verification/WgPeer.v ===== *)
(** Per-peer session lifecycle and timers: [wireguard/peer.rs].

    Time is a monotonic millisecond count given by the caller. A method that
    hands out [&mut Session] is a function to the peer with its timestamps
    updated and the slot of that session; [set_session] writes the session
    back. *)
From Stdlib Require Import Sorting.Sorted.
From S2P Require Import Prelude Crypto Keys WireGuard WgHandshake Replay WgTransport.

Abbreviation Instant := Z.

Definition REKEY_AFTER_TIME : Z := 120000.
Definition REJECT_AFTER_TIME : Z := 180000.
Definition REKEY_TIMEOUT : Z := 5000.
Definition REKEY_ATTEMPT_TIME : Z := 90000.
Definition KEEPALIVE_TIMEOUT : Z := 10000.
Definition REKEY_AFTER_MESSAGES : Z := 2 ^ 60.

Inductive Action := Idle | Initiate | Keepalive.

Record Active := {
  session : Session; established : Instant; last_sent : option Instant; last_received : option Instant;
  initiator : bool
}.

(** [u64::saturating_sub] *)
Definition saturating_sub (a b : Z) : Z := Z.max 0 (a - b).

Definition expired (self : Active) (now : Instant) : bool :=
  bool_decide (REJECT_AFTER_TIME <= saturating_sub now (established self))%Z.

Definition due_for_rekey (self : Active) (now : Instant) : bool :=
  initiator self &&
    (bool_decide (REKEY_AFTER_TIME <= saturating_sub now (established self))%Z
     || bool_decide (REKEY_AFTER_MESSAGES <= send_counter (session self))%Z).

Definition owes_keepalive (self : Active) (now : Instant) : bool :=
  match last_received self with
  | None => false
  | Some received =>
      if match last_sent self with Some s => bool_decide (received <= s)%Z | None => false end then false
      else bool_decide (KEEPALIVE_TIMEOUT <= saturating_sub now received)%Z
  end.

Record Peer := {
  static_public : NodePublic; current : option Active; previous : option Active;
  last_handshake_timestamp : option Tai64n; handshake_sent : option Instant; handshake_started : option Instant
}.

Definition peer_new (static_public : NodePublic) : Peer :=
  {| static_public := static_public; current := None; previous := None; last_handshake_timestamp := None;
     handshake_sent := None; handshake_started := None |}.

Definition with_sessions (p : Peer) (cur prev : option Active) : Peer :=
  {| static_public := static_public p; current := cur; previous := prev;
     last_handshake_timestamp := last_handshake_timestamp p;
     handshake_sent := handshake_sent p; handshake_started := handshake_started p |}.
Definition with_handshake (p : Peer) (sent started : option Instant) : Peer :=
  {| static_public := static_public p; current := current p; previous := previous p;
     last_handshake_timestamp := last_handshake_timestamp p; handshake_sent := sent; handshake_started := started |}.
Definition with_timestamp (p : Peer) (ts : option Tai64n) : Peer :=
  {| static_public := static_public p; current := current p; previous := previous p;
     last_handshake_timestamp := ts; handshake_sent := handshake_sent p; handshake_started := handshake_started p |}.

Definition accept_handshake_timestamp (self : Peer) (ts : Tai64n) : Peer * outcome WgError unit :=
  match last_handshake_timestamp self with
  | Some prev =>
      if negb (is_newer_than ts prev) then (self, Err ReplayedHandshake)
      else (with_timestamp self (Some ts), Ok tt)
  | None => (with_timestamp self (Some ts), Ok tt)
  end.

(** The method [handshake_sent]. *)
Definition mark_handshake_sent (self : Peer) (now : Instant) : Peer :=
  with_handshake self (Some now) (Some (default now (handshake_started self))).

Definition install_session (self : Peer) (keys : SessionKeys) (now : Instant) (initiator : bool) : Peer :=
  with_handshake
    (with_sessions self
       (Some {| session := session_new keys; established := now; last_sent := None; last_received := None;
                initiator := initiator |})
       (current self))
    None None.

Definition set_last_sent (a : Active) (now : Instant) : Active :=
  {| session := session a; established := established a; last_sent := Some now; last_received := last_received a;
     initiator := initiator a |}.
Definition set_last_received (a : Active) (now : Instant) : Active :=
  {| session := session a; established := established a; last_sent := last_sent a; last_received := Some now;
     initiator := initiator a |}.
Definition set_active_session (a : Active) (s : Session) : Active :=
  {| session := s; established := established a; last_sent := last_sent a; last_received := last_received a;
     initiator := initiator a |}.

(** Which session a [&mut Session] points into. *)
Inductive slot := Current | Previous.
#[export] Instance slot_eq_dec : EqDecision slot.
Proof. solve_decision. Defined.
Definition get_slot (p : Peer) (sl : slot) : option Active :=
  match sl with Current => current p | Previous => previous p end.
Definition set_slot (p : Peer) (sl : slot) (a : option Active) : Peer :=
  match sl with Current => with_sessions p a (previous p) | Previous => with_sessions p (current p) a end.
Definition set_session (p : Peer) (sl : slot) (s : Session) : Peer :=
  set_slot p sl ((fun a => set_active_session a s) <$> get_slot p sl).

Definition send_session (self : Peer) (now : Instant) : Peer * option Session :=
  match current self with
  | None => (self, None)
  | Some active =>
      if expired active now || bool_decide (REJECT_AFTER_MESSAGES <= send_counter (session active))%Z
      then (self, None)
      else (set_slot self Current (Some (set_last_sent active now)), Some (session active))
  end.

(** The loop over [self.current.as_mut(), self.previous.as_mut()]. *)
Fixpoint find_slot (slots : list slot) (self : Peer) (index : Z) (now : Instant) : Peer * option (slot * Session) :=
  match slots with
  | [] => (self, None)
  | sl :: slots =>
      match get_slot self sl with
      | Some active =>
          if bool_decide (s_local_index (session active) = index) && negb (expired active now)
          then (set_slot self sl (Some (set_last_received active now)), Some (sl, session active))
          else find_slot slots self index now
      | None => find_slot slots self index now
      end
  end.
Definition session_for_index (self : Peer) (index : Z) (now : Instant) : Peer * option (slot * Session) :=
  find_slot [Current; Previous] self index now.

Definition is_expired (a : option Active) (now : Instant) : bool :=
  match a with Some a => expired a now | None => false end.

Definition expire (self : Peer) (now : Instant) : Peer :=
  let self := if is_expired (current self) now then set_slot self Current None else self in
  if is_expired (previous self) now then set_slot self Previous None else self.

Definition has_session (self : Peer) (now : Instant) : bool :=
  match current self with Some a => negb (expired a now) | None => false end.

Definition poll (self : Peer) (now : Instant) : Action :=
  match handshake_sent self with
  | Some sent =>
      if match handshake_started self with
         | Some s => bool_decide (REKEY_ATTEMPT_TIME <= saturating_sub now s)%Z
         | None => false
         end
      then Idle
      else if bool_decide (REKEY_TIMEOUT <= saturating_sub now sent)%Z then Initiate else Idle
  | None =>
      match current self with
      | None => Initiate
      | Some active =>
          if expired active now then Initiate
          else if due_for_rekey active now then Initiate
          else if owes_keepalive active now then Keepalive
          else Idle
      end
  end.

(** ** The peer as a state machine

    One step per call of a method, at a time not before the previous one. The
    label records what the caller learns and gives: a session handed out for sending
    or for receiving, with what the caller made of it; an initiation sent because
    [poll] asked for it; the keys a session is installed for. *)
Inductive event :=
| EvSend (s s' : Session) | EvReceive (s s' : Session) | EvInitiate | EvInstall (keys : SessionKeys) | EvOther.

Inductive step : Peer * Instant -> event -> Peer * Instant -> Prop :=
| step_timestamp p t now ts : (t <= now)%Z -> step (p, t) EvOther ((accept_handshake_timestamp p ts).1, now)
| step_initiate p t now : (t <= now)%Z -> poll p now = Initiate -> step (p, t) EvInitiate (mark_handshake_sent p now, now)
| step_install p t now keys i : (t <= now)%Z -> step (p, t) (EvInstall keys) (install_session p keys now i, now)
| step_send p t now p' s s' : (t <= now)%Z -> send_session p now = (p', Some s) ->
    step (p, t) (EvSend s s') (set_session p' Current s', now)
| step_receive p t now i p' sl s s' : (t <= now)%Z -> session_for_index p i now = (p', Some (sl, s)) ->
    step (p, t) (EvReceive s s') (set_session p' sl s', now)
| step_expire p t now : (t <= now)%Z -> step (p, t) EvOther (expire p now, now)
| step_wait p t now : (t <= now)%Z -> step (p, t) EvOther (p, now).

(** A run from the new peer, with the time of each event. *)
Inductive run (pk : NodePublic) (t0 : Instant) : list (event * Instant) -> Peer * Instant -> Prop :=
| run_start : run pk t0 [] (peer_new pk, t0)
| run_step tr st ev st' : run pk t0 tr st -> step st ev st' -> run pk t0 (tr ++ [(ev, st'.2)]) st'.

(** ** Session lifetime *)

(** The session that is [s] after the events [tr]: it was made by the installation of
    [keys] at [ti], and is what its users have made of it since, each taking it as
    the one before left it. *)
Inductive came_from (keys : SessionKeys) (ti : Instant) : list (event * Instant) -> Session -> Prop :=
| came_new tr : came_from keys ti (tr ++ [(EvInstall keys, ti)]) (session_new keys)
| came_used tr ev t s s' : came_from keys ti tr s -> ev = EvSend s s' \/ ev = EvReceive s s' -> came_from keys ti (tr ++ [(ev, t)]) s'
| came_kept tr e s : came_from keys ti tr s -> came_from keys ti (tr ++ [e]) s.

Lemma came_from_installed keys ti tr s : came_from keys ti tr s -> (EvInstall keys, ti) ∈ tr.
Proof. induction 1; apply elem_of_app; [right; by apply list_elem_of_singleton|by left..]. Qed.

(** A use that only encrypts or decrypts keeps the keys. *)
Definition has_keys (keys : SessionKeys) (s : Session) : Prop :=
  send_cipher s = send keys /\ receive_cipher s = receive keys /\ s_local_index s = local_index keys /\ s_peer_index s = peer_index keys.
Definition keeps_keys (ev : event) : Prop :=
  match ev with
  | EvSend s s' | EvReceive s s' => forall keys, has_keys keys s -> has_keys keys s'
  | _ => True
  end.

Lemma came_from_keys keys ti tr s : came_from keys ti tr s -> Forall (fun e => keeps_keys e.1) tr -> has_keys keys s.
Proof.
  induction 1 as [tr|tr ev t s s' _ IH Hev|tr e s _ IH]; intros Hk; [by split_and!| |]; apply Forall_app in Hk as [Hk Hl]; [|by apply IH].
  rewrite Forall_singleton in Hl. cbn in Hl. destruct Hev as [-> | ->]; by apply Hl, IH.
Qed.

(** Every session held came from an installation at the time it is held to be from. *)
Definition slots_installed (tr : list (event * Instant)) (p : Peer) (t : Instant) : Prop :=
  forall sl a, get_slot p sl = Some a -> (exists keys, came_from keys (established a) tr (session a)) /\ (established a <= t)%Z.

Lemma expired_false a now : expired a now = false -> (now < established a + REJECT_AFTER_TIME)%Z.
Proof. unfold expired, saturating_sub. rewrite bool_decide_eq_false. unfold REJECT_AFTER_TIME. lia. Qed.

Lemma get_set_slot p sl sl' a : get_slot (set_slot p sl a) sl' = if decide (sl = sl') then a else get_slot p sl'.
Proof. destruct sl, sl'; reflexivity. Qed.

(** A held session is used: the same age, and what its user made of it. *)
Lemma slots_installed_used tr p t now sl a f ev s' : get_slot p sl = Some a -> slots_installed tr p t -> (t <= now)%Z ->
  established (f a) = established a -> ev = EvSend (session a) s' \/ ev = EvReceive (session a) s' ->
  slots_installed (tr ++ [(ev, now)]) (set_session (set_slot p sl (Some (f a))) sl s') now.
Proof.
  intros Ha H Ht Hf Hev sl' b Hb. unfold set_session in Hb. rewrite !get_set_slot in Hb. rewrite (decide_True (P:=sl = sl)) in Hb by done.
  destruct (decide (sl = sl')) as [->|].
  - injection Hb as <-. cbn [set_active_session established session]. rewrite Hf. destruct (H sl' a Ha) as [[keys Hc] He].
    split; [exists keys; by apply (came_used keys _ tr ev now (session a))|lia].
  - destruct (H sl' b Hb) as [[keys Hc] He]. split; [exists keys; by apply came_kept|lia].
Qed.

Lemma slots_installed_weaken tr p t ev now :
  slots_installed tr p t -> (t <= now)%Z -> slots_installed (tr ++ [(ev, now)]) p now.
Proof.
  intros H Ht sl a Ha. destruct (H sl a Ha) as [[keys Hc] He]. split; [exists keys; by apply came_kept|lia].
Qed.

Lemma send_session_Some p now p' s :
  send_session p now = (p', Some s) ->
  exists a, current p = Some a /\ s = session a /\ expired a now = false /\
    (send_counter s < REJECT_AFTER_MESSAGES)%Z /\ p' = set_slot p Current (Some (set_last_sent a now)).
Proof.
  unfold send_session. destruct (current p) as [a|]; [|done].
  destruct (expired a now) eqn:E; [done|]. simpl. case_bool_decide; [done|]. intros [= <- <-].
  exists a. split_and!; try done. lia.
Qed.

(** [session_for_index] finds the first live slot with the index. *)
Lemma find_slot_Some slots p index now p' sl s :
  find_slot slots p index now = (p', Some (sl, s)) ->
  exists a, get_slot p sl = Some a /\ s = session a /\ s_local_index s = index /\ expired a now = false /\
    p' = set_slot p sl (Some (set_last_received a now)).
Proof.
  induction slots as [|sl' slots IH]; cbn [find_slot]; [done|].
  destruct (get_slot p sl') as [a|] eqn:E; [|done].
  case_bool_decide as Hi; [|done]. destruct (expired a now) eqn:Ex; [done|]. simpl. intros [= <- <- <-]. by exists a.
Qed.

Lemma step_slots_installed tr p t ev p' now :
  slots_installed tr p t -> step (p, t) ev (p', now) -> slots_installed (tr ++ [(ev, now)]) p' now.
Proof.
  intros H Hs. inversion Hs; subst.
  - unfold accept_handshake_timestamp. apply (slots_installed_weaken _ _ _ EvOther now) in H; [|done].
    destruct (last_handshake_timestamp p); [destruct (is_newer_than _ _)|]; exact H.
  - apply (slots_installed_weaken _ _ _ EvInitiate now) in H; done.
  - apply (slots_installed_weaken _ _ _ (EvInstall keys) now) in H; [|done]. intros [] a Ha; cbn in Ha.
    + injection Ha as <-. cbn. split; [|lia]. exists keys. by apply came_new.
    + by apply (H Current).
  - match goal with Hx : send_session _ _ = _ |- _ => apply send_session_Some in Hx as (a & Ha & -> & _ & _ & ->) end.
    apply (slots_installed_used tr p t now Current a (fun a => set_last_sent a now)); auto.
  - match goal with Hx : session_for_index _ _ _ = _ |- _ => apply find_slot_Some in Hx as (a & Ha & -> & _ & _ & ->) end.
    apply (slots_installed_used tr p t now sl a (fun a => set_last_received a now)); auto.
  - apply (slots_installed_weaken _ _ _ EvOther now) in H; [|done]. unfold expire.
    assert (forall q sl, slots_installed (tr ++ [(EvOther, now)]) q now -> slots_installed (tr ++ [(EvOther, now)]) (set_slot q sl None) now) as Hn.
    { intros q sl Hq sl' a Ha. rewrite get_set_slot in Ha. case_decide; [done|]. by apply (Hq sl'). }
    destruct (is_expired (current p) now); (destruct (is_expired _ now); auto).
  - by apply (slots_installed_weaken _ _ _ EvOther now) in H.
Qed.

Lemma run_slots_installed pk t0 tr st : run pk t0 tr st -> slots_installed tr st.1 st.2.
Proof.
  induction 1 as [|tr [p t] ev [p' now] Hr IH Hs]; [intros [] a Ha; done|].
  by apply (step_slots_installed _ p t).
Qed.

(** A session handed out by an event is younger than the limit. *)
Lemma step_session_young pk t0 tr p t ev p' now s s' :
  run pk t0 tr (p, t) -> step (p, t) ev (p', now) -> ev = EvSend s s' \/ ev = EvReceive s s' ->
  exists keys ti, came_from keys ti tr s /\ (ti <= now < ti + REJECT_AFTER_TIME)%Z /\
    (ev = EvSend s s' -> (send_counter s < REJECT_AFTER_MESSAGES)%Z).
Proof.
  intros Hr Hs Hev. apply run_slots_installed in Hr. cbn in Hr.
  inversion Hs; subst; try (destruct Hev; done).
  - match goal with Hx : send_session _ _ = _ |- _ => apply send_session_Some in Hx as (a & Ha & -> & He & Hc & ->) end.
    destruct Hev as [[= <- <-]|]; [|done]. destruct (Hr Current a Ha) as [[keys Hi] Hl]. exists keys, (established a). split; [done|].
    apply expired_false in He. split; [lia|done].
  - match goal with Hx : session_for_index _ _ _ = _ |- _ => apply find_slot_Some in Hx as (a & Ha & -> & _ & He & ->) end.
    destruct Hev as [|[= <- <-]]; [done|]. destruct (Hr sl a Ha) as [[keys Hi] Hl]. exists keys, (established a). split; [done|].
    apply expired_false in He. split; [lia|done].
Qed.

(** A run goes through each of its events. *)
Lemma run_split pk t0 tr1 ev t tr2 st : run pk t0 (tr1 ++ (ev, t) :: tr2) st ->
  exists p tp p', run pk t0 tr1 (p, tp) /\ step (p, tp) ev (p', t).
Proof.
  revert st. induction tr2 as [|e tr2 IH] using rev_ind; intros st Hr; inversion Hr as [Hn|tr [p tp] ev' [p' now] Hr' Hs Hn]; subst.
  - by destruct tr1.
  - apply app_inj_tail in Hn as [-> [= -> ->]]. by exists p, tp, p'.
  - by destruct tr1.
  - rewrite app_comm_cons, app_assoc in Hn. apply app_inj_tail in Hn as [-> _]. by apply (IH (p, tp)).
Qed.

(** C29. Key lifetime, over every run of the peer: a session that is handed out
    to encrypt or to decrypt is, through all its uses, one whose installation was
    less than 180 seconds before, in either direction and through any sequence of
    rekeys, expiries and handshake attempts; it has the keys it was installed with
    where its users keep them; and one handed out to encrypt is below the message
    limit. *)
Theorem session_lifetime pk t0 before ev t after st s s' :
  run pk t0 (before ++ (ev, t) :: after) st -> ev = EvSend s s' \/ ev = EvReceive s s' ->
  exists keys ti, (EvInstall keys, ti) ∈ before /\ came_from keys ti before s /\ (ti <= t < ti + REJECT_AFTER_TIME)%Z /\
    (Forall (fun e => keeps_keys e.1) before -> has_keys keys s) /\
    (ev = EvSend s s' -> (send_counter s < REJECT_AFTER_MESSAGES)%Z).
Proof.
  intros Hr Hev. apply run_split in Hr as (p & tp & p' & Hr & Hs).
  destruct (step_session_young _ _ _ _ _ _ _ _ _ _ Hr Hs Hev) as (keys & ti & Hc & Ht & Hl). exists keys, ti.
  split; [by eapply came_from_installed|]. split; [done|]. split; [done|]. split; [by apply (came_from_keys keys ti)|done].
Qed.

(** ** Handshake pacing *)

(** Initiations since the last session was installed. *)
Definition attempts (tr : list (event * Instant)) : nat :=
  fold_left (fun n (e : event * Instant) => match e.1 with EvInstall _ => 0 | EvInitiate => S n | _ => n end) tr 0.

Lemma attempts_snoc tr ev t :
  attempts (tr ++ [(ev, t)]) = match ev with EvInstall _ => 0 | EvInitiate => S (attempts tr) | _ => attempts tr end.
Proof. unfold attempts. rewrite fold_left_app. by destruct ev. Qed.

(** Attempts are at least [REKEY_TIMEOUT] apart and start inside one window. *)
Definition paced (tr : list (event * Instant)) (p : Peer) (t : Instant) : Prop :=
  match handshake_sent p, handshake_started p with
  | None, None => attempts tr = 0
  | Some s, Some b => 1 <= attempts tr /\ (b <= s <= t)%Z /\ (s - b < REKEY_ATTEMPT_TIME)%Z /\
      (Z.of_nat (attempts tr - 1) * REKEY_TIMEOUT <= s - b)%Z
  | _, _ => False
  end.

Lemma paced_bound tr p t : paced tr p t -> attempts tr <= 18.
Proof.
  unfold paced. destruct (handshake_sent p), (handshake_started p); try done; [|lia].
  unfold REKEY_ATTEMPT_TIME, REKEY_TIMEOUT. lia.
Qed.

(** Events that do not touch the handshake fields. *)
Lemma paced_frame tr p t p' ev now :
  paced tr p t -> (t <= now)%Z -> handshake_sent p' = handshake_sent p -> handshake_started p' = handshake_started p ->
  match ev with EvInstall _ | EvInitiate => False | _ => True end -> paced (tr ++ [(ev, now)]) p' now.
Proof.
  unfold paced. intros H Ht -> -> Hev. rewrite attempts_snoc.
  assert (match ev with EvInstall _ => 0 | EvInitiate => S (attempts tr) | _ => attempts tr end = attempts tr) as -> by by destruct ev.
  destruct (handshake_sent p), (handshake_started p); try done. destruct H as (? & ? & ? & ?). split_and!; try done; lia.
Qed.

Lemma step_paced tr p t ev p' now : paced tr p t -> step (p, t) ev (p', now) -> paced (tr ++ [(ev, now)]) p' now.
Proof.
  intros H Hs. inversion Hs; subst.
  - apply (paced_frame _ p t); try done; unfold accept_handshake_timestamp;
      (destruct (last_handshake_timestamp p); [destruct (is_newer_than _ _)|]; done).
  - match goal with Hx : poll _ _ = _ |- _ => rename Hx into Hp end. unfold paced, poll in *. rewrite attempts_snoc.
    cbn [mark_handshake_sent with_handshake handshake_sent handshake_started].
    destruct (handshake_sent p) as [s|], (handshake_started p) as [b|]; try done; cbn [default from_option id] in *.
    + case_bool_decide as Hg; [done|]. case_bool_decide as Hr; [|done]. unfold saturating_sub in *.
      destruct H as (? & ? & ? & ?). split_and!; try lia. 
      destruct (attempts tr) as [|k]; [lia|]. replace (S (S k) - 1) with (S k) by lia. replace (S k - 1) with k in * by lia.
      unfold REKEY_TIMEOUT, REKEY_ATTEMPT_TIME in *. lia.
    + rewrite H. unfold REKEY_TIMEOUT, REKEY_ATTEMPT_TIME. split_and!; lia.
  - unfold paced. cbn. by rewrite attempts_snoc.
  - match goal with Hx : send_session _ _ = _ |- _ => apply send_session_Some in Hx as (a & Ha & -> & _ & _ & ->) end.
    by apply (paced_frame _ p t).
  - match goal with Hx : session_for_index _ _ _ = _ |- _ => apply find_slot_Some in Hx as (a & Ha & -> & _ & _ & ->) end.
    apply (paced_frame _ p t); try done; by destruct sl.
  - apply (paced_frame _ p t); try done; unfold expire; destruct (is_expired (current p) now); by destruct (is_expired _ now).
  - by apply (paced_frame _ p' t).
Qed.

Lemma run_paced pk t0 tr st : run pk t0 tr st -> paced tr st.1 st.2.
Proof.
  induction 1 as [|tr [p t] ev [p' now] Hr IH Hs]; [done|]. by apply (step_paced _ p t).
Qed.

(** C30. An unreachable peer costs a bounded amount of traffic: in every run
    that sends an initiation only when [poll] asks for one, at most 18 are sent
    between one session and the next, at least 5 seconds apart and all within
    90 seconds of the first; once the window has closed [poll] stays idle. *)
Theorem initiations_bounded pk t0 tr p t :
  run pk t0 tr (p, t) ->
  attempts tr <= 18 /\
  (forall s b now, handshake_sent p = Some s -> handshake_started p = Some b -> (t <= now)%Z ->
     (poll p now = Initiate -> (s + REKEY_TIMEOUT <= now < b + REKEY_ATTEMPT_TIME)%Z) /\
     ((b + REKEY_ATTEMPT_TIME <= now)%Z -> poll p now = Idle)).
Proof.
  intros Hr. apply run_paced in Hr. cbn in Hr. split; [by eapply paced_bound|].
  intros s b now Hs Hb Hn. unfold paced in Hr. rewrite Hs, Hb in Hr. destruct Hr as (_ & Hsb & _).
  unfold poll. rewrite Hs, Hb. unfold saturating_sub, REKEY_TIMEOUT, REKEY_ATTEMPT_TIME in *.
  split; repeat case_bool_decide; try done; lia.
Qed.

(** ** Rekeying *)

(** A rekey loses nothing: after [install_session] a packet for the new
    index gets the new session; packets under the old index still get the old
    session until its own 180 seconds are over; only the new session sends; and
    sessions older than the previous one are gone. *)
Theorem rekey_overlap p keys now later init a :
  current p = Some a -> (now <= later)%Z -> s_local_index (session a) <> local_index keys ->
  let p' := install_session p keys now init in
  (send_session p' now).2 = Some (session_new keys) /\
  (session_for_index p' (local_index keys) later).2 =
    (if decide (later < now + REJECT_AFTER_TIME)%Z then Some (Current, session_new keys)
     else (find_slot [Previous] p' (local_index keys) later).2) /\
  (session_for_index p' (s_local_index (session a)) later).2 =
    (if expired a later then None else Some (Previous, session a)) /\
  poll p' now = Idle /\
  (forall i s, (session_for_index p' i later).2 = Some (Previous, s) -> s = session a).
Proof.
  intros Ha Hl Hi p'.
  assert (get_slot p' Current = Some {| session := session_new keys; established := now; last_sent := None; last_received := None; initiator := init |}) as Hc by done.
  assert (get_slot p' Previous = Some a) as Hp by (cbn; by rewrite Ha).
  split_and!.
  - unfold send_session. cbn [current p' install_session with_handshake with_sessions].
    unfold expired, saturating_sub, REJECT_AFTER_TIME, REJECT_AFTER_MESSAGES. cbn. 
    rewrite bool_decide_eq_false_2 by lia. done.
  - unfold session_for_index. cbn [find_slot]. rewrite Hc. cbn [session session_new s_local_index].
    rewrite bool_decide_eq_true_2 by done. unfold expired, saturating_sub. cbn [established].
    unfold REJECT_AFTER_TIME. case_decide.
    + rewrite bool_decide_eq_false_2 by lia. done.
    + rewrite bool_decide_eq_true_2 by lia. done.
  - unfold session_for_index. cbn [find_slot]. rewrite Hc. cbn [session session_new s_local_index].
    rewrite bool_decide_eq_false_2 by auto. cbn [andb]. rewrite Hp. rewrite bool_decide_eq_true_2 by done.
    by destruct (expired a later).
  - unfold poll. cbn [p' install_session with_handshake with_sessions handshake_sent current].
    unfold expired, due_for_rekey, owes_keepalive, saturating_sub. cbn.
    unfold REJECT_AFTER_TIME, REKEY_AFTER_TIME, REKEY_AFTER_MESSAGES.
    rewrite (bool_decide_eq_false_2 (180000 <= _)%Z) by lia. rewrite (bool_decide_eq_false_2 (120000 <= _)%Z) by lia.
    by destruct init.
  - intros i s. destruct (session_for_index p' i later) as [q o] eqn:E. cbn. intros ->.
    apply find_slot_Some in E as (b & Hb & -> & _). rewrite Hp in Hb. by injection Hb as <-.
Qed.

(** ** Handshake timestamps *)

Fixpoint accept_timestamps (p : Peer) (tss : list Tai64n) : list bool :=
  match tss with
  | [] => []
  | ts :: tss => let (p, r) := accept_handshake_timestamp p ts in is_ok r :: accept_timestamps p tss
  end.

(** The accepted ones, in order. *)
Definition accepted (p : Peer) (tss : list Tai64n) : list Tai64n :=
  map fst (filter (fun tv => tv.2 = true) (zip tss (accept_timestamps p tss))).

(** A captured initiation cannot be replayed: the timestamps a peer accepts
    strictly increase, whatever sequence arrives, and the first one not newer
    than the greatest accepted is refused without a change of state. *)
Theorem timestamps_increase p tss :
  Forall (fun ts => length ts = 12) tss -> (forall ts, last_handshake_timestamp p = Some ts -> length ts = 12) ->
  Sorted Z.lt (map from_be (option_list (last_handshake_timestamp p) ++ accepted p tss)) /\
  (forall ts prev, last_handshake_timestamp p = Some prev -> (from_be ts <= from_be prev)%Z -> length ts = 12 ->
     accept_handshake_timestamp p ts = (p, Err ReplayedHandshake)).
Proof.
  intros Hts Hlast. split.
  - revert p Hlast. induction Hts as [|ts tss Hl Hts IH]; intros p Hlast; unfold accepted; cbn [accept_timestamps zip_with].
    { destruct (last_handshake_timestamp p); repeat constructor. }
    unfold accept_handshake_timestamp. destruct (last_handshake_timestamp p) as [prev|] eqn:E.
    + specialize (Hlast prev eq_refl). destruct (is_newer_than ts prev) eqn:En; cbn [negb].
      * rewrite filter_cons_True by done. cbn [map fst option_list app].
        specialize (IH (with_timestamp p (Some ts))). cbn [with_timestamp last_handshake_timestamp option_list app map] in IH.
        constructor; [apply IH; by intros ? [= <-]|]. constructor. apply bytes_gt_from_be in En; [done|congruence].
      * rewrite filter_cons_False by done. specialize (IH p). rewrite E in IH. apply IH. by intros ? [= <-].
    + rewrite filter_cons_True by done. cbn [map fst option_list app].
      specialize (IH (with_timestamp p (Some ts))). cbn [with_timestamp last_handshake_timestamp option_list app map] in IH.
      apply IH. by intros ? [= <-].
  - intros ts prev E Hle Hl. unfold accept_handshake_timestamp. rewrite E.
    destruct (is_newer_than ts prev) eqn:En; [|done].
    apply bytes_gt_from_be in En; [lia|]. by rewrite Hl, (Hlast prev E).
Qed.

(** ** Examples *)

Definition example_pk : NodePublic := Public (replicate 32 x05).

Definition example_p1 : Peer := mark_handshake_sent (peer_new example_pk) 0.
Definition example_p2 : Peer := install_session example_p1 example_keys 40 true.
Definition example_p3 : Peer := set_session (send_session example_p2 100).1 Current (session_new example_keys).

Lemma example_run1 : run example_pk 0 [(EvInitiate, 0%Z)] (example_p1, 0%Z).
Proof.
  apply (run_step _ _ [] (peer_new example_pk, 0%Z) EvInitiate (example_p1, 0%Z)); [apply run_start|].
  apply step_initiate; [lia|reflexivity].
Qed.

Lemma example_run3 :
  run example_pk 0 [(EvInitiate, 0%Z); (EvInstall example_keys, 40%Z); (EvSend (session_new example_keys) (session_new example_keys), 100%Z)] (example_p3, 100%Z).
Proof.
  apply (run_step _ _ [(EvInitiate, 0%Z); (EvInstall example_keys, 40%Z)] (example_p2, 40%Z) (EvSend (session_new example_keys) (session_new example_keys)) (example_p3, 100%Z)).
  - apply (run_step _ _ [(EvInitiate, 0%Z)] (example_p1, 0%Z) (EvInstall example_keys) (example_p2, 40%Z)); [apply example_run1|].
    apply step_install. lia.
  - apply step_send; [lia|reflexivity].
Qed.

Lemma session_lifetime_witness :
  exists before s, run example_pk 0 (before ++ [(EvSend s s, 100%Z)]) (example_p3, 100%Z) /\
    exists keys ti, (EvInstall keys, ti) ∈ before /\ came_from keys ti before s /\ (ti <= 100 < ti + REJECT_AFTER_TIME)%Z /\ has_keys keys s.
Proof.
  exists [(EvInitiate, 0%Z); (EvInstall example_keys, 40%Z)], (session_new example_keys). split; [exact example_run3|].
  destruct (session_lifetime example_pk 0 [(EvInitiate, 0%Z); (EvInstall example_keys, 40%Z)] (EvSend (session_new example_keys) (session_new example_keys)) 100 []
    (example_p3, 100%Z) (session_new example_keys) (session_new example_keys) example_run3 (or_introl eq_refl)) as (keys & ti & Hi & Hc & Ht & Hk & _).
  exists keys, ti. split; [exact Hi|]. split; [exact Hc|]. split; [exact Ht|]. apply Hk. repeat constructor.
Defined.

Lemma initiations_bounded_witness :
  exists tr p, run example_pk 0 tr (p, 0%Z) /\ attempts tr = 1 /\
    poll p 4999 = Idle /\ poll p 5000 = Initiate /\ poll p 90000 = Idle.
Proof.
  exists [(EvInitiate, 0%Z)], example_p1.
  split; [exact example_run1|]. split; [reflexivity|]. split; [reflexivity|]. split; [reflexivity|].
  apply (proj2 (initiations_bounded _ _ _ _ _ example_run1) 0 0 90000)%Z; (reflexivity || lia || (vm_compute; discriminate)).
Defined.

Definition example_peer : Peer := install_session (peer_new example_pk) example_peer_keys 0 true.

Lemma rekey_overlap_witness :
  (send_session (install_session example_peer example_keys 120000 true) 120000).2 = Some (session_new example_keys).
Proof.
  assert (s_local_index (session_new example_peer_keys) <> local_index example_keys) as Hne by (vm_compute; discriminate).
  apply (rekey_overlap example_peer example_keys 120000 121000 true _ eq_refl ltac:(lia) Hne).
Defined.

Lemma timestamps_increase_witness :
  Sorted Z.lt (map from_be (option_list None ++ accepted (peer_new example_pk) [zeros 11 ++ [x02]; zeros 12; zeros 11 ++ [x03]])) /\
  accepted (peer_new example_pk) [zeros 11 ++ [x02]; zeros 12; zeros 11 ++ [x03]] = [zeros 11 ++ [x02]; zeros 11 ++ [x03]].
Proof.
  split; [|reflexivity].
  apply (timestamps_increase (peer_new example_pk) [zeros 11 ++ [x02]; zeros 12; zeros 11 ++ [x03]]);
    [repeat constructor|intros ts H; discriminate H].
Defined.
