(* ===== verification/WgNode.v ===== *)
(** The WireGuard node of the firmware: [lando-fw/src/wg.rs].

    One [Node] serves packets from the UDP socket and from the relay. [handle]
    composes disco, the handshake, the transport and the in-tunnel ping; it is
    given with its early returns, each with the state changes made before it.
    The buffer [out] is part of the result only where an [Action] says how much
    of it the caller may read. *)
From S2P Require Import Prelude Crypto Keys WireGuard WgHandshake Replay WgTransport.
From S2P Require Disco Tsmp.

(** [crate::DERP_REGION] *)
Definition DERP_REGION : Z := 28.

Inductive Action := Reply (len : nat) | Deliver (len : nat).

(** The device only has IPv4, so an endpoint is four octets and a port. *)
Inductive Source := Udp (octets : bytes) (port : Z) | Derp (key : bytes).

Record PeerSlot := { slot_key : NodePublic; slot_session : Session; slot_source : Source }.

Record Node := {
  n_node_key : NodePrivate; n_disco_key : DiscoPrivate; n_disco_public : DiscoPublic;
  n_nonce : bytes; n_peer : option PeerSlot; n_next_index : Z
}.

Definition set_nonce (self : Node) (n : bytes) : Node :=
  {| n_node_key := n_node_key self; n_disco_key := n_disco_key self; n_disco_public := n_disco_public self;
     n_nonce := n; n_peer := n_peer self; n_next_index := n_next_index self |}.
Definition set_peer (self : Node) (p : PeerSlot) : Node :=
  {| n_node_key := n_node_key self; n_disco_key := n_disco_key self; n_disco_public := n_disco_public self;
     n_nonce := n_nonce self; n_peer := Some p; n_next_index := n_next_index self |}.
Definition set_next_index (self : Node) (i : Z) : Node :=
  {| n_node_key := n_node_key self; n_disco_key := n_disco_key self; n_disco_public := n_disco_public self;
     n_nonce := n_nonce self; n_peer := n_peer self; n_next_index := i |}.
Definition set_session (slot : PeerSlot) (s : Session) : PeerSlot :=
  {| slot_key := slot_key slot; slot_session := s; slot_source := slot_source slot |}.

(** [bump] *)
Fixpoint bump (nonce : bytes) : bytes :=
  match nonce with
  | [] => []
  | b :: rest =>
      let b := zb (bz b + 1) in
      if decide (b <> x00) then b :: rest else b :: bump rest
  end.

(** The address and port a pong reports. *)
Definition pong_source (from : Source) : bytes * Z :=
  match from with
  | Udp octets port => (octets, port)
  | Derp _ => ([x7f; x03; x03; x28], wrap 16 DERP_REGION)
  end.

(** The ephemeral of a handshake, from the index and the packet length. *)
Definition ephemeral_seed (index : Z) (packet_len : nat) : bytes :=
  overwrite (overwrite (zeros 32) 0 (to_le 4 index)) 4 (to_le 4 (wrap 32 (Z.of_nat packet_len))).

Definition next_index_after (i : Z) : Z := Z.max (wrap 32 (i + 2)) 1.

Section Node.
Context `{P : Primitives} {E : Type}.

(** [Node::new] *)
Definition node_new (node_key : NodePrivate) (disco_key : DiscoPrivate) (index_seed : Z) : outcome E Node :=
  let? nonce := copy_range (zeros Disco.NONCE_LEN) 0 4 (to_le 4 index_seed) in
  Ok {| n_node_key := node_key; n_disco_key := disco_key; n_disco_public := public_of disco_key;
        n_nonce := nonce; n_peer := None; n_next_index := Z.lor index_seed 1 |}.

(** [handle] of a disco packet *)
Definition handle_disco (self : Node) (header : Disco.Header) (sealed : bytes) (from : Source) (out : bytes)
    : outcome E (Node * option (Action * bytes)) :=
  try? (_, plain) := Disco.open (priv_bytes (n_disco_key self)) header sealed (zeros 256) else (self, None) in
  try? ping := Disco.parse_ping plain else (self, None) in
  let (src, port) := pong_source from in
  let self := set_nonce self (bump (n_nonce self)) in
  try? (out, len) := Disco.write_pong (priv_bytes (n_disco_key self)) (n_disco_public self) (Disco.sender header)
                       (n_nonce self) (Disco.tx_id ping) src port out else (self, None) in
  Ok (self, Some (Reply len, out)).

(** [handle] of [MSG_INITIATION] *)
Definition handle_initiation (self : Node) (packet : bytes) (from : Source) (out : bytes)
    : outcome E (Node * option (Action * bytes)) :=
  try? (responder, learned) := consume_initiation (n_node_key self) packet else (self, None) in
  let index := n_next_index self in
  let self := set_next_index self (next_index_after (n_next_index self)) in
  let? seed := copy_range (zeros 32) 0 4 (to_le 4 index) in
  let? seed := copy_range seed 4 8 (to_le 4 (wrap 32 (Z.of_nat (length packet)))) in
  let ephemeral := from_bytes seed in
  try? (response, keys) := respond responder ephemeral index else (self, None) in
  try? _ := ok_or (get_range out 0 (length response)) tt else (self, None) in
  let? out := copy_range out 0 (length response) response in
  let self := set_peer self {| slot_key := in_peer_static learned; slot_session := session_new keys; slot_source := from |} in
  Ok (self, Some (Reply (length response), out)).

(** [handle] of a decrypted packet: a ping is answered, the rest is for the LAN. *)
Definition handle_plain (self : Node) (slot : PeerSlot) (plain out : bytes) : outcome E (Node * option (Action * bytes)) :=
  let? ping := Tsmp.parse_ping plain in
  match ping with
  | Some ping =>
      let? w := Tsmp.write_pong ping (zeros 64) in
      try? (pong, len) := ok_or w tt else (set_peer self slot, None) in
      let? payload := slice pong 0 len in
      try? (session, out, sent) := encrypt (slot_session slot) payload out else (set_peer self slot, None) in
      Ok (set_peer self (set_session slot session), Some (Reply sent, out))
  | None =>
      let len := length plain in
      try? _ := ok_or (get_range out 0 len) tt else (set_peer self slot, None) in
      let? out := copy_range out 0 len plain in
      Ok (set_peer self slot, Some (Deliver len, out))
  end.

(** [handle] of [MSG_TRANSPORT] *)
Definition handle_transport (self : Node) (packet : bytes) (from : Source) (out : bytes)
    : outcome E (Node * option (Action * bytes)) :=
  try? slot := ok_or (n_peer self) tt else (self, None) in
  let slot := {| slot_key := slot_key slot; slot_session := slot_session slot; slot_source := from |} in
  let buf := zeros 1600 in
  try? _ := ok_or (get_range buf 0 (length packet)) tt else (set_peer self slot, None) in
  let? buf := copy_range buf 0 (length packet) packet in
  let? arg := slice buf 0 (length packet) in
  let (session, plain) := decrypt (slot_session slot) arg in
  let slot := set_session slot session in
  try? plain := plain else (set_peer self slot, None) in
  handle_plain self slot plain out.

(** [Node::handle] *)
Definition handle (self : Node) (packet : bytes) (from : Source) (out : bytes)
    : outcome E (Node * option (Action * bytes)) :=
  match Disco.parse_header packet with
  | Ok (header, sealed) => handle_disco self header sealed from out
  | Panic => Panic
  | NoFuel => NoFuel
  | Err _ =>
      match packet with
      | [] => Ok (self, None)
      | kind :: _ =>
          if decide (kind = MSG_INITIATION) then handle_initiation self packet from out
          else if decide (kind = MSG_TRANSPORT) then handle_transport self packet from out
          else Ok (self, None)
      end
  end.

(** [Node::encrypt] *)
Definition node_encrypt (self : Node) (packet out : bytes) : outcome E (Node * option (bytes * nat * Source)) :=
  try? slot := ok_or (n_peer self) tt else (self, None) in
  try? (session, out, n) := encrypt (slot_session slot) packet out else (self, None) in
  Ok (set_peer self (set_session slot session), Some (out, n, slot_source slot)).
End Node.

Record Relayed := { r_buf : bytes; r_len : nat }.

(** [Relayed::new] *)
Definition relayed_new {E} (packet : bytes) : outcome E Relayed :=
  let buf := zeros 1600 in
  let len := Nat.min (length packet) (length buf) in
  let? src := slice packet 0 len in
  let? buf := copy_range buf 0 len src in
  Ok {| r_buf := buf; r_len := len |}.

(** [Relayed::as_slice] *)
Definition relayed_slice {E} (self : Relayed) : outcome E bytes := slice (r_buf self) 0 (r_len self).

(** ** Proofs *)

Lemma length_bump n : length (bump n) = length n.
Proof. induction n as [|b n IH]; [done|]. cbn [bump]. case_decide; cbn [length]; lia. Qed.

Lemma next_index_ok i : (1 <= next_index_after i < 2 ^ 32)%Z.
Proof. unfold next_index_after, wrap. pose proof (Z.mod_pos_bound (i + 2) (2 ^ 32)). lia. Qed.

Section NodeProofs.
Context `{P : Primitives, L : !PrimitiveLaws P} {E : Type}.

Definition node_ok (n : Node) : Prop :=
  priv_ok (n_node_key n) /\ priv_ok (n_disco_key n) /\ n_disco_public n = public_of (n_disco_key n) /\
  length (n_nonce n) = 24 /\ (1 <= n_next_index n < 2 ^ 32)%Z /\
  forall slot, n_peer n = Some slot -> exists seen, session_ok (slot_session slot) seen.
Definition source_ok (from : Source) : Prop := match from with Udp o _ => length o = 4 | Derp _ => True end.
Definition action_ok (out : bytes) (r : option (Action * bytes)) : Prop :=
  match r with Some (Reply n, o) | Some (Deliver n, o) => n <= length out /\ length o = length out | None => True end.

(** What reaches the LAN came through the session of the peer. *)
Definition authenticated (n : Node) (packet plain : bytes) : Prop :=
  exists slot, n_peer n = Some slot /\ packet !! 0 = Some MSG_TRANSPORT /\
    from_le (take 4 (drop 4 packet)) = s_local_index (slot_session slot) /\
    chacha_decrypt (receive_cipher (slot_session slot)) (nonce (from_le (take 8 (drop 8 packet)))) []
      (take (length packet - 32) (drop 16 packet)) (drop (length packet - 32) (drop 16 packet)) = Some plain.

Lemma pong_source_ok from : source_ok from -> length (pong_source from).1 = 4.
Proof. by destruct from. Qed.

Lemma node_ok_nonce n c : node_ok n -> length c = 24 -> node_ok (set_nonce n c).
Proof. intros (? & ? & ? & ? & [? ?] & ?) ?. by split_and!. Qed.
Lemma node_ok_peer n slot seen : node_ok n -> session_ok (slot_session slot) seen -> node_ok (set_peer n slot).
Proof. intros (? & ? & ? & ? & [? ?] & ?) ?. split_and!; try done. cbn. intros s [= <-]. by eexists. Qed.
Lemma node_ok_index n i : node_ok n -> node_ok (set_next_index n (next_index_after i)).
Proof. intros (? & ? & ? & ? & ? & ?). destruct (next_index_ok i). by split_and!. Qed.

Lemma handle_disco_total n h sealed from out :
  node_ok n -> source_ok from -> pub_ok (Disco.sender h) ->
  exists n' r, handle_disco (E:=E) n h sealed from out = Ok (n', r) /\ node_ok n' /\ action_ok out r /\
    forall len o, r <> Some (Deliver len, o).
Proof.
  intros Hn Hf Hs. unfold handle_disco.
  destruct (Disco.disco_open_total (priv_bytes (n_disco_key n)) h sealed (zeros 256)) as [(o & q & -> & _)|[e ->]]; cbn [try_or];
    [|by eexists _, _].
  destruct (Disco.disco_ping_total q) as [(g & -> & Hg)| ->]; cbn [try_or]; [|by eexists _, _].
  rewrite (surjective_pairing (pong_source from)). set (m := set_nonce n _).
  assert (node_ok m) as Hm. { apply node_ok_nonce; [done|]. rewrite length_bump. apply Hn. }
  pose proof Hm as (_ & Hdk & Hdp & Hnl & _).
  destruct (decide (length out < 110)) as [Ho|Ho].
  { unfold Disco.write_pong. rewrite decide_True by done. by eexists _, _. }
  rewrite Hdp.
  destruct (Disco.write_pong_sealed (n_disco_key m) (Disco.sender h) (n_nonce m) (Disco.tx_id g) (pong_source from).1 (pong_source from).2 out)
    as (pkt & -> & Hl & _); try done; [by apply pong_source_ok|lia|].
  cbn [try_or]. eexists _, _. split; [done|]. split; [done|]. split; [|done].
  cbn. rewrite length_app, length_drop. lia.
Qed.

(** An initiation that was accepted is answered, and its session installed. *)
Lemma handle_initiation_eq n packet r i from out :
  node_ok n -> consume_initiation (n_node_key n) packet = Ok (r, i) ->
  let idx := n_next_index n in
  let n1 := set_next_index n (next_index_after idx) in
  exists response keys,
    respond r (Private (ephemeral_seed idx (length packet))) idx = Ok (response, keys) /\ length response = 92 /\
    session_ok (session_new keys) [] /\
    handle_initiation (E:=E) n packet from out =
      if decide (length out < 92) then Ok (n1, None)
      else Ok (set_peer n1 {| slot_key := in_peer_static i; slot_session := session_new keys; slot_source := from |},
               Some (Reply 92, response ++ drop 92 out)).
Proof.
  intros Hn Hc idx n1. pose proof Hn as (Hk & _ & _ & _ & Hi & _). unfold handle_initiation. rewrite Hc. cbn [try_or].
  apply consume_initiation_Ok_inv in Hc as (_ & _ & _ & He & Hs & Hri & Hpi & Hps & _).
  rewrite copy_range_ok by (rewrite ?length_zeros, ?length_to_le; lia). cbn [obind].
  rewrite copy_range_ok by (rewrite ?length_overwrite; rewrite ?length_zeros, ?length_to_le; lia). cbn [obind].
  change (from_bytes _) with (Private (k:=Keys.Node) (ephemeral_seed idx (length packet))).
  set (eph := Private _). assert (priv_ok eph) as Heph by done.
  destruct (respond_spec r eph idx Heph) as (c & t & m & _ & Hcl & Htl & Hml & Hr); [by rewrite Hs|].
  cbv zeta in Hr. fold idx. rewrite Hr. cbn [try_or].
  match type of Hr with _ = Ok (?m, ?k) => set (msg := m) in *; set (keys := k) in * end.
  assert (length (as_bytes (public_of eph)) = 32) as Hel by (apply public_of_ok; done).
  assert (length msg = 92) as Hmsg.
  { unfold msg, resp_segs. cbn [concat]. rewrite !length_app, !length_to_le, length_zeros, Hel. simpl. lia. }
  exists msg, keys. split_and!; try done.
  - apply session_new_ok; cbn [keys send receive local_index peer_index]; [apply kdf2_length|apply kdf2_length|lia|].
    rewrite Hri, Hpi. pose proof (from_le_range (take 4 (drop 4 packet))).
    assert (256 ^ Z.of_nat (length (take 4 (drop 4 packet))) <= 256 ^ 4)%Z; [|lia].
    apply Z.pow_le_mono_r; rewrite ?length_take; lia.
  - rewrite Hmsg. case_decide as Ho.
    + unfold get_range. by rewrite decide_False by lia.
    + rewrite get_range_ok by lia. cbn [ok_or try_or]. rewrite copy_range_ok by lia. cbn [obind].
      pose proof (overwrite_app [] out msg 0 eq_refl : overwrite out 0 msg = msg ++ _) as ->. by rewrite Hmsg.
Qed.

Lemma handle_initiation_total n packet from out :
  node_ok n -> exists n' r, handle_initiation (E:=E) n packet from out = Ok (n', r) /\ node_ok n' /\ action_ok out r /\
    forall len o, r <> Some (Deliver len, o).
Proof.
  intros Hn. destruct (consume_initiation_no_panic (n_node_key n) packet) as [(e & Hc & _)|[[r i] Hc]].
  { unfold handle_initiation. rewrite Hc. by eexists _, _. }
  destruct (handle_initiation_eq n packet r i from out Hn Hc) as (response & keys & _ & Hl & Hok & ->).
  pose proof (node_ok_index n (n_next_index n) Hn) as Hn1. case_decide as Ho; [by eexists _, _|].
  eexists _, _. split; [done|]. split; [by eapply node_ok_peer|]. split; [|done].
  cbn. rewrite length_app, length_drop. lia.
Qed.

(** A packet of at most 1600 bytes for an existing session is decrypted. *)
Lemma handle_transport_eq n slot packet from out :
  n_peer n = Some slot -> length packet <= 1600 ->
  handle_transport (E:=E) n packet from out =
    let slot := {| slot_key := slot_key slot; slot_session := slot_session slot; slot_source := from |} in
    let (session, plain) := decrypt (slot_session slot) packet in
    let slot := set_session slot session in
    try? plain := plain else (set_peer n slot, None) in
    handle_plain n slot plain out.
Proof.
  intros Hp Hl. unfold handle_transport. rewrite Hp. cbn [ok_or try_or].
  rewrite get_range_ok by (rewrite ?length_zeros; lia). cbn [ok_or try_or].
  rewrite copy_range_ok by (rewrite ?length_zeros; lia). cbn [obind].
  rewrite slice_to by (rewrite length_overwrite; rewrite ?length_zeros; lia). cbn [obind].
  by pose proof (take_overwrite (zeros 1600) 0 packet ltac:(lia) : take (length packet) _ = packet) as ->.
Qed.

Lemma handle_plain_total n slot seen p out :
  node_ok n -> session_ok (slot_session slot) seen ->
  exists n' r, handle_plain (E:=E) n slot p out = Ok (n', r) /\ node_ok n' /\ action_ok out r /\
    forall len o, r = Some (Deliver len, o) -> take len o = p.
Proof.
  intros Hn Hok. unfold handle_plain.
  destruct (Tsmp.parse_ping_total (E:=E) p) as [->|(ping & ihl & -> & Hping & _)]; cbn [obind].
  - destruct (decide (length p <= length out)) as [Ho|Ho].
    2: { unfold get_range. rewrite decide_False by lia. cbn [ok_or try_or]. eexists _, _. split; [done|]. split; [|done]. by eapply node_ok_peer. }
    rewrite get_range_ok by lia. cbn [ok_or try_or]. rewrite copy_range_ok by lia. cbn [obind].
    eexists _, _. split; [done|]. split; [by eapply node_ok_peer|]. split.
    + split; [lia|]. apply length_overwrite. lia.
    + intros len o [= <- <-]. apply (take_overwrite out 0 p). lia.
  - destruct (Tsmp.pong_checksum (E:=E) ping Hping) as (sum & _ & Hck & _).
    rewrite Tsmp.write_pong_eq by (done || (rewrite length_zeros; lia)). rewrite Hck. cbn [obind ok_or try_or].
    rewrite slice_to by (rewrite length_app, length_drop, length_zeros; lia). cbn [obind].
    match goal with |- context [encrypt ?s ?p ?o] => destruct (encrypt_total s seen p o) as [(s' & o' & k & -> & Hs' & Hk & Hlo & _)|[-> | ->]] end;
      try done; cbn [try_or].
    + rewrite length_take. lia.
    + eexists _, _. split; [done|]. split; [by eapply node_ok_peer|]. by split.
    + eexists _, _. split; [done|]. split; [|done]. by eapply node_ok_peer.
    + eexists _, _. split; [done|]. split; [|done]. by eapply node_ok_peer.
Qed.

Lemma handle_transport_total n packet from out :
  node_ok n -> packet !! 0 = Some MSG_TRANSPORT ->
  exists n' r, handle_transport (E:=E) n packet from out = Ok (n', r) /\ node_ok n' /\ action_ok out r /\
    forall len o, r = Some (Deliver len, o) -> authenticated n packet (take len o).
Proof.
  intros Hn Hkind. pose proof Hn as (_ & _ & _ & _ & _ & Hp).
  destruct (n_peer n) as [slot|] eqn:Hslot.
  2: { unfold handle_transport. rewrite Hslot. cbn [ok_or try_or]. by eexists _, _. }
  destruct (Hp slot eq_refl) as [seen Hs]. destruct (decide (length packet <= 1600)) as [Hl|Hl].
  2: { unfold handle_transport, get_range. rewrite Hslot, decide_False by (rewrite length_zeros; lia). cbn [ok_or try_or].
       eexists _, _. split; [done|]. split; [|done]. by eapply node_ok_peer. }
  rewrite (handle_transport_eq n slot) by done. cbn [slot_session].
  destruct (decrypt_cases (slot_session slot) seen packet Hs) as [(e & -> & _)|(p & w & _ & _ & _ & Hidx & Hdec & -> & Hok)].
  { cbn [try_or]. eexists _, _. split; [done|]. split; [|done]. by eapply node_ok_peer. }
  destruct (rw_spec _ _); cbn [try_or].
  2: { eexists _, _. split; [done|]. split; [|done]. by eapply node_ok_peer. }
  match goal with |- context [handle_plain n ?s p out] => destruct (handle_plain_total n s _ p out Hn Hok) as (n' & r & Hr & Hn' & Ha & Hd) end.
  exists n', r. split_and!; try done. intros len o Ho. exists slot. split_and!; try done. by rewrite (Hd len o Ho).
Qed.

(** Packets that are not disco: the first byte decides. *)
Lemma not_disco packet kind :
  packet !! 0 = Some kind -> kind <> x54 -> Disco.parse_header packet = Err Disco.NotDisco.
Proof.
  intros Hk Hne. apply Disco.disco_header_other. apply bool_decide_eq_false. destruct packet as [|b p]; [done|].
  injection Hk as ->. unfold Disco.MAGIC. cbn [length take]. by intros [= ? _].
Qed.

Lemma handle_kind n packet kind from out :
  packet !! 0 = Some kind -> kind <> x54 ->
  handle (E:=E) n packet from out =
    if decide (kind = MSG_INITIATION) then handle_initiation n packet from out
    else if decide (kind = MSG_TRANSPORT) then handle_transport n packet from out
    else Ok (n, None).
Proof. intros Hk Hne. unfold handle. rewrite (not_disco _ _ Hk Hne). destruct packet as [|b p]; [done|]. by injection Hk as ->. Qed.

(** ** A conversation through the node

    One end is the session [s] of a peer, the other the node; [Up] is a packet
    the peer sends, [Down] one the LAN side sends. Each step gives the plaintext
    heard: at the LAN, or at the peer when the node answers by itself. *)
Inductive traffic := Up (payload : bytes) | Down (payload : bytes).

Definition peer_hears (n : Node) (s : Session) (packet : bytes) : outcome E (Node * Session * bytes) :=
  let (s, plain) := decrypt s packet in
  try? plain := plain else (n, s, []) in
  Ok (n, s, plain).

Definition converse_step (from : Source) (n : Node) (s : Session) (t : traffic) : outcome E (Node * Session * bytes) :=
  match t with
  | Up payload =>
      try? (s, buf, len) := encrypt s payload (zeros 1600) else (n, s, []) in
      let? packet := slice buf 0 len in
      let? (n, r) := handle n packet from (zeros 1600) in
      match r with
      | Some (Deliver k, o) => let? plain := slice o 0 k in Ok (n, s, plain)
      | Some (Reply k, o) => let? packet := slice o 0 k in peer_hears n s packet
      | None => Ok (n, s, [])
      end
  | Down payload =>
      let? (n, r) := node_encrypt n payload (zeros 1600) in
      match r with
      | Some (o, k, _) => let? packet := slice o 0 k in peer_hears n s packet
      | None => Ok (n, s, [])
      end
  end.

Fixpoint converse (from : Source) (n : Node) (s : Session) (ts : list traffic) : outcome E (Node * Session * list bytes) :=
  match ts with
  | [] => Ok (n, s, [])
  | t :: ts =>
      let? (n, s, plain) := converse_step from n s t in
      let? (n, s, plains) := converse from n s ts in
      Ok (n, s, plain :: plains)
  end.

Definition pong_reply (ping : Tsmp.Ping) : bytes :=
  match Tsmp.checksum (E:=E) (take 20 (Tsmp.pong_packet ping 0)) with Ok sum => Tsmp.pong_packet ping sum | _ => [] end.
Definition heard (t : traffic) : bytes :=
  match t with
  | Up p => match Tsmp.parse_ping (E:=E) (padded p) with Ok (Some ping) => padded (pong_reply ping) | _ => padded p end
  | Down p => padded p
  end.
Definition traffic_ok (t : traffic) : Prop := match t with Up p | Down p => length p <= 1500 end.

Definition linked (n : Node) (s : Session) (k : Z) : Prop :=
  node_ok n /\ exists slot, n_peer n = Some slot /\
    feeds s (slot_session slot) /\ feeds (slot_session slot) s /\
    (send_counter s <= k)%Z /\ (send_counter (slot_session slot) <= k)%Z.

Lemma node_ok_feeds n slot s : node_ok n -> feeds s (slot_session slot) -> node_ok (set_peer n slot).
Proof. intros Hn (_ & _ & seen & Hs & _). by eapply node_ok_peer. Qed.

(** Packets the node encrypts reach the peer. *)
Lemma converse_down from n s k payload :
  linked n s k -> (k < REJECT_AFTER_MESSAGES)%Z -> length payload <= 1500 ->
  exists n' s', converse_step from n s (Down payload) = Ok (n', s', padded payload) /\ linked n' s' (k + 1).
Proof.
  intros (Hn & slot & Hp & Hf & Hb & Hc & Hd) Hk Hl. unfold converse_step, node_encrypt. rewrite Hp. cbn [ok_or try_or].
  pose proof (div_ceil_ge (length payload)).
  destruct (channel_step (slot_session slot) s payload (zeros 1600)) as (r & pkt & s' & He & Hlen & Ht & Hdec & Hf' & Hb' & Hcr & Hcs);
    try done; [lia|lia|rewrite length_padded, length_zeros; lia|].
  rewrite He. cbn [try_or obind]. rewrite slice_app_l_exact by done. cbn [obind]. unfold peer_hears. rewrite Hdec. cbn [try_or].
  eexists _, _. split; [done|]. split; [by eapply node_ok_feeds|]. eexists. split; [done|]. cbn [slot_session set_session]. split_and!; (done || lia).
Qed.

(** Packets the peer encrypts reach the LAN, or are answered. *)
Lemma converse_up from n s k payload :
  linked n s k -> (k < REJECT_AFTER_MESSAGES)%Z -> length payload <= 1500 ->
  exists n' s', converse_step from n s (Up payload) = Ok (n', s', heard (Up payload)) /\ linked n' s' (k + 1).
Proof.
  intros (Hn & slot & Hp & Hf & Hb & Hc & Hd) Hk Hl. unfold converse_step.
  pose proof (div_ceil_ge (length payload)).
  destruct (channel_step s (slot_session slot) payload (zeros 1600)) as (s' & pkt & r & He & Hlen & Ht & Hdec & Hf' & Hb' & Hcs & Hcr);
    try done; [lia|lia|rewrite length_padded, length_zeros; lia|]. rewrite length_padded in Hlen.
  rewrite He. cbn [try_or obind]. rewrite slice_app_l_exact by done. cbn [obind].
  rewrite (handle_kind _ _ _ _ _ Ht) by done. rewrite decide_False, decide_True by done.
  rewrite (handle_transport_eq n slot) by (done || lia). cbn [slot_session]. rewrite Hdec. cbn [try_or]. unfold heard, handle_plain.
  destruct (Tsmp.parse_ping_total (E:=E) (padded payload)) as [->|(ping & ihl & -> & Hping & _)]; cbn [obind].
  - rewrite get_range_ok by (rewrite ?length_zeros, ?length_padded; lia). cbn [ok_or try_or].
    rewrite copy_range_ok by (rewrite ?length_zeros, ?length_padded; lia). cbn [obind].
    rewrite slice_to by (rewrite length_overwrite; rewrite ?length_zeros, ?length_padded; lia). cbn [obind].
    pose proof (take_overwrite (zeros 1600) 0 (padded payload) ltac:(lia) : take (length (padded payload)) _ = _) as ->.
    eexists _, _. split; [done|]. split; [by eapply node_ok_feeds|]. eexists. split; [done|]. cbn. split_and!; (done || lia).
  - destruct (Tsmp.pong_checksum (E:=E) ping Hping) as (sum & _ & Hck & _). unfold pong_reply.
    rewrite Tsmp.write_pong_eq by (done || (rewrite length_zeros; lia)). rewrite Hck. cbn [obind ok_or try_or].
    pose proof (Tsmp.length_pong_packet ping sum Hping) as Hpl.
    rewrite slice_app_l_exact by done. cbn [obind slot_session set_session].
    pose proof (div_ceil_ge (length (Tsmp.pong_packet ping sum))).
    destruct (channel_step r s' (Tsmp.pong_packet ping sum) (zeros 1600)) as (r2 & pkt2 & s2 & He2 & _ & _ & Hdec2 & Hf2 & Hb2 & Hcr2 & Hcs2);
      try done; [lia|lia|rewrite length_padded, length_zeros; lia|].
    rewrite He2. cbn [try_or obind]. rewrite slice_app_l_exact by done. cbn [obind]. unfold peer_hears. rewrite Hdec2. cbn [try_or].
    eexists _, _. split; [done|]. split; [by eapply node_ok_feeds|]. eexists. split; [done|]. cbn [slot_session set_session]. split_and!; (done || lia).
Qed.

Lemma converse_all from ts n s k :
  linked n s k -> Forall traffic_ok ts -> (k + Z.of_nat (length ts) <= REJECT_AFTER_MESSAGES)%Z ->
  exists n' s', converse from n s ts = Ok (n', s', map heard ts).
Proof.
  revert n s k. induction ts as [|t ts IH]; intros n s k Hl Ht Hk; cbn [converse map]; [by eexists _, _|].
  inversion_clear Ht as [|? ? Ht1 Hts]. cbn [length] in Hk.
  assert (exists n' s', converse_step from n s t = Ok (n', s', heard t) /\ linked n' s' (k + 1)) as (n1 & s1 & -> & Hl1).
  { destruct t; [eapply converse_up|eapply converse_down]; (done || lia). }
  cbn [obind]. destruct (IH n1 s1 (k + 1)%Z) as (n2 & s2 & ->); try done; [lia|]. by eexists _, _.
Qed.

(** The handshake with a peer links the node's session to the peer's. *)
Lemma handle_handshake a ea li ts n from out :
  node_ok n -> priv_ok a -> priv_ok ea -> length ts = 12 -> (0 <= li < 2 ^ 32)%Z -> 92 <= length out ->
  exists i m1 n' response ki,
    initiator_new a (public_of (n_node_key n)) ea li ts = Ok (i, m1) /\
    handle (E:=E) n m1 from out = Ok (n', Some (Reply 92, response ++ drop 92 out)) /\ length response = 92 /\
    consume_response i response = Ok ki /\ linked n' (session_new ki) 0 /\
    n_next_index n' = next_index_after (n_next_index n).
Proof.
  intros Hn Ha Hea Hts Hli Ho. pose proof Hn as (Hk & _ & _ & _ & Hi & _).
  destruct (consume_initiation_spec a (n_node_key n) ea li ts) as (i & m1 & r & H1 & H2 & Hst & Hps & Hpe & Hpi & Hie & His & Hil); try done.
  destruct (handle_initiation_eq n m1 r _ from out Hn H2) as (response & keys & Hr & Hl & Hok & Hh).
  set (eph := Private _) in Hr. assert (priv_ok eph) as Heph by done.
  destruct (respond_consume i r eph (n_next_index n)) as (m2 & kr & ki & H3 & H4 & Hk1 & Hk2 & Hk3 & Hk4 & Hk5 & Hk6 & Hk7 & Hk8);
    try done; try congruence; [lia|]. rewrite Hr in H3. assert (m2 = response /\ kr = keys) as [-> ->] by by injection H3.
  eexists i, m1, _, response, ki. split; [done|].
  pose proof (consume_initiation_Ok_inv _ _ _ _ H2) as (_ & Hkind & _).
  rewrite (handle_kind _ _ _ _ _ Hkind) by done. rewrite decide_True by done. rewrite Hh, decide_False by lia.
  split; [done|]. split; [done|]. split; [done|]. split; [|done].
  split; [by eapply node_ok_peer; [apply node_ok_index|]|].
  eexists. split; [done|]. cbn [slot_session]. unfold feeds. split_and!; try done; cbn [send_cipher receive_cipher s_peer_index s_local_index session_new]; try done; try congruence.
  - exists []. split; [done|constructor].
  - exists []. split; [|constructor]. apply session_new_ok; (lia || congruence).
Qed.

Lemma node_new_ok nk dk seed :
  priv_ok nk -> priv_ok dk -> (0 <= seed < 2 ^ 32)%Z ->
  exists n, node_new (E:=E) nk dk seed = Ok n /\ node_ok n /\ n_peer n = None /\ n_node_key n = nk.
Proof.
  intros Hnk Hdk Hs. unfold node_new. rewrite copy_range_ok by (rewrite ?length_zeros, ?length_to_le; vm_compute; lia).
  cbn [obind]. eexists. split; [done|]. split; [|done]. unfold node_ok. cbn.
  assert (1 <= Z.lor seed 1 < 2 ^ 32)%Z as [H1 H2].
  { assert (0 <= Z.lor seed 1)%Z by (apply Z.lor_nonneg; lia).
    assert (Z.odd (Z.lor seed 1) = true) as Ho by (rewrite <- Z.bit0_odd, Z.lor_spec; apply orb_true_r).
    split; [destruct (decide (Z.lor seed 1 = 0)%Z) as [E0|]; [by rewrite E0 in Ho|lia]|].
    destruct (decide (seed = 0)%Z) as [->|]; [done|].
    apply Z.log2_lt_cancel. rewrite Z.log2_lor by lia. rewrite Z.log2_pow2 by lia.
    change (Z.log2 1) with 0%Z. rewrite Z.max_l by apply Z.log2_nonneg. apply Z.log2_lt_pow2; lia. }
  split_and!; try done. 
Qed.

Lemma handle_total n packet from out :
  node_ok n -> source_ok from ->
  exists n' r, handle (E:=E) n packet from out = Ok (n', r) /\ node_ok n' /\ action_ok out r /\
    forall len o, r = Some (Deliver len, o) -> authenticated n packet (take len o).
Proof.
  intros Hn Hf. destruct (Disco.disco_header_total packet) as [(h & rest & Hh & _ & Hs & _)|Hh]; unfold handle; rewrite Hh.
  - destruct (handle_disco_total n h rest from out Hn Hf Hs) as (n' & r & Hr & Hn' & Ha & Hd).
    exists n', r. split_and!; try done. intros len o Ho. by destruct (Hd len o).
  - destruct packet as [|kind p] eqn:Ep; [by eexists _, _|]. rewrite <- Ep.
    case_decide; [|case_decide; [|by eexists _, _]].
    + destruct (handle_initiation_total n packet from out Hn) as (n' & r & Hr & Hn' & Ha & Hd).
      exists n', r. split_and!; try done. intros len o Ho. by destruct (Hd len o).
    + apply handle_transport_total; [done|]. by subst.
Qed.

(** Every datagram that arrives, one after another. *)
Fixpoint handle_all (n : Node) (inputs : list (bytes * Source * bytes)) : outcome E (Node * list (option (Action * bytes))) :=
  match inputs with
  | [] => Ok (n, [])
  | (packet, from, out) :: inputs =>
      let? (n, r) := handle n packet from out in
      let? (n, rs) := handle_all n inputs in
      Ok (n, r :: rs)
  end.

(** Where each result comes from: the node that handled the packet. *)
Definition result_ok (n : Node) (input : bytes * Source * bytes) (r : option (Action * bytes)) : Prop :=
  let '(packet, _, out) := input in
  action_ok out r /\ forall len o, r = Some (Deliver len, o) -> authenticated n packet (take len o).

(** C26. Nothing on the network can crash the node or reach the LAN unchecked.
    From a new node on, whatever datagrams arrive from wherever and in whatever
    order, [handle] returns each time and claims no more of [out] than it has;
    and what it hands to the LAN is the plaintext of a transport packet that
    authenticates under the session the node had with its peer at that point. *)
Theorem node_total nk dk seed inputs :
  priv_ok nk -> priv_ok dk -> (0 <= seed < 2 ^ 32)%Z -> Forall (fun x => source_ok x.1.2) inputs ->
  exists n n' rs, node_new (E:=E) nk dk seed = Ok n /\ handle_all n inputs = Ok (n', rs) /\ length rs = length inputs /\
    forall i input r, inputs !! i = Some input -> rs !! i = Some r ->
      exists ni ri, handle_all n (take i inputs) = Ok (ni, ri) /\ node_ok ni /\ result_ok ni input r.
Proof.
  intros Hnk Hdk Hs Hf. destruct (node_new_ok nk dk seed) as (n & Hnew & Hn & _); try done. exists n.
  assert (exists n' rs, handle_all n inputs = Ok (n', rs) /\ length rs = length inputs /\
    forall i input r, inputs !! i = Some input -> rs !! i = Some r ->
      exists ni ri, handle_all n (take i inputs) = Ok (ni, ri) /\ node_ok ni /\ result_ok ni input r) as (n' & rs & ?);
    [|exists n', rs; tauto].
  clear Hnew nk dk Hnk Hdk Hs. revert n Hn. induction Hf as [|[[packet from] out] inputs Hf _ IH]; intros n Hn; cbn [handle_all].
  { eexists _, _. split_and!; done. }
  destruct (handle_total n packet from out Hn Hf) as (n1 & r & Hh & Hn1 & Ha & Hd). rewrite Hh. cbn [obind].
  destruct (IH n1 Hn1) as (n' & rs & -> & Hl & Hr). cbn [obind]. eexists _, _. split; [done|]. split; [cbn; lia|].
  intros [|i] input r0; cbn [lookup list_lookup take].
  - intros [= <-] [= <-]. exists n, []. by split_and!.
  - intros Hi Hri. destruct (Hr i input r0 Hi Hri) as (ni & ri & Hti & Hni & Hok). cbn [handle_all]. rewrite Hh. cbn [obind].
    rewrite Hti. cbn [obind]. by eexists _, _.
Qed.

(** C2. The node serves a peer. For any peer and any node with its own keys: the
    node answers the peer's initiation with a response the peer accepts, and
    after it any sequence of packets each way is heard in full, in order: the
    LAN hears what the peer sends, the peer what the LAN side sends, and a
    tunnel ping is answered to the peer with the pong for it. *)
Theorem node_serves_peer a ea li ts n from out sequence :
  node_ok n -> priv_ok a -> priv_ok ea -> length ts = 12 -> (0 <= li < 2 ^ 32)%Z -> 92 <= length out ->
  Forall traffic_ok sequence -> (Z.of_nat (length sequence) <= REJECT_AFTER_MESSAGES)%Z ->
  exists i m1 n' response ki n'' s,
    initiator_new a (public_of (n_node_key n)) ea li ts = Ok (i, m1) /\
    handle (E:=E) n m1 from out = Ok (n', Some (Reply 92, response ++ drop 92 out)) /\
    consume_response i response = Ok ki /\
    converse from n' (session_new ki) sequence = Ok (n'', s, map heard sequence).
Proof.
  intros Hn Ha Hea Hts Hli Ho Hsq Hk.
  destruct (handle_handshake a ea li ts n from out) as (i & m1 & n' & response & ki & H1 & H2 & _ & H3 & Hl & _); try done.
  destruct (converse_all from sequence n' (session_new ki) 0) as (n'' & s & Hc); try done.
  by exists i, m1, n', response, ki, n'', s.
Qed.

(** ** The nonces of the pongs *)

Lemma bump_value l : from_le (bump l) = ((from_le l + 1) mod 256 ^ Z.of_nat (length l))%Z.
Proof.
  induction l as [|b l IH]; [done|]. cbn [bump from_le length]. rewrite Nat2Z.inj_succ, Z.pow_succ_r by lia.
  pose proof (bz_range b). pose proof (from_le_range l).
  destruct (decide (bz b = 255)%Z) as [Hb|Hb].
  - assert (zb (bz b + 1) = x00) as -> by (rewrite Hb; done). rewrite decide_False by auto. cbn [from_le].
    change (bz x00) with 0%Z. rewrite IH, Z.add_0_l, <- Z.mul_mod_distr_l by lia. f_equal. lia.
  - assert (bz (zb (bz b + 1)) = bz b + 1)%Z as Hz by (apply bz_zb_small; lia).
    rewrite decide_True by (intros Hx; rewrite Hx in Hz; change (bz x00) with 0%Z in Hz; lia).
    cbn [from_le]. rewrite Hz, Z.mod_small by lia. lia.
Qed.

Definition is_disco (packet : bytes) : bool := is_ok (Disco.parse_header packet).

(** One step moves the nonce by at most one, and a pong carries the new one. *)
Lemma handle_nonce n packet from out n' r :
  node_ok n -> source_ok from -> handle (E:=E) n packet from out = Ok (n', r) ->
  n_nonce n' = n_nonce n /\ (is_disco packet = true -> r = None) \/
  n_nonce n' = bump (n_nonce n) /\ forall k o, r = Some (Reply k, o) -> take 24 (drop 38 o) = n_nonce n'.
Proof.
  intros Hn Hf. destruct (Disco.disco_header_total packet) as [(h & rest & Hh & _ & Hs & _)|Hh]; unfold handle, is_disco; rewrite Hh.
  - unfold handle_disco.
    destruct (Disco.disco_open_total (priv_bytes (n_disco_key n)) h rest (zeros 256)) as [(o & q & -> & _)|[e ->]]; cbn [try_or];
      [|intros [= <- <-]; by left].
    destruct (Disco.disco_ping_total q) as [(g & -> & Hg)| ->]; cbn [try_or]; [|intros [= <- <-]; by left].
    rewrite (surjective_pairing (pong_source from)). set (m := set_nonce n _).
    assert (node_ok m) as Hm. { apply node_ok_nonce; [done|]. rewrite length_bump. apply Hn. }
    pose proof Hm as (_ & Hdk & Hdp & Hnl & _).
    destruct (decide (length out < 110)) as [Ho|Ho].
    { unfold Disco.write_pong. rewrite decide_True by done. intros [= <- <-]. by right. }
    rewrite Hdp.
    destruct (Disco.write_pong_sealed (n_disco_key m) (Disco.sender h) (n_nonce m) (Disco.tx_id g) (pong_source from).1 (pong_source from).2 out)
      as (pkt & -> & Hl & Hsp); try done; [by apply pong_source_ok|lia|].
    cbn [try_or]. intros [= <- <-]. right. split; [done|]. intros k o' [= _ <-].
    destruct (Disco.sealed_packet_ok (n_disco_key m) (Disco.sender h) (n_nonce m) (Disco.pong_body (Disco.tx_id g) (pong_source from).1 (pong_source from).2))
      as (ct & tag & _ & _ & _ & Hsp2); try done.
    { unfold Disco.pong_body. rewrite !length_app, (pong_source_ok from Hf), length_zeros, length_to_be, Hg. by vm_compute. }
    rewrite Hsp2 in Hsp. assert (pkt = Disco.MAGIC ++ pub_bytes (public_of (n_disco_key m)) ++ n_nonce m ++ tag ++ ct) as -> by by injection Hsp.
    assert (length (pub_bytes (public_of (n_disco_key m))) = 32) as Hpk by (apply public_of_ok; done).
    rewrite <- !app_assoc, (app_assoc Disco.MAGIC), drop_app_length' by (rewrite length_app, Hpk; done). by rewrite take_app_length' by done.
  - intros H. left. split; [|done]. revert H. destruct packet as [|kind p]; [by intros [= <- <-]|].
    unfold handle_initiation, handle_transport, handle_plain, try_or, obind. repeat case_match; intros; simplify_eq; done.
Qed.

(** The nonces of the answers to disco packets. *)
Fixpoint pong_nonces (inputs : list (bytes * Source * bytes)) (rs : list (option (Action * bytes))) : list bytes :=
  match inputs, rs with
  | (packet, _, _) :: inputs, r :: rs =>
      match r with
      | Some (Reply _, o) => if is_disco packet then take 24 (drop 38 o) :: pong_nonces inputs rs else pong_nonces inputs rs
      | _ => pong_nonces inputs rs
      end
  | _, _ => []
  end.

Lemma pong_nonces_run inputs n n' rs :
  node_ok n -> Forall (fun x => source_ok x.1.2) inputs -> (Z.of_nat (length inputs) < 256 ^ 24)%Z ->
  handle_all n inputs = Ok (n', rs) ->
  NoDup (pong_nonces inputs rs) /\
  Forall (fun c => exists b, (1 <= b <= Z.of_nat (length inputs))%Z /\ from_le c = ((from_le (n_nonce n) + b) mod 256 ^ 24)%Z)
    (pong_nonces inputs rs).
Proof.
  revert n rs. induction inputs as [|[[packet from] out] inputs IH]; intros n rs Hn Hf Hl; cbn [handle_all].
  { intros [= <- <-]. split; constructor. }
  apply List.Forall_cons_iff in Hf as [Hf1 Hf]. cbn [fst snd] in Hf1. cbn [length] in Hl |- *.
  destruct (handle_total n packet from out Hn Hf1) as (n1 & r & Hh & Hn1 & _). rewrite Hh. cbn [obind].
  intros ([n2 rs1] & Ha & Hrs)%obind_Ok_inv. injection Hrs as <- <-.
  destruct (IH n1 rs1 Hn1 Hf ltac:(lia) Ha) as [Hnd Hall]. pose proof Hn as (_ & _ & _ & Hnl & _).
  destruct (handle_nonce n packet from out n1 r Hn Hf1 Hh) as [[Hnn Hr]|[Hnn Hr]].
  - rewrite Hnn in Hall. assert (pong_nonces ((packet, from, out) :: inputs) (r :: rs1) = pong_nonces inputs rs1) as ->.
    { cbn [pong_nonces]. destruct r as [[[k|k] o]|]; try done. destruct (is_disco packet); [|done]. by specialize (Hr eq_refl). }
    split; [done|]. refine (List.Forall_impl _ _ Hall). intros c (b & Hb & Hc). exists b. split; [lia|done].
  - rewrite Hnn, bump_value, Hnl in Hall. change (256 ^ Z.of_nat 24)%Z with (256 ^ 24)%Z in Hall. set (v := from_le (n_nonce n)) in *.
    assert (Forall (fun c => exists b, (2 <= b <= Z.of_nat (S (length inputs)))%Z /\ from_le c = ((v + b) mod 256 ^ 24)%Z) (pong_nonces inputs rs1)) as Hall'.
    { refine (List.Forall_impl _ _ Hall). intros c (b & Hb & Hc). exists (b + 1)%Z. split; [lia|]. rewrite Hc, Zplus_mod_idemp_l. f_equal. lia. }
    assert (Forall (fun c => exists b, (1 <= b <= Z.of_nat (S (length inputs)))%Z /\ from_le c = ((v + b) mod 256 ^ 24)%Z) (pong_nonces inputs rs1)) as Hall1.
    { refine (List.Forall_impl _ _ Hall'). intros c (b & Hb & Hc). exists b. split; [lia|done]. }
    cbn [pong_nonces]. destruct r as [[[k|k] o]|]; try by split. destruct (is_disco packet); [|by split].
    assert (from_le (take 24 (drop 38 o)) = ((v + 1) mod 256 ^ 24)%Z) as Hv by (by rewrite (Hr k o eq_refl), Hnn, bump_value, Hnl).
    split; [|constructor; [exists 1%Z; split; [lia|done]|done]]. constructor; [|done].
    intros Hin%list_elem_of_In. rewrite List.Forall_forall in Hall'. destruct (Hall' _ Hin) as (b & Hb & Hc).
    rewrite Hv in Hc. assert (((v + b) - (v + 1)) mod 256 ^ 24 = 0)%Z as Hz by (rewrite Zminus_mod, <- Hc, Z.sub_diag; done).
    rewrite Z.mod_small in Hz by lia. lia.
Qed.

(** No two pongs share a nonce: in any run of fewer than 2^192 datagrams the
    nonces of the answers to disco packets are pairwise distinct. *)
Theorem pong_nonces_fresh inputs n n' rs :
  node_ok n -> Forall (fun x => source_ok x.1.2) inputs -> (Z.of_nat (length inputs) < 2 ^ 192)%Z ->
  handle_all n inputs = Ok (n', rs) -> NoDup (pong_nonces inputs rs).
Proof. intros Hn Hf Hl Ha. by eapply pong_nonces_run. Qed.

(** ** Where the code falls short of its comments *)

(** C32. The comment on the seed promises a fresh secret ephemeral; it is a function
    of the index and length in the packets on the wire, so the response tells
    the private key behind the ephemeral it carries. *)
Lemma ephemeral_on_the_wire n packet from out n' response :
  node_ok n -> packet !! 0 = Some MSG_INITIATION -> 92 <= length out ->
  handle (E:=E) n packet from out = Ok (n', Some (Reply 92, response)) ->
  take 32 (drop 12 response) = pub_bytes (public_of (Private (k:=Keys.Node) (ephemeral_seed (from_le (take 4 (drop 4 response))) (length packet)))).
Proof.
  intros Hn Hkind Ho. rewrite (handle_kind _ _ _ _ _ Hkind) by done. rewrite decide_True by done. intros Hh.
  destruct (consume_initiation_no_panic (n_node_key n) packet) as [(e & Hc & _)|[[r i] Hc]].
  { unfold handle_initiation in Hh. rewrite Hc in Hh. done. }
  destruct (handle_initiation_eq n packet r i from out Hn Hc) as (m & keys & Hr & Hm & _ & Hi). rewrite Hi, decide_False in Hh by lia.
  assert (response = m ++ drop 92 out) as -> by congruence. clear Hh Hi.
  pose proof (consume_initiation_Ok_inv _ _ _ _ Hc) as (_ & _ & _ & _ & Hs & _ & _ & Hps & _).
  apply respond_fields in Hr as [H1 H2]; [|done|by rewrite Hs].
  rewrite !drop_app_le, !take_app_le by (rewrite ?length_drop; lia). rewrite H1, H2.
  destruct Hn as (_ & _ & _ & _ & ? & _). by rewrite from_to_le_small by lia.
Qed.

(** Nor is the timestamp of an initiation looked at: the same bytes are accepted
    again at any later time, and replace the session of the peer and the address
    its traffic goes to by the sender's. *)
Lemma initiation_replayed n packet from out n' o later from' :
  node_ok n -> node_ok later -> n_node_key later = n_node_key n -> packet !! 0 = Some MSG_INITIATION -> 92 <= length out ->
  handle (E:=E) n packet from out = Ok (n', Some (Reply 92, o)) ->
  exists later' o' slot, handle (E:=E) later packet from' out = Ok (later', Some (Reply 92, o')) /\
    n_peer later' = Some slot /\ slot_source slot = from' /\ send_counter (slot_session slot) = 0%Z /\ replay (slot_session slot) = rw_new.
Proof.
  intros Hn Hl Hk Hkind Ho. rewrite !(handle_kind _ _ _ _ _ Hkind) by done. rewrite !decide_True by done. intros Hh.
  destruct (consume_initiation_no_panic (n_node_key n) packet) as [(e & Hc & _)|[[r i] Hc]].
  { unfold handle_initiation in Hh. rewrite Hc in Hh. done. }
  rewrite <- Hk in Hc. destruct (handle_initiation_eq later packet r i from' out Hl Hc) as (response & keys & _ & _ & _ & ->).
  rewrite decide_False by lia. eexists _, _, _. split_and!; done.
Qed.
End NodeProofs.

(** *** Examples, with the toy primitives *)
#[local] Existing Instances Toy.toy Toy.toy_laws.

Definition example_node : Node :=
  {| n_node_key := Private (replicate 32 x02); n_disco_key := Private (replicate 32 x05);
     n_disco_public := public_of (Private (replicate 32 x05)); n_nonce := zeros 24; n_peer := None; n_next_index := 9 |}.

Lemma example_node_ok : node_ok example_node.
Proof. split_and!; (reflexivity || done). Qed.

Lemma node_total_witness :
  exists n n' rs, node_new (E:=Empty_set) (Private (replicate 32 x02)) (Private (replicate 32 x05)) 7 = Ok n /\
    handle_all (E:=Empty_set) n [(bs "junk", Udp [x0a; x00; x00; x01] 9, zeros 100); (x01 :: zeros 147, Derp (zeros 32), zeros 10)] = Ok (n', rs) /\ length rs = 2.
Proof.
  destruct (node_total (E:=Empty_set) (Private (replicate 32 x02)) (Private (replicate 32 x05)) 7
    [(bs "junk", Udp [x0a; x00; x00; x01] 9, zeros 100); (x01 :: zeros 147, Derp (zeros 32), zeros 10)]) as (n & n' & rs & H1 & H2 & H3 & _);
    [reflexivity|reflexivity|lia|repeat constructor|]. exists n, n', rs. split; [exact H1|]. split; [exact H2|exact H3].
Defined.

Lemma node_serves_peer_witness :
  let sequence := [Up (bs "syn"); Down (bs "syn-ack"); Down (bs "data"); Up (bs "ack")] in
  exists i m1 n' response ki n'' s,
    initiator_new (Private (replicate 32 x01)) (public_of (Private (replicate 32 x02))) (Private (replicate 32 x03)) 7 (zeros 12) = Ok (i, m1) /\
    handle (E:=Empty_set) example_node m1 (Derp (zeros 32)) (zeros 1600) = Ok (n', Some (Reply 92, response ++ drop 92 (zeros 1600))) /\
    consume_response i response = Ok ki /\
    converse (E:=Empty_set) (Derp (zeros 32)) n' (session_new ki) sequence = Ok (n'', s, [padded (bs "syn"); padded (bs "syn-ack"); padded (bs "data"); padded (bs "ack")]).
Proof.
  apply (node_serves_peer (E:=Empty_set) (Private (replicate 32 x01)) (Private (replicate 32 x03)) 7 (zeros 12) example_node (Derp (zeros 32)) (zeros 1600)
    [Up (bs "syn"); Down (bs "syn-ack"); Down (bs "data"); Up (bs "ack")]);
    [apply example_node_ok|reflexivity|reflexivity|reflexivity|lia|vm_compute; lia|repeat constructor; vm_compute; lia|vm_compute; discriminate].
Defined.

Definition example_ping (tx : byte) : bytes :=
  default [] (Disco.sealed_packet (Private (replicate 32 x01)) (public_of (Private (replicate 32 x05))) (replicate 24 tx)
                (Disco.ping_body (replicate 12 tx) None [])).

Lemma pong_nonces_fresh_witness :
  exists n' rs, handle_all (E:=Empty_set) example_node
      [(example_ping x11, Udp [x0a; x00; x00; x01] 9, zeros 200); (example_ping x12, Derp (zeros 32), zeros 200)] = Ok (n', rs) /\
    pong_nonces [(example_ping x11, Udp [x0a; x00; x00; x01] 9, zeros 200); (example_ping x12, Derp (zeros 32), zeros 200)] rs
      = [x01 :: zeros 23; x02 :: zeros 23] /\
    NoDup (pong_nonces [(example_ping x11, Udp [x0a; x00; x00; x01] 9, zeros 200); (example_ping x12, Derp (zeros 32), zeros 200)] rs).
Proof.
  eexists _, _. split; [vm_compute; reflexivity|]. split; [vm_compute; reflexivity|].
  eapply (pong_nonces_fresh (E:=Empty_set) _ example_node); [apply example_node_ok|repeat constructor|vm_compute; reflexivity|vm_compute; reflexivity].
Defined.

Definition example_initiation : bytes :=
  match initiator_new (Private (replicate 32 x01)) (public_of (Private (replicate 32 x02))) (Private (replicate 32 x03)) 77 (zeros 12) with
  | Ok (_, m) => m
  | _ => []
  end.

Lemma ephemeral_on_the_wire_witness : exists n' response,
  handle (E:=Empty_set) example_node example_initiation (Derp (zeros 32)) (zeros 100) = Ok (n', Some (Reply 92, response)) /\
  take 32 (drop 12 response) = pub_bytes (public_of (Private (k:=Keys.Node) (ephemeral_seed (from_le (take 4 (drop 4 response))) 148))).
Proof.
  eexists _, _. split; [vm_compute; reflexivity|].
  eapply (ephemeral_on_the_wire (E:=Empty_set) example_node example_initiation (Derp (zeros 32)) (zeros 100));
    [exact example_node_ok|vm_compute; reflexivity|vm_compute; lia|vm_compute; reflexivity].
Defined.

Lemma initiation_replayed_witness :
  exists later' o' slot, handle (E:=Empty_set) example_node example_initiation (Udp [x0a; x00; x00; x09] 9) (zeros 100) = Ok (later', Some (Reply 92, o')) /\
    n_peer later' = Some slot /\ slot_source slot = Udp [x0a; x00; x00; x09] 9 /\ send_counter (slot_session slot) = 0%Z /\ replay (slot_session slot) = rw_new.
Proof.
  eapply (initiation_replayed (E:=Empty_set) example_node example_initiation (Derp (zeros 32)) (zeros 100) _ _ example_node);
    [exact example_node_ok|exact example_node_ok|reflexivity|vm_compute; reflexivity|vm_compute; lia|vm_compute; reflexivity].
Defined.
