(* ===== verification/FwDerp.v ===== *)
(** The relay connection of the firmware: [lando-fw/src/derp.rs].

    The TLS connection and the channel [DERP_OUT] are the environment: a value
    [W] that every operation on them takes and gives back, [RelayLink] the
    operations and [RelayLinkView] what is relied on. Everything else that runs
    on the device meanwhile is in [W] too, so that what the channel holds when,
    and which side of the [select] wins, is up to [W]: the theorems hold for
    every schedule.

    The connection shares the node and the tunnel with other tasks, and what it
    did to them stays when it ends: a computation gives the world back, errors
    included ([StateError]). *)
From S2P Require Import Prelude StateError Crypto Framing Socket DerpFrame DerpHandshake WgNode.

Inductive DerpError := Dns | Connect | Tls | Io | Upgrade | Protocol.

Definition UPGRADE_PATH : bytes := bs "/derp".
Definition UPGRADE_PROTOCOL : bytes := bs "DERP".

(** A TLS connection and the channel of packets for the relay. *)
Class RelayLink (W : Type) := {
  #[global] link_socket :: SocketOps W;
  (** [tls.flush()] *)
  link_flush : W -> W * bool;
  (** [DERP_OUT.try_receive()] *)
  link_try_receive : W -> W * option Relayed;
  (** [select(tls.read(..), DERP_OUT.receive())], the read into so many bytes *)
  link_select : W -> nat -> W * (option bytes + Relayed);
}.

(** The world of the connection: its link, the node and the LAN side. *)
Record World (W T : Type) := { link : W; node : Node; lan : T }.
Arguments link {W T}.
Arguments node {W T}.
Arguments lan {W T}.

(** [reader], [staged] and [staged_len] of [run]. *)
Record Staging := { reader : FrameReader; staged : bytes; staged_len : nat }.

(** The locals of [pump]; [input] is what it was called with. *)
Record Pump := { input : Staging; pos : nat; assembled : bytes; filled : nat; out : bytes; peer_key : option bytes }.

(** The match on what [feed] gave, in [pump] and [next_frame]: the buffer, how
    much of it is filled and, at the end of a frame, its kind and length. *)
Definition gather (assembled : bytes) (filled : nat) (parsed : Frame) : outcome DerpError (bytes * nat * option (FrameType * nat)) :=
  match parsed with
  | Control kind payload =>
      let? src := as_slice payload in
      let n := length src `min` length assembled in
      let? src := slice src 0 n in
      let? assembled := copy_range assembled 0 n src in
      Ok (assembled, filled, Some (kind, n))
  | Body kind _ chunk ends =>
      let? room := nsub (length assembled) filled in
      let n := length chunk `min` room in
      let? src := slice chunk 0 n in
      let? assembled := copy_range assembled filled (filled + n) src in
      let filled := filled + n in
      if (ends : bool) then Ok (assembled, 0, Some (kind, filled)) else Ok (assembled, filled, None)
  end.

(** [while pos < *staged_len] in [pump] *)
Fixpoint parse_loop (fuel : nat) (p : Pump) : outcome DerpError (Pump * option (FrameType * nat)) :=
  match fuel with
  | O => NoFuel
  | S fuel =>
      let s := input p in
      if decide (pos p < staged_len s) then
        let? bytes := slice (staged s) (pos p) (staged_len s) in
        let? (r, used, parsed) := map_err (fun _ => Protocol) (feed (reader s) bytes) in
        let s := {| reader := r; staged := staged s; staged_len := staged_len s |} in
        let p := {| input := s; pos := pos p + used; assembled := assembled p; filled := filled p; out := out p; peer_key := peer_key p |} in
        match parsed with
        | None => if decide (used = 0) then Ok (p, None) else parse_loop fuel p
        | Some parsed =>
            let? (a, f, frame) := gather (assembled p) (filled p) parsed in
            let p := {| input := s; pos := pos p; assembled := a; filled := f; out := out p; peer_key := peer_key p |} in
            match frame with
            | Some frame => Ok (p, Some frame)
            | None => parse_loop fuel p
            end
        end
      else Ok (p, None)
  end.

(** [staged.copy_within(pos..*staged_len, 0)] and [*staged_len -= pos] *)
Definition reclaim (s : Staging) (pos : nat) : outcome DerpError Staging :=
  let? b := copy_down (staged s) pos (staged_len s) in
  let? n := nsub (staged_len s) pos in
  Ok {| reader := reader s; staged := b; staged_len := n |}.

(** [build_upgrade] *)
Fixpoint put_parts (parts : list bytes) (out : bytes) (n : nat) : outcome DerpError (bytes * nat) :=
  match parts with
  | [] => Ok (out, n)
  | part :: parts =>
      let? out := copy_range out n (n + length part) part in
      put_parts parts out (n + length part)
  end.
Definition upgrade_parts (host : bytes) : list bytes :=
  [bs "GET "; UPGRADE_PATH; bs " HTTP/1.1" ++ [x0d; x0a] ++ bs "Host: "; host;
   [x0d; x0a] ++ bs "Connection: Upgrade" ++ [x0d; x0a] ++ bs "Upgrade: "; UPGRADE_PROTOCOL; [x0d; x0a; x0d; x0a]].
Definition build_upgrade (host out : bytes) : outcome DerpError (bytes * nat) := put_parts (upgrade_parts host) out 0.

(** [find_headers_end] *)
Definition find_headers_end (buf : bytes) : option nat := (fun i => i + 4) <$> find_window [x0d; x0a; x0d; x0a] buf.

Abbreviation M W T := (SE (World W T) DerpError).

Section Relay.
Context `{P : Primitives} {W T : Type} `{RL : RelayLink W} `{LS : LanSide T}.

(** What a call of [Node::handle] that has nothing to send leaves in [out]:
    [WgNode.handle] does not say, so it is left open. *)
Variable scratch : bytes -> bytes -> bytes.

(** An operation on the link. *)
Definition on_link {A} (f : W -> W * A) : M W T A := fun w =>
  let (l, a) := f (link w) in ({| link := l; node := node w; lan := lan w |}, Ok a).
Definition set_node (n : Node) : M W T unit := modify (fun w => {| link := link w; node := n; lan := lan w |}).
Definition set_lan (t : T) : M W T unit := modify (fun w => {| link := link w; node := node w; lan := t |}).

(** [.await.map_err(|_| DerpError::Io)?] of a write. *)
Definition or_io (m : M W T bool) : M W T unit := do! ok := m in if (ok : bool) then ret tt else lift (Err Io).
(** The same of a read, and [if n == 0 { return Err(DerpError::Io) }]. *)
Definition some_bytes (b : option bytes) : M W T bytes :=
  do! b := lift (ok_or b Io) in if decide (length b = 0) then lift (Err Io) else ret b.
Definition read_some (room : nat) : M W T bytes := do! b := on_link (fun l => sock_read l room) in some_bytes b.

(** [write_frame] *)
Definition write_frame (kind : FrameType) (payload : bytes) : M W T unit :=
  do! (header, _) := lift (map_err (fun _ => Protocol) (write_header (zeros HEADER_LEN) kind (wrap 32 (Z.of_nat (length payload))))) in
  do! _ := or_io (on_link (fun l => sock_write l header)) in
  do! _ := or_io (on_link (fun l => sock_write l payload)) in
  or_io (on_link link_flush).

(** [send_packet] *)
Definition send_packet (dst packet : bytes) : M W T unit :=
  let frame := zeros (1600 + KEY_LEN) in
  let end_ := KEY_LEN + length packet in
  if decide (length frame < end_) then lift (Err Protocol)
  else
    do! frame := lift (copy_range frame 0 KEY_LEN dst) in
    do! frame := lift (copy_range frame KEY_LEN end_ packet) in
    do! payload := lift (slice frame 0 end_) in
    write_frame SendPacket payload.

(** [handle_frame]: [out] and [peer_key] as it leaves them. *)
Definition handle_frame (kind : FrameType) (payload out : bytes) (peer : option bytes) : M W T (bytes * option bytes) :=
  match kind with
  | RecvPacket =>
      if decide (KEY_LEN < length payload) then
        do! src := lift (slice payload 0 KEY_LEN) in
        do! packet := lift (slice payload KEY_LEN (length payload)) in
        do! w := get_state in
        do! (n, action) := lift (handle (node w) packet (Derp src) out) in
        do! _ := set_node n in
        match action with
        | Some (Reply n, out) =>
            do! packet := lift (slice out 0 n) in
            do! _ := send_packet src packet in
            ret (out, Some src)
        | Some (Deliver n, out) =>
            do! packet := lift (slice out 0 n) in
            do! w := get_state in
            do! _ := set_lan (deliver (lan w) packet) in
            ret (out, Some src)
        | None => ret (scratch packet out, Some src)
        end
      else ret (out, peer)
  | Ping =>
      if decide (8 <= length payload) then
        do! p := lift (slice payload 0 8) in
        do! _ := write_frame Pong p in
        ret (out, peer)
      else ret (out, peer)
  | _ => ret (out, peer)
  end.

(** [while let Ok(relayed) = DERP_OUT.try_receive()]; the fuel bounds what other
    tasks can add while this one sends. *)
Fixpoint drain_out (fuel : nat) (peer : bytes) : M W T unit :=
  match fuel with
  | O => lift NoFuel
  | S fuel =>
      do! r := on_link link_try_receive in
      match r with
      | None => ret tt
      | Some relayed =>
          do! packet := lift (relayed_slice relayed) in
          do! _ := send_packet peer packet in
          drain_out fuel peer
      end
  end.

(** The end of a turn of [pump], when nothing is left to parse. *)
Definition pump_wait (p : Pump) : M W T Pump :=
  let s := input p in
  if decide (staged_len s = length (staged s)) then lift (Err Protocol)
  else
    do! room := lift (nsub (length (staged s)) (staged_len s)) in
    do! next := on_link (fun l => link_select l room) in
    match next with
    | inl b =>
        do! b := some_bytes b in
        do! staged' := lift (copy_range (staged s) (staged_len s) (staged_len s + length b) b) in
        ret {| input := {| reader := reader s; staged := staged'; staged_len := staged_len s + length b |};
               pos := pos p; assembled := assembled p; filled := filled p; out := out p; peer_key := peer_key p |}
    | inr relayed =>
        match peer_key p with
        | Some peer =>
            do! packet := lift (relayed_slice relayed) in
            do! _ := send_packet peer packet in
            ret p
        | None => ret p
        end
    end.

(** A turn of [pump] after the drain: parse, reclaim what is parsed, then act on
    a frame or wait. *)
Definition pump_rest (p : Pump) : M W T Pump :=
  do! (p, frame) := lift (parse_loop (S (staged_len (input p))) p) in
  do! s := if decide (0 < pos p) then lift (reclaim (input p) (pos p)) else ret (input p) in
  let p := {| input := s; pos := 0; assembled := assembled p; filled := filled p; out := out p; peer_key := peer_key p |} in
  match frame with
  | Some (kind, len) =>
      do! payload := lift (slice (assembled p) 0 len) in
      do! (out, peer) := handle_frame kind payload (out p) (peer_key p) in
      ret {| input := s; pos := 0; assembled := assembled p; filled := filled p; out := out; peer_key := peer |}
  | None => pump_wait p
  end.

(** One turn of the loop of [pump]. *)
Definition pump_turn (fuel : nat) (p : Pump) : M W T Pump :=
  do! _ := match peer_key p with Some peer => drain_out fuel peer | None => ret tt end in
  pump_rest p.

Fixpoint pump_loop (fuel : nat) (p : Pump) : M W T unit :=
  match fuel with
  | O => lift NoFuel
  | S fuel' => do! p := pump_turn fuel p in pump_loop fuel' p
  end.

(** [pump] *)
Definition pump (fuel : nat) (s : Staging) : M W T unit :=
  do! _ := write_frame NotePreferred [x01] in
  pump_loop fuel {| input := s; pos := 0; assembled := zeros 1600; filled := 0; out := zeros 1600; peer_key := None |}.

(** The loop of [next_frame]. *)
Fixpoint next_loop (fuel : nat) (s : Staging) (assembled : bytes) (filled pos : nat) : M W T (Staging * (FrameType * bytes * nat)) :=
  match fuel with
  | O => lift NoFuel
  | S fuel =>
      do! (s, pos) :=
        if decide (pos = staged_len s) then
          do! b := read_some (length (staged s)) in
          do! staged' := lift (copy_range (staged s) 0 (length b) b) in
          ret ({| reader := reader s; staged := staged'; staged_len := length b |}, 0)
        else ret (s, pos) in
      do! bytes := lift (slice (staged s) pos (staged_len s)) in
      do! (r, used, frame) := lift (map_err (fun _ => Protocol) (feed (reader s) bytes)) in
      let s := {| reader := r; staged := staged s; staged_len := staged_len s |} in
      let pos := pos + used in
      match frame with
      | None =>
          if decide (used = 0) then
            do! s := lift (reclaim s pos) in
            do! room := lift (nsub (length (staged s)) (staged_len s)) in
            do! b := read_some room in
            do! staged' := lift (copy_range (staged s) (staged_len s) (staged_len s + length b) b) in
            next_loop fuel {| reader := reader s; staged := staged'; staged_len := staged_len s + length b |} assembled filled 0
          else next_loop fuel s assembled filled pos
      | Some frame =>
          do! (assembled, filled, done) := lift (gather assembled filled frame) in
          match done with
          | Some (kind, len) => do! s := lift (reclaim s pos) in ret (s, (kind, assembled, len))
          | None => next_loop fuel s assembled filled pos
          end
      end
  end.

(** [next_frame] *)
Definition next_frame (fuel : nat) (s : Staging) : M W T (Staging * (FrameType * bytes * nat)) := next_loop fuel s (zeros 512) 0 0.

(** [let body_at = loop { .. }] in [handshake]: the buffer, how much of it is
    read and where the body starts. *)
Fixpoint read_headers (fuel : nat) (buf : bytes) (have : nat) : M W T (bytes * nat * nat) :=
  match fuel with
  | O => lift NoFuel
  | S fuel =>
      if decide (have = length buf) then lift (Err Upgrade)
      else
        do! b := read_some (length buf - have) in
        do! buf := lift (copy_range buf have (have + length b) b) in
        let have := have + length b in
        do! got := lift (slice buf 0 have) in
        match find_headers_end got with
        | Some end_ => if starts_with buf (bs "HTTP/1.1 101") then ret (buf, have, end_) else lift (Err Upgrade)
        | None => read_headers fuel buf have
        end
  end.

(** The loop that waits for the server's key. *)
Fixpoint await_key (fuel : nat) (s : Staging) : M W T (Staging * bytes) :=
  match fuel with
  | O => lift NoFuel
  | S fuel' =>
      do! (s, (kind, payload, len)) := next_frame fuel s in
      if decide (kind = ServerKey) then
        do! payload := lift (slice payload 0 len) in
        do! key := lift (map_err (fun _ => Protocol) (parse_server_key payload)) in
        ret (s, key)
      else await_key fuel' s
  end.

(** The loop that waits for [ServerInfo]. *)
Fixpoint await_info (fuel : nat) (node_secret server_key : bytes) (s : Staging) : M W T (Staging * bytes) :=
  match fuel with
  | O => lift NoFuel
  | S fuel' =>
      do! (s, (kind, payload, len)) := next_frame fuel s in
      if decide (kind = ServerInfo) then
        do! payload := lift (slice payload 0 len) in
        do! _ := lift (map_err (fun _ => Protocol) (open node_secret server_key payload)) in
        ret (s, server_key)
      else await_info fuel' node_secret server_key s
  end.

(** [handshake] *)
Definition handshake (fuel : nat) (host node_secret node_public nonce : bytes) (s : Staging) : M W T (Staging * bytes) :=
  do! (request, n) := lift (build_upgrade host (zeros 256)) in
  do! request := lift (slice request 0 n) in
  do! _ := or_io (on_link (fun l => sock_write l request)) in
  do! _ := or_io (on_link link_flush) in
  do! (buf, have, body_at) := read_headers fuel (zeros 1024) 0 in
  do! len := lift (nsub have body_at) in
  do! body := lift (slice buf body_at have) in
  do! staged' := lift (copy_range (staged s) 0 len body) in
  do! (s, server_key) := await_key fuel {| reader := reader s; staged := staged'; staged_len := len |} in
  do! (payload, n) := lift (map_err (fun _ => Protocol) (client_info_payload node_secret node_public server_key nonce (zeros 256))) in
  do! payload := lift (slice payload 0 n) in
  do! _ := write_frame ClientInfo payload in
  await_info fuel node_secret server_key s.

(** [run] from where TLS is up: the handshake, then the pump. *)
Definition run_link (fuel : nat) (host node_secret node_public nonce : bytes) : M W T unit :=
  do! (s, _) := handshake fuel host node_secret node_public nonce {| reader := new; staged := zeros 1024; staged_len := 0 |} in
  do! _ := pump fuel s in
  lift (Err Io).

(** What [run] needs to connect: random bytes, name resolution, a socket to an
    address and port, and TLS over it. *)
Class Dial (D : Type) := {
  fill_bytes : D -> nat -> D * bytes;
  dns_query : D -> bytes -> D * option (list bytes);
  tcp_connect : D -> bytes -> Z -> D * option W;
  tls_open : D -> W -> bytes -> D * option W;
}.

(** [run]: the error it ends with, and the node and the LAN side as it leaves them. *)
Definition relay_run {D : Type} `{Dial D} (fuel : nat) (d : D) (host node_secret node_public : bytes) (n : Node) (t : T) : Node * T * outcome Empty_set DerpError :=
  let (d, nonce) := fill_bytes d NONCE_LEN in
  let (d, addrs) := dns_query d host in
  match addrs with
  | None | Some [] => (n, t, Ok Dns)
  | Some (addr :: _) =>
      let (d, socket) := tcp_connect d addr 443 in
      match socket with
      | None => (n, t, Ok Connect)
      | Some socket =>
          let (d, tls) := tls_open d socket host in
          match tls with
          | None => (n, t, Ok Tls)
          | Some tls =>
              let (w, r) := run_link fuel host node_secret node_public nonce {| link := tls; node := n; lan := t |} in
              (node w, lan w, match r with Ok _ => Ok Io | Err e => Ok e | Panic => Panic | NoFuel => NoFuel end)
          end
      end
  end.
End Relay.

(** ** What is relied on *)

(** The stream of the link each way, and the packets other tasks will still hand
    over. [select] is one of the two; a read that loses the race took nothing. *)
Class RelayLinkView (W : Type) `{RelayLink W} := {
  #[global] link_view :: SocketView W;
  queued : W -> list Relayed;
  link_read_queued w n w' r : sock_read w n = (w', r) -> queued w' = queued w;
  link_write_queued w b w' r : sock_write w b = (w', r) -> queued w' = queued w;
  link_flush_view w w' : link_flush w = (w', true) -> inbound w' = inbound w /\ outbound w' = outbound w /\ queued w' = queued w;
  link_try_receive_view w w' r : link_try_receive w = (w', r) ->
    inbound w' = inbound w /\ outbound w' = outbound w /\ queued w = option_list r ++ queued w';
  link_select_view w n w' r : link_select w n = (w', r) ->
    match r with
    | inl (Some b) => length b <= n /\ inbound w = b ++ inbound w' /\ outbound w' = outbound w /\ (0 < n -> b = [] -> inbound w = []) /\ queued w' = queued w
    | inl None => outbound w' = outbound w /\ queued w' = queued w
    | inr relayed => inbound w' = inbound w /\ outbound w' = outbound w /\ queued w = relayed :: queued w'
    end;
}.

(** A link that stays up until the relay closes it. *)
Class RelayLinkUp (W : Type) `{RelayLinkView W} := {
  #[global] link_socket_up :: SocketUp W;
  link_flush_up w : exists w', link_flush w = (w', true);
  link_select_up w n w' : 0 < n -> link_select w n = (w', inl None) -> inbound w = [];
}.

(** [Relayed::new] makes these. *)
Definition relayed_ok (r : Relayed) : Prop := length (r_buf r) = 1600 /\ r_len r <= 1600.
Definition relayed_bytes (r : Relayed) : bytes := take (r_len r) (r_buf r).

(** ** What the connection is to do

    [serve] is what the node and its LAN side make of one frame of the relay or
    of one packet another task asks to send, and what goes out for it. *)
Inductive act := Heard (kind : FrameType) (payload : bytes) | Asked (packet : bytes).

Record Served (T : Type) := { at_node : Node; at_lan : T; reply_to : option bytes; buffer : bytes; sent : bytes }.
Arguments at_node {T}.
Arguments at_lan {T}.
Arguments reply_to {T}.
Arguments buffer {T}.
Arguments sent {T}.

Section Serve.
Context `{P : Primitives} {T : Type} `{LS : LanSide T}.
Variable scratch : bytes -> bytes -> bytes.

Definition sends (s : Served T) (kind : FrameType) (payload : bytes) : Served T :=
  {| at_node := at_node s; at_lan := at_lan s; reply_to := reply_to s; buffer := buffer s; sent := sent s ++ derp_wire kind payload |}.

(** A packet of a peer: replies go back to its key from now on. *)
Definition serve_packet (s : Served T) (src packet : bytes) : Served T :=
  match handle (E:=DerpError) (at_node s) packet (Derp src) (buffer s) with
  | Ok (n, Some (Reply k, o)) =>
      sends {| at_node := n; at_lan := at_lan s; reply_to := Some src; buffer := o; sent := sent s |} SendPacket (src ++ take k o)
  | Ok (n, Some (Deliver k, o)) =>
      {| at_node := n; at_lan := deliver (at_lan s) (take k o); reply_to := Some src; buffer := o; sent := sent s |}
  | Ok (n, None) =>
      {| at_node := n; at_lan := at_lan s; reply_to := Some src; buffer := scratch packet (buffer s); sent := sent s |}
  | _ => s
  end.

Definition serve (s : Served T) (a : act) : Served T :=
  match a with
  | Heard RecvPacket p => if decide (KEY_LEN < length p) then serve_packet s (take KEY_LEN p) (drop KEY_LEN p) else s
  | Heard Ping p => if decide (8 <= length p) then sends s Pong (take 8 p) else s
  | Heard _ _ => s
  | Asked packet => match reply_to s with Some peer => sends s SendPacket (peer ++ packet) | None => s end
  end.

(** A frame as [handle_frame] gets it. *)
Definition received (f : FrameType * bytes) : FrameType * bytes := (f.1, take 1600 (whole f).2).

Definition heard (a : act) : option (FrameType * bytes) := match a with Heard k p => Some (k, p) | Asked _ => None end.
Definition asked (a : act) : option bytes := match a with Asked p => Some p | Heard _ _ => None end.
End Serve.

(** ** Proofs: putting frames together *)

(** [gather] keeps the first bytes of the body as far as they fit. *)
Lemma gather_spec a filled held i : filled <= length a -> take filled a = take (length a) held -> item_ok i ->
  (forall k p, i = Control k p -> held = []) ->
  exists a' filled' d, gather a filled i = Ok (a', filled', d) /\ length a' = length a /\ filled' <= length a /\
    take filled' a' = take (length a) (assemble held (frame_item i)).1 /\
    match d with
    | None => (assemble held (frame_item i)).2 = []
    | Some (k, n) => n <= length a /\ (assemble held (frame_item i)).1 = [] /\
        exists p, (assemble held (frame_item i)).2 = [(k, p)] /\ take n a' = take (length a) p
    end.
Proof.
  intros Hf Ht Hi Hc. rewrite assemble_item by done. destruct i as [k p|k n chunk ends]; cbn [gather item_ok] in *.
  - specialize (Hc _ _ eq_refl) as ->. unfold as_slice. rewrite slice_to by done. cbn [obind]. set (src := take (cp_len p) (cp_buf p)).
    set (n := length src `min` length a). rewrite slice_to by lia. cbn [obind].
    assert (length (take n src) = n) as Hn by (rewrite length_take; lia). rewrite copy_range_ok by lia. cbn [obind].
    eexists _, filled, _. split; [done|]. rewrite length_overwrite by lia. cbn [fst snd]. rewrite take_nil in *.
    assert (filled = 0) as ->. { apply (f_equal length) in Ht. rewrite length_take in Ht. simpl in Ht. lia. }
    split_and!; try (done || lia). exists src. split; [done|]. pose proof (take_overwrite a 0 (take n src) ltac:(lia)) as Hov.
    rewrite Hn, take_0 in Hov. cbn [Nat.add app] in Hov. rewrite Hov.
    unfold n. destruct (decide (length src <= length a)); [by rewrite !take_ge by lia|]. f_equal. lia.
  - rewrite nsub_ok by done. cbn [obind]. set (m := length chunk `min` (length a - filled)). rewrite slice_to by lia. cbn [obind].
    assert (length (take m chunk) = m) as Hm by (rewrite length_take; lia). rewrite copy_range_ok by lia. cbn [obind].
    assert (take (filled + m) (overwrite a filled (take m chunk)) = take (length a) (held ++ chunk)) as Htk.
    { rewrite <- Hm at 1. rewrite take_overwrite, Ht by done. rewrite take_app.
      assert (filled = length a `min` length held) as Hfl by (apply (f_equal length) in Ht; rewrite !length_take in Ht; lia).
      f_equal. unfold m. destruct (decide (length chunk <= length a - filled)).
      - rewrite !take_ge by lia. done.
      - f_equal. lia. }
    destruct ends; eexists _, _, _; (split; [done|]); rewrite length_overwrite by lia; cbn [fst snd].
    + rewrite take_nil, take_0. split_and!; try (done || lia). by eexists.
    + split_and!; (done || lia).
Qed.

(** Bytes staged and not yet parsed. *)
Definition unparsed (s : Staging) (pos : nat) : bytes := drop pos (take (staged_len s) (staged s)).

(** With [future] still to be read, the frames to come are [fs], the first one
    being what is held of it in [a] and the rest of it. *)
Definition reading (s : Staging) (pos : nat) (a : bytes) (filled : nat) (future : bytes) (fs : list (FrameType * bytes)) : Prop :=
  derp_ok (reader s) /\ pos <= staged_len s <= length (staged s) /\ length (staged s) = 1024 /\ filled <= length a /\
  exists held q ev rest, take filled a = take (length a) held /\ fits (derp_at (reader s)) held /\
    run derp_format (derp_at (reader s)) (unparsed s pos ++ future) = inr (q, ev) /\ assemble held ev = (rest, fs).

Definition with_reader (s : Staging) (r : FrameReader) : Staging := {| reader := r; staged := staged s; staged_len := staged_len s |}.

Lemma length_unparsed s pos : staged_len s <= length (staged s) -> length (unparsed s pos) = staged_len s - pos.
Proof. intros. unfold unparsed. rewrite length_drop, length_take. lia. Qed.

Lemma unparsed_slice s pos : pos <= staged_len s <= length (staged s) -> slice (E:=DerpError) (staged s) pos (staged_len s) = Ok (unparsed s pos).
Proof. intros. rewrite slice_ok by lia. by rewrite <- skipn_firstn_comm. Qed.

(** Once a frame is complete nothing is held of the next. *)
Definition ready_for (s : Staging) (pos : nat) (future : bytes) (fs : list (FrameType * bytes)) : Prop :=
  forall a filled, filled <= length a -> take filled a = [] -> reading s pos a filled future fs.

Lemma reading_ready s pos q ev rest future fs : derp_ok (reader s) -> pos <= staged_len s <= length (staged s) -> length (staged s) = 1024 ->
  fits (derp_at (reader s)) [] -> run derp_format (derp_at (reader s)) (unparsed s pos ++ future) = inr (q, ev) -> assemble [] ev = (rest, fs) ->
  ready_for s pos future fs.
Proof. intros. intros a f Hf Ht. split_and!; try (done || lia). exists [], q, ev, rest. rewrite take_nil. by split_and!. Qed.

(** One item: the bytes used are gone, what they said is in the buffer. *)
Lemma reading_item s pos a filled future fs r used i : reading s pos a filled future fs -> pos < staged_len s ->
  feed (reader s) (unparsed s pos) = Ok (r, used, Some i) ->
  exists a' f d, gather a filled i = Ok (a', f, d) /\ length a' = length a /\ f <= length a /\ 0 < used /\ pos + used <= staged_len s /\
    match d with
    | None => reading (with_reader s r) (pos + used) a' f future fs
    | Some (k, n) => n <= length a /\ take f a' = [] /\ exists payload fs', fs = (k, payload) :: fs' /\ take n a' = take (length a) payload /\
        ready_for (with_reader s r) (pos + used) future fs'
    end.
Proof.
  intros (Hr & Hp & Hs & Hf & held & q & ev & rest & Hh & Hfit & Hrun & Has) Hlt Hfeed.
  pose proof (length_unparsed s pos ltac:(lia)) as Hlen.
  pose proof (feed_steps (FramingLaws:=derp_framing_laws) _ (unparsed s pos) 0 Hr) as Hst. rewrite Hfeed in Hst.
  destruct Hst as (Hr' & Hu & Hu0 & _ & Hst). cbn [from_option] in Hst. change (reader_at ?r) with (derp_at r) in Hst. change (item_events i) with (frame_item i) in Hst.
  pose proof (derp_item_ok _ _ _ _ _ Hr Hfeed) as Hi.
  assert (forall k p, i = Control k p -> held = []) as Hc.
  { intros k c ->. cbn [item_ok frame_item] in *. unfold as_slice in Hst. rewrite slice_to in Hst by done. by eapply captured_fits. }
  destruct (gather_spec a filled held i Hf Hh Hi Hc) as (a' & f & d & Hg & Hla & Hlf & Hta & Hd).
  exists a', f, d. split_and!; try (done || lia).
  rewrite <- (take_drop used (unparsed s pos)), <- app_assoc, (run_app_inr _ _ _ _ _ _ Hst) in Hrun.
  destruct (run derp_format (derp_at r) _) as [|[q' ev']] eqn:Hrun'; [done|]. injection Hrun as -> <-.
  rewrite assemble_app in Has. apply (run_fits _ _ _ _ held) in Hst; [|done].
  assert (drop used (unparsed s pos) = unparsed (with_reader s r) (pos + used)) as Hun by (unfold unparsed; cbn; by rewrite drop_drop).
  rewrite Hun in Hrun'. destruct (assemble held (frame_item i)) as [held' fs0]. cbn [fst snd] in *.
  destruct (assemble held' ev') as [rest' fs'] eqn:Has'. injection Has as -> <-. destruct d as [[k n]|].
  - destruct Hd as (Hn & -> & payload & -> & Htn). rewrite take_nil in Hta. split_and!; [done..|]. exists payload, fs'. split_and!; try done.
    apply (reading_ready _ _ q ev' rest); try done. cbn. lia.
  - rewrite Hd. split_and!; try (done || (cbn; lia)). exists held', q, ev', rest. by rewrite Hla.
Qed.

(** No item: everything staged was used. *)
Lemma reading_none s pos a filled future fs r used : reading s pos a filled future fs -> pos < staged_len s ->
  feed (reader s) (unparsed s pos) = Ok (r, used, None) -> used = staged_len s - pos /\ reading (with_reader s r) (pos + used) a filled future fs.
Proof.
  intros (Hr & Hp & Hs & Hf & held & q & ev & rest & Hh & Hfit & Hrun & Has) Hlt Hfeed.
  pose proof (length_unparsed s pos ltac:(lia)) as Hlen.
  pose proof (feed_steps (FramingLaws:=derp_framing_laws) _ (unparsed s pos) 0 Hr) as Hst. rewrite Hfeed in Hst.
  destruct Hst as (Hr' & Hu & Hu0 & Hnone & Hst). specialize (Hnone eq_refl). split; [lia|].
  change (reader_at ?r) with (derp_at r) in Hst. cbn [from_option] in Hst. rewrite take_ge in Hst by lia.
  split_and!; try (done || (cbn; lia)). exists held, q, ev, rest. split_and!; try done.
  - by apply (run_fits _ _ _ _ held) in Hst.
  - rewrite (run_app_inr _ _ _ _ _ _ Hst) in Hrun. unfold unparsed. cbn. rewrite drop_ge by (rewrite length_take; lia). cbn [app].
    destruct (run derp_format (derp_at r) future) as [|[q' ev']]; [done|]. by injection Hrun as -> <-.
Qed.

(** A stream within the limits is never refused. *)
Lemma reading_feed s pos a filled future fs : reading s pos a filled future fs ->
  exists r used i, feed (reader s) (unparsed s pos) = Ok (r, used, i).
Proof.
  intros (Hr & Hp & Hs & Hf & held & q & ev & rest & Hh & Hfit & Hrun & Has).
  pose proof (feed_steps (FramingLaws:=derp_framing_laws) _ (unparsed s pos) 0 Hr) as Hst.
  destruct (feed (reader s) (unparsed s pos)) as [[[r used] i]|e| |]; [by eexists _, _, _| |done..].
  destruct Hst as (n & Hn & He). rewrite <- (take_drop n (unparsed s pos)), <- app_assoc, run_app in Hrun.
  change (reader_at ?r) with (derp_at r) in He. by rewrite He in Hrun.
Qed.

(** When nothing is left, no frame is. *)
Lemma reading_end s a filled fs : reading s (staged_len s) a filled [] fs -> fs = [].
Proof.
  intros (Hr & Hp & Hs & Hf & held & q & ev & rest & Hh & Hfit & Hrun & Has).
  assert (unparsed s (staged_len s) = []) as Hu by (unfold unparsed; rewrite drop_ge; [done|rewrite length_take; lia]).
  rewrite Hu in Hrun. cbn [run app] in Hrun. simplify_eq. cbn [assemble] in Has. by simplify_eq.
Qed.

Lemma reclaim_spec s pos a filled future fs : reading s pos a filled future fs ->
  exists s', reclaim s pos = Ok s' /\ reading s' 0 a filled future fs /\ staged_len s' = staged_len s - pos.
Proof.
  intros (Hr & Hp & Hs & Hf & held & q & ev & rest & Hh & Hfit & Hrun & Has). unfold reclaim.
  destruct (copy_down_ok (E:=DerpError) (staged s) pos (staged_len s)) as (b & -> & Hl & Ht); [lia|lia|].
  cbn [obind]. rewrite nsub_ok by lia. cbn [obind]. eexists. split; [done|]. split; [|done].
  split_and!; cbn; try (done || lia). exists held, q, ev, rest. split_and!; try done.
  rewrite <- Hrun. f_equal. f_equal. unfold unparsed. cbn. rewrite Ht, drop_0. by rewrite skipn_firstn_comm.
Qed.

Lemma reclaim_ready s pos future fs : ready_for s pos future fs ->
  exists s', reclaim s pos = Ok s' /\ ready_for s' 0 future fs /\ staged_len s' = staged_len s - pos.
Proof.
  intros Hr. destruct (reclaim_spec s pos [] 0 future fs) as (s' & E & _ & Hl); [by apply Hr|].
  exists s'. split_and!; try done. intros a f Hf Ht. destruct (reclaim_spec s pos a f future fs) as (s2 & E2 & Hr2 & _); [by apply Hr|].
  by rewrite E in E2; simplify_eq.
Qed.

(** Bytes that arrive behind what is staged. *)
Lemma reading_more s a filled b future fs : reading s 0 a filled (b ++ future) fs -> staged_len s + length b <= 1024 ->
  reading {| reader := reader s; staged := overwrite (staged s) (staged_len s) b; staged_len := staged_len s + length b |} 0 a filled future fs.
Proof.
  intros (Hr & Hp & Hs & Hf & held & q & ev & rest & Hh & Hfit & Hrun & Has) Hb.
  split_and!; cbn; rewrite ?length_overwrite by lia; try (done || lia).
  exists held, q, ev, rest. split_and!; try done. rewrite <- Hrun. f_equal. unfold unparsed. cbn. rewrite !drop_0.
  rewrite take_overwrite by lia. by rewrite <- app_assoc.
Qed.

(** *** The parser of the pump *)

Definition pump_reading (p : Pump) (future : bytes) (fs : list (FrameType * bytes)) : Prop :=
  reading (input p) (pos p) (assembled p) (filled p) future fs /\ length (assembled p) = 1600.

(** What a pass of the parser keeps. *)
Definition same_pump (p p' : Pump) : Prop := out p' = out p /\ peer_key p' = peer_key p /\ staged_len (input p') = staged_len (input p).

(** The parser runs until a frame is complete or nothing is left. *)
Lemma parse_loop_spec fuel p future fs : pump_reading p future fs -> staged_len (input p) - pos p < fuel ->
  exists p' d, parse_loop fuel p = Ok (p', d) /\ same_pump p p' /\
    match d with
    | None => pump_reading p' future fs /\ pos p' = staged_len (input p')
    | Some (k, n) => n <= 1600 /\ pos p < pos p' /\ exists payload fs', fs = (k, payload) :: fs' /\
        take n (assembled p') = take 1600 payload /\ pump_reading p' future fs'
    end.
Proof.
  revert p. induction fuel as [|fuel IH]; intros p [Hread Ha] Hfuel; [lia|]. cbn [parse_loop]. pose proof Hread as (_ & Hp & Hs & Hf & _).
  case_decide as Hlt; [|exists p, None; split_and!; (done || lia)].
  rewrite unparsed_slice by lia. cbn [obind]. destruct (reading_feed _ _ _ _ _ _ Hread) as (r & used & i & Hfeed). rewrite Hfeed. cbn [map_err obind].
  assert (forall p1, pump_reading p1 future fs -> same_pump p p1 -> pos p < pos p1 -> exists p' d, parse_loop fuel p1 = Ok (p', d) /\ same_pump p p' /\
    match d with
    | None => pump_reading p' future fs /\ pos p' = staged_len (input p')
    | Some (k, n) => n <= 1600 /\ pos p < pos p' /\ exists payload fs', fs = (k, payload) :: fs' /\
        take n (assembled p') = take 1600 payload /\ pump_reading p' future fs'
    end) as Hgo.
  { intros p1 Hr1 (Ho & Hk & Hl) Hpos. destruct (IH p1 Hr1 ltac:(lia)) as (p' & d & E & (Ho' & Hk' & Hl') & Hpost). exists p', d.
    split; [done|]. split; [split_and!; congruence|]. destruct d as [[k n]|]; [|done]. destruct Hpost as (? & ? & ?). split_and!; (done || lia). }
  destruct i as [i|].
  - destruct (reading_item _ _ _ _ _ _ r used i Hread Hlt Hfeed) as (a & f & d & Hg & Hla & Hlf & Hu & _ & Hd).
    cbn [assembled filled input staged staged_len pos out peer_key]. rewrite Hg. cbn [obind]. destruct d as [[k n]|].
    + destruct Hd as (Hn & Ht0 & payload & fs' & -> & Ht & Hready). rewrite Ha in *. eexists _, _. split; [done|]. split; [done|]. cbn.
      split_and!; try (done || lia). exists payload, fs'. split_and!; try done. split; [|by cbn]. apply Hready; [cbn; lia|done].
    + apply Hgo; [split; [exact Hd|cbn; congruence]|done|cbn; lia].
  - destruct (reading_none _ _ _ _ _ _ r used Hread Hlt Hfeed) as [-> Hread']. rewrite decide_False by lia.
    apply Hgo; [by split|done|cbn; lia].
Qed.

(** ** Proofs: the link *)
Section Pumping.
Context `{P : Primitives, L : !PrimitiveLaws P} {W T : Type} `{RL : RelayLink W, RV : !RelayLinkView W, RU : !RelayLinkUp W} `{LS : LanSide T}.
Variable scratch : bytes -> bytes -> bytes.
Hypothesis scratch_length : forall packet out, length (scratch packet out) = length out.

Lemma some_bytes_ok b (w : World W T) : length b <> 0 -> some_bytes (Some b) w = (w, Ok b).
Proof. intros Hb. unfold some_bytes. cbn [ok_or]. by rewrite bind_lift, decide_False. Qed.

(** The link after so many bytes went out and nothing else happened. *)
Definition wrote (w : World W T) (b : bytes) (w' : World W T) : Prop :=
  outbound (link w') = outbound (link w) ++ b /\ inbound (link w') = inbound (link w) /\ queued (link w') = queued (link w) /\
  node w' = node w /\ lan w' = lan w.

Lemma wrote_refl w : wrote w [] w.
Proof. unfold wrote. by rewrite app_nil_r. Qed.
Lemma wrote_trans a x b y c : wrote a x b -> wrote b y c -> wrote a (x ++ y) c.
Proof. unfold wrote. intros (-> & -> & -> & -> & ->) (-> & -> & -> & -> & ->). by rewrite app_assoc. Qed.

Lemma link_write_spec w b : exists w', or_io (on_link (fun l => sock_write l b)) w = (w', Ok tt) /\ wrote w b w'.
Proof.
  destruct (sock_write_up (link w) b) as [l E]. exists {| link := l; node := node w; lan := lan w |}.
  unfold or_io, bind, on_link. rewrite E. split; [done|]. pose proof (link_write_queued _ _ _ _ E). apply sock_write_view in E as [Ho Hi]. by split_and!.
Qed.

Lemma flush_spec w : exists w', or_io (on_link link_flush) w = (w', Ok tt) /\ wrote w [] w'.
Proof.
  destruct (link_flush_up (link w)) as [l E]. exists {| link := l; node := node w; lan := lan w |}.
  unfold or_io, bind, on_link. rewrite E. split; [done|]. apply link_flush_view in E as (Hi & Ho & Hq). unfold wrote. cbn. by rewrite app_nil_r.
Qed.

Lemma write_frame_spec w k p : (Z.of_nat (length p) < 2 ^ 32)%Z -> exists w', write_frame k p w = (w', Ok tt) /\ wrote w (derp_wire k p) w'.
Proof.
  intros Hl. unfold write_frame. rewrite write_header_spec by done. cbn [map_err]. rewrite bind_lift.
  unfold wrap. rewrite Z.mod_small by lia.
  destruct (link_write_spec w (frame_type_u8 k :: to_be 4 (Z.of_nat (length p)) ++ drop 5 (zeros HEADER_LEN))) as (w1 & E1 & H1).
  destruct (link_write_spec w1 p) as (w2 & E2 & H2). destruct (flush_spec w2) as (w3 & E3 & H3). exists w3.
  rewrite (bind_ok _ _ _ _ _ E1), (bind_ok _ _ _ _ _ E2). split; [exact E3|].
  pose proof (wrote_trans _ _ _ _ _ (wrote_trans _ _ _ _ _ H1 H2) H3) as H. rewrite app_nil_r in H.
  change (drop 5 (zeros HEADER_LEN)) with (@nil byte) in H. rewrite app_nil_r in H. exact H.
Qed.

Lemma send_packet_spec w dst packet : length dst = KEY_LEN -> length packet <= 1600 ->
  exists w', send_packet dst packet w = (w', Ok tt) /\ wrote w (derp_wire SendPacket (dst ++ packet)) w'.
Proof.
  intros Hd Hp. unfold send_packet, KEY_LEN in *. rewrite length_zeros, decide_False by lia.
  rewrite copy_range_ok by (rewrite ?length_zeros; lia). rewrite bind_lift.
  pose proof (overwrite_app [] (zeros (1600 + 32)) dst 0 eq_refl : overwrite (zeros (1600 + 32)) 0 dst = dst ++ _) as ->. rewrite Hd.
  assert (length (drop 32 (zeros (1600 + 32))) = 1600) as Hz by (rewrite length_drop, length_zeros; lia).
  set (z := drop 32 _) in *. clearbody z. rewrite copy_range_ok by (rewrite ?length_app; lia). rewrite bind_lift.
  rewrite overwrite_app by done. rewrite app_assoc, slice_app_l_exact by (rewrite length_app; lia). rewrite bind_lift.
  apply write_frame_spec. rewrite length_app. lia.
Qed.

(** What [serve] is about: the world, with [out] and [peer_key]. *)
Definition view (w : World W T) (out : bytes) (peer : option bytes) : Served T :=
  {| at_node := node w; at_lan := lan w; reply_to := peer; buffer := out; sent := outbound (link w) |}.
Definition served_ok (s : Served T) : Prop :=
  node_ok (at_node s) /\ length (buffer s) = 1600 /\ forall k, reply_to s = Some k -> length k = KEY_LEN.

(** Nothing was read and nothing taken from the queue. *)
Definition same_input (w w' : World W T) : Prop := inbound (link w') = inbound (link w) /\ queued (link w') = queued (link w).

Lemma wrote_view w k p w' out peer : wrote w (derp_wire k p) w' ->
  view w' out peer = sends (view w out peer) k p /\ same_input w w'.
Proof. intros (Ho & Hi & Hq & Hn & Hl). unfold view, sends. cbn. rewrite Ho, Hn, Hl. by split_and!. Qed.

Lemma handle_packet_spec w src packet out peer :
  length src = KEY_LEN -> served_ok (view w out peer) ->
  let s := serve_packet scratch (view w out peer) src packet in
  served_ok s /\ forall payload, payload = src ++ packet -> packet <> [] ->
  exists w' out', handle_frame scratch RecvPacket payload out peer w = (w', Ok (out', Some src)) /\
    view w' out' (Some src) = s /\ same_input w w'.
Proof.
  intros Hs (Hn & Hb & _) s. unfold view in Hn, Hb; cbn [at_node buffer] in Hn, Hb.
  destruct (handle_total (E:=DerpError) (node w) packet (Derp src) out Hn I) as (n & r & Hh & Hn' & Ha & _).
  unfold s, serve_packet, view. cbn [at_node buffer at_lan reply_to sent]. rewrite Hh. split.
  { destruct r as [[[k|k] o]|]; cbn [action_ok] in Ha; split_and!; cbn; try (done || lia || congruence || (by intros ? [= <-])). }
  intros payload -> Hp. unfold handle_frame. assert (length packet <> 0) by (by destruct packet). unfold KEY_LEN in *.
  rewrite decide_True by (rewrite length_app; lia). rewrite slice_app_l_exact by done. rewrite bind_lift.
  rewrite slice_from by (rewrite length_app; lia). rewrite bind_lift, drop_app_length' by done.
  rewrite bind_get, Hh, bind_lift. unfold set_node. rewrite bind_modify.
  destruct r as [[[k|k] o]|]; cbn [action_ok] in Ha.
  - destruct Ha as [Hk Ho]. rewrite slice_to by lia. rewrite bind_lift.
    destruct (send_packet_spec {| link := link w; node := n; lan := lan w |} src (take k o)) as (w' & E & Hw); [done|rewrite length_take; lia|].
    exists w', o. rewrite (bind_ok _ _ _ _ _ E). split; [done|]. by apply (wrote_view _ _ _ _ o (Some src)) in Hw as [Hv Hsame].
  - destruct Ha as [Hk Ho]. rewrite slice_to by lia. rewrite bind_lift, bind_get.
    unfold set_lan. rewrite bind_modify. by eexists _, _.
  - by eexists _, _.
Qed.

(** [handle_frame] serves a frame. *)
Lemma handle_frame_spec w kind payload out peer : served_ok (view w out peer) -> length payload <= 1600 ->
  exists w' out' peer', handle_frame scratch kind payload out peer w = (w', Ok (out', peer')) /\
    view w' out' peer' = serve scratch (view w out peer) (Heard kind payload) /\ served_ok (view w' out' peer') /\ same_input w w'.
Proof.
  intros Hok Hl. destruct kind; try (exists w, out, peer; by split_and!); unfold handle_frame, serve.
  - case_decide as Hk; [|exists w, out, peer; by split_and!]. unfold KEY_LEN in *.
    destruct (handle_packet_spec w (take 32 payload) (drop 32 payload) out peer) as [Hs Hh]; [rewrite length_take; unfold KEY_LEN; lia|done|].
    destruct (Hh payload) as (w' & out' & E & Hv & Hsame); [by rewrite take_drop|intros Hd; apply (f_equal length) in Hd; rewrite length_drop in Hd; simpl in Hd; lia|].
    exists w', out', (Some (take 32 payload)). unfold handle_frame in E. unfold KEY_LEN in E. rewrite decide_True in E by lia.
    split; [exact E|]. rewrite Hv. by split_and!.
  - case_decide as Hk; [|exists w, out, peer; by split_and!]. rewrite slice_to by lia. rewrite bind_lift.
    destruct (write_frame_spec w Pong (take 8 payload)) as (w' & E & Hw); [rewrite length_take; lia|].
    rewrite (bind_ok _ _ _ _ _ E). exists w', out, peer. split; [done|]. apply (wrote_view _ _ _ _ out peer) in Hw as [Hv Hsame].
    rewrite Hv. split_and!; try done; apply Hok.
Qed.

(** From [w] to [w'], some frames of [fs] were served, and some packets of the
    queue, in order; [fs'] and the rest of the queue are still to come. *)
Definition clip (f : FrameType * bytes) : FrameType * bytes := (f.1, take 1600 f.2).
Definition progress (s s' : Served T) (fs fs' : list (FrameType * bytes)) (q q' : list Relayed) : Prop :=
  exists acts, s' = fold_left (serve scratch) acts s /\ omap heard acts ++ map clip fs' = map clip fs /\
    omap asked acts ++ map relayed_bytes q' = map relayed_bytes q.

Lemma progress_refl s fs q : progress s s fs fs q q.
Proof. by exists []. Qed.
Lemma progress_trans s1 s2 s3 fs1 fs2 fs3 q1 q2 q3 :
  progress s1 s2 fs1 fs2 q1 q2 -> progress s2 s3 fs2 fs3 q2 q3 -> progress s1 s3 fs1 fs3 q1 q3.
Proof.
  intros (a & -> & Hf & Hq) (b & -> & Hf' & Hq'). exists (a ++ b). rewrite fold_left_app, !omap_app, <- !app_assoc, Hf', Hq'. done.
Qed.

(** One packet of the queue. *)
Lemma progress_asked s fs r q : progress s (serve scratch s (Asked (relayed_bytes r))) fs fs (r :: q) q.
Proof. by exists [Asked (relayed_bytes r)]. Qed.

Lemma relayed_slice_ok r : relayed_ok r -> relayed_slice (E:=DerpError) r = Ok (relayed_bytes r) /\ length (relayed_bytes r) <= 1600.
Proof. intros [Hb Hl]. unfold relayed_slice, relayed_bytes. rewrite slice_to by lia. split; [done|]. rewrite length_take. lia. Qed.

Lemma send_asked w r out peer k : served_ok (view w out (Some k)) -> relayed_ok r -> peer = Some k ->
  exists w', bind (lift (relayed_slice r)) (send_packet k) w = (w', Ok tt) /\
    view w' out peer = serve scratch (view w out peer) (Asked (relayed_bytes r)) /\ served_ok (view w' out peer) /\ same_input w w'.
Proof.
  intros (Hn & Hb & Hk) Hr ->. destruct (relayed_slice_ok r Hr) as [-> Hl]. rewrite bind_lift.
  destruct (send_packet_spec w k (relayed_bytes r)) as (w' & E & Hw); [by apply Hk|done|]. exists w'. split; [done|].
  apply (wrote_view _ _ _ _ out (Some k)) in Hw as [Hv Hs]. rewrite Hv. by split_and!.
Qed.

Lemma drain_out_spec fuel k w out fs : served_ok (view w out (Some k)) -> Forall relayed_ok (queued (link w)) -> length (queued (link w)) < fuel ->
  exists w', drain_out fuel k w = (w', Ok tt) /\ progress (view w out (Some k)) (view w' out (Some k)) fs fs (queued (link w)) (queued (link w')) /\
    served_ok (view w' out (Some k)) /\ inbound (link w') = inbound (link w) /\ Forall relayed_ok (queued (link w')) /\
    length (queued (link w')) <= length (queued (link w)).
Proof.
  revert w. induction fuel as [|fuel IH]; intros w Hok Hq Hf; [lia|]. cbn [drain_out].
  destruct (link_try_receive (link w)) as [l r] eqn:E. set (w1 := {| link := l; node := node w; lan := lan w |}).
  assert (on_link link_try_receive w = (w1, Ok r)) as E1 by (unfold on_link; by rewrite E).
  rewrite (bind_ok _ _ _ _ _ E1). apply link_try_receive_view in E as (Hi & Ho & Hqe).
  assert (view w1 out (Some k) = view w out (Some k)) as Hv by (unfold view, w1; cbn; by rewrite Ho).
  rewrite Hqe in Hq, Hf. destruct r as [r|]; simpl in Hqe, Hq, Hf.
  - apply List.Forall_cons_iff in Hq as [Hr Hq]. destruct (send_asked w1 r out (Some k) k) as (w2 & E2 & Hv2 & Hok2 & Hi2 & Hq2); [by rewrite Hv|done..|].
    assert (bind (lift (relayed_slice r)) (fun packet => bind (send_packet k packet) (fun _ => drain_out fuel k)) w1 = drain_out fuel k w2) as ->.
    { destruct (relayed_slice_ok r Hr) as [Hsl _]. rewrite Hsl, bind_lift in *. by rewrite (bind_ok _ _ _ _ _ E2). }
    destruct (IH w2 Hok2) as (w' & E' & Hp & Hok' & Hi' & Hq' & Hl'); [by rewrite Hq2|rewrite Hq2; cbn; lia|].
    exists w'. split; [done|]. split_and!; try done; [|rewrite Hi', Hi2; exact Hi|rewrite Hqe; rewrite Hq2 in Hl'; simpl in *; lia].
    rewrite Hqe. eapply progress_trans; [apply (progress_asked _ fs r (queued l))|]. rewrite <- Hv, <- Hv2. change (queued l) with (queued (link w1)). by rewrite <- Hq2.
  - exists w1. unfold ret. rewrite Hqe, Hv. split_and!; try done. apply progress_refl.
Qed.

(** *** A turn of the pump *)

(** Between turns. *)
Definition serving (p : Pump) (w : World W T) (fs : list (FrameType * bytes)) : Prop :=
  pump_reading p (inbound (link w)) fs /\ pos p = 0 /\ served_ok (view w (out p) (peer_key p)) /\ Forall relayed_ok (queued (link w)).

(** What is left to do: a byte is read, then parsed. *)
Definition work (p : Pump) (w : World W T) : nat := 2 * length (inbound (link w)) + staged_len (input p) + length (queued (link w)).

(** What a turn does: it serves frames and packets, and there is less to do; or
    the relay has closed the connection, and every frame was served. *)
Definition turned (p : Pump) (w : World W T) (fs : list (FrameType * bytes)) (r : World W T * outcome DerpError Pump) : Prop :=
  match r with
  | (w', Ok p') => exists fs', serving p' w' fs' /\ work p' w' < work p w /\
      progress (view w (out p) (peer_key p)) (view w' (out p') (peer_key p')) fs fs' (queued (link w)) (queued (link w'))
  | (w', Err e) => e = Io /\ inbound (link w) = [] /\ exists out' peer',
      progress (view w (out p) (peer_key p)) (view w' out' peer') fs [] (queued (link w)) (queued (link w'))
  | _ => False
  end.

Lemma pump_wait_spec p w fs : serving p w fs -> staged_len (input p) = 0 -> turned p w fs (pump_wait p w).
Proof.
  intros ([Hread Ha] & Hpos & Hok & Hq) Hlen. pose proof Hread as (_ & _ & Hs & _). rewrite Hpos in Hread. unfold pump_wait. rewrite Hs, Hlen, decide_False by lia.
  rewrite nsub_ok by lia. rewrite bind_lift. destruct (link_select (link w) (1024 - 0)) as [l r] eqn:E.
  set (w1 := {| link := l; node := node w; lan := lan w |}).
  assert (on_link (fun l => link_select l (1024 - 0)) w = (w1, Ok r)) as E1 by (unfold on_link; by rewrite E).
  rewrite (bind_ok _ _ _ _ _ E1). cbn beta. destruct r as [[b|]|r]; pose proof (link_select_view _ _ _ _ E) as Hv.
  - destruct Hv as (Hb & Hi & Ho & He & Hqe). assert (view w1 (out p) (peer_key p) = view w (out p) (peer_key p)) as Hv by (unfold view, w1; cbn; by rewrite Ho).
    destruct (decide (length b = 0)) as [H0|H0].
    + apply nil_length_inv in H0 as ->. specialize (He ltac:(lia) eq_refl). rewrite (bind_err _ _ _ w1 Io) by done. split; [done|]. split; [done|].
      exists (out p), (peer_key p). change (link w1) with l. rewrite Hv, Hqe. rewrite He in Hread. rewrite <- Hlen in Hread. rewrite (reading_end _ _ _ _ Hread). apply progress_refl.
    + rewrite (bind_ok _ _ _ _ _ (some_bytes_ok b w1 H0)). rewrite copy_range_ok by lia. rewrite bind_lift. unfold ret. exists fs. cbn [out peer_key]. change (link w1) with l. rewrite Hv, Hqe.
      pose proof (reading_more (input p) (assembled p) (filled p) b (inbound l) fs) as Hmore. rewrite Hlen, <- Hi in Hmore. rewrite Hpos.
      split; [|split; [|apply progress_refl]].
      * unfold serving. change (link w1) with l. cbn [out peer_key pos]. rewrite Hv, Hqe. split; [split; [apply Hmore; (done || lia)|done]|]. by split_and!.
      * unfold work. change (link w1) with l. cbn [input staged_len]. rewrite Hqe, Hi, Hlen, length_app. lia.
  - destruct Hv as [Ho Hqe]. assert (view w1 (out p) (peer_key p) = view w (out p) (peer_key p)) as Hv by (unfold view, w1; cbn; by rewrite Ho).
    pose proof (link_select_up (link w) (1024 - 0) l ltac:(lia) E) as He. rewrite (bind_err _ _ _ w1 Io) by done. split; [done|]. split; [done|].
    exists (out p), (peer_key p). change (link w1) with l. rewrite Hv, Hqe. rewrite He in Hread. rewrite <- Hlen in Hread. rewrite (reading_end _ _ _ _ Hread). apply progress_refl.
  - destruct Hv as (Hi & Ho & Hqe). assert (view w1 (out p) (peer_key p) = view w (out p) (peer_key p)) as Hv by (unfold view, w1; cbn; by rewrite Ho).
    rewrite Hqe in Hq. apply List.Forall_cons_iff in Hq as [Hr Hq].
    assert (forall w2, view w2 (out p) (peer_key p) = serve scratch (view w1 (out p) (peer_key p)) (Asked (relayed_bytes r)) ->
      served_ok (view w2 (out p) (peer_key p)) -> same_input w1 w2 -> turned p w fs (w2, Ok p)) as Hdone.
    { intros w2 Hv2 Hok2 [Hi2 Hq2]. exists fs. unfold serving, work. rewrite Hi2, Hq2. change (link w1) with l. rewrite Hi.
      split; [rewrite <- Hpos in Hread; by split_and!|]. rewrite Hqe. split; [cbn [length]; lia|]. rewrite Hv2, Hv. apply progress_asked. }
    destruct (peer_key p) as [k|] eqn:Ek.
    + destruct (send_asked w1 r (out p) (Some k) k) as (w2 & E2 & Hv2 & Hok2 & Hs2); [by rewrite Hv|done..|].
      destruct (relayed_slice_ok r Hr) as [Hsl _]. rewrite Hsl, bind_lift in E2. rewrite Hsl, bind_lift, (bind_ok _ _ _ _ _ E2). unfold ret. by apply Hdone.
    + unfold ret. apply Hdone; [done|by rewrite Hv|done].
Qed.

(** After the drain: parse, reclaim, and serve a frame or wait. *)
Lemma pump_rest_spec p w fs : serving p w fs -> turned p w fs (pump_rest scratch p w).
Proof.
  intros (Hread & Hpos & Hok & Hq). unfold pump_rest.
  destruct (parse_loop_spec (S (staged_len (input p))) p _ fs Hread ltac:(lia)) as (p1 & d & -> & (Ho & Hk & Hsl) & Hd). rewrite bind_lift.
  assert (exists fs1, pump_reading p1 (inbound (link w)) fs1 /\ match d with None => fs1 = fs /\ pos p1 = staged_len (input p1)
     | Some (k, n) => n <= 1600 /\ 0 < pos p1 /\ exists payload, fs = (k, payload) :: fs1 /\ take n (assembled p1) = take 1600 payload end) as (fs1 & Hread1 & Hd1).
  { destruct d as [[k n]|]; [|exists fs; by destruct Hd]. destruct Hd as (Hn & Hp & payload & fs' & -> & Ht & Hr'). exists fs'. split_and!; [done|done|lia|]. by exists payload. }
  clear Hd. set (next := fun s => _).
  assert (exists s, (if decide (0 < pos p1) then lift (reclaim (input p1) (pos p1)) else ret (input p1)) w = (w, Ok s) /\
    reading s 0 (assembled p1) (filled p1) (inbound (link w)) fs1 /\
    staged_len s = staged_len (input p1) - pos p1) as (s & Es & Hread2 & Hsl2).
  { case_decide as H0.
    - destruct (reclaim_spec _ _ _ _ _ _ (proj1 Hread1)) as (s & -> & Hr2 & Hl2). by exists s.
    - assert (pos p1 = 0) as H1 by lia. exists (input p1). rewrite H1, Nat.sub_0_r. split; [done|]. split; [|done].
      rewrite <- H1. apply Hread1. }
  rewrite (bind_ok _ _ _ _ _ Es). unfold next. clear next Es. cbn [assembled out peer_key].
  set (p2 := {| input := s; pos := 0; assembled := assembled p1; filled := filled p1; out := out p1; peer_key := peer_key p1 |}) in *.
  destruct d as [[k n]|].
  - destruct Hd1 as (Hn & Hp & payload & -> & Ht). pose proof (proj2 Hread1) as Ha. rewrite slice_to by lia. rewrite bind_lift, Ht, Ho, Hk.
    destruct (handle_frame_spec w k (take 1600 payload) (out p) (peer_key p)) as (w' & out' & peer' & E & Hv & Hok' & Hi' & Hq'); [done|rewrite length_take; lia|].
    rewrite (bind_ok _ _ _ _ _ E). exists fs1. unfold serving, work. rewrite Hi', Hq'. cbn [out peer_key pos input]. split; [|split].
    + split_and!; try done; by split.
    + destruct Hread1 as [(_ & ? & _) _]. lia.
    + rewrite Hv. by exists [Heard k (take 1600 payload)].
  - destruct Hd1 as [-> Hp]. pose proof (pump_wait_spec p2 w fs) as Hw.
    assert (view w (out p2) (peer_key p2) = view w (out p) (peer_key p)) as Hv by (cbn; by rewrite Ho, Hk).
    unfold turned, serving in *. rewrite Hv in Hw. specialize (Hw ltac:(split_and!; try done; by split; [|apply Hread1]) ltac:(cbn; lia)).
    destruct (pump_wait p2 w) as [w' [p'|e| |]]; try done. destruct Hw as (fs' & Hs' & Hwk & Hprog). exists fs'. split_and!; try apply Hs'; try done.
    unfold work in *. cbn [p2 input] in Hwk. destruct Hread1 as [(_ & ? & _) _]. lia.
Qed.

Lemma pump_turn_spec fuel p w fs : serving p w fs -> length (queued (link w)) < fuel -> turned p w fs (pump_turn scratch fuel p w).
Proof.
  intros Hs Hf. unfold pump_turn. destruct (peer_key p) as [k|] eqn:Ek; [|rewrite (bind_ok _ _ w w tt) by done; by apply pump_rest_spec].
  pose proof Hs as (Hread & Hpos & Hok & Hq). rewrite Ek in Hok.
  destruct (drain_out_spec fuel k w (out p) fs Hok Hq Hf) as (w1 & E & Hp & Hok1 & Hi1 & Hq1 & Hl1). rewrite (bind_ok _ _ _ _ _ E).
  assert (serving p w1 fs) as Hs1 by (unfold serving; rewrite Hi1, Ek; by split_and!).
  pose proof (pump_rest_spec p w1 fs Hs1) as Ht. rewrite <- Ek in Hp. revert Ht.
  unfold turned. destruct (pump_rest scratch p w1) as [w' [p'|e| |]]; try done.
  - intros (fs' & Hs' & Hwk & Hprog). exists fs'. split; [done|]. split; [unfold work in *; rewrite Hi1 in Hwk; lia|]. by eapply progress_trans.
  - intros (-> & Hin & out' & peer' & Hprog). split; [done|]. split; [congruence|]. exists out', peer'. by eapply progress_trans.
Qed.

(** The pump serves every frame until the relay closes the connection. *)
Lemma relay_pump_spec fuel p w fs : serving p w fs -> work p w < fuel -> exists w' out' peer', pump_loop scratch fuel p w = (w', Err Io) /\
  progress (view w (out p) (peer_key p)) (view w' out' peer') fs [] (queued (link w)) (queued (link w')).
Proof.
  revert p w fs. induction fuel as [|fuel IH]; intros p w fs Hs Hf; [lia|]. cbn [pump_loop].
  pose proof (pump_turn_spec (S fuel) p w fs Hs) as Ht. unfold turned in Ht. destruct (pump_turn scratch (S fuel) p w) as [w1 [p1|e| |]] eqn:E;
    [|rewrite (bind_err _ _ _ _ _ E)|unfold work in Hf; exfalso; apply Ht; lia..].
  - destruct Ht as (fs1 & Hs1 & Hw & Hp); [unfold work in Hf; lia|]. rewrite (bind_ok _ _ _ _ _ E).
    destruct (IH p1 w1 fs1 Hs1 ltac:(lia)) as (w' & out' & peer' & E' & Hp'). exists w', out', peer'. split; [done|]. by eapply progress_trans.
  - destruct Ht as (-> & Hin & out' & peer' & Hp); [unfold work in Hf; lia|]. by exists w1, out', peer'.
Qed.
End Pumping.

(** ** Proofs: the handshake *)
Section Handshaking.
Context `{P : Primitives, L : !PrimitiveLaws P} {W T : Type} `{RL : RelayLink W, RV : !RelayLinkView W, RU : !RelayLinkUp W} `{LS : LanSide T}.

(** From [w] to [w'] only bytes were read. *)
Definition only_read (w w' : World W T) : Prop :=
  outbound (link w') = outbound (link w) /\ queued (link w') = queued (link w) /\ node w' = node w /\ lan w' = lan w.

Lemma only_read_refl w : only_read w w.
Proof. done. Qed.
Lemma only_read_trans a b c : only_read a b -> only_read b c -> only_read a c.
Proof. unfold only_read. intros (-> & -> & -> & ->). done. Qed.

Lemma read_some_spec room w : 0 < room -> inbound (link w) <> [] ->
  exists w' b, read_some room w = (w', Ok b) /\ 0 < length b <= room /\ inbound (link w) = b ++ inbound (link w') /\ only_read w w'.
Proof.
  intros Hr Hi. destruct (sock_read_up (link w) room Hr Hi) as (l & b & E).
  set (w1 := {| link := l; node := node w; lan := lan w |}).
  assert (on_link (fun l => sock_read l room) w = (w1, Ok (Some b))) as E1 by (unfold on_link; by rewrite E).
  pose proof (link_read_queued _ _ _ _ E) as Hq. apply sock_read_view in E as (Hb & Hin & Ho & He).
  assert (length b <> 0) as Hb0 by (intros H0; apply Hi, He; [done|by destruct b]).
  exists w1, b. unfold read_some. rewrite (bind_ok _ _ _ _ _ E1), some_bytes_ok by done. by split_and!; try lia.
Qed.

(** [next_frame] gives the next frame of the stream, its first 512 bytes. *)
Lemma next_loop_spec fuel s pos a filled w k payload fs :
  reading s pos a filled (inbound (link w)) ((k, payload) :: fs) -> length a = 512 ->
  2 * length (inbound (link w)) + (staged_len s - pos) < fuel ->
  exists w' s' a' n, next_loop fuel s a filled pos w = (w', Ok (s', (k, a', n))) /\ n <= length a' /\ take n a' = take 512 payload /\
    ready_for s' 0 (inbound (link w')) fs /\ only_read w w' /\ length (inbound (link w')) <= length (inbound (link w)) /\
    2 * length (inbound (link w')) + staged_len s' < 2 * length (inbound (link w)) + (staged_len s - pos).
Proof.
  revert s pos a filled w. induction fuel as [|fuel IH]; intros s pos a filled w Hread Ha Hf; [lia|]. cbn [next_loop].
  (* refill *)
  pose proof Hread as (_ & Hp0 & Hs0 & _).
  assert (exists w1 s1 pos1, (if decide (pos = staged_len s) then
      do! b := read_some (length (staged s)) in
      do! staged' := lift (copy_range (staged s) 0 (length b) b) in
      ret ({| reader := reader s; staged := staged'; staged_len := length b |}, 0) else ret (s, pos)) w = (w1, Ok (s1, pos1)) /\
    reading s1 pos1 a filled (inbound (link w1)) ((k, payload) :: fs) /\ pos1 < staged_len s1 /\ only_read w w1 /\
    2 * length (inbound (link w1)) + (staged_len s1 - pos1) <= 2 * length (inbound (link w)) + (staged_len s - pos) /\
    length (inbound (link w1)) <= length (inbound (link w))) as (w1 & s1 & pos1 & E & Hread1 & Hlt & Hor & Hm & Hi1).
  { case_decide as Hd; [|exists w, s, pos; split_and!; (done || lia)]. subst pos.
    assert (inbound (link w) <> []) as Hin by (intros Hn; rewrite Hn in Hread; by apply reading_end in Hread).
    destruct (read_some_spec (length (staged s)) w) as (w1 & b & E & Hb & Hi & Hor); [lia|done|].
    rewrite (bind_ok _ _ _ _ _ E), copy_range_ok by lia. rewrite bind_lift.
    exists w1, {| reader := reader s; staged := overwrite (staged s) 0 b; staged_len := length b |}, 0. split; [done|]. cbn [staged_len].
    rewrite Hi, length_app. split_and!; try (done || lia).
    destruct (reclaim_spec _ _ _ _ _ _ Hread) as (s0 & E0 & Hr0 & Hl0). rewrite Nat.sub_diag in Hl0. rewrite Hi in Hr0.
    destruct Hread as (Hr & Hp & Hs & Hf0 & held & q & ev & rest & Hh & Hfit & Hrun & Has).
    split_and!; cbn; rewrite ?length_overwrite by lia; try (done || lia). exists held, q, ev, rest. split_and!; try done.
    rewrite <- Hrun, Hi. f_equal. unfold unparsed. cbn. rewrite drop_0, (drop_ge (take _ _)) by (rewrite length_take; lia).
    cbn [app]. f_equal. pose proof (take_overwrite (staged s) 0 b ltac:(lia)) as Ht. by rewrite take_0 in Ht. }
  rewrite (bind_ok _ _ _ _ _ E). clear E. pose proof Hread1 as (_ & Hp1 & Hs1 & _).
  rewrite unparsed_slice by lia. rewrite bind_lift.
  destruct (reading_feed _ _ _ _ _ _ Hread1) as (r & used & i & Hfeed). rewrite Hfeed. cbn [map_err]. rewrite bind_lift.
  assert (forall a' f, length a' = 512 -> reading (with_reader s1 r) (pos1 + used) a' f (inbound (link w1)) ((k, payload) :: fs) -> 0 < used ->
    exists w' s' a'' n, next_loop fuel (with_reader s1 r) a' f (pos1 + used) w1 = (w', Ok (s', (k, a'', n))) /\ n <= length a'' /\ take n a'' = take 512 payload /\
    ready_for s' 0 (inbound (link w')) fs /\ only_read w w' /\ length (inbound (link w')) <= length (inbound (link w)) /\
    2 * length (inbound (link w')) + staged_len s' < 2 * length (inbound (link w)) + (staged_len s - pos)) as Hgo.
  { intros a' f Ha' Hr' Hu. destruct (IH (with_reader s1 r) (pos1 + used) a' f w1 Hr' Ha') as (w' & s' & a'' & n & E & Hn & Ht & Hrd & Hor' & Hi' & Hm'); [cbn; lia|].
    exists w', s', a'', n. cbn [with_reader staged_len] in Hm'. split_and!; try (done || lia). by eapply only_read_trans. }
  destruct i as [i|].
  - destruct (reading_item _ _ _ _ _ _ r used i Hread1 Hlt Hfeed) as (a' & f & d & Hg & Hla & Hlf & Hu & Hpu & Hd). rewrite Hg. rewrite bind_lift.
    destruct d as [[k' n]|]; [|apply Hgo; [lia|done|done]].
    destruct Hd as (Hn & _ & payload' & fs' & Hfs & Ht & Hready). simplify_eq.
    destruct (reclaim_ready _ _ _ _ Hready) as (s' & E & Hready' & Hl'). unfold with_reader in E. rewrite E, bind_lift.
    exists w1, s', a', n. rewrite Ha in Ht. cbn in Hl'. split_and!; try (done || lia).
  - destruct (reading_none _ _ _ _ _ _ r used Hread1 Hlt Hfeed) as [Hu Hread']. rewrite decide_False by lia. apply Hgo; [done|done|lia].
Qed.

(** What of the stream there is still to take in. *)
Definition left_of (s : Staging) (w : World W T) : nat := 2 * length (inbound (link w)) + staged_len s.

Lemma next_frame_spec fuel s w k payload fs :
  ready_for s 0 (inbound (link w)) ((k, payload) :: fs) -> left_of s w < fuel ->
  exists w' s' a n, next_frame fuel s w = (w', Ok (s', (k, a, n))) /\ slice (E:=DerpError) a 0 n = Ok (take 512 payload) /\
    ready_for s' 0 (inbound (link w')) fs /\ only_read w w' /\ left_of s' w' < left_of s w.
Proof.
  intros Hr Hf. unfold left_of in *.
  destruct (next_loop_spec fuel s 0 (zeros 512) 0 w k payload fs) as (w' & s' & a & n & E & Hn & Ht & Hrd & Hor & Hi & Hm);
    [apply Hr; [lia|done]|by rewrite length_zeros|lia|].
  exists w', s', a, n. split; [exact E|]. rewrite slice_to by done. split_and!; try (done || lia). by rewrite Ht.
Qed.

(** Frames of other kinds ahead of the one waited for are passed over. *)
Lemma await_key_spec fuel skipped s w payload fs key :
  ready_for s 0 (inbound (link w)) (skipped ++ (ServerKey, payload) :: fs) -> Forall (fun f => f.1 <> ServerKey) skipped ->
  parse_server_key (take 512 payload) = Ok key -> left_of s w < fuel ->
  exists w' s', await_key fuel s w = (w', Ok (s', key)) /\ ready_for s' 0 (inbound (link w')) fs /\ only_read w w' /\ left_of s' w' <= left_of s w.
Proof.
  intros Hr Hs Hk. revert fuel s w Hr. induction Hs as [|[k p] skipped Hne _ IH]; intros [|fuel] s w Hr Hf; try lia; cbn [await_key app] in *;
    destruct (next_frame_spec (S fuel) s w _ _ _ Hr Hf) as (w1 & s1 & a & n & E & Ha & Hr1 & Hor & Hl); rewrite (bind_ok _ _ _ _ _ E).
  - rewrite decide_True, Ha, bind_lift, Hk by done. cbn [map_err]. rewrite bind_lift. exists w1, s1. split_and!; (done || lia).
  - rewrite decide_False by done. destruct (IH fuel s1 w1 Hr1 ltac:(lia)) as (w' & s' & E' & Hr' & Hor' & Hl').
    exists w', s'. split_and!; try (done || lia). by eapply only_read_trans.
Qed.

Lemma await_info_spec fuel secret key skipped s w payload fs r :
  ready_for s 0 (inbound (link w)) (skipped ++ (ServerInfo, payload) :: fs) -> Forall (fun f => f.1 <> ServerInfo) skipped ->
  open secret key (take 512 payload) = Ok r -> left_of s w < fuel ->
  exists w' s', await_info fuel secret key s w = (w', Ok (s', key)) /\ ready_for s' 0 (inbound (link w')) fs /\ only_read w w' /\ left_of s' w' <= left_of s w.
Proof.
  intros Hr Hs Hk. revert fuel s w Hr. induction Hs as [|[k p] skipped Hne _ IH]; intros [|fuel] s w Hr Hf; try lia; cbn [await_info app] in *;
    destruct (next_frame_spec (S fuel) s w _ _ _ Hr Hf) as (w1 & s1 & a & n & E & Ha & Hr1 & Hor & Hl); rewrite (bind_ok _ _ _ _ _ E).
  - rewrite decide_True, Ha, bind_lift, Hk by done. cbn [map_err]. rewrite bind_lift. exists w1, s1. split_and!; (done || lia).
  - rewrite decide_False by done. destruct (IH fuel s1 w1 Hr1 ltac:(lia)) as (w' & s' & E' & Hr' & Hor' & Hl').
    exists w', s'. split_and!; try (done || lia). by eapply only_read_trans.
Qed.

(** The response that switches protocols: its header ends at its end, and it
    fits the buffer. *)
Definition switches (resp : bytes) : Prop :=
  4 <= length resp <= 1024 /\ find_window [x0d; x0a; x0d; x0a] resp = Some (length resp - 4) /\ starts_with resp (bs "HTTP/1.1 101") = true.

Lemma headers_end resp got future rest : switches resp -> got ++ future = resp ++ rest ->
  find_headers_end got = if decide (length resp <= length got) then Some (length resp) else None.
Proof.
  intros (Hl & Hw & _) He. unfold find_headers_end. rewrite (window_ends [x0d; x0a; x0d; x0a] resp got future rest ltac:(done) ltac:(simpl; lia) Hw He).
  case_decide; [|done]. simpl. f_equal. lia.
Qed.

Lemma read_headers_spec fuel resp w got (z : bytes) rest :
  switches resp -> got ++ inbound (link w) = resp ++ rest -> length got < length resp -> length got + length z = 1024 -> length (inbound (link w)) < fuel ->
  exists w' b z', read_headers fuel (got ++ z) (length got) w = (w', Ok (resp ++ b ++ z', length resp + length b, length resp)) /\
    b ++ inbound (link w') = rest /\ length resp + length b + length z' = 1024 /\ only_read w w' /\ length (inbound (link w')) <= length (inbound (link w)).
Proof.
  intros Hr. revert w got z. induction fuel as [|fuel IH]; intros w got z He Hg Hz Hf; [lia|]. cbn [read_headers]. pose proof Hr as (Hlr & _ & Hst).
  rewrite length_app, decide_False by lia. replace (length got + length z - length got) with (length z) by lia.
  assert (inbound (link w) <> []) as Hin.
  { intros Hn. rewrite Hn, app_nil_r in He. apply (f_equal length) in He. rewrite length_app in He. lia. }
  destruct (read_some_spec (length z) w) as (w1 & b & E & Hb & Hi & Hor); [lia|done|]. rewrite (bind_ok _ _ _ _ _ E).
  rewrite copy_range_ok by (rewrite ?length_app; lia). rewrite bind_lift, overwrite_app by done.
  rewrite app_assoc, slice_app_l_exact by (rewrite length_app; lia). rewrite bind_lift.
  assert (length (drop (length b) z) + (length got + length b) = 1024) as Hz' by (rewrite length_drop; lia).
  rewrite Hi, app_assoc in He. rewrite (headers_end resp _ _ _ Hr He), length_app. set (z' := drop (length b) z) in *. clearbody z'. case_decide as Hd.
  - apply app_cut in He as [Hgb Hrest]; [|rewrite length_app; lia]. set (b' := drop (length resp) (got ++ b)) in *.
    assert (length b' = length got + length b - length resp) as Hb' by (unfold b'; rewrite length_drop, length_app; lia).
    rewrite Hgb. rewrite starts_with_app_mono by (by apply starts_with_app_mono).
    exists w1, b', z'. unfold ret. rewrite <- app_assoc. replace (length got + length b) with (length resp + length b') by lia.
    rewrite Hi, length_app. split_and!; (done || lia).
  - destruct (IH w1 (got ++ b) z' He) as (w' & b' & z'' & E' & Hrest & Hlz & Hor' & Hi'); [rewrite length_app; lia..|rewrite Hi, length_app in Hf; lia|].
    rewrite length_app in E'. exists w', b', z''. rewrite Hi, length_app. split_and!; try (done || lia). by eapply only_read_trans.
Qed.

(** The upgrade request. *)
Definition upgrade_request (host : bytes) : bytes := concat (upgrade_parts host).

Lemma put_parts_spec parts before (out : bytes) :
  put_parts parts (before ++ out) (length before) =
    if decide (length (concat parts) <= length out)
    then Ok (before ++ concat parts ++ drop (length (concat parts)) out, length before + length (concat parts)) else Panic.
Proof.
  revert before out. induction parts as [|p parts IH]; intros before out; cbn [put_parts concat].
  { rewrite decide_True by (simpl; lia). simpl. by rewrite Nat.add_0_r. }
  rewrite (length_app p). unfold copy_range. rewrite length_app. destruct (decide (length p <= length out)) as [Hp|Hp].
  - rewrite decide_True by lia. cbn [obind]. rewrite overwrite_app by done. rewrite app_assoc.
    replace (length before + length p) with (length (before ++ p)) by (rewrite length_app; lia). rewrite IH, length_drop.
    destruct (decide (length (concat parts) <= length out - length p)); [rewrite decide_True by lia|by rewrite decide_False by lia].
    rewrite drop_drop, length_app, <- !app_assoc. do 2 f_equal. lia.
  - rewrite decide_False by lia. cbn [obind]. by rewrite decide_False by lia.
Qed.

Lemma build_upgrade_spec host : build_upgrade host (zeros 256) =
  if decide (length host <= 190) then Ok (upgrade_request host ++ zeros (190 - length host), length (upgrade_request host)) else Panic.
Proof.
  unfold build_upgrade. pose proof (put_parts_spec (upgrade_parts host) [] (zeros 256)) as H. cbn [app length] in H. rewrite H. clear H.
  assert (length (concat (upgrade_parts host)) = 66 + length host) as Hl.
  { unfold upgrade_parts. cbn [concat]. rewrite !length_app. cbn. lia. }
  rewrite Hl, length_zeros. destruct (decide (length host <= 190)); [rewrite decide_True by lia|by rewrite decide_False by lia].
  unfold upgrade_request. rewrite Hl. change (drop (66 + length host) (zeros 256)) with (drop (66 + length host) (replicate 256 x00)). rewrite drop_replicate. unfold zeros. replace (256 - (66 + length host)) with (190 - length host) by lia. done.
Qed.

Lemma ready_frames s future frames : derp_ok (reader s) -> derp_at (reader s) = between -> staged_len s <= 1024 -> length (staged s) = 1024 ->
  Forall (fun f => Z.of_nat (length f.2) <= MAX_FRAME_LEN)%Z frames ->
  unparsed s 0 ++ future = concat (map (fun f => derp_wire f.1 f.2) frames) -> ready_for s 0 future (map whole frames).
Proof.
  intros Hr Hat Hl Hs Hf He. pose proof (run_frames derp_format (map (fun f => ((f.1, Z.of_nat (length f.2)), f.2)) frames)
    (map (fun f => derp_wire f.1 f.2) frames) header_pos) as Hrun. rewrite <- He, map_map, (map_ext _ (fun f => derp_delivered f.1 f.2)) in Hrun by (intros [k p]; apply derp_frame_events).
  apply (reading_ready _ _ between (concat (map (fun f => derp_delivered f.1 f.2) frames)) []); try (done || lia).
  - by rewrite Hat.
  - rewrite Hat. apply Hrun. clear Hrun He. induction Hf as [|[k p] frames Hp _ IH]; cbn [map]; constructor; [by apply derp_wire_frame|done].
  - apply assemble_frames.
Qed.
End Handshaking.

(** ** A session with the relay *)
Section Session.
Context `{P : Primitives, L : !PrimitiveLaws P} {W T : Type} `{RL : RelayLink W, RV : !RelayLinkView W, RU : !RelayLinkUp W} `{LS : LanSide T}.

(** What the relay sends: the switch of protocols, its key and its info, with
    whatever else ahead of them, and then [frames]. *)
Record session_script (client server : bytes) (stream : bytes) (frames : list (FrameType * bytes)) : Prop := {
  script : exists resp before between_ nonce info blob,
    switches resp /\ Forall (fun f => f.1 <> ServerKey) before /\ Forall (fun f => f.1 <> ServerInfo) between_ /\
    length nonce = NONCE_LEN /\ length info <= 472 /\ boxed server (x25519_public client) nonce info = Some blob /\
    Forall (fun f => Z.of_nat (length f.2) <= MAX_FRAME_LEN)%Z (before ++ between_ ++ frames) /\
    stream = resp ++ concat (map (fun f => derp_wire f.1 f.2)
      (before ++ (ServerKey, MAGIC ++ x25519_public server) :: between_ ++ (ServerInfo, blob) :: frames));
}.

Definition blank : Staging := {| reader := new; staged := zeros 1024; staged_len := 0 |}.

Lemma Forall_whole k l : Forall (fun f => f.1 <> k) l -> Forall (fun f => f.1 <> k) (map whole l).
Proof. intros H. apply Forall_map. by eapply List.Forall_impl; [|exact H]. Qed.

Definition read_and_wrote (w : World W T) (b : bytes) (w' : World W T) : Prop :=
  outbound (link w') = outbound (link w) ++ b /\ queued (link w') = queued (link w) /\ node w' = node w /\ lan w' = lan w.

Lemma rw_wrote w b w' : wrote w b w' -> read_and_wrote w b w'.
Proof. intros (? & ? & ? & ? & ?). by split_and!. Qed.
Lemma rw_read w w' : only_read w w' -> read_and_wrote w [] w'.
Proof. intros (? & ? & ? & ?). unfold read_and_wrote. rewrite app_nil_r. by split_and!. Qed.
Lemma rw_trans a x b y c : read_and_wrote a x b -> read_and_wrote b y c -> read_and_wrote a (x ++ y) c.
Proof. unfold read_and_wrote. intros (-> & -> & -> & ->) (-> & -> & -> & ->). by rewrite app_assoc. Qed.

(** From the upgrade to the relay's info. *)
Lemma handshake_spec fuel host client server nonce w frames :
  length client = 32 -> length server = 32 -> length nonce = NONCE_LEN -> length host <= 190 ->
  session_script client server (inbound (link w)) frames -> 2 * length (inbound (link w)) + 1024 < fuel ->
  exists w' s' blob, handshake fuel host client (x25519_public client) nonce blank w = (w', Ok (s', x25519_public server)) /\
    boxed client (x25519_public server) nonce VERSION_INFO = Some blob /\
    read_and_wrote w (upgrade_request host ++ derp_wire ClientInfo (x25519_public client ++ blob)) w' /\
    ready_for s' 0 (inbound (link w')) (map whole frames) /\ left_of s' w' <= 2 * length (inbound (link w)) + 1024.
Proof.
  intros Hc Hsv Hn Hh [(resp & before & mid & nonce' & info & blob' & Hresp & Hbefore & Hmid & Hn' & Hinfo & Hbox & Hsz & Hstream)] Hf.
  pose proof (x25519_public_length client Hc) as Hpc. pose proof (x25519_public_length server Hsv) as Hps.
  unfold handshake. rewrite build_upgrade_spec, decide_True by done. rewrite bind_lift, slice_app_l_exact by done. rewrite bind_lift.
  destruct (link_write_spec w (upgrade_request host)) as (w1 & E1 & H1). rewrite (bind_ok _ _ _ _ _ E1).
  destruct (flush_spec w1) as (w2 & E2 & H2). rewrite (bind_ok _ _ _ _ _ E2).
  pose proof (wrote_trans _ _ _ _ _ H1 H2) as Hw2. rewrite app_nil_r in Hw2. pose proof Hw2 as (_ & Hi2 & _).
  set (fs := before ++ _) in Hstream.
  destruct (read_headers_spec fuel resp w2 [] (zeros 1024) (concat (map (fun f => derp_wire f.1 f.2) fs))) as (w3 & b & z & E3 & Hb & Hz & H3 & Hi3);
    [done|by rewrite Hi2|destruct Hresp; simpl; lia|by rewrite length_zeros|rewrite Hi2; lia|].
  cbn [app length] in E3. rewrite (bind_ok _ _ _ _ _ E3). rewrite nsub_ok by lia. rewrite bind_lift.
  rewrite (slice_seg resp b z) by lia. rewrite bind_lift. replace (length resp + length b - length resp) with (length b) by lia.
  cbn [blank staged reader]. rewrite copy_range_ok by (rewrite ?length_zeros; lia). rewrite bind_lift.
  set (s := {| reader := new; staged := _; staged_len := length b |}).
  assert (unparsed s 0 = b) as Hun.
  { unfold unparsed, s. cbn. rewrite drop_0. pose proof (take_overwrite (zeros 1024) 0 b ltac:(rewrite length_zeros; lia)) as Ht. by rewrite take_0 in Ht. }
  assert (length blob' <= 512) as Hblob.
  { destruct (boxed_ok server (x25519_public client) nonce' info Hsv Hpc Hn') as (ct & tag & _ & Hct & Htag & Hbx); [lia|].
    rewrite Hbx in Hbox. simplify_eq. rewrite !length_app. unfold NONCE_LEN in *. lia. }
  assert (length (staged s) = 1024) as Hsl by (unfold s; cbn [staged]; rewrite length_overwrite; rewrite length_zeros; lia).
  assert (Forall (fun f => Z.of_nat (length f.2) <= MAX_FRAME_LEN)%Z fs) as Hfs.
  { apply Forall_app in Hsz as [? [? ?]%Forall_app]. unfold fs, MAX_FRAME_LEN. apply Forall_app. split; [done|]. constructor; [cbn [snd]; rewrite length_app; simpl; lia|].
    apply Forall_app. split; [done|]. constructor; [cbn [snd]; lia|done]. }
  pose proof (ready_frames s (inbound (link w3)) fs new_ok eq_refl ltac:(cbn [s staged_len]; lia) Hsl Hfs ltac:(by rewrite Hun)) as Hrd.
  unfold fs in Hrd. rewrite map_app in Hrd. cbn [map] in Hrd. rewrite map_app in Hrd. cbn [map] in Hrd.
  assert (left_of s w3 <= 2 * length (inbound (link w)) + 1024) as Hl3 by (unfold left_of, s; cbn [staged_len]; rewrite Hi2 in Hi3; lia).
  destruct (await_key_spec fuel _ s w3 (take 512 (MAGIC ++ x25519_public server)) _ (x25519_public server) Hrd (Forall_whole _ _ Hbefore)) as (w4 & s4 & E4 & Hr4 & H4 & Hl4);
    [|lia|].
  { assert (length (MAGIC ++ x25519_public server) = 40) as Hm by (rewrite length_app, Hps; done).
    rewrite !take_ge by (rewrite ?length_take; lia). unfold parse_server_key. rewrite Hm, decide_False by (unfold KEY_LEN; simpl; lia).
    rewrite starts_with_app. rewrite slice_ok by (rewrite ?length_app, ?Hps; unfold KEY_LEN; lia). rewrite drop_app_length. unfold KEY_LEN. by rewrite take_ge by lia. }
  rewrite (bind_ok _ _ _ _ _ E4). cbn beta iota.
  destruct (client_info_accepted client server nonce (zeros 256) Hc Hsv Hn) as (blob & blob2 & -> & Hblob2 & _); [rewrite length_zeros; lia|].
  cbn [map_err]. rewrite bind_lift.
  assert (length blob = 53) as Hlb.
  { destruct (boxed_ok client (x25519_public server) nonce VERSION_INFO Hc Hps Hn) as (ct & tag & _ & Hct & Htag & Hbx); [done|].
    rewrite Hbx in Hblob2. simplify_eq. rewrite !length_app, Hct, Htag. unfold NONCE_LEN in *. change (length VERSION_INFO) with 13. lia. }
  rewrite app_assoc, slice_app_l_exact by (rewrite length_app; lia). rewrite bind_lift.
  destruct (write_frame_spec w4 ClientInfo (x25519_public client ++ blob)) as (w5 & E5 & H5); [rewrite length_app; lia|]. rewrite (bind_ok _ _ _ _ _ E5).
  pose proof H5 as (_ & Hi5 & _). rewrite <- Hi5 in Hr4.
  assert (left_of s4 w5 = left_of s4 w4) as Hl5 by (unfold left_of; by rewrite Hi5).
  destruct (open_boxed server client nonce' info blob' Hsv Hc Hn') as (r & Hopen); [lia|done|].
  destruct (await_info_spec fuel client (x25519_public server) _ s4 w5 (take 512 blob') _ (r, info) Hr4 (Forall_whole _ _ Hmid)) as (w6 & s6 & E6 & Hr6 & H6 & Hl6);
    [by rewrite !take_ge by (rewrite ?length_take; lia)|lia|].
  exists w6, s6, blob. split; [exact E6|]. split; [done|]. split; [|split; [done|lia]].
  pose proof (rw_trans _ _ _ _ _ (rw_trans _ _ _ _ _ (rw_wrote _ _ _ Hw2) (rw_read _ _ (only_read_trans _ _ _ H3 H4)))
    (rw_trans _ _ _ _ _ (rw_wrote _ _ _ H5) (rw_read _ _ H6))) as H. by rewrite !app_nil_r in H.
Qed.
End Session.

(** C4. A whole session of [run] over a connection that stays up. If the relay
    switches protocols, sends its key and an info sealed for us (with any frames
    between them), and then [frames], cut into reads in any way, the client sends
    the upgrade, its info sealed for the relay and a note of preference; it acts
    on each of [frames] once, in order and as [handle_frame] gets it, and on each
    queued packet, in the queue's order, sending those that come after a first
    packet to the peer that spoke last; [serve] says what each act does to the
    node, the LAN side and the wire. It ends, with an I/O error, when the
    connection does, and never panics. *)
Theorem relay_session `{P : Primitives, L : !PrimitiveLaws P} {W T : Type} `{RL : RelayLink W, RV : !RelayLinkView W, RU : !RelayLinkUp W} `{LS : LanSide T}
  (scratch : bytes -> bytes -> bytes) fuel host client server nonce (w : World W T) frames :
  (forall packet out, length (scratch packet out) = length out) ->
  length client = 32 -> length server = 32 -> length nonce = NONCE_LEN -> length host <= 190 ->
  session_script client server (inbound (link w)) frames -> node_ok (node w) -> Forall relayed_ok (queued (link w)) ->
  2 * length (inbound (link w)) + 1024 + length (queued (link w)) < fuel ->
  exists w' blob acts, run_link scratch fuel host client (x25519_public client) nonce w = (w', Err Io) /\
    boxed client (x25519_public server) nonce VERSION_INFO = Some blob /\
    omap heard acts = map received frames /\
    omap asked acts ++ map relayed_bytes (queued (link w')) = map relayed_bytes (queued (link w)) /\
    let hello := upgrade_request host ++ derp_wire ClientInfo (x25519_public client ++ blob) ++ derp_wire NotePreferred [x01] in
    let served := fold_left (serve scratch) acts
      {| at_node := node w; at_lan := lan w; reply_to := None; buffer := zeros 1600; sent := outbound (link w) ++ hello |} in
    node w' = at_node served /\ lan w' = at_lan served /\ outbound (link w') = sent served.
Proof.
  intros Hscratch Hc Hsv Hn Hh Hscript Hnode Hq Hf.
  destruct (handshake_spec fuel host client server nonce w frames Hc Hsv Hn Hh Hscript) as (w1 & s & blob & E & Hbox & (Ho1 & Hq1 & Hn1 & Hl1) & Hready & Hleft); [lia|].
  unfold run_link. fold blank. rewrite (bind_ok _ _ _ _ _ E). cbn beta iota.
  destruct (write_frame_spec w1 NotePreferred [x01]) as (w2 & E2 & (Ho2 & Hi2 & Hq2 & Hn2 & Hl2)); [done|].
  unfold pump. set (p := {| input := s; pos := 0; assembled := zeros 1600; filled := 0; out := zeros 1600; peer_key := None |}).
  destruct (relay_pump_spec scratch Hscratch fuel p w2 (map whole frames)) as (w3 & out' & peer' & E3 & acts & Hv & Hh3 & Ha3).
  - split; [split; [|apply length_zeros]|split; [done|split; [|by rewrite Hq2, Hq1]]].
    + rewrite Hi2. apply Hready; [apply Nat.le_0_l|done].
    + split_and!; [cbn [view at_node]; by rewrite Hn2, Hn1|apply length_zeros|done].
  - unfold work, left_of in *. cbn [p input]. rewrite Hi2, Hq2, Hq1. lia.
  - exists w3, blob, acts. assert (pump scratch fuel s w1 = (w3, Err Io)) as Ep.
    { unfold pump. rewrite (bind_ok _ _ _ _ _ E2). exact E3. }
    unfold pump in Ep. rewrite (bind_err _ _ _ _ _ Ep). split; [done|]. split; [done|].
    rewrite app_nil_r, map_map in Hh3. split; [exact Hh3|]. split; [by rewrite <- Hq1, <- Hq2|].
    unfold view in Hv. cbn [p out peer_key] in Hv. rewrite Hn2, Hn1, Hl2, Hl1, Ho2, Ho1, <- !app_assoc in Hv. cbn zeta. rewrite <- Hv. done.
Qed.

(** *** An example: a relay that sends a ping, a keep-alive and a peer's disco ping,
    a few bytes at a time, while another task has a packet to send. *)
#[local] Existing Instances Toy.toy Toy.toy_laws.

Record wire := { pipes : pipe; waiting : list Relayed }.
Definition with_pipes (w : wire) (p : pipe) : wire := {| pipes := p; waiting := waiting w |}.
#[export] Instance wire_socket : SocketOps wire := {
  sock_read w n := let (p, b) := sock_read (pipes w) n in (with_pipes w p, b);
  sock_write w b := let (p, ok) := sock_write (pipes w) b in (with_pipes w p, ok);
}.
#[export] Instance wire_link : RelayLink wire := {
  link_flush w := (w, true);
  link_try_receive w := match waiting w with [] => (w, None) | r :: q => ({| pipes := pipes w; waiting := q |}, Some r) end;
  link_select w n :=
    match (pipes w).1, waiting w with
    | [], r :: q => ({| pipes := pipes w; waiting := q |}, inr r)
    | _, _ => let (p, b) := sock_read (pipes w) n in (with_pipes w p, inl b)
    end;
}.
#[export] Instance wire_view : SocketView wire.
Proof.
  refine {| inbound w := inbound (pipes w); outbound w := outbound (pipes w) |}.
  - intros w n w' b. cbn [sock_read wire_socket]. destruct (sock_read (pipes w) n) as [p b'] eqn:E. intros [= <- ->]. exact (sock_read_view _ _ _ _ E).
  - intros w b w'. cbn [sock_write wire_socket]. destruct (sock_write (pipes w) b) as [p ok] eqn:E. intros [= <- ->]. exact (sock_write_view _ _ _ E).
Defined.
#[export] Instance wire_link_view : RelayLinkView wire.
Proof.
  refine {| link_view := wire_view; queued := waiting |}.
  - intros w n w' r. cbn. by intros [= <- _].
  - intros w b w' r. cbn. by intros [= <- _].
  - intros w w' [= <-]. done.
  - intros w w' r. cbn. destruct (waiting w) as [|x q] eqn:E; intros [= <- <-]; by rewrite ?E.
  - intros w n w' r. cbn [link_select wire_link].
    assert ((let (p, b) := sock_read (pipes w) n in (with_pipes w p, inl (B:=Relayed) b)) = (w', r) ->
      match r with
      | inl (Some b) => length b <= n /\ inbound w = b ++ inbound w' /\ outbound w' = outbound w /\ (0 < n -> b = [] -> inbound w = []) /\ waiting w' = waiting w
      | inl None => outbound w' = outbound w /\ waiting w' = waiting w
      | inr relayed => inbound w' = inbound w /\ outbound w' = outbound w /\ waiting w = relayed :: waiting w'
      end) as Hread.
    { destruct (sock_read (pipes w) n) as [p b] eqn:E. intros [= <- <-]. destruct b as [b|]; [|done].
      destruct (sock_read_view _ _ _ _ E) as (? & ? & ? & ?). by split_and!. }
    destruct ((pipes w).1) as [|x l]; [|exact Hread]. destruct (waiting w) as [|x q]; [exact Hread|]. intros [= <- <-]. done.
Defined.
#[export] Instance wire_up : RelayLinkUp wire.
Proof.
  split.
  - split; intros; eexists; [eexists|]; reflexivity.
  - intros w. by eexists.
  - intros w n w' _. cbn [link_select wire_link]. destruct ((pipes w).1); [destruct (waiting w)|]; cbn; discriminate.
Defined.
#[export] Instance lan_log : LanSide (list bytes) := { deliver t p := t ++ [p] }.

Definition example_client : bytes := replicate 32 x01.
Definition example_server : bytes := replicate 32 x02.
Definition example_response : bytes := bs "HTTP/1.1 101 Switching Protocols" ++ [x0d; x0a; x0d; x0a].
Definition example_info : bytes := default [] (boxed example_server (x25519_public example_client) (replicate 24 x07) (bs "{}")).
Definition example_relayed : list (FrameType * bytes) :=
  [(Ping, bs "pingpong"); (KeepAlive, []); (RecvPacket, replicate 32 x09 ++ example_ping x05)].
Definition example_stream : bytes := example_response ++ concat (map (fun f => derp_wire f.1 f.2)
  ([] ++ (ServerKey, MAGIC ++ x25519_public example_server) :: [(KeepAlive, [])] ++ (ServerInfo, example_info) :: example_relayed)).
Definition example_queue : list Relayed := [{| r_buf := zeros 1600; r_len := 3 |}].
Definition example_world : World wire (list bytes) :=
  {| link := {| pipes := (example_stream, []); waiting := example_queue |}; node := example_node; lan := [] |}.

Lemma example_script : session_script example_client example_server example_stream example_relayed.
Proof.
  constructor. exists example_response, [], [(KeepAlive, [])], (replicate 24 x07), (bs "{}"), example_info. split_and!.
  - split; [split; apply Nat.leb_le; vm_compute; reflexivity|split; vm_compute; reflexivity].
  - constructor.
  - repeat constructor. discriminate.
  - reflexivity.
  - cbn. lia.
  - vm_compute. reflexivity.
  - repeat (constructor; [vm_compute; discriminate|]). constructor.
  - reflexivity.
Qed.

Lemma relay_session_witness :
  exists w' blob acts, run_link (fun _ o => o) 3000 (bs "derp") example_client (x25519_public example_client) (replicate 24 x03) example_world = (w', Err Io) /\
    boxed example_client (x25519_public example_server) (replicate 24 x03) VERSION_INFO = Some blob /\
    omap heard acts = map received example_relayed /\ omap asked acts ++ map relayed_bytes (queued (link w')) = map relayed_bytes (queued (link example_world)) /\
    let hello := upgrade_request (bs "derp") ++ derp_wire ClientInfo (x25519_public example_client ++ blob) ++ derp_wire NotePreferred [x01] in
    let served := fold_left (serve (fun _ o => o)) acts
      {| at_node := node example_world; at_lan := lan example_world; reply_to := None; buffer := zeros 1600; sent := outbound (link example_world) ++ hello |} in
    node w' = at_node served /\ lan w' = at_lan served /\ outbound (link w') = sent served.
Proof.
  apply (relay_session (P:=Toy.toy) (L:=Toy.toy_laws) (RL:=wire_link) (RV:=wire_link_view) (RU:=wire_up) (LS:=lan_log) (fun _ o => o) 3000 (bs "derp") example_client example_server (replicate 24 x03) example_world example_relayed).
  - done.
  - reflexivity.
  - reflexivity.
  - reflexivity.
  - cbn. lia.
  - exact example_script.
  - exact example_node_ok.
  - constructor; [|constructor]. split; [apply length_zeros|cbn; lia].
  - apply Nat.ltb_lt. vm_compute. reflexivity.
Defined.
