(* ===== verification/Smoltcp.v ===== *)
(** smoltcp, as the two tunnels use it: TCP sockets and the set that holds them.

    Third-party code: [Tcp] has the operations used, [TcpView] what is relied on,
    stated with what has gone through a connection each way; [SocketSet] and
    [SocketSetView] likewise for the set. *)
From S2P Require Import Prelude.

(** [smoltcp::socket::tcp::Socket]. [recv] shows its closure the bytes of
    [recv_buf], [None] where it gives an error, and drops as many of them as the
    closure says; [recv_slice] takes at most so many; [send_slice] gives the
    number of bytes taken. *)
Class Tcp (K : Type) := {
  socket_new : nat -> nat -> K;
  listen : K -> Z -> K * bool;
  is_active : K -> bool;
  is_open : K -> bool;
  is_listening : K -> bool;
  can_recv : K -> bool;
  can_send : K -> bool;
  may_recv : K -> bool;
  may_send : K -> bool;
  local_endpoint : K -> option (bytes * Z);
  recv_buf : K -> option bytes;
  recv_drop : K -> nat -> K;
  recv_slice : K -> nat -> K * option bytes;
  send_slice : K -> bytes -> K * option nat;
  send_capacity : K -> nat;
  send_queue : K -> nat;
  close : K -> K;
  abort : K -> K;
}.

Definition recv `{Tcp K} {R} (k : K) (f : bytes -> nat * R) : K * option R :=
  match recv_buf k with
  | None => (k, None)
  | Some buf => let (n, r) := f buf in (recv_drop k n, Some r)
  end.

(** A socket through a connection: what the other side has sent so far, what of
    it was taken, what was queued for it; whether our side was closed, and
    whether the connection was made since the socket last listened. *)
Class TcpView (K : Type) `{Tcp K} := {
  arrived : K -> bytes;
  taken : K -> bytes;
  queued : K -> bytes;
  closed : K -> bool;
  opened : K -> bool;
  socket_new_view rx tx : send_capacity (socket_new rx tx) = tx /\ is_active (socket_new rx tx) = false /\ is_open (socket_new rx tx) = false;
  listen_view k p k' : is_open k = false -> (0 < p < 2 ^ 16)%Z -> listen k p = (k', true) ->
    is_open k' = true /\ is_active k' = false /\ opened k' = false /\ send_capacity k' = send_capacity k;
  listen_fails k p k' : listen k p = (k', false) -> k' = k;
  listen_up k p : is_open k = false -> (0 < p < 2 ^ 16)%Z -> exists k', listen k p = (k', true);
  abort_view k : is_open (abort k) = false /\ is_active (abort k) = false /\ send_capacity (abort k) = send_capacity k;
  active_open k : is_active k = true -> is_open k = true;
  queue_room k : send_queue k <= send_capacity k /\ send_queue k <= length (queued k);
  can_recv_view k : is_active k = true -> can_recv k = true -> closed k = false -> may_send k = true;
  can_send_view k : can_send k = true -> may_send k = true;
  closed_view k : closed k = true -> may_send k = false;
  opened_view k : may_recv k = true \/ may_send k = true -> opened k = true;
  taken_arrived k : exists rest, arrived k = taken k ++ rest;
  recv_buf_view k b : recv_buf k = Some b -> exists rest, arrived k = taken k ++ b ++ rest;
  recv_drop_view k b n : recv_buf k = Some b -> n <= length b -> let k' := recv_drop k n in
    arrived k' = arrived k /\ taken k' = taken k ++ take n b /\ queued k' = queued k /\ closed k' = closed k /\
    may_send k' = may_send k /\ is_active k' = is_active k /\ send_capacity k' = send_capacity k /\ send_queue k' = send_queue k;
  recv_slice_view k n k' r : recv_slice k n = (k', r) ->
    arrived k' = arrived k /\ taken k' = taken k ++ default [] r /\ length (default [] r) <= n /\ queued k' = queued k /\ closed k' = closed k /\
    is_active k' = is_active k /\ opened k' = opened k /\ send_capacity k' = send_capacity k;
  send_slice_view k b k' r : send_slice k b = (k', r) ->
    arrived k' = arrived k /\ taken k' = taken k /\ closed k' = closed k /\ is_active k' = is_active k /\ opened k' = opened k /\
    send_capacity k' = send_capacity k /\
    match r with
    | Some n => may_send k = true /\ n = length b `min` (send_capacity k - send_queue k) /\ queued k' = queued k ++ take n b
    | None => may_send k = false /\ queued k' = queued k
    end;
  close_view k : let k' := close k in
    arrived k' = arrived k /\ taken k' = taken k /\ queued k' = queued k /\ closed k' = true /\ is_active k' = is_active k /\
    send_capacity k' = send_capacity k;
}.

(** What a connection goes through while nothing is asked of it, and how it
    begins. *)
Definition continues `{TcpView K} (k k' : K) : Prop :=
  (exists more, arrived k' = arrived k ++ more) /\ taken k' = taken k /\ queued k' = queued k /\ closed k' = closed k.
Definition fresh `{TcpView K} (k : K) : Prop := taken k = [] /\ queued k = [] /\ closed k = false.

(** [SocketSet]; [get_mut] is a lookup and a [set_put] of what became of the
    socket. *)
Class SocketSet (SS H K : Type) := {
  set_new : SS;
  set_add : SS -> K -> SS * H;
  set_get : SS -> H -> option K;
  set_put : SS -> H -> K -> SS;
}.

Class SocketSetView (SS H K : Type) `{!SocketSet SS H K} := {
  set_add_view ss k ss' h : set_add ss k = (ss', h) ->
    set_get ss h = None /\ set_get ss' h = Some k /\ forall h', h' <> h -> set_get ss' h' = set_get ss h';
  set_put_same ss h k : set_get ss h <> None -> set_get (set_put ss h k) h = Some k;
  set_put_other ss h h' k : h' <> h -> set_get (set_put ss h k) h' = set_get ss h';
}.

(** What a poll of the interface does to a socket. A connection goes on, or ends;
    it begins only where one was listened for, and does not end for nothing, for
    no timeout is set. What was made once does not begin anew without another
    [listen], and what is closed stays so, and gets no endpoint where it has none
    (one it still has may be forgotten, as after a reset that was sent). *)
Definition polled `{TcpView K} (quiet : bool) (k k' : K) : Prop :=
  send_capacity k' = send_capacity k /\
  (is_active k' = true \/ opened k' = true -> if is_active k || opened k then continues k k' else fresh k') /\
  (quiet = true -> is_active k = true -> is_active k' = true) /\
  (opened k = true -> opened k' = true /\ (is_active k' = true -> is_active k = true /\ local_endpoint k' = local_endpoint k)) /\
  (is_open k = false -> is_open k' = false /\ (local_endpoint k = None -> local_endpoint k' = None)).

Lemma polled_active `{TcpView K} quiet k k' : polled quiet k k' -> is_active k' = true -> if is_active k then continues k k' else fresh k'.
Proof.
  intros (_ & H2 & _ & H4 & _) Ha. specialize (H2 (or_introl Ha)). destruct (is_active k) eqn:Hk; [exact H2|]. cbn in H2.
  destruct (opened k) eqn:Ho; [|exact H2]. destruct (H4 eq_refl) as [_ H5]. destruct (H5 Ha). congruence.
Qed.

(** The port a socket last listened on, which is that of its own end. *)
Class TcpPorts (K : Type) `{Tcp K} := {
  port_of : K -> Z;
  listen_port k p k' : listen k p = (k', true) -> port_of k' = p;
  endpoint_port k a p : local_endpoint k = Some (a, p) -> p = port_of k /\ length a = 4;
  recv_slice_port k n : port_of (recv_slice k n).1 = port_of k /\ local_endpoint (recv_slice k n).1 = local_endpoint k;
  send_slice_port k b : port_of (send_slice k b).1 = port_of k /\ local_endpoint (send_slice k b).1 = local_endpoint k;
  abort_port k : port_of (abort k) = port_of k;
}.

(** *** An example: sockets that packets of a client reach as they are, and the
    set of them a list. *)
Module Example.
(** [phase]: closed, listening, connected, or connected with the client's side
    closed; [connected] whether there was a connection since it last listened. *)
Record sock := {
  phase : nat; s_port : Z; connected : bool; ours_closed : bool; incoming : bytes; s_taken : bytes; s_queued : bytes; capacity : nat
}.

Definition up (k : sock) : bool := bool_decide (2 <= phase k).
(** [n] bytes taken out, [b] put in. *)
Definition take_out (k : sock) (n : nat) : sock :=
  {| phase := phase k; s_port := s_port k; connected := connected k; ours_closed := ours_closed k; incoming := drop n (incoming k);
     s_taken := s_taken k ++ take n (incoming k); s_queued := s_queued k; capacity := capacity k |}.
Definition put_in (k : sock) (b : bytes) : sock :=
  {| phase := phase k; s_port := s_port k; connected := connected k; ours_closed := ours_closed k; incoming := incoming k;
     s_taken := s_taken k; s_queued := s_queued k ++ b; capacity := capacity k |}.
Definition set_phase (k : sock) (p : nat) (was closed : bool) : sock :=
  {| phase := p; s_port := s_port k; connected := was; ours_closed := closed; incoming := incoming k;
     s_taken := s_taken k; s_queued := s_queued k; capacity := capacity k |}.
(** A socket of no connection, in phase [p] on [port]. *)
Definition blank (p : nat) (port : Z) (tx : nat) : sock :=
  {| phase := p; s_port := port; connected := false; ours_closed := false; incoming := []; s_taken := []; s_queued := []; capacity := tx |}.

#[export] Instance sock_tcp : Tcp sock := {
  socket_new _ tx := blank 0 0 tx;
  listen k p := if decide (1 <= phase k) then (k, false) else (blank 1 p (capacity k), true);
  is_active := up;
  is_open k := bool_decide (1 <= phase k);
  is_listening k := bool_decide (phase k = 1);
  can_recv k := up k && bool_decide (incoming k <> []);
  can_send k := up k && negb (ours_closed k);
  may_recv k := bool_decide (phase k = 2) || up k && bool_decide (incoming k <> []);
  may_send k := up k && negb (ours_closed k);
  local_endpoint k := if up k then Some ([x0a; x00; x00; x07], s_port k) else None;
  recv_buf k := if up k then Some (incoming k) else None;
  recv_drop k n := take_out k n;
  recv_slice k n := if up k then (take_out k n, Some (take n (incoming k))) else (k, None);
  send_slice k b := if up k && negb (ours_closed k) then (put_in k (take (length b `min` capacity k) b), Some (length b `min` capacity k)) else (k, None);
  send_capacity := capacity;
  send_queue _ := 0;
  close k := set_phase k (if up k then phase k else 0) (connected k) true;
  abort k := set_phase k 0 (connected k || up k) (ours_closed k);
}.

#[export] Instance sock_view : TcpView sock.
Proof.
  refine {| arrived k := s_taken k ++ incoming k; taken := s_taken; queued := s_queued; closed := ours_closed; opened k := connected k || up k |}.
  - intros rx tx. by split_and!.
  - intros k p k' _ _. cbn. case_decide; [done|]. intros [= <-]. by split_and!.
  - intros k p k'. cbn. case_decide; congruence.
  - intros k p Ho _. cbn in *. apply bool_decide_eq_false in Ho. rewrite decide_False by done. by eexists.
  - intros k. by split_and!.
  - intros k. cbn. unfold up. rewrite !bool_decide_eq_true. lia.
  - intros k. split; apply Nat.le_0_l.
  - intros k. cbn. intros -> _ ->. done.
  - done.
  - intros k. cbn. intros ->. apply andb_false_r.
  - intros k. cbn. unfold up. intros Hk. destruct (decide (2 <= phase k)) as [Hp|Hp]; [by rewrite (bool_decide_eq_true_2 _ Hp), orb_true_r|].
    rewrite (bool_decide_eq_false_2 _ Hp) in Hk. cbn in Hk. rewrite orb_false_r in Hk. destruct Hk as [Hk|]; [|done]. apply bool_decide_eq_true in Hk. lia.
  - intros k. by exists (incoming k).
  - intros k b. cbn. destruct (up k); [|done]. intros [= <-]. exists []. by rewrite app_nil_r.
  - intros k b n. cbn. change (up (take_out k n)) with (up k). destruct (up k); [|done]. intros [= <-] _. cbn. split_and!; try done. by rewrite <- app_assoc, take_drop.
  - intros k n k' r. cbn. destruct (up k) eqn:Hu; intros [= <- <-]; cbn; change (up (take_out k n)) with (up k); rewrite ?Hu; [|rewrite app_nil_r; split_and!; try done; lia].
    split_and!; try done; [by rewrite <- app_assoc, take_drop|rewrite length_take; lia].
  - intros k b k' r. cbn. destruct (up k && negb (ours_closed k)) eqn:Hu; intros [= <- <-]; cbn; change (up (put_in k _)) with (up k); split_and!; try done. by rewrite Nat.sub_0_r.
  - intros k. cbn. split_and!; try done. unfold up. cbn. destruct (decide (2 <= phase k)) as [Hp|Hp];
      [by rewrite !(bool_decide_eq_true_2 _ Hp)|by rewrite !(bool_decide_eq_false_2 _ Hp)].
Defined.
#[export] Instance sock_ports : TcpPorts sock.
Proof.
  refine {| port_of := s_port |}; cbn.
  - intros k p k'. case_decide; [done|]. by intros [= <-].
  - intros k a p. destruct (up k); [|done]. by intros [= <- <-].
  - intros k n. destruct (up k) eqn:Hu; cbn; change (up (take_out k n)) with (up k); by rewrite Hu.
  - intros k b. by destruct (up k && negb (ours_closed k)).
  - done.
Defined.

(** What a packet of its client does to a socket: one with bytes connects it where
    it listens; an empty one closes the client's side; a lone [x00] resets it. *)
Definition take_in (k : sock) (b : bytes) : sock :=
  if up k then
    if decide (b = []) then set_phase k 3 (connected k) (ours_closed k)
    else if decide (b = [x00]) then set_phase k 0 true (ours_closed k)
    else {| phase := phase k; s_port := s_port k; connected := connected k; ours_closed := ours_closed k; incoming := incoming k ++ b;
            s_taken := s_taken k; s_queued := s_queued k; capacity := capacity k |}
  else if bool_decide (phase k = 1) && negb (connected k) then
    {| phase := 2; s_port := s_port k; connected := true; ours_closed := false; incoming := b; s_taken := []; s_queued := []; capacity := capacity k |}
  else k.

#[export] Instance sock_set A : SocketSet (list A) nat A := {
  set_new := [];
  set_add ss k := (ss ++ [k], length ss);
  set_get ss h := ss !! h;
  set_put ss h k := <[h := k]> ss;
}.
#[export] Instance sock_set_view A : SocketSetView (list A) nat A.
Proof.
  split; cbn.
  - intros ss k ss' h [= <- <-]. split_and!; [by apply lookup_ge_None_2|by apply list_lookup_middle|]. intros h' Hne.
    destruct (decide (h' < length ss)); [by apply lookup_app_l|]. rewrite !lookup_ge_None_2; [done|lia|]. rewrite length_app. simpl. lia.
  - intros ss h k Hh. apply list_lookup_insert_eq. by apply lookup_lt_is_Some, not_eq_None_Some.
  - intros ss h h' k Hne. by apply list_lookup_insert_ne.
Defined.

Lemma continues_refl (k : sock) : continues k k.
Proof. split_and!; try done. exists []. by rewrite app_nil_r. Qed.
Lemma continues_phase (k : sock) p was : continues k (set_phase k p was (ours_closed k)).
Proof. split_and!; try done. exists []. by rewrite app_nil_r. Qed.
Lemma polled_refl (k : sock) quiet : polled quiet k k.
Proof.
  pose proof (continues_refl k) as Hc. unfold polled. split_and!; try done. intros Ho. by rewrite (proj2 (orb_true_iff _ _) Ho).
Qed.
Lemma take_in_view (k : sock) b : polled false k (take_in k b).
Proof.
  unfold take_in. destruct (up k) eqn:Hu.
  - assert (forall k' : sock, capacity k' = capacity k -> continues k k' -> local_endpoint k' = local_endpoint k \/ up k' = false -> connected k' || up k' = true ->
      is_open k = true -> polled false k k') as Hgo.
    { intros k' H1 H2 H3 H4 H5. unfold polled. cbn [is_active opened sock_tcp sock_view] in *. rewrite Hu, H4. split_and!; try done; [|congruence].
      intros _. split; [done|]. intros Hup. split; [done|]. by destruct H3 as [?|?]; [|congruence]. }
    assert (bool_decide (2 <= phase k)) as Hp by (unfold up in Hu; by rewrite Hu). apply bool_decide_unpack in Hp.
    assert (is_open k = true) as Hopen by (apply bool_decide_eq_true; lia).
    case_decide; [|case_decide]; apply Hgo; try done; try apply continues_phase; cbn.
    + left. by rewrite Hu.
    + by rewrite orb_true_r.
    + by right.
    + split_and!; try done. exists b. cbn. by rewrite app_assoc.
    + unfold up in *. cbn. rewrite Hu. by left.
    + unfold up in *. cbn. by rewrite Hu, orb_true_r.
  - destruct (bool_decide (phase k = 1) && negb (connected k)) eqn:Hc; [|apply polled_refl]. apply andb_true_iff in Hc as [Hp Hn].
    unfold polled. cbn. rewrite Hu. destruct (connected k); [done|]. cbn. split_and!; try done. apply bool_decide_eq_true in Hp. intros Ho. apply bool_decide_eq_false in Ho. lia.
Qed.
Lemma take_in_port (k : sock) b : s_port (take_in k b) = s_port k.
Proof. unfold take_in. by repeat case_match. Qed.
End Example.
