(* ===== verification/FwTunnel.v ===== *)
(** The subnet route of the firmware: [lando-fw/src/tunnel.rs].

    TCP that comes over the tailnet ends here, at a socket of [Smoltcp], and is
    opened anew to the same destination on the LAN. [Tunnel] is the stack and its
    sockets; eight workers share it. A [Worker] is where such a task stands
    between two awaits, [work] takes it from one to the next; [step] lets a worker
    go on or another task of the device call in, in any order: a timer is a wait
    like any other, so that a schedule need not respect it. *)
From stdpp Require Import relations.
From S2P Require Import Prelude StateError Smoltcp Socket.
From S2P Require Mdns.

Definition PORTS : list Z :=
  [80; 80; 80; 80; 80; 84; 84; 84; 84; 8080; 8080; 8009; 8009; 8008; 443; 443; 37193; 37193; 37193]%Z.

Definition TCP_RX : nat := 1024.
Definition TCP_TX : nat := 8 * 1024.
(** In seconds. *)
Definition IDLE_LIMIT : Z := 900.
Definition SILENT_LIMIT : Z := 6.
Definition MTU : nat := 1400.
Definition QUEUE : nat := 12.

(** ** The device *)

Record TunnelDevice := { inbound : list bytes; outbound : list bytes }.
Definition device_default : TunnelDevice := {| inbound := []; outbound := [] |}.

(** [push] of a [heapless::Vec] *)
Definition push {A} (cap : nat) (l : list A) (a : A) : list A * bool :=
  if decide (length l < cap) then (l ++ [a], true) else (l, false).

(** [consume] of a [TxToken]: [f] fills a packet of [len] bytes; one of more than
    [MTU] stays empty. *)
Definition tx_consume {R} (self : TunnelDevice) (len : nat) (f : bytes -> bytes * R) : TunnelDevice * R :=
  let buf := if decide (len <= MTU) then zeros len else [] in
  let (buf, result) := f buf in
  ({| inbound := inbound self; outbound := (push QUEUE (outbound self) buf).1 |}, result).

(** [receive]: the packet its [RxToken] shows. *)
Definition receive (self : TunnelDevice) : option (bytes * TunnelDevice) :=
  match inbound self with
  | [] => None
  | packet :: rest => Some (packet, {| inbound := rest; outbound := outbound self |})
  end.

(** [transmit]: whether there is a token. *)
Definition transmit (self : TunnelDevice) : bool := negb (bool_decide (length (outbound self) = QUEUE)).

(** ** What the tunnel is built on *)

(** [smoltcp::socket::udp]; [M] is the metadata of a datagram. *)
Class Udp (U M : Type) := {
  udp_new : U;
  udp_bind : U -> Z -> U * bool;
  udp_can_recv : U -> bool;
  udp_recv : U -> U * option (bytes * M);
  udp_send_slice : U -> bytes -> M -> U * bool;
}.

(** [smoltcp::iface::Interface], without an address; its sockets are of either
    kind. *)
Class Iface (I SS H K U : Type) := {
  sockets_of :: SocketSet SS H (K + U);
  iface_new : I;
  set_any_ip : I -> bool -> I;
  iface_poll : I -> Z -> TunnelDevice -> SS -> I * TunnelDevice * SS;
}.

(** The clock and the sockets of the LAN: [embassy_time], whose instants count
    ticks, and [embassy_net]. A read is in a [select] with a timer, [None] where
    the timer is first; a write and a flush are over when they return. *)
Class Board (N X : Type) := {
  TICK_HZ : Z;
  instant_now : N -> N * Z;
  lan_connect : N -> bytes * Z -> N * option X;
  lan_write_all : N -> X -> bytes -> N * bool;
  lan_read : N -> X -> nat -> N * option (option bytes);
  lan_flush : N -> X -> N;
  lan_close : N -> X -> N;
}.

Record Tunnel (I SS H : Type) := {
  device : TunnelDevice; iface : I; sockets : SS; listeners : list (H * Z); claimed : list bool; dropped : Z; mdns : H
}.
Arguments device {I SS H}.
Arguments iface {I SS H}.
Arguments sockets {I SS H}.
Arguments listeners {I SS H}.
Arguments claimed {I SS H}.
Arguments dropped {I SS H}.
Arguments mdns {I SS H}.
Arguments Build_Tunnel {I SS H}.

(** The tunnel in its lock, and what is around it. *)
Record Shared (I SS H N : Type) := { tunnel : Tunnel I SS H; board : N }.
Arguments tunnel {I SS H N}.
Arguments board {I SS H N}.

(** What [claim] gives. *)
Record Claim (H : Type) := { slot : nat; handle : H; dst : bytes; port : Z }.
Arguments slot {H}.
Arguments handle {H}.
Arguments dst {H}.
Arguments port {H}.

(** The locals of [relay]. *)
Record Relay := { held : bytes; last_activity : Z; heard_from_lan : bool; pending : nat * nat }.

(** Where a task of [worker] stands: before it looks for a connection; at
    [connect]; before a turn of [relay]; at [write_all], with the bytes; at the
    [select] of a read; in [flush], with the turns left; at the flush of the LAN
    socket; before it gives the socket back. *)
Inductive Worker (H X : Type) :=
| Seeking
| Dialling (c : Claim H)
| Turning (c : Claim H) (x : X) (r : Relay)
| Writing (c : Claim H) (x : X) (r : Relay) (chunk : bytes)
| Reading (c : Claim H) (x : X) (r : Relay)
| Flushing (c : Claim H) (x : X) (turns : nat)
| Closing (c : Claim H) (x : X)
| Returning (c : Claim H).
Arguments Seeking {H X}.
Arguments Dialling {H X}.
Arguments Turning {H X}.
Arguments Writing {H X}.
Arguments Reading {H X}.
Arguments Flushing {H X}.
Arguments Closing {H X}.
Arguments Returning {H X}.

(** ** [Tunnel] *)
Section Operations.
Context {I SS H K U M N X E : Type} `{TK : Tcp K} `{UD : Udp U M} `{SM : !Iface I SS H K U} `{BD : Board N X}.
Abbreviation TunnelT := (Tunnel I SS H).
Abbreviation SharedT := (Shared I SS H N).
Abbreviation M' := (SE SharedT E).

Definition set_device (t : TunnelT) (d : TunnelDevice) : TunnelT :=
  Build_Tunnel d (iface t) (sockets t) (listeners t) (claimed t) (dropped t) (mdns t).
Definition set_sockets (t : TunnelT) (ss : SS) : TunnelT :=
  Build_Tunnel (device t) (iface t) ss (listeners t) (claimed t) (dropped t) (mdns t).
Definition set_claimed (t : TunnelT) (cs : list bool) : TunnelT :=
  Build_Tunnel (device t) (iface t) (sockets t) (listeners t) cs (dropped t) (mdns t).
Definition set_dropped (t : TunnelT) (n : Z) : TunnelT :=
  Build_Tunnel (device t) (iface t) (sockets t) (listeners t) (claimed t) n (mdns t).

(** [sockets.get_mut::<tcp::Socket>(handle)], which panics on a socket of another
    kind, and of a [udp::Socket]. *)
Definition tcp_socket (ss : SS) (handle : H) : outcome E K := match set_get ss handle with Some (inl k) => Ok k | _ => Panic end.
Definition udp_socket (ss : SS) (handle : H) : outcome E U := match set_get ss handle with Some (inr u) => Ok u | _ => Panic end.
Definition put_tcp (t : TunnelT) (handle : H) (k : K) : TunnelT := set_sockets t (set_put (sockets t) handle (inl k)).
Definition put_udp (t : TunnelT) (handle : H) (u : U) : TunnelT := set_sockets t (set_put (sockets t) handle (inr u)).

(** [Tunnel::new], its loop over the buffers of the storage first: socket [i]
    listens on port [i] of [PORTS]. *)
Fixpoint listen_loop (ports : list Z) (st : SS * list (H * Z)) : outcome E (SS * list (H * Z)) :=
  match ports with
  | [] => Ok st
  | port :: ports =>
      let (sockets, listeners) := st in
      let (sockets, handle) := set_add sockets (inl (socket_new TCP_RX TCP_TX)) in
      let? socket := tcp_socket sockets handle in
      let (socket, listening) := listen socket port in
      let sockets := set_put sockets handle (inl socket) in
      listen_loop ports (sockets, if (listening : bool) then (push (length PORTS) listeners (handle, port)).1 else listeners)
  end.
Definition tunnel_new : outcome E TunnelT :=
  let iface := set_any_ip iface_new true in
  let? (sockets, listeners) := listen_loop PORTS (set_new, []) in
  let (sockets, mdns) := set_add sockets (inr udp_new) in
  let? socket := udp_socket sockets mdns in
  let (socket, _) := udp_bind socket Mdns.PORT in
  Ok (Build_Tunnel device_default iface (set_put sockets mdns (inr socket)) listeners (replicate (length PORTS) false) 0 mdns).

(** [Instant::now()], [as_millis] and [poll]. *)
Definition on_board {A} (f : N -> N * A) : M' A := fun s =>
  let (n, a) := f (board s) in ({| tunnel := tunnel s; board := n |}, Ok a).
Definition set_tunnel (t : TunnelT) : M' unit := modify (fun s => {| tunnel := t; board := board s |}).
Definition as_millis (now : Z) : Z := (now * 1000 / TICK_HZ)%Z.
Definition from_secs (secs : Z) : Z := (secs * TICK_HZ)%Z.
Definition poll (self : TunnelT) (now : Z) : TunnelT :=
  let '(i, d, ss) := iface_poll (iface self) (as_i64 (as_millis now)) (device self) (sockets self) in
  Build_Tunnel d i ss (listeners self) (claimed self) (dropped self) (mdns self).
(** [self.poll(Instant::now())] *)
Definition poll_now : M' unit :=
  do! now := on_board instant_now in
  do! s := get_state in
  set_tunnel (poll (tunnel s) now).

(** [Tunnel::socket], and the socket put back as an operation left it. *)
Definition socket (handle : H) : M' K := do! s := get_state in lift (tcp_socket (sockets (tunnel s)) handle).
Definition put_socket (handle : H) (k : K) : M' unit := do! s := get_state in set_tunnel (put_tcp (tunnel s) handle k).

(** [take_mdns_query], into a buffer of [room] bytes; [send_mdns_answer]. *)
Definition take_mdns_query (room : nat) : M' (option (bytes * M)) :=
  do! _ := poll_now in
  do! s := get_state in
  let t := tunnel s in
  do! u := lift (udp_socket (sockets t) (mdns t)) in
  if negb (udp_can_recv u) then ret None
  else
    let (u, got) := udp_recv u in
    do! _ := set_tunnel (put_udp t (mdns t) u) in
    match got with
    | None => ret None
    | Some (data, meta) =>
        do! data := lift (slice data 0 (length data `min` room)) in
        ret (Some (data, meta))
    end.
Definition send_mdns_answer (answer : bytes) (client : M) : M' unit :=
  do! s := get_state in
  let t := tunnel s in
  do! u := lift (udp_socket (sockets t) (mdns t)) in
  let (u, _) := udp_send_slice u answer client in
  do! _ := set_tunnel (put_udp t (mdns t) u) in
  poll_now.

(** [deliver] *)
Definition enqueue (self : TunnelT) (packet : bytes) : TunnelT :=
  if decide (length packet <= MTU) then
    let d := device self in
    let (queue, pushed) := push QUEUE (inbound d) packet in
    let self := set_device self {| inbound := queue; outbound := outbound d |} in
    if (pushed : bool) then self else set_dropped self (wrap 32 (dropped self + 1))
  else self.
Definition deliver_packet (packet : bytes) : M' unit :=
  do! s := get_state in
  do! _ := set_tunnel (enqueue (tunnel s) packet) in
  poll_now.

(** [take_outbound] *)
Definition take_outbound (self : TunnelT) : TunnelT * option bytes :=
  let d := device self in
  match outbound d with
  | [] => (self, None)
  | packet :: rest => (set_device self {| inbound := inbound d; outbound := rest |}, Some packet)
  end.

(** [claim], over the listeners from [i]. *)
Fixpoint claim_loop (rest : list (H * Z)) (i : nat) (self : TunnelT) : outcome E (TunnelT * option (Claim H)) :=
  match rest with
  | [] => Ok (self, None)
  | (handle, _) :: rest =>
      let? taken := index (claimed self) i in
      if (taken : bool) then claim_loop rest (S i) self
      else
        let? socket := tcp_socket (sockets self) handle in
        if negb (may_recv socket) && negb (may_send socket) then claim_loop rest (S i) self
        else
          match local_endpoint socket with
          | None => claim_loop rest (S i) self
          | Some (addr, port) =>
              let? claimed := set_at (claimed self) i true in
              Ok (set_claimed self claimed, Some {| slot := i; handle := handle; dst := addr; port := port |})
          end
  end.
Definition claim (self : TunnelT) : outcome E (TunnelT * option (Claim H)) := claim_loop (listeners self) 0 self.

(** [stats]: listeners claimed, listening and active, packets dropped. *)
Fixpoint count_loop (rest : list (H * Z)) (self : TunnelT) (listening active : nat) : outcome E (nat * nat) :=
  match rest with
  | [] => Ok (listening, active)
  | (handle, _) :: rest =>
      let? socket := tcp_socket (sockets self) handle in
      count_loop rest self (listening + Nat.b2n (is_listening socket)) (active + Nat.b2n (is_active socket))
  end.
Definition stats (self : TunnelT) : outcome E (nat * nat * nat * Z) :=
  let? (listening, active) := count_loop (listeners self) self 0 0 in
  Ok (length (filter (fun c : bool => c = true) (claimed self)), listening, active, dropped self).

(** [relisten] *)
Definition relisten (c : Claim H) : M' bool :=
  do! k := socket (handle c) in
  do! _ := put_socket (handle c) (abort k) in
  do! _ := poll_now in
  do! k := socket (handle c) in
  do! _ :=
    if is_open k then
      do! _ := put_socket (handle c) (close k) in
      poll_now
    else ret tt in
  do! k := socket (handle c) in
  let (k, ok) := listen k (port c) in
  do! _ := put_socket (handle c) k in
  do! s := get_state in
  do! claimed := lift (set_at (claimed (tunnel s)) (slot c) false) in
  do! _ := set_tunnel (set_claimed (tunnel s) claimed) in
  ret ok.

(** *** The workers *)

(** The lock of [relay] ahead of its test of [closed]: what the client sent, with
    [closed]. *)
Definition from_client (handle : H) : M' (bytes * nat) :=
  do! _ := poll_now in
  do! k := socket handle in
  if negb (is_active k) then ret ([], 2)
  else
    do! (k, chunk) :=
      if can_recv k then
        let (k, got) := recv_slice k 1024 in
        do! _ := put_socket handle k in
        ret (k, default [] got)
      else ret (k, []) in
    let peer_done := negb (may_recv k) && bool_decide (length chunk = 0) in
    ret (chunk, if negb (is_active k) then 2 else if peer_done then 1 else 0).

(** What of [held] is pending, sent to the client as far as its socket takes it. *)
Definition drain_held (handle : H) (r : Relay) : M' Relay :=
  do! chunk := lift (slice (held r) (pending r).1 (pending r).2) in
  do! k := socket handle in
  do! sent :=
    if can_send k then
      let (k, sent) := send_slice k chunk in
      do! _ := put_socket handle k in
      ret (default 0 sent)
    else ret 0 in
  ret {| held := held r; last_activity := last_activity r; heard_from_lan := heard_from_lan r; pending := ((pending r).1 + sent, (pending r).2) |}.

(** From [let waited = ..] to the next await. *)
Definition relay_on (c : Claim H) (x : X) (r : Relay) : M' (Worker H X) :=
  do! now := on_board instant_now in
  do! waited := lift (usub now (last_activity r)) in
  if negb (heard_from_lan r) && bool_decide (from_secs SILENT_LIMIT < waited)%Z then ret (Closing c x)
  else if decide (from_secs IDLE_LIMIT < waited)%Z then ret (Closing c x)
  else if decide ((pending r).1 < (pending r).2) then
    do! r := drain_held (handle c) r in
    ret (Turning c x r)
  else ret (Reading c x r).

(** [worker] ahead of [splice]. *)
Definition seek : M' (Worker H X) :=
  do! _ := poll_now in
  do! s := get_state in
  do! (t, pending) := lift (claim (tunnel s)) in
  do! _ := set_tunnel t in
  ret (match pending with Some c => Dialling c | None => Seeking end).

(** [splice] up to [relay], with what [relay] starts from. *)
Definition dial (c : Claim H) : M' (Worker H X) :=
  do! lan := on_board (fun n => lan_connect n (dst c, port c)) in
  match lan with
  | None => ret (Returning c)
  | Some x =>
      do! now := on_board instant_now in
      ret (Turning c x {| held := zeros 2048; last_activity := now; heard_from_lan := false; pending := (0, 0) |})
  end.

(** A turn of [relay] up to its first await. *)
Definition relay_turn (c : Claim H) (x : X) (r : Relay) : M' (Worker H X) :=
  do! (chunk, closed) := from_client (handle c) in
  if decide (closed = 2) then ret (Closing c x)
  else if decide (closed = 1) then ret (Closing c x)
  else if decide (0 < length chunk) then
    do! now := on_board instant_now in
    ret (Writing c x {| held := held r; last_activity := now; heard_from_lan := heard_from_lan r; pending := pending r |} chunk)
  else relay_on c x r.

(** [write_all] and what follows. *)
Definition write_chunk (c : Claim H) (x : X) (r : Relay) (chunk : bytes) : M' (Worker H X) :=
  do! ok := on_board (fun n => lan_write_all n x chunk) in
  if (ok : bool) then relay_on c x r else ret (Closing c x).

(** The [select] of a read and what follows. *)
Definition read_lan (c : Claim H) (x : X) (r : Relay) : M' (Worker H X) :=
  do! read := on_board (fun n => lan_read n x (length (held r))) in
  match read with
  | None => ret (Turning c x r)
  | Some None => ret (Flushing c x 50)
  | Some (Some b) =>
      if decide (length b = 0) then ret (Flushing c x 50)
      else
        do! held := lift (copy_range (held r) 0 (length b) b) in
        do! now := on_board instant_now in
        ret (Turning c x {| held := held; last_activity := now; heard_from_lan := true; pending := (0, length b) |})
  end.

(** [flush], a turn of its loop. *)
Definition flush_turn (c : Claim H) (x : X) (turns : nat) : M' (Worker H X) :=
  match turns with
  | O => ret (Closing c x)
  | S turns =>
      do! _ := poll_now in
      do! k := socket (handle c) in
      let done := negb (is_active k) || bool_decide (send_queue k = 0) in
      ret (if done then Closing c x else Flushing c x turns)
  end.

(** The end of [splice]. *)
Definition close_lan (c : Claim H) (x : X) : M' (Worker H X) :=
  do! _ := on_board (fun n => (lan_close (lan_flush n x) x, tt)) in
  ret (Returning c).

(** [worker], from one await to the next. *)
Definition work (w : Worker H X) : M' (Worker H X) :=
  match w with
  | Seeking => seek
  | Dialling c => dial c
  | Turning c x r => relay_turn c x r
  | Writing c x r chunk => write_chunk c x r chunk
  | Reading c x r => read_lan c x r
  | Flushing c x turns => flush_turn c x turns
  | Closing c x => close_lan c x
  | Returning c =>
      do! _ := relisten c in
      ret Seeking
  end.

(** [monitor] takes the statistics under the lock. *)
Definition monitor : M' (nat * nat * nat * Z) := do! s := get_state in lift (stats (tunnel s)).

(** ** The tunnel among the tasks of the device *)

(** A worker goes on; a packet of a peer comes in, or one for a peer is taken; a
    query is taken into so many bytes, or answered; the monitor looks. *)
Inductive Event :=
| Work (i : nat)
| FromPeer (packet : bytes)
| ToPeer
| TakeQuery (room : nat)
| Answer (answer : bytes) (client : M)
| Monitor.

Record System := { shared : SharedT; workers : list (Worker H X) }.

Definition step (e : Event) (s : System) : outcome E System :=
  match e with
  | Work i =>
      match workers s !! i with
      | None => Ok s
      | Some w =>
          match work w (shared s) with
          | (sh, m) => let? w := m in Ok {| shared := sh; workers := <[i := w]> (workers s) |}
          end
      end
  | FromPeer packet => let (sh, m) := deliver_packet packet (shared s) in let? _ := m in Ok {| shared := sh; workers := workers s |}
  | ToPeer =>
      let (t, _) := take_outbound (tunnel (shared s)) in
      Ok {| shared := {| tunnel := t; board := board (shared s) |}; workers := workers s |}
  | TakeQuery room => let (sh, m) := take_mdns_query room (shared s) in let? _ := m in Ok {| shared := sh; workers := workers s |}
  | Answer answer client => let (sh, m) := send_mdns_answer answer client (shared s) in let? _ := m in Ok {| shared := sh; workers := workers s |}
  | Monitor => let (sh, m) := monitor (shared s) in let? _ := m in Ok {| shared := sh; workers := workers s |}
  end.

Fixpoint run (es : list Event) (s : System) : outcome E System :=
  match es with
  | [] => Ok s
  | e :: es => let? s := step e s in run es s
  end.

(** [serve]: eight workers. *)
Definition serve (t : TunnelT) (n : N) : System := {| shared := {| tunnel := t; board := n |}; workers := replicate 8 Seeking |}.

(** The LAN side of the relay connection ([FwDerp]): a packet of a peer is
    delivered to the tunnel. *)
#[export] Instance tunnel_lan_side : LanSide SharedT := { deliver s packet := (deliver_packet packet s).1 }.
End Operations.

(** ** What is relied on *)

(** A poll reaches the queues through the device alone: it takes a packet, and may
    use the token that comes with it, or fills a packet of at most the MTU where
    there is a token; the buffer it is given keeps its length. *)
Inductive phy_step : TunnelDevice -> TunnelDevice -> Prop :=
| phy_receive d packet d' : receive d = Some (packet, d') -> phy_step d d'
| phy_reply d packet d' R len (f : bytes -> bytes * R) : receive d = Some (packet, d') -> len <= MTU ->
    (forall b, length (f b).1 = length b) -> phy_step d (tx_consume d' len f).1
| phy_transmit d R len (f : bytes -> bytes * R) : transmit d = true -> len <= MTU ->
    (forall b, length (f b).1 = length b) -> phy_step d (tx_consume d len f).1.

Class IfaceView (I SS H K U : Type) `{TV : TcpView K, TP : !TcpPorts K} `{SM : !Iface I SS H K U} := {
  sockets_of_view :: SocketSetView SS H (K + U);
  iface_poll_view i now d ss i' d' ss' : iface_poll i now d ss = (i', d', ss') -> rtc phy_step d d' /\
    forall h s, set_get ss h = Some s -> exists s', set_get ss' h = Some s' /\
      match s, s' with
      | inl k, inl k' => polled (bool_decide (inbound d = [])) k k' /\ port_of k' = port_of k
      | inr _, inr _ => True
      | _, _ => False
      end;
}.

(** A packet that resets the connection of a socket: a RST segment that the socket
    takes as one. The socket is closed by it, and forgets its endpoint. *)
Class IfaceReset (I SS H K U : Type) `{TV : TcpView K} `{SM : !Iface I SS H K U} := {
  resets : I -> SS -> H -> bytes -> Prop;
  reset_view i now d ss i' d' ss' h k packet : set_get ss h = Some (inl k) -> is_active k = true -> opened k = true -> resets i ss h packet ->
    inbound d = [packet] -> iface_poll i now d ss = (i', d', ss') ->
    exists k', set_get ss' h = Some (inl k') /\ is_open k' = false /\ local_endpoint k' = None;
}.

(** A connection to the LAN: where to, what was written and read. *)
Record Stream := { peer_addr : bytes * Z; to_lan : bytes; from_lan : bytes }.

(** The clock does not go back. A write that fails may have written some of its
    bytes; a read the timer ends has read none. *)
Class BoardView (N X : Type) `{Board N X} := {
  time : N -> Z;
  lan : N -> X -> option Stream;
  tick_hz_pos : (0 < TICK_HZ)%Z;
  instant_now_view n n' t : instant_now n = (n', t) -> (time n <= t /\ time n' = t)%Z /\ forall y, lan n' y = lan n y;
  lan_connect_view n a n' r : lan_connect n a = (n', r) -> (time n <= time n')%Z /\
    match r with
    | Some x => lan n x = None /\ lan n' x = Some {| peer_addr := a; to_lan := []; from_lan := [] |} /\ forall y, y <> x -> lan n' y = lan n y
    | None => forall y, lan n' y = lan n y
    end;
  lan_write_all_view n x s b n' ok : lan n x = Some s -> lan_write_all n x b = (n', ok) -> (time n <= time n')%Z /\
    (forall y, y <> x -> lan n' y = lan n y) /\
    exists m, m <= length b /\ (ok = true -> m = length b) /\
      lan n' x = Some {| peer_addr := peer_addr s; to_lan := to_lan s ++ take m b; from_lan := from_lan s |};
  lan_read_view n x s want n' r : lan n x = Some s -> lan_read n x want = (n', r) -> (time n <= time n')%Z /\
    (forall y, y <> x -> lan n' y = lan n y) /\
    match r with
    | Some (Some b) => length b <= want /\ lan n' x = Some {| peer_addr := peer_addr s; to_lan := to_lan s; from_lan := from_lan s ++ b |}
    | _ => lan n' x = Some s
    end;
  lan_flush_view n x y : (time n <= time (lan_flush n x))%Z /\ lan (lan_flush n x) y = lan n y;
  lan_close_view n x y : (time n <= time (lan_close n x))%Z /\ lan (lan_close n x) y = lan n y;
}.

(** ** The queues *)

(** Both queues keep to their depth, and packets to the MTU. *)
Definition bounded (d : TunnelDevice) : Prop :=
  length (inbound d) <= QUEUE /\ length (outbound d) <= QUEUE /\
  Forall (fun p => length p <= MTU) (inbound d) /\ Forall (fun p => length p <= MTU) (outbound d).

Lemma push_length {A} cap (l : list A) a : length l <= cap -> length (push cap l a).1 <= cap.
Proof. unfold push. case_decide; [|done]. cbn [fst]. rewrite length_app. simpl. lia. Qed.
Lemma push_Forall {A} (P : A -> Prop) cap l a : Forall P l -> P a -> Forall P (push cap l a).1.
Proof. unfold push. case_decide; [|done]. cbn [fst]. intros. by rewrite Forall_app, Forall_singleton. Qed.

Lemma tx_consume_bounded {R} d len (f : bytes -> bytes * R) : len <= MTU -> (forall b, length (f b).1 = length b) -> bounded d -> bounded (tx_consume d len f).1.
Proof.
  intros Hl Hf (Hi & Ho & Hmi & Hmo). unfold tx_consume. rewrite decide_True by done. specialize (Hf (zeros len)). destruct (f (zeros len)) as [b r].
  cbn [fst inbound outbound] in *. unfold bounded. cbn [inbound outbound]. split; [done|]. split; [by apply push_length|]. split; [done|].
  apply push_Forall; [done|]. rewrite Hf. unfold zeros. by rewrite length_replicate.
Qed.
Lemma receive_bounded d packet d' : receive d = Some (packet, d') -> bounded d -> bounded d'.
Proof.
  unfold receive, bounded. destruct (inbound d) as [|p rest] eqn:E; [done|]. intros [= <- <-] (Hi & Ho & Hmi & Hmo).
  cbn [inbound outbound]. inversion_clear Hmi. simpl in Hi. split; [lia|done].
Qed.
Lemma phy_bounded d d' : rtc phy_step d d' -> bounded d -> bounded d'.
Proof.
  induction 1 as [|a b c Hab _ IH]; [done|]. intros Ha. apply IH. clear IH.
  destruct Hab; [by eapply receive_bounded| |by apply tx_consume_bounded]. apply tx_consume_bounded; [done..|]. by eapply receive_bounded.
Qed.

(** ** What holds of the tunnel and its workers *)
Section Invariant.
Context {I SS H K U M N X E : Type} `{TV : TcpView K, TP : !TcpPorts K} `{UD : Udp U M}
  `{SM : !Iface I SS H K U, SV : !IfaceView I SS H K U} `{BV : BoardView N X}.
Abbreviation TunnelT := (Tunnel I SS H).
Abbreviation SharedT := (Shared I SS H N).
Abbreviation M' := (SE SharedT E).
Abbreviation SystemT := (System (I:=I) (SS:=SS) (H:=H) (N:=N) (X:=X)).

Definition tcp_at (t : TunnelT) (h : H) (k : K) : Prop := set_get (sockets t) h = Some (inl k).

(** The connection and the LAN socket a worker has in its hands. *)
Definition claim_of (w : Worker H X) : option (Claim H) :=
  match w with
  | Seeking => None
  | Dialling c | Turning c _ _ | Writing c _ _ _ | Reading c _ _ | Flushing c _ _ | Closing c _ | Returning c => Some c
  end.
Definition stream_of (w : Worker H X) : option X :=
  match w with
  | Turning _ x _ | Writing _ x _ _ | Reading _ x _ | Flushing _ x _ | Closing _ x => Some x
  | _ => None
  end.

Definition pending_bytes (r : Relay) : bytes := take ((pending r).2 - (pending r).1) (drop (pending r).1 (held r)).

(** A connection carries bytes both ways, each once and in order: what was taken
    from the client is what the LAN was given and [chunk], and what the LAN said is
    what was queued for the client and [rest]. *)
Definition carries (n : N) (c : Claim H) (x : X) (k : K) (chunk rest : bytes) : Prop :=
  exists s, lan n x = Some s /\ peer_addr s = (dst c, port c) /\ taken k = to_lan s ++ chunk /\ from_lan s = queued k ++ rest.
(** The same of a connection at its end, where a rest may be lost. *)
Definition carried (n : N) (c : Claim H) (x : X) (k : K) : Prop :=
  exists s, lan n x = Some s /\ peer_addr s = (dst c, port c) /\ to_lan s `prefix_of` taken k /\ queued k `prefix_of` from_lan s.

Record relay_ok (n : N) (r : Relay) : Prop := {
  held_length : length (held r) = 2048;
  pending_range : (pending r).1 <= (pending r).2 <= 2048;
  activity_past : (last_activity r <= time n)%Z;
}.

Definition serving (n : N) (k : K) (w : Worker H X) : Prop :=
  match w with
  | Seeking | Returning _ => True
  | Dialling c => taken k = [] /\ queued k = []
  | Turning c x r => relay_ok n r /\ carries n c x k [] (pending_bytes r)
  | Writing c x r chunk => relay_ok n r /\ carries n c x k chunk (pending_bytes r)
  | Reading c x r => relay_ok n r /\ pending_bytes r = [] /\ carries n c x k [] []
  | Flushing c x _ => carries n c x k [] []
  | Closing c x => carried n c x k
  end.

(** The connection a worker took, if it is still up: the client addressed [dst]. *)
Definition connected (c : Claim H) (k : K) : Prop := opened k = true /\ (is_active k = true -> local_endpoint k = Some (dst c, port c)).

(** Worker [j] has claim [c]. *)
Definition holds (ws : list (Worker H X)) (j : nat) (c : Claim H) : Prop := exists w, ws !! j = Some w /\ claim_of w = Some c.
Definition dialled (ws : list (Worker H X)) (j : nat) (x : X) : Prop := exists w, ws !! j = Some w /\ stream_of w = Some x.

(** A listener: its port, and, while no worker has it, a connection nothing was
    done to. *)
Definition listener_ok (t : TunnelT) (i : nat) (h : H) (p : Z) : Prop :=
  (0 < p < 2 ^ 16)%Z /\ exists k, tcp_at t h k /\ port_of k = p /\
    (claimed t !! i = Some false -> is_active k = true \/ opened k = true -> taken k = [] /\ queued k = []).
Definition worker_ok (t : TunnelT) (n : N) (w : Worker H X) : Prop :=
  match claim_of w with
  | None => True
  | Some c => listeners t !! slot c = Some (handle c, port c) /\ claimed t !! slot c = Some true /\
      exists k, tcp_at t (handle c) k /\ (connected c k \/ w = Returning c) /\ serving n k w
  end.

Record Inv (t : TunnelT) (n : N) (ws : list (Worker H X)) : Prop := {
  inv_queues : bounded (device t);
  inv_dropped : (0 <= dropped t < 2 ^ 32)%Z;
  inv_flags : length (claimed t) = length PORTS;
  inv_ports : (listeners t).*2 = PORTS;
  inv_handles : NoDup (listeners t).*1;
  inv_mdns : exists u, set_get (sockets t) (mdns t) = Some (inr u);
  inv_slot i h p : listeners t !! i = Some (h, p) -> listener_ok t i h p;
  inv_worker j w : ws !! j = Some w -> worker_ok t n w;
  inv_claimed i : claimed t !! i = Some true -> exists j c, holds ws j c /\ slot c = i;
  inv_exclusive j j' c c' : holds ws j c -> holds ws j' c' -> slot c = slot c' -> j = j';
  inv_streams j j' x : dialled ws j x -> dialled ws j' x -> j = j';
}.

(** *** Changes nobody else notices *)

Lemma handle_slot (t : TunnelT) i i' h p p' : NoDup (listeners t).*1 -> listeners t !! i = Some (h, p) -> listeners t !! i' = Some (h, p') -> i = i'.
Proof. intros Hd Hi Hi'. eapply NoDup_lookup; [exact Hd|..]; rewrite list_lookup_fmap; [by rewrite Hi|by rewrite Hi']. Qed.

(** A connection that goes on. *)
Lemma serving_continues n n' k k' w : continues k k' -> (forall y, lan n' y = lan n y) -> (time n <= time n')%Z -> serving n k w -> serving n' k' w.
Proof.
  intros (_ & Ht & Hq & _) Hl Hn.
  assert (forall c x chunk rest, carries n c x k chunk rest -> carries n' c x k' chunk rest) as Hc.
  { intros c x chunk rest (s & ?). exists s. by rewrite Hl, Ht, Hq. }
  assert (forall r, relay_ok n r -> relay_ok n' r) as Hr by (intros r [? ? ?]; split; [done..|lia]).
  destruct w; cbn [serving]; rewrite ?Ht, ?Hq; try done; try (intuition auto; fail).
  intros (s & ?). exists s. by rewrite Hl, Ht, Hq.
Qed.

(** The world goes on, and touches only the stream [w] has. *)
Definition world_frame (w : Worker H X) (n n' : N) : Prop :=
  (time n <= time n')%Z /\ forall y, lan n y <> None -> stream_of w <> Some y -> lan n' y = lan n y.

Lemma world_same w n n' : (time n <= time n')%Z -> (forall y, lan n' y = lan n y) -> world_frame w n n'.
Proof. by split. Qed.
Lemma world_trans w n n1 n2 : world_frame w n n1 -> world_frame w n1 n2 -> world_frame w n n2.
Proof.
  intros [Ht1 F1] [Ht2 F2]. split; [lia|]. intros y Hy Hw. rewrite F2; [by apply F1|by rewrite F1|done].
Qed.

Lemma serving_frame n n' k w w' : world_frame w' n n' -> (forall x, stream_of w = Some x -> stream_of w' <> Some x) -> serving n k w -> serving n' k w.
Proof.
  intros [Hn Hl] Hd.
  assert (forall x s, stream_of w = Some x -> lan n x = Some s -> lan n' x = Some s) as Hs.
  { intros x s Hx Hs. rewrite Hl; [done|congruence|by apply Hd]. }
  assert (forall c x k chunk rest, stream_of w = Some x -> carries n c x k chunk rest -> carries n' c x k chunk rest) as Hc.
  { intros c x k0 chunk rest Hx (s & Hls & ?). exists s. by rewrite (Hs x s Hx Hls). }
  assert (forall r, relay_ok n r -> relay_ok n' r) as Hr by (intros r [? ? ?]; split; [done..|lia]).
  destruct w; cbn [serving stream_of] in *; try done; try (intuition eauto; fail).
  intros (s & Hls & ?). exists s. by rewrite (Hs _ s eq_refl Hls).
Qed.

(** *** A poll *)
Lemma tunnel_poll_spec (t : TunnelT) now : let t' := poll t now in
  rtc phy_step (device t) (device t') /\ listeners t' = listeners t /\ claimed t' = claimed t /\ dropped t' = dropped t /\ mdns t' = mdns t /\
  (forall h k, tcp_at t h k -> exists k', tcp_at t' h k' /\ polled (bool_decide (inbound (device t) = [])) k k' /\ port_of k' = port_of k) /\
  (forall h u, set_get (sockets t) h = Some (inr u) -> exists u', set_get (sockets t') h = Some (inr u')).
Proof.
  unfold poll, tcp_at. destruct (iface_poll _ _ _ _) as [[i' d'] ss'] eqn:Ep. apply iface_poll_view in Ep as [Hd Hss]. cbn.
  split; [exact Hd|]. split_and!; try done.
  - intros h k Hk. destruct (Hss h _ Hk) as ([k'|u'] & Hk' & Hp); [|done]. by exists k'.
  - intros h u Hu. destruct (Hss h _ Hu) as ([k'|u'] & Hk' & Hp); [done|]. by exists u'.
Qed.

Lemma polled_connected quiet c k k' : polled quiet k k' -> connected c k -> connected c k' /\ continues k k'.
Proof.
  intros (_ & H2 & _ & H4 & _) [Ho He]. destruct (H4 Ho) as [Ho' Ha']. specialize (H2 (or_intror Ho')). rewrite Ho, orb_true_r in H2.
  split; [|exact H2]. split; [done|]. intros Ha. destruct (Ha' Ha) as [Hak ->]. by apply He.
Qed.

Lemma polled_untouched quiet k k' : polled quiet k k' -> (is_active k = true \/ opened k = true -> taken k = [] /\ queued k = []) ->
  is_active k' = true \/ opened k' = true -> taken k' = [] /\ queued k' = [].
Proof.
  intros (_ & H2 & _) Hk Hk'. specialize (H2 Hk'). destruct (is_active k || opened k) eqn:Ho; [|by destruct H2 as (? & ? & _)].
  destruct H2 as (_ & -> & -> & _). apply Hk. by apply orb_true_iff.
Qed.

Lemma poll_inv t n n' ws now : Inv t n ws -> (forall y, lan n' y = lan n y) -> (time n <= time n')%Z -> Inv (poll t now) n' ws.
Proof.
  intros Hinv Hl Hn. destruct (tunnel_poll_spec t now) as (Hd & El & Ec & Edr & Em & Hk & Hu). set (t' := poll t now) in *. destruct Hinv. split; try done.
  - by eapply phy_bounded.
  - by rewrite Edr.
  - by rewrite Ec.
  - by rewrite El.
  - by rewrite El.
  - destruct inv_mdns0 as [u Hm]. rewrite Em. by apply (Hu _ u).
  - rewrite El. intros i h p Hi. destruct (inv_slot0 i h p Hi) as (Hp & k & Hat & Hpk & Hun). split; [done|].
    destruct (Hk h k Hat) as (k' & Hat' & Hpol & Hpk'). exists k'. rewrite Ec. split; [done|]. split; [congruence|]. intros Hc.
    exact (polled_untouched _ _ _ Hpol (Hun Hc)).
  - intros j w Hj. pose proof (inv_worker0 j w Hj) as Hw. unfold worker_ok in *. destruct (claim_of w) as [c|]; [|done]. rewrite El, Ec.
    destruct Hw as (Hi & Hc & k & Hat & Ho & Hs). split; [done|]. split; [done|]. destruct (Hk _ k Hat) as (k' & Hat' & Hpol & _). exists k'.
    destruct Ho as [Ho| ->]; [|split_and!; try done; by right]. destruct (polled_connected _ _ _ _ Hpol Ho) as [Ho' Hcont].
    split_and!; [done|by left|]. by eapply serving_continues.
  - by rewrite Ec.
Qed.

(** *** Changes to one socket *)

(** [t'] is [t] but for the socket [h], which is [k] now. *)
Record beside (h : H) (k : K) (t t' : TunnelT) : Prop := {
  beside_device : device t' = device t;
  beside_listeners : listeners t' = listeners t;
  beside_claimed : claimed t' = claimed t;
  beside_dropped : dropped t' = dropped t;
  beside_mdns : mdns t' = mdns t;
  beside_at : tcp_at t' h k;
  beside_others h' : h' <> h -> set_get (sockets t') h' = set_get (sockets t) h';
}.

Lemma beside_refl h k t : tcp_at t h k -> beside h k t t.
Proof. by split. Qed.
Lemma beside_put h k k0 t : tcp_at t h k0 -> beside h k t (put_tcp t h k).
Proof. intros Hk. unfold tcp_at in *. split; try done; cbn; unfold tcp_at; cbn; [apply set_put_same; congruence|]. intros. by apply set_put_other. Qed.
Lemma beside_trans h k k' t t1 t2 : beside h k t t1 -> beside h k' t1 t2 -> beside h k' t t2.
Proof. intros [] []. split; try congruence. intros h' Hne. by rewrite beside_others1, beside_others0. Qed.

Lemma mdns_not_tcp t n ws h k : Inv t n ws -> tcp_at t h k -> mdns t <> h.
Proof. intros Hinv Hk <-. destruct (inv_mdns _ _ _ Hinv) as [u Hu]. unfold tcp_at in Hk. congruence. Qed.

Lemma holds_insert ws j w w' i d : ws !! j = Some w -> claim_of w' = claim_of w -> holds (<[j := w']> ws) i d <-> holds ws i d.
Proof.
  intros Hj Hc. pose proof (lookup_lt_Some _ _ _ Hj) as Hlt. unfold holds. destruct (decide (i = j)) as [->|Hne]; [|by rewrite list_lookup_insert_ne].
  rewrite list_lookup_insert_eq by done. split; intros (w0 & Hw & Hd); simplify_eq; eexists; (split; [done|congruence]).
Qed.

Lemma dialled_insert ws j w w' i x : ws !! j = Some w -> dialled (<[j := w']> ws) i x -> i <> j /\ dialled ws i x \/ i = j /\ stream_of w' = Some x.
Proof.
  intros Hj (w0 & Hw & Hx). pose proof (lookup_lt_Some _ _ _ Hj) as Hlt.
  destruct (decide (i = j)) as [->|Hne]; [|rewrite list_lookup_insert_ne in Hw by done; left; split; [done|by exists w0]].
  rewrite list_lookup_insert_eq in Hw by done. injection Hw as <-. by right.
Qed.

Lemma dialled_alive t n ws i x : Inv t n ws -> dialled ws i x -> lan n x <> None.
Proof.
  intros Hinv (w & Hw & Hx). pose proof (inv_worker _ _ _ Hinv i w Hw) as Hok. unfold worker_ok in Hok.
  destruct w; try done; cbn in Hok, Hx; injection Hx as ->; destruct Hok as (_ & _ & k & _ & _ & Hs); cbn in Hs.
  1-2: destruct Hs as (_ & st & Hl & _). 3: destruct Hs as (_ & _ & st & Hl & _). 4-5: destruct Hs as (st & Hl & _). all: congruence.
Qed.

(** The streams of the workers stay apart. *)
Lemma streams_insert t n ws j w w' : Inv t n ws -> ws !! j = Some w -> (forall x, stream_of w' = Some x -> stream_of w = Some x \/ lan n x = None) ->
  forall i i' x, dialled (<[j := w']> ws) i x -> dialled (<[j := w']> ws) i' x -> i = i'.
Proof.
  intros Hinv Hj Hw. assert (forall i x, dialled (<[j:=w']> ws) i x -> dialled ws i x \/ i = j /\ lan n x = None) as Hd.
  { intros i x Hi. destruct (dialled_insert _ _ _ _ _ _ Hj Hi) as [[_ ?]|[-> Hx]]; [by left|]. destruct (Hw x Hx); [left; by exists w|by right]. }
  pose proof (fun i x => dialled_alive t n ws i x Hinv) as Hal. intros i i' x Hi Hi'.
  apply Hd in Hi as [Hi|[-> Hi]]; apply Hd in Hi' as [Hi'|[-> Hi']]; try done; [by eapply inv_streams|by apply Hal in Hi|by apply Hal in Hi'].
Qed.

(** What a worker relies on stays while another one works. *)
Lemma others_ok t t' n n' ws j w c k' : Inv t n ws -> ws !! j = Some w -> claim_of w = Some c -> beside (handle c) k' t t' -> world_frame w n n' ->
  forall i w0, i <> j -> ws !! i = Some w0 -> worker_ok t' n' w0.
Proof.
  intros Hinv Hj Hc [_ El Ec _ _ Hat Hoth] Hworld i w0 Hne Hw. pose proof (inv_worker _ _ _ Hinv i w0 Hw) as Hok. unfold worker_ok in *.
  destruct (claim_of w0) as [d|] eqn:Hd; [|done]. rewrite El, Ec. destruct Hok as (Hsl & Hcl & k & Hk & Ho & Hs). split_and!; try done. exists k. split; [|split; [done|]].
  - unfold tcp_at. rewrite Hoth; [done|]. intros Heq. pose proof (inv_worker _ _ _ Hinv j w Hj) as Hok. unfold worker_ok in Hok. rewrite Hc in Hok.
    destruct Hok as (Hsl' & _). rewrite Heq in Hsl. apply Hne. eapply (inv_exclusive _ _ _ Hinv i j d c); [by exists w0|by exists w|].
    eapply handle_slot; [by eapply inv_handles|done..].
  - eapply (serving_frame n n' k w0 w Hworld); [|done]. intros x Hx Hx'. apply Hne. eapply (inv_streams _ _ _ Hinv); [by exists w0|by exists w].
Qed.

(** Worker [j] goes from [w] to [w'], and takes its socket to [k']. *)
Lemma local_inv t t' n n' ws j w w' c k' : Inv t n ws -> ws !! j = Some w -> claim_of w = Some c -> claim_of w' = Some c ->
  beside (handle c) k' t t' -> port_of k' = port c -> connected c k' \/ w' = Returning c -> serving n' k' w' -> world_frame w n n' ->
  (forall x, stream_of w' = Some x -> stream_of w = Some x \/ lan n x = None) -> Inv t' n' (<[j := w']> ws).
Proof.
  intros Hinv Hj Hc Hc' Hbe Hport Hop Hserv Hworld Hstream. pose proof (lookup_lt_Some _ _ _ Hj) as Hlt.
  pose proof (fun i d => holds_insert ws j w w' i d Hj ltac:(congruence)) as Hholds.
  pose proof (streams_insert _ _ _ _ _ _ Hinv Hj Hstream) as Hst. pose proof (others_ok _ _ _ _ _ _ _ _ _ Hinv Hj Hc Hbe Hworld) as Hothers.
  destruct Hbe as [Ed El Ec Edr Em Hat Hoth]. pose proof (inv_worker _ _ _ Hinv j w Hj) as Hok. unfold worker_ok in Hok. rewrite Hc in Hok.
  destruct Hok as (Hsl & Hcl & k0 & Hk0 & _). pose proof (mdns_not_tcp _ _ _ _ _ Hinv Hk0) as Hmc. destruct Hinv. split; rewrite ?Ed, ?El, ?Ec, ?Edr, ?Em; try done.
  - destruct inv_mdns0 as [u Hu]. exists u. by rewrite Hoth.
  - intros i h p Hi. destruct (inv_slot0 i h p Hi) as (Hp & k & Hk & Hpk & Hun). split; [done|]. rewrite Ec.
    destruct (decide (i = slot c)) as [->|Hne].
    + exists k'. assert (h = handle c /\ p = port c) as [-> ->] by (split; congruence). split_and!; try done. congruence.
    + exists k. unfold tcp_at. rewrite Hoth; [done|]. intros ->. apply Hne. by eapply handle_slot.
  - intros i w0 Hw. destruct (decide (i = j)) as [->|Hne].
    + rewrite list_lookup_insert_eq in Hw by done. injection Hw as <-. unfold worker_ok. rewrite Hc', El, Ec. split_and!; try done. by exists k'.
    + rewrite list_lookup_insert_ne in Hw by done. by eapply Hothers.
  - intros i Hi. destruct (inv_claimed0 i Hi) as (j0 & d & Hh & Hs). exists j0, d. by rewrite Hholds.
  - intros i i' d d'. rewrite !Hholds. apply inv_exclusive0.
Qed.

(** *** A claim, and its end *)
Definition claims (t : TunnelT) (r : outcome E (TunnelT * option (Claim H))) : Prop :=
  r = Ok (t, None) \/
  exists c k, r = Ok (set_claimed t (<[slot c := true]> (claimed t)), Some c) /\
    listeners t !! slot c = Some (handle c, port c) /\ claimed t !! slot c = Some false /\ tcp_at t (handle c) k /\ opened k = true /\
    local_endpoint k = Some (dst c, port c).

Lemma claim_loop_spec t rest i : length (claimed t) = length PORTS -> length (listeners t) <= length PORTS ->
  (forall i h p, listeners t !! i = Some (h, p) -> exists k, tcp_at t h k /\ port_of k = p) -> drop i (listeners t) = rest ->
  claims t (claim_loop rest i t).
Proof.
  intros Hf Hl Hk. revert i. induction rest as [|[h p] rest IH]; intros i Hd; [by left|]. cbn [claim_loop].
  assert (listeners t !! i = Some (h, p)) as Hi by (by rewrite <- (Nat.add_0_r i), <- lookup_drop, Hd).
  assert (drop (S i) (listeners t) = rest) as Hd' by (by rewrite <- Nat.add_1_r, <- drop_drop, Hd).
  destruct (lookup_lt_is_Some_2 (claimed t) i) as [taken Ht]; [apply lookup_lt_Some in Hi; lia|]. unfold index. rewrite Ht. cbn [unwrap obind].
  destruct taken; [by apply IH|]. destruct (Hk i h p Hi) as (k & Hat & Hp). unfold tcp_socket. rewrite Hat. cbn [obind].
  destruct (negb (may_recv k) && negb (may_send k)) eqn:Hm; [by apply IH|]. destruct (local_endpoint k) as [[a p']|] eqn:He; [|by apply IH].
  destruct (endpoint_port k a p' He) as [Hp' _]. right. exists {| slot := i; handle := h; dst := a; port := p' |}, k. cbn [slot handle port].
  unfold set_at. rewrite decide_True by (by eapply lookup_lt_Some). cbn [obind]. split; [done|]. split; [congruence|]. split_and!; try done.
  apply opened_view. destruct (may_recv k); [by left|right]. by destruct (may_send k).
Qed.

Lemma claim_spec t n ws : Inv t n ws -> claims t (claim t).
Proof.
  intros []. apply claim_loop_spec; try done; [by rewrite <- inv_ports0, length_fmap|]. intros i h p Hi. destruct (inv_slot0 i h p Hi) as (_ & k & ? & ? & _). by exists k.
Qed.

Lemma holds_insert_inv ws j w w' i d : ws !! j = Some w -> holds (<[j := w']> ws) i d -> i <> j /\ holds ws i d \/ i = j /\ claim_of w' = Some d.
Proof.
  intros Hj (w0 & Hw & Hd). pose proof (lookup_lt_Some _ _ _ Hj) as Hlt.
  destruct (decide (i = j)) as [->|Hne]; [|rewrite list_lookup_insert_ne in Hw by done; left; split; [done|by exists w0]].
  rewrite list_lookup_insert_eq in Hw by done. injection Hw as <-. by right.
Qed.
Lemma holds_other ws j w' i d : i <> j -> holds ws i d -> holds (<[j := w']> ws) i d.
Proof. intros Hne (w & ? & ?). exists w. by rewrite list_lookup_insert_ne. Qed.
Lemma holds_flagged t n ws i c : Inv t n ws -> holds ws i c -> listeners t !! slot c = Some (handle c, port c) /\ claimed t !! slot c = Some true.
Proof. intros Hinv (w & Hw & Hc). pose proof (inv_worker _ _ _ Hinv i w Hw) as Hok. unfold worker_ok in Hok. rewrite Hc in Hok. by destruct Hok as (? & ? & _). Qed.

(** A worker that was idle has [c] now. *)
Lemma claim_inv t n ws j c k : Inv t n ws -> ws !! j = Some Seeking -> listeners t !! slot c = Some (handle c, port c) ->
  claimed t !! slot c = Some false -> tcp_at t (handle c) k -> opened k = true -> local_endpoint k = Some (dst c, port c) ->
  Inv (set_claimed t (<[slot c := true]> (claimed t))) n (<[j := Dialling c]> ws).
Proof.
  intros Hinv Hj Hl Hf Hk Ho He. pose proof (lookup_lt_Some _ _ _ Hj) as Hlt. pose proof (lookup_lt_Some _ _ _ Hf) as Hlf.
  pose proof (streams_insert _ _ _ _ _ (Dialling c) Hinv Hj ltac:(done)) as Hst.
  assert (forall i d, holds ws i d -> slot d <> slot c) as Hfree.
  { intros i d Hh Heq. destruct (holds_flagged _ _ _ _ _ Hinv Hh) as [_ Hd]. congruence. }
  destruct Hinv. split; cbn [set_claimed device dropped claimed listeners mdns sockets]; try done; [by rewrite length_insert|..].
  - intros i h p Hi. destruct (inv_slot0 i h p Hi) as (Hp & k0 & Hk0 & Hpk & Hun). split; [done|]. exists k0. split; [done|]. split; [done|]. cbn [claimed set_claimed].
    destruct (decide (i = slot c)) as [->|Hne]; [by rewrite list_lookup_insert_eq|by rewrite list_lookup_insert_ne].
  - intros i w Hw. destruct (decide (i = j)) as [->|Hne].
    + rewrite list_lookup_insert_eq in Hw by done. injection Hw as <-. unfold worker_ok. cbn [claim_of listeners claimed set_claimed].
      rewrite list_lookup_insert_eq by done. split; [done|]. split; [done|]. exists k. split; [done|]. split; [left; by split|]. cbn [serving].
      destruct (inv_slot0 _ _ _ Hl) as (_ & k0 & Hk0 & _ & Hun). assert (k0 = k) as -> by (unfold tcp_at in *; congruence). apply Hun; [done|by right].
    + rewrite list_lookup_insert_ne in Hw by done. pose proof (inv_worker0 i w Hw) as Hok. unfold worker_ok in *. destruct (claim_of w) as [d|] eqn:Hd; [|done].
      cbn [listeners claimed set_claimed]. rewrite list_lookup_insert_ne; [done|]. apply not_eq_sym, (Hfree i). by exists w.
  - intros i Hi. destruct (decide (i = slot c)) as [->|Hne].
    + exists j, c. split; [|done]. exists (Dialling c). by rewrite list_lookup_insert_eq.
    + rewrite list_lookup_insert_ne in Hi by done. destruct (inv_claimed0 i Hi) as (j0 & d & Hh & Hs). exists j0, d. split; [|done].
      apply holds_other; [|done]. intros ->. destruct Hh as (w & Hw & Hd). rewrite Hj in Hw. by injection Hw as <-.
  - intros i i' d d' Hh Hh' Hs. apply (holds_insert_inv _ _ _ _ _ _ Hj) in Hh as [[? Hh]|[-> Hh]]; apply (holds_insert_inv _ _ _ _ _ _ Hj) in Hh' as [[? Hh']|[-> Hh']].
    + by eapply inv_exclusive0.
    + injection Hh' as <-. by apply Hfree in Hh.
    + injection Hh as <-. apply Hfree in Hh'. congruence.
    + done.
Qed.

(** A worker gives its socket back, which listens again. *)
Lemma unclaim_inv t t' n ws j c k : Inv t n ws -> ws !! j = Some (Returning c) -> beside (handle c) k t t' -> port_of k = port c ->
  is_active k = false -> opened k = false -> Inv (set_claimed t' (<[slot c := false]> (claimed t'))) n (<[j := Seeking]> ws).
Proof.
  intros Hinv Hj Hbe Hp Ha Ho. pose proof (lookup_lt_Some _ _ _ Hj) as Hlt. assert (holds ws j c) as Hmine by (by exists (Returning c)).
  destruct (holds_flagged _ _ _ _ _ Hinv Hmine) as [Hl Hf]. pose proof (lookup_lt_Some _ _ _ Hf) as Hlf.
  pose proof (streams_insert _ _ _ _ _ Seeking Hinv Hj ltac:(done)) as Hst. pose proof (fun h k => mdns_not_tcp t n ws h k Hinv) as Hmd.
  pose proof (others_ok _ _ n n _ _ _ _ _ Hinv Hj eq_refl Hbe ltac:(by apply world_same)) as Hothers.
  pose proof (fun i d => holds_flagged t n ws i d Hinv) as Hflag. destruct Hbe as [Ed El Ec Edr Em Hat Hoth].
  assert (mdns t <> handle c) as Hmc. { destruct (inv_slot _ _ _ Hinv _ _ _ Hl) as (_ & k0 & Hk0 & _). by eapply Hmd. }
  destruct Hinv. split; cbn [set_claimed device dropped claimed listeners mdns sockets]; rewrite ?Ed, ?El, ?Ec, ?Edr, ?Em; try done; [by rewrite length_insert|..].
  - destruct inv_mdns0 as [u Hu]. exists u. by rewrite Hoth.
  - intros i h p Hi. destruct (inv_slot0 i h p Hi) as (Hrange & k0 & Hk0 & Hpk & Hun). split; [done|]. unfold tcp_at. cbn [claimed set_claimed sockets].
    destruct (decide (i = slot c)) as [->|Hne].
    + exists k. assert (h = handle c /\ p = port c) as [-> ->] by (split; congruence). split_and!; try done. rewrite Ha, Ho. by intros _ [?|?].
    + exists k0. rewrite Hoth, ?Ec, list_lookup_insert_ne by (try done; intros ->; apply Hne; by eapply handle_slot). done.
  - intros i w Hw. destruct (decide (i = j)) as [->|Hne]; [rewrite list_lookup_insert_eq in Hw by done; by injection Hw as <-|].
    rewrite list_lookup_insert_ne in Hw by done. pose proof (Hothers i w Hne Hw) as Hok. unfold worker_ok in *. destruct (claim_of w) as [d|] eqn:Hd; [|done].
    cbn [listeners claimed set_claimed]. rewrite Ec in Hok. rewrite list_lookup_insert_ne; [done|]. intros Hs. apply Hne. eapply inv_exclusive0; [by exists w|exact Hmine|done].
  - intros i Hi. destruct (decide (i = slot c)) as [->|Hne]; [by rewrite list_lookup_insert_eq in Hi|]. rewrite list_lookup_insert_ne in Hi by done.
    destruct (inv_claimed0 i Hi) as (j0 & d & Hh & Hs). exists j0, d. split; [|done]. apply holds_other; [|done]. intros ->.
    destruct Hh as (w & Hw & Hd). assert (w = Returning c) as -> by congruence. cbn in Hd. congruence.
  - intros i i' d d' Hh Hh' Hs. apply (holds_insert_inv _ _ _ _ _ _ Hj) in Hh as [[? Hh]|[-> Hh]]; [|done].
    apply (holds_insert_inv _ _ _ _ _ _ Hj) in Hh' as [[? Hh']|[-> Hh']]; [|done]. by eapply inv_exclusive0.
Qed.

(** *** A worker's steps *)
Definition SInv (s : SharedT) (ws : list (Worker H X)) : Prop := Inv (tunnel s) (board s) ws.

(** Worker [j] goes on by [m] and leaves all as it should be. *)
Definition advances (j : nat) (ws : list (Worker H X)) (m : M' (Worker H X)) (s : SharedT) : Prop :=
  sure m s (fun s' w' => SInv s' (<[j := w']> ws)).

Lemma advances_insert j ws w m s : advances j (<[j := w]> ws) m s -> advances j ws m s.
Proof. intros Ha. eapply sure_wand; [exact Ha|]. intros s' w'. cbn beta. by rewrite list_insert_insert_eq. Qed.

(** The worker moves on, its socket as it is. *)
Lemma move_inv t n n' ws j w w' c : Inv t n ws -> ws !! j = Some w -> claim_of w = Some c -> claim_of w' = Some c -> world_frame w n n' ->
  (forall k, connected c k \/ w = Returning c -> serving n k w -> (connected c k \/ w' = Returning c) /\ serving n' k w') ->
  (forall x, stream_of w' = Some x -> stream_of w = Some x \/ lan n x = None) -> Inv t n' (<[j := w']> ws).
Proof.
  intros Hinv Hj Hc Hc' Hworld Hk Hst. pose proof (inv_worker _ _ _ Hinv j w Hj) as Hok. unfold worker_ok in Hok. rewrite Hc in Hok.
  destruct Hok as (Hl & _ & k & Hat & Ho & Hs). destruct (Hk k Ho Hs) as [Ho' Hs'].
  destruct (inv_slot _ _ _ Hinv _ _ _ Hl) as (_ & k0 & Hk0 & Hp & _). assert (k0 = k) as -> by (unfold tcp_at in *; congruence).
  by eapply local_inv; [..|apply beside_refl| | | | |].
Qed.

Lemma run_board {A} (f : N -> N * A) (s : SharedT) n' a : f (board s) = (n', a) -> on_board (E:=E) f s = ({| tunnel := tunnel s; board := n' |}, Ok a).
Proof. unfold on_board. by intros ->. Qed.

Lemma run_now (s : SharedT) : exists n' now, on_board (E:=E) instant_now s = ({| tunnel := tunnel s; board := n' |}, Ok now) /\
  (time (board s) <= now)%Z /\ time n' = now /\ forall y, lan n' y = lan (board s) y.
Proof.
  unfold on_board. destruct (instant_now (board s)) as [n' now] eqn:En. destruct (instant_now_view _ _ _ En) as [[? ?] ?]. by exists n', now.
Qed.

Lemma run_poll (s : SharedT) ws : SInv s ws -> exists s', poll_now (E:=E) s = (s', Ok tt) /\ SInv s' ws /\
  listeners (tunnel s') = listeners (tunnel s) /\ claimed (tunnel s') = claimed (tunnel s) /\
  (time (board s) <= time (board s'))%Z /\ (forall y, lan (board s') y = lan (board s) y) /\
  forall h k, tcp_at (tunnel s) h k -> exists k' quiet, tcp_at (tunnel s') h k' /\ polled quiet k k' /\ port_of k' = port_of k.
Proof.
  intros Hinv. destruct (run_now s) as (n' & now & En & Hle & Hn & Hl). unfold poll_now. rewrite (bind_ok _ _ _ _ _ En), bind_get. cbn [tunnel].
  eexists. split; [reflexivity|]. destruct (tunnel_poll_spec (tunnel s) now) as (_ & El & Ec & _ & _ & Hk & _).
  split; [apply poll_inv with (n := board s); cbn [board]; try done; lia|]. cbn [tunnel board]. split_and!; try done; [lia|]. intros h k Hat.
  destruct (Hk h k Hat) as (k' & ? & ? & ?). by exists k', (bool_decide (inbound (device (tunnel s)) = [])).
Qed.

Lemma run_socket (s : SharedT) h k : tcp_at (tunnel s) h k -> socket (E:=E) h s = (s, Ok k).
Proof. intros Hk. unfold socket. rewrite bind_get. unfold tcp_socket. by rewrite Hk. Qed.
Lemma run_put (s : SharedT) h k : put_socket (E:=E) h k s = ({| tunnel := put_tcp (tunnel s) h k; board := board s |}, Ok tt).
Proof. done. Qed.

(** The socket of a worker. *)
Lemma worker_socket s ws j w c : SInv s ws -> ws !! j = Some w -> claim_of w = Some c ->
  exists k, tcp_at (tunnel s) (handle c) k /\ port_of k = port c /\ (connected c k \/ w = Returning c) /\ serving (board s) k w.
Proof.
  intros Hinv Hj Hc. pose proof (inv_worker _ _ _ Hinv j w Hj) as Hok. unfold worker_ok in Hok. rewrite Hc in Hok.
  destruct Hok as (Hl & _ & k & Hat & Ho & Hs). destruct (inv_slot _ _ _ Hinv _ _ _ Hl) as (_ & k0 & Hk0 & Hp & _).
  assert (k0 = k) as -> by (unfold tcp_at in *; congruence). by exists k.
Qed.

(** A socket operation under the lock, and what the worker is at then. *)
Lemma put_inv s ws j w w' c k k' : SInv s ws -> ws !! j = Some w -> claim_of w = Some c -> claim_of w' = Some c -> stream_of w' = stream_of w ->
  tcp_at (tunnel s) (handle c) k -> port_of k' = port c -> connected c k' \/ w' = Returning c -> serving (board s) k' w' ->
  SInv {| tunnel := put_tcp (tunnel s) (handle c) k'; board := board s |} (<[j := w']> ws).
Proof.
  intros Hinv Hj Hc Hc' Hst Hk Hp Ho Hs. eapply local_inv; try done; [by eapply beside_put|]. cbn [board]. rewrite Hst. auto.
Qed.

(** [from_client]: what the client sent is in hand now. *)
Lemma from_client_inv s ws j c x r : SInv s ws -> ws !! j = Some (Turning c x r) ->
  sure (from_client (E:=E) (handle c)) s (fun s' '(chunk, _) => SInv s' (<[j := Writing c x r chunk]> ws)).
Proof.
  intros Hinv Hj. unfold from_client. destruct (run_poll s ws Hinv) as (s1 & E1 & Hinv1 & _). unfold sure. rewrite (bind_ok _ _ _ _ _ E1).
  destruct (worker_socket _ _ _ _ c Hinv1 Hj eq_refl) as (k & Hat & Hp & Ho & Hs). destruct Ho as [Ho|]; [|done]. rewrite (bind_ok _ _ _ _ _ (run_socket _ _ _ Hat)).
  assert (SInv s1 (<[j := Writing c x r []]> ws)) as Hnone.
  { eapply move_inv; try done; [by intros k0 [?|?]; [split; [by left|]|done]|by left]. }
  destruct (is_active k) eqn:Ha; cbn [negb]; [|by eexists _, _]. destruct (can_recv k); [|by eexists _, _].
  destruct (recv_slice k 1024) as [k' got] eqn:Er. rewrite bind_assoc, (bind_ok _ _ _ _ _ (run_put _ _ _)). eexists _, _. split; [reflexivity|].
  destruct (recv_slice_view k 1024 k' got Er) as (_ & Ht & _ & Hq & _ & Ha' & Ho' & _). destruct (recv_slice_port k 1024) as [Hp' He']. rewrite Er in Hp', He'.
  eapply put_inv; try done; [cbn in Hp'; congruence|left; destruct Ho as [Ho1 Ho2]; cbn in He'; split; [congruence|rewrite Ha', He'; exact Ho2]|]. destruct Hs as [Hr (st & Hl & Hpa & Htk & Hf)]. cbn [serving]. split; [done|].
  exists st. rewrite Ht, Hq, Htk, app_nil_r. done.
Qed.

(** [drain_held]: what goes to the client is no longer pending. *)
Definition advance_pending (r : Relay) (sent : nat) : Relay :=
  {| held := held r; last_activity := last_activity r; heard_from_lan := heard_from_lan r; pending := ((pending r).1 + sent, (pending r).2) |}.

Lemma pending_sent r sent : pending_bytes r = take sent (pending_bytes r) ++ pending_bytes (advance_pending r sent).
Proof.
  rewrite <- (take_drop sent (pending_bytes r)) at 1. f_equal. unfold pending_bytes, advance_pending. cbn [pending fst snd held].
  rewrite <- drop_drop, skipn_firstn_comm. f_equal. lia.
Qed.

Lemma sent_inv s ws j c x r k k' t' sent : SInv s ws -> ws !! j = Some (Turning c x r) -> tcp_at (tunnel s) (handle c) k ->
  beside (handle c) k' (tunnel s) t' -> taken k' = taken k -> queued k' = queued k ++ take sent (pending_bytes r) ->
  port_of k' = port_of k -> opened k' = opened k -> is_active k' = is_active k -> local_endpoint k' = local_endpoint k -> sent <= length (pending_bytes r) ->
  SInv {| tunnel := t'; board := board s |} (<[j := Turning c x (advance_pending r sent)]> ws).
Proof.
  intros Hinv Hj Hat Hbe Ht Hq Hp Ho Hac Hep Hsent. destruct (worker_socket _ _ _ _ c Hinv Hj eq_refl) as (k0 & Hat0 & Hp0 & Ho0 & [Hh Hrange Hact] & Hs).
  assert (k0 = k) as -> by (unfold tcp_at in *; congruence). destruct Ho0 as [Ho0|]; [|done].
  eapply local_inv; try done; [congruence|left; unfold connected; by rewrite Ho, Hac, Hep| |by left]. unfold pending_bytes in Hsent. rewrite length_take, length_drop in Hsent.
  split; [split; cbn; try done; lia|]. destruct Hs as (st & Hl & Hpa & Htk & Hf). exists st. split; [done|]. split; [done|]. split; [by rewrite Ht|].
  by rewrite Hf, Hq, <- app_assoc, <- pending_sent.
Qed.

Lemma drain_held_inv s ws j c x r : SInv s ws -> ws !! j = Some (Turning c x r) -> (pending r).1 < (pending r).2 ->
  sure (drain_held (E:=E) (handle c) r) s (fun s' r' => SInv s' (<[j := Turning c x r']> ws)).
Proof.
  intros Hinv Hj Hpend. destruct (worker_socket _ _ _ _ c Hinv Hj eq_refl) as (k & Hat & Hp & Ho & [Hh Hrange Hact] & _). destruct Ho as [Ho|]; [|done].
  unfold drain_held. rewrite slice_ok by lia. fold (pending_bytes r). unfold sure. rewrite bind_lift, (bind_ok _ _ _ _ _ (run_socket _ _ _ Hat)).
  destruct (can_send k).
  - destruct (send_slice k (pending_bytes r)) as [k' sent] eqn:Es. rewrite bind_assoc, (bind_ok _ _ _ _ _ (run_put _ _ _)). eexists _, _. split; [reflexivity|].
    destruct (send_slice_view k _ k' sent Es) as (_ & Ht & _ & Ha' & Ho' & _ & Hq). destruct (send_slice_port k (pending_bytes r)) as [Hp' He']. rewrite Es in Hp', He'.
    eapply (sent_inv s ws j c x r k k'); try done; [by eapply beside_put|..]; destruct sent as [m|]; cbn [default from_option id]; try lia.
    + by destruct Hq as (_ & _ & ?).
    + destruct Hq as [_ ->]. by rewrite take_0, app_nil_r.
  - eexists _, _. split; [reflexivity|]. destruct s as [t n]. eapply (sent_inv {| tunnel := t; board := n |} ws j c x r k k t 0); try done; [by rewrite take_0, app_nil_r|lia].
Qed.

Lemma turning_closing s ws j c x r : SInv s ws -> ws !! j = Some (Turning c x r) -> SInv s (<[j := Closing c x]> ws).
Proof.
  intros Hinv Hj. eapply move_inv; try done; [|by left]. intros k [Ho|] [_ (st & Hl & Hp & Ht & Hf)]; [|done]. split; [by left|].
  exists st. split_and!; try done; [rewrite Ht, app_nil_r; done|]. rewrite Hf. by apply prefix_app_r.
Qed.

(** [relay_on] *)
Lemma relay_on_inv s ws j c x r : SInv s ws -> ws !! j = Some (Turning c x r) -> advances j ws (relay_on c x r) s.
Proof.
  intros Hinv Hj. destruct (worker_socket _ _ _ _ c Hinv Hj eq_refl) as (k & _ & _ & _ & [Hh Hrange Hact] & _). unfold advances, relay_on.
  destruct (run_now s) as (n' & now & En & Hle & Hn & Hl). unfold sure. rewrite (bind_ok _ _ _ _ _ En). set (s1 := {| tunnel := tunnel s; board := n' |}).
  assert (SInv s1 ws) as Hinv1.
  { rewrite <- (list_insert_id ws j (Turning c x r)) by done. eapply move_inv; try done; [apply world_same; [cbn; lia|done]| |by left].
    intros k0 [Ho|] Hs; [|done]. split; [by left|]. eapply (serving_continues (board s)); try done; [|cbn; lia].
    split; [exists []; by rewrite app_nil_r|done]. }
  unfold usub. rewrite decide_True by lia. rewrite bind_lift.
  destruct (negb (heard_from_lan r) && bool_decide (_ < _)%Z); [eexists _, _; split; [reflexivity|]; by eapply turning_closing|]. case_decide; [eexists _, _; split; [reflexivity|]; by eapply turning_closing|].
  case_decide as Hpend.
  - destruct (drain_held_inv s1 ws j c x r Hinv1 Hj Hpend) as (s2 & r2 & E2 & Hinv2). rewrite (bind_ok _ _ _ _ _ E2). by eexists _, _.
  - eexists _, _. split; [reflexivity|]. eapply move_inv; try done; [|by left]. intros k0 [Ho|] [Hr0 Hc0]; [|done]. split; [by left|].
    assert (pending_bytes r = []) as Hnil by (unfold pending_bytes; replace ((pending r).2 - (pending r).1) with 0 by lia; done).
    cbn [serving]. rewrite Hnil in Hc0. done.
Qed.

(** [relisten] gives the socket back, listening on its port. *)
Definition listens (t : TunnelT) (i : nat) (h : H) (p : Z) : Prop :=
  claimed t !! i = Some false /\ exists k, tcp_at t h k /\ is_open k = true /\ is_active k = false /\ port_of k = p.

Lemma relisten_inv s ws j c : SInv s ws -> ws !! j = Some (Returning c) ->
  sure (relisten (E:=E) c) s (fun s' ok => ok = true /\ SInv s' (<[j := Seeking]> ws) /\ listens (tunnel s') (slot c) (handle c) (port c)).
Proof.
  intros Hinv Hj. destruct (worker_socket _ _ _ _ c Hinv Hj eq_refl) as (k & Hat & Hp & _). destruct (holds_flagged _ _ _ j c Hinv) as [Hl Hf]; [by exists (Returning c)|].
  destruct (inv_slot _ _ _ Hinv _ _ _ Hl) as (Hrange & _). unfold relisten, sure. rewrite (bind_ok _ _ _ _ _ (run_socket _ _ _ Hat)), (bind_ok _ _ _ _ _ (run_put _ _ _)).
  set (s1 := {| tunnel := put_tcp (tunnel s) (handle c) (abort k); board := board s |}).
  assert (SInv s1 ws) as Hinv1.
  { rewrite <- (list_insert_id ws j (Returning c)) by done. eapply put_inv; try done; [by rewrite abort_port|by right]. }
  assert (tcp_at (tunnel s1) (handle c) (abort k)) as Hat1 by (apply set_put_same; unfold tcp_at in Hat; congruence).
  destruct (run_poll s1 ws Hinv1) as (s2 & E2 & Hinv2 & El2 & Ec2 & _ & _ & Hk2). rewrite (bind_ok _ _ _ _ _ E2).
  destruct (Hk2 _ _ Hat1) as (k2 & q & Hat2 & (_ & _ & _ & _ & Hclosed) & Hp2). destruct (abort_view k) as (Hab & _). destruct (Hclosed Hab) as [Hno _].
  rewrite (bind_ok _ _ _ _ _ (run_socket _ _ _ Hat2)), Hno. change (bind (ret tt) ?f) with (bind (lift (Ok (E:=E) tt)) f). rewrite bind_lift.
  rewrite (bind_ok _ _ _ _ _ (run_socket _ _ _ Hat2)). destruct (listen_up k2 (port c) Hno Hrange) as [k3 El3]. rewrite El3.
  destruct (listen_view _ _ _ Hno Hrange El3) as (Hop & Hact & Hopd & _). rewrite (bind_ok _ _ _ _ _ (run_put _ _ _)), bind_get. cbn [tunnel].
  assert (claimed (tunnel s2) !! slot c = Some true) as Hf2 by (by rewrite Ec2). unfold set_at. rewrite decide_True by (by eapply lookup_lt_Some). rewrite bind_lift.
  eexists _, _. split; [reflexivity|]. cbn [tunnel board]. split; [done|]. split.
  - apply (unclaim_inv (tunnel s2) (put_tcp (tunnel s2) (handle c) k3) (board s2) ws j c k3); try done; [by eapply beside_put|by eapply listen_port].
  - unfold listens, tcp_at. cbn. rewrite list_lookup_insert_eq by (by eapply lookup_lt_Some). split; [done|]. exists k3.
    rewrite set_put_same by (unfold tcp_at in Hat2; congruence). split_and!; try done. by eapply listen_port.
Qed.

(** *** Every step of a worker *)
Lemma seeking_inv s ws j : SInv s ws -> ws !! j = Some Seeking -> advances j ws (work Seeking) s.
Proof.
  intros Hinv Hj. unfold advances, sure. cbn [work]. unfold seek. destruct (run_poll s ws Hinv) as (s1 & E1 & Hinv1 & _). rewrite (bind_ok _ _ _ _ _ E1), bind_get.
  destruct (claim_spec _ _ _ Hinv1) as [-> |(c & k & -> & Hl & Hf & Hk & Ho & He)]; rewrite bind_lift; eexists _, _; (split; [reflexivity|]); cbn beta iota.
  - rewrite list_insert_id by done. by destruct s1.
  - by eapply claim_inv.
Qed.

(** A step on the LAN side alone. *)
Lemma board_inv t n n' ws j w w' c : SInv {| tunnel := t; board := n |} ws -> ws !! j = Some w -> claim_of w = Some c -> claim_of w' = Some c ->
  w <> Returning c -> world_frame w n n' -> (forall k, serving n k w -> serving n' k w') -> (forall x, stream_of w' = Some x -> stream_of w = Some x \/ lan n x = None) ->
  SInv {| tunnel := t; board := n' |} (<[j := w']> ws).
Proof.
  intros Hinv Hj Hc Hc' Hw Hworld Hs Hst. eapply move_inv; try done. intros k [Ho|?] Hk; [|done]. split; [by left|]. by apply Hs.
Qed.

Lemma relay_ok_time n n' r : (time n <= time n')%Z -> relay_ok n r -> relay_ok n' r.
Proof. intros Hn []. split; [done..|]. cbn in *. lia. Qed.

Lemma dialling_inv s ws j c : SInv s ws -> ws !! j = Some (Dialling c) -> advances j ws (work (Dialling c)) s.
Proof.
  intros Hinv Hj. destruct s as [t n]. unfold advances, sure. cbn [work]. unfold dial.
  destruct (lan_connect n (dst c, port c)) as [n1 [x|]] eqn:Ec; destruct (lan_connect_view _ _ _ _ Ec) as [Ht Hl];
    rewrite (bind_ok _ _ _ _ _ (run_board (fun n => lan_connect n _) {| tunnel := t; board := n |} _ _ Ec)); cbn [tunnel].
  - destruct (run_now {| tunnel := t; board := n1 |}) as (n2 & now & En & Hle & Hn & Hl2). rewrite (bind_ok _ _ _ _ _ En). cbn [board tunnel] in *. eexists _, _. split; [reflexivity|].
    destruct Hl as (Hnone & Hx & Hoth). eapply board_inv; try done.
    + split; [lia|]. intros y Hy _. rewrite Hl2, Hoth; congruence.
    + intros k [Hk1 Hk2]. split; [split; cbn; try done; unfold zeros; try rewrite length_replicate; lia|].
      eexists. rewrite Hl2. split; [exact Hx|]. cbn. by rewrite Hk1, Hk2.
    + intros y [= <-]. by right.
  - eexists _, _. split; [reflexivity|]. by eapply board_inv.
Qed.

Lemma turning_inv s ws j c x r : SInv s ws -> ws !! j = Some (Turning c x r) -> advances j ws (work (Turning c x r)) s.
Proof.
  intros Hinv Hj. pose proof (lookup_lt_Some _ _ _ Hj) as Hlt. cbn [work]. unfold relay_turn. apply sure_bind. eapply sure_wand; [by apply from_client_inv|].
  intros s1 [chunk closed] Hinv1. cbn beta iota. set (ws1 := <[j := Writing c x r chunk]> ws) in *.
  assert (ws1 !! j = Some (Writing c x r chunk)) as Hj1 by (by apply list_lookup_insert_eq).
  assert (advances j ws1 (ret (Closing c x)) s1) as Hclose.
  { apply sure_ret. destruct s1. eapply board_inv; try done; [|by left]. intros k [_ (st & Hl & Hp & Htk & Hf)]. exists st. split_and!; try done; [by exists chunk|].
    rewrite Hf. by apply prefix_app_r. }
  apply (advances_insert j ws (Writing c x r chunk)). fold ws1. case_decide; [done|]. case_decide; [done|]. case_decide as Hn.
  - unfold advances, sure. destruct (run_now s1) as (n' & now & En & Hle & Hn' & Hl). rewrite (bind_ok _ _ _ _ _ En). eexists _, _. split; [reflexivity|]. destruct s1.
    eapply board_inv; try done; [apply world_same; [cbn in *; lia|done]| |by left]. intros k [[] (st & Hls & Hs)]. split; [split; cbn in *; try done; lia|].
    exists st. by rewrite Hl.
  - apply (advances_insert j ws1 (Turning c x r)). apply relay_on_inv; [|apply list_lookup_insert_eq; unfold ws1; by rewrite length_insert].
    assert (chunk = []) as -> by (destruct chunk; [done|simpl in Hn; lia]). destruct s1. eapply board_inv; try done. by left.
Qed.

Lemma writing_inv s ws j c x r chunk : SInv s ws -> ws !! j = Some (Writing c x r chunk) -> advances j ws (work (Writing c x r chunk)) s.
Proof.
  intros Hinv Hj. pose proof (lookup_lt_Some _ _ _ Hj) as Hlt. destruct (worker_socket _ _ _ _ c Hinv Hj eq_refl) as (k0 & _ & _ & _ & _ & st & Hl & _).
  destruct s as [t n]. cbn [board] in Hl. cbn [work]. unfold write_chunk. unfold advances, sure.
  destruct (lan_write_all n x chunk) as [n1 ok] eqn:Ew. rewrite (bind_ok _ _ _ _ _ (run_board (fun n => lan_write_all n x chunk) {| tunnel := t; board := n |} _ _ Ew)). destruct (lan_write_all_view _ _ _ _ _ _ Hl Ew) as (Ht & Hoth & m & Hm & Hok & Hx).
  assert (world_frame (Writing c x r chunk) n n1) as Hworld by (split; [done|]; intros y _ Hy; apply Hoth; intros ->; by apply Hy).
  destruct ok.
  - specialize (Hok eq_refl). subst m. rewrite take_ge in Hx by done. apply (advances_insert j ws (Turning c x r)).
    apply relay_on_inv; [|by apply list_lookup_insert_eq]. eapply board_inv; try done; [|by left].
    intros k [Hr (st' & Hl' & Hp & Htk & Hf)]. assert (st' = st) as -> by congruence. split; [by eapply relay_ok_time|]. eexists. split; [exact Hx|].
    cbn [to_lan from_lan peer_addr]. by rewrite app_nil_r.
  - eexists _, _. split; [reflexivity|]. eapply board_inv; try done; [|by left].
    intros k [Hr (st' & Hl' & Hp & Htk & Hf)]. assert (st' = st) as -> by congruence. eexists. split; [exact Hx|]. cbn [to_lan from_lan peer_addr].
    split; [done|]. rewrite Htk, Hf. split; [|by apply prefix_app_r]. apply prefix_app. exists (drop m chunk). by rewrite take_drop.
Qed.

Lemma reading_inv s ws j c x r : SInv s ws -> ws !! j = Some (Reading c x r) -> advances j ws (work (Reading c x r)) s.
Proof.
  intros Hinv Hj. destruct (worker_socket _ _ _ _ c Hinv Hj eq_refl) as (k0 & _ & _ & _ & Hr0 & Hnil & st & Hl & _).
  destruct s as [t n]. cbn [board] in Hl. cbn [work]. unfold read_lan. unfold advances, sure.
  destruct (lan_read n x (length (held r))) as [n1 got] eqn:Er. rewrite (bind_ok _ _ _ _ _ (run_board (fun n => lan_read n x _) {| tunnel := t; board := n |} _ _ Er)). destruct (lan_read_view _ _ _ _ _ _ Hl Er) as (Ht & Hoth & Hx).
  assert (world_frame (Reading c x r) n n1) as Hworld by (split; [done|]; intros y _ Hy; apply Hoth; intros ->; by apply Hy).
  assert (forall st' k c, lan n1 x = Some st' -> peer_addr st' = peer_addr st -> to_lan st' = to_lan st -> from_lan st' = from_lan st -> carries n c x k [] [] -> carries n1 c x k [] []) as Hsame.
  { intros st' k c' Hx' Hp Hto Hfr (s0 & Hs0 & ?). assert (s0 = st) as -> by congruence. exists st'. by rewrite Hp, Hto, Hfr. }
  destruct got as [[b|]|].
  - destruct Hx as [Hb Hx]. case_decide as Hb0.
    + eexists _, _. split; [reflexivity|]. eapply board_inv; try done; [|by left]. intros k (_ & _ & Hc). eapply Hsame; try done.
      destruct b; [|done]. cbn. by rewrite app_nil_r.
    + destruct Hr0 as [Hh _ _]. rewrite copy_range_ok by lia. rewrite bind_lift. destruct (run_now {| tunnel := t; board := n1 |}) as (n2 & now & En & Hle & Hn & Hl2).
      rewrite (bind_ok _ _ _ _ _ En). cbn [board] in *. eexists _, _. split; [reflexivity|]. eapply board_inv; try done; [|..|by left].
      * eapply world_trans; [exact Hworld|]. apply world_same; [lia|done].
      * intros k (_ & _ & (s0 & Hs0 & Hp & Htk & Hf)). assert (s0 = st) as -> by congruence.
        split; [split; cbn; [rewrite length_overwrite; lia|lia|lia]|]. eexists. rewrite Hl2. split; [exact Hx|]. cbn [to_lan from_lan peer_addr]. split; [done|]. split; [done|].
        rewrite Hf, app_nil_r. f_equal. unfold pending_bytes. cbn [pending fst snd held]. rewrite Nat.sub_0_r, drop_0. symmetry. by apply (take_overwrite (held r) 0 b); lia.
  - eexists _, _. split; [reflexivity|]. eapply board_inv; try done; [|by left]. intros k (_ & _ & Hc). by eapply Hsame.
  - eexists _, _. split; [reflexivity|]. eapply board_inv; try done; [|by left]. intros k (Hr & Hp & Hc). cbn [serving]. rewrite Hp. split; [by eapply relay_ok_time|]. by eapply Hsame.
Qed.

Lemma flushing_inv s ws j c x turns : SInv s ws -> ws !! j = Some (Flushing c x turns) -> advances j ws (work (Flushing c x turns)) s.
Proof.
  intros Hinv Hj. assert (forall s, SInv s ws -> SInv s (<[j := Closing c x]> ws)) as Hclose.
  { intros s0 Hs0. destruct s0. eapply board_inv; try done; [|by left]. intros k (st & Hl & Hp & Htk & Hf). exists st. split_and!; try done; [by rewrite Htk, app_nil_r|].
    by rewrite Hf, app_nil_r. }
  destruct turns as [|turns]; cbn [work flush_turn]; [apply sure_ret; by apply Hclose|]. unfold advances, sure.
  destruct (run_poll s ws Hinv) as (s1 & E1 & Hinv1 & _). rewrite (bind_ok _ _ _ _ _ E1).
  destruct (worker_socket _ _ _ _ c Hinv1 Hj eq_refl) as (k & Hat & _). rewrite (bind_ok _ _ _ _ _ (run_socket _ _ _ Hat)).
  eexists _, _. split; [reflexivity|]. destruct (negb (is_active k) || _); [by apply Hclose|]. destruct s1. eapply board_inv; try done. by left.
Qed.

Lemma closing_inv s ws j c x : SInv s ws -> ws !! j = Some (Closing c x) -> advances j ws (work (Closing c x)) s.
Proof.
  intros Hinv Hj. destruct s as [t n]. eexists _, _. split; [reflexivity|]. cbn [tunnel board].
  eapply move_inv; try done; [|by intros k _ _; split; [right|]].
  assert (forall y, lan (lan_close (lan_flush n x) x) y = lan n y) as Hl.
  { intros y. destruct (lan_close_view (lan_flush n x) x y) as [_ ->]. by destruct (lan_flush_view n x y). }
  apply world_same; [|done]. destruct (lan_close_view (lan_flush n x) x x), (lan_flush_view n x x). cbn [board]. lia.
Qed.

Lemma returning_inv s ws j c : SInv s ws -> ws !! j = Some (Returning c) -> advances j ws (work (Returning c)) s.
Proof.
  intros Hinv Hj. cbn [work]. apply sure_bind. eapply sure_wand; [by apply relisten_inv|]. intros s' ok (_ & Hs' & _). by apply sure_ret.
Qed.

Lemma work_inv s ws j w : SInv s ws -> ws !! j = Some w -> advances j ws (work w) s.
Proof.
  intros Hinv Hj. destruct w; [by apply seeking_inv|by apply dialling_inv|by apply turning_inv|by apply writing_inv|by apply reading_inv|
    by apply flushing_inv|by apply closing_inv|by apply returning_inv].
Qed.

(** *** What the other tasks do *)

(** The queues and the discovery socket are nobody's. *)
Lemma aside_inv t t' n ws : Inv t n ws -> bounded (device t') -> (0 <= dropped t' < 2 ^ 32)%Z -> listeners t' = listeners t -> claimed t' = claimed t ->
  mdns t' = mdns t -> (exists u, set_get (sockets t') (mdns t) = Some (inr u)) -> (forall h k, tcp_at t h k -> tcp_at t' h k) -> Inv t' n ws.
Proof.
  intros [] Hd Hdr El Ec Em Hu Hk. split; rewrite ?El, ?Ec, ?Em; try done.
  - intros i h p Hi. destruct (inv_slot0 i h p Hi) as (? & k & ? & ?). split; [done|]. exists k. rewrite Ec. auto.
  - intros j w Hj. pose proof (inv_worker0 j w Hj) as Hok. unfold worker_ok in *. destruct (claim_of w) as [c|]; [|done]. rewrite El, Ec.
    destruct Hok as (? & ? & k & ? & ?). split_and!; try done. exists k. auto.
Qed.

Lemma put_udp_inv t n ws u : Inv t n ws -> Inv (put_udp t (mdns t) u) n ws.
Proof.
  intros Hinv. destruct (inv_mdns _ _ _ Hinv) as [u0 Hu]. apply (aside_inv t); try done; try by destruct Hinv.
  - exists u. apply set_put_same. congruence.
  - intros h k Hk. unfold tcp_at, put_udp. cbn. rewrite set_put_other; [done|]. intros ->. unfold tcp_at in Hk. congruence.
Qed.

Lemma enqueue_inv t n ws packet : Inv t n ws -> Inv (enqueue t packet) n ws.
Proof.
  intros Hinv. destruct (inv_mdns _ _ _ Hinv) as [u Hu]. pose proof Hinv as []. unfold enqueue. case_decide as Hp; [|done]. destruct (inv_queues0) as (Hi & Ho & Hmi & Hmo).
  pose proof (push_length QUEUE (inbound (device t)) packet Hi) as Hlen. pose proof (push_Forall (fun p => length p <= MTU) QUEUE _ packet Hmi Hp) as Hfor.
  destruct (push QUEUE _ packet) as [queue pushed]. cbn [fst] in *.
  destruct pushed; apply (aside_inv t); try done; try (by exists u); cbn; [apply Z.mod_pos_bound; lia].
Qed.

Lemma take_outbound_inv t n ws : Inv t n ws -> Inv (take_outbound t).1 n ws.
Proof.
  intros Hinv. unfold take_outbound. destruct (outbound (device t)) as [|p rest] eqn:Eo; [done|]. cbn [fst]. pose proof Hinv as []. destruct (inv_queues0) as (Hi & Ho & Hmi & Hmo).
  apply (aside_inv t); try done. rewrite Eo in *. inversion_clear Hmo. simpl in Ho. split; [done|]. split; [cbn; lia|]. done.
Qed.

Lemma count_loop_ok t n ws rest a b : Inv t n ws -> (forall h p, (h, p) ∈ rest -> (h, p) ∈ listeners t) -> exists r, count_loop (E:=E) rest t a b = Ok r.
Proof.
  intros Hinv. revert a b. induction rest as [|[h p] rest IH]; intros a b Hsub; [by eexists|]. cbn [count_loop].
  destruct (list_elem_of_lookup_1 _ _ (Hsub h p ltac:(left))) as [i Hi]. destruct (inv_slot _ _ _ Hinv i h p Hi) as (_ & k & Hk & _).
  unfold tcp_socket. unfold tcp_at in Hk. rewrite Hk. cbn [obind]. apply IH. intros. apply Hsub. by right.
Qed.

(** Every event leaves all as it should be. *)
Definition sys_ok (s : System) : Prop := SInv (shared s) (workers s).

Lemma step_inv e (s : SystemT) : sys_ok s -> exists s', step (E:=E) e s = Ok s' /\ sys_ok s'.
Proof.
  destruct s as [sh ws]. unfold sys_ok. cbn [shared workers]. intros Hinv. destruct e as [i|packet| |room|answer client|]; cbn [step shared workers].
  - destruct (ws !! i) as [w|] eqn:Hi; [|by eexists]. destruct (work_inv _ _ _ _ Hinv Hi) as (s' & w' & -> & Hs'). by eexists.
  - unfold deliver_packet, set_tunnel. rewrite bind_get, bind_modify. destruct sh as [t n]. cbn [tunnel board] in *.
    destruct (run_poll {| tunnel := enqueue t packet; board := n |} ws) as (s' & -> & Hs' & _); [by apply enqueue_inv|]. by eexists.
  - destruct sh as [t n]. pose proof (take_outbound_inv t n ws Hinv) as Ht. cbn [tunnel board]. destruct (take_outbound t) as [t' got]. by eexists.
  - unfold take_mdns_query, set_tunnel. destruct (run_poll sh ws Hinv) as (s1 & E1 & Hinv1 & _). rewrite (bind_ok _ _ _ _ _ E1), bind_get.
    destruct (inv_mdns _ _ _ Hinv1) as [u Hu]. unfold udp_socket. rewrite Hu, bind_lift. destruct (udp_can_recv u); cbn [negb]; [|by eexists].
    destruct (udp_recv u) as [u' got]. rewrite bind_modify. pose proof (put_udp_inv _ _ _ u' Hinv1) as Hinv2. destruct got as [[data meta]|]; [|by eexists].
    rewrite slice_ok by lia. by eexists.
  - unfold send_mdns_answer, set_tunnel. rewrite bind_get. destruct (inv_mdns _ _ _ Hinv) as [u Hu]. unfold udp_socket. rewrite Hu, bind_lift.
    destruct (udp_send_slice u answer client) as [u' sent]. rewrite bind_modify. pose proof (put_udp_inv _ _ _ u' Hinv) as Hinv2.
    destruct (run_poll {| tunnel := put_udp (tunnel sh) (mdns (tunnel sh)) u'; board := board sh |} ws Hinv2) as (s' & -> & Hs' & _). by eexists.
  - unfold monitor. rewrite bind_get. unfold stats. destruct (count_loop_ok _ _ _ (listeners (tunnel sh)) 0 0 Hinv) as [[a b] ->]; [done|]. by eexists.
Qed.

Lemma run_inv es (s : SystemT) : sys_ok s -> exists s', run (E:=E) es s = Ok s' /\ sys_ok s'.
Proof.
  revert s. induction es as [|e es IH]; intros s Hs; [by exists s|]. cbn [run]. destruct (step_inv e s Hs) as (s1 & -> & Hs1). by apply IH.
Qed.

(** *** The start *)
Lemma listen_loop_spec ports ss ls : Forall (fun p => 0 < p < 2 ^ 16)%Z ports -> length ls + length ports <= length PORTS -> NoDup ls.*1 ->
  (forall h p, (h, p) ∈ ls -> (0 < p < 2 ^ 16)%Z /\ exists k, set_get ss h = Some (inl k) /\ port_of k = p /\ is_active k = false /\ opened k = false) ->
  exists ss' ls', listen_loop (E:=E) (K:=K) (U:=U) ports (ss, ls) = Ok (ss', ls') /\ ls'.*2 = ls.*2 ++ ports /\ NoDup ls'.*1 /\
    forall h p, (h, p) ∈ ls' -> (0 < p < 2 ^ 16)%Z /\ exists k, set_get ss' h = Some (inl k) /\ port_of k = p /\ is_active k = false /\ opened k = false.
Proof.
  intros Hports. revert ss ls. induction Hports as [|p ports Hp _ IH]; intros ss ls Hlen Hnd Hls; [exists ss, ls; rewrite app_nil_r; by split_and!|].
  cbn [listen_loop]. destruct (set_add ss _) as [ss1 h] eqn:Ea. apply set_add_view in Ea as (Hnone & Hget & Hoth). unfold tcp_socket. rewrite Hget. cbn [obind].
  destruct (socket_new_view TCP_RX TCP_TX) as (_ & _ & Hclosed). destruct (listen_up _ p Hclosed Hp) as [k El]. rewrite El.
  destruct (listen_view _ _ _ Hclosed Hp El) as (_ & Hact & Hopd & _). cbn [length] in Hlen. unfold push. rewrite decide_True by lia. cbn [fst].
  assert (h ∉ ls.*1) as Hh.
  { intros ([h' p'] & -> & Hin)%list_elem_of_fmap. destruct (Hls _ _ Hin) as (_ & k' & Hk' & _). cbn in Hnone. congruence. }
  destruct (IH (set_put ss1 h (inl k)) (ls ++ [(h, p)])) as (ss' & ls' & E' & Hp' & Hrest); [rewrite length_app; cbn [length]; lia|..].
  - rewrite fmap_app. apply list.NoDup_app. split; [done|]. split; [|apply list.NoDup_singleton]. intros h' Hin ->%list_elem_of_singleton. done.
  - intros h' p' [Hin|Hin%list_elem_of_singleton]%elem_of_app.
    + destruct (Hls _ _ Hin) as (? & k' & Hk' & ?). split; [done|]. exists k'. rewrite set_put_other, Hoth; [done|..]; congruence.
    + injection Hin as -> ->. split; [done|]. exists k. rewrite set_put_same by congruence. split_and!; try done. by eapply listen_port.
  - exists ss', ls'. split; [exact E'|]. split; [|exact Hrest]. by rewrite Hp', fmap_app, <- app_assoc.
Qed.

(** [Tunnel::new] listens on every port of [PORTS]. *)
Lemma tunnel_new_spec n : exists t : TunnelT, tunnel_new (E:=E) = Ok t /\ (listeners t).*2 = PORTS /\ sys_ok (serve t n).
Proof.
  unfold tunnel_new. destruct (listen_loop_spec PORTS set_new []) as (ss & ls & -> & Hp & Hnd & Hls); try done; [|constructor|by intros ? ? ?%elem_of_nil|].
  { by apply (bool_decide_unpack _). }
  cbn [obind]. destruct (set_add ss (inr udp_new)) as [ss1 m] eqn:Ea. apply set_add_view in Ea as (Hnone & Hget & Hoth). unfold udp_socket. rewrite Hget. cbn [obind].
  destruct (udp_bind udp_new Mdns.PORT) as [u bound]. eexists. split; [reflexivity|]. split; [exact Hp|].
  assert (forall j w, replicate 8 Seeking !! j = Some w -> w = Seeking :> Worker H X) as Hw by (by intros j w [? _]%lookup_replicate).
  split; cbn [serve shared workers tunnel board device dropped claimed listeners mdns sockets]; try done.
  - split; [unfold QUEUE; simpl; lia|]. split; [unfold QUEUE; simpl; lia|]. by split; constructor.
  - exists u. apply set_put_same. congruence.
  - intros i h p Hi. destruct (Hls h p) as (Hrange & k & Hk & Hpk & Ha & Ho); [by eapply list_elem_of_lookup_2|]. split; [done|]. exists k.
    split; [|split; [done|rewrite Ha, Ho; by intros _ [?|?]]]. unfold tcp_at. cbn. rewrite set_put_other, Hoth; [done|..]; congruence.
  - intros j w ->%Hw. done.
  - intros i [? _]%lookup_replicate. done.
  - intros j j' c c' (w & Hj & Hc). apply Hw in Hj as ->. done.
  - intros j j' x (w & Hj & Hx). apply Hw in Hj as ->. done.
Qed.

(** ** What the tunnel promises *)

(** The bytes a worker has in hand: for the LAN, and for the client. *)
Definition for_lan (w : Worker H X) : bytes := match w with Writing _ _ _ chunk => chunk | _ => [] end.
Definition for_client (w : Worker H X) : bytes := match w with Turning _ _ r | Writing _ _ r _ => pending_bytes r | _ => [] end.
Definition at_end (w : Worker H X) : bool := match w with Closing _ _ => true | _ => false end.

(** The route of worker [w]: it goes where its client's connection was addressed,
    the LAN got what the client sent, in order, and the client what the LAN sent;
    and until the end nothing is lost between them. *)
Definition routed (s : SystemT) (w : Worker H X) (x : X) : Prop :=
  exists c k st, claim_of w = Some c /\ tcp_at (tunnel (shared s)) (handle c) k /\ lan (board (shared s)) x = Some st /\
    peer_addr st = (dst c, port c) /\ (is_active k = true -> local_endpoint k = Some (peer_addr st)) /\
    to_lan st `prefix_of` arrived k /\ queued k `prefix_of` from_lan st /\
    (at_end w = false -> taken k = to_lan st ++ for_lan w /\ from_lan st = queued k ++ for_client w).

Lemma worker_routed s w x j : sys_ok s -> workers s !! j = Some w -> stream_of w = Some x -> routed s w x.
Proof.
  intros Hinv Hj Hx. pose proof (inv_worker _ _ _ Hinv j w Hj) as Hok. unfold worker_ok in Hok. destruct (claim_of w) as [c|] eqn:Hc; [|by destruct w].
  destruct Hok as (_ & _ & k & Hat & Ho & Hs). destruct Ho as [[_ He]| ->]; [|done].
  assert (forall chunk rest, for_lan w = chunk -> for_client w = rest -> carries (board (shared s)) c x k chunk rest -> routed s w x) as Hgo.
  { intros chunk rest <- <- (st & Hl & Hp & Ht & Hf). exists c, k, st. split_and!; try done; [by rewrite Hp| |rewrite Hf; by apply prefix_app_r].
    destruct (taken_arrived k) as [more ->]. rewrite Ht, <- app_assoc. by apply prefix_app_r. }
  destruct w; try done; cbn in Hc, Hx, Hs; injection Hc as ->; injection Hx as ->.
  1-3: destruct Hs as [? Hs]. 1-2: by eapply Hgo. 1: destruct Hs as [_ Hs]. 1-2: by apply (Hgo [] []).
  destruct Hs as (st & Hl & Hp & Ht & Hf). exists c, k, st. split_and!; try done; [by rewrite Hp|]. destruct (taken_arrived k) as [more ->]. by apply prefix_app_r.
Qed.

(** C6. Whatever the workers and the other tasks of the device do, in whatever
    order, nothing panics, and every connection is routed. *)
Theorem route_faithful n es : exists (t : TunnelT) s, tunnel_new (E:=E) = Ok t /\ run (E:=E) es (serve t n) = Ok s /\
  forall j w x, workers s !! j = Some w -> stream_of w = Some x -> routed s w x.
Proof.
  destruct (tunnel_new_spec n) as (t & Et & _ & Hs). destruct (run_inv es _ Hs) as (s & Es & Hinv). exists t, s. split; [done|]. split; [done|].
  intros j w x. by apply worker_routed.
Qed.

(** C7. At any time no two workers have the same socket or the same LAN
    connection, a listener is marked as claimed exactly while a worker has it, and
    the queues keep to twelve packets of at most 1400 bytes each. *)
Theorem claims_exclusive n es : exists (t : TunnelT) s, tunnel_new (E:=E) = Ok t /\ run (E:=E) es (serve t n) = Ok s /\
  (forall j j' c c', holds (workers s) j c -> holds (workers s) j' c' -> slot c = slot c' \/ handle c = handle c' -> j = j') /\
  (forall j j' x, dialled (workers s) j x -> dialled (workers s) j' x -> j = j') /\
  (forall i, claimed (tunnel (shared s)) !! i = Some true <-> exists j c, holds (workers s) j c /\ slot c = i) /\
  bounded (device (tunnel (shared s))).
Proof.
  destruct (tunnel_new_spec n) as (t & Et & _ & Hs). destruct (run_inv es _ Hs) as (s & Es & Hinv). exists t, s. split; [done|]. split; [done|].
  assert (forall j c, holds (workers s) j c -> listeners (tunnel (shared s)) !! slot c = Some (handle c, port c) /\ claimed (tunnel (shared s)) !! slot c = Some true) as Hfl
    by (intros; by eapply holds_flagged).
  split; [|split; [apply (inv_streams _ _ _ Hinv)|split; [|apply (inv_queues _ _ _ Hinv)]]].
  - intros j j' c c' Hj Hj' Heq. eapply (inv_exclusive _ _ _ Hinv); [done..|]. destruct Heq as [?|Heq]; [done|]. destruct (Hfl _ _ Hj) as [Hl _], (Hfl _ _ Hj') as [Hl' _].
    rewrite Heq in Hl. eapply handle_slot; [by eapply inv_handles|done..].
  - intros i. split; [apply (inv_claimed _ _ _ Hinv)|]. intros (j & c & Hj & <-). by apply Hfl in Hj as [_ ?].
Qed.

(** ** A listener that is lost *)

(** Listener [i] is not claimed, and its socket [h] is closed: it neither listens
    nor has a connection. *)
Definition stranded (i : nat) (h : H) (t : TunnelT) : Prop :=
  claimed t !! i = Some false /\ (exists p, listeners t !! i = Some (h, p)) /\ exists k, tcp_at t h k /\ is_open k = false /\ local_endpoint k = None.

Section Stranded.
Context (i : nat) (h : H).

Definition keeps {A} (m : M' A) (s : SharedT) : Prop := stranded i h (tunnel s) -> stranded i h (tunnel (m s).1).

Lemma strands_ret {A} (a : A) s : keeps (ret a) s.
Proof. by intros ?. Qed.
Lemma strands_lift {A} (m : outcome E A) s : keeps (lift m) s.
Proof. by intros ?. Qed.
Lemma keeps_board {A} (f : N -> N * A) s : keeps (on_board f) s.
Proof. unfold keeps, on_board. by destruct (f (board s)). Qed.
Lemma strands_bind {A B} (m : M' A) (k : A -> M' B) s : keeps m s -> (forall a s', m s = (s', Ok a) -> keeps (k a) s') -> keeps (bind m k) s.
Proof.
  unfold keeps, bind. intros Hm Hk Hs. specialize (Hm Hs). destruct (m s) as [s' [a| | |]] eqn:Em; try done. by apply (Hk a s').
Qed.
Lemma keeps_set t s : (stranded i h (tunnel s) -> stranded i h t) -> keeps (set_tunnel t) s.
Proof. done. Qed.
Lemma strands_get {B} (k : SharedT -> M' B) s : keeps (k s) s -> keeps (bind get_state k) s.
Proof. done. Qed.

Lemma stranded_poll t now : stranded i h t -> stranded i h (poll t now).
Proof.
  intros (Hc & Hl & k & Hk & Ho & He). destruct (tunnel_poll_spec t now) as (_ & El & Ec & _ & _ & Hs & _). unfold stranded. rewrite El, Ec. split; [done|]. split; [done|].
  destruct (Hs h k Hk) as (k' & Hk' & (_ & _ & _ & _ & Hclosed) & _). destruct (Hclosed Ho) as [Ho' He']. exists k'. split_and!; try done. by apply He'.
Qed.

Lemma keeps_poll s : keeps poll_now s.
Proof. apply strands_bind; [apply keeps_board|]. intros now s' _. apply strands_get, keeps_set, stranded_poll. Qed.

Lemma keeps_socket h' s : keeps (socket h') s.
Proof. apply strands_get, strands_lift. Qed.

Lemma stranded_put h' s t : h' <> h -> stranded i h t -> stranded i h (set_sockets t (set_put (sockets t) h' s)).
Proof. intros Hne (? & ? & k & ? & ?). split; [done|]. split; [done|]. exists k. split; [|done]. unfold tcp_at. cbn. by rewrite set_put_other. Qed.

Lemma keeps_put h' k s : h' <> h -> keeps (put_socket h' k) s.
Proof. intros Hne. apply strands_get, keeps_set. by apply stranded_put. Qed.

(** [claim] passes it by. *)
Lemma claim_loop_passes t rest j t' r : stranded i h t -> drop j (listeners t) = rest -> claim_loop (E:=E) (K:=K) (U:=U) rest j t = Ok (t', r) -> stranded i h t'.
Proof.
  intros Hst. pose proof Hst as (Hc & [p Hl] & k & Hk & Ho & He). revert j. induction rest as [|[h0 p0] rest IH]; intros j Hd; [by intros [= <- _]|]. cbn [claim_loop].
  assert (listeners t !! j = Some (h0, p0)) as Hj by (by rewrite <- (Nat.add_0_r j), <- lookup_drop, Hd).
  assert (drop (S j) (listeners t) = rest) as Hd' by (by rewrite <- Nat.add_1_r, <- drop_drop, Hd). specialize (IH (S j) Hd').
  destruct (index (claimed t) j) as [b| | |]; try done. cbn [obind]. destruct b; [done|].
  destruct (tcp_socket (sockets t) h0) as [k0| | |] eqn:Hk0; try done. cbn [obind]. case_match; [done|]. destruct (local_endpoint k0) as [[a p']|] eqn:He0; [|done].
  unfold set_at. case_decide; [|done]. cbn [obind]. intros [= <- _]. destruct (decide (j = i)) as [->|Hne].
  - exfalso. unfold tcp_socket, tcp_at in *. assert (h0 = h) as -> by congruence. rewrite Hk in Hk0. congruence.
  - split; [|split; [by exists p|by exists k]]. cbn. by rewrite list_lookup_insert_ne.
Qed.

Ltac keeps_step :=
  match goal with
  | |- keeps (bind get_state _) _ => apply strands_get
  | |- keeps (bind _ _) _ => apply strands_bind; [|intros ? ? ?]
  | |- keeps (ret _) _ => apply strands_ret
  | |- keeps (lift _) _ => apply strands_lift
  | |- keeps (on_board _) _ => apply keeps_board
  | |- keeps poll_now _ => apply keeps_poll
  | |- keeps (socket _) _ => apply keeps_socket
  | |- keeps (put_socket _ _) _ => by apply keeps_put
  | |- keeps (match ?x with _ => _ end) _ => destruct x
  | |- keeps (let _ := _ in _) _ => cbn zeta
  | |- keeps ((fun _ => _) _) _ => cbn beta
  end.

Lemma keeps_relisten c s : handle c <> h -> keeps (relisten c) s.
Proof.
  intros Hne. unfold relisten. repeat keeps_step. apply keeps_set. match goal with Hs : lift (set_at _ _ _) _ = _ |- _ => unfold lift, set_at in Hs; case_decide; [injection Hs as <- <-|done] end.
  intros (Hc & Hrest). split; [|exact Hrest]. cbn [set_claimed claimed].
  destruct (decide (slot c = i)) as [->|Hni]; [by rewrite list_lookup_insert_eq by (by eapply lookup_lt_Some)|by rewrite list_lookup_insert_ne].
Qed.

Lemma keeps_drain c r s : handle c <> h -> keeps (drain_held (handle c) r) s.
Proof. intros Hne. unfold drain_held. by repeat keeps_step. Qed.
Lemma keeps_relay_on c x r s : handle c <> h -> keeps (relay_on c x r) s.
Proof. intros Hne. unfold relay_on. repeat first [keeps_step|by apply keeps_drain]. Qed.
Lemma keeps_from_client c s : handle c <> h -> keeps (from_client (handle c)) s.
Proof. intros Hne. unfold from_client. by repeat keeps_step. Qed.

Lemma keeps_work w s : (forall c, claim_of w = Some c -> handle c <> h) -> keeps (work w) s.
Proof.
  intros Hw. destruct w as [|c|c x r|c x r chunk|c x r|c x turns|c x|c]; cbn [work claim_of] in *; unfold seek, dial, relay_turn, write_chunk, read_lan, flush_turn, close_lan; try pose proof (Hw c eq_refl) as Hne.
  - apply strands_bind; [apply keeps_poll|]. intros _ s1 _. apply strands_get. intros Hst. unfold lift, bind. destruct (claim (tunnel s1)) as [[t r]| | |] eqn:Ec; try done.
    by apply (claim_loop_passes (tunnel s1) (listeners (tunnel s1)) 0 t r).
  - by repeat keeps_step.
  - repeat first [keeps_step|by apply keeps_relay_on|by apply keeps_from_client].
  - repeat first [keeps_step|by apply keeps_relay_on].
  - by repeat keeps_step.
  - destruct turns; by repeat keeps_step.
  - by repeat keeps_step.
  - repeat first [keeps_step|by apply keeps_relisten].
Qed.

End Stranded.

Lemma stranded_aside i h t t' : listeners t' = listeners t -> claimed t' = claimed t -> (forall k, tcp_at t h k -> tcp_at t' h k) ->
  stranded i h t -> stranded i h t'.
Proof. intros El Ec Hk (Hc & Hl & k & Hat & ?). unfold stranded. rewrite El, Ec. split_and!; try done. exists k. split; [by apply Hk|done]. Qed.

Lemma stranded_udp i h t u : mdns t <> h -> stranded i h t -> stranded i h (put_udp t (mdns t) u).
Proof. intros Hne. apply stranded_aside; try done. intros k Hk. unfold tcp_at, put_udp. cbn. by rewrite set_put_other by (intros Heq; by apply Hne). Qed.

Lemma stranded_step i h e s s' : sys_ok s -> stranded i h (tunnel (shared s)) -> step (E:=E) e s = Ok s' -> stranded i h (tunnel (shared s')).
Proof.
  destruct s as [sh ws]. unfold sys_ok. cbn [shared workers]. intros Hinv Hst. pose proof Hst as (Hfree & [p Hl] & k & Hk & _).
  pose proof (mdns_not_tcp _ _ _ _ _ Hinv Hk) as Hm.
  destruct e as [j|packet| |room|answer client|]; cbn [step shared workers].
  - destruct (ws !! j) as [w|] eqn:Hj; [|by intros [= <-]]. pose proof (keeps_work i h w sh) as Hkeep. unfold keeps in Hkeep. destruct (work w sh) as [sh' m]. intros Hok. inv_ok. subst s'. apply Hkeep; [|done].
    intros c Hc <-. destruct (holds_flagged _ _ _ j c Hinv) as [Hlc Hfc]; [by exists w|]. assert (slot c = i) as <- by (eapply handle_slot; [by eapply inv_handles|done..]). congruence.
  - unfold deliver_packet. rewrite bind_get. intros Hok. pose proof (keeps_poll i h {| tunnel := enqueue (tunnel sh) packet; board := board sh |}) as Hkeep.
    unfold keeps in Hkeep. unfold set_tunnel in Hok. rewrite bind_modify in Hok. destruct (poll_now _) as [sh' m]. inv_ok. subst s'. apply Hkeep. cbn [tunnel].
    apply (stranded_aside i h (tunnel sh)); [..|done]; unfold enqueue; case_decide; try done; destruct (push _ _ _) as [q []]; done.
  - destruct (take_outbound (tunnel sh)) as [t' got] eqn:Et. intros [= <-]. cbn [shared tunnel]. unfold take_outbound in Et.
    destruct (outbound (device (tunnel sh))); injection Et as <- _; [done|]. by apply (stranded_aside i h (tunnel sh)).
  - unfold take_mdns_query, set_tunnel. destruct (run_poll sh ws Hinv) as (s1 & E1 & Hinv1 & _). pose proof (keeps_poll i h sh Hst) as Hst1. rewrite E1 in Hst1.
    rewrite (bind_ok _ _ _ _ _ E1), bind_get. destruct Hst1 as (? & ? & k1 & Hk1 & ?). pose proof (mdns_not_tcp _ _ _ _ _ Hinv1 Hk1) as Hm1. destruct (inv_mdns _ _ _ Hinv1) as [u Hu].
    unfold udp_socket. rewrite Hu, bind_lift. destruct (udp_can_recv u); cbn [negb]; [|intros [= <-]; split_and!; try done; by exists k1]. destruct (udp_recv u) as [u' got]. rewrite bind_modify.
    assert (stranded i h (put_udp (tunnel s1) (mdns (tunnel s1)) u')) as Hst2 by (apply stranded_udp; [done|]; split_and!; try done; by exists k1).
    destruct got as [[data meta]|]; [rewrite slice_ok by lia|]; by intros [= <-].
  - unfold send_mdns_answer, set_tunnel. rewrite bind_get. destruct (inv_mdns _ _ _ Hinv) as [u Hu]. unfold udp_socket. rewrite Hu, bind_lift.
    destruct (udp_send_slice u answer client) as [u' sent]. rewrite bind_modify. pose proof (keeps_poll i h {| tunnel := put_udp (tunnel sh) (mdns (tunnel sh)) u'; board := board sh |}) as Hkeep.
    unfold keeps in Hkeep. destruct (poll_now _) as [sh' m]. intros Hok. inv_ok. subst s'. apply Hkeep. by apply stranded_udp.
  - unfold monitor. rewrite bind_get. unfold lift. intros Hok. inv_ok. by subst s'.
Qed.

(** Whatever happens from then on. *)
Lemma stranded_run i h es s : sys_ok s -> stranded i h (tunnel (shared s)) -> exists s', run (E:=E) es s = Ok s' /\ stranded i h (tunnel (shared s')).
Proof.
  revert s. induction es as [|e es IH]; intros s Hs Hst; [by exists s|]. cbn [run]. destruct (step_inv e s Hs) as (s1 & E1 & Hs1). rewrite E1. cbn [obind].
  apply IH; [done|]. by apply (stranded_step i h e s s1).
Qed.

(** The packet that resets a connection nobody has claimed. *)
Lemma reset_strands `{!IfaceReset I SS H K U} i h p k packet s s1 : let t := tunnel (shared s) in
  listeners t !! i = Some (h, p) -> claimed t !! i = Some false -> tcp_at t h k -> is_active k = true -> opened k = true ->
  inbound (device t) = [] -> length packet <= MTU -> resets (iface t) (sockets t) h packet ->
  step (E:=E) (FromPeer packet) s = Ok s1 -> stranded i h (tunnel (shared s1)).
Proof.
  destruct s as [[t n] ws]. cbn [tunnel shared]. intros Hl Hc Hk Ha Ho Hin Hlen Hrst. cbn [step shared workers]. unfold deliver_packet, poll_now, set_tunnel, on_board.
  rewrite bind_get, bind_modify. unfold bind at 1. cbn [tunnel board]. destruct (instant_now n) as [n' now]. rewrite bind_get. cbn [tunnel board].
  intros [= <-]. cbn [shared tunnel]. unfold enqueue. rewrite decide_True by done. unfold push. rewrite Hin. cbn [length]. rewrite decide_True by (unfold QUEUE; lia). cbn [app].
  set (t1 := set_device t _). destruct (tunnel_poll_spec t1 now) as (_ & El & Ec & _). unfold stranded. rewrite El, Ec. split; [exact Hc|]. split; [by exists p|].
  unfold poll, tcp_at. cbn [iface device sockets t1 set_device] in *. destruct (iface_poll _ _ _ _) as [[i' d'] ss'] eqn:Ep. cbn [sockets].
  by eapply reset_view; [exact Hk|..|exact Ep].
Qed.

(** C8. A connection that is reset before a worker has claimed it leaves its
    listener lost for good: once the packet with the RST has come in, then whatever
    happens from there on, the socket stays closed and is claimed by no one, and so
    never listens again. *)
Theorem stranded_forever `{!IfaceReset I SS H K U} n es1 es2 (t : TunnelT) s i h p k packet :
  tunnel_new (E:=E) = Ok t -> run (E:=E) es1 (serve t n) = Ok s -> let t := tunnel (shared s) in
  listeners t !! i = Some (h, p) -> claimed t !! i = Some false -> tcp_at t h k -> is_active k = true -> opened k = true ->
  inbound (device t) = [] -> length packet <= MTU -> resets (iface t) (sockets t) h packet ->
  exists s', run (E:=E) (FromPeer packet :: es2) s = Ok s' /\ stranded i h (tunnel (shared s')).
Proof.
  intros Et Es t1 Hl Hc Hk Ha Ho Hin Hlen Hrst. destruct (tunnel_new_spec n) as (t0 & Et0 & _ & Hs0). assert (t0 = t) as -> by congruence.
  destruct (run_inv es1 _ Hs0) as (s0 & Es0 & Hs). assert (s0 = s) as -> by congruence. cbn [run].
  destruct (step_inv (FromPeer packet) s Hs) as (s1 & E1 & Hs1). rewrite E1. cbn [obind].
  apply (stranded_run i h es2 s1 Hs1). by apply (reset_strands i h p k packet s s1).
Qed.

(** C9. A listener that was claimed comes back: when its worker gives it back, its
    socket listens again, on the port of the table. *)
Theorem listener_returns n es (t : TunnelT) s j c : tunnel_new (E:=E) = Ok t -> run (E:=E) es (serve t n) = Ok s -> workers s !! j = Some (Returning c) ->
  exists s', step (E:=E) (Work j) s = Ok s' /\ workers s' !! j = Some Seeking /\
    listens (tunnel (shared s')) (slot c) (handle c) (port c) /\ PORTS !! slot c = Some (port c).
Proof.
  intros Et Es Hj. destruct (tunnel_new_spec n) as (t0 & Et0 & _ & Hs0). assert (t0 = t) as -> by congruence.
  destruct (run_inv es _ Hs0) as (s0 & Es0 & Hs). assert (s0 = s) as -> by congruence. cbn [step]. rewrite Hj. cbn [work].
  destruct (relisten_inv (shared s) (workers s) j c Hs Hj) as (sh & ok & Er & _ & _ & Hl). rewrite (bind_ok _ _ _ _ _ Er). eexists. split; [reflexivity|].
  cbn [workers shared]. split; [apply list_lookup_insert_eq; by eapply lookup_lt_Some|]. split; [done|].
  destruct (holds_flagged _ _ _ j c Hs) as [Hlc _]; [by exists (Returning c)|]. by rewrite <- (inv_ports _ _ _ Hs), list_lookup_fmap, Hlc.
Qed.
End Invariant.

(** *** An example: a client of listener 0, and a LAN that greets. *)
Module Example.
Export Smoltcp.Example.

#[export] Instance no_udp : Udp unit unit := {
  udp_new := tt; udp_bind u _ := (u, true); udp_can_recv _ := false; udp_recv u := (u, None); udp_send_slice u _ _ := (u, true);
}.

(** A poll takes one packet, for socket 0. *)
#[export] Instance sock_iface : Iface unit (list (sock + unit)) nat sock unit := {
  iface_new := tt;
  set_any_ip i _ := i;
  iface_poll i _ d ss :=
    match receive d, ss with
    | Some (packet, d), inl k :: ss => (i, d, inl (take_in k packet) :: ss)
    | _, _ => (i, d, ss)
    end;
}.
#[export] Instance sock_iface_view : IfaceView unit (list (sock + unit)) nat sock unit.
Proof.
  split; [apply sock_set_view|]. cbn. intros i now d ss i' d' ss'.
  assert (forall h s, ss !! h = Some s -> exists s', ss !! h = Some s' /\
    match s, s' with inl k, inl k' => polled (bool_decide (inbound d = [])) k k' /\ s_port k' = s_port k | inr _, inr _ => True | _, _ => False end) as Hsame.
  { intros h s Hs. exists s. split; [done|]. destruct s as [k|]; [|done]. split; [apply polled_refl|done]. }
  destruct (receive d) as [[packet d1]|] eqn:Er; [|by intros [= <- <- <-]]. destruct ss as [|[k|u] ss]; [by intros [= <- <- <-]|..|by intros [= <- <- <-]].
  intros [= <- <- <-]. split; [by eapply rtc_once, phy_receive|]. intros [|h] s Hs; [|exact (Hsame (S h) s Hs)]. injection Hs as <-. exists (inl (take_in k packet)).
  split; [done|]. split; [|apply take_in_port]. unfold receive in Er. destruct (inbound d); [done|]. apply take_in_view.
Defined.

#[export] Instance sock_iface_reset : IfaceReset unit (list (sock + unit)) nat sock unit.
Proof.
  refine {| resets _ _ h packet := h = 0 /\ packet = [x00] |}.
  intros i now d ss i' d' ss' h k packet Hk Ha _ [-> ->] Hin. destruct ss as [|s ss]; [done|]. cbn in Hk. injection Hk as ->. cbn. unfold receive. rewrite Hin.
  intros [= <- <- <-]. eexists. split; [reflexivity|]. unfold take_in. cbn in Ha. by rewrite Ha, decide_False, decide_True by done.
Defined.

(** A clock that ticks when it is read, and the streams of the LAN, each with what
    it has still to say. *)
Definition world : Type := Z * list (Stream * bytes).
Definition change (n : world) (x : nat) (f : Stream * bytes -> Stream * bytes) : world := (n.1, alter f x n.2).
#[export] Instance world_board : Board world nat := {
  TICK_HZ := 1000;
  instant_now n := ((n.1 + 1, n.2), n.1 + 1)%Z;
  lan_connect n a := ((n.1, n.2 ++ [({| peer_addr := a; to_lan := []; from_lan := [] |}, bs "welcome")]), Some (length n.2));
  lan_write_all n x b := (change n x (fun s => ({| peer_addr := peer_addr s.1; to_lan := to_lan s.1 ++ b; from_lan := from_lan s.1 |}, s.2)), true);
  lan_read n x want :=
    match n.2 !! x with
    | Some (s, b :: l) =>
        (change n x (fun _ => ({| peer_addr := peer_addr s; to_lan := to_lan s; from_lan := from_lan s ++ take want (b :: l) |}, drop want (b :: l))),
         Some (Some (take want (b :: l))))
    | _ => (n, None)
    end;
  lan_flush n _ := n;
  lan_close n _ := n;
}.
#[export] Instance world_view : BoardView world nat.
Proof.
  refine {| time := fst; lan n x := fst <$> n.2 !! x |}; cbn [instant_now lan_connect lan_write_all lan_read lan_flush lan_close TICK_HZ world_board].
  - done.
  - intros n n' t [= <- <-]. cbn. split; [lia|done].
  - intros n a n' r [= <- <-]. cbn. split; [done|]. split_and!.
    + by rewrite lookup_ge_None_2.
    + by rewrite list_lookup_middle.
    + intros y Hne. destruct (decide (y < length n.2)); [by rewrite lookup_app_l|]. rewrite !lookup_ge_None_2; [done|lia|]. rewrite length_app. simpl. lia.
  - intros n x s b n' ok Hx [= <- <-]. unfold change. cbn. split; [done|]. split; [intros y Hne; by rewrite list_lookup_alter_ne|]. exists (length b). split_and!; try done.
    rewrite list_lookup_alter_eq. destruct (n.2 !! x) as [[s0 l]|]; [|done]. cbn in Hx. injection Hx as ->. cbn. by rewrite take_ge.
  - intros n x s want n' r Hx. destruct (n.2 !! x) as [[s0 [|b l]]|] eqn:E; [by intros [= <- <-]; rewrite E| |done]. cbn in Hx. injection Hx as ->.
    intros [= <- <-]. unfold change. cbn [fst snd]. split; [done|]. split; [intros y Hne; by rewrite list_lookup_alter_ne|]. split; [rewrite length_take; lia|].
    by rewrite list_lookup_alter_eq, E.
  - done.
  - done.
Defined.

Abbreviation tunnel_t := (Tunnel unit (list (sock + unit)) nat).
Definition boot : tunnel_t := match tunnel_new (E:=Empty_set) with Ok t => t | _ => Build_Tunnel device_default tt [] [] [] 0 0 end.
Definition quiet : world := (0%Z, []).
Definition played (es : list (Event (M:=unit))) : System :=
  match run (E:=Empty_set) es (serve boot quiet) with Ok s => s | _ => serve boot quiet end.

(** A worker claims the connection, dials, and passes bytes both ways. *)
Definition greeting : list (Event (M:=unit)) := [FromPeer (bs "hello"); Work 0; Work 0; Work 0; Work 0; Work 0; Work 0].
Example routed_hello :
  match shared (played greeting) with
  | {| tunnel := t; board := (_, [(s, _)]) |} => s = {| peer_addr := ([x0a; x00; x00; x07], 80%Z); to_lan := bs "hello"; from_lan := bs "welcome" |} /\
      match sockets t with inl k :: _ => s_queued k = bs "welcome" | _ => False end
  | _ => False
  end.
Proof. vm_compute. by split. Qed.

(** A client that closes its side once it has asked gets no answer: the worker ends
    there and the connection is reset. *)
Example half_closed_no_answer :
  let es := [FromPeer (bs "hello"); Work 0; Work 0; Work 0; Work 0; Work 0; FromPeer []; Work 0; Work 0; Work 0; Work 0; Work 0] in
  match shared (played es) with
  | {| tunnel := t; board := (_, [(s, _)]) |} => from_lan s = bs "welcome" /\
      match sockets t with inl k :: _ => s_queued k = [] /\ is_listening k = true | _ => False end
  | _ => False
  end.
Proof. vm_compute. by split_and!. Qed.
End Example.
Import Example.

Lemma route_faithful_witness : exists (t : tunnel_t) s, tunnel_new (E:=Empty_set) = Ok t /\ run (E:=Empty_set) greeting (serve t quiet) = Ok s /\
  forall j w x, workers s !! j = Some w -> stream_of w = Some x -> routed s w x.
Proof. apply (route_faithful (E:=Empty_set) quiet greeting). Defined.

Lemma claims_exclusive_witness : exists (t : tunnel_t) s, tunnel_new (E:=Empty_set) = Ok t /\ run (E:=Empty_set) greeting (serve t quiet) = Ok s /\
  (forall j j' c c', holds (workers s) j c -> holds (workers s) j' c' -> slot c = slot c' \/ handle c = handle c' -> j = j') /\
  (forall j j' x, dialled (workers s) j x -> dialled (workers s) j' x -> j = j') /\
  (forall i, claimed (tunnel (shared s)) !! i = Some true <-> exists j c, holds (workers s) j c /\ slot c = i) /\
  bounded (device (tunnel (shared s))).
Proof. apply (claims_exclusive (E:=Empty_set) quiet greeting). Defined.

(** The client's connection is reset at once. *)
Lemma stranded_forever_witness :
  let s := played [FromPeer (bs "hello")] in
  exists s', run (E:=Empty_set) [FromPeer [x00]; Work 0; FromPeer (bs "again"); Work 1; Work 2] s = Ok s' /\ stranded 0 0 (tunnel (shared s')).
Proof.
  apply (stranded_forever (E:=Empty_set) quiet [FromPeer (bs "hello")] [Work 0; FromPeer (bs "again"); Work 1; Work 2] boot
    (played [FromPeer (bs "hello")]) 0 0 80 (take_in (blank 1 80 TCP_TX) (bs "hello")) [x00]); try (vm_compute; reflexivity).
  - apply Nat.leb_le. vm_compute. reflexivity.
  - by split.
Defined.

(** It is reset while a worker has it. *)
Lemma listener_returns_witness :
  let s := played [FromPeer (bs "hello"); Work 0; FromPeer [x00]; Work 0; Work 0; Work 0] in
  let c := {| slot := 0; handle := 0; dst := [x0a; x00; x00; x07]; port := 80 |} in
  exists s', step (E:=Empty_set) (Work 0) s = Ok s' /\ workers s' !! 0 = Some Seeking /\ listens (tunnel (shared s')) (slot c) (handle c) (port c) /\ PORTS !! slot c = Some (port c).
Proof.
  apply (listener_returns (E:=Empty_set) quiet [FromPeer (bs "hello"); Work 0; FromPeer [x00]; Work 0; Work 0; Work 0] boot); vm_compute; reflexivity.
Defined.
