(* ===== verification/FwMdns.v ===== *)
(** The mDNS proxy of the firmware: [lando-fw/src/mdns.rs].

    A query that came through the tunnel is asked again on the LAN, and what is
    answered within a window goes back to the client. The socket on the LAN and
    the clock are [LanUdp], the tunnel [Discovery]; what is relied on of each is
    stated with what has gone through it. *)
From S2P Require Import Prelude StateError Smoltcp Socket.
From S2P Require Mdns FwTunnel.

(** In milliseconds. *)
Definition GATHER : Z := 1200.
Definition MAX : nat := 1400.

(** [embassy_net::udp::UdpSocket] and [embassy_time]. [recv_within] is
    [select(recv_from(..), Timer::after(..))] with a buffer of so many bytes and a
    time in ticks: [None] where the timer is first, [Some None] the error of the
    socket, for a datagram that does not fit. *)
Class LanUdp (W : Type) := {
  TICK_HZ : Z;
  instant_now : W -> W * Z;
  recv_within : W -> nat -> Z -> W * option (option bytes);
  send_to : W -> bytes -> bytes * Z -> W * bool;
}.

(** The tunnel, as the proxy calls it: [take_mdns_query] with the length of its
    buffer, and [send_mdns_answer]; [M] is what a client is answered with. *)
Class Discovery (T M : Type) := {
  take_mdns_query : T -> nat -> T * option (bytes * M);
  send_mdns_answer : T -> bytes -> M -> T;
}.

Record Proxy (T W : Type) := { tunnel : T; lan : W }.
Arguments tunnel {T W}.
Arguments lan {T W}.

Section Serve.
Context {T W M E : Type} `{LU : LanUdp W} `{DC : Discovery T M}.
Abbreviation P := (Proxy T W).
Abbreviation MM := (SE P E).

Definition on_lan {A} (f : W -> W * A) : MM A := fun p => let (w, a) := f (lan p) in ({| tunnel := tunnel p; lan := w |}, Ok a).
Definition on_tunnel {A} (f : T -> T * A) : MM A := fun p => let (t, a) := f (tunnel p) in ({| tunnel := t; lan := lan p |}, Ok a).
Definition from_millis (ms : Z) : Z := (ms * TICK_HZ / 1000)%Z.

(** [mdns::GROUP] and [mdns::PORT] *)
Definition group : bytes * Z := (Mdns.GROUP, Mdns.PORT).

(** [while stale < 64]: late answers are read and dropped. *)
Fixpoint drain_stale (turns : nat) : MM unit :=
  match turns with
  | O => ret tt
  | S turns =>
      do! drained := on_lan (fun w => recv_within w MAX (from_millis 2)) in
      match drained with
      | Some _ => drain_stale turns
      | None => ret tt
      end
  end.

(** An answer as the client gets it, and nothing for what is not an answer. *)
Definition edit_answer (id : Z) (answer : bytes) : outcome Mdns.MdnsError (option bytes) :=
  let? response := Mdns.is_response answer in
  if (response : bool) then
    let? answer := Mdns.set_transaction_id answer id in
    let (answer, restored) := Mdns.restore_multicast_questions answer in
    match restored with
    | Panic => Panic
    | NoFuel => NoFuel
    | _ => Ok (Some answer)
    end
  else Ok None.

(** The loop of the window. *)
Fixpoint gather (fuel : nat) (deadline id : Z) (client : M) : MM unit :=
  match fuel with
  | O => lift NoFuel
  | S fuel =>
      do! now := on_lan instant_now in
      let remaining := Z.max 0 (deadline - now) in
      if decide (remaining = 0)%Z then ret tt
      else
        do! received := on_lan (fun w => recv_within w MAX remaining) in
        match received with
        | Some (Some answer) =>
            do! edited := lift (expect_ok (edit_answer id answer)) in
            match edited with
            | None => gather fuel deadline id client
            | Some answer =>
                do! _ := on_tunnel (fun t => (send_mdns_answer t answer client, tt)) in
                gather fuel deadline id client
            end
        | _ => ret tt
        end
  end.

(** One query, from where it was taken: what [serve] does until it looks for the
    next. *)
Definition answer_query (fuel : nat) (query : bytes) (client : M) : MM unit :=
  do! _ := drain_stale 64 in
  do! id := lift (expect_ok (Mdns.transaction_id query)) in
  let id := default 0%Z id in
  let (query, asked) := Mdns.request_unicast_replies query in
  match asked with
  | Err _ => ret tt
  | Panic => lift Panic
  | NoFuel => lift NoFuel
  | Ok _ =>
      do! sent := on_lan (fun w => send_to w query group) in
      if (sent : bool) then
        do! now := on_lan instant_now in
        gather fuel (now + from_millis GATHER)%Z id client
      else ret tt
  end.

(** A turn of [serve]; whether there was a query. *)
Definition serve_turn (fuel : nat) : MM bool :=
  do! got := on_tunnel (fun t => take_mdns_query t MAX) in
  match got with
  | None => ret false
  | Some (query, client) => do! _ := answer_query fuel query client in ret true
  end.

(** [serve], for so many turns. *)
Fixpoint serve (fuel turns : nat) : MM unit :=
  match turns with
  | O => ret tt
  | S turns => do! _ := serve_turn fuel in serve fuel turns
  end.
End Serve.

(** The tunnel of the firmware is one such. *)
#[export] Instance subnet_discovery {I SS H K U M N X} `{TK : Tcp K} `{UD : FwTunnel.Udp U M} `{SM : !FwTunnel.Iface I SS H K U} `{BD : FwTunnel.Board N X} :
  Discovery (FwTunnel.Shared I SS H N) M := {
  take_mdns_query s room := let (s, got) := FwTunnel.take_mdns_query (E:=Empty_set) room s in (s, match got with Ok got => got | _ => None end);
  send_mdns_answer s answer client := (FwTunnel.send_mdns_answer (E:=Empty_set) answer client s).1;
}.

(** ** What is relied on *)

(** The socket on the LAN: the datagrams still to come, in order; those that were
    read, or lost because they do not fit; what was sent. The clock does not go
    back, and the timer of a read does not end early. *)
Class LanUdpView (W : Type) `{LanUdp W} := {
  coming : W -> list bytes;
  heard : W -> list bytes;
  asked : W -> list (bytes * (bytes * Z));
  udp_time : W -> Z;
  tick_hz_pos : (0 < TICK_HZ)%Z;
  udp_now_view w w' t : instant_now w = (w', t) ->
    (udp_time w <= t /\ udp_time w' = t)%Z /\ coming w' = coming w /\ heard w' = heard w /\ asked w' = asked w;
  recv_within_view w room d w' r : recv_within w room d = (w', r) ->
    (udp_time w <= udp_time w')%Z /\ asked w' = asked w /\
    match r with
    | Some got => exists d, coming w = d :: coming w' /\ heard w' = heard w ++ [d] /\ got = if decide (length d <= room) then Some d else None
    | None => (udp_time w + d <= udp_time w')%Z /\ coming w' = coming w /\ heard w' = heard w
    end;
  send_to_view w b to w' ok : send_to w b to = (w', ok) ->
    (udp_time w <= udp_time w')%Z /\ coming w' = coming w /\ heard w' = heard w /\ asked w' = if (ok : bool) then asked w ++ [(b, to)] else asked w;
}.

(** The tunnel: what was answered through it. *)
Class DiscoveryView (T M : Type) `{Discovery T M} := {
  answered : T -> list (bytes * M);
  take_query_view t room t' r : take_mdns_query t room = (t', r) -> answered t' = answered t /\ match r with Some (q, _) => length q <= room | None => True end;
  send_answer_view t b m : answered (send_mdns_answer t b m) = answered t ++ [(b, m)];
}.

(** ** One query *)
Section Proofs.
Context {T W M E : Type} `{LV : LanUdpView W} `{DV : DiscoveryView T M}.
Abbreviation P := (Proxy T W).

(** The answers among [got], edited for the client. *)
Definition edited (id : Z) (answer : bytes) : option bytes := match edit_answer id answer with Ok r => r | _ => None end.
Definition answers (id : Z) (client : M) (got : list bytes) : list (bytes * M) := map (fun a => (a, client)) (omap (edited id) got).

Lemma run_lan {A} (f : W -> W * A) (p : P) w a : f (lan p) = (w, a) -> on_lan (E:=E) f p = ({| tunnel := tunnel p; lan := w |}, Ok a).
Proof. unfold on_lan. by intros ->. Qed.
Lemma run_tunnel {A} (f : T -> T * A) (p : P) t a : f (tunnel p) = (t, a) -> on_tunnel (E:=E) f p = ({| tunnel := t; lan := lan p |}, Ok a).
Proof. unfold on_tunnel. by intros ->. Qed.

(** The edits are total. *)
Lemma response_total a : exists b : bool, Mdns.is_response a = Ok b /\ (b = true -> Mdns.HEADER_LEN <= length a).
Proof.
  unfold Mdns.is_response. case_decide as Hl; [|by exists false]. destruct (lookup_lt_is_Some_2 a 2) as [b Hb]; [unfold Mdns.HEADER_LEN in Hl; lia|].
  rewrite (index_ok _ 2 b) by done. by eexists.
Qed.
Lemma set_id_total a id : Mdns.HEADER_LEN <= length a -> exists a', Mdns.set_transaction_id a id = Ok a'.
Proof.
  intros Hl. unfold Mdns.set_transaction_id. rewrite decide_True by done. unfold Mdns.HEADER_LEN in Hl. change (to_be 2 id) with [zb (id / 256); zb id].
  rewrite (index_ok _ 0 (zb (id / 256))), (index_ok _ 1 (zb id)) by done. cbn [obind]. unfold set_at. rewrite decide_True by lia. cbn [obind].
  rewrite length_insert, decide_True by lia. by eexists.
Qed.
Lemma id_total a : exists r, Mdns.transaction_id a = Ok r.
Proof.
  unfold Mdns.transaction_id. case_decide as Hl; [by eexists|]. unfold Mdns.HEADER_LEN in Hl. destruct a as [|a0 [|a1 a]]; [simpl in Hl; lia..|].
  rewrite (index_ok _ 0 a0), (index_ok _ 1 a1) by done. by eexists.
Qed.
Lemma edit_answer_ok id a : edit_answer id a = Ok (edited id a).
Proof.
  unfold edited, edit_answer. destruct (response_total a) as (b & -> & Hb). cbn [obind]. destruct b; [|done]. destruct (set_id_total a id (Hb eq_refl)) as [a' ->]. cbn [obind].
  unfold Mdns.restore_multicast_questions. destruct (Mdns.mdns_rewrite_total a' false) as (a2 & r & -> & [[n ->]| ->] & _); done.
Qed.

(** *** The loops *)
Lemma drain_spec turns (p : P) : exists w stale, drain_stale (E:=E) turns p = ({| tunnel := tunnel p; lan := w |}, Ok tt) /\ length stale <= turns /\
  coming (lan p) = stale ++ coming w /\ heard w = heard (lan p) ++ stale /\ asked w = asked (lan p) /\ (udp_time (lan p) <= udp_time w)%Z.
Proof.
  revert p. induction turns as [|turns IH]; intros p; cbn [drain_stale]; [exists (lan p), []; rewrite app_nil_r; by destruct p|].
  destruct (recv_within (lan p) MAX (from_millis 2)) as [w r] eqn:Er. destruct (recv_within_view _ _ _ _ _ Er) as (Ht & Ha & Hr).
  rewrite (bind_ok _ _ _ _ _ (run_lan (fun w => recv_within w MAX _) p _ _ Er)). destruct r as [got|]; cbn beta iota.
  - destruct Hr as (d & Hc & Hh & _). destruct (IH {| tunnel := tunnel p; lan := w |}) as (w' & stale & -> & Hl & Hc' & Hh' & Ha' & Ht'). cbn [lan tunnel] in *.
    exists w', (d :: stale). split_and!; [done|simpl; lia|by rewrite Hc, Hc'|by rewrite Hh', Hh, <- app_assoc|congruence|lia].
  - destruct Hr as (_ & Hc & Hh). exists w, []. rewrite app_nil_r. split_and!; try done; simpl; lia.
Qed.

(** What the window does: it reads answers until the timer, or until a datagram
    that does not fit, which ends it early. *)
Definition ends_with (last : list bytes) : Prop := last = [] \/ exists d, last = [d] /\ MAX < length d.
Definition gathered (deadline id : Z) (client : M) (p p' : P) : Prop :=
  exists got last, ends_with last /\ (last = [] -> (deadline <= udp_time (lan p'))%Z) /\ heard (lan p') = heard (lan p) ++ got ++ last /\ asked (lan p') = asked (lan p) /\
    coming (lan p) = got ++ last ++ coming (lan p') /\ answered (tunnel p') = answered (tunnel p) ++ answers id client got.

Lemma window_spec fuel deadline id client (p : P) : length (coming (lan p)) < fuel ->
  exists p', gather (E:=E) fuel deadline id client p = (p', Ok tt) /\ gathered deadline id client p p'.
Proof.
  revert p. induction fuel as [|fuel IH]; intros p Hf; [lia|]. cbn [gather]. destruct (instant_now (lan p)) as [w1 now] eqn:En.
  destruct (udp_now_view _ _ _ En) as ((_ & Ht1) & Hc1 & Hh1 & Ha1). rewrite (bind_ok _ _ _ _ _ (run_lan instant_now p _ _ En)).
  assert (forall last w, ends_with last -> (last = [] -> (deadline <= udp_time w)%Z) -> coming w1 = last ++ coming w -> heard w = heard w1 ++ last -> asked w = asked w1 ->
    gathered deadline id client p {| tunnel := tunnel p; lan := w |}) as Hend.
  { intros last w Hl Ht Hc Hh Ha. exists [], last. cbn [lan tunnel omap answers app]. unfold answers. cbn. rewrite app_nil_r. split_and!; try done; congruence. }
  case_decide; [eexists; split; [reflexivity|]; apply (Hend []); try done; [by left|lia|by rewrite app_nil_r]|].
  destruct (recv_within w1 MAX (Z.max 0 (deadline - now))) as [w2 r] eqn:Er. destruct (recv_within_view _ _ _ _ _ Er) as (_ & Ha2 & Hr).
  rewrite (bind_ok _ _ _ _ _ (run_lan (fun w => recv_within w MAX _) {| tunnel := tunnel p; lan := w1 |} _ _ Er)). cbn [tunnel].
  destruct r as [[a|]|]; cbn beta iota.
  - destruct Hr as (d & Hc2 & Hh2 & Hd). case_decide; [injection Hd as <-|done]. rewrite edit_answer_ok. cbn [expect_ok]. rewrite bind_lift. rewrite <- Hc1, Hc2 in Hf. cbn [length] in Hf.
    assert (forall t', length (coming w2) < fuel -> answered t' = answered (tunnel p) ++ answers id client [a] ->
      exists p', gather (E:=E) fuel deadline id client {| tunnel := t'; lan := w2 |} = (p', Ok tt) /\ gathered deadline id client p p') as Hgo.
    { intros t' Hlt Ht'. destruct (IH {| tunnel := t'; lan := w2 |} Hlt) as (p' & -> & got & last & Hl & Ht & Hh & Ha & Hc & Hans). cbn [lan tunnel] in *.
      exists p'. split; [done|]. exists (a :: got), last. cbn [app]. split_and!; try done.
      - rewrite Hh, Hh2, <- app_assoc. by rewrite Hh1.
      - congruence.
      - by rewrite <- Hc1, Hc2, Hc.
      - rewrite Hans, Ht', <- app_assoc. f_equal. unfold answers. cbn [omap list_omap]. by destruct (edited id a). }
    unfold answers in Hgo. cbn [omap list_omap] in Hgo. destruct (edited id a) as [e|] eqn:Ee.
    + rewrite (bind_ok _ _ _ _ _ (run_tunnel (fun t => (send_mdns_answer t e client, tt)) _ _ _ eq_refl)). cbn [tunnel lan]. apply Hgo; [lia|].
      by rewrite send_answer_view.
    + apply Hgo; [lia|]. cbn. by rewrite app_nil_r.
  - destruct Hr as (d & Hc2 & Hh2 & Hd). case_decide; [done|]. eexists. split; [reflexivity|]. apply (Hend [d]); try done. right. exists d. split; [done|lia].
  - destruct Hr as (Ht2 & Hc2 & Hh2). eexists. split; [reflexivity|]. apply (Hend []); try done; [by left|lia|by rewrite app_nil_r].
Qed.

(** A question with its top bit of the class, the QU bit, set and cleared. *)
Definition with_qu (set : bool) (q : Mdns.question) : Mdns.question :=
  {| Mdns.q_name := Mdns.q_name q; Mdns.q_type := Mdns.q_type q;
     Mdns.q_class := (zb (bz (Mdns.q_class q).1 mod 128 + if set then 128 else 0), (Mdns.q_class q).2) |}.

(** What the client with the id [qid] gets for a datagram of the LAN: nothing where it
    is no answer (too short, or without the QR bit); else the datagram with that id,
    whichever it came with, and none of its questions with the QU bit. *)
Inductive passed_on (qid : byte * byte) : bytes -> option bytes -> Prop :=
| too_short a : length a < 12 -> passed_on qid a None
| no_answer id flags n counts qs rest : Mdns.questions_of n counts qs rest -> (bz flags.1 < 128)%Z ->
    passed_on qid (Mdns.datagram id flags n counts qs rest) None
| an_answer id flags n counts qs rest : Mdns.questions_of n counts qs rest -> (128 <= bz flags.1)%Z ->
    passed_on qid (Mdns.datagram id flags n counts qs rest) (Some (Mdns.datagram qid flags n counts (map (with_qu false) qs) rest)).

Lemma with_qu_edit set qs : map (Mdns.edit_question set) qs = map (with_qu set) qs.
Proof. apply map_ext. intros [nm ty [c d]]. unfold Mdns.edit_question, with_qu. cbn. do 2 f_equal. by destruct set, c. Qed.
Lemma qr_bit b : band b x80 <> x00 <-> (128 <= bz b)%Z.
Proof. destruct b; vm_compute; split; intros; (done || congruence). Qed.
Lemma with_qu_ok set qs : Forall Mdns.question_ok qs -> Forall Mdns.question_ok (map (with_qu set) qs).
Proof. intros Hq. by apply Forall_map. Qed.

(** The edits come to this. *)
Lemma edited_passed_on qid a : passed_on qid a (edited (from_be [qid.1; qid.2]) a).
Proof.
  unfold edited, edit_answer, Mdns.is_response. case_decide as Hl; [|apply too_short; unfold Mdns.HEADER_LEN in Hl; lia].
  destruct (Mdns.rewrite_parses a false Hl) as (id & flags & n & counts & qs & rest & -> & Hqs & _). rewrite (index_ok _ 2 flags.1) by done. cbn [obind].
  destruct (decide (128 <= bz flags.1)%Z) as [Hf|Hf].
  2:{ rewrite bool_decide_eq_false_2 by (rewrite qr_bit; lia). by apply no_answer; [|lia]. }
  rewrite bool_decide_eq_true_2 by (by apply qr_bit). set (a := Mdns.datagram id flags n counts qs rest) in *. pose proof Hl as Hl'. unfold Mdns.HEADER_LEN in Hl'.
  unfold Mdns.set_transaction_id. rewrite decide_True by done.
  assert (to_be 2 (from_be [qid.1; qid.2]) = [qid.1; qid.2]) as -> by apply (to_from_be [qid.1; qid.2]).
  rewrite (index_ok _ 0 qid.1), (index_ok _ 1 qid.2) by done. cbn [obind]. unfold set_at. rewrite decide_True by lia. cbn [obind].
  rewrite length_insert, decide_True by lia. cbn [obind]. change (<[1:=qid.2]> (<[0:=qid.1]> a)) with (Mdns.datagram qid flags n counts qs rest).
  assert (Mdns.HEADER_LEN <= length (Mdns.datagram qid flags n counts qs rest)) as Hl2 by exact Hl.
  destruct (Mdns.rewrite_parses _ false Hl2) as (id2 & flags2 & n2 & counts2 & qs2 & rest2 & Em & Hqs2 & Er). unfold Mdns.restore_multicast_questions. rewrite Er.
  assert (id2 = qid /\ flags2 = flags) as [-> ->].
  { unfold Mdns.datagram in Em. cbn [app] in Em. injection Em as ? ? ? ? _. destruct id2, qid, flags2, flags. cbn in *. by subst. }
  assert (a = Mdns.datagram id flags n2 counts2 qs2 rest2) as -> by (unfold a, Mdns.datagram in *; cbn [app] in *; congruence).
  rewrite with_qu_edit. case_decide; by apply an_answer.
Qed.

(** There is one such. *)
Lemma passed_on_unique qid a r r' : passed_on qid a r -> passed_on qid a r' -> r = r'.
Proof.
  assert (forall id flags n counts qs rest, Mdns.questions_of n counts qs rest -> 12 <= length (Mdns.datagram id flags n counts qs rest)) as Hl.
  { intros id flags n counts qs rest (Hc & _). unfold Mdns.datagram. rewrite !length_app, length_to_be, Hc. simpl. lia. }
  intros H1. enough (forall a' s, passed_on qid a' s -> a = a' -> r = s) as Hall by (intros H2; by apply (Hall a)).
  destruct H1 as [a Ha|id flags n counts qs rest Hq Hf|id flags n counts qs rest Hq Hf];
    intros a' s [a2 Ha2|id' flags' n' counts' qs' rest' Hq' Hf'|id' flags' n' counts' qs' rest' Hq' Hf'] Heq; try done.
  - pose proof (Hl id' flags' n' counts' qs' rest' Hq'). subst. lia.
  - apply Mdns.datagram_unique in Heq as (_ & -> & _); [lia|done..].
  - pose proof (Hl id flags n counts qs rest Hq). subst. lia.
  - apply Mdns.datagram_unique in Heq as (_ & -> & _); [lia|done..].
  - by apply Mdns.datagram_unique in Heq as (_ & -> & -> & -> & -> & ->).
Qed.

Lemma answers_passed_on qid client got : exists sent, Forall2 (passed_on qid) got sent /\
  answers (from_be [qid.1; qid.2]) client got = map (fun a => (a, client)) (omap id sent).
Proof.
  exists (map (edited (from_be [qid.1; qid.2])) got). split.
  - induction got as [|a got IH]; constructor; [apply edited_passed_on|exact IH].
  - unfold answers. f_equal. induction got as [|a got IH]; [done|]. cbn [omap list_omap map id]. rewrite IH. by destruct (edited _ a).
Qed.

(** What becomes of a query: it is asked of the group with its questions for
    unicast answers, what was left over from earlier ones goes to nobody, and the
    answers of the window go to the client, whose time is up unless a datagram that
    does not fit has ended it; when the query is malformed or cannot be sent, nobody
    is asked or answered. *)
Inductive proxied (query : bytes) (client : M) (p p' : P) : Prop :=
| not_asked : (forall qid flags counts qs rest, length counts = 6 -> Forall Mdns.question_ok qs -> (Z.of_nat (length qs) < 65536)%Z ->
      query = Mdns.message qid flags counts qs rest -> exists w w', send_to w (Mdns.message qid flags counts (map (with_qu true) qs) rest) group = (w', false)) ->
    asked (lan p') = asked (lan p) -> answered (tunnel p') = answered (tunnel p) -> proxied query client p p'
| was_asked qid flags counts qs rest stale got sent last : query = Mdns.message qid flags counts qs rest ->
    length counts = 6 -> Forall Mdns.question_ok qs -> (Z.of_nat (length qs) < 65536)%Z ->
    asked (lan p') = asked (lan p) ++ [(Mdns.message qid flags counts (map (with_qu true) qs) rest, group)] ->
    heard (lan p') = heard (lan p) ++ stale ++ got ++ last -> length stale <= 64 -> ends_with last ->
    (last = [] -> (udp_time (lan p) + from_millis GATHER <= udp_time (lan p'))%Z) ->
    Forall2 (passed_on qid) got sent -> answered (tunnel p') = answered (tunnel p) ++ map (fun a => (a, client)) (omap id sent) -> proxied query client p p'.

(** How a query reads. *)
Lemma query_parses query q r : Mdns.request_unicast_replies query = (q, r) ->
  (r = Err Mdns.Malformed /\ forall qid flags counts qs rest, length counts = 6 -> Forall Mdns.question_ok qs -> (Z.of_nat (length qs) < 65536)%Z ->
     query <> Mdns.message qid flags counts qs rest) \/
  exists n qid flags counts qs rest, r = Ok n /\ query = Mdns.message qid flags counts qs rest /\ length counts = 6 /\ Forall Mdns.question_ok qs /\
    (Z.of_nat (length qs) < 65536)%Z /\ q = Mdns.message qid flags counts (map (with_qu true) qs) rest /\ Mdns.transaction_id query = Ok (Some (from_be [qid.1; qid.2])).
Proof.
  unfold Mdns.request_unicast_replies. intros Ew.
  assert (r = Err Mdns.Malformed -> forall qid flags counts qs rest, length counts = 6 -> Forall Mdns.question_ok qs -> (Z.of_nat (length qs) < 65536)%Z ->
     query <> Mdns.message qid flags counts qs rest) as Hbad.
  { intros -> qid flags counts qs rest Hc Hq Hn ->. by rewrite Mdns.rewrite_message in Ew. }
  destruct (decide (length query < Mdns.HEADER_LEN)) as [Hl|Hl].
  { unfold Mdns.rewrite_question_class in Ew. rewrite decide_True in Ew by done. left. split; [congruence|]. apply Hbad. congruence. }
  destruct (Mdns.rewrite_parses query true) as (id & flags & n & counts & qs & rest & -> & (Hc & Hn & Hq & _) & Er); [lia|]. rewrite Er in Ew. injection Ew as <- <-.
  case_decide as Hlen; [|left; split; [done|by apply Hbad]]. right. exists n, id, flags, counts, qs, rest. rewrite <- Hlen, with_qu_edit in *. unfold Mdns.message. rewrite length_map.
  split_and!; try done; [lia|]. unfold Mdns.transaction_id. by rewrite decide_False.
Qed.

(** C15. A query of a client is proxied: the group is asked once, with the QU bit in
    every question, and each answer of the window goes to that client alone, in the
    order they came, with the client's transaction id and without that bit, and
    otherwise as it came. A malformed query is not asked. Fuel beyond the datagrams
    still to come is enough. *)
Theorem query_proxied fuel query client (p : P) : length (coming (lan p)) < fuel ->
  exists p', answer_query (E:=E) fuel query client p = (p', Ok tt) /\ proxied query client p p'.
Proof.
  intros Hf. unfold answer_query. destruct (drain_spec 64 p) as (w & stale & Ed & Hst & Hc & Hh & Ha & Htd). rewrite (bind_ok _ _ _ _ _ Ed).
  destruct (id_total query) as [id Hid]. rewrite Hid. cbn [expect_ok]. rewrite bind_lift. destruct (Mdns.request_unicast_replies query) as [q r] eqn:Erw.
  destruct (query_parses query q r Erw) as [[-> Hbad]|(n & qid & flags & counts & qs & rest & -> & Hmsg & Hcounts & Hok & Hlen & Hq & Hid')].
  { eexists. split; [reflexivity|]. apply not_asked; [|done..]. intros qid flags counts qs rest H1 H2 H3 Hmsg. by destruct (Hbad _ _ _ _ _ H1 H2 H3 Hmsg). }
  assert (id = Some (from_be [qid.1; qid.2])) as -> by congruence.
  destruct (send_to w q group) as [w1 ok] eqn:Es. destruct (send_to_view _ _ _ _ _ Es) as (Hts & Hc1 & Hh1 & Ha1).
  rewrite (bind_ok _ _ _ _ _ (run_lan (fun w => send_to w q group) {| tunnel := tunnel p; lan := w |} _ _ Es)). destruct ok; cbn beta iota.
  2:{ eexists. split; [reflexivity|]. apply not_asked; [|cbn; congruence..]. intros qid0 flags0 counts0 qs0 rest0 H1 H2 H3 Hmsg0. exists w, w1.
      pose proof (Mdns.rewrite_message true qid0 flags0 counts0 qs0 rest0 H1 H2 H3) as Er. unfold Mdns.request_unicast_replies in Erw. rewrite <- Hmsg0, Erw in Er.
      injection Er as Er _. by rewrite <- with_qu_edit, <- Er. }
  destruct (instant_now w1) as [w2 now] eqn:En. destruct (udp_now_view _ _ _ En) as ((Htn & Htn') & Hc2 & Hh2 & Ha2).
  rewrite (bind_ok _ _ _ _ _ (run_lan instant_now {| tunnel := tunnel p; lan := w1 |} _ _ En)). cbn [tunnel].
  rewrite Hc, length_app in Hf. destruct (window_spec fuel (now + from_millis GATHER)%Z (from_be [qid.1; qid.2]) client {| tunnel := tunnel p; lan := w2 |}) as (p' & Eg & got & last & Hl & Htl & Hh3 & Ha3 & _ & Hans);
    [cbn [lan]; rewrite Hc2, Hc1; lia|]. cbn [lan tunnel] in *. exists p'. split; [done|].
  destruct (answers_passed_on qid client got) as (sent & Hsent & Ea). rewrite Ea in Hans.
  eapply (was_asked query client p p' qid flags counts qs rest stale got sent last); try done; [congruence| |intros Hlast; specialize (Htl Hlast); lia].
  by rewrite Hh3, Hh2, Hh1, Hh, <- app_assoc.
Qed.

(** The id that [b] spells. *)
Definition spelled (b : byte * byte) : Z := from_be [b.1; b.2].

Lemma edited_message qid aid flags counts qs rest : length counts = 6 -> Forall Mdns.question_ok qs -> (Z.of_nat (length qs) < 65536)%Z ->
  band flags.1 x80 <> x00 ->
  edited (spelled qid) (Mdns.message aid flags counts qs rest) = Some (Mdns.message qid flags counts (map (Mdns.edit_question false) qs) rest).
Proof.
  intros Hc Hqs Hn Hf. unfold edited, edit_answer, Mdns.is_response.
  assert (Mdns.HEADER_LEN <= length (Mdns.message aid flags counts qs rest)) as Hl by (unfold Mdns.message, Mdns.HEADER_LEN; rewrite !length_app, length_to_be; simpl; lia).
  rewrite decide_True by done. rewrite (index_ok _ 2 flags.1) by done. cbn [obind]. rewrite bool_decide_eq_true_2 by done.
  unfold Mdns.set_transaction_id. rewrite decide_True by done.
  assert (to_be 2 (spelled qid) = [qid.1; qid.2]) as -> by (unfold spelled; apply (to_from_be [qid.1; qid.2])).
  rewrite (index_ok _ 0 qid.1), (index_ok _ 1 qid.2) by done. cbn [obind]. unfold set_at. rewrite decide_True by (unfold Mdns.HEADER_LEN in Hl; lia). cbn [obind].
  rewrite length_insert, decide_True by (unfold Mdns.HEADER_LEN in Hl; lia). cbn [obind].
  change (<[1:=qid.2]> (<[0:=qid.1]> (Mdns.message aid flags counts qs rest))) with (Mdns.message qid flags counts qs rest).
  unfold Mdns.restore_multicast_questions. by rewrite Mdns.rewrite_message.
Qed.

(** The client sees none of the proxy's edits: an answer that echoes the
    questions as the proxy asked them, under whatever id, reaches the client with
    the questions and the id of its own query, if its questions did not have the
    QU bit. *)
Theorem answer_as_asked qid aid qflags flags qcounts counts qs qrest rest :
  length qcounts = 6 -> length counts = 6 -> Forall Mdns.question_ok qs -> (Z.of_nat (length qs) < 65536)%Z ->
  Forall (fun q => band (Mdns.q_class q).1 Mdns.QU_BIT = x00) qs -> band flags.1 x80 <> x00 ->
  let query := Mdns.message qid qflags qcounts qs qrest in
  exists id asked, Mdns.transaction_id query = Ok (Some id) /\
    Mdns.request_unicast_replies query = (Mdns.message qid qflags qcounts asked qrest, Ok (Z.of_nat (length qs))) /\
    edit_answer id (Mdns.message aid flags counts asked rest) = Ok (Some (Mdns.message qid flags counts qs rest)).
Proof.
  intros Hqc Hc Hqs Hn Hqu Hf query. exists (spelled qid), (map (Mdns.edit_question true) qs). split_and!.
  - unfold Mdns.transaction_id. rewrite decide_False by (unfold query, Mdns.message, Mdns.HEADER_LEN; rewrite !length_app, length_to_be; simpl; lia). done.
  - by apply Mdns.rewrite_message.
  - rewrite edit_answer_ok, edited_message; [|done|by apply Forall_map|by rewrite length_map|done]. do 3 f_equal.
    rewrite map_map. clear -Hqu. induction Hqu as [|[nm ty [c d]] qs Hq _ IH]; [done|]. cbn [map]. rewrite IH. f_equal.
    unfold Mdns.edit_question. cbn in *. do 2 f_equal. revert Hq. clear. by destruct c.
Qed.
End Proofs.

(** *** An example: datagrams that wait, each a tick to read; and a tunnel with
    one query in it. *)
Module Example.
Record udp := { now : Z; waiting : list bytes; was_heard : list bytes; was_asked : list (bytes * (bytes * Z)) }.

#[export] Instance udp_lan : LanUdp udp := {
  TICK_HZ := 1000;
  instant_now w := (w, now w);
  recv_within w room d :=
    match waiting w with
    | [] => ({| now := (now w + Z.max 0 d)%Z; waiting := []; was_heard := was_heard w; was_asked := was_asked w |}, None)
    | b :: rest => ({| now := (now w + 1)%Z; waiting := rest; was_heard := was_heard w ++ [b]; was_asked := was_asked w |},
                    Some (if decide (length b <= room) then Some b else None))
    end;
  send_to w b to := ({| now := now w; waiting := waiting w; was_heard := was_heard w; was_asked := was_asked w ++ [(b, to)] |}, true);
}.
#[export] Instance udp_view : LanUdpView udp.
Proof.
  refine {| coming := waiting; heard := was_heard; asked := was_asked; udp_time := now |}; cbn.
  - done.
  - intros w w' t [= <- <-]. split; [lia|done].
  - intros w room d w' r. destruct (waiting w) as [|b rest] eqn:E; intros [= <- <-]; cbn; (split; [lia|]); (split; [done|]).
    + by split_and!; [lia|..].
    + exists b. by split_and!.
  - intros w b to w' ok [= <- <-]. by split_and!.
Defined.

Record client := { queries : list bytes; was_answered : list (bytes * nat) }.
#[export] Instance client_discovery : Discovery client nat := {
  take_mdns_query t room := match queries t with
    | [] => (t, None)
    | q :: rest => ({| queries := rest; was_answered := was_answered t |}, Some (take room q, 7))
    end;
  send_mdns_answer t b m := {| queries := queries t; was_answered := was_answered t ++ [(b, m)] |};
}.
#[export] Instance client_view : DiscoveryView client nat.
Proof.
  refine {| answered := was_answered |}; cbn; [|done]. intros t room t' r. destruct (queries t) as [|q rest]; intros [= <- <-]; cbn; split; try done.
  rewrite length_take. lia.
Defined.

Definition cast : Mdns.question := {| Mdns.q_name := [bs "_http"; bs "_tcp"; bs "local"]; Mdns.q_type := (x00, x0c); Mdns.q_class := (x00, x01) |}.
Definition query : bytes := Mdns.message (x12, x34) (x00, x00) (zeros 6) [cast] [].
Definition reply (id : byte * byte) : bytes := Mdns.message id (x84, x00) (zeros 6) [Mdns.edit_question true cast] (bs "here").
(** Two answers wait, and between them a query of someone else. *)
Definition scene : Proxy client udp :=
  {| tunnel := {| queries := [query]; was_answered := [] |}; lan := {| now := 0; waiting := [reply (x00, x00); query; reply (x12, x34)]; was_heard := []; was_asked := [] |} |}.

(** The proxy takes them for late answers here, and for answers where they come in
    the window. *)
Example late_and_in_time :
  was_answered (tunnel (serve_turn (E:=Empty_set) 8 scene).1) = [] /\
  was_answered (tunnel (gather (E:=Empty_set) 8 1200 4660 7 scene).1) =
    let a := Mdns.message (x12, x34) (x84, x00) (zeros 6) [cast] (bs "here") in [(a, 7); (a, 7)].
Proof. by vm_compute. Qed.

(** A client that asks with the QU bit sees its question without it. *)
Example qu_bit_lost :
  let own := Mdns.edit_question true cast in
  edit_answer 4660 (Mdns.message (x12, x34) (x84, x00) (zeros 6) [own] (bs "here")) =
    Ok (Some (Mdns.message (x12, x34) (x84, x00) (zeros 6) [cast] (bs "here"))) /\ Mdns.q_class cast <> Mdns.q_class own.
Proof. by vm_compute. Qed.
End Example.
Import Example.

Lemma query_proxied_witness : length (coming (lan scene)) < 8 /\
  exists p', answer_query (E:=Empty_set) 8 query 7 scene = (p', Ok tt) /\ proxied query 7 scene p'.
Proof. split; [vm_compute; lia|]. apply (query_proxied (E:=Empty_set) 8 query 7 scene). vm_compute. lia. Defined.

Lemma answer_as_asked_witness :
  exists id asked, Mdns.transaction_id query = Ok (Some id) /\ Mdns.request_unicast_replies query = (Mdns.message (x12, x34) (x00, x00) (zeros 6) asked [], Ok 1%Z) /\
    edit_answer id (Mdns.message (x00, x00) (x84, x00) (zeros 6) asked (bs "here")) = Ok (Some (Mdns.message (x12, x34) (x84, x00) (zeros 6) [cast] (bs "here"))).
Proof.
  apply (answer_as_asked (x12, x34) (x00, x00) (x00, x00) (x84, x00) (zeros 6) (zeros 6) [cast] [] (bs "here")); try reflexivity; try done;
    repeat constructor; cbn; lia.
Defined.
