(* ===== verification/FwControl.v ===== *)
(** The control channel of the firmware: [lando-fw/src/control.rs].

    [connect] resolves the control server, switches the connection to Noise and
    completes the handshake. The network is [Network]; a connection is read and
    written like any ([Socket]). *)
From S2P Require Import Prelude StateError Decimal Crypto Keys Upgrade Socket ControlServer.
From S2P Require Noise.

Definition RX : nat := 4096.
Definition TX : nat := 2048.

Inductive ControlError := Dns | Connect | Io | Refused | Handshake.

(** [embassy_net]: the addresses a name resolves to, and a TCP connection. *)
Class Network (W : Type) := {
  #[global] net_socket :: SocketOps W;
  dns_query : W -> bytes -> W * option (list bytes);
  tcp_connect : W -> bytes * Z -> W * bool;
}.

(** [s.split(c)] for an ASCII character *)
Fixpoint split_on (c : byte) (s : bytes) : list bytes :=
  match s with
  | [] => [[]]
  | b :: s =>
      match split_on c s with
      | part :: parts => if decide (b = c) then [] :: part :: parts else (b :: part) :: parts
      | [] => [[b]]
      end
  end.

(** [parse_ipv4]: its loop over the octets, then the test that no part is left. *)
Fixpoint octets (n : nat) (parts : list bytes) : option (bytes * list bytes) :=
  match n, parts with
  | O, _ => Some ([], parts)
  | S _, [] => None
  | S n, part :: parts =>
      v ← parse_uint 255 part;
      r ← octets n parts;
      Some (zb v :: r.1, r.2)
  end.
Definition parse_ipv4 (host : bytes) : option bytes :=
  r ← octets 4 (split_on x2e host);
  match r.2 with
  | [] => Some r.1
  | _ => None
  end.

Section Control.
Context `{P : Primitives} {W : Type} `{NW : Network W}.
Abbreviation M := (SE W ControlError).

Definition on_net {A} (f : W -> W * A) : M A := fun w => let (w, a) := f w in (w, Ok a).

(** The match on [parse_ipv4]. *)
Definition resolve (host : bytes) : M bytes :=
  match parse_ipv4 host with
  | Some ip => ret ip
  | None =>
      do! addrs := on_net (fun w => dns_query w host) in
      do! addrs := lift (ok_or addrs Dns) in
      lift (ok_or (addrs !! 0) Dns)
  end.

(** [socket.read(&mut buf[have..])], with what follows it in both loops. *)
Definition read_more (buf : bytes) (have : nat) : M (bytes * nat) :=
  do! room := lift (nsub (length buf) have) in
  do! b := on_net (fun w => sock_read w room) in
  do! b := lift (ok_or b Io) in
  if decide (length b = 0) then lift (Err Io)
  else
    do! buf := lift (copy_range buf have (have + length b) b) in
    ret (buf, have + length b).

(** [let body_start = loop { .. }]; the fuel is the number of reads. *)
Fixpoint upgrade_loop (fuel : nat) (buf : bytes) (have : nat) : M (bytes * nat * nat) :=
  match fuel with
  | O => lift NoFuel
  | S fuel =>
      if decide (have = length buf) then lift (Err Handshake)
      else
        do! (buf, have) := read_more buf have in
        do! got := lift (slice buf 0 have) in
        match parse_response got with
        | Ok end_ => ret (buf, have, end_)
        | Err Incomplete => upgrade_loop fuel buf have
        | Err _ => lift (Err Refused)
        | Panic => lift Panic
        | NoFuel => lift NoFuel
        end
  end.

(** [while have - body_start < RESPONSE_LEN] *)
Fixpoint response_loop (fuel : nat) (buf : bytes) (have body_start : nat) : M (bytes * nat) :=
  match fuel with
  | O => lift NoFuel
  | S fuel =>
      do! body := lift (nsub have body_start) in
      if decide (body < Noise.RESPONSE_LEN) then
        do! rejected :=
          if decide (Noise.HEADER_LEN <= body) then
            do! t := lift (index buf body_start) in ret (bool_decide (t = Noise.MSG_TYPE_ERROR))
          else ret false in
        if (rejected : bool) then lift (Err Refused)
        else
          do! (buf, have) := read_more buf have in
          response_loop fuel buf have body_start
      else ret (buf, have)
  end.

(** [connect]: the session and the bytes of it that have come already, in a buffer
    with their number; the socket is the network's. *)
Definition connect (fuel : nat) (host : bytes) (port : Z) (control_key : MachinePublic) (machine_key ephemeral : MachinePrivate)
    (capability_version : Z) : M (Noise.Session * bytes * nat) :=
  do! addr := resolve host in
  do! up := on_net (fun w => tcp_connect w (addr, port)) in
  if negb up then lift (Err Connect)
  else
    do! (handshake, initiation) := lift (expect_ok (Noise.start machine_key control_key capability_version ephemeral)) in
    do! (request, n) := lift (map_err (fun _ => Handshake) (build_request host initiation (zeros MAX_REQUEST_LEN))) in
    do! request := lift (slice request 0 n) in
    do! sent := on_net (fun w => sock_write w request) in
    if negb sent then lift (Err Io)
    else
      do! (buf, have, body_start) := upgrade_loop fuel (zeros 512) 0 in
      do! (buf, have) := response_loop fuel buf have body_start in
      do! resp := lift (slice buf body_start (body_start + Noise.RESPONSE_LEN)) in
      do! session := lift (map_err (fun _ => Handshake) (Noise.finish handshake resp)) in
      let start := body_start + Noise.RESPONSE_LEN in
      do! leftover_len := lift (nsub have start) in
      do! rest := lift (slice buf start have) in
      do! leftover := lift (copy_range (zeros 512) 0 leftover_len rest) in
      ret (session, leftover, leftover_len).
End Control.

(** ** Proofs *)

(** A literal address needs no lookup. *)
Lemma split_on_app c (a b : bytes) : c ∉ a -> split_on c (a ++ (c :: b)) = a :: split_on c b.
Proof.
  induction a as [|x a IH]; intros Hc; cbn [app split_on].
  - destruct (split_on c b) as [|p ps] eqn:E; [|by rewrite decide_True]. destruct b as [|y b]; [done|]. cbn [split_on] in E. destruct (split_on c b); [done|]. by case_decide.
  - apply not_elem_of_cons in Hc as [Hx Hc]. rewrite IH by done. rewrite decide_False by congruence. done.
Qed.
Lemma split_on_last c (a : bytes) : c ∉ a -> split_on c a = [a].
Proof. induction a as [|x a IH]; intros Hc; [done|]. apply not_elem_of_cons in Hc as [Hx Hc]. cbn [split_on]. rewrite IH by done. by rewrite decide_False by congruence. Qed.

Lemma dec_byte (v : byte) : (x2e ∉ dec (bz v)) /\ parse_uint 255 (dec (bz v)) = Some (bz v).
Proof.
  pose proof (bz_range v). split; [|apply parse_uint_dec; lia]. apply (bool_decide_unpack _). by destruct v.
Qed.

Definition dotted (a b c d : byte) : bytes := dec (bz a) ++ (x2e :: dec (bz b) ++ (x2e :: dec (bz c) ++ (x2e :: dec (bz d)))).
Lemma parse_dotted a b c d : parse_ipv4 (dotted a b c d) = Some [a; b; c; d].
Proof.
  destruct (dec_byte a) as [Ha Ea], (dec_byte b) as [Hb Eb], (dec_byte c) as [Hc Ec], (dec_byte d) as [Hd Ed].
  unfold parse_ipv4, dotted. rewrite !split_on_app, split_on_last by done. cbn [octets]. rewrite Ea. cbn [mbind option_bind]. rewrite Eb. cbn [mbind option_bind].
  rewrite Ec. cbn [mbind option_bind]. rewrite Ed. cbn [mbind option_bind snd fst]. by rewrite !zb_bz.
Qed.

Section Proofs.
Context `{P : Primitives, L : !PrimitiveLaws P} {W : Type} `{NW : Network W, SV : !SocketView W, SU : !SocketUp W}.

Lemma run_net {A} (f : W -> W * A) w w' a : f w = (w', a) -> on_net f w = (w', Ok a).
Proof. unfold on_net. by intros ->. Qed.

(** The connection after a read: nothing was written. *)
Definition only_read (w w' : W) : Prop := outbound w' = outbound w.

Lemma read_more_spec w (got z : bytes) : z <> [] -> inbound w <> [] ->
  exists w' b, read_more (got ++ z) (length got) w = (w', Ok ((got ++ b) ++ drop (length b) z, length (got ++ b))) /\
    0 < length b <= length z /\ inbound w = b ++ inbound w' /\ only_read w w'.
Proof.
  intros Hz Hi. assert (0 < length z) as Hlz by (destruct z; [done|simpl; lia]). destruct (sock_read_some w (length z) Hlz Hi) as (w' & b & E & Hb & Hin & Ho).
  exists w', b. split; [|done]. unfold read_more. rewrite length_app, nsub_ok, bind_lift by lia. replace (length got + length z - length got) with (length z) by lia.
  rewrite (bind_ok _ _ _ _ _ (run_net (fun w => sock_read w (length z)) w _ _ E)). cbn [ok_or]. rewrite bind_lift. rewrite decide_False by lia.
  rewrite copy_range_ok by (rewrite ?length_app; lia). rewrite bind_lift, overwrite_app by done. by rewrite <- app_assoc, length_app.
Qed.

Lemma switch_loop_spec fuel head w (got z : bytes) rest : switches head -> got ++ inbound w = head ++ rest -> length got < length head ->
  length head <= length (got ++ z) -> length (inbound w) < fuel ->
  exists w' b z', upgrade_loop fuel (got ++ z) (length got) w = (w', Ok ((head ++ b) ++ z', length (head ++ b), length head)) /\
    b ++ inbound w' = rest /\ length ((head ++ b) ++ z') = length (got ++ z) /\ only_read w w' /\ length (inbound w') <= length (inbound w).
Proof.
  intros Hs. revert w got z. induction fuel as [|fuel IH]; intros w got z He Hg Hl Hf; [lia|]. cbn [upgrade_loop]. rewrite length_app in Hl. rewrite decide_False by (rewrite length_app; lia).
  assert (inbound w <> []) as Hin by (intros Hn; rewrite Hn, app_nil_r in He; apply (f_equal length) in He; rewrite length_app in He; lia).
  destruct (read_more_spec w got z) as (w1 & b & E & Hb & Hi & Hor); [by intros ->; simpl in Hl; lia|done|]. rewrite (bind_ok _ _ _ _ _ E).
  rewrite slice_app_l_exact by done. rewrite bind_lift. rewrite Hi, app_assoc in He. rewrite (parse_response_prefix head _ _ _ Hs He).
  assert (length (drop (length b) z) = length z - length b) as Hdz by apply length_drop. set (z' := drop (length b) z) in *. clearbody z'.
  case_decide as Hd.
  - apply app_cut in He as [Hgb Hrest]; [|done]. set (b' := drop (length head) (got ++ b)) in *. clearbody b'. exists w1, b', z'. rewrite <- Hgb. unfold ret. split; [done|].
    split; [done|]. rewrite !length_app in *. rewrite Hi, length_app. split_and!; (done || lia).
  - destruct (IH w1 (got ++ b) z' He) as (w' & b' & z'' & E' & Hrest & Hlz & Hor' & Hi'); [lia|rewrite !length_app; lia|rewrite Hi, length_app in Hf; lia|].
    exists w', b', z''. split; [exact E'|]. rewrite Hlz, Hi, !length_app. unfold only_read in *. split_and!; (done || congruence || lia).
Qed.

(** The response is read whole; what is taken for an error frame is not one. *)
Lemma response_loop_spec fuel head w (got z : bytes) resp rest : got ++ inbound w = resp ++ rest -> length resp = Noise.RESPONSE_LEN -> resp !! 0 <> Some Noise.MSG_TYPE_ERROR ->
  length resp <= length (got ++ z) -> length (inbound w) < fuel ->
  exists w' b z', response_loop fuel ((head ++ got) ++ z) (length (head ++ got)) (length head) w = (w', Ok ((head ++ resp ++ b) ++ z', length (head ++ resp ++ b))) /\
    b ++ inbound w' = rest /\ length ((head ++ resp ++ b) ++ z') = length ((head ++ got) ++ z) /\ only_read w w'.
Proof.
  intros He Hr Ht. revert w got z He. induction fuel as [|fuel IH]; intros w got z He Hl Hf; [lia|]. cbn [response_loop]. rewrite length_app in Hl.
  rewrite length_app, nsub_ok, bind_lift by lia. replace (length head + length got - length head) with (length got) by lia. rewrite <- Hr. case_decide as Hg.
  - assert (inbound w <> []) as Hin by (intros Hn; rewrite Hn, app_nil_r in He; apply (f_equal length) in He; rewrite length_app in He; lia).
    assert (forall k : bool -> SE W ControlError (bytes * nat), bind (if decide (Noise.HEADER_LEN <= length got) then
        do! t := lift (index ((head ++ got) ++ z) (length head)) in ret (bool_decide (t = Noise.MSG_TYPE_ERROR)) else ret false) k w = k false w) as Hnot.
    { intros k. case_decide as Hh; [|done]. destruct got as [|t got]; [unfold Noise.HEADER_LEN in Hh; simpl in Hh; lia|].
      rewrite (index_ok _ (length head) t) by (rewrite <- app_assoc, lookup_app_r, Nat.sub_diag by lia; done). rewrite bind_assoc, bind_lift.
      assert (resp !! 0 = Some t) as Hresp. { destruct resp as [|t0 resp]; [done|]. cbn in He. by injection He as ->. }
      rewrite bool_decide_eq_false_2; [done|]. intros ->. by apply Ht. }
    rewrite Hnot. cbn beta iota.
    destruct (read_more_spec w (head ++ got) z) as (w1 & b & E & Hb & Hi & Hor); [by intros ->; simpl in Hl; lia|done|].
    rewrite length_app in E. rewrite (bind_ok _ _ _ _ _ E). cbn beta iota. rewrite Hi, app_assoc in He. assert (length (drop (length b) z) = length z - length b) as Hdz by apply length_drop.
    destruct (IH w1 (got ++ b) (drop (length b) z) He) as (w' & b' & z' & E' & Hrest & Hlz & Hor'); [rewrite !length_app; lia|rewrite Hi, length_app in Hf; lia|].
    exists w', b', z'. rewrite <- (app_assoc head got b). rewrite <- app_assoc in E' |- *. split; [|split; [done|split; [|unfold only_read in *; congruence]]].
    + exact E'.
    + rewrite Hlz, !length_app. lia.
  - apply app_cut in He as [Hgr Hrest]; [|lia]. exists w, (drop (length resp) got), z. rewrite <- Hgr, length_app. by split_and!.
Qed.

(** The steps ahead of the connection: the address, literal or looked up, and the
    connection to it. *)
Definition reaches (host : bytes) (port : Z) (w w1 : W) : Prop :=
  exists w0 a, (parse_ipv4 host = Some a /\ w0 = w \/ parse_ipv4 host = None /\ exists more, dns_query w host = (w0, Some (a :: more))) /\
    tcp_connect w0 (a, port) = (w1, true).

Lemma resolve_spec host port w w1 : reaches host port w w1 -> exists w0 a, resolve host w = (w0, Ok a) /\ tcp_connect w0 (a, port) = (w1, true).
Proof.
  intros (w0 & a & Ha & Hc). exists w0, a. split; [|done]. unfold resolve. destruct Ha as [[Hp ->]|(Hp & more & Hd)]; rewrite Hp; [done|].
  by rewrite (bind_ok _ _ _ _ _ (run_net (fun w => dns_query w host) w _ _ Hd)).
Qed.

(** C10. [connect] reaches the control server and ends in the server's session. For
    a server that switches protocols and answers the initiation as the holder of
    the control key does, however the network cuts what it sends: the request with
    the initiation is written, the session has the server's keys with the
    directions swapped, and the bytes given back with what is still to be read are
    all that the server sent behind its answer. *)
Theorem connect_session fuel host port c m e er v w w1 head hs msg st resp sv stream :
  priv_ok m -> priv_ok c -> priv_ok e -> priv_ok er -> (0 <= v < 65536)%Z ->
  Noise.start m (public_of c) v e = Ok (hs, msg) -> Noise.responder c er msg = Some (st, resp, sv) ->
  reaches host port w w1 -> inbound w1 = head ++ resp ++ stream -> switches head -> length head + Noise.RESPONSE_LEN <= 512 ->
  length (request_text host msg) <= MAX_REQUEST_LEN -> length (inbound w1) < fuel ->
  exists w' cl leftover n, connect fuel host port (public_of c) m e v w = (w', Ok (cl, leftover, n)) /\
    st = public_of m /\ matched cl sv /\ n <= length leftover /\ take n leftover ++ inbound w' = stream /\
    outbound w' = outbound w1 ++ request_text host msg.
Proof.
  intros Hm Hc He Her Hv Hstart Hresp Hreach Hin Hsw Hroom Hreq Hf.
  destruct (Noise.responder_reads m c v e hs msg Hm Hc He Hv Hstart) as (Hlm & Hrs & Hmk & Hek).
  destruct (Noise.finish_reads c er hs st msg resp sv Her) as (cl & Hfin & Hst & Hlr & Htx & Hrx & Hhh & Hn1 & Hn2 & Hn3 & Hn4 & _); [by rewrite Hmk|by rewrite Hek|by rewrite Hmk, Hek|done|].
  rewrite Hmk in Hst. pose proof (responder_type _ _ _ _ _ _ Hresp) as Htype. destruct (resolve_spec _ _ _ _ Hreach) as (w0 & a & Er & Ec).
  unfold connect. set (buf512 := zeros 512). assert (length buf512 = 512) as Hl512 by apply length_zeros. rewrite (bind_ok _ _ _ _ _ Er), (bind_ok _ _ _ _ _ (run_net (fun w => tcp_connect w (a, port)) w0 _ _ Ec)). cbn [negb].
  rewrite Hstart. cbn [expect_ok]. rewrite bind_lift. rewrite build_request_exact by lia. rewrite decide_False by (rewrite length_zeros; unfold MAX_REQUEST_LEN in *; lia).
  cbn [map_err]. rewrite bind_lift. rewrite slice_app_l_exact by done. rewrite bind_lift.
  destruct (sock_write_up w1 (request_text host msg)) as [w2 Ew]. destruct (sock_write_view _ _ _ Ew) as [Ho2 Hi2].
  rewrite (bind_ok _ _ _ _ _ (run_net (fun w => sock_write w _) w1 _ _ Ew)). cbn [negb]. rewrite Hin in Hi2. rewrite Hin in Hf. unfold Noise.RESPONSE_LEN in Hroom.
  destruct (switch_loop_spec fuel head w2 [] buf512 (resp ++ stream)) as (w3 & b & z & E3 & Hb & Hl3 & Hor3 & Hle3);
    [done|exact Hi2|destruct (switches_window head Hsw); simpl; lia|cbn [app]; lia|rewrite Hi2; exact Hf|].
  cbn [app length] in E3, Hl3. rewrite (bind_ok _ _ _ _ _ E3). rewrite Hl512 in Hl3. rewrite Hi2 in Hle3.
  destruct (response_loop_spec fuel head w3 b z resp stream) as (w4 & b' & z' & E4 & Hb' & Hl4 & Hor4); [done|by rewrite Hlr|by rewrite Htype| |lia|].
  { rewrite <- app_assoc, !length_app in Hl3. rewrite length_app. lia. }
  rewrite (bind_ok _ _ _ _ _ E4). rewrite Hl3 in Hl4. rewrite <- !app_assoc. unfold Noise.RESPONSE_LEN. rewrite <- Hlr.
  rewrite (slice_seg head resp (b' ++ z')), bind_lift, Hfin by done. cbn [map_err]. rewrite bind_lift. rewrite !length_app in *. rewrite nsub_ok, bind_lift by lia.
  replace (head ++ resp ++ b' ++ z') with ((head ++ resp) ++ b' ++ z') by (by rewrite <- app_assoc).
  rewrite (slice_seg (head ++ resp) b' z') by (rewrite ?length_app; lia). rewrite bind_lift.
  replace (length head + (length resp + length b') - (length head + length resp)) with (length b') by lia.
  pose proof (overwrite_app [] buf512 b' 0 eq_refl : overwrite buf512 0 b' = b' ++ drop (length b') buf512) as Hover.
  rewrite copy_range_ok by lia. rewrite bind_lift, Hover. exists w4, cl, (b' ++ drop (length b') buf512), (length b'). split; [done|]. split; [done|].
  split; [by unfold matched|]. split; [rewrite length_app; lia|]. split; [by rewrite take_app_length|]. unfold only_read in *. congruence.
Qed.
End Proofs.

(** *** An example: a server that answers in one go, on pipes. *)
#[local] Existing Instances Toy.toy Toy.toy_laws.
Import ControlServer.Example.
#[export] Instance pipe_network : Network pipe := { dns_query p _ := (p, None); tcp_connect p _ := (p, true) }.

Definition example_stream : bytes := example_response ++ example_answer.1.2 ++ bs "settings".

Lemma example_reaches w : reaches (dotted x0a x00 x00 x01) 80 w w.
Proof. exists w, [x0a; x00; x00; x01]. split; [left; by split; [apply parse_dotted|]|done]. Qed.
Lemma example_fits : length (request_text (dotted x0a x00 x00 x01) example_start.2) <= MAX_REQUEST_LEN /\ length example_stream < 300.
Proof. split; apply Nat.leb_le || apply Nat.ltb_lt; vm_compute; reflexivity. Qed.

Lemma connect_session_witness :
  exists w' cl leftover n,
    connect 300 (dotted x0a x00 x00 x01) 80 (public_of (Private (replicate 32 x02))) (Private (replicate 32 x01)) (Private (replicate 32 x03)) 133 (example_stream, []) =
      (w', Ok (cl, leftover, n)) /\
    example_answer.1.1 = public_of (Private (replicate 32 x01)) /\ matched cl example_answer.2 /\ n <= length leftover /\ take n leftover ++ inbound w' = bs "settings" /\
    outbound w' = outbound (example_stream, []) ++ request_text (dotted x0a x00 x00 x01) example_start.2.
Proof.
  refine (connect_session 300 _ 80 (Private (replicate 32 x02)) (Private (replicate 32 x01)) (Private (replicate 32 x03)) (Private (replicate 32 x04)) 133 (example_stream, []) (example_stream, []) example_response example_start.1 example_start.2 example_answer.1.1 example_answer.1.2
    example_answer.2 (bs "settings") (example_key_ok _) (example_key_ok _) (example_key_ok _) (example_key_ok _) _ example_started example_answered (example_reaches _) eq_refl _ _ (proj1 example_fits) (proj2 example_fits)).
  - lia.
  - vm_compute. reflexivity.
  - apply Nat.leb_le. vm_compute. reflexivity.
Defined.
