(* ===== verification/FwServe.v ===== *)
(** The firmware's data path over UDP: [serve] of [lando-fw/src/wg.rs].

    The loop that owns the send path joins three parts: the node of [WgNode], the
    tunnel with its queue of packets for the peer ([TunnelQueue], which [FwTunnel]
    implements) and the UDP socket ([NodeUdp]); a peer that was last heard through
    the relay gets its packets by way of [DERP_OUT], which [FwDerp] drains. *)
From S2P Require Import Prelude StateError Crypto Keys Socket WireGuard Replay WgTransport WgNode.
From S2P Require Smoltcp FwTunnel.

(** [embassy_net::udp::UdpSocket]. An arrival is [select(recv_from(..), Timer::after(..))]
    with a buffer of so many bytes: [None] where the timer is first, [Some None] the
    error of the socket. *)
Class NodeUdp (W : Type) := {
  wg_bind : W -> Z -> W * bool;
  wg_arrival : W -> nat -> W * option (option (bytes * (bytes * Z)));
  wg_send : W -> bytes -> bytes * Z -> W * bool;
}.
Class NodeUdpView (W : Type) `{NodeUdp W} := {
  sent_to : W -> list (bytes * (bytes * Z));
  wg_send_view w b ep w' ok : wg_send w b ep = (w', ok) -> sent_to w' = sent_to w ++ (if ok then [(b, ep)] else []);
}.

(** The packets the tunnel has for the peer. *)
Class TunnelQueue (T : Type) := {
  #[global] queue_lan :: LanSide T;
  take_packet : T -> T * option bytes;
}.
Class TunnelQueueView (T : Type) `{TunnelQueue T} := {
  waiting : T -> list bytes;
  take_packet_view t t' r : take_packet t = (t', r) -> waiting t = option_list r ++ waiting t' /\ (r = None -> waiting t' = []);
}.

Definition PORT : Z := 41641.

(** [DERP_OUT] *)
Definition DERP_OUT_LEN : nat := 8.
Definition try_send (queue : list Relayed) (r : Relayed) : list Relayed := if decide (length queue < DERP_OUT_LEN) then queue ++ [r] else queue.

(** What [serve] works on: [out] is its buffer. *)
Record Server (T W : Type) := { node : Node; tunnel : T; udp : W; derp_out : list Relayed; out : bytes }.
Arguments node {T W}.
Arguments tunnel {T W}.
Arguments udp {T W}.
Arguments derp_out {T W}.
Arguments out {T W}.

Section Serve.
Context `{P : Primitives} {T W : Type} `{TQ : TunnelQueue T} `{NU : NodeUdp W}.
Abbreviation Srv := (Server T W).
Abbreviation M := (SE Srv Empty_set).

Definition set_node (s : Srv) (n : Node) : Srv := {| node := n; tunnel := tunnel s; udp := udp s; derp_out := derp_out s; out := out s |}.
Definition set_tunnel (s : Srv) (t : T) : Srv := {| node := node s; tunnel := t; udp := udp s; derp_out := derp_out s; out := out s |}.
Definition set_udp (s : Srv) (w : W) : Srv := {| node := node s; tunnel := tunnel s; udp := w; derp_out := derp_out s; out := out s |}.
Definition set_derp_out (s : Srv) (q : list Relayed) : Srv := {| node := node s; tunnel := tunnel s; udp := udp s; derp_out := q; out := out s |}.
Definition set_out (s : Srv) (b : bytes) : Srv := {| node := node s; tunnel := tunnel s; udp := udp s; derp_out := derp_out s; out := b |}.

Definition on_udp {A} (f : W -> W * A) : M A := fun s => let (w, a) := f (udp s) in (set_udp s w, Ok a).
Definition on_tunnel {A} (f : T -> T * A) : M A := fun s => let (t, a) := f (tunnel s) in (set_tunnel s t, Ok a).

(** A datagram: a reply to where it came from, or a packet for the LAN. *)
Definition on_datagram (packet : bytes) (from : bytes * Z) : M unit :=
  do! s := get_state in
  do! (n, action) := lift (handle (node s) packet (Udp from.1 from.2) (out s)) in
  do! _ := modify (fun s => set_node s n) in
  match action with
  | Some (Reply len, o) =>
      do! _ := modify (fun s => set_out s o) in
      do! reply := lift (slice o 0 len) in
      do! _ := on_udp (fun w => wg_send w reply from) in ret tt
  | Some (Deliver len, o) =>
      do! _ := modify (fun s => set_out s o) in
      do! plain := lift (slice o 0 len) in
      on_tunnel (fun t => (deliver t plain, tt))
  | None => ret tt
  end.

(** A packet for the peer: by UDP, or through the relay if there is room. *)
Definition forward (cipher : bytes) (source : Source) : M unit :=
  match source with
  | Udp octets port => do! _ := on_udp (fun w => wg_send w cipher (octets, port)) in ret tt
  | Derp _ => do! relayed := lift (relayed_new cipher) in modify (fun s => set_derp_out s (try_send (derp_out s) relayed))
  end.

(** The inner loop: what the tunnel has, encrypted and sent. The fuel is more than
    the number of packets. *)
Fixpoint drain_loop (fuel : nat) : M unit :=
  match fuel with
  | O => lift NoFuel
  | S fuel =>
      do! packet := on_tunnel take_packet in
      match packet with
      | None => ret tt
      | Some packet =>
          do! s := get_state in
          do! (n, sealed) := lift (node_encrypt (node s) packet (zeros 1600)) in
          do! _ := modify (fun s => set_node s n) in
          match sealed with
          | None => ret tt
          | Some (cipher, len, source) =>
              do! cipher := lift (slice cipher 0 len) in
              do! _ := forward cipher source in
              drain_loop fuel
          end
      end
  end.

(** One turn of the loop of [serve]. *)
Definition serve_turn (fuel : nat) : M unit :=
  do! arrival := on_udp (fun w => wg_arrival w 1600) in
  do! _ := match arrival with Some (Some (packet, from)) => on_datagram packet from | _ => ret tt end in
  drain_loop fuel.

Fixpoint serve_loop (turns fuel : nat) : M unit :=
  match turns with O => ret tt | S turns => do! _ := serve_turn fuel in serve_loop turns fuel end.

(** [serve], for so many turns; without the port it sleeps for good. *)
Definition serve (turns fuel : nat) : M unit :=
  do! bound := on_udp (fun w => wg_bind w PORT) in
  if (bound : bool) then serve_loop turns fuel else ret tt.
End Serve.

(** The tunnel of [FwTunnel] is such a queue. *)
Section Tunnel.
Context {I SS H K U M N X : Type} `{TK : Smoltcp.Tcp K} `{UD : FwTunnel.Udp U M} `{SM : !FwTunnel.Iface I SS H K U} `{BD : FwTunnel.Board N X}.

#[export] Instance shared_queue : TunnelQueue (FwTunnel.Shared I SS H N) := {
  queue_lan := FwTunnel.tunnel_lan_side (E:=Empty_set);
  take_packet s := let (t, r) := FwTunnel.take_outbound (FwTunnel.tunnel s) in ({| FwTunnel.tunnel := t; FwTunnel.board := FwTunnel.board s |}, r);
}.
#[export] Instance shared_queue_view : TunnelQueueView (FwTunnel.Shared I SS H N).
Proof.
  refine {| waiting s := FwTunnel.outbound (FwTunnel.device (FwTunnel.tunnel s)) |}. intros [t n] s' r. cbn [take_packet shared_queue FwTunnel.tunnel FwTunnel.board].
  unfold FwTunnel.take_outbound. destruct (FwTunnel.outbound (FwTunnel.device t)) as [|p rest] eqn:E; intros [= <- <-]; cbn [FwTunnel.tunnel]; by rewrite ?E.
Defined.
End Tunnel.

(** ** Proofs *)

(** The peer's end: what it hears of packets in a row. *)
Fixpoint hears `{P : Primitives} (s : Session) (packets : list bytes) : option (Session * list bytes) :=
  match packets with
  | [] => Some (s, [])
  | p :: packets =>
      match decrypt s p with
      | (s, Ok plain) => match hears s packets with Some (s, plains) => Some (s, plain :: plains) | None => None end
      | _ => None
      end
  end.

Definition relayed_bytes (r : Relayed) : bytes := take (r_len r) (r_buf r).

Lemma relayed_whole {E} packet : length packet <= 1600 -> exists r, relayed_new (E:=E) packet = Ok r /\ relayed_bytes r = packet.
Proof.
  intros Hl. unfold relayed_new. rewrite length_zeros, Nat.min_l, slice_to, take_ge by lia. cbn [obind]. rewrite copy_range_ok by (rewrite ?length_zeros; lia). cbn [obind].
  eexists. split; [done|]. unfold relayed_bytes. cbn [r_len r_buf]. pose proof (take_overwrite (zeros 1600) 0 packet ltac:(lia)) as Ht. cbn [Nat.add] in Ht. rewrite Ht. by rewrite take_0.
Qed.

Section Draining.
Context `{P : Primitives, L : !PrimitiveLaws P} {T W : Type} `{TV : TunnelQueueView T} `{NV : NodeUdpView W}.
Abbreviation Srv := (Server T W).

(** UDP takes every datagram. *)
Definition udp_up : Prop := forall w b ep, exists w', wg_send w b ep = (w', true).

(** The server and the peer's session [peer], after [k] packets, with the peer last
    heard from [source]. *)
Definition connected (s : Srv) (peer : Session) (k : Z) (source : Source) : Prop :=
  linked (node s) peer k /\ exists slot, n_peer (node s) = Some slot /\ slot_source slot = source.

(** A packet of the LAN side, encrypted for the peer. *)
Lemma node_encrypt_carries n peer k payload slot : linked n peer k -> n_peer n = Some slot -> (k < REJECT_AFTER_MESSAGES)%Z -> length payload <= 1500 ->
  exists n' pkt peer' rest slot', node_encrypt (E:=Empty_set) n payload (zeros 1600) = Ok (n', Some (pkt ++ rest, length pkt, slot_source slot)) /\
    length pkt <= 1600 /\ decrypt peer pkt = (peer', Ok (padded payload)) /\ linked n' peer' (k + 1) /\ n_peer n' = Some slot' /\ slot_source slot' = slot_source slot.
Proof using L.
  intros (Hn & slot0 & Hp & Hf & Hb & Hc & Hd) Hs Hk Hl. rewrite Hp in Hs. injection Hs as ->. unfold node_encrypt. rewrite Hp. cbn [ok_or try_or].
  pose proof (div_ceil_ge (length payload)).
  destruct (channel_step (slot_session slot) peer payload (zeros 1600)) as (r & pkt & s' & He & Hlen & Ht & Hdec & Hf' & Hb' & Hcr & Hcs);
    try done; [lia|lia|rewrite length_padded, length_zeros; lia|].
  rewrite He. cbn [try_or]. eexists _, pkt, s', _, _. split; [reflexivity|]. split; [rewrite length_padded in Hlen; lia|]. split; [done|].
  split; [|split; reflexivity]. split; [by eapply node_ok_feeds|]. eexists. split; [done|]. cbn [slot_session set_session]. split_and!; (done || lia).
Qed.

(** Where the packets go: all of them by UDP; by the relay, those there is room for. *)
Definition carried_to (source : Source) (s s' : Srv) (packets : list bytes) : Prop :=
  match source with
  | Udp octets port => sent_to (udp s') = sent_to (udp s) ++ map (fun b => (b, (octets, port))) packets /\ derp_out s' = derp_out s
  | Derp _ => sent_to (udp s') = sent_to (udp s) /\ map relayed_bytes (derp_out s') = take DERP_OUT_LEN (map relayed_bytes (derp_out s) ++ packets)
  end.

Lemma forward_carries cipher source (s : Srv) : udp_up -> length cipher <= 1600 -> length (derp_out s) <= DERP_OUT_LEN ->
  exists s', forward cipher source s = (s', Ok tt) /\ carried_to source s s' [cipher] /\ node s' = node s /\ tunnel s' = tunnel s /\ length (derp_out s') <= DERP_OUT_LEN.
Proof using TV NV.
  intros Hup Hl Hq. unfold forward. destruct source as [octets port|key].
  - destruct (Hup (udp s) cipher (octets, port)) as [w Ew]. unfold on_udp, bind. rewrite Ew. eexists. split; [reflexivity|]. cbn. by rewrite (wg_send_view _ _ _ _ _ Ew).
  - destruct (relayed_whole (E:=Empty_set) cipher Hl) as (r & -> & Hr). rewrite bind_lift. eexists. split; [reflexivity|]. cbn [carried_to modify set_derp_out udp derp_out node tunnel].
    unfold try_send. case_decide as Hroom; split_and!; try done.
    + rewrite map_app, take_ge by (rewrite length_app, length_map; simpl; lia). cbn [map]. by rewrite Hr.
    + rewrite length_app. simpl. lia.
    + rewrite take_app_le, take_ge by (rewrite length_map; lia). done.
Qed.

Lemma carried_trans source s1 s2 s3 ps qs : carried_to source s1 s2 ps -> carried_to source s2 s3 qs -> carried_to source s1 s3 (ps ++ qs).
Proof using.
  destruct source; cbn [carried_to].
  - intros [-> ->] [-> ->]. split; [|done]. by rewrite map_app, app_assoc.
  - intros [-> H1] [-> ->]. split; [done|]. rewrite H1, app_assoc. set (l := map relayed_bytes (derp_out s1) ++ ps).
    destruct (decide (length l <= DERP_OUT_LEN)); [by rewrite (take_ge l) by done|].
    rewrite !take_app_le by (rewrite ?length_take; lia). by rewrite take_take, Nat.min_id.
Qed.

(** C16. What the LAN has for the peer reaches it: the loop takes every waiting packet
    of the tunnel, in order, and encrypts it with the next counter of the one
    session; the peer, with the keys of its end, hears exactly these packets, padded.
    They go to where the peer was last heard from: over UDP all of them; through the
    relay those that fit its eight slots, and the others are lost although their
    counters are spent, because the relay's task does not run until the loop ends,
    and the tunnel holds up to twelve. *)
Theorem drain_carried fuel (s : Srv) (peer : Session) k source :
  connected s peer k source -> udp_up -> Forall (fun p => length p <= 1500) (waiting (tunnel s)) -> length (derp_out s) <= DERP_OUT_LEN ->
  (k + Z.of_nat (length (waiting (tunnel s))) <= REJECT_AFTER_MESSAGES)%Z -> length (waiting (tunnel s)) < fuel ->
  exists s' peer' packets, drain_loop fuel s = (s', Ok tt) /\ waiting (tunnel s') = [] /\
    hears peer packets = Some (peer', map padded (waiting (tunnel s))) /\ carried_to source s s' packets /\
    connected s' peer' (k + Z.of_nat (length (waiting (tunnel s)))) source.
Proof.
  revert s peer k. induction fuel as [|fuel IH]; intros s peer k (Hlink & slot & Hslot & Hsrc) Hup Hw Hq Hk Hf; [lia|]. cbn [drain_loop].
  destruct (take_packet (tunnel s)) as [t r] eqn:Et. destruct (take_packet_view _ _ _ Et) as [Hwait Hnone].
  assert (on_tunnel take_packet s = (set_tunnel s t, Ok r)) as E1 by (unfold on_tunnel; by rewrite Et). rewrite (bind_ok _ _ _ _ _ E1). rewrite Hwait in Hw, Hk, Hf |- *. destruct r as [p|].
  - change (option_list (Some p) ++ waiting t) with (p :: waiting t) in Hw, Hk, Hf |- *. cbn [map length] in Hk, Hf |- *. apply List.Forall_cons_iff in Hw as [Hp Hw]. rewrite bind_get. destruct (node_encrypt_carries (node s) peer k p slot Hlink Hslot ltac:(lia) Hp) as (n & pkt & peer1 & rest & slot1 & En & Hl & Hdec & Hlink1 & Hslot1 & Hsrc1).
    cbn [node set_tunnel]. rewrite En, bind_lift, bind_modify. rewrite slice_app_l_exact by done. rewrite bind_lift.
    destruct (forward_carries pkt (slot_source slot) (set_node (set_tunnel s t) n) Hup Hl Hq) as (s1 & Ef & Hc1 & Hn1 & Ht1 & Hq1). rewrite (bind_ok _ _ _ _ _ Ef).
    destruct (IH s1 peer1 (k + 1)%Z) as (s' & peer' & packets & E & He & Hh & Hc & Hconn).
    + split; [by rewrite Hn1|]. exists slot1. split; [by rewrite Hn1|]. congruence.
    + done.
    + by rewrite Ht1.
    + done.
    + rewrite Ht1. cbn [tunnel set_node set_tunnel]. lia.
    + rewrite Ht1. cbn [tunnel set_node set_tunnel]. lia.
    + rewrite Ht1 in Hh, Hconn. cbn [tunnel set_node set_tunnel] in Hh, Hconn. exists s', peer', (pkt :: packets). split_and!; try done.
      * cbn [hears]. by rewrite Hdec, Hh.
      * rewrite Hsrc in Hc1. by apply (carried_trans _ s s1 s' [pkt]).
      * by replace (k + Z.of_nat (S (length (waiting t))))%Z with (k + 1 + Z.of_nat (length (waiting t)))%Z by lia.
  - change (option_list None ++ waiting t) with (waiting t) in Hw, Hk, Hf |- *. rewrite Hnone by done. cbn [map length]. specialize (Hnone eq_refl).
    exists (set_tunnel s t), peer, []. rewrite Z.add_0_r. split; [done|]. split; [exact Hnone|]. split; [done|]. split; [|split; [exact Hlink|by exists slot]].
    destruct source; cbn; [by rewrite app_nil_r|]. rewrite app_nil_r, take_ge by (rewrite length_map; done). done.
Qed.
End Draining.

(** An example: two packets for a peer heard through the relay, with seven on their
    way to it already. *)
#[local] Existing Instances Toy.toy Toy.toy_laws.
#[local] Instance list_lan : LanSide (list bytes) := { deliver t _ := t }.
#[local] Instance list_queue : TunnelQueue (list bytes) := { take_packet t := match t with [] => ([], None) | p :: t => (t, Some p) end }.
#[local] Instance list_queue_view : TunnelQueueView (list bytes).
Proof. refine {| waiting (t : list bytes) := t |}. intros [|p t] t' r; cbn [take_packet list_queue]; intros [= <- <-]; (split; [done|by intros]). Defined.
#[local] Instance list_udp : NodeUdp (list (bytes * (bytes * Z))) := {
  wg_bind w _ := (w, true); wg_arrival w _ := (w, None); wg_send w b ep := (w ++ [(b, ep)], true);
}.
#[local] Instance list_udp_view : NodeUdpView (list (bytes * (bytes * Z))).
Proof. refine {| sent_to w := w |}. by intros w b ep w' ok [= <- <-]. Defined.

Definition example_slot : PeerSlot := {| slot_key := Public (zeros 32); slot_session := session_new example_keys; slot_source := Derp (replicate 32 x33) |}.
Definition example_relayed : Relayed := {| r_buf := zeros 1600; r_len := 32 |}.
Definition example_server : Server (list bytes) (list (bytes * (bytes * Z))) :=
  {| node := set_peer example_node example_slot; tunnel := [bs "first"; bs "second"]; udp := []; derp_out := replicate 7 example_relayed; out := zeros 1600 |}.

Lemma example_connected : connected example_server (session_new example_peer_keys) 0 (Derp (replicate 32 x33)).
Proof.
  split; [|by exists example_slot]. split.
  - destruct example_node_ok as (? & ? & ? & ? & ? & _). split_and!; try done. intros slot [= <-]. exists []. apply example_session_ok.
  - exists example_slot. split; [done|]. unfold feeds. destruct example_session_ok as [H1 H2]. split_and!; try done; exists []; (split; [assumption|constructor]).
Qed.

Lemma drain_carried_witness :
  exists s' peer' packets, drain_loop 3 example_server = (s', Ok tt) /\ tunnel s' = [] /\
    hears (session_new example_peer_keys) packets = Some (peer', [padded (bs "first"); padded (bs "second")]) /\
    udp s' = [] /\ map relayed_bytes (derp_out s') = take 8 (replicate 7 (zeros 32) ++ packets) /\
    connected s' peer' 2 (Derp (replicate 32 x33)).
Proof.
  destruct (drain_carried 3 example_server (session_new example_peer_keys) 0 (Derp (replicate 32 x33))) as (s' & peer' & packets & E & Hw & Hh & [Hu Hd] & Hc).
  - exact example_connected.
  - intros w b ep. by eexists.
  - repeat (constructor; [apply Nat.leb_le; reflexivity|]). constructor.
  - apply Nat.leb_le. reflexivity.
  - vm_compute. discriminate.
  - apply Nat.ltb_lt. reflexivity.
  - assert (map relayed_bytes (derp_out example_server) = replicate 7 (zeros 32)) as Hr by (vm_compute; reflexivity). rewrite Hr in Hd.
    exists s', peer', packets. split; [exact E|]. split; [exact Hw|]. split; [exact Hh|]. split; [exact Hu|]. split; [exact Hd|exact Hc].
Defined.

(** Twelve packets at once, as many as the tunnel holds: the last four are lost. *)
Example burst_overruns_relay :
  let s := {| node := node example_server; tunnel := replicate 12 (bs "segment"); udp := []; derp_out := []; out := zeros 1600 |} in
  let s' := (drain_loop 13 s).1 in tunnel s' = [] /\ length (derp_out s') = 8 /\ (send_counter <$> (slot_session <$> n_peer (node s'))) = Some 12%Z.
Proof. vm_compute. split_and!; reflexivity. Qed.
