(* ===== verification/HostDerp.v ===== *)
(** The relay client of the host: [lando-host/src/derp.rs], from where the TLS
    session is set up.

    The session is third-party code; its reads time out, which the client takes
    for a tick. [HostLink] has the operations, [HostLinkView] what is relied on,
    stated with what is still to arrive: bytes, and the silences in between. *)
From S2P Require Import Prelude StateError Crypto Framing Socket DerpFrame DerpHandshake.

(** The error messages of the file, by kind; what they quote is left out. *)
Inductive Error :=
| SendingUpgrade | UpgradeTooLong | ReadingUpgrade | ClosedDuringUpgrade | RefusedUpgrade
| TimedOut | BadServerKeyFrame (e : DerpError) | Expected (want got : FrameType) | BuildingClientInfo (e : DerpError)
| OpeningServerInfo (e : DerpError) | FramingHeader (e : DerpError) | Writing (kind : FrameType) | Reading | Closed | FramingFrame (e : DerpError).

Inductive Event :=
| Packet (src data : bytes) | EvKeepAlive | EvPeerGone (key : bytes) | EvPeerPresent (key : bytes) | Other (kind : FrameType).

(** What a read gives: bytes, none of them at the end; a timeout; a failure. *)
Inductive read_result := Got (b : bytes) | TimedOutRead | Failed.

Class HostLink (W : Type) := {
  tls_read : W -> nat -> W * read_result;
  tls_write_all : W -> bytes -> W * bool;
  tls_flush : W -> W * bool;
  (** [Instant::now()], in milliseconds. *)
  clock : W -> W * Z;
}.

(** The buffer of a read. *)
Definition READ_CHUNK : nat := 8 * 1024.

Record DerpClient (W : Type) := { tls : W; reader : FrameReader; pending : bytes; pos : nat; server_key : bytes }.
Arguments tls {W}.
Arguments reader {W}.
Arguments pending {W}.
Arguments pos {W}.
Arguments server_key {W}.

Abbreviation M W := (SE (DerpClient W) Error).

Section Client.
Context `{P : Primitives} {W : Type} `{HL : HostLink W}.

Definition set_tls (c : DerpClient W) (w : W) : DerpClient W :=
  {| tls := w; reader := reader c; pending := pending c; pos := pos c; server_key := server_key c |}.
Definition set_pending (c : DerpClient W) (p : bytes) (n : nat) : DerpClient W :=
  {| tls := tls c; reader := reader c; pending := p; pos := n; server_key := server_key c |}.
Definition set_reader (c : DerpClient W) (r : FrameReader) (n : nat) : DerpClient W :=
  {| tls := tls c; reader := r; pending := pending c; pos := n; server_key := server_key c |}.
Definition set_server_key (c : DerpClient W) (k : bytes) : DerpClient W :=
  {| tls := tls c; reader := reader c; pending := pending c; pos := pos c; server_key := k |}.

(** An operation on the session, and one that can fail. *)
Definition on_tls {A} (f : W -> W * A) : M W A := fun c => let (w, a) := f (tls c) in (set_tls c w, Ok a).
Definition check (f : W -> W * bool) (e : Error) : M W unit := do! ok := on_tls f in if (ok : bool) then ret tt else lift (Err e).

(** [write_frame] *)
Definition write_frame (kind : FrameType) (payload : bytes) : M W unit :=
  do! (header, _) := lift (map_err FramingHeader (write_header (zeros HEADER_LEN) kind (wrap 32 (Z.of_nat (length payload))))) in
  do! _ := check (fun w => tls_write_all w header) (Writing kind) in
  do! _ := check (fun w => tls_write_all w payload) (Writing kind) in
  check tls_flush (Writing kind).

(** The read at the top of the loop of [next_raw_frame], when everything pending
    is consumed; [false] is a tick. *)
Definition refill : M W bool :=
  do! c := get_state in
  if decide (pos c = length (pending c)) then
    do! _ := modify (fun c => set_pending c [] 0) in
    do! r := on_tls (fun w => tls_read w READ_CHUNK) in
    match r with
    | TimedOutRead => ret false
    | Failed => lift (Err Reading)
    | Got b =>
        if decide (length b = 0) then lift (Err Closed)
        else do! _ := modify (fun c => set_pending c (pending c ++ b) (pos c)) in ret true
    end
  else ret true.

(** The loop of [next_raw_frame]. *)
Fixpoint raw_loop (fuel : nat) (assembled : bytes) : M W (option (FrameType * bytes)) :=
  match fuel with
  | O => lift NoFuel
  | S fuel =>
      do! more := refill in
      if (more : bool) then
        do! c := get_state in
        do! input := lift (slice (pending c) (pos c) (length (pending c))) in
        do! (r, used, frame) := lift (map_err FramingFrame (feed (reader c) input)) in
        do! _ := modify (fun c => set_reader c r (pos c + used)) in
        match frame with
        | None => raw_loop fuel assembled
        | Some (Control kind payload) => do! p := lift (as_slice payload) in ret (Some (kind, p))
        | Some (Body kind _ chunk ends) =>
            let assembled := assembled ++ chunk in
            if (ends : bool) then ret (Some (kind, assembled)) else raw_loop fuel assembled
        end
      else ret None
  end.

(** [next_raw_frame] *)
Definition next_raw_frame (fuel : nat) : M W (option (FrameType * bytes)) := raw_loop fuel [].

(** The match of [next_event]. *)
Definition event_of (kind : FrameType) (payload : bytes) : outcome Error Event :=
  match kind with
  | RecvPacket =>
      if decide (KEY_LEN <= length payload) then
        let? src := slice payload 0 KEY_LEN in
        let? data := slice payload KEY_LEN (length payload) in
        Ok (Packet src data)
      else Ok (Other kind)
  | KeepAlive => Ok EvKeepAlive
  | PeerGone => if decide (KEY_LEN <= length payload) then let? k := slice payload 0 KEY_LEN in Ok (EvPeerGone k) else Ok (Other kind)
  | PeerPresent => if decide (KEY_LEN <= length payload) then let? k := slice payload 0 KEY_LEN in Ok (EvPeerPresent k) else Ok (Other kind)
  | other => Ok (Other other)
  end.

(** [next_event] *)
Definition next_event (fuel : nat) : M W (option Event) :=
  do! frame := next_raw_frame fuel in
  match frame with
  | None => ret None
  | Some (kind, payload) => do! e := lift (event_of kind payload) in ret (Some e)
  end.

(** [send_packet] *)
Definition send_packet (dst packet : bytes) : M W unit := write_frame SendPacket (dst ++ packet).

(** [note_preferred] *)
Definition note_preferred (preferred : bool) : M W unit := write_frame NotePreferred [if preferred then x01 else x00].

(** The loop of [next_frame_blocking]. *)
Fixpoint blocking_loop (fuel : nat) (deadline : Z) : M W (FrameType * bytes) :=
  match fuel with
  | O => lift NoFuel
  | S fuel' =>
      do! frame := next_raw_frame fuel in
      match frame with
      | Some frame => ret frame
      | None =>
          do! now := on_tls clock in
          if decide (deadline < now)%Z then lift (Err TimedOut) else blocking_loop fuel' deadline
      end
  end.

(** [next_frame_blocking] *)
Definition next_frame_blocking (fuel : nat) : M W (FrameType * bytes) :=
  do! now := on_tls clock in blocking_loop fuel (now + 20000).

(** [read_server_key] *)
Definition read_server_key (fuel : nat) : M W bytes :=
  do! (kind, payload) := next_frame_blocking fuel in
  if decide (kind = ServerKey) then lift (map_err BadServerKeyFrame (parse_server_key payload)) else lift (Err (Expected ServerKey kind)).

(** [send_client_info], with the nonce it draws. *)
Definition send_client_info (node_secret node_public nonce : bytes) : M W unit :=
  do! c := get_state in
  do! (payload, n) := lift (map_err BuildingClientInfo (client_info_payload node_secret node_public (server_key c) nonce (zeros 256))) in
  do! payload := lift (slice payload 0 n) in
  write_frame ClientInfo payload.

(** [read_server_info] *)
Definition read_server_info (fuel : nat) (node_secret : bytes) : M W bytes :=
  do! (kind, payload) := next_frame_blocking fuel in
  if decide (kind = ServerInfo) then
    do! c := get_state in
    do! (_, json) := lift (map_err OpeningServerInfo (open node_secret (server_key c) payload)) in
    ret json
  else lift (Err (Expected ServerInfo kind)).

Definition upgrade_request (host : bytes) : bytes :=
  bs "GET /derp HTTP/1.1" ++ [x0d; x0a] ++ bs "Host: " ++ host ++ [x0d; x0a] ++ bs "Connection: Upgrade" ++ [x0d; x0a] ++
  bs "Upgrade: DERP" ++ [x0d; x0a; x0d; x0a].

Definition find_headers_end (buf : bytes) : option nat := (fun i => i + 4) <$> find_window [x0d; x0a; x0d; x0a] buf.

(** The reading loop of [upgrade]. The status is looked at through
    [from_utf8_lossy], which changes no text that starts as asked and makes
    none that does. *)
Fixpoint upgrade_loop (fuel : nat) (buf : bytes) (have : nat) : M W unit :=
  match fuel with
  | O => lift NoFuel
  | S fuel =>
      if decide (have = length buf) then lift (Err UpgradeTooLong)
      else
        do! r := on_tls (fun w => tls_read w (length buf - have)) in
        match r with
        | TimedOutRead | Failed => lift (Err ReadingUpgrade)
        | Got b =>
            if decide (length b = 0) then lift (Err ClosedDuringUpgrade)
            else
              do! buf := lift (copy_range buf have (have + length b) b) in
              let have := have + length b in
              do! got := lift (slice buf 0 have) in
              match find_headers_end got with
              | None => upgrade_loop fuel buf have
              | Some end_ =>
                  do! status := lift (slice buf 0 (end_ `min` 64)) in
                  if starts_with status (bs "HTTP/1.1 101") then
                    do! rest := lift (slice buf end_ have) in
                    modify (fun c => set_pending c (pending c ++ rest) (pos c))
                  else lift (Err RefusedUpgrade)
              end
        end
  end.

(** [upgrade] *)
Definition upgrade (fuel : nat) (host : bytes) : M W unit :=
  do! _ := check (fun w => tls_write_all w (upgrade_request host)) SendingUpgrade in
  do! _ := check tls_flush SendingUpgrade in
  upgrade_loop fuel (zeros (4 * 1024)) 0.

(** [connect], once the session is there. *)
Definition connect (fuel : nat) (host node_secret node_public nonce : bytes) : M W unit :=
  do! _ := upgrade fuel host in
  do! key := read_server_key fuel in
  do! _ := modify (fun c => set_server_key c key) in
  do! _ := send_client_info node_secret node_public nonce in
  do! _ := read_server_info fuel node_secret in
  note_preferred true.
Definition client_new (w : W) : DerpClient W := {| tls := w; reader := new; pending := []; pos := 0; server_key := zeros 32 |}.
End Client.

(** ** What is relied on *)

Inductive arrival := Byte (b : byte) | Quiet.

(** A read takes a prefix of what arrives, or the silence in front of it. *)
Class HostLinkView (W : Type) `{HostLink W} := {
  arrivals : W -> list arrival;
  written : W -> bytes;
  tls_read_view w n w' r : tls_read w n = (w', r) -> 0 < n ->
    match r with
    | Got b => length b <= n /\ arrivals w = map Byte b ++ arrivals w' /\ (b = [] -> arrivals w = [])
    | TimedOutRead => arrivals w = Quiet :: arrivals w'
    | Failed => True
    end /\ written w' = written w;
  tls_write_view w b w' : tls_write_all w b = (w', true) -> arrivals w' = arrivals w /\ written w' = written w ++ b;
  tls_flush_view w w' : tls_flush w = (w', true) -> arrivals w' = arrivals w /\ written w' = written w;
  clock_view w : arrivals (clock w).1 = arrivals w /\ written (clock w).1 = written w;
}.

(** A session that does not fail. *)
Class HostLinkUp (W : Type) `{HostLinkView W} := {
  tls_read_up w n : (tls_read w n).2 <> Failed;
  tls_write_up w b : exists w', tls_write_all w b = (w', true);
  tls_flush_up w : exists w', tls_flush w = (w', true);
}.

(** ** What the calls of [next_raw_frame] give

    A silence in the middle of a packet loses what has arrived of it. *)
Fixpoint hear (p : position_in (FrameType * Z)) (held : bytes) (l : list arrival) : list (option (FrameType * bytes)) :=
  match l with
  | [] => []
  | Quiet :: l => None :: hear p [] l
  | Byte b :: l =>
      match step derp_format p b with
      | inl _ => []
      | inr (q, ev) => let (held, fs) := assemble held ev in map Some fs ++ hear q held l
      end
  end.

(** ** Proofs *)

Lemma hear_run p l q ev held rest : run derp_format p l = inr (q, ev) ->
  hear p held (map Byte l ++ rest) = map Some (assemble held ev).2 ++ hear q (assemble held ev).1 rest.
Proof.
  revert p ev held. induction l as [|b l IH]; intros p ev held; cbn [run map app hear]; [by intros [= <- <-]|].
  destruct (step derp_format p b) as [|[p1 ev1]]; [done|]. destruct (run derp_format p1 l) as [|[p2 ev2]] eqn:Er; [done|].
  intros [= <- <-]. rewrite assemble_app. destruct (assemble held ev1) as [h1 f1]. rewrite (IH p1 ev2 h1 Er).
  destruct (assemble h1 ev2) as [h2 f2]. cbn [fst snd]. by rewrite map_app, app_assoc.
Qed.

(** The bytes among the arrivals are frames within the limit. *)
Fixpoint bytes_of (l : list arrival) : bytes :=
  match l with [] => [] | Byte b :: l => b :: bytes_of l | Quiet :: l => bytes_of l end.
Definition framed (p : position_in (FrameType * Z)) (l : list arrival) : Prop := exists q ev, run derp_format p (bytes_of l) = inr (q, ev).

Lemma bytes_of_app a b : bytes_of (a ++ b) = bytes_of a ++ bytes_of b.
Proof. induction a as [|[x|] a IH]; [done|cbn; by rewrite IH|exact IH]. Qed.
Lemma bytes_of_bytes l : bytes_of (map Byte l) = l.
Proof. induction l as [|x l IH]; [done|cbn; by rewrite IH]. Qed.

Lemma framed_run p l rest q ev : run derp_format p l = inr (q, ev) -> framed p (map Byte l ++ rest) -> framed q rest.
Proof.
  intros Hr (q' & ev' & Hf). rewrite bytes_of_app, bytes_of_bytes, (run_app_inr _ _ _ _ _ _ Hr) in Hf.
  destruct (run derp_format q (bytes_of rest)) as [|[q2 ev2]] eqn:E; [done|]. by exists q2, ev2.
Qed.

Section Listening.
Context `{P : Primitives, L : !PrimitiveLaws P} {W : Type} `{HL : HostLink W, HV : !HostLinkView W, HU : !HostLinkUp W}.

Definition unread (c : DerpClient W) : bytes := drop (pos c) (pending c).
Definition coming (c : DerpClient W) : list arrival := map Byte (unread c) ++ arrivals (tls c).
Definition client_ok (c : DerpClient W) : Prop := derp_ok (reader c) /\ pos c <= length (pending c).
(** What the next calls give. *)
Definition to_come (c : DerpClient W) : list (option (FrameType * bytes)) := hear (derp_at (reader c)) [] (coming c).

(** What a call keeps. *)
Definition same_side (c c' : DerpClient W) : Prop := server_key c' = server_key c /\ written (tls c') = written (tls c).

Lemma refill_spec c : client_ok c ->
  match refill c with
  | (c', Ok true) => client_ok c' /\ coming c' = coming c /\ unread c' <> [] /\ reader c' = reader c /\ same_side c c'
  | (c', Ok false) => client_ok c' /\ coming c = Quiet :: coming c' /\ reader c' = reader c /\ same_side c c'
  | (c', Err e) => e = Closed /\ coming c = []
  | _ => False
  end.
Proof.
  intros [Hr Hp]. unfold refill. rewrite bind_get. case_decide as Hd.
  2:{ split; [by split|]. split; [done|]. split; [|done]. unfold unread. intros Hn. apply (f_equal length) in Hn. rewrite length_drop in Hn. simpl in Hn. lia. }
  assert (unread c = []) as Hu by (unfold unread; by rewrite drop_ge by lia).
  rewrite bind_modify. unfold bind, on_tls. cbn [set_pending tls]. pose proof (tls_read_up (tls c) READ_CHUNK) as Hup.
  destruct (tls_read (tls c) READ_CHUNK) as [w r] eqn:E. apply tls_read_view in E as [Hv Hw]; [|unfold READ_CHUNK; lia]. cbn [snd] in Hup.
  destruct r as [b| |]; [|cbn|done].
  - destruct Hv as (Hb & Ha & He). case_decide as Hl; cbn.
    + split; [done|]. unfold coming. rewrite Hu. apply He. by destruct b.
    + split; [split; [done|cbn; lia]|]. assert (coming c = arrivals (tls c)) as -> by (unfold coming; by rewrite Hu).
      unfold coming, unread. cbn. rewrite Ha. split; [done|].
      split; [by destruct b|]. by split.
  - split; [split; [done|cbn; lia]|]. unfold coming. rewrite Hu, Hv. by split_and!.
Qed.

(** Feeding what is unread: some of it is used, and says what the item says. *)
Lemma feed_coming c held : client_ok c -> fits (derp_at (reader c)) held -> framed (derp_at (reader c)) (coming c) -> unread c <> [] ->
  exists r used i, feed (reader c) (unread c) = Ok (r, used, i) /\
    let c' := set_reader c r (pos c + used) in
    client_ok c' /\ length (coming c') < length (coming c) /\ framed (derp_at r) (coming c') /\
    match i with
    | None => fits (derp_at r) held /\ hear (derp_at (reader c)) held (coming c) = hear (derp_at r) held (coming c')
    | Some (Control k p) => exists payload, as_slice p = Ok (E:=Error) payload /\ fits (derp_at r) [] /\
        hear (derp_at (reader c)) held (coming c) = Some (k, payload) :: hear (derp_at r) [] (coming c')
    | Some (Body k _ chunk true) => fits (derp_at r) [] /\
        hear (derp_at (reader c)) held (coming c) = Some (k, held ++ chunk) :: hear (derp_at r) [] (coming c')
    | Some (Body _ _ chunk false) => fits (derp_at r) (held ++ chunk) /\
        hear (derp_at (reader c)) held (coming c) = hear (derp_at r) (held ++ chunk) (coming c')
    end.
Proof.
  intros [Hr Hp] Hf Hfr Hne. pose proof (feed_steps (FramingLaws:=derp_framing_laws) _ (unread c) 0 Hr) as Hst.
  destruct (feed (reader c) (unread c)) as [[[r used] i]|e| |] eqn:Hfeed; [|exfalso|done..].
  2:{ destruct Hst as (n & Hn & He). change (reader_at ?r) with (derp_at r) in He. destruct Hfr as (q & ev & Hrun). unfold coming in Hrun.
      rewrite bytes_of_app, bytes_of_bytes, <- (take_drop n (unread c)), <- app_assoc, run_app, He in Hrun. done. }
  destruct Hst as (Hr2 & Hu & Hu0 & Hnone & Hst). change (reader_at ?r) with (derp_at r) in Hst.
  exists r, used, i. split; [done|]. intros c'.
  assert (0 < used) as Hpos by (apply Hu0; destruct (unread c); [done|simpl; lia]).
  assert (length (unread c) = length (pending c) - pos c) as Hlu by (unfold unread; by rewrite length_drop).
  assert (coming c = map Byte (take used (unread c)) ++ coming c') as Hcom.
  { unfold coming, c', unread. cbn. rewrite app_assoc, <- map_app. f_equal. f_equal. by rewrite <- drop_drop, take_drop. }
  rewrite Hcom in Hfr. apply (framed_run _ _ _ _ _ Hst) in Hfr. rewrite Hcom.
  split; [split; [done|cbn; lia]|]. split; [rewrite length_app, length_map, length_take; lia|]. split; [done|].
  rewrite (hear_run _ _ _ _ held _ Hst). pose proof (run_fits _ _ _ _ held Hst Hf) as Hfit.
  destruct i as [i|]; [|by split]. cbn [from_option] in *. pose proof (derp_item_ok _ _ _ _ _ Hr Hfeed) as Hi. change (item_events i) with (frame_item i) in *.
  rewrite (assemble_item held i Hi) in *. destruct i as [k p|k n chunk []]; cbn [fst snd map app] in *; [|done|done].
  unfold as_slice in *. cbn [item_ok frame_item] in *. unfold as_slice in *. rewrite slice_to in Hst by done. rewrite slice_to by done.
  rewrite (captured_fits _ _ _ _ _ held Hst Hf) in *. by eexists.
Qed.

(** A call gives the next thing to come, and leaves the rest. *)
Lemma raw_loop_spec fuel c held r rs : client_ok c -> fits (derp_at (reader c)) held -> framed (derp_at (reader c)) (coming c) ->
  hear (derp_at (reader c)) held (coming c) = r :: rs -> length (coming c) < fuel ->
  exists c', raw_loop fuel held c = (c', Ok r) /\ client_ok c' /\ framed (derp_at (reader c')) (coming c') /\ to_come c' = rs /\
    length (coming c') < length (coming c) /\ same_side c c'.
Proof.
  revert c held. induction fuel as [|fuel IH]; intros c held Hc Hf Hfr Hh Hfuel; [lia|]. cbn [raw_loop].
  pose proof (refill_spec c Hc) as Hre. destruct (refill c) as [c1 [[]|e| |]] eqn:E; [| |destruct Hre as [_ Hn]; by rewrite Hn in Hh|done..]; rewrite (bind_ok _ _ _ _ _ E).
  2:{ destruct Hre as (Hc1 & Hq & Hrd & Hs). rewrite Hq in *. cbn [hear] in Hh. injection Hh as <- <-. exists c1. unfold to_come. rewrite Hrd. split_and!; try done. cbn; lia. }
  destruct Hre as (Hc1 & Hcom & Hne & Hrd & Hs1). rewrite <- Hcom, <- Hrd in *. rewrite bind_get, slice_from by apply Hc1. rewrite bind_lift. fold (unread c1).
  destruct (feed_coming c1 held Hc1 Hf Hfr Hne) as (r1 & used & i & -> & Hc2 & Hlen & Hfr2 & Hi). cbn [map_err]. rewrite bind_lift. cbn beta iota. rewrite bind_modify.
  set (c2 := set_reader c1 r1 (pos c1 + used)) in *.
  assert (forall held', fits (derp_at r1) held' -> hear (derp_at r1) held' (coming c2) = r :: rs ->
    exists c', raw_loop fuel held' c2 = (c', Ok r) /\ client_ok c' /\ framed (derp_at (reader c')) (coming c') /\ to_come c' = rs /\
      length (coming c') < length (coming c1) /\ same_side c c') as Hgo.
  { intros held' Hf' Hh'. destruct (IH c2 held' Hc2 Hf' Hfr2 Hh' ltac:(lia)) as (c' & E' & ? & ? & ? & ? & [? ?]).
    exists c'. destruct Hs1. split_and!; try (done || lia). split; cbn in *; congruence. }
  destruct i as [[k p|k n chunk []]|].
  - destruct Hi as (payload & -> & Hf2 & Hh2). rewrite Hh2 in Hh. injection Hh as <- <-. rewrite bind_lift. exists c2. by split_and!.
  - destruct Hi as [Hf2 Hh2]. rewrite Hh2 in Hh. injection Hh as <- <-. exists c2. by split_and!.
  - destruct Hi as [Hf2 Hh2]. apply Hgo; [done|by rewrite <- Hh2].
  - destruct Hi as [Hf2 Hh2]. apply Hgo; [done|by rewrite <- Hh2].
Qed.

(** Nothing more to come: the relay has closed. *)
Lemma raw_loop_end fuel c held : client_ok c -> fits (derp_at (reader c)) held -> framed (derp_at (reader c)) (coming c) ->
  hear (derp_at (reader c)) held (coming c) = [] -> length (coming c) < fuel -> exists c', raw_loop fuel held c = (c', Err Closed).
Proof.
  revert c held. induction fuel as [|fuel IH]; intros c held Hc Hf Hfr Hh Hfuel; [lia|]. cbn [raw_loop].
  pose proof (refill_spec c Hc) as Hre. destruct (refill c) as [c1 [[]|e| |]] eqn:E; [| |destruct Hre as [-> _]; rewrite (bind_err _ _ _ _ _ E); by exists c1|done..];
    rewrite (bind_ok _ _ _ _ _ E); [|destruct Hre as (_ & Hq & _); by rewrite Hq in Hh].
  destruct Hre as (Hc1 & Hcom & Hne & Hrd & Hs1). rewrite <- Hcom, <- Hrd in *. rewrite bind_get, slice_from by apply Hc1. rewrite bind_lift. fold (unread c1).
  destruct (feed_coming c1 held Hc1 Hf Hfr Hne) as (r1 & used & i & -> & Hc2 & Hlen & Hfr2 & Hi). cbn [map_err]. rewrite bind_lift. cbn beta iota. rewrite bind_modify.
  destruct i as [[k p|k n chunk []]|].
  - destruct Hi as (payload & _ & _ & Hh2). by rewrite Hh2 in Hh.
  - destruct Hi as [_ Hh2]. by rewrite Hh2 in Hh.
  - destruct Hi as [Hf2 Hh2]. rewrite Hh2 in Hh. apply IH; try done. lia.
  - destruct Hi as [Hf2 Hh2]. rewrite Hh2 in Hh. apply IH; try done. lia.
Qed.

(** *** Events *)

(** What a frame is to the caller. *)
Definition event (f : FrameType * bytes) : Event :=
  match f.1 with
  | RecvPacket => if decide (KEY_LEN <= length f.2) then Packet (take KEY_LEN f.2) (drop KEY_LEN f.2) else Other RecvPacket
  | KeepAlive => EvKeepAlive
  | PeerGone => if decide (KEY_LEN <= length f.2) then EvPeerGone (take KEY_LEN f.2) else Other PeerGone
  | PeerPresent => if decide (KEY_LEN <= length f.2) then EvPeerPresent (take KEY_LEN f.2) else Other PeerPresent
  | k => Other k
  end.

Lemma event_of_spec k p : event_of k p = Ok (event (k, p)).
Proof.
  unfold event_of, event. cbn [fst snd]. destruct k; try done; (case_decide; [|done]); rewrite slice_to by done; cbn [obind]; [|done..].
  by rewrite slice_from.
Qed.

(** So many calls of [next_event]. *)
Fixpoint listen (n fuel : nat) : M W (list (option Event)) :=
  match n with
  | O => ret []
  | S n => do! e := next_event fuel in do! es := listen n fuel in ret (e :: es)
  end.

(** The client is between calls, and all is well. *)
Definition listening (c : DerpClient W) : Prop := client_ok c /\ framed (derp_at (reader c)) (coming c).

Lemma fits_nil p : fits p [].
Proof. by destruct p as [|[] ? [|]]. Qed.

Lemma listen_spec fuel c rs more : listening c -> to_come c = rs ++ more -> length (coming c) < fuel ->
  exists c', listen (length rs) fuel c = (c', Ok (map (option_map event) rs)) /\ listening c' /\ to_come c' = more /\
    length (coming c') <= length (coming c) /\ same_side c c'.
Proof.
  revert c. induction rs as [|r rs IH]; intros c [Hc Hfr] Ht Hf; cbn [length listen map]; [by exists c|].
  destruct (raw_loop_spec fuel c [] r (rs ++ more) Hc (fits_nil _) Hfr Ht Hf) as (c1 & E & Hc1 & Hfr1 & Ht1 & Hl & [Hs1 Hs2]).
  assert (next_event fuel c = (c1, Ok (option_map event r))) as E1.
  { unfold next_event, next_raw_frame. rewrite (bind_ok _ _ _ _ _ E). destruct r as [[k p]|]; [|done]. by rewrite event_of_spec. }
  rewrite (bind_ok _ _ _ _ _ E1). destruct (IH c1 (conj Hc1 Hfr1) Ht1 ltac:(lia)) as (c2 & E2 & Hl2 & Ht2 & Hle & [Hs3 Hs4]).
  rewrite (bind_ok _ _ _ _ _ E2). exists c2. split_and!; try (done || lia). split; congruence.
Qed.

(** What a relay sends: a frame, or nothing for a while. *)
Definition sent_as (f : option (FrameType * bytes)) : list arrival :=
  match f with Some (k, p) => map Byte (derp_wire k p) | None => [Quiet] end.
Definition within_limit (f : option (FrameType * bytes)) : Prop :=
  match f with Some (_, p) => (Z.of_nat (length p) <= MAX_FRAME_LEN)%Z | None => True end.

Lemma run_wire k p : (Z.of_nat (length p) <= MAX_FRAME_LEN)%Z -> run derp_format between (derp_wire k p) = inr (between, derp_delivered k p).
Proof. intros Hp. rewrite (run_frame derp_format _ p _ header_pos (derp_wire_frame k p Hp)). by rewrite derp_frame_events. Qed.

Lemma assemble_one k p : assemble [] (derp_delivered k p) = ([], [whole (k, p)]).
Proof. pose proof (assemble_frames [(k, p)]) as H. cbn [map concat] in H. by rewrite app_nil_r in H. Qed.

Lemma hear_script script rest : Forall within_limit script ->
  hear between [] (concat (map sent_as script) ++ rest) = map (option_map whole) script ++ hear between [] rest.
Proof.
  induction 1 as [|[[k p]|] script Hp _ IH]; cbn [map concat sent_as app]; [done| |cbn [hear option_map]; by rewrite IH].
  rewrite <- app_assoc, (hear_run _ _ _ _ _ _ (run_wire k p Hp)), assemble_one. cbn [fst snd map app option_map]. by rewrite IH.
Qed.

Lemma framed_script script rest : Forall within_limit script -> framed between rest -> framed between (concat (map sent_as script) ++ rest).
Proof.
  intros Hs Hr. induction Hs as [|[[k p]|] script Hp _ IH]; cbn [map concat sent_as app]; [done| |exact IH].
  destruct IH as (q & ev & IH). exists q, (derp_delivered k p ++ ev). rewrite <- app_assoc, bytes_of_app, bytes_of_bytes.
  by rewrite (run_app_inr _ _ _ _ _ _ (run_wire k p Hp)), IH.
Qed.
End Listening.

(** A packet in two parts: the header and [a], then [b]. *)
Lemma torn_runs k a b : is_control k = false -> a <> [] -> b <> [] -> (Z.of_nat (length (a ++ b)) <= MAX_FRAME_LEN)%Z ->
  let h := (k, Z.of_nat (length (a ++ b))) in let middle := InPayload h (Z.of_nat (length b)) None in
  run derp_format between (take (HEADER_LEN + length a) (derp_wire k (a ++ b))) = inr (middle, body_events h a false) /\
  run derp_format middle b = inr (between, body_events h b true).
Proof.
  intros Hk Ha Hb Hl h middle. assert (0 < length b) as Hb0 by (destruct b; [done|simpl; lia]).
  pose proof (derp_wire_frame k (a ++ b) Hl) as (hdr & Hw & Hh & Hd & Ht). cbn [header_len derp_format] in Hh. rewrite Hw. split.
  - rewrite app_assoc, take_app_le, take_ge by (rewrite length_app; lia).
    rewrite run_app. unfold between. rewrite (run_header_end derp_format [] hdr) by (cbn; unfold HEADER_LEN in *; lia). cbn [app]. rewrite Hd.
    rewrite length_app in Ht. cbn [Framing.total derp_format snd] in *. rewrite decide_False by (rewrite length_app; lia). cbn [captured derp_format fst]. rewrite Hk.
    rewrite run_stream by (rewrite length_app; lia). unfold middle, h. do 3 f_equal. rewrite length_app. lia.
  - by apply run_stream_end.
Qed.

Section Claims.
Context `{P : Primitives, L : !PrimitiveLaws P} {W : Type} `{HL : HostLink W, HV : !HostLinkView W, HU : !HostLinkUp W}.

(** C36. A read that times out in the middle of a packet tears it: the first call
    of [next_event] gives no event and drops what has arrived of the packet, the
    next gives what was still missing as if it were the whole packet, and the
    frames after it are read as they are. *)
Theorem tick_tears_packet fuel (c : DerpClient W) k a b rest :
  client_ok c -> derp_at (reader c) = between -> is_control k = false -> a <> [] -> b <> [] -> (Z.of_nat (length (a ++ b)) <= MAX_FRAME_LEN)%Z ->
  map Byte (unread c) ++ arrivals (tls c) = map Byte (take (HEADER_LEN + length a) (derp_wire k (a ++ b))) ++ Quiet :: map Byte b ++ rest ->
  framed between rest -> length (coming c) < fuel ->
  exists c', listen 2 fuel c = (c', Ok [None; Some (event (k, b))]) /\ client_ok c' /\ to_come c' = hear between [] rest.
Proof.
  intros Hc Hat Hk Ha Hb Hl He Hr Hf. change (coming c = map Byte (take (HEADER_LEN + length a) (derp_wire k (a ++ b))) ++ Quiet :: map Byte b ++ rest) in He.
  destruct (torn_runs k a b Hk Ha Hb Hl) as [H1 H2].
  assert (hear between [] (coming c) = [None; Some (k, b)] ++ hear between [] rest) as Hh.
  { rewrite He, (hear_run _ _ _ _ _ _ H1), assemble_body by done. cbn [fst snd map app hear].
    by rewrite (hear_run _ _ _ _ _ _ H2), assemble_body by done. }
  assert (listening c) as Hli.
  { split; [done|]. destruct Hr as (q & ev & Hr). rewrite Hat, He. eexists q, _.
    rewrite bytes_of_app, bytes_of_bytes, (run_app_inr _ _ _ _ _ _ H1). cbn [bytes_of].
    by rewrite bytes_of_app, bytes_of_bytes, (run_app_inr _ _ _ _ _ _ H2), Hr. }
  destruct (listen_spec fuel c [None; Some (k, b)] (hear between [] rest) Hli) as (c1 & E & [Hc1 _] & Ht & _); [unfold to_come; by rewrite Hat|done|].
  by exists c1.
Qed.
End Claims.

(** ** Connecting *)
Section Connecting.
Context `{P : Primitives, L : !PrimitiveLaws P} {W : Type} `{HL : HostLink W, HV : !HostLinkView W, HU : !HostLinkUp W}.

(** Nothing but the session changed, and so many bytes were written. *)
Definition wrote (c : DerpClient W) (b : bytes) (c' : DerpClient W) : Prop :=
  reader c' = reader c /\ pending c' = pending c /\ pos c' = pos c /\ server_key c' = server_key c /\
  arrivals (tls c') = arrivals (tls c) /\ written (tls c') = written (tls c) ++ b.

Lemma sent_trans a x b y c : wrote a x b -> wrote b y c -> wrote a (x ++ y) c.
Proof. unfold wrote. intros (-> & -> & -> & -> & -> & ->) (-> & -> & -> & -> & -> & ->). by rewrite app_assoc. Qed.
Lemma sent_listening c b c' : wrote c b c' -> listening c -> listening c' /\ to_come c' = to_come c /\ length (coming c') = length (coming c).
Proof. unfold wrote, listening, client_ok, to_come, coming, unread. intros (-> & -> & -> & _ & -> & _). done. Qed.

Lemma check_write b e c : exists c', check (fun w => tls_write_all w b) e c = (c', Ok tt) /\ wrote c b c'.
Proof.
  destruct (tls_write_up (tls c) b) as [w E]. exists (set_tls c w). unfold check, bind, on_tls. rewrite E. split; [done|].
  apply tls_write_view in E as [Ha Hw]. by split_and!.
Qed.
Lemma check_flush e c : exists c', check tls_flush e c = (c', Ok tt) /\ wrote c [] c'.
Proof.
  destruct (tls_flush_up (tls c)) as [w E]. exists (set_tls c w). unfold check, bind, on_tls. rewrite E. split; [done|].
  apply tls_flush_view in E as [Ha Hw]. unfold wrote. rewrite app_nil_r. by split_and!.
Qed.

Lemma host_write_frame k p c : (Z.of_nat (length p) < 2 ^ 32)%Z -> exists c', write_frame k p c = (c', Ok tt) /\ wrote c (derp_wire k p) c'.
Proof.
  intros Hl. unfold write_frame. rewrite write_header_spec by done. cbn [map_err]. rewrite bind_lift. unfold wrap. rewrite Z.mod_small by lia.
  destruct (check_write (frame_type_u8 k :: to_be 4 (Z.of_nat (length p)) ++ drop 5 (zeros HEADER_LEN)) (Writing k) c) as (c1 & E1 & H1).
  destruct (check_write p (Writing k) c1) as (c2 & E2 & H2). destruct (check_flush (Writing k) c2) as (c3 & E3 & H3). exists c3.
  rewrite (bind_ok _ _ _ _ _ E1), (bind_ok _ _ _ _ _ E2). split; [exact E3|].
  pose proof (sent_trans _ _ _ _ _ (sent_trans _ _ _ _ _ H1 H2) H3) as H. rewrite app_nil_r in H.
  change (drop 5 (zeros HEADER_LEN)) with (@nil byte) in H. rewrite app_nil_r in H. exact H.
Qed.

(** The response that switches protocols. *)
Definition switches (resp : bytes) : Prop :=
  12 <= length resp <= 4 * 1024 /\ find_window [x0d; x0a; x0d; x0a] resp = Some (length resp - 4) /\ starts_with resp (bs "HTTP/1.1 101") = true.

Lemma host_headers_end resp got future rest : switches resp -> got ++ future = resp ++ rest ->
  find_headers_end got = if decide (length resp <= length got) then Some (length resp) else None.
Proof.
  intros (Hl & Hw & _) He. unfold find_headers_end. rewrite (window_ends [x0d; x0a; x0d; x0a] resp got future rest ltac:(done) ltac:(simpl; lia) Hw He).
  case_decide; [|done]. simpl. f_equal. lia.
Qed.

Lemma byte_cut a x (A B : list arrival) : map Byte a ++ A = map Byte x ++ B -> length x <= length a ->
  a = x ++ drop (length x) a /\ map Byte (drop (length x) a) ++ A = B.
Proof.
  intros He Hl. apply app_cut in He as [H1 H2]; [|by rewrite !length_map]. rewrite length_map, skipn_map in H1, H2. split; [|done].
  rewrite <- map_app in H1. apply (f_equal bytes_of) in H1. by rewrite !bytes_of_bytes in H1.
Qed.

Lemma upgrade_loop_spec fuel resp got x (z : bytes) al c :
  switches resp -> got ++ x = resp -> x <> [] -> length got + length z = 4 * 1024 -> pending c = [] -> pos c = 0 ->
  arrivals (tls c) = map Byte x ++ al -> length x < fuel ->
  exists c', upgrade_loop fuel (got ++ z) (length got) c = (c', Ok tt) /\ reader c' = reader c /\ pos c' = 0 /\ server_key c' = server_key c /\
    coming c' = al /\ written (tls c') = written (tls c).
Proof.
  intros Hr. pose proof Hr as (Hlr & _ & Hst). revert got x z c. induction fuel as [|fuel IH]; intros got x z c Hg Hx Hz Hp Hpos Ha Hf; [lia|]. cbn [upgrade_loop].
  assert (0 < length x) as Hx0 by (destruct x; [done|simpl; lia]). assert (length got + length x = length resp) as Hgx by (by rewrite <- Hg, length_app).
  rewrite length_app, decide_False by lia. replace (length got + length z - length got) with (length z) by lia.
  pose proof (tls_read_up (tls c) (length z)) as Hup. unfold bind at 1, on_tls. destruct (tls_read (tls c) (length z)) as [w r] eqn:E. cbn [snd] in Hup.
  apply tls_read_view in E as [Hv Hw]; [|lia]. destruct r as [b| |]; [|rewrite Ha in Hv; by destruct x|done].
  destruct Hv as (Hb & Hab & He). assert (length b <> 0) as Hb0.
  { intros H0. apply nil_length_inv in H0. specialize (He H0). rewrite Ha in He. by destruct x. }
  cbn beta iota. rewrite decide_False by done. rewrite copy_range_ok by (rewrite ?length_app; lia). rewrite bind_lift, overwrite_app by done.
  assert (length (drop (length b) z) + (length got + length b) = 4 * 1024) as Hz' by (rewrite length_drop; lia). set (z' := drop (length b) z) in *. clearbody z'.
  rewrite app_assoc, slice_app_l_exact by (rewrite length_app; lia). rewrite bind_lift. rewrite Ha in Hab.
  destruct (decide (length x <= length b)) as [Hd|Hd].
  - symmetry in Hab. apply byte_cut in Hab as [Hbx Hal]; [|done]. set (b' := drop (length x) b) in *.
    assert (length b = length x + length b') as Hlb by (rewrite Hbx at 1; apply length_app).
    rewrite (host_headers_end resp (got ++ b) [] b' Hr) by (rewrite app_nil_r, Hbx, app_assoc; by rewrite Hg).
    rewrite decide_True by (rewrite length_app; lia). rewrite Hbx, app_assoc, Hg, <- app_assoc.
    rewrite slice_app_l by lia. rewrite bind_lift, drop_0, Nat.sub_0_r.
    assert (starts_with (take (length resp `min` 64) resp) (bs "HTTP/1.1 101") = true) as ->.
    { unfold starts_with in *. apply bool_decide_eq_true. apply bool_decide_eq_true in Hst. change (length (bs "HTTP/1.1 101")) with 12 in *.
      rewrite take_take. by replace (12 `min` (length resp `min` 64)) with 12 by lia. }
    rewrite (slice_seg resp b' z') by (rewrite ?length_app; lia). rewrite bind_lift. eexists. split; [done|].
    cbn [set_tls set_pending tls reader pos server_key]. rewrite Hpos. split_and!; try done. unfold coming, unread. cbn [set_tls set_pending tls pending pos].
    rewrite Hp. by rewrite ?Hpos, ?drop_0.
  - assert (x = b ++ drop (length b) x /\ map Byte (drop (length b) x) ++ al = arrivals w) as [Hxb Hal].
    { by apply byte_cut in Hab as [H1 H2]; [|lia]. }
    set (x' := drop (length b) x) in *. assert (length x = length b + length x') as Hlx by (rewrite Hxb at 1; apply length_app).
    rewrite (host_headers_end resp (got ++ b) x' [] Hr) by (rewrite app_nil_r, <- app_assoc, <- Hxb; done).
    rewrite decide_False by (rewrite length_app; lia).
    destruct (IH (got ++ b) x' z' (set_tls c w)) as (c' & E' & H1 & H2 & H3 & H4 & H5); try done.
    + by rewrite <- app_assoc, <- Hxb.
    + intros Hn. rewrite Hn in Hlx. simpl in Hlx. lia.
    + rewrite length_app. lia.
    + lia.
    + exists c'. rewrite length_app in E'. split_and!; try done. by rewrite H5.
Qed.

(** The next frame, when no silence comes first. *)
Lemma next_frame_blocking_spec fuel c f rs : listening c -> to_come c = Some f :: rs -> length (coming c) < fuel ->
  exists c', next_frame_blocking fuel c = (c', Ok f) /\ listening c' /\ to_come c' = rs /\ length (coming c') < length (coming c) /\ same_side c c'.
Proof.
  intros [Hc Hfr] Ht Hf. unfold next_frame_blocking. unfold bind at 1, on_tls. destruct (clock (tls c)) as [w now] eqn:E.
  pose proof (clock_view (tls c)) as [Ha Hw]. rewrite E in Ha, Hw. cbn [fst] in Ha, Hw.
  assert (coming (set_tls c w) = coming c) as Hcom by (unfold coming, unread; cbn; by rewrite Ha).
  destruct fuel as [|fuel]; [lia|]. cbn [blocking_loop].
  destruct (raw_loop_spec (S fuel) (set_tls c w) [] (Some f) rs) as (c' & E' & H1 & H2 & H3 & H4 & [H5 H6]); [exact Hc|apply fits_nil|by rewrite Hcom|by rewrite Hcom|by rewrite Hcom|].
  rewrite Hcom in H4. unfold next_raw_frame. rewrite (bind_ok _ _ _ _ _ E'). exists c'. split_and!; try done. split; [exact H5|]. rewrite H6. exact Hw.
Qed.

(** What a relay sends: the switch of protocols, its key and its info, then
    frames and silences. *)
Record host_script (client server : bytes) (l : list arrival) (script : list (option (FrameType * bytes))) : Prop := {
  said : exists resp nonce info blob,
    switches resp /\ length nonce = NONCE_LEN /\ length info <= 472 /\ boxed server (x25519_public client) nonce info = Some blob /\
    Forall within_limit script /\
    l = map Byte resp ++ concat (map sent_as (Some (ServerKey, MAGIC ++ x25519_public server) :: Some (ServerInfo, blob) :: script));
}.

(** Connected, with the handshake behind it. *)
Lemma connect_spec fuel host client server nonce (w : W) script :
  length client = 32 -> length server = 32 -> length nonce = NONCE_LEN ->
  host_script client server (arrivals w) script -> length (arrivals w) < fuel ->
  exists c blob, connect fuel host client (x25519_public client) nonce (client_new w) = (c, Ok tt) /\
    boxed client (x25519_public server) nonce VERSION_INFO = Some blob /\ server_key c = x25519_public server /\
    written (tls c) = written w ++ upgrade_request host ++ derp_wire ClientInfo (x25519_public client ++ blob) ++ derp_wire NotePreferred [x01] /\
    listening c /\ to_come c = map (option_map whole) script /\ length (coming c) < fuel.
Proof.
  intros Hc Hsv Hn [(resp & nonce' & info & blob' & Hresp & Hn' & Hinfo & Hbox & Hlim & Hal)] Hf.
  pose proof (x25519_public_length client Hc) as Hpc. pose proof (x25519_public_length server Hsv) as Hps.
  assert (length blob' <= 512) as Hblob.
  { destruct (boxed_ok server (x25519_public client) nonce' info Hsv Hpc Hn') as (ct & tag & _ & Hct & Htag & Hbx); [lia|].
    rewrite Hbx in Hbox. simplify_eq. rewrite !length_app. unfold NONCE_LEN in *. lia. }
  assert (length (MAGIC ++ x25519_public server) = 40) as Hm by (rewrite length_app, Hps; done).
  set (all := Some (ServerKey, MAGIC ++ x25519_public server) :: Some (ServerInfo, blob') :: script) in *.
  assert (Forall within_limit all) as Hall by (constructor; [cbn [within_limit]; rewrite Hm; done|constructor; [cbn [within_limit]; unfold MAX_FRAME_LEN; lia|done]]).
  unfold connect.
  destruct (check_write (upgrade_request host) SendingUpgrade (client_new w)) as (c1 & E1 & H1). destruct (check_flush SendingUpgrade c1) as (c2 & E2 & H2).
  pose proof (sent_trans _ _ _ _ _ H1 H2) as (Hrd2 & Hp2 & Hpos2 & Hk2 & Ha2 & Hw2).
  destruct (upgrade_loop_spec fuel resp [] resp (zeros (4 * 1024)) (concat (map sent_as all)) c2) as (c3 & E3 & Hrd3 & Hpos3 & Hk3 & Hcom3 & Hw3);
    [done|done|intros H0; destruct Hresp as [[H12 _] _]; rewrite H0 in H12; simpl in H12; lia|by rewrite length_zeros|done|done|by rewrite Ha2|rewrite Hal, length_app, length_map in Hf; lia|].
  assert (upgrade fuel host (client_new w) = (c3, Ok tt)) as Eup.
  { unfold upgrade. rewrite (bind_ok _ _ _ _ _ E1), (bind_ok _ _ _ _ _ E2). exact E3. }
  rewrite (bind_ok _ _ _ _ _ Eup). clear Eup E1 E2 E3.
  assert (derp_at (reader c3) = between) as Hat3 by (by rewrite Hrd3, Hrd2). 
  assert (listening c3 /\ to_come c3 = map (option_map whole) all /\ length (coming c3) < fuel) as (Hl3 & Ht3 & Hlen3).
  { unfold listening, to_come, client_ok. rewrite Hat3, Hcom3, Hrd3, Hrd2, Hpos3. split; [|split].
    - split; [split; [exact new_ok|lia]|]. rewrite <- (app_nil_r (concat _)). apply framed_script; [done|]. by eexists between, [].
    - rewrite <- (app_nil_r (concat _)), hear_script by done. apply app_nil_r.
    - rewrite Hal, length_app in Hf. lia. }
  cbn [all map option_map] in Ht3.
  destruct (next_frame_blocking_spec fuel c3 _ _ Hl3 Ht3 Hlen3) as (c4 & E4 & Hl4 & Ht4 & Hlen4 & Hk4 & Hw4).
  unfold whole in E4. cbn [fst snd is_control] in E4. rewrite take_ge in E4 by (unfold CONTROL_FRAME_MAX; lia).
  assert (read_server_key fuel c3 = (c4, Ok (x25519_public server))) as Ekey.
  { unfold read_server_key. rewrite (bind_ok _ _ _ _ _ E4). rewrite decide_True by done. unfold lift, parse_server_key. rewrite Hm, decide_False by (unfold KEY_LEN; simpl; lia).
    rewrite starts_with_app. rewrite slice_ok by (rewrite ?length_app, ?Hps; unfold KEY_LEN; lia). rewrite drop_app_length. unfold KEY_LEN. by rewrite take_ge by lia. }
  rewrite (bind_ok _ _ _ _ _ Ekey). rewrite bind_modify. set (c5 := set_server_key c4 (x25519_public server)).
  destruct (client_info_accepted client server nonce (zeros 256) Hc Hsv Hn) as (blob & blob2 & Eci & Hblob2 & _); [rewrite length_zeros; lia|].
  assert (length blob = 53) as Hlb.
  { destruct (boxed_ok client (x25519_public server) nonce VERSION_INFO Hc Hps Hn) as (ct & tag & _ & Hct & Htag & Hbx); [done|].
    assert (blob = nonce ++ tag ++ ct) as -> by congruence. rewrite !length_app, Hct, Htag. unfold NONCE_LEN in *. change (length VERSION_INFO) with 13. lia. }
  destruct (host_write_frame ClientInfo (x25519_public client ++ blob) c5) as (c6 & E6 & H6); [rewrite length_app; lia|].
  assert (send_client_info client (x25519_public client) nonce c5 = (c6, Ok tt)) as Eci5.
  { unfold send_client_info. rewrite bind_get. cbn [c5 set_server_key server_key]. rewrite Eci. cbn [map_err]. rewrite bind_lift.
    rewrite app_assoc, slice_app_l_exact by (rewrite length_app; lia). rewrite bind_lift. exact E6. }
  rewrite (bind_ok _ _ _ _ _ Eci5). clear Eci Eci5 E6. pose proof H6 as (Hrd6 & Hp6 & Hpos6 & Hk6 & Ha6 & Hw6).
  destruct (sent_listening _ _ _ H6 Hl4) as (Hl6 & Ht6 & Hlen6). change (to_come c5) with (to_come c4) in Ht6. change (coming c5) with (coming c4) in Hlen6. rewrite Ht4 in Ht6.
  destruct (next_frame_blocking_spec fuel c6 _ _ Hl6 Ht6 ltac:(lia)) as (c7 & E7 & Hl7 & Ht7 & Hlen7 & Hk7 & Hw7).
  unfold whole in E7. cbn [fst snd is_control] in E7. rewrite take_ge in E7 by (unfold CONTROL_FRAME_MAX; lia).
  destruct (open_boxed server client nonce' info blob' Hsv Hc Hn') as (r & Hopen); [lia|done|].
  assert (server_key c7 = x25519_public server) as Hkey by (rewrite Hk7, Hk6; done).
  assert (read_server_info fuel client c6 = (c7, Ok info)) as Einfo.
  { unfold read_server_info. rewrite (bind_ok _ _ _ _ _ E7). rewrite decide_True by done. rewrite bind_get, Hkey, Hopen. done. }
  rewrite (bind_ok _ _ _ _ _ Einfo). destruct (host_write_frame NotePreferred [x01] c7) as (c8 & E8 & H8); [done|].
  destruct (sent_listening _ _ _ H8 Hl7) as (Hl8 & Ht8 & Hlen8). destruct H8 as (_ & _ & _ & Hk8 & _ & Hw8).
  exists c8, blob. split; [exact E8|]. split; [done|]. split; [congruence|]. split_and!; [|done|congruence|lia].
  rewrite Hw8, Hw7, Hw6. change (written (tls c5)) with (written (tls c4)). rewrite Hw4, Hw3, Hw2. cbn [client_new tls]. by rewrite app_nil_r, <- !app_assoc.
Qed.

(** C35. A session of the host over a connection that does not fail. If the relay
    switches protocols, sends its key and an info sealed for us and then frames
    with silences between them, cut into reads in any way, [connect] succeeds
    with the relay's key, having written the upgrade, our sealed info and a note
    of preference; then each call of [next_event] gives the next frame as an
    event, a silence as no event, in order, and the end of the stream as an
    error. *)
Theorem host_session fuel host client server nonce (w : W) script :
  length client = 32 -> length server = 32 -> length nonce = NONCE_LEN ->
  host_script client server (arrivals w) script -> length (arrivals w) < fuel ->
  exists c blob c' c'', connect fuel host client (x25519_public client) nonce (client_new w) = (c, Ok tt) /\
    boxed client (x25519_public server) nonce VERSION_INFO = Some blob /\ server_key c = x25519_public server /\
    written (tls c) = written w ++ upgrade_request host ++ derp_wire ClientInfo (x25519_public client ++ blob) ++ derp_wire NotePreferred [x01] /\
    listen (length script) fuel c = (c', Ok (map (option_map (fun f => event (whole f))) script)) /\
    next_event fuel c' = (c'', Err Closed).
Proof.
  intros Hc Hsv Hn Hs Hf. destruct (connect_spec fuel host client server nonce w script Hc Hsv Hn Hs Hf) as (c & blob & E & Hb & Hk & Hw & Hl & Ht & Hlen).
  destruct (listen_spec fuel c (map (option_map whole) script) [] Hl) as (c1 & E1 & [Hc1 Hfr1] & Ht1 & Hle & _); [by rewrite app_nil_r|done|].
  rewrite length_map, map_map in E1. destruct (raw_loop_end fuel c1 [] Hc1 (fits_nil _) Hfr1 Ht1) as (c2 & E2); [lia|].
  exists c, blob, c1, c2. split_and!; try done.
  - rewrite E1. do 2 f_equal. apply map_ext. by intros [[k p]|].
  - unfold next_event, next_raw_frame. by rewrite (bind_err _ _ _ _ _ E2).
Qed.
End Connecting.

(** *** An example: a session that gives at most seven bytes a read. *)
#[local] Existing Instances Toy.toy Toy.toy_laws.

Definition session : Type := list arrival * bytes.
Fixpoint some_arrivals (n : nat) (l : list arrival) : bytes * list arrival :=
  match n, l with
  | S n, Byte b :: l => let (bs, l) := some_arrivals n l in (b :: bs, l)
  | _, _ => ([], l)
  end.
#[export] Instance session_link : HostLink session := {
  tls_read s n := match s.1 with
                  | Quiet :: l => ((l, s.2), TimedOutRead)
                  | l => let (b, l) := some_arrivals (n `min` 7) l in ((l, s.2), Got b)
                  end;
  tls_write_all s b := ((s.1, s.2 ++ b), true);
  tls_flush s := (s, true);
  clock s := (s, 0%Z);
}.

Lemma some_arrivals_spec n l : let (b, l') := some_arrivals n l in length b <= n /\ l = map Byte b ++ l' /\ (0 < n -> b = [] -> match l with Byte _ :: _ => False | _ => True end).
Proof.
  revert l. induction n as [|n IH]; intros l; cbn [some_arrivals]; [split_and!; (done || lia)|].
  destruct l as [|[b|] l]; [split_and!; (done || (cbn; lia))| |split_and!; (done || (cbn; lia))].
  specialize (IH l). destruct (some_arrivals n l) as [bs l']. destruct IH as (Hl & -> & _). split_and!; [simpl; lia|done|done].
Qed.

#[export] Instance session_view : HostLinkView session.
Proof.
  refine {| arrivals := fst; written := snd |}.
  - intros [l o] n w' r E Hn. cbn [tls_read session_link fst snd] in E.
    pose proof (some_arrivals_spec (n `min` 7) l) as Hs. destruct l as [|[b|] l]; [| |by injection E as <- <-].
    all: destruct (some_arrivals (n `min` 7) _) as [bs l']; injection E as <- <-; destruct Hs as (Hl & He & H0); cbn [fst snd].
    all: split; [|done]; split; [lia|]; split; [done|]; intros ->; specialize (H0 ltac:(lia) eq_refl); done.
  - by intros w b w' [= <-].
  - by intros w w' [= <-].
  - done.
Defined.
#[export] Instance session_up : HostLinkUp session.
Proof.
  split; [|by eexists|by eexists]. intros [[|[b|] l] o] n; cbn [tls_read session_link fst]; try discriminate; by destruct (some_arrivals _ _).
Qed.

Definition example_client : bytes := replicate 32 x01.
Definition example_server : bytes := replicate 32 x02.
Definition example_script : list (option (FrameType * bytes)) :=
  [None; Some (RecvPacket, replicate 32 x09 ++ bs "hello"); None; Some (KeepAlive, []); Some (PeerGone, bs "x")].
Definition example_arrivals : list arrival :=
  map Byte (bs "HTTP/1.1 101 Switching Protocols" ++ [x0d; x0a; x0d; x0a]) ++
  concat (map sent_as (Some (ServerKey, MAGIC ++ x25519_public example_server) ::
    Some (ServerInfo, default [] (boxed example_server (x25519_public example_client) (replicate 24 x07) (bs "{}"))) :: example_script)).

Lemma example_said : host_script example_client example_server example_arrivals example_script.
Proof.
  constructor. eexists _, (replicate 24 x07), (bs "{}"), _. split_and!; [| | | | |reflexivity].
  - split; [split; apply Nat.leb_le; vm_compute; reflexivity|split; vm_compute; reflexivity].
  - reflexivity.
  - cbn. lia.
  - vm_compute. reflexivity.
  - repeat (constructor; [vm_compute; (exact I || discriminate)|]). constructor.
Qed.

Lemma host_session_witness :
  exists c blob c' c'', connect 600 (bs "derp") example_client (x25519_public example_client) (replicate 24 x03) (client_new (example_arrivals, [])) = (c, Ok tt) /\
    boxed example_client (x25519_public example_server) (replicate 24 x03) VERSION_INFO = Some blob /\ server_key c = x25519_public example_server /\
    written (tls c) = written ((example_arrivals, []) : session) ++ upgrade_request (bs "derp") ++ derp_wire ClientInfo (x25519_public example_client ++ blob) ++ derp_wire NotePreferred [x01] /\
    listen (length example_script) 600 c = (c', Ok (map (option_map (fun f => event (whole f))) example_script)) /\
    next_event 600 c' = (c'', Err Closed).
Proof.
  apply (host_session (HL:=session_link) (HV:=session_view) (HU:=session_up) 600 (bs "derp") example_client example_server (replicate 24 x03) (example_arrivals, []) example_script);
    [reflexivity|reflexivity|reflexivity|exact example_said|apply Nat.ltb_lt; vm_compute; reflexivity].
Defined.

(** What the caller makes of it. *)
Example example_events : map (option_map (fun f => event (whole f))) example_script =
  [None; Some (Packet (replicate 32 x09) (bs "hello")); None; Some EvKeepAlive; Some (Other PeerGone)].
Proof. reflexivity. Qed.

(** A packet of a peer, forty bytes of it late: its end passes for a packet of
    another sender. *)
Lemma tick_tears_packet_witness :
  let a := replicate 32 x09 ++ bs "he" in let b := replicate 40 x6c in
  let c := client_new ((map Byte (take (HEADER_LEN + length a) (derp_wire RecvPacket (a ++ b))) ++ Quiet :: map Byte b ++ [], []) : session) in
  exists c', listen 2 200 c = (c', Ok [None; Some (Packet (replicate 32 x6c) (replicate 8 x6c))]) /\ client_ok c' /\ to_come c' = [].
Proof.
  intros a b c. refine (tick_tears_packet (HL:=session_link) (HV:=session_view) (HU:=session_up) 200 c RecvPacket a b [] _ _ _ _ _ _ _ _ _).
  - split; [exact new_ok|vm_compute; lia].
  - reflexivity.
  - reflexivity.
  - discriminate.
  - discriminate.
  - vm_compute. discriminate.
  - reflexivity.
  - exists between, []. reflexivity.
  - apply Nat.ltb_lt. vm_compute. reflexivity.
Defined.
