(* ===== verification/HostState.v ===== *)
(** The identity of the host and its file: [lando-host/src/state.rs].

    The file system is third-party code: a value [F] with the two operations
    used. Text is the bytes of a Rust string, valid UTF-8. *)
From S2P Require Import Prelude Keys.

Inductive Error := Missing (name : bytes) | NotHex64 (name : bytes) | BadHexIn (name : bytes) | WriteFailed.

(** [std::fs::read_to_string(path)] and [std::fs::write(path, body)]; where the
    write fails, what it leaves is up to [F]. *)
Class FileOps (F : Type) := {
  read_to_string : F -> option bytes;
  write_file : F -> bytes -> F * bool;
}.

Record State := { machine_key : private Machine; node_key : private Node; disco_key : private Disco }.

(** [str::lines] *)
Definition strip_cr (l : bytes) : bytes :=
  match rev l with b :: r => if decide (b = x0d) then rev r else l | [] => [] end.
Fixpoint lines_from (cur l : bytes) : list bytes :=
  match l with
  | [] => match cur with [] => [] | _ => [cur] end
  | b :: l => if decide (b = x0a) then strip_cr cur :: lines_from [] l else lines_from (cur ++ [b]) l
  end.
Definition lines (l : bytes) : list bytes := lines_from [] l.

(** [char::is_whitespace], on the encodings of the characters that are: the
    length of the one in front. *)
Definition spaces : list bytes :=
  [[x09]; [x0a]; [x0b]; [x0c]; [x0d]; [x20]; [xc2; x85]; [xc2; xa0]; [xe1; x9a; x80];
   [xe2; x80; x80]; [xe2; x80; x81]; [xe2; x80; x82]; [xe2; x80; x83]; [xe2; x80; x84]; [xe2; x80; x85]; [xe2; x80; x86];
   [xe2; x80; x87]; [xe2; x80; x88]; [xe2; x80; x89]; [xe2; x80; x8a]; [xe2; x80; xa8]; [xe2; x80; xa9]; [xe2; x80; xaf];
   [xe2; x81; x9f]; [xe3; x80; x80]].
Fixpoint drop_first (pats : list bytes) (l : bytes) : option bytes :=
  match pats with
  | [] => None
  | p :: pats => match strip_prefix l p with Some r => Some r | None => drop_first pats l end
  end.
Fixpoint drop_all (fuel : nat) (pats : list bytes) (l : bytes) : bytes :=
  match fuel with
  | O => l
  | S fuel => match drop_first pats l with Some r => drop_all fuel pats r | None => l end
  end.
(** [str::trim] *)
Definition trim_start (l : bytes) : bytes := drop_all (length l) spaces l.
Definition trim_end (l : bytes) : bytes := rev (drop_all (length l) (map (@rev byte) spaces) (rev l)).
Definition trim (l : bytes) : bytes := trim_end (trim_start l).

(** [digit] *)
Definition digit (c : byte) : option byte :=
  if decide (48 <= bz c <= 57)%Z then Some (zb (bz c - 48))
  else if decide (97 <= bz c <= 102)%Z then Some (zb (bz c - 97 + 10))
  else if decide (65 <= bz c <= 70)%Z then Some (zb (bz c - 65 + 10))
  else None.

(** The loop of [field]. *)
Fixpoint field_loop (name : bytes) (cs : list bytes) (i : nat) (out : bytes) : outcome Error bytes :=
  match cs with
  | [] => Ok out
  | c :: cs =>
      let? c0 := index c 0 in
      let? hi := ok_or (digit c0) (BadHexIn name) in
      let? c1 := index c 1 in
      let? lo := ok_or (digit c1) (BadHexIn name) in
      let? out := set_at out i (bor (bshl hi 4) lo) in
      field_loop name cs (S i) out
  end.

(** [text.lines().find_map(|l| l.strip_prefix(name).map(str::trim))] *)
Fixpoint find_line (name : bytes) (ls : list bytes) : option bytes :=
  match ls with
  | [] => None
  | l :: ls => match strip_prefix l name with Some r => Some (trim r) | None => find_line name ls end
  end.

(** [field] *)
Definition field (text name : bytes) : outcome Error bytes :=
  let? line := ok_or (find_line name (lines text)) (Missing name) in
  if decide (length line <> 64) then Err (NotHex64 name)
  else field_loop name (chunks_exact 2 line) 0 (zeros 32).

(** [hex], [format!("{b:02x}")] for each byte *)
Definition hex_byte (b : byte) : bytes :=
  [default x00 (HEX !! Z.to_nat (bz (bshr b 4))); default x00 (HEX !! Z.to_nat (bz (band b x0f)))].
Definition hex (l : bytes) : bytes := concat (map hex_byte l).

(** The text of [save]. *)
Definition state_text (s : State) : bytes :=
  bs "machine " ++ hex (priv_bytes (machine_key s)) ++ [x0a] ++ bs "node " ++ hex (priv_bytes (node_key s)) ++ [x0a] ++
  bs "disco " ++ hex (priv_bytes (disco_key s)) ++ [x0a].

Section Files.
Context {F : Type} `{FileOps F}.

(** [save]; [restrict] changes nothing that is read here. *)
Definition save (s : State) (fs : F) : F * outcome Error unit :=
  let (fs, ok) := write_file fs (state_text s) in
  (fs, if (ok : bool) then Ok tt else Err WriteFailed).

(** [load_or_create], drawing keys from [rng]: whether the identity is new. *)
Definition load_or_create (fs : F) (rng : bytes) : F * outcome Error (State * bool) :=
  match read_to_string fs with
  | Some text =>
      match (let? machine := field text (bs "machine") in let? node := field text (bs "node") in Ok (machine, node)) with
      | Ok (machine, node) =>
          match field text (bs "disco") with
          | (Ok _ | Err _) as d =>
              let disco := match d with Ok d => Private d | _ => (generate rng).1 end in
              let s := {| machine_key := Private machine; node_key := Private node; disco_key := disco |} in
              let (fs, r) := save s fs in (fs, let? _ := r in Ok (s, false))
          | Panic => (fs, Panic)
          | NoFuel => (fs, NoFuel)
          end
      | Err e => (fs, Err e)
      | Panic => (fs, Panic)
      | NoFuel => (fs, NoFuel)
      end
  | None =>
      let (machine, rng) := generate rng in
      let (node, rng) := generate rng in
      let (disco, rng) := generate rng in
      let s := {| machine_key := machine; node_key := node; disco_key := disco |} in
      let (fs, r) := save s fs in (fs, let? _ := r in Ok (s, true))
  end.
End Files.

(** A file system that keeps what is written. *)
Class FileView (F : Type) `{FileOps F} := {
  write_reads fs b fs' : write_file fs b = (fs', true) -> read_to_string fs' = Some b;
  write_up fs b : exists fs', write_file fs b = (fs', true);
}.

Definition state_ok (s : State) : Prop := priv_ok (machine_key s) /\ priv_ok (node_key s) /\ priv_ok (disco_key s).

(** ** Proofs *)

Lemma lines_line cur a l : x0a ∉ a -> lines_from cur (a ++ x0a :: l) = strip_cr (cur ++ a) :: lines_from [] l.
Proof.
  revert cur. induction a as [|b a IH]; intros cur Ha; cbn [app lines_from].
  - by rewrite decide_True, app_nil_r by done.
  - rewrite decide_False by (intros ->; apply Ha; left). rewrite IH by (intros ?; apply Ha; by right). by rewrite <- app_assoc.
Qed.

(** Characters of a hex text. *)
Definition plain (b : byte) : bool := bool_decide (48 <= bz b <= 57)%Z || bool_decide (97 <= bz b <= 102)%Z.

Lemma hex_byte_plain b : Forall (fun c => plain c = true) (hex_byte b).
Proof. destruct b; repeat constructor. Qed.
Lemma hex_plain l : Forall (fun c => plain c = true) (hex l).
Proof. unfold hex. induction l as [|b l IH]; [constructor|]. cbn [map concat]. apply Forall_app. split; [apply hex_byte_plain|done]. Qed.
Lemma hex_length l : length (hex l) = 2 * length l.
Proof. unfold hex. induction l as [|b l IH]; simpl; [done|]. rewrite IH. lia. Qed.
Lemma plain_no_newline l : Forall (fun c => plain c = true) l -> x0a ∉ l.
Proof. intros H Hin. rewrite Forall_forall in H. apply list_elem_of_In in Hin. by specialize (H _ Hin). Qed.

Lemma drop_first_plain b l : plain b = true -> drop_first spaces (b :: l) = None /\ drop_first (map (@rev byte) spaces) (b :: l) = None.
Proof. destruct b; try discriminate; intros _; split; reflexivity. Qed.
Lemma drop_all_plain b l n : plain b = true -> drop_all n spaces (b :: l) = b :: l /\ drop_all n (map (@rev byte) spaces) (b :: l) = b :: l.
Proof. intros Hb. destruct (drop_first_plain b l Hb) as [H1 H2]. destruct n; [done|]. cbn [drop_all]. by rewrite H1, H2. Qed.

Lemma trim_plain l : l <> [] -> Forall (fun c => plain c = true) l -> trim (x20 :: l) = l /\ trim l = l.
Proof.
  intros Hne Hl. assert (trim_end l = l) as He.
  { unfold trim_end. apply Forall_rev in Hl. destruct (rev l) as [|c r] eqn:E; [by apply (f_equal (@rev byte)) in E; rewrite rev_involutive in E|].
    apply List.Forall_cons_iff in Hl as [Hc _]. rewrite (proj2 (drop_all_plain c r _ Hc)), <- E. apply rev_involutive. }
  assert (trim_start l = l /\ trim_start (x20 :: l) = l) as [H1 H2].
  { destruct l as [|c r]; [done|]. apply List.Forall_cons_iff in Hl as [Hc _]. unfold trim_start. split; [exact (proj1 (drop_all_plain c r (S (length r)) Hc))|].
    cbn [length drop_all]. change (drop_first spaces (x20 :: c :: r)) with (Some (c :: r)). cbv iota. exact (proj1 (drop_all_plain c r (S (length r)) Hc)). }
  unfold trim. by rewrite H1, H2.
Qed.

Lemma digit_nibble c b : nibble c = Ok b -> digit c = Some b.
Proof. unfold nibble, digit. repeat case_decide; congruence. Qed.

Lemma field_loop_hex name l i pre suf : length pre = i -> length suf = length l ->
  field_loop name (chunks_exact 2 (hex l)) i (pre ++ suf) = Ok (pre ++ l).
Proof.
  revert i pre suf. induction l as [|b l IH]; intros i pre suf Hp Hs; [by destruct suf|].
  destruct suf as [|x suf]; [done|]. change (hex (b :: l)) with (hex_byte b ++ hex l). unfold hex_byte. simpl app.
  rewrite chunks_exact_cons2. cbn [field_loop]. destruct (hex_digit_nibbles b) as (hi & lo & H1%digit_nibble & H2%digit_nibble & H3).
  rewrite (index_ok _ 0 (default x00 (HEX !! Z.to_nat (bz (bshr b 4))))) by done. cbn [obind]. rewrite H1. cbn [ok_or obind].
  rewrite (index_ok _ 1 (default x00 (HEX !! Z.to_nat (bz (band b x0f))))) by done. cbn [obind]. rewrite H2. cbn [ok_or obind].
  rewrite set_at_seg by done. cbn [obind]. rewrite H3, (cons_middle b pre suf), (cons_middle b pre l), !app_assoc.
  simpl in Hs. apply IH; len.
Qed.

(** A line of a key, and a field read from it. *)
Lemma field_of_line name text key : length key = 32 -> find_line name (lines text) = Some (hex key) -> field text name = Ok key.
Proof.
  intros Hk Hl. unfold field. rewrite Hl. cbn [ok_or obind]. rewrite decide_False by (rewrite hex_length; lia).
  pose proof (field_loop_hex name key 0 [] (zeros 32) eq_refl) as E. rewrite !app_nil_l in E. apply E. by rewrite length_zeros.
Qed.

Lemma strip_cr_plain p l : l <> [] -> Forall (fun c => plain c = true) l -> strip_cr (p ++ l) = p ++ l.
Proof.
  intros Hne Hl. unfold strip_cr. rewrite rev_app_distr. apply Forall_rev in Hl. destruct (rev l) as [|c r] eqn:E.
  - by apply (f_equal (@rev byte)) in E; rewrite rev_involutive in E.
  - apply List.Forall_cons_iff in Hl as [Hc _]. cbn [app]. rewrite decide_False; [done|]. by intros ->.
Qed.

Lemma key_line cur name key l : length key = 32 -> x0a ∉ name ->
  lines_from cur (name ++ hex key ++ x0a :: l) = (cur ++ name ++ hex key) :: lines_from [] l.
Proof.
  intros Hk Hn. rewrite app_assoc, lines_line.
  - rewrite app_assoc, strip_cr_plain, <- app_assoc; [done| |apply hex_plain]. intros H0. apply (f_equal length) in H0. rewrite hex_length in H0. simpl in H0. lia.
  - rewrite elem_of_app. intros [?|Hin]; [done|]. by apply (plain_no_newline _ (hex_plain key)) in Hin.
Qed.

Lemma hex_nonempty key : length key = 32 -> hex key <> [].
Proof. intros Hk H0. apply (f_equal length) in H0. rewrite hex_length in H0. simpl in H0. lia. Qed.

Lemma hex_trim key : length key = 32 -> trim (x20 :: hex key) = hex key.
Proof. intros Hk. apply (trim_plain (hex key)); [by apply hex_nonempty|apply hex_plain]. Qed.

(** The text with the fields given, and perhaps more after them. *)
Definition two_lines (machine node more : bytes) : bytes :=
  bs "machine " ++ hex machine ++ [x0a] ++ bs "node " ++ hex node ++ [x0a] ++ more.

Lemma two_lines_fields machine node more : length machine = 32 -> length node = 32 ->
  field (two_lines machine node more) (bs "machine") = Ok machine /\ field (two_lines machine node more) (bs "node") = Ok node /\
  find_line (bs "disco") (lines (two_lines machine node more)) = find_line (bs "disco") (lines more).
Proof.
  intros Hm Hn. assert (lines (two_lines machine node more) = (bs "machine " ++ hex machine) :: (bs "node " ++ hex node) :: lines more) as Hl.
  { unfold lines, two_lines. change ([x0a] ++ bs "node " ++ hex node ++ [x0a] ++ more) with (x0a :: (bs "node " ++ hex node ++ x0a :: more)).
    rewrite key_line by (done || (apply (proj1 (bool_decide_eq_true _)); reflexivity)). rewrite key_line by (done || (apply (proj1 (bool_decide_eq_true _)); reflexivity)). done. }
  split_and!.
  - apply field_of_line; [done|]. rewrite Hl. cbn [find_line]. change (strip_prefix (bs "machine " ++ hex machine) (bs "machine")) with (Some (x20 :: hex machine)).
    cbv iota. by rewrite hex_trim.
  - apply field_of_line; [done|]. rewrite Hl. cbn [find_line]. change (strip_prefix (bs "machine " ++ hex machine) (bs "node")) with (@None bytes).
    change (strip_prefix (bs "node " ++ hex node) (bs "node")) with (Some (x20 :: hex node)). cbv iota. by rewrite hex_trim.
  - rewrite Hl. reflexivity.
Qed.

Lemma saved_fields s : state_ok s ->
  state_text s = two_lines (priv_bytes (machine_key s)) (priv_bytes (node_key s)) (bs "disco " ++ hex (priv_bytes (disco_key s)) ++ [x0a]) /\
  field (state_text s) (bs "disco") = Ok (priv_bytes (disco_key s)).
Proof.
  intros (Hm & Hn & Hd). split; [done|]. apply field_of_line; [exact Hd|]. change (state_text s) with (two_lines (priv_bytes (machine_key s)) (priv_bytes (node_key s)) (bs "disco " ++ hex (priv_bytes (disco_key s)) ++ [x0a])).
  destruct (two_lines_fields (priv_bytes (machine_key s)) (priv_bytes (node_key s)) (bs "disco " ++ hex (priv_bytes (disco_key s)) ++ [x0a]) Hm Hn) as (_ & _ & ->).
  unfold lines. change ([x0a]) with (x0a :: []). rewrite key_line by (done || (apply (proj1 (bool_decide_eq_true _)); reflexivity)). cbn [find_line].
  change (strip_prefix ([] ++ bs "disco " ++ hex (priv_bytes (disco_key s))) (bs "disco")) with (Some (x20 :: hex (priv_bytes (disco_key s)))).
  cbv iota. by rewrite hex_trim.
Qed.

Section Roundtrip.
Context {F : Type} `{FO : FileOps F, FV : !FileView F}.

Lemma state_save_spec s fs : exists fs', save s fs = (fs', Ok tt) /\ read_to_string fs' = Some (state_text s).
Proof. unfold save. destruct (write_up fs (state_text s)) as [fs' E]. exists fs'. rewrite E. split; [done|]. by apply (write_reads fs). Qed.

Lemma load_saved s fs rng : state_ok s -> read_to_string fs = Some (state_text s) ->
  exists fs', load_or_create fs rng = (fs', Ok (s, false)) /\ read_to_string fs' = Some (state_text s).
Proof.
  intros Hs Hr. pose proof Hs as (Hm & Hn & Hd). destruct (saved_fields s Hs) as [Ht Hdisco].
  destruct (two_lines_fields (priv_bytes (machine_key s)) (priv_bytes (node_key s)) (bs "disco " ++ hex (priv_bytes (disco_key s)) ++ [x0a]) Hm Hn) as (Hf1 & Hf2 & _).
  rewrite <- Ht in Hf1, Hf2. unfold load_or_create. rewrite Hr, Hf1, Hf2. cbn [obind]. rewrite Hdisco.
  assert ({| machine_key := Private (priv_bytes (machine_key s)); node_key := Private (priv_bytes (node_key s)); disco_key := Private (priv_bytes (disco_key s)) |} = s) as ->
    by (by destruct s as [[] [] []]).
  destruct (state_save_spec s fs) as (fs' & -> & Hr'). by exists fs'.
Qed.

(** An identity is kept. Without a readable file, [load_or_create] makes a
    new identity and saves it; a file with the machine and the node key but no
    disco key keeps both and gets a disco key. Either way every later call gives
    the same three keys and leaves the same text. *)
Theorem identity_kept fs rng :
  96 <= length rng ->
  (read_to_string fs = None -> exists s fs', load_or_create fs rng = (fs', Ok (s, true)) /\ state_ok s /\
     forall rng', exists fs'', load_or_create fs' rng' = (fs'', Ok (s, false)) /\ read_to_string fs'' = read_to_string fs') /\
  (forall machine node more, length machine = 32 -> length node = 32 -> read_to_string fs = Some (two_lines machine node more) ->
     (find_line (bs "disco") (lines more) = None) ->
     exists s fs', load_or_create fs rng = (fs', Ok (s, false)) /\ state_ok s /\
       machine_key s = Private machine /\ node_key s = Private node /\
       forall rng', exists fs'', load_or_create fs' rng' = (fs'', Ok (s, false)) /\ read_to_string fs'' = read_to_string fs').
Proof.
  intros Hrng. split.
  - intros Hr. unfold load_or_create at 1. rewrite Hr. unfold generate. cbn [fst].
    set (s := {| machine_key := _; node_key := _; disco_key := _ |}).
    assert (state_ok s) as Hs by (unfold state_ok, priv_ok, Keys.KEY_LEN; cbn; rewrite !length_take, !length_drop; lia).
    destruct (state_save_spec s fs) as (fs' & -> & Hr'). exists s, fs'. split_and!; try done. intros rng'. rewrite Hr'. by apply load_saved.
  - intros machine node more Hm Hn Hr Hd. unfold load_or_create at 1. rewrite Hr.
    destruct (two_lines_fields machine node more Hm Hn) as (-> & -> & Hd2). cbn [obind].
    assert (field (two_lines machine node more) (bs "disco") = Err (Missing (bs "disco"))) as -> by (unfold field; by rewrite Hd2, Hd).
    set (s := {| machine_key := _; node_key := _; disco_key := _ |}).
    assert (state_ok s) as Hs by (unfold state_ok, priv_ok, Keys.KEY_LEN; cbn; rewrite !length_take; lia).
    destruct (state_save_spec s fs) as (fs' & -> & Hr'). exists s, fs'. split_and!; try done. intros rng'. rewrite Hr'. by apply load_saved.
Qed.

(** A file that does not say both keys is left as it is. *)
Lemma malformed_untouched fs rng text : read_to_string fs = Some text ->
  is_ok (field text (bs "machine")) = false \/ is_ok (field text (bs "node")) = false ->
  (load_or_create fs rng).1 = fs /\ is_ok (load_or_create fs rng).2 = false.
Proof.
  intros Hr Hf. unfold load_or_create. rewrite Hr. destruct (field text (bs "machine")); cbn [obind]; [|done..].
  destruct Hf as [|Hf]; [done|]. by destruct (field text (bs "node")).
Qed.
End Roundtrip.

(** *** An example: a file in memory. *)
#[export] Instance memory_file : FileOps (option bytes) := { read_to_string fs := fs; write_file _ b := (Some b, true) }.
#[export] Instance memory_view : FileView (option bytes).
Proof. split; [by intros fs b fs' [= <-]|by eexists]. Defined.

Lemma identity_kept_witness :
  exists s fs', load_or_create (Some (two_lines (replicate 32 x01) (replicate 32 xfe) [])) (zeros 96) = (fs', Ok (s, false)) /\ state_ok s /\
    machine_key s = Private (replicate 32 x01) /\ node_key s = Private (replicate 32 xfe) /\
    forall rng', exists fs'', load_or_create fs' rng' = (fs'', Ok (s, false)) /\ read_to_string fs'' = read_to_string fs'.
Proof.
  refine (proj2 (identity_kept (Some (two_lines (replicate 32 x01) (replicate 32 xfe) [])) (zeros 96) _) (replicate 32 x01) (replicate 32 xfe) [] _ _ _ _);
    [rewrite length_zeros; lia|reflexivity..].
Defined.
