(* ===== verification/HostTunnel.v ===== *)
(** The TCP stack inside the tunnel of the host, and the proxy on it:
    [lando-host/src/tunnel.rs].

    The sockets of the stack are in [Smoltcp]; its interface is [Iface], the TCP
    streams and the name lookup of the operating system are [Lan]. What is
    relied on is stated further down. *)
From S2P Require Import Prelude StateError Utf8 Smoltcp.

Definition TUNNEL_MTU : nat := 1280.
Definition TCP_BUFFER : nat := 8 * 1024.

(** ** The device *)

Record TunnelDevice := { inbound : list bytes; outbound : list bytes }.

Definition device_default : TunnelDevice := {| inbound := []; outbound := [] |}.
Definition push_inbound (self : TunnelDevice) (packet : bytes) : TunnelDevice :=
  {| inbound := inbound self ++ [packet]; outbound := outbound self |}.
Definition pop_outbound (self : TunnelDevice) : TunnelDevice * option bytes :=
  match outbound self with
  | [] => (self, None)
  | p :: rest => ({| inbound := inbound self; outbound := rest |}, Some p)
  end.

(** [receive], with what its [RxToken] shows. *)
Definition receive (self : TunnelDevice) : TunnelDevice * option bytes :=
  match inbound self with
  | [] => (self, None)
  | p :: rest => ({| inbound := rest; outbound := outbound self |}, Some p)
  end.

(** [transmit] and [consume] of its [TxToken]: [f] fills a packet of [len] bytes. *)
Definition transmit (self : TunnelDevice) (len : nat) (f : bytes -> bytes) : TunnelDevice :=
  {| inbound := inbound self; outbound := outbound self ++ [f (zeros len)] |}.

(** ** Addresses *)

(** [std::net::SocketAddr] *)
Inductive SocketAddr := V4 (ip : bytes) (port : Z) | V6 (ip : bytes) (port : Z).

Inductive Target := Socks | Forward (addr : SocketAddr).

(** ** What the stack is built on *)

(** [smoltcp::iface]: the interface, with the set of its sockets. *)
Class Iface (I SS H K : Type) := {
  sockets_of :: SocketSet SS H K;
  iface_new : bytes -> I;
  iface_poll : I -> Z -> TunnelDevice -> SS -> I * TunnelDevice * SS;
}.

(** The streams of the operating system, set not to block, so that a read or a
    write of a stream can also say [WouldBlock]. *)
Inductive io (A : Type) := Done (a : A) | WouldBlock | IoFailed.
Arguments Done {A}.
Arguments WouldBlock {A}.
Arguments IoFailed {A}.
Class Lan (N X : Type) := {
  stream_connect : N -> SocketAddr -> N * option X;
  stream_write : N -> X -> bytes -> N * io nat;
  stream_read : N -> X -> nat -> N * io bytes;
  to_socket_addrs : N -> bytes -> Z -> N * option SocketAddr;
}.

Inductive Conn (X : Type) := Greeting | Request | Relaying (stream : X).
Arguments Greeting {X}.
Arguments Request {X}.
Arguments Relaying {X}.

Record TunnelStack (I SS H X : Type) := {
  device : TunnelDevice; iface : I; sockets : SS; listeners : list H; conns : list (Conn X); targets : list Target; ports : list Z
}.
Arguments device {I SS H X}.
Arguments iface {I SS H X}.
Arguments sockets {I SS H X}.
Arguments listeners {I SS H X}.
Arguments conns {I SS H X}.
Arguments targets {I SS H X}.
Arguments ports {I SS H X}.
Arguments Build_TunnelStack {I SS H X}.

(** ** One connection *)
Section Connection.
Context {K N X E : Type} `{TK : Tcp K} `{LN : Lan N X}.

Definition on_lan {A} (f : N -> N * A) : SE N E A := fun n => let (n, a) := f n in (n, Ok a).

(** [greet] *)
Definition greet_closure (buf : bytes) : outcome E (nat * bool) :=
  if decide (length buf < 2) then Ok (0, false)
  else
    let? v := index buf 0 in
    if decide (v <> x05) then Ok (0, false)
    else
      let? m := index buf 1 in
      let n := 2 + Z.to_nat (bz m) in
      if decide (length buf < n) then Ok (0, false) else Ok (n, true).

Definition greet (socket : K) : outcome E (K * bool) :=
  if negb (can_recv socket) then Ok (socket, false)
  else
    let? (socket, got) :=
      match recv_buf socket with
      | None => Ok (socket, false)
      | Some buf => let? (n, got) := greet_closure buf in Ok (recv_drop socket n, got)
      end in
    if negb got then Ok (socket, false)
    else let (socket, sent) := send_slice socket [x05; x00] in Ok (socket, bool_decide (sent <> None)).

(** [parse_request]; a name is looked up while it is parsed. *)
Definition parse_request (buf : bytes) : SE N E (option (nat * SocketAddr)) :=
  if decide (length buf < 4) then ret None
  else
    do! v := lift (index buf 0) in
    if decide (v <> x05) then ret None
    else
      do! cmd := lift (index buf 1) in
      if decide (cmd <> x01) then ret None
      else
        do! atyp := lift (index buf 3) in
        if decide (atyp = x01 /\ 10 <= length buf) then
          do! ip := lift (slice buf 4 8) in
          do! port := lift (slice buf 8 10) in
          ret (Some (10, V4 ip (from_be port)))
        else if decide (atyp = x03 /\ 5 <= length buf) then
          do! l := lift (index buf 4) in
          let len := Z.to_nat (bz l) in
          if decide (length buf < 5 + len + 2) then ret None
          else
            do! host := lift (slice buf 5 (5 + len)) in
            match from_utf8 host with
            | None => ret None
            | Some host =>
                do! p0 := lift (index buf (5 + len)) in
                do! p1 := lift (index buf (6 + len)) in
                do! addr := on_lan (fun n => to_socket_addrs n host (from_be [p0; p1])) in
                ret ((fun addr => (5 + len + 2, addr)) <$> addr)
            end
        else ret None.

(** [connect] *)
Definition connect (socket : K) : SE N E (K * option X) :=
  if negb (can_recv socket) then ret (socket, None)
  else
    match recv_buf socket with
    | None => ret (socket, None)
    | Some buf =>
        do! parsed := parse_request buf in
        match parsed with
        | None => ret (recv_drop socket 0, None)
        | Some (used, target) =>
            let socket := recv_drop socket used in
            do! stream := on_lan (fun n => stream_connect n target) in
            match stream with
            | Some stream =>
                let (socket, sent) := send_slice socket [x05; x00; x00; x01; x00; x00; x00; x00; x00; x00] in
                ret (socket, match sent with Some _ => Some stream | None => None end)
            | None =>
                let (socket, _) := send_slice socket [x05; x05; x00; x01; x00; x00; x00; x00; x00; x00] in
                ret (close socket, None)
            end
        end
    end.

(** [relay]: from the tunnel to the LAN, and back. *)
Definition relay_up (socket : K) (stream : X) : SE N E K :=
  if can_recv socket then
    match recv_buf socket with
    | None => ret socket
    | Some buf =>
        if decide (buf = []) then ret (recv_drop socket 0)
        else
          do! w := on_lan (fun n => stream_write n stream buf) in
          ret (recv_drop socket (match w with Done n => n | WouldBlock => 0 | IoFailed => length buf end))
    end
  else ret socket.

Definition relay_down (socket : K) (stream : X) : SE N E K :=
  if can_send socket then
    do! room := lift (nsub (send_capacity socket) (send_queue socket)) in
    let want := room `min` 2048 in
    if decide (0 < want) then
      do! r := on_lan (fun n => stream_read n stream want) in
      ret (match r with
           | Done b => if decide (b = []) then close socket else (send_slice socket b).1
           | WouldBlock => socket
           | IoFailed => close socket
           end)
    else ret socket
  else ret socket.

Definition relay (socket : K) (stream : X) : SE N E K :=
  do! socket := relay_up socket stream in relay_down socket stream.

(** The body of the loop of [serve]. *)
Definition serve_one (socket : K) (conn : Conn X) (target : Target) : SE N E (K * Conn X) :=
  if negb (is_active socket) then ret (socket, Greeting)
  else
    match conn, target with
    | (Greeting | Request), Forward addr =>
        do! stream := on_lan (fun n => stream_connect n addr) in
        ret (match stream with Some stream => (socket, Relaying stream) | None => (close socket, conn) end)
    | Greeting, Socks => do! (socket, answered) := lift (greet socket) in ret (socket, if (answered : bool) then Request else conn)
    | Request, Socks => do! (socket, stream) := connect socket in ret (socket, match stream with Some s => Relaying s | None => conn end)
    | Relaying stream, _ => do! socket := relay socket stream in ret (socket, conn)
    end.
End Connection.

(** ** The stack *)
Section Stack.
Context {I SS H K N X E : Type} `{TK : Tcp K} `{SM : Iface I SS H K} `{LN : Lan N X}.

Definition set_device (t : TunnelStack I SS H X) (d : TunnelDevice) : TunnelStack I SS H X :=
  Build_TunnelStack d (iface t) (sockets t) (listeners t) (conns t) (targets t) (ports t).
Definition set_sockets (t : TunnelStack I SS H X) (ss : SS) : TunnelStack I SS H X :=
  Build_TunnelStack (device t) (iface t) ss (listeners t) (conns t) (targets t) (ports t).
Definition set_conns (t : TunnelStack I SS H X) (cs : list (Conn X)) : TunnelStack I SS H X :=
  Build_TunnelStack (device t) (iface t) (sockets t) (listeners t) cs (targets t) (ports t).

(** The loops of [new], for a port and over the ports. *)
Fixpoint pool_loop (pool : nat) (port : Z) (target : Target) (st : SS * list H * list Target * list Z) : outcome E (SS * list H * list Target * list Z) :=
  match pool with
  | O => Ok st
  | S pool =>
      let '(sockets, listeners, targets, bound) := st in
      let (sockets, handle) := set_add sockets (socket_new TCP_BUFFER TCP_BUFFER) in
      let? socket := unwrap (set_get sockets handle) in
      let (socket, listening) := listen socket port in
      if (listening : bool) then
        pool_loop pool port target (set_put sockets handle socket, listeners ++ [handle], targets ++ [target], bound ++ [port])
      else Panic
  end.
Fixpoint ports_loop (ports : list (Z * Target)) (pool : nat) (st : SS * list H * list Target * list Z) : outcome E (SS * list H * list Target * list Z) :=
  match ports with
  | [] => Ok st
  | (port, target) :: ports => let? st := pool_loop pool port target st in ports_loop ports pool st
  end.

(** [TunnelStack::new] *)
Definition stack_new (address : bytes) (ports : list (Z * Target)) (pool : nat) : outcome E (TunnelStack I SS H X) :=
  let? (sockets, listeners, targets, bound) := ports_loop ports pool (set_new, [], [], []) in
  Ok (Build_TunnelStack device_default (iface_new address) sockets listeners (replicate (length listeners) Greeting) targets bound).

(** [poll] *)
Definition poll (self : TunnelStack I SS H X) (now_millis : Z) : TunnelStack I SS H X :=
  let '(i, d, ss) := iface_poll (iface self) now_millis (device self) (sockets self) in
  Build_TunnelStack d i ss (listeners self) (conns self) (targets self) (ports self).

(** [serve]: its loop from [i], with so many turns to go. *)
Fixpoint serve_loop (turns i : nat) (self : TunnelStack I SS H X) : SE N E (TunnelStack I SS H X) :=
  match turns with
  | O => ret self
  | S turns =>
      do! handle := lift (index (listeners self) i) in
      do! socket := lift (unwrap (set_get (sockets self) handle)) in
      do! conn := lift (index (conns self) i) in
      do! target := lift (index (targets self) i) in
      do! (socket, conn) := serve_one socket conn target in
      serve_loop turns (S i) (set_conns (set_sockets self (set_put (sockets self) handle socket)) (<[i := conn]> (conns self)))
  end.
Definition serve (self : TunnelStack I SS H X) : SE N E (TunnelStack I SS H X) := serve_loop (length (listeners self)) 0 self.

(** [relisten], over the listeners from [i]. *)
Fixpoint relisten_loop (handles : list H) (i : nat) (self : TunnelStack I SS H X) : outcome E (TunnelStack I SS H X) :=
  match handles with
  | [] => Ok self
  | handle :: handles =>
      let? socket := unwrap (set_get (sockets self) handle) in
      if negb (is_open socket) then
        let socket := abort socket in
        let? port := index (ports self) i in
        let (socket, _) := listen socket port in
        relisten_loop handles (i + 1) (set_sockets self (set_put (sockets self) handle socket))
      else relisten_loop handles (i + 1) self
  end.
Definition relisten (self : TunnelStack I SS H X) : outcome E (TunnelStack I SS H X) := relisten_loop (listeners self) 0 self.
End Stack.

(** A turn of the stack, as [drain_stack] of node.rs takes it: a packet that came
    in, perhaps, then [poll], [serve], [poll] and [relisten]; with it the loop
    that empties the outbound queue. *)
Section Turn.
Context {I SS H K N X E : Type} `{TK : Tcp K} `{SM : Iface I SS H K} `{LN : Lan N X}.

Definition stack_turn (self : TunnelStack I SS H X) (now : Z) : SE N E (TunnelStack I SS H X) :=
  let self := poll self now in
  do! self := serve self in
  let self := poll self now in
  lift (relisten self).

Fixpoint pop_all (fuel : nat) (self : TunnelDevice) (pending : list bytes) : outcome E (TunnelDevice * list bytes) :=
  match fuel with
  | O => NoFuel
  | S fuel =>
      match pop_outbound self with
      | (self, Some out) => pop_all fuel self (pending ++ [out])
      | (self, None) => Ok (self, pending)
      end
  end.
End Turn.

(** ** What is relied on *)

(** A poll takes in the packets that wait, and takes each socket on; what it
    sends keeps to the MTU of [capabilities]. *)
Definition within_mtu (d : TunnelDevice) : Prop := Forall (fun p => length p <= TUNNEL_MTU) (outbound d).
Class IfaceView (I SS H K : Type) `{TV : TcpView K} `{SM : !Iface I SS H K} := {
  sockets_of_view :: SocketSetView SS H K;
  iface_poll_view i now d ss i' d' ss' : iface_poll i now d ss = (i', d', ss') -> length (inbound d) <= 1 ->
    inbound d' = [] /\ (within_mtu d -> within_mtu d') /\
    forall h k, set_get ss h = Some k -> exists k', set_get ss' h = Some k' /\ polled (bool_decide (inbound d = [])) k k';
}.

(** A stream to the LAN: where to, what was written and read, and whether a
    write has failed. *)
Record Stream := { peer_addr : SocketAddr; to_lan : bytes; from_lan : bytes; failed : bool }.
Class LanView (N X : Type) `{Lan N X} := {
  lan : N -> X -> option Stream;
  stream_connect_view n a n' r : stream_connect n a = (n', r) ->
    match r with
    | Some x => lan n x = None /\ lan n' x = Some {| peer_addr := a; to_lan := []; from_lan := []; failed := false |} /\
        forall y, y <> x -> lan n' y = lan n y
    | None => forall y, lan n' y = lan n y
    end;
  stream_write_view n x s b n' r : lan n x = Some s -> stream_write n x b = (n', r) ->
    (forall y, y <> x -> lan n' y = lan n y) /\
    match r with
    | Done k => k <= length b /\
        lan n' x = Some {| peer_addr := peer_addr s; to_lan := to_lan s ++ take k b; from_lan := from_lan s; failed := failed s |}
    | WouldBlock => lan n' x = Some s
    | IoFailed => lan n' x = Some {| peer_addr := peer_addr s; to_lan := to_lan s; from_lan := from_lan s; failed := true |}
    end;
  stream_read_view n x s want n' r : lan n x = Some s -> stream_read n x want = (n', r) ->
    (forall y, y <> x -> lan n' y = lan n y) /\
    match r with
    | Done b => length b <= want /\
        lan n' x = Some {| peer_addr := peer_addr s; to_lan := to_lan s; from_lan := from_lan s ++ b; failed := failed s |}
    | WouldBlock | IoFailed => lan n' x = Some s
    end;
  to_socket_addrs_view n host port n' r : to_socket_addrs n host port = (n', r) -> forall y, lan n' y = lan n y;
}.

(** ** What a connection has been through *)

(** The messages of RFC 1928 the proxy takes. *)
Definition is_greeting (g : bytes) : Prop := exists m methods, g = x05 :: m :: methods /\ length methods = Z.to_nat (bz m).

Section Proxied.
Context {K N X : Type} `{TV : TcpView K} `{LV : LanView N X}.

Inductive asks : bytes -> SocketAddr -> Prop :=
| asks_ip rsv ip port : length ip = 4 -> (0 <= port < 2 ^ 16)%Z -> asks ([x05; x01; rsv; x01] ++ ip ++ to_be 2 port) (V4 ip port)
| asks_name rsv l host port n n' addr : length host = Z.to_nat (bz l) -> utf8_valid host = true -> (0 <= port < 2 ^ 16)%Z ->
    to_socket_addrs n host port = (n', Some addr) -> asks ([x05; x01; rsv; x03; l] ++ host ++ to_be 2 port) addr.

Definition method_reply : bytes := [x05; x00].
Definition accepted_reply : bytes := [x05; x00; x00; x01; x00; x00; x00; x00; x00; x00].
Definition refused_reply : bytes := [x05; x05; x00; x01; x00; x00; x00; x00; x00; x00].

(** After what the client said first and what it was told first, the rest of what
    was taken is written to the LAN, and what is read from it is queued. *)
Definition relayed (said told : bytes) (k : K) (s : Stream) : Prop :=
  (exists d, taken k = said ++ d /\ (failed s = false -> to_lan s = d)) /\ queued k = told ++ from_lan s.

Definition proxied (n : N) (k : K) (conn : Conn X) (target : Target) : Prop :=
  match conn, target with
  | Greeting, Socks => fresh k
  | Request, Socks => exists g, is_greeting g /\
      (taken k = g /\ queued k = method_reply /\ closed k = false \/
       closed k = true /\ queued k = method_reply ++ refused_reply /\ exists r addr d, asks r addr /\ taken k = g ++ r ++ d)
  | Relaying x, Socks => exists g r addr s, is_greeting g /\ asks r addr /\ lan n x = Some s /\ peer_addr s = addr /\
      relayed (g ++ r) (method_reply ++ accepted_reply) k s
  | (Greeting | Request), Forward _ => taken k = [] /\ queued k = []
  | Relaying x, Forward addr => exists s, lan n x = Some s /\ peer_addr s = addr /\ relayed [] [] k s
  end.

(** The LAN side of a connection is there. *)
Definition conn_alive (n : N) (conn : Conn X) : Prop := match conn with Relaying x => lan n x <> None | _ => True end.

(** Only the stream of [conn] was touched, or a new one made. *)
Definition lan_frame (n n' : N) (conn conn' : Conn X) : Prop :=
  forall y, lan n y <> None -> conn <> Relaying y -> lan n' y = lan n y /\ conn' <> Relaying y.

Lemma lan_frame_same n n' conn : (forall y, lan n' y = lan n y) -> lan_frame n n' conn conn.
Proof. by split. Qed.
Lemma lan_frame_reset n conn : lan_frame n n conn Greeting.
Proof. by split. Qed.
Lemma lan_frame_refl n conn : lan_frame n n conn conn.
Proof. by apply lan_frame_same. Qed.

Lemma proxied_lan n n' k conn target : (forall x, conn = Relaying x -> lan n' x = lan n x) -> proxied n k conn target -> proxied n' k conn target.
Proof.
  intros Hl. destruct conn as [| |x], target; try done; cbn [proxied]; rewrite (Hl x eq_refl); done.
Qed.

Lemma proxied_continues n k k' conn target : continues k k' -> proxied n k conn target -> proxied n k' conn target.
Proof.
  intros (_ & Ht & Hq & Hc). destruct conn as [| |x], target; unfold proxied, relayed, fresh; rewrite ?Ht, ?Hq, ?Hc; done.
Qed.

(** *** Parsing *)
Context {E : Type}.

Lemma greet_closure_spec buf : exists n got, greet_closure (E:=E) buf = Ok (n, got) /\ n <= length buf /\
  if (got : bool) then is_greeting (take n buf) else n = 0.
Proof.
  unfold greet_closure. case_decide as Hl; [by eexists 0, false; split_and!; try lia|]. destruct buf as [|v [|m buf]]; [simpl in Hl; lia..|].
  rewrite (index_ok _ 0 v) by done. cbn [obind]. case_decide as Hv; [by eexists 0, false; split_and!; try lia|].
  rewrite (index_ok _ 1 m) by done. cbn [obind]. case_decide as Hm; [exists 0, false; split_and!; try done; simpl; lia|].
  exists (2 + Z.to_nat (bz m)), true. split; [done|]. split; [lia|]. subst v. exists m, (take (Z.to_nat (bz m)) buf).
  split; [done|]. rewrite length_take. cbn [length] in Hm. lia.
Qed.

Lemma greet_closure_whole g rest : is_greeting g -> greet_closure (E:=E) (g ++ rest) = Ok (length g, true).
Proof.
  intros (m & ms & -> & Hm). unfold greet_closure. cbn [app length]. rewrite decide_False by lia.
  rewrite (index_ok _ 0 x05) by done. cbn [obind]. rewrite decide_False by (by intros []). rewrite (index_ok _ 1 m) by done. cbn [obind].
  rewrite decide_False by (rewrite length_app; lia). do 2 f_equal. lia.
Qed.

Lemma take_be2 (l : bytes) i a b : l !! i = Some a -> l !! S i = Some b -> take 2 (drop i l) = [a; b].
Proof. intros Ha Hb. rewrite (drop_S _ _ _ Ha), (drop_S _ _ _ Hb). done. Qed.

Lemma to_from_be2 (l : bytes) : length l = 2 -> to_be 2 (from_be l) = l.
Proof. intros Hl. by rewrite <- Hl, to_from_be. Qed.
Lemma from_be2_range (l : bytes) : length l = 2 -> (0 <= from_be l < 2 ^ 16)%Z.
Proof. intros Hl. unfold from_be. pose proof (from_le_range (rev l)) as Hr. rewrite length_rev, Hl in Hr. exact Hr. Qed.

Lemma parse_request_spec buf n : exists n' r, parse_request (E:=E) buf n = (n', Ok r) /\ (forall y, lan n' y = lan n y) /\
  match r with Some (used, addr) => used <= length buf /\ asks (take used buf) addr | None => True end.
Proof.
  unfold parse_request. case_decide as Hl; [by exists n, None|]. destruct buf as [|v [|c [|rsv [|t buf]]]]; [simpl in Hl; lia..|].
  rewrite (index_ok _ 0 v) by done. rewrite bind_lift. case_decide as Hv; [by exists n, None|]. subst v.
  rewrite (index_ok _ 1 c) by done. rewrite bind_lift. case_decide as Hc; [by exists n, None|]. subst c.
  rewrite (index_ok _ 3 t) by done. rewrite bind_lift. case_decide as H4; [|case_decide as H3; [|by exists n, None]].
  - destruct H4 as [-> H4]. set (b := x05 :: _) in *. rewrite slice_ok by lia. rewrite bind_lift. rewrite slice_ok by lia. rewrite bind_lift.
    eexists n, _. split; [done|]. split; [done|]. split; [done|]. unfold b in *. cbn [length] in H4. simpl drop.
    destruct buf as [|a1 [|a2 [|a3 [|a4 [|a5 [|a6 buf]]]]]]; [simpl in H4; lia..|].
    pose proof (asks_ip rsv [a1; a2; a3; a4] (from_be [a5; a6]) eq_refl (from_be2_range [a5; a6] eq_refl)) as Ha. by rewrite to_from_be2 in Ha.
  - destruct H3 as [-> H3]. destruct buf as [|l buf]; [simpl in H3; lia|]. rewrite (index_ok _ 4 l) by done. rewrite bind_lift.
    case_decide as Hn; [by exists n, None|]. cbn [length] in Hn. rewrite slice_ok by (cbn [length]; lia). rewrite bind_lift.
    replace (5 + Z.to_nat (bz l) - 5) with (Z.to_nat (bz l)) by lia. cbn [drop]. rewrite drop_0. unfold from_utf8. destruct (utf8_valid _) eqn:Hu; [|by exists n, None].
    destruct (lookup_lt_is_Some_2 buf (Z.to_nat (bz l))) as [p0 Hp0]; [lia|]. destruct (lookup_lt_is_Some_2 buf (S (Z.to_nat (bz l)))) as [p1 Hp1]; [lia|].
    rewrite (index_ok _ (5 + _) p0) by exact Hp0. rewrite bind_lift. rewrite (index_ok _ (6 + _) p1) by exact Hp1. rewrite bind_lift.
    unfold bind, on_lan. destruct (to_socket_addrs n (take (Z.to_nat (bz l)) buf) (from_be [p0; p1])) as [n' r] eqn:Er. eexists n', _. split; [reflexivity|].
    split; [exact (to_socket_addrs_view _ _ _ _ _ Er)|]. destruct r as [addr|]; [|done]. cbn [fmap option_fmap option_map]. split; [cbn [length]; lia|].
    replace (5 + Z.to_nat (bz l) + 2) with (5 + (Z.to_nat (bz l) + 2)) by lia. cbn [Nat.add take].
    assert (take (Z.to_nat (bz l) + 2) buf = take (Z.to_nat (bz l)) buf ++ to_be 2 (from_be [p0; p1])) as ->.
    { rewrite to_from_be2 by done. rewrite <- (take_be2 buf (Z.to_nat (bz l)) p0 p1) by done. by rewrite take_take_drop. }
    apply (asks_name rsv l _ _ n n'); [rewrite length_take; lia|done|by apply from_be2_range|done].
Qed.

(** *** The steps of a connection *)

(** What a step of the proxy keeps of a socket. *)
Definition same_socket (k k' : K) : Prop := is_active k' = is_active k /\ send_capacity k' = send_capacity k.

Lemma same_socket_refl k : same_socket k k.
Proof. done. Qed.
Lemma same_socket_trans a b c : same_socket a b -> same_socket b c -> same_socket a c.
Proof. unfold same_socket. intuition congruence. Qed.

(** A reply that fits is queued whole. *)
Lemma send_whole k b k' r : send_slice k b = (k', r) -> length (queued k) + length b <= send_capacity k ->
  same_socket k k' /\ taken k' = taken k /\ closed k' = closed k /\
  if may_send k then r = Some (length b) /\ queued k' = queued k ++ b else r = None /\ queued k' = queued k.
Proof.
  intros E0 Hl. apply send_slice_view in E0 as (_ & Ht & Hc & Ha & _ & Hs & Hr). destruct (queue_room k) as [_ Hq].
  split; [done|]. split; [done|]. split; [done|]. destruct r as [n|]; destruct Hr as [-> Hr]; [|done]. destruct Hr as [-> ->].
  rewrite Nat.min_l by lia. by rewrite take_ge.
Qed.

Definition roomy (k : K) : Prop := send_capacity k = TCP_BUFFER.

Lemma greet_step n k : roomy k -> is_active k = true -> proxied n k Greeting Socks ->
  exists k' b, greet (E:=E) k = Ok (k', b) /\ same_socket k k' /\ proxied n k' (if (b : bool) then Request else Greeting) Socks.
Proof.
  intros Hroom Ha (Ht & Hq & Hc). unfold greet. destruct (can_recv k) eqn:Hr; cbn [negb]; [|by exists k, false].
  pose proof (can_recv_view k Ha Hr Hc) as He. destruct (recv_buf k) as [buf|] eqn:Hb; cbn [obind negb]; [|by exists k, false].
  destruct (greet_closure_spec buf) as (m & got & -> & Hm & Hg). cbn [obind].
  destruct (recv_drop_view k buf m Hb Hm) as (_ & Ht1 & Hq1 & Hc1 & He1 & Ha1 & Hs1 & _). set (k1 := recv_drop k m) in *.
  destruct got; cbn [negb].
  - destruct (send_slice k1 [x05; x00]) as [k2 r] eqn:Es. apply send_whole in Es as (Hs2 & Ht2 & Hc2 & Hr2); [|rewrite Hq1, Hq, Hs1, Hroom; cbn; unfold TCP_BUFFER; lia].
    rewrite He1, He in Hr2. destruct Hr2 as [-> Hq2]. rewrite bool_decide_eq_true_2 by done. exists k2, true. split; [done|].
    split; [by eapply same_socket_trans; [|done]|]. exists (take m buf). split; [done|]. left.
    rewrite Ht2, Ht1, Ht, Hq2, Hq1, Hq, Hc2, Hc1, Hc. done.
  - subst m. exists k1, false. split; [done|]. split; [done|]. unfold proxied, fresh. rewrite Ht1, Hq1, Hc1, Ht, Hq, Hc. by rewrite take_0.
Qed.

(** What [connect] does to a socket that is closed already: nothing that is sent. *)
Lemma connect_step n k : roomy k -> is_active k = true -> proxied n k Request Socks ->
  exists n' k' o, connect (E:=E) k n = (n', Ok (k', o)) /\ same_socket k k' /\
    proxied n' k' (match o with Some x => Relaying x | None => Request end) Socks /\
    lan_frame n n' Request (match o with Some x => Relaying x | None => Request end).
Proof.
  intros Hroom Hact Hp. pose proof Hp as (g & Hg & Hst). unfold connect.
  assert (forall k', same_socket k k' -> taken k' = taken k -> queued k' = queued k -> closed k' = closed k -> proxied n k' Request Socks) as Hsame.
  { intros k' _ H1 H2 H3. exists g. by rewrite H1, H2, H3. }
  destruct (can_recv k) eqn:Hr; cbn [negb]; [|by exists n, k, None].
  destruct (recv_buf k) as [buf|] eqn:Hb; [|by exists n, k, None].
  destruct (parse_request_spec buf n) as (n1 & r & Ep & Hl1 & Hr1). rewrite (bind_ok _ _ _ _ _ Ep). cbn beta iota.
  destruct r as [[used addr]|].
  2:{ destruct (recv_drop_view k buf 0 Hb) as (_ & Ht1 & Hq1 & Hc1 & _ & Ha1 & Hs1 & _); [lia|]. exists n1, (recv_drop k 0), None.
      split; [done|]. split; [done|]. split; [apply (proxied_lan n); [done|]; apply Hsame; try done; by rewrite Ht1, take_0, app_nil_r|by apply lan_frame_same]. }
  destruct Hr1 as [Hu Hask]. destruct (recv_drop_view k buf used Hb Hu) as (_ & Ht1 & Hq1 & Hc1 & He1 & Ha1 & Hs1 & _).
  set (k1 := recv_drop k used) in *. unfold bind at 1, on_lan. destruct (stream_connect n1 addr) as [n2 s] eqn:Ec. apply stream_connect_view in Ec.
  assert (length (queued k) + 10 <= send_capacity k) as Hcap.
  { rewrite Hroom. destruct Hst as [(_ & -> & _)|(_ & -> & _)]; unfold TCP_BUFFER; simpl; lia. }
  (* a socket closed on our side: nothing is sent *)
  assert (forall k2, closed k2 = true -> queued k2 = queued k -> closed k = true -> (exists d, taken k2 = taken k ++ d) ->
    forall n', proxied n' k2 Request Socks) as Hdead.
  { intros k2 H1 H2 H3 (d & H4) n'. destruct Hst as [(_ & _ & H5)|(_ & H5 & r & a & d' & H6 & H7)]; [congruence|].
    exists g. split; [done|]. right. split; [done|]. split; [congruence|]. exists r, a, (d' ++ d). split; [done|]. by rewrite H4, H7, <- !app_assoc. }
  destruct s as [x|].
  - destruct Ec as (Hnone & Hx & Hoth). destruct (send_slice k1 _) as [k2 r] eqn:Es. apply send_whole in Es as (Hs2 & Ht2 & Hc2 & Hr2); [|rewrite Hq1, Hs1; exact Hcap].
    destruct (may_send k1) eqn:Hk1; destruct Hr2 as [-> Hq2].
    + exists n2, k2, (Some x). split; [done|]. split; [by eapply same_socket_trans; [|done]|]. split.
      * assert (closed k = false) as Hopen.
        { destruct Hst as [(_ & _ & ?)|(H1 & _)]; [done|]. apply closed_view in H1. congruence. }
        destruct Hst as [(Htk & Hqk & _)|(? & _)]; [|congruence]. eexists g, (take used buf), addr, _. split; [done|]. split; [done|].
        split; [exact Hx|]. split; [done|]. split; cbn [to_lan from_lan failed]; [|by rewrite Hq2, Hq1, Hqk, app_nil_r].
        exists []. split; [by rewrite Ht2, Ht1, Htk, app_nil_r|done].
      * intros y Hy _. split; [rewrite Hoth; [by apply Hl1|]|]; congruence.
    + exists n2, k2, None. split; [done|]. split; [by eapply same_socket_trans; [|done]|]. split.
      * assert (closed k = true) as Hclosed.
        { destruct (closed k) eqn:Hc; [done|]. pose proof (can_recv_view k Hact Hr Hc). congruence. }
        apply Hdead; try congruence. exists (take used buf). congruence.
      * intros y Hy _. split; [rewrite Hoth; [by apply Hl1|]|]; congruence.
  - destruct (send_slice k1 _) as [k2 r] eqn:Es. apply send_whole in Es as (Hs2 & Ht2 & Hc2 & Hr2); [|rewrite Hq1, Hs1; exact Hcap].
    destruct (close_view k2) as (_ & Ht3 & Hq3 & Hc3 & Ha3 & Hs3). set (k3 := close k2) in *. exists n2, k3, None.
    split; [done|]. split; [unfold same_socket in *; intuition congruence|]. split; [|intros y Hy _; split; [rewrite Ec; by apply Hl1|done]].
    destruct (closed k) eqn:Hc.
    + apply Hdead; try congruence; [|exists (take used buf); congruence].
      assert (may_send k1 = false) as Hk1 by (apply closed_view; congruence). rewrite Hk1 in Hr2. destruct Hr2. congruence.
    + pose proof (can_recv_view k Hact Hr Hc) as He. rewrite He1, He in Hr2. destruct Hr2 as [-> Hq2].
      destruct Hst as [(Htk & Hqk & _)|(? & _)]; [|congruence]. exists g. split; [done|]. right. split; [done|].
      split; [by rewrite Hq3, Hq2, Hq1, Hqk|]. exists (take used buf), addr, []. split; [done|]. by rewrite Ht3, Ht2, Ht1, Htk, app_nil_r.
Qed.

(** Bytes on their way up are those the client sent, in order. *)
Lemma relay_up_step n k x s said told : lan n x = Some s -> relayed said told k s ->
  exists n' k' s', relay_up (E:=E) k x n = (n', Ok k') /\ same_socket k k' /\ lan n' x = Some s' /\ peer_addr s' = peer_addr s /\
    relayed said told k' s' /\ forall y, y <> x -> lan n' y = lan n y.
Proof.
  intros Hx Hrel. unfold relay_up. destruct (can_recv k) eqn:Hr; [|by exists n, k, s].
  destruct (recv_buf k) as [buf|] eqn:Hb; [|by exists n, k, s]. destruct Hrel as ((d & Ht & Hd) & Hq).
  assert (forall m n' s', m <= length buf -> lan n' x = Some s' -> peer_addr s' = peer_addr s -> from_lan s' = from_lan s ->
    (failed s' = false -> to_lan s' = d ++ take m buf) -> (forall y, y <> x -> lan n' y = lan n y) ->
    exists n1 k1 s1, (n', Ok (E:=E) (recv_drop k m)) = (n1, Ok k1) /\ same_socket k k1 /\ lan n1 x = Some s1 /\ peer_addr s1 = peer_addr s /\
    relayed said told k1 s1 /\ forall y, y <> x -> lan n1 y = lan n y) as Hgo.
  { intros m n' s' Hm Hl Hp Hf Hw Ho. destruct (recv_drop_view k buf m Hb Hm) as (_ & Ht1 & Hq1 & _ & _ & Ha1 & Hs1 & _).
    exists n', (recv_drop k m), s'. split_and!; try done. split; [|congruence]. exists (d ++ take m buf). split; [|done]. by rewrite Ht1, Ht, app_assoc. }
  case_decide as He.
  - apply (Hgo 0 n s); try done; [lia|]. intros Hf. by rewrite take_0, app_nil_r, Hd.
  - unfold bind, on_lan. destruct (stream_write n x buf) as [n' w] eqn:Ew. destruct (stream_write_view _ _ _ _ _ _ Hx Ew) as [Ho Hw].
    destruct w as [m| |].
    + destruct Hw as [Hm Hw]. eapply Hgo; [done|exact Hw|done|done|cbn; intros Hf; by rewrite Hd|done].
    + eapply Hgo; [lia|exact Hw|done|done| |done]. intros Hf. by rewrite take_0, app_nil_r, Hd.
    + eapply Hgo; [lia|exact Hw|done|done| |done]. done.
Qed.

(** And bytes on their way down those the LAN sent. *)
Lemma relay_down_step n k x s said told : lan n x = Some s -> relayed said told k s ->
  exists n' k' s', relay_down (E:=E) k x n = (n', Ok k') /\ same_socket k k' /\ lan n' x = Some s' /\ peer_addr s' = peer_addr s /\
    relayed said told k' s' /\ forall y, y <> x -> lan n' y = lan n y.
Proof.
  intros Hx ((d & Ht & Hd) & Hq). unfold relay_down.
  assert (forall n' s' k', taken k' = taken k -> queued k' = told ++ from_lan s' -> same_socket k k' -> lan n' x = Some s' -> peer_addr s' = peer_addr s ->
    to_lan s' = to_lan s -> failed s' = failed s -> (forall y, y <> x -> lan n' y = lan n y) ->
    exists n1 k1 s1, (n', Ok (E:=E) k') = (n1, Ok k1) /\ same_socket k k1 /\ lan n1 x = Some s1 /\ peer_addr s1 = peer_addr s /\
    relayed said told k1 s1 /\ forall y, y <> x -> lan n1 y = lan n y) as Hgo.
  { intros n' s' k' H1 H2 H3 H4 H5 H6 H7 H8. exists n', k', s'. split_and!; try done. split; [|done]. exists d. split; [congruence|].
    intros Hf. rewrite H6. apply Hd. congruence. }
  destruct (can_send k) eqn:Hs; [|by apply (Hgo n s k)]. destruct (queue_room k) as [Hroom _]. unfold nsub. rewrite decide_True by done.
  rewrite bind_lift. case_decide as Hw; [|by apply (Hgo n s k)]. unfold bind, on_lan. set (want := _ `min` 2048) in *.
  destruct (stream_read n x want) as [n' r] eqn:Er. destruct (stream_read_view _ _ _ _ _ _ Hx Er) as [Ho Hr]. cbn beta iota.
  destruct (close_view k) as (_ & Hct & Hcq & _ & Hca & Hcs). destruct r as [b| |].
  - destruct Hr as [Hb Hl]. case_decide as Hn.
    + subst b. eapply Hgo; [exact Hct| |done|exact Hl|done|done|done|done]. cbn. by rewrite Hcq, Hq, app_nil_r.
    + destruct (send_slice k b) as [k' o] eqn:Es. apply send_slice_view in Es as (_ & Ht' & _ & Ha' & _ & Hs' & Ho').
      destruct o as [m|]; destruct Ho' as [He Ho']; [|pose proof (can_send_view k Hs); congruence]. destruct Ho' as [-> Hq'].
      eapply Hgo; [exact Ht'| |done|exact Hl|done|done|done|done]. cbn. rewrite Hq', Hq, take_ge, app_assoc by (unfold want in Hb; lia). done.
  - by apply (Hgo n' s k).
  - apply (Hgo n' s (close k)); try done. by rewrite Hcq.
Qed.

Lemma relay_step n k x s said told : lan n x = Some s -> relayed said told k s ->
  exists n' k' s', relay (E:=E) k x n = (n', Ok k') /\ same_socket k k' /\ lan n' x = Some s' /\ peer_addr s' = peer_addr s /\
    relayed said told k' s' /\ forall y, y <> x -> lan n' y = lan n y.
Proof.
  intros Hx Hr. unfold relay. destruct (relay_up_step n k x s said told Hx Hr) as (n1 & k1 & s1 & E1 & Hs1 & Hx1 & Hp1 & Hr1 & Ho1).
  rewrite (bind_ok _ _ _ _ _ E1). destruct (relay_down_step n1 k1 x s1 said told Hx1 Hr1) as (n2 & k2 & s2 & E2 & Hs2 & Hx2 & Hp2 & Hr2 & Ho2).
  exists n2, k2, s2. split; [exact E2|]. split; [by eapply same_socket_trans|]. split; [done|]. split; [congruence|]. split; [done|].
  intros y Hy. by rewrite Ho2, Ho1.
Qed.

(** Where a connection stands after [serve] has seen it. *)
Definition settled (n : N) (k : K) (conn : Conn X) (target : Target) : Prop :=
  if is_active k then proxied n k conn target else conn = Greeting.

Lemma serve_one_step n k conn target : roomy k -> (is_active k = true -> proxied n k conn target) -> conn_alive n conn ->
  exists n' k' conn', serve_one (E:=E) k conn target n = (n', Ok (k', conn')) /\ same_socket k k' /\ settled n' k' conn' target /\
    conn_alive n' conn' /\ lan_frame n n' conn conn'.
Proof.
  intros Hroom Hp Hal. unfold serve_one, settled. destruct (is_active k) eqn:Ha; cbn [negb].
  2:{ exists n, k, Greeting. rewrite Ha. split_and!; try done. }
  specialize (Hp eq_refl).
  assert (forall x s said told, conn = Relaying x -> lan n x = Some s -> relayed said told k s ->
    exists n' k' s', bind (relay k x) (fun k => ret (k, conn)) n = (n', Ok (E:=E) (k', Relaying x)) /\ same_socket k k' /\ lan n' x = Some s' /\
      peer_addr s' = peer_addr s /\ relayed said told k' s' /\ lan_frame n n' conn (Relaying x)) as Hrelay.
  { intros x s said told -> Hx Hr. destruct (relay_step n k x s said told Hx Hr) as (n' & k' & s' & E' & ? & ? & ? & ? & Ho).
    exists n', k', s'. rewrite (bind_ok _ _ _ _ _ E'). split_and!; try done. intros y _ Hy. split; [apply Ho; congruence|done]. }
  destruct target as [|addr]; destruct conn as [| |x].
  - destruct (greet_step n k Hroom Ha Hp) as (k' & b & -> & Hs & Hp'). rewrite bind_lift. exists n, k', (if b then Request else Greeting).
    destruct Hs as [Hs1 Hs2]. rewrite Hs1, Ha. split; [done|]. split; [done|]. split; [exact Hp'|]. by destruct b.
  - destruct (connect_step n k Hroom Ha Hp) as (n' & k' & o & E' & Hs & Hp' & Hf). rewrite (bind_ok _ _ _ _ _ E').
    eexists n', k', _. destruct Hs as [Hs1 Hs2]. rewrite Hs1, Ha. split; [reflexivity|]. split; [done|]. split; [exact Hp'|]. split; [|exact Hf].
    destruct o as [x|]; [|done]. destruct Hp' as (? & ? & ? & ? & _ & _ & Hx & _). cbn. by rewrite Hx.
  - destruct Hp as (g & r & a & s & Hg & Hask & Hx & Hpa & Hr).
    destruct (Hrelay x s _ _ eq_refl Hx Hr) as (n' & k' & s' & E' & [Hs1 Hs2] & Hx' & Hp' & Hr' & Hf). rewrite E'. exists n', k', (Relaying x).
    rewrite Hs1, Ha. split_and!; try done; [exists g, r, a, s'; split_and!; try done; congruence|cbn; by rewrite Hx'].
  - destruct Hp as [Ht Hq]. unfold bind, on_lan. destruct (stream_connect n addr) as [n' [x|]] eqn:Ec; apply stream_connect_view in Ec; cbn beta iota.
    + destruct Ec as (Hn & Hx & Ho). exists n', k, (Relaying x). rewrite Ha. split_and!; try done.
      * eexists. split; [exact Hx|]. split; [done|]. split; [|exact Hq]. by exists [].
      * cbn. by rewrite Hx.
      * intros y Hy _. split; [apply Ho|]; congruence.
    + destruct (close_view k) as (_ & Hct & Hcq & _ & Hca & Hcs). exists n', (close k), Greeting. rewrite Hca, Ha. split_and!; try done. cbn. by rewrite Hct, Hcq.
  - destruct Hp as [Ht Hq]. unfold bind, on_lan. destruct (stream_connect n addr) as [n' [x|]] eqn:Ec; apply stream_connect_view in Ec; cbn beta iota.
    + destruct Ec as (Hn & Hx & Ho). exists n', k, (Relaying x). rewrite Ha. split_and!; try done.
      * eexists. split; [exact Hx|]. split; [done|]. split; [|exact Hq]. by exists [].
      * cbn. by rewrite Hx.
      * intros y Hy _. split; [apply Ho|]; congruence.
    + destruct (close_view k) as (_ & Hct & Hcq & _ & Hca & Hcs). exists n', (close k), Request. rewrite Hca, Ha. split_and!; try done. cbn. by rewrite Hct, Hcq.
  - destruct Hp as (s & Hx & Hpa & Hr).
    destruct (Hrelay x s _ _ eq_refl Hx Hr) as (n' & k' & s' & E' & [Hs1 Hs2] & Hx' & Hp' & Hr' & Hf). rewrite E'. exists n', k', (Relaying x).
    rewrite Hs1, Ha. split_and!; try done; [exists s'; split_and!; try done; congruence|cbn; by rewrite Hx'].
Qed.
End Proxied.

(** ** All connections of a stack *)
Section Sockets.
Context {I SS H K N X E : Type} `{TV : TcpView K} `{SM : !Iface I SS H K, SV : !IfaceView I SS H K} `{LV : LanView N X}.

Definition socket_at (t : TunnelStack I SS H X) (i : nat) (k : K) (conn : Conn X) (target : Target) : Prop :=
  exists h, listeners t !! i = Some h /\ set_get (sockets t) h = Some k /\ conns t !! i = Some conn /\ targets t !! i = Some target.

Record shape (t : TunnelStack I SS H X) : Prop := {
  shape_nodup : NoDup (listeners t);
  shape_conns : length (conns t) = length (listeners t);
  shape_targets : length (targets t) = length (listeners t);
  shape_ports : length (ports t) = length (listeners t);
  shape_range : Forall (fun p => 0 < p < 2 ^ 16)%Z (ports t);
  shape_sockets i h : listeners t !! i = Some h -> set_get (sockets t) h <> None;
}.

(** Every connection has a live stream of its own, and [Q] holds of it. *)
Record stack_inv (Q : nat -> N -> K -> Conn X -> Target -> Prop) (n : N) (t : TunnelStack I SS H X) : Prop := {
  inv_shape : shape t;
  inv_alive i conn : conns t !! i = Some conn -> conn_alive n conn;
  inv_distinct i j x : conns t !! i = Some (Relaying x) -> conns t !! j = Some (Relaying x) -> i = j;
  inv_each i k conn target : socket_at t i k conn target -> roomy k /\ Q i n k conn target;
}.

Lemma shape_at t i : shape t -> i < length (listeners t) -> exists k conn target, socket_at t i k conn target.
Proof.
  intros Hs Hi. destruct (lookup_lt_is_Some_2 (listeners t) i Hi) as [h Hh].
  destruct (lookup_lt_is_Some_2 (conns t) i) as [c Hc]; [by rewrite shape_conns|].
  destruct (lookup_lt_is_Some_2 (targets t) i) as [g Hg]; [by rewrite shape_targets|].
  destruct (set_get (sockets t) h) as [k|] eqn:Hk; [|by destruct (shape_sockets t Hs i h Hh)]. by exists k, c, g, h.
Qed.

(** A socket and its state put back. *)
Definition put_at (t : TunnelStack I SS H X) (i : nat) (h : H) (k : K) (conn : Conn X) : TunnelStack I SS H X :=
  set_conns (set_sockets t (set_put (sockets t) h k)) (<[i := conn]> (conns t)).

Lemma put_at_shape t i h k conn : shape t -> listeners t !! i = Some h -> shape (put_at t i h k conn).
Proof.
  intros Hs Hh. pose proof Hs as []. split; cbn [put_at set_conns set_sockets listeners conns targets ports sockets]; try done; [by rewrite length_insert|].
  intros j h' Hj. destruct (decide (j = i)) as [->|Hne].
  - assert (h' = h) as -> by congruence. rewrite set_put_same; [done|]. by eapply shape_sockets0.
  - rewrite set_put_other; [by eapply shape_sockets0|]. intros ->. apply Hne. by eapply NoDup_lookup.
Qed.

Lemma put_at_spec t i h k0 k conn0 conn target : shape t -> listeners t !! i = Some h -> socket_at t i k0 conn0 target ->
  socket_at (put_at t i h k conn) i k conn target /\
  forall j k' c' g', socket_at (put_at t i h k conn) j k' c' g' -> if decide (j = i) then k' = k /\ c' = conn /\ g' = target else socket_at t j k' c' g'.
Proof.
  intros Hs Hh (h0 & Hh0 & Hk0 & Hc0 & Hg0). assert (h0 = h) as -> by congruence. pose proof (lookup_lt_Some _ _ _ Hc0) as Hlt. split.
  - exists h. unfold put_at. cbn. rewrite set_put_same by congruence. by rewrite list_lookup_insert_eq.
  - intros j k' c' g' (h' & Hj & Hk' & Hc' & Hg'). cbn [put_at set_conns set_sockets listeners conns targets sockets] in *.
    case_decide as Hji.
    + subst j. assert (h' = h) as -> by congruence. rewrite set_put_same in Hk' by congruence. rewrite list_lookup_insert_eq in Hc' by done.
      split_and!; congruence.
    + rewrite list_lookup_insert_ne in Hc' by done. rewrite set_put_other in Hk'; [by exists h'|]. intros ->. apply Hji. by eapply NoDup_lookup; [apply shape_nodup| |].
Qed.

Definition before (i : nat) (n : N) (k : K) (conn : Conn X) (target : Target) : Prop := is_active k = true -> proxied n k conn target.

(** The loop of [serve]: those before [i] have settled. *)
Lemma serve_loop_spec turns i n (t : TunnelStack I SS H X) : i + turns = length (listeners t) ->
  stack_inv (fun j => if decide (j < i) then settled else before j) n t ->
  exists n' t', serve_loop (E:=E) turns i t n = (n', Ok t') /\ stack_inv (fun _ => settled) n' t' /\
    listeners t' = listeners t /\ targets t' = targets t /\ ports t' = ports t /\ device t' = device t.
Proof.
  revert i n t. induction turns as [|turns IH]; intros i n t Hi Hinv; cbn [serve_loop].
  - exists n, t. split_and!; try done. destruct Hinv as [Hs Ha Hd He]. split; try done. intros j k c g Hj. destruct (He j k c g Hj) as [Hr Hq].
    rewrite decide_True in Hq; [done|]. destruct Hj as (h & Hh & _). apply lookup_lt_Some in Hh. lia.
  - destruct Hinv as [Hs Ha Hd He]. destruct (shape_at t i Hs) as (k & c & g & Hat); [lia|]. destruct (He i k c g Hat) as [Hroom Hq].
    rewrite decide_False in Hq by lia. pose proof Hat as (h & Hh & Hk & Hc & Hg).
    rewrite (index_ok _ i h Hh). rewrite bind_lift, Hk. cbn [unwrap]. rewrite bind_lift, (index_ok _ i c Hc), bind_lift, (index_ok _ i g Hg), bind_lift.
    destruct (serve_one_step (E:=E) n k c g Hroom Hq (Ha i c Hc)) as (n1 & k1 & c1 & E1 & [Hs1 Hs2] & Hset & Hal & Hfr).
    rewrite (bind_ok _ _ _ _ _ E1). cbn beta iota. change (set_conns _ _) with (put_at t i h k1 c1). set (t1 := put_at t i h k1 c1).
    destruct (put_at_spec t i h k k1 c c1 g Hs Hh Hat) as [_ Hput].
    assert (forall j x, j <> i -> conns t !! j = Some (Relaying x) -> lan n1 x = lan n x /\ c1 <> Relaying x) as Hother.
    { intros j x Hj Hx. apply Hfr; [exact (Ha j _ Hx)|]. intros ->. apply Hj. by eapply Hd. }
    assert (forall j c', conns t1 !! j = Some c' -> j = i /\ c' = c1 \/ j <> i /\ conns t !! j = Some c') as Hconns.
    { intros j c' Hj. unfold t1 in Hj. cbn in Hj. destruct (decide (j = i)) as [->|Hne].
      - rewrite list_lookup_insert_eq in Hj by (by apply (lookup_lt_Some _ _ _ Hc)). left. split; congruence.
      - rewrite list_lookup_insert_ne in Hj by done. by right. }
    destruct (IH (S i) n1 t1) as (n' & t' & E' & Hinv' & Hl' & Hg' & Hp' & Hd'); [change (listeners t1) with (listeners t); lia| |by exists n', t'].
    split; [by apply put_at_shape| | |].
    + intros j c' [[-> ->]|[Hj Hc']]%Hconns; [done|]. pose proof (Ha j c' Hc') as Hold. destruct c' as [| |x]; try done. cbn in *.
      by rewrite (proj1 (Hother j x Hj Hc')).
    + intros j1 j2 x [[-> HA]|[Hj1 HA]]%Hconns [[-> HB]|[Hj2 HB]]%Hconns; [done| | |by eapply Hd].
      * by destruct (proj2 (Hother j2 x Hj2 HB)).
      * by destruct (proj2 (Hother j1 x Hj1 HA)).
    + intros j k' c' g' Hj. specialize (Hput j k' c' g' Hj). case_decide as Hji.
      * subst j. destruct Hput as (-> & -> & ->). split; [unfold roomy in *; congruence|]. by rewrite decide_True by lia.
      * destruct (He j k' c' g' Hput) as [Hr' Hq']. split; [done|]. assert (forall x, c' = Relaying x -> lan n1 x = lan n x) as Hsame.
        { intros x ->. destruct Hput as (? & _ & _ & Hx & _). by apply (Hother j). }
        destruct (decide (j < S i)) as [Hlt|Hlt].
        -- rewrite decide_True in Hq' by lia. unfold settled in *. destruct (is_active k'); [|done]. by eapply proxied_lan.
        -- rewrite decide_False in Hq' by lia. intros Hact. eapply proxied_lan; [done|by apply Hq'].
Qed.

Lemma serve_spec n (t : TunnelStack I SS H X) : stack_inv before n t ->
  exists n' t', serve (E:=E) t n = (n', Ok t') /\ stack_inv (fun _ => settled) n' t' /\
    listeners t' = listeners t /\ targets t' = targets t /\ ports t' = ports t /\ device t' = device t.
Proof. intros Hi. apply serve_loop_spec; [done|]. destruct Hi as [? ? ? He]. by split. Qed.

(** *** A poll *)
Lemma poll_spec Q n (t : TunnelStack I SS H X) now : length (inbound (device t)) <= 1 ->
  (forall i k k' conn target, settled n k conn target -> (is_active k' = true -> if is_active k then continues k k' else fresh k') ->
    (inbound (device t) = [] -> is_active k = true -> is_active k' = true) -> Q i n k' conn target) ->
  stack_inv (fun _ => settled) n t -> stack_inv Q n (poll t now) /\ inbound (device (poll t now)) = [] /\
    listeners (poll t now) = listeners t /\ targets (poll t now) = targets t.
Proof.
  intros Hin HQ [Hs Ha Hd He]. unfold poll. destruct (iface_poll _ _ _ _) as [[i' d'] ss'] eqn:Ep. apply iface_poll_view in Ep as (Hd' & _ & Hss); [|done].
  split_and!; try done. split; cbn [conns]; try done.
  - destruct Hs as []. split; try done. cbn. intros i h Hh. pose proof (shape_sockets0 i h Hh) as Hsk.
    destruct (set_get (sockets t) h) as [k|] eqn:Hk; [|done]. by destruct (Hss h k Hk) as (k' & -> & _).
  - intros i k' c g (h & Hh & Hk' & Hc & Hg). cbn in Hh, Hk', Hc, Hg. pose proof (shape_sockets t Hs i h Hh) as Hsk.
    destruct (set_get (sockets t) h) as [k|] eqn:Hk; [|done]. destruct (Hss h k Hk) as (k2 & Hk2 & Hpol). pose proof (polled_active _ _ _ Hpol) as Hc1. destruct Hpol as (Hcap & _ & Hc2 & _). rewrite Hk2 in Hk'. injection Hk' as ->.
    destruct (He i k c g) as [Hroom Hq]; [by exists h|]. split; [unfold roomy in *; congruence|]. eapply HQ; [exact Hq|exact Hc1|]. intros Hn. apply Hc2. by apply bool_decide_eq_true.
Qed.

Lemma poll_mtu (t : TunnelStack I SS H X) now : length (inbound (device t)) <= 1 -> within_mtu (device t) -> within_mtu (device (poll t now)).
Proof.
  intros Hin Hm. unfold poll. destruct (iface_poll _ _ _ _) as [[i' d'] ss'] eqn:Ep. apply iface_poll_view in Ep as (_ & Hm' & _); [|done]. by apply Hm'.
Qed.

Lemma fresh_proxied n k target : fresh k -> proxied (N:=N) (X:=X) n k Greeting target.
Proof. intros (? & ? & ?). by destruct target. Qed.

(** A poll that may find a packet, ahead of [serve]; and one that finds none. *)
Lemma poll_before n (t : TunnelStack I SS H X) now : length (inbound (device t)) <= 1 -> stack_inv (fun _ => settled) n t ->
  stack_inv before n (poll t now) /\ inbound (device (poll t now)) = [] /\ listeners (poll t now) = listeners t /\ targets (poll t now) = targets t.
Proof.
  intros Hin. apply poll_spec; [done|]. intros i k k' c g Hset Hc _ Ha. specialize (Hc Ha). unfold settled in Hset. destruct (is_active k).
  - by eapply proxied_continues.
  - subst c. by apply fresh_proxied.
Qed.
Lemma poll_idle n (t : TunnelStack I SS H X) now : inbound (device t) = [] -> stack_inv (fun _ => settled) n t ->
  stack_inv (fun _ => settled) n (poll t now) /\ inbound (device (poll t now)) = [] /\ listeners (poll t now) = listeners t /\ targets (poll t now) = targets t.
Proof.
  intros Hin. apply poll_spec; [rewrite Hin; simpl; lia|]. intros i k k' c g Hset Hc Hq. unfold settled in *. destruct (is_active k).
  - rewrite Hq by done. eapply proxied_continues; [|done]. by apply Hc, Hq.
  - subst c. destruct (is_active k'); [|done]. by apply fresh_proxied, Hc.
Qed.

(** *** [relisten] *)
Lemma relisten_loop_spec hs i n (t : TunnelStack I SS H X) : drop i (listeners t) = hs ->
  stack_inv (fun j n k c g => settled n k c g /\ (j < i -> is_open k = true)) n t ->
  exists t', relisten_loop (E:=E) hs i t = Ok t' /\ stack_inv (fun _ n k c g => settled n k c g /\ is_open k = true) n t' /\
    listeners t' = listeners t /\ targets t' = targets t /\ device t' = device t.
Proof.
  revert i t. induction hs as [|h hs IH]; intros i t Hhs Hinv; cbn [relisten_loop].
  - exists t. split_and!; try done. destruct Hinv as [Hs Ha Hd He]. split; try done. intros j k c g Hj. destruct (He j k c g Hj) as [? [? Ho]].
    split; [done|]. split; [done|]. apply Ho. destruct Hj as (h & Hh & _). apply lookup_lt_Some in Hh.
    apply (f_equal length) in Hhs. rewrite length_drop in Hhs. simpl in Hhs. lia.
  - assert (listeners t !! i = Some h) as Hh by (by rewrite <- (Nat.add_0_r i), <- lookup_drop, Hhs).
    assert (drop (i + 1) (listeners t) = hs) as Hhs' by (rewrite Nat.add_1_r; rewrite (drop_S _ _ _ Hh) in Hhs; congruence).
    destruct Hinv as [Hs Ha Hd He]. destruct (shape_at t i Hs (lookup_lt_Some _ _ _ Hh)) as (k & c & g & Hat).
    destruct (He i k c g Hat) as [Hroom [Hset _]]. pose proof Hat as (h0 & Hh0 & Hk & Hc & Hg). assert (h0 = h) as -> by congruence. rewrite Hk. cbn [unwrap obind].
    destruct (is_open k) eqn:Ho; cbn [negb].
    + destruct (IH (i + 1) t Hhs') as (t' & E' & ?); [|by exists t']. split; try done. intros j k' c' g' Hj. destruct (He j k' c' g' Hj) as [? [? Hop]].
      split; [done|]. split; [done|]. intros Hji. destruct (decide (j = i)) as [->|]; [|apply Hop; lia]. destruct Hj as (h1 & H1' & H2' & _).
      congruence.
    + assert (is_active k = false) as Hact by (destruct (is_active k) eqn:Hk'; [apply active_open in Hk'; congruence|done]).
      unfold settled in Hset. rewrite Hact in Hset. subst c. destruct (abort_view k) as (Hab & _ & Hcap).
      destruct (lookup_lt_is_Some_2 (ports t) i) as [p Hp]; [rewrite shape_ports by done; by apply (lookup_lt_Some _ _ _ Hh)|].
      rewrite (index_ok _ i p Hp). cbn [obind]. pose proof (shape_range t Hs) as Hrange. rewrite Forall_lookup in Hrange. specialize (Hrange i p Hp).
      destruct (listen_up (abort k) p Hab Hrange) as [k1 El]. rewrite El. destruct (listen_view _ _ _ Hab Hrange El) as (Ho1 & Ha1 & _ & Hc1).
      assert (set_sockets t (set_put (sockets t) h k1) = put_at t i h k1 Greeting) as -> by (unfold put_at, set_conns, set_sockets; cbn; by rewrite list_insert_id).
      destruct (put_at_spec t i h k k1 Greeting Greeting g Hs Hh Hat) as [_ Hput]. set (t1 := put_at t i h k1 Greeting) in *.
      destruct (IH (i + 1) t1 Hhs') as (t' & E' & ?); [|by exists t'].
      assert (conns t1 = conns t) as Hct by (unfold t1, put_at; cbn [conns set_conns]; by rewrite list_insert_id).
      split; [by apply put_at_shape|by rewrite Hct|by rewrite Hct|].
      intros j k' c' g' Hj. specialize (Hput j k' c' g' Hj). case_decide as Hji.
      * destruct Hput as (-> & -> & ->). split; [unfold roomy in *; congruence|]. unfold settled. by rewrite Ha1.
      * destruct (He j k' c' g' Hput) as [? [? Hop]]. split; [done|]. split; [done|]. intros ?. apply Hop. lia.
Qed.

(** *** A turn *)
Definition steady (n : N) (t : TunnelStack I SS H X) : Prop :=
  stack_inv (fun _ n k c g => settled n k c g /\ is_open k = true) n t /\ inbound (device t) = [] /\ within_mtu (device t).

Lemma turn_spec n (t : TunnelStack I SS H X) now : stack_inv (fun _ => settled) n t -> length (inbound (device t)) <= 1 -> within_mtu (device t) ->
  exists n' t', stack_turn (E:=E) t now n = (n', Ok t') /\ steady n' t' /\ listeners t' = listeners t /\ targets t' = targets t.
Proof.
  intros Hi Hin Hm. unfold stack_turn. pose proof (poll_mtu t now Hin Hm) as Hm1. destruct (poll_before n t now Hin Hi) as (Hi1 & Hin1 & Hl1 & Ht1). set (t1 := poll t now) in *.
  destruct (serve_spec n t1 Hi1) as (n2 & t2 & E2 & Hi2 & Hl2 & Ht2 & _ & Hd2). rewrite (bind_ok _ _ _ _ _ E2).
  destruct (poll_idle n2 t2 now) as (Hi3 & Hin3 & Hl3 & Ht3); [by rewrite Hd2|done|].
  assert (within_mtu (device (poll t2 now))) as Hm3 by (apply poll_mtu; rewrite Hd2; [rewrite Hin1; simpl; lia|done]). set (t3 := poll t2 now) in *.
  destruct (relisten_loop_spec (listeners t3) 0 n2 t3) as (t4 & E4 & Hi4 & Hl4 & Ht4 & Hd4); [apply drop_0| |].
  { destruct Hi3 as [? ? ? He]. split; try done. intros j k c g Hj. destruct (He j k c g Hj). split; [done|]. split; [done|lia]. }
  unfold relisten. rewrite E4. exists n2, t4. split; [done|]. split; [split; [done|split; congruence]|]. split; congruence.
Qed.

Lemma steady_lan n n' t : (forall y, lan n' y = lan n y) -> steady n t -> steady n' t.
Proof.
  intros Hl [[Hsh Ha Hd He] Hin]. split; [|done]. split; try done.
  - intros i c Hc. pose proof (Ha i c Hc) as Hac. destruct c as [| |x]; [done..|]. cbn in *. by rewrite Hl.
  - intros i k c g Hi. destruct (He i k c g Hi) as (Hr & Hset & Ho). split; [done|]. split; [|done]. unfold settled in *.
    destruct (is_active k); [|done]. eapply proxied_lan; [|done]. intros x _. apply Hl.
Qed.

Lemma steady_settled n t : steady n t -> stack_inv (fun _ => settled) n t.
Proof. intros [[? ? ? He] _]. split; try done. intros j k c g Hj. destruct (He j k c g Hj) as [? [? ?]]. done. Qed.
End Sockets.

(** *** A new stack, and its turns *)
Section Stacks.
Context {I SS H K N X E : Type} `{TV : TcpView K} `{SM : !Iface I SS H K, SV : !IfaceView I SS H K} `{LV : LanView N X}.

Definition new_ok (st : SS * list H * list Target * list Z) : Prop :=
  let '(ss, ls, ts, bs) := st in
  NoDup ls /\ length ts = length ls /\ length bs = length ls /\ Forall (fun p => 0 < p < 2 ^ 16)%Z bs /\
  forall h, h ∈ ls -> exists k, set_get ss h = Some k /\ roomy k /\ is_active k = false /\ is_open k = true.

Lemma pool_loop_spec pool port target ss ls ts bs : (0 < port < 2 ^ 16)%Z -> new_ok (ss, ls, ts, bs) ->
  exists ss' ls' bs', pool_loop (E:=E) pool port target (ss, ls, ts, bs) = Ok (ss', ls', ts ++ replicate pool target, bs') /\
    new_ok (ss', ls', ts ++ replicate pool target, bs').
Proof.
  intros Hp. revert ss ls ts bs. induction pool as [|pool IH]; intros ss ls ts bs Hn; cbn [pool_loop replicate].
  { exists ss, ls, bs. by rewrite app_nil_r. }
  pose proof Hn as (Hnd & Ht & Hb & Hf & Hk). destruct (set_add ss _) as [ss1 h] eqn:Ea. apply set_add_view in Ea as (Hnone & Hget & Hoth). rewrite Hget. cbn [unwrap obind].
  destruct (socket_new_view TCP_BUFFER TCP_BUFFER) as (Hc0 & Ha0 & Ho0). destruct (listen_up _ port Ho0 Hp) as [k El]. rewrite El.
  destruct (listen_view _ _ _ Ho0 Hp El) as (Ho1 & Ha1 & _ & Hc1).
  assert (h ∉ ls) as Hfresh by (intros Hin; destruct (Hk h Hin) as (k0 & ? & _); congruence).
  destruct (IH (set_put ss1 h k) (ls ++ [h]) (ts ++ [target]) (bs ++ [port])) as (ss' & ls' & bs' & E' & Hn').
  - unfold new_ok. rewrite !length_app. split_and!; [|simpl; lia|simpl; lia|apply Forall_app; split; [done|by constructor]|].
    + apply list.NoDup_app. split_and!; [done| |apply list.NoDup_singleton]. intros x Hx Hin. apply list_elem_of_singleton in Hin. congruence.
    + intros h' [Hin|Hin]%elem_of_app.
      * assert (h' <> h) by congruence. rewrite set_put_other, Hoth by done. by apply Hk.
      * apply list_elem_of_singleton in Hin as ->. exists k. rewrite set_put_same by congruence. split_and!; try done. unfold roomy. congruence.
  - rewrite <- app_assoc in E', Hn'. by exists ss', ls', bs'.
Qed.

Lemma ports_loop_spec ps pool ss ls ts bs : Forall (fun p => 0 < p.1 < 2 ^ 16)%Z ps -> new_ok (ss, ls, ts, bs) ->
  exists ss' ls' bs', ports_loop (E:=E) ps pool (ss, ls, ts, bs) = Ok (ss', ls', ts ++ concat (map (fun p => replicate pool p.2) ps), bs') /\
    new_ok (ss', ls', ts ++ concat (map (fun p => replicate pool p.2) ps), bs').
Proof.
  intros Hp. revert ss ls ts bs. induction Hp as [|[port target] ps Hp _ IH]; intros ss ls ts bs Hn; cbn [ports_loop map concat snd].
  { exists ss, ls, bs. by rewrite app_nil_r. }
  destruct (pool_loop_spec pool port target ss ls ts bs Hp Hn) as (ss1 & ls1 & bs1 & -> & Hn1). cbn [obind].
  destruct (IH _ _ _ _ Hn1) as (ss' & ls' & bs' & E' & Hn'). rewrite <- app_assoc in E', Hn'. by exists ss', ls', bs'.
Qed.

Lemma stack_new_spec address ps pool n : Forall (fun p => 0 < p.1 < 2 ^ 16)%Z ps ->
  exists t : TunnelStack I SS H X, stack_new (E:=E) address ps pool = Ok t /\ steady n t /\ targets t = concat (map (fun p => replicate pool p.2) ps).
Proof.
  intros Hp. destruct (ports_loop_spec ps pool set_new [] [] [] Hp) as (ss & ls & bs & Eq & Hnd & Ht & Hb & Hf & Hk).
  { split_and!; try done; [constructor|]. intros h Hin. by apply not_elem_of_nil in Hin. }
  unfold stack_new. rewrite Eq. cbn [obind app] in *. eexists. split; [done|]. split; [|done]. split; [|split; [done|constructor]].
  assert (forall i h, ls !! i = Some h -> exists k, set_get ss h = Some k /\ roomy k /\ is_active k = false /\ is_open k = true) as Hat.
  { intros i h Hh. apply Hk. by apply list_elem_of_lookup_2 in Hh. }
  assert (forall i c, replicate (length ls) (Greeting (X:=X)) !! i = Some c -> c = Greeting) as Hrep by (intros i c Hc; by apply lookup_replicate in Hc as [-> _]).
  split; cbn [conns listeners targets ports sockets].
  - split; cbn; try done; [by rewrite length_replicate|]. intros i h Hh. by destruct (Hat i h Hh) as (k & -> & _).
  - by intros i c ->%Hrep.
  - by intros i j x Hc%Hrep.
  - intros i k c g (h & Hh & Hg & Hc & _). cbn in *. apply Hrep in Hc as ->. destruct (Hat i h Hh) as (k' & Hk' & Hr & Ha & Ho).
    assert (k' = k) as -> by congruence. split; [done|]. unfold settled. by rewrite Ha.
Qed.

(** The outbound queue is emptied in its order. *)
Lemma pop_all_spec fuel d pending : length (outbound d) < fuel ->
  pop_all (E:=E) fuel d pending = Ok ({| inbound := inbound d; outbound := [] |}, pending ++ outbound d).
Proof.
  revert d pending. induction fuel as [|fuel IH]; intros [i o] pending Hf; [lia|]. cbn [pop_all pop_outbound outbound inbound].
  destruct o as [|p o]; cbn in *; [by rewrite app_nil_r|]. rewrite IH by (cbn; lia). cbn. by rewrite <- app_assoc.
Qed.

(** A packet from the peer, or none, and a turn of the stack; what it sends is
    taken away. *)
Definition arrival (t : TunnelStack I SS H X) (packet : option bytes) : TunnelStack I SS H X :=
  match packet with Some p => set_device t (push_inbound (device t) p) | None => t end.
Fixpoint run_turns (turns : list (option bytes * Z)) (t : TunnelStack I SS H X) : SE N E (TunnelStack I SS H X) :=
  match turns with
  | [] => ret t
  | (packet, now) :: turns =>
      do! t := stack_turn (arrival t packet) now in
      do! (d, _) := lift (pop_all (1 + length (outbound (device t))) (device t) []) in
      run_turns turns (set_device t d)
  end.

Lemma inv_device Q n t d : stack_inv Q n t -> stack_inv (SM:=SM) Q n (set_device t d).
Proof. intros [[] Ha Hd He]. split; [by split|done|done|]. intros i k c g Hi. by apply He. Qed.

Lemma arrival_turn n t packet now : steady n t ->
  exists n' t', stack_turn (E:=E) (arrival t packet) now n = (n', Ok t') /\ steady n' t' /\ targets t' = targets t.
Proof.
  intros Hs. pose proof Hs as (Hi & Hin & Hm). apply steady_settled in Hs.
  destruct (turn_spec (E:=E) n (arrival t packet) now) as (n' & t' & ? & ? & _ & Ht).
  - destruct packet; [by apply inv_device|done].
  - destruct packet; cbn; rewrite Hin; simpl; lia.
  - by destruct packet.
  - exists n', t'. split_and!; try done. rewrite Ht. by destruct packet.
Qed.

Lemma run_turns_spec turns n t : steady n t -> exists n' t', run_turns turns t n = (n', Ok t') /\ steady n' t' /\ targets t' = targets t.
Proof.
  revert n t. induction turns as [|[packet now] turns IH]; intros n t Hs; cbn [run_turns]; [by exists n, t|].
  destruct (arrival_turn n t packet now Hs) as (n1 & t1 & E1 & (Hi1 & Hin1 & Hm1) & Ht1). rewrite (bind_ok _ _ _ _ _ E1).
  rewrite pop_all_spec by lia. rewrite bind_lift. cbn beta iota.
  destruct (IH n1 (set_device t1 {| inbound := inbound (device t1); outbound := [] |})) as (n' & t' & E' & Hs' & Ht').
  - split; [by apply inv_device|]. split; [done|constructor].
  - exists n', t'. split_and!; try done. rewrite Ht'. exact Ht1.
Qed.

(** C5. The proxy is faithful. A stack made for nonzero ports exists, and through
    any turns, with whatever packets and whatever the LAN does, nothing panics,
    and after each turn every socket of the pool is open and each live
    connection stands where its bytes say: on a SOCKS port what was taken is a
    prefix of a greeting and a request of RFC 1928 whose replies were queued
    whole, and then every further byte taken was written to a LAN stream of its
    own to the address asked for, and every byte read from that stream was
    queued, in order and each once; on a forwarded port the same from the first
    byte on, to the fixed address. A failed write is the one exception. *)
Theorem proxy_faithful address ps pool turns n :
  Forall (fun p => 0 < p.1 < 2 ^ 16)%Z ps ->
  exists (t : TunnelStack I SS H X) n' t', stack_new (E:=E) address ps pool = Ok t /\ run_turns turns t n = (n', Ok t') /\
    targets t' = concat (map (fun p => replicate pool p.2) ps) /\
    (forall i target, targets t' !! i = Some target -> exists k conn, socket_at t' i k conn target /\
       is_open k = true /\ if is_active k then proxied n' k conn target else conn = Greeting) /\
    forall i j x, conns t' !! i = Some (Relaying x) -> conns t' !! j = Some (Relaying x) -> i = j.
Proof.
  intros Hp. destruct (stack_new_spec address ps pool n Hp) as (t & Ht & Hs & Hg).
  destruct (run_turns_spec turns n t Hs) as (n' & t' & Er & [[Hsh Hal Hd He] _] & Hg'). exists t, n', t'. split_and!; try done; [congruence|].
  intros i g Hi. destruct (shape_at t' i Hsh) as (k & c & g0 & Hat). { rewrite <- shape_targets by done. by eapply lookup_lt_Some. }
  pose proof Hat as (_ & _ & _ & _ & Hi'). assert (g0 = g) as -> by congruence. exists k, c. destruct (He i k c g Hat) as (_ & Hset & Ho). by split_and!.
Qed.

(** A forward of port 0 makes [new] panic: a socket cannot listen there. *)
Lemma stack_new_port_zero address target pool :
  (forall k : K, (listen k 0).2 = false) -> stack_new (E:=E) (I:=I) (SS:=SS) (H:=H) (X:=X) address [(0%Z, target)] (S pool) = Panic.
Proof.
  intros Hl. unfold stack_new. cbn [ports_loop pool_loop]. destruct (set_add set_new _) as [ss h] eqn:Ea. apply set_add_view in Ea as (_ & -> & _). cbn [unwrap obind].
  specialize (Hl (socket_new TCP_BUFFER TCP_BUFFER)). by destruct (listen _ 0) as [k [|]].
Qed.
End Stacks.

(** *** An example: a stack of one kind of packet, the bytes a client of socket 0
    sends, and a LAN where every stream has something to say. *)
Module Example.
Export Smoltcp.Example.

#[export] Instance sock_iface : Iface unit (list sock) nat sock := {
  iface_new _ := tt;
  iface_poll i _ d ss :=
    (i, {| inbound := []; outbound := outbound d |},
     match inbound d, ss with b :: _, k :: ss => take_in k b :: ss | _, ss => ss end);
}.
#[export] Instance sock_iface_view : IfaceView unit (list sock) nat sock.
Proof.
  split; [apply sock_set_view|]. cbn.
  intros i now d ss i' d' ss' [= <- <- <-] _. split; [done|]. split; [done|]. intros h k Hk. destruct (inbound d) as [|b l].
  { exists k. split; [done|]. rewrite bool_decide_eq_true_2 by done. apply polled_refl. }
  rewrite bool_decide_eq_false_2 by done. destruct ss as [|k0 ss]; [done|]. destruct h as [|h]; cbn in Hk |- *.
  - injection Hk as ->. exists (take_in k b). split; [done|]. apply take_in_view.
  - exists k. split; [done|]. apply polled_refl.
Defined.

(** A LAN: each stream with what it has still to say. *)
Abbreviation network := (list (Stream * bytes)).
Definition change (n : network) (x : nat) (f : Stream * bytes -> Stream * bytes) : network := alter f x n.
#[export] Instance network_lan : Lan network nat := {
  stream_connect n a := (n ++ [({| peer_addr := a; to_lan := []; from_lan := []; failed := false |}, bs "welcome")], Some (length n));
  stream_write n x b :=
    (change n x (fun s => ({| peer_addr := peer_addr s.1; to_lan := to_lan s.1 ++ b; from_lan := from_lan s.1; failed := failed s.1 |}, s.2)), Done (length b));
  stream_read n x want :=
    match n !! x with
    | Some (s, b :: l) =>
        (change n x (fun _ => ({| peer_addr := peer_addr s; to_lan := to_lan s; from_lan := from_lan s ++ take want (b :: l); failed := failed s |}, drop want (b :: l))),
         Done (take want (b :: l)))
    | _ => (n, WouldBlock)
    end;
  to_socket_addrs n _ _ := (n, None);
}.
#[export] Instance network_view : LanView network nat.
Proof.
  refine {| lan n x := fst <$> n !! x |}; cbn [stream_connect stream_write stream_read to_socket_addrs network_lan].
  - intros n a n' r [= <- <-]. split_and!.
    + by rewrite lookup_ge_None_2.
    + by rewrite list_lookup_middle.
    + intros y Hne. destruct (decide (y < length n)); [by rewrite lookup_app_l|]. rewrite !lookup_ge_None_2; [done|lia|]. rewrite length_app. simpl. lia.
  - intros n x s b n' r Hx [= <- <-]. unfold change. split; [intros y Hne; by rewrite list_lookup_alter_ne|]. split; [done|].
    rewrite list_lookup_alter_eq. destruct (n !! x) as [[s0 l]|]; [|done]. cbn in Hx. injection Hx as ->. cbn. by rewrite take_ge.
  - intros n x s want n' r Hx. destruct (n !! x) as [[s0 [|b l]]|] eqn:E; [by intros [= <- <-]; rewrite E| |done]. cbn in Hx. injection Hx as ->.
    intros [= <- <-]. unfold change. split; [intros y Hne; by rewrite list_lookup_alter_ne|]. split; [rewrite length_take; lia|].
    by rewrite list_lookup_alter_eq, E.
  - by intros n host port n' r [= <- _].
Defined.

Definition turns : list (option bytes * Z) :=
  [(Some [x05; x01], 1%Z); (Some ([x00; x05; x01; x00] ++ [x01; x0a; x00; x00; x01; x00; x50]), 2%Z); (Some (bs "hel"), 3%Z); (Some (bs "lo"), 4%Z); (None, 5%Z)].
Definition stack : TunnelStack unit (list sock) nat nat :=
  match stack_new (E:=Empty_set) [x64; x40; x00; x01] [(1080%Z, Socks)] 2 with Ok t => t | _ => Build_TunnelStack device_default tt [] [] [] [] [] end.

(** The client greets, asks for 10.0.0.1:80 and says hello, in pieces. *)
Example proxied_hello :
  match run_turns (E:=Empty_set) turns stack [] with
  | ([(s, _)], Ok t) => s = {| peer_addr := V4 [x0a; x00; x00; x01] 80; to_lan := bs "hello"; from_lan := bs "welcome"; failed := false |} /\
    map s_queued (sockets t) = [method_reply ++ accepted_reply ++ bs "welcome"; []]
  | _ => False
  end.
Proof. vm_compute. by split. Qed.
End Example.
Import Example.

Lemma proxy_faithful_witness :
  exists (t : TunnelStack unit (list Example.sock) nat nat) (n' : Example.network) t', stack_new (E:=Empty_set) [x64; x40; x00; x01] [(1080%Z, Socks)] 2 = Ok t /\
  run_turns (E:=Empty_set) Example.turns t [] = (n', Ok t') /\ targets t' = [Socks; Socks] /\
  (forall i target, targets t' !! i = Some target -> exists k conn, socket_at t' i k conn target /\
     is_open k = true /\ if is_active k then proxied n' k conn target else conn = Greeting) /\
  forall i j x, conns t' !! i = Some (Relaying x) -> conns t' !! j = Some (Relaying x) -> i = j.
Proof.
  apply (proxy_faithful (E:=Empty_set) [x64; x40; x00; x01] [(1080%Z, Socks)] 2 Example.turns ([] : Example.network)). constructor; [cbn; lia|constructor].
Defined.
