(* ===== verification/HostNode.v ===== *)
(** The datapath of the host: [lando-host/src/node.rs].

    Where the relay client ([HostDerp]), WireGuard ([WgHandshake], [WgPeer],
    [WgTransport]) and the stack inside the tunnel ([HostTunnel]) meet. [Host] is
    what [run] has in its hands; an operation gives it back with its result, so
    that what a failed one has changed stays changed. *)
From Stdlib Require Import Sorting.Sorted.
From stdpp Require Import gmap.
From S2P Require Import Prelude StateError Decimal Crypto Keys WireGuard WgHandshake Replay WgTransport DerpFrame Socket.
From S2P Require Smoltcp Tsmp WgPeer WgNode HostDerp HostState HostTunnel.

#[export] Instance byte_countable : Countable byte.
Proof. by apply (inj_countable Byte.to_N Byte.of_N), Byte.of_to_N. Defined.

(** The error messages of the file, by kind; what they quote is left out. *)
Inductive Error :=
| EmptyPacket | NotInNetmap | BadInitiation (e : WgError) | Replayed (e : WgError) | BuildingResponse (e : WgError)
| NoSession | DecryptFailed (e : WgError) | PongTooSmall | EncryptingPong (e : WgError) | UnhandledType (kind : byte)
| NoSessionForOutput | EncryptingPacket (e : WgError) | Relay (e : HostDerp.Error).

Definition SOCKS_PORT : Z := 1080.
Definition SOCKET_POOL : nat := 4.

(** [rand_core::OsRng] *)
Class OsRng (R : Type) := { fill_bytes : R -> nat -> R * bytes }.

(** What is around the process: the peers the control plane has told of, under
    their lock, the variable [LANDO_FORWARD], and the lookup of a host and port. *)
Class Surroundings (N : Type) := {
  known_peers : N -> N * list NodePublic;
  forward_variable : N -> option bytes;
  lookup_target : N -> bytes -> N * option HostTunnel.SocketAddr;
}.

Record Sessions (T : Type) := {
  peers : gmap bytes WgPeer.Peer; sessions : gmap bytes Session; next_index : Z; stack : option T; tunnel_peer : option bytes
}.
Arguments peers {T}.
Arguments sessions {T}.
Arguments next_index {T}.
Arguments stack {T}.
Arguments tunnel_peer {T}.
Arguments Build_Sessions {T}.

Record Host (W T N R : Type) := { client : HostDerp.DerpClient W; state : Sessions T; around : N; rng : R }.
Arguments client {W T N R}.
Arguments state {W T N R}.
Arguments around {W T N R}.
Arguments rng {W T N R}.
Arguments Build_Host {W T N R}.

(** [Sessions::new] *)
Definition sessions_new {T} : Sessions T := Build_Sessions ∅ ∅ 1 None None.

(** [str::split] at a character, and [split_once]. *)
Fixpoint split_from (cur : bytes) (c : byte) (l : bytes) : list bytes :=
  match l with
  | [] => [cur]
  | b :: l => if decide (b = c) then cur :: split_from [] c l else split_from (cur ++ [b]) c l
  end.
Definition split_at (c : byte) (l : bytes) : list bytes := split_from [] c l.
Fixpoint split_once (c : byte) (l : bytes) : option (bytes * bytes) :=
  match l with
  | [] => None
  | b :: l => if decide (b = c) then Some ([], l) else (fun '(x, y) => (b :: x, y)) <$> split_once c l
  end.

Section Node.
Context `{P : Primitives} {W I SS H K N X R : Type} `{HL : HostDerp.HostLink W} `{TK : Smoltcp.Tcp K}
  `{SM : !HostTunnel.Iface I SS H K} `{LN : HostTunnel.Lan N X} `{SN : !Surroundings N} `{RN : OsRng R}.

Abbreviation TunnelStack := (HostTunnel.TunnelStack I SS H X).
Abbreviation M := (SE (Host W TunnelStack N R) Error).

Definition set_client (h : Host W TunnelStack N R) (c : HostDerp.DerpClient W) : Host W TunnelStack N R := Build_Host c (state h) (around h) (rng h).
Definition set_state (h : Host W TunnelStack N R) s : Host W TunnelStack N R := Build_Host (client h) s (around h) (rng h).
Definition set_around (h : Host W TunnelStack N R) n : Host W TunnelStack N R := Build_Host (client h) (state h) n (rng h).
Definition set_rng (h : Host W TunnelStack N R) r : Host W TunnelStack N R := Build_Host (client h) (state h) (around h) r.
Definition set_peers (s : Sessions TunnelStack) ps : Sessions TunnelStack := Build_Sessions ps (sessions s) (next_index s) (stack s) (tunnel_peer s).
Definition set_sessions (s : Sessions TunnelStack) ss : Sessions TunnelStack := Build_Sessions (peers s) ss (next_index s) (stack s) (tunnel_peer s).
Definition set_next_index (s : Sessions TunnelStack) i : Sessions TunnelStack := Build_Sessions (peers s) (sessions s) i (stack s) (tunnel_peer s).
Definition set_stack (s : Sessions TunnelStack) t : Sessions TunnelStack := Build_Sessions (peers s) (sessions s) (next_index s) t (tunnel_peer s).
Definition set_tunnel_peer (s : Sessions TunnelStack) k : Sessions TunnelStack := Build_Sessions (peers s) (sessions s) (next_index s) (stack s) k.

(** An operation of the relay client, of what is around, of the generator; the
    sessions, and a change of them. *)
Definition on_client {A} (m : SE (HostDerp.DerpClient W) HostDerp.Error A) : M A :=
  fun h => let (c, r) := m (client h) in (set_client h c, map_err Relay r).
Definition on_around {A} (m : SE N Error A) : M A := fun h => let (n, r) := m (around h) in (set_around h n, r).
Definition get_sessions : M (Sessions TunnelStack) := fun h => (h, Ok (state h)).
Definition change (f : Sessions TunnelStack -> Sessions TunnelStack) : M unit := modify (fun h => set_state h (f (state h))).

(** [NodePrivate::generate(&mut OsRng)] *)
Definition generate_key : M NodePrivate :=
  fun h => let (r, b) := fill_bytes (rng h) Keys.KEY_LEN in (set_rng h r, Ok (generate b).1).

(** [take_index] *)
Definition take_index : M Z :=
  do! s := get_sessions in
  do! _ := change (fun s => set_next_index s (Z.max (wrap 32 (next_index s + 1)) 1)) in
  ret (next_index s).

(** [configured_forwards]: an entry, and the table. *)
Definition forward_entry (n : N) (entry : bytes) : N * option (Z * HostTunnel.Target) :=
  match split_once x3d (HostState.trim entry) with
  | None => (n, None)
  | Some (listen, target) =>
      match parse_uint u16_max (HostState.trim listen) with
      | None => (n, None)
      | Some listen =>
          let (n, addr) := lookup_target n (HostState.trim target) in
          (n, (fun a => (listen, HostTunnel.Forward a)) <$> addr)
      end
  end.
Fixpoint forward_entries (n : N) (entries : list bytes) : N * list (Z * HostTunnel.Target) :=
  match entries with
  | [] => (n, [])
  | e :: entries =>
      let (n, f) := forward_entry n e in
      let (n, fs) := forward_entries n entries in
      (n, match f with Some f => f :: fs | None => fs end)
  end.
Definition configured_forwards : SE N Error (list (Z * HostTunnel.Target)) := fun n =>
  match forward_variable n with
  | None => (n, Ok [])
  | Some spec => let (n, fs) := forward_entries n (split_at x2c spec) in (n, Ok fs)
  end.

(** The loop of [drain_stack] over what is pending. *)
Fixpoint send_pending (peer : bytes) (pending : list bytes) : M unit :=
  match pending with
  | [] => ret tt
  | out :: pending =>
      do! s := get_sessions in
      do! session := lift (ok_or (sessions s !! peer) NoSessionForOutput) in
      do! (session, packet, n) := lift (map_err EncryptingPacket (encrypt session out (zeros (length out + 64)))) in
      do! _ := change (fun s => set_sessions s (<[peer := session]> (sessions s))) in
      do! packet := lift (slice packet 0 n) in
      do! _ := on_client (HostDerp.send_packet peer packet) in
      send_pending peer pending
  end.

(** [drain_stack] *)
Definition drain_stack (now : Z) : M unit :=
  do! s := get_sessions in
  match stack s, tunnel_peer s with
  | Some stack, Some peer =>
      do! stack := on_around (HostTunnel.stack_turn stack (as_i64 now)) in
      do! (device, pending) := lift (HostTunnel.pop_all (1 + length (HostTunnel.outbound (HostTunnel.device stack))) (HostTunnel.device stack) []) in
      do! _ := change (fun s => set_stack s (Some (HostTunnel.set_device stack device))) in
      if decide (pending = []) then ret tt
      else send_pending peer pending
  | _, _ => ret tt
  end.

(** [feed_stack] *)
Definition feed_stack (src packet : bytes) (now : Z) : M unit :=
  if decide (length packet < 20) then ret tt
  else
    do! b := lift (index packet 0) in
    if decide (bshr b 4 <> x04) then ret tt
    else
      do! s := get_sessions in
      do! _ :=
        match stack s with
        | Some _ => ret tt
        | None =>
            do! addr := lift (slice packet 16 20) in
            do! forwards := on_around configured_forwards in
            do! t := lift (HostTunnel.stack_new addr ((SOCKS_PORT, HostTunnel.Socks) :: forwards) SOCKET_POOL) in
            change (fun s => set_stack s (Some t))
        end in
      do! _ := change (fun s => set_tunnel_peer s (Some src)) in
      do! s := get_sessions in
      do! t := lift (unwrap (stack s)) in
      do! _ := change (fun s => set_stack s (Some (HostTunnel.set_device t (HostTunnel.push_inbound (HostTunnel.device t) packet)))) in
      drain_stack now.

(** [handle_packet] of [MSG_INITIATION] *)
Definition handle_initiation (node_key : NodePrivate) (src data : bytes) (now : Z) : M unit :=
  do! known := on_around (fun n => let (n, known) := known_peers n in (n, Ok known)) in
  if negb (bool_decide (known = []) || existsb (fun p => bool_decide (as_bytes p = src)) known) then lift (Err NotInNetmap)
  else
    do! (responder, learned) := lift (map_err BadInitiation (consume_initiation node_key data)) in
    let key := as_bytes (in_peer_static learned) in
    do! s := get_sessions in
    let (peer, fresh) := WgPeer.accept_handshake_timestamp (default (WgPeer.peer_new (in_peer_static learned)) (peers s !! key)) (in_timestamp learned) in
    do! _ := change (fun s => set_peers s (<[key := peer]> (peers s))) in
    do! _ := lift (map_err Replayed fresh) in
    do! index := take_index in
    do! ephemeral := generate_key in
    do! (response, keys) := lift (map_err BuildingResponse (respond responder ephemeral index)) in
    do! _ := on_client (HostDerp.send_packet src response) in
    do! s := get_sessions in
    do! peer := lift (unwrap (peers s !! key)) in
    do! _ := change (fun s => set_peers s (<[key := WgPeer.install_session peer keys now false]> (peers s))) in
    change (fun s => set_sessions s (<[key := session_new keys]> (sessions s))).

(** [handle_packet] of [MSG_TRANSPORT] *)
Definition handle_transport (src data : bytes) (now : Z) : M unit :=
  do! s := get_sessions in
  do! session := lift (ok_or (sessions s !! src) NoSession) in
  let (session, plain) := decrypt session data in
  do! _ := change (fun s => set_sessions s (<[src := session]> (sessions s))) in
  do! plain := lift (map_err DecryptFailed plain) in
  do! ping := lift (Tsmp.parse_ping plain) in
  match ping with
  | None => feed_stack src plain now
  | Some ping =>
      do! w := lift (Tsmp.write_pong ping (zeros 64)) in
      do! (pong, n) := lift (ok_or w PongTooSmall) in
      do! payload := lift (slice pong 0 n) in
      do! (session, packet, sent) := lift (map_err EncryptingPong (encrypt session payload (zeros 256))) in
      do! _ := change (fun s => set_sessions s (<[src := session]> (sessions s))) in
      do! packet := lift (slice packet 0 sent) in
      on_client (HostDerp.send_packet src packet)
  end.

(** [handle_packet] *)
Definition handle_packet (node_key : NodePrivate) (src data : bytes) (now : Z) : M unit :=
  match data with
  | [] => lift (Err EmptyPacket)
  | kind :: _ =>
      if decide (kind = MSG_INITIATION) then handle_initiation node_key src data now
      else if decide (kind = MSG_RESPONSE) then ret tt
      else if decide (kind = MSG_TRANSPORT) then handle_transport src data now
      else lift (Err (UnhandledType kind))
  end.

(** What [run] does with an error of [handle_packet]: it prints it. *)
Definition caught (m : M unit) : M unit := fun h => match m h with (h, Err _) => (h, Ok tt) | hr => hr end.

(** [now_millis] *)
Definition now_millis (started : Z) : M Z :=
  do! now := on_client (HostDerp.on_tls HostDerp.clock) in ret (wrap 64 (now - started)).

(** A turn of the loop of [run]. *)
Definition handle_event (node_key : NodePrivate) (event : option HostDerp.Event) (now : Z) : M unit :=
  match event with
  | None => drain_stack now
  | Some (HostDerp.Packet src data) => caught (handle_packet node_key src data now)
  | Some (HostDerp.EvPeerPresent _ | HostDerp.EvPeerGone _ | HostDerp.EvKeepAlive | HostDerp.Other _) => ret tt
  end.
Definition run_turn (fuel : nat) (node_key : NodePrivate) (started : Z) : M unit :=
  do! event := on_client (HostDerp.next_event fuel) in
  do! now := now_millis started in
  handle_event node_key event now.

(** [run], with so many turns of its loop; the nonce [connect] needs is drawn
    ahead of it. *)
Fixpoint run_loop (turns fuel : nat) (node_key : NodePrivate) (started : Z) : M unit :=
  match turns with
  | O => lift NoFuel
  | S turns => do! _ := run_turn fuel node_key started in run_loop turns fuel node_key started
  end.
Definition node_run (turns fuel : nat) (relay : bytes) (node_key : NodePrivate) : M unit :=
  do! started := on_client (HostDerp.on_tls HostDerp.clock) in
  do! nonce := (fun h => let (r, b) := fill_bytes (rng h) 24 in (set_rng h r, Ok b)) in
  do! _ := on_client (HostDerp.connect fuel relay (priv_bytes node_key) (as_bytes (public_of node_key)) nonce) in
  do! _ := change (fun _ => sessions_new) in
  run_loop turns fuel node_key started.
End Node.

(** ** What a step keeps *)
Section Keeps.
Context `{P : Primitives, L : !PrimitiveLaws P} {W I SS H K N X R : Type} `{HL : HostDerp.HostLink W} `{TK : Smoltcp.Tcp K}
  `{SM : !HostTunnel.Iface I SS H K} `{LN : HostTunnel.Lan N X} `{SN : !Surroundings N} `{RN : OsRng R}.
Abbreviation TunnelStack := (HostTunnel.TunnelStack I SS H X).
Abbreviation HostT := (Host W TunnelStack N R).
Abbreviation M := (SE HostT Error).

(** The peers stay as they are, and sessions are only for keys in [D]. *)
Definition sessions_in (D : bytes -> Prop) (h : HostT) : Prop := forall key s, sessions (state h) !! key = Some s -> D key.
Definition keeps (D : bytes -> Prop) {A} (m : M A) : Prop :=
  forall h, sessions_in D h -> sessions_in D (m h).1 /\ peers (state (m h).1) = peers (state h).

Lemma keeps_ret D {A} (a : A) : keeps D (ret a).
Proof. by intros h. Qed.
Lemma keeps_lift D {A} (r : outcome Error A) : keeps D (lift r).
Proof. by intros h. Qed.
Lemma keeps_bind D {A B} (m : M A) (k : A -> M B) : keeps D m -> (forall a, keeps D (k a)) -> keeps D (bind m k).
Proof.
  intros Hm Hk h Hh. destruct (Hm h Hh) as [H1' H2']. unfold bind. destruct (m h) as [h1 [a|e| |]]; cbn [fst] in *; try done.
  destruct (Hk a h1 H1') as [H3' H4']. split; [done|congruence].
Qed.
Lemma keeps_bind_lift D {A B} (r : outcome Error A) (k : A -> M B) : (forall a, r = Ok a -> keeps D (k a)) -> keeps D (bind (lift r) k).
Proof. intros Hk h Hh. unfold bind, lift. destruct r as [a|e| |]; try done. by apply Hk. Qed.
Lemma keeps_get D {B} (k : Sessions TunnelStack -> M B) :
  (forall s, (forall key x, sessions s !! key = Some x -> D key) -> keeps D (k s)) -> keeps D (bind get_sessions k).
Proof. intros Hk h Hh. exact (Hk (state h) Hh h Hh). Qed.
Lemma keeps_client D {A} (m : SE (HostDerp.DerpClient W) HostDerp.Error A) : keeps D (on_client m).
Proof. intros h Hh. unfold on_client. by destruct (m (client h)). Qed.
Lemma keeps_around D {A} (m : SE N Error A) : keeps D (on_around m).
Proof. intros h Hh. unfold on_around. by destruct (m (around h)). Qed.
Lemma keeps_change D f : (forall s, peers (f s) = peers s /\ sessions (f s) = sessions s) -> keeps D (change f).
Proof. intros Hf h Hh. destruct (Hf (state h)) as [Hp Hs]. split; [|exact Hp]. intros key x Hx. cbn in Hx. rewrite Hs in Hx. by eapply Hh. Qed.
Lemma keeps_session D (key : bytes) (x : Session) : D key -> keeps D (change (fun s => set_sessions s (<[key := x]> (sessions s)))).
Proof.
  intros Hd h Hh. split; [|done]. intros key' y Hy. cbn in Hy. destruct (decide (key = key')) as [->|Hne]; [done|].
  rewrite lookup_insert_ne in Hy by done. by eapply Hh.
Qed.

Lemma send_pending_keeps D peer pending : keeps D (send_pending peer pending).
Proof.
  induction pending as [|out pending IH]; cbn [send_pending]; [apply keeps_ret|]. apply keeps_get. intros s Hs.
  apply keeps_bind_lift. intros x Hx. assert (D peer) as Hd by (destruct (sessions s !! peer) eqn:E; [by eapply Hs|done]).
  apply keeps_bind; [apply keeps_lift|]. intros [[y p] n]. apply keeps_bind; [by apply keeps_session|intros _].
  apply keeps_bind; [apply keeps_lift|intros q]. apply keeps_bind; [apply keeps_client|done].
Qed.

Lemma drain_keeps D now : keeps D (drain_stack now).
Proof.
  apply keeps_get. intros s _. destruct (stack s), (tunnel_peer s); try apply keeps_ret.
  apply keeps_bind; [apply keeps_around|intros t']. apply keeps_bind; [apply keeps_lift|intros [d pending]].
  apply keeps_bind; [by apply keeps_change|intros _]. case_decide; [apply keeps_ret|apply send_pending_keeps].
Qed.

Lemma feed_keeps D src packet now : keeps D (feed_stack src packet now).
Proof.
  unfold feed_stack. case_decide; [apply keeps_ret|]. apply keeps_bind; [apply keeps_lift|intros b]. case_decide; [apply keeps_ret|].
  apply keeps_get. intros s _. apply keeps_bind; [|intros _].
  - destruct (stack s); [apply keeps_ret|]. apply keeps_bind; [apply keeps_lift|intros a]. apply keeps_bind; [apply keeps_around|intros fs].
    apply keeps_bind; [apply keeps_lift|intros t]. by apply keeps_change.
  - apply keeps_bind; [by apply keeps_change|intros _]. apply keeps_get. intros s' _. apply keeps_bind; [apply keeps_lift|intros t].
    apply keeps_bind; [by apply keeps_change|intros _]. apply drain_keeps.
Qed.

Lemma transport_keeps D src data now : keeps D (handle_transport src data now).
Proof.
  apply keeps_get. intros s Hs. apply keeps_bind_lift. intros x Hx.
  assert (D src) as Hd by (destruct (sessions s !! src) eqn:E; [by eapply Hs|done]). destruct (decrypt x data) as [y plain].
  apply keeps_bind; [by apply keeps_session|intros _]. apply keeps_bind; [apply keeps_lift|intros p].
  apply keeps_bind; [apply keeps_lift|intros [ping|]]; [|apply feed_keeps]. apply keeps_bind; [apply keeps_lift|intros w].
  apply keeps_bind; [apply keeps_lift|intros [pong n]]. apply keeps_bind; [apply keeps_lift|intros payload].
  apply keeps_bind; [apply keeps_lift|intros [[z q] sent]]. apply keeps_bind; [by apply keeps_session|intros _].
  apply keeps_bind; [apply keeps_lift|intros q']. apply keeps_client.
Qed.

(** What an initiation does: who it is from, and what becomes of the peers and
    the sessions, when it is answered and when it is not. *)
Definition learned_from (node_key : NodePrivate) (data : bytes) : option (bytes * bytes) :=
  match consume_initiation node_key data with Ok (_, i) => Some (as_bytes (in_peer_static i), in_timestamp i) | _ => None end.
Definition last_of (h : HostT) (key : bytes) : option bytes :=
  match peers (state h) !! key with Some p => WgPeer.last_handshake_timestamp p | None => None end.
Definition admitted (n : N) (src : bytes) : Prop :=
  let known := (known_peers n).2 in known = [] \/ exists p, In p known /\ as_bytes p = src.

(** Timestamps have their width. *)
Definition peers_ok (h : HostT) : Prop := forall key ts, last_of h key = Some ts -> length ts = 12.

Lemma newer_than ts prev : length ts = 12 -> length prev = 12 -> is_newer_than ts prev = true <-> (from_be prev < from_be ts)%Z.
Proof. intros Ht Hp. unfold is_newer_than. rewrite bytes_gt_from_be by congruence. lia. Qed.

(** The timestamp of [key] moves on to [ts]. *)
Definition advances (h h' : HostT) (key ts : bytes) : Prop :=
  (forall prev, last_of h key = Some prev -> is_newer_than ts prev = true) /\ last_of h' key = Some ts /\
  forall key', key' <> key -> last_of h' key' = last_of h key'.

Lemma accept_fresh p ts : match WgPeer.accept_handshake_timestamp p ts with
  | (p', Ok _) => (forall prev, WgPeer.last_handshake_timestamp p = Some prev -> is_newer_than ts prev = true) /\ WgPeer.last_handshake_timestamp p' = Some ts
  | (p', _) => p' = p
  end.
Proof.
  unfold WgPeer.accept_handshake_timestamp. destruct (WgPeer.last_handshake_timestamp p) as [prev|]; [|by split].
  destruct (is_newer_than ts prev) eqn:E; cbn [negb]; [|done]. split; [|done]. by intros ? [= <-].
Qed.

Lemma last_of_insert h key p key' : last_of (set_state h (set_peers (state h) (<[key := p]> (peers (state h))))) key' =
  if decide (key = key') then WgPeer.last_handshake_timestamp p else last_of h key'.
Proof.
  unfold last_of. cbn. case_decide as Hk; [subst; by rewrite lookup_insert_eq|by rewrite lookup_insert_ne].
Qed.

Lemma last_of_default h key pk : WgPeer.last_handshake_timestamp (default (WgPeer.peer_new pk) (peers (state h) !! key)) = last_of h key.
Proof. unfold last_of. by destruct (peers (state h) !! key). Qed.

(** After the timestamp is accepted: the answer, and the session with it. *)
Definition initiation_post (node_key : NodePrivate) (src data : bytes) (h : HostT) (hr : HostT * outcome Error unit) : Prop :=
  (forall key, last_of hr.1 key = last_of h key) /\ sessions (state hr.1) = sessions (state h) /\ hr.2 <> Ok tt \/
  exists key ts, learned_from node_key data = Some (key, ts) /\ admitted (around h) src /\ advances h hr.1 key ts /\
    if is_ok hr.2 then exists x, sessions (state hr.1) = <[key := x]> (sessions (state h)) else sessions (state hr.1) = sessions (state h).

#[local] Ltac refused := left; split; [intros ?; reflexivity|split; [reflexivity|discriminate]].

Lemma initiation_spec node_key src data now h : initiation_post node_key src data h (handle_initiation node_key src data now h).
Proof.
  unfold handle_initiation. unfold bind at 1. unfold on_around at 1. destruct (known_peers (around h)) as [n known] eqn:Hn. cbn beta iota.
  set (h1 := set_around h n). destruct (bool_decide (known = []) || _) eqn:Hadm; cbn [negb]; [|refused].
  assert (admitted (around h) src) as Hin.
  { unfold admitted. rewrite Hn. apply orb_true_iff in Hadm as [Hk|Hk]; [left; by apply bool_decide_eq_true in Hk|right].
    apply existsb_exists in Hk as (p & Hp & Hs). exists p. split; [done|]. by apply bool_decide_eq_true in Hs. }
  destruct (consume_initiation node_key data) as [[r i]|e| |] eqn:Ec; cbn [map_err]; [|refused..]. rewrite bind_lift. cbn beta iota.
  set (key := as_bytes (in_peer_static i)). set (ts := in_timestamp i). unfold bind at 1, get_sessions at 1. cbn beta iota.
  change (peers (state h1)) with (peers (state h)). set (p := default _ _). pose proof (accept_fresh p ts) as Hacc.
  destruct (WgPeer.accept_handshake_timestamp p ts) as [p' fresh]. unfold change at 1. rewrite bind_modify.
  set (h2 := set_state h1 _).
  assert (forall k, last_of h2 k = if decide (key = k) then WgPeer.last_handshake_timestamp p' else last_of h k) as Hl2 by (intros k; apply (last_of_insert h1)).
  assert (WgPeer.last_handshake_timestamp p = last_of h key) as Hp by apply last_of_default.
  destruct fresh as [[]|e| |]; cbn [map_err]; [|left; split; [|by split]; intros k; change (last_of h2 k = last_of h k); rewrite (Hl2 k), Hacc; case_decide as Hk; [by rewrite Hp, Hk|done]..].
  destruct Hacc as [Hnew Hlast]. rewrite Hp in Hnew.
  assert (learned_from node_key data = Some (key, ts)) as Hle by (unfold learned_from; by rewrite Ec).
  assert (advances h h2 key ts) as Hadv.
  { split; [done|]. split; [rewrite Hl2, decide_True by done; done|]. intros k Hk. by rewrite Hl2, decide_False. }
  assert (forall h', peers (state h') = peers (state h2) -> advances h h' key ts) as Hsame.
  { intros h' Hpe. assert (forall k, last_of h' k = last_of h2 k) as He by (intros k; unfold last_of; by rewrite Hpe).
    destruct Hadv as (A1 & A2 & A3). split; [done|]. split; [by rewrite He|]. intros k Hk. by rewrite He, A3. }
  assert (forall h' r, peers (state h') = peers (state h2) -> sessions (state h') = sessions (state h) -> is_ok r = false ->
    initiation_post node_key src data h (h', r)) as Hfail.
  { intros h' r0 H1' H2' H3'. right. exists key, ts. split_and!; try done; [by apply Hsame..|]. cbn [fst snd]. by rewrite H3'. }
  rewrite bind_lift. unfold take_index. unfold bind at 1 2, get_sessions at 1. cbn beta iota. unfold change at 1. rewrite bind_modify.
  unfold ret at 1. cbn beta iota. unfold bind at 1, generate_key at 1. destruct (fill_bytes _ _) as [rng' seed]. cbn beta iota.
  set (h3 := set_rng _ _). destruct (respond r _ _) as [[response keys]|e| |]; cbn [map_err]; try by apply Hfail.
  rewrite bind_lift. cbn beta iota. unfold bind at 1, on_client at 1. destruct (HostDerp.send_packet src response (client h3)) as [c sent].
  set (h4 := set_client h3 c). assert (peers (state h4) = peers (state h2)) as Hp4 by done.
  destruct sent as [[]|e| |]; cbn [map_err]; try by apply Hfail.
  unfold bind at 1, get_sessions at 1. cbn beta iota. rewrite Hp4. change (peers (state h2)) with (<[key := p']> (peers (state h1))).
  rewrite lookup_insert_eq. cbn [unwrap]. rewrite bind_lift. unfold change at 1. rewrite bind_modify. unfold change, modify.
  right. exists key, ts. split; [done|]. split; [done|]. cbn [fst snd is_ok]. split; [|by eexists]. split; [done|]. split.
  - unfold last_of. cbn. by rewrite lookup_insert_eq.
  - intros k Hk. unfold last_of. cbn. rewrite lookup_insert_ne by congruence. by rewrite lookup_insert_ne by congruence.
Qed.

(** *** Any packets, and ticks *)
Inductive input := Arrived (src data : bytes) | Tick.

Definition step_input (node_key : NodePrivate) (i : input) (now : Z) : M unit :=
  match i with Arrived src data => handle_packet node_key src data now | Tick => drain_stack now end.

(** Errors end nothing. *)
Fixpoint handle_all (node_key : NodePrivate) (inputs : list (input * Z)) (h : HostT) : HostT * list bool :=
  match inputs with
  | [] => (h, [])
  | (i, now) :: inputs =>
      let (h, r) := step_input node_key i now h in
      let (h, rs) := handle_all node_key inputs h in
      (h, is_ok r :: rs)
  end.

(** The handshakes among the inputs that were answered: from whom, and when they
    say. *)
Definition answered (node_key : NodePrivate) (i : input) (r : bool) : option (bytes * bytes) :=
  match i with Arrived _ data => if r then learned_from node_key data else None | Tick => None end.
Fixpoint answers (node_key : NodePrivate) (inputs : list (input * Z)) (rs : list bool) : list (bytes * bytes) :=
  match inputs, rs with
  | (i, _) :: inputs, r :: rs => option_list (answered node_key i r) ++ answers node_key inputs rs
  | _, _ => []
  end.
Definition times (key : bytes) (l : list (bytes * bytes)) : list Z := map (fun x => from_be x.2) (filter (fun x => x.1 = key) l).

Lemma learned_kind node_key data key ts : learned_from node_key data = Some (key, ts) ->
  length ts = 12 /\ exists rest, data = MSG_INITIATION :: rest.
Proof.
  unfold learned_from. destruct (consume_initiation node_key data) as [[r i]|e| |] eqn:E; try done. intros [= <- <-].
  apply consume_initiation_Ok_inv in E as (_ & Hk & _ & _ & _ & _ & _ & _ & Ht & _). split; [done|]. destruct data as [|b rest]; [done|]. injection Hk as ->. by exists rest.
Qed.

(** A step answers at most one handshake, and moves on at most one timestamp. *)
Lemma step_input_spec node_key i now h h' r D : step_input node_key i now h = (h', r) ->
  peers_ok h -> sessions_in D h ->
  peers_ok h' /\ sessions_in (fun k => D k \/ exists ts, answered node_key i (is_ok r) = Some (k, ts)) h' /\
  match answered node_key i (is_ok r) with
  | Some (key, ts) => length ts = 12 /\ (exists src data, i = Arrived src data /\ admitted (around h) src) /\ advances h h' key ts
  | None => forall key, last_of h' key = last_of h key \/ exists ts, length ts = 12 /\ advances h h' key ts
  end.
Proof.
  intros Hstep Hpk Hd.
  assert (forall (m : M unit), (forall D, keeps D m) -> (i = Tick \/ exists src data, i = Arrived src data /\ forall k ts, learned_from node_key data <> Some (k, ts)) ->
    m h = (h', r) -> peers_ok h' /\ sessions_in (fun k => D k \/ exists ts, answered node_key i (is_ok r) = Some (k, ts)) h' /\
    match answered node_key i (is_ok r) with
    | Some (key, ts) => length ts = 12 /\ (exists src data, i = Arrived src data /\ admitted (around h) src) /\ advances h h' key ts
    | None => forall key, last_of h' key = last_of h key \/ exists ts, length ts = 12 /\ advances h h' key ts
    end) as Hquiet.
  { intros m Hm Hi Em. destruct (Hm D h Hd) as [Hd' Hp']. rewrite Em in Hd', Hp'. cbn [fst] in Hd', Hp'.
    assert (forall key, last_of h' key = last_of h key) as Hl by (intros key; unfold last_of; by rewrite Hp').
    assert (answered node_key i (is_ok r) = None) as Ha.
    { destruct Hi as [->|(src & data & -> & Hn)]; [done|]. cbn. destruct (is_ok r); [|done]. destruct (learned_from node_key data) as [[k ts]|] eqn:E; [|done]. by destruct (Hn k ts). }
    split; [intros k ts; rewrite Hl; apply Hpk|]. split; [intros k x Hx; left; by eapply Hd'|]. rewrite Ha. intros k. left. apply Hl. }
  assert (forall src data, i = Arrived src data -> (forall rest, data <> MSG_INITIATION :: rest) ->
    i = Tick \/ exists src data, i = Arrived src data /\ forall k ts, learned_from node_key data <> Some (k, ts)) as Hother.
  { intros src data -> Hne. right. exists src, data. split; [done|]. intros k ts (_ & rest & ->)%learned_kind. by eapply Hne. }
  destruct i as [src data|]; cbn [step_input] in Hstep.
  2:{ apply (Hquiet (drain_stack now)); [intros; apply drain_keeps|by left|done]. }
  unfold handle_packet in Hstep. destruct data as [|kind rest]; [apply (Hquiet (lift (Err EmptyPacket))); [intros; apply keeps_lift|by eapply Hother|done]|].
  case_decide as Hk; [|case_decide; [|case_decide]].
  - subst kind. pose proof (initiation_spec node_key src (MSG_INITIATION :: rest) now h) as Hs. unfold initiation_post in Hs. rewrite Hstep in Hs. cbn [fst snd] in Hs.
    cbn [answered]. destruct Hs as [(Hl & Hse & Hr)|(key & ts & Hle & Hadm & Hadv & Hse)].
    + assert (is_ok r = false) as -> by (by destruct r as [[]|e| |]). split; [intros k t; rewrite Hl; apply Hpk|].
      split; [intros k x; rewrite Hse; intros Hx; left; by eapply Hd|]. intros k. left. apply Hl.
    + rewrite Hle. destruct (learned_kind _ _ _ _ Hle) as [Hts _]. pose proof Hadv as (_ & HA & HB).
      split. { intros k t. destruct (decide (k = key)) as [->|Hne]; [rewrite HA; by intros [= <-]|rewrite HB by done; apply Hpk]. }
      destruct (is_ok r).
      * destruct Hse as [x Hse]. split; [|split; [done|split; [by exists src, (MSG_INITIATION :: rest)|done]]].
        intros k y. rewrite Hse. destruct (decide (key = k)) as [->|Hne]; [intros _; right; by exists ts|]. rewrite lookup_insert_ne by done. intros Hy. left. by eapply Hd.
      * split; [intros k x; rewrite Hse; intros Hx; left; by eapply Hd|]. intros k. destruct (decide (k = key)) as [->|Hne]; [right; by exists ts|left; by apply HB].
  - apply (Hquiet (ret tt)); [intros; apply keeps_ret| |done]. eapply Hother; [done|]. intros ? [= ? ?]. done.
  - apply (Hquiet (handle_transport src (kind :: rest) now)); [intros; apply transport_keeps| |done]. eapply Hother; [done|]. intros ? [= ? ?]. done.
  - apply (Hquiet (lift (Err (UnhandledType kind)))); [intros; apply keeps_lift| |done]. eapply Hother; [done|]. intros ? [= ? ?]. done.
Qed.

Lemma sorted_lower a b l : (a < b)%Z -> Sorted Z.lt (b :: l) -> Sorted Z.lt (a :: l).
Proof. intros Hab [Hs Hh]%Sorted_inv. constructor; [done|]. inversion Hh; constructor. lia. Qed.
Lemma sorted_drop (o : option Z) l : Sorted Z.lt (option_list o ++ l) -> Sorted Z.lt l.
Proof. destruct o; [by intros [? _]%Sorted_inv|done]. Qed.

Definition last_time (h : HostT) (key : bytes) : list Z := option_list (from_be <$> last_of h key).

(** A timestamp that moves on is still a lower bound for what is to come. *)
Lemma advances_sorted h h' key ts l : peers_ok h -> length ts = 12 -> advances h h' key ts ->
  Sorted Z.lt (last_time h' key ++ l) -> Sorted Z.lt (last_time h key ++ from_be ts :: l) /\ Sorted Z.lt (last_time h key ++ l).
Proof.
  intros Hpk Hl (Hn & Hlast & _). unfold last_time. rewrite Hlast. cbn [fmap option_fmap option_map option_list app]. intros Hs.
  destruct (last_of h key) as [prev|] eqn:E; cbn [fmap option_fmap option_map option_list app].
  - specialize (Hn prev eq_refl). apply newer_than in Hn; [|done|by eapply Hpk]. split; [constructor; [done|by constructor]|by eapply sorted_lower].
  - split; [done|]. by apply Sorted_inv in Hs as [? _].
Qed.

Lemma times_cons key x l : times key (x :: l) = (if decide (x.1 = key) then [from_be x.2] else []) ++ times key l.
Proof. unfold times. destruct (decide (x.1 = key)) as [Hx|Hx]; [rewrite filter_cons_True by done|rewrite filter_cons_False by done]; done. Qed.

Lemma handle_all_spec node_key inputs h h' rs D : handle_all node_key inputs h = (h', rs) -> peers_ok h -> sessions_in D h ->
  length rs = length inputs /\ (forall key, Sorted Z.lt (last_time h key ++ times key (answers node_key inputs rs))) /\
  sessions_in (fun k => D k \/ exists ts, (k, ts) ∈ answers node_key inputs rs) h' /\
  forall i src data now key ts, inputs !! i = Some (Arrived src data, now) -> rs !! i = Some true -> learned_from node_key data = Some (key, ts) ->
    admitted (around (handle_all node_key (take i inputs) h).1) src.
Proof.
  revert h rs D. induction inputs as [|[i now] inputs IH]; intros h rs D; cbn [handle_all].
  { intros [= <- <-] Hpk Hd. split; [done|]. split; [intros key; cbn; rewrite app_nil_r; unfold last_time; destruct (last_of h key); repeat constructor|].
    split; [|done]. intros k x Hx. left. by eapply Hd. }
  destruct (step_input node_key i now h) as [h1 r] eqn:Es. destruct (handle_all node_key inputs h1) as [h2 rs1] eqn:Ea. intros [= <- <-] Hpk Hd.
  destruct (step_input_spec node_key i now h h1 r D Es Hpk Hd) as (Hpk1 & Hd1 & Hans).
  destruct (IH h1 rs1 _ Ea Hpk1 Hd1) as (Hlen & Hsort & Hd2 & Hadm). cbn [answers]. split; [simpl; lia|]. split; [|split].
  - intros key. specialize (Hsort key). destruct (answered node_key i (is_ok r)) as [[k ts]|] eqn:Eans.
    + change (option_list (Some (k, ts)) ++ ?l) with ((k, ts) :: l). destruct Hans as (Hts & _ & Hadv). rewrite times_cons. cbn [fst snd]. case_decide as Hk; cbn [app].
      * subst k. exact (proj1 (advances_sorted _ _ _ _ _ Hpk Hts Hadv Hsort)).
      * destruct Hadv as (_ & _ & Hother). unfold last_time in *. by rewrite Hother in Hsort by done.
    + change (option_list None ++ ?l) with l. destruct (Hans key) as [Hl|(ts & Hts & Hadv)]; [unfold last_time in *; by rewrite Hl in Hsort|].
      exact (proj2 (advances_sorted _ _ _ _ _ Hpk Hts Hadv Hsort)).
  - intros k x Hx. apply Hd2 in Hx as [[Hk|(ts & Hk)]|(ts & Hk)]; [by left| |].
    + right. exists ts. rewrite Hk. by left.
    + right. exists ts. apply elem_of_app. by right.
  - intros [|j] src data now' key ts Hi Hr Hle; cbn [lookup list_lookup] in Hi, Hr.
    + injection Hi as -> ->. injection Hr as Hr. rewrite Hr in Hans. cbn [answered] in Hans. rewrite Hle in Hans.
      destruct Hans as (_ & (s' & d' & [= -> ->] & Hadm0) & _). exact Hadm0.
    + cbn [take handle_all]. rewrite Es. pose proof (Hadm j src data now' key ts Hi Hr Hle) as Ha.
      destruct (handle_all node_key (take j inputs) h1) as [h3 rs3] eqn:E3. exact Ha.
Qed.

(** C21. Handshakes are fresh and sessions earned. Through any packets and ticks,
    whatever the relay client and the stack do: the timestamps of the handshakes
    the host answers for one static key strictly increase, so that no initiation
    is answered twice; each came from a DERP key that the control plane had
    listed when it arrived, or at a time it had listed nobody; and a session is
    held only for a key whose handshake was answered. *)
Theorem handshakes_fresh node_key inputs h h' rs :
  peers (state h) = ∅ -> sessions (state h) = ∅ -> handle_all node_key inputs h = (h', rs) ->
  length rs = length inputs /\
  (forall key, Sorted Z.lt (times key (answers node_key inputs rs))) /\
  (forall key s, sessions (state h') !! key = Some s -> exists ts, (key, ts) ∈ answers node_key inputs rs) /\
  forall i src data now key ts, inputs !! i = Some (Arrived src data, now) -> rs !! i = Some true -> learned_from node_key data = Some (key, ts) ->
    admitted (around (handle_all node_key (take i inputs) h).1) src.
Proof.
  intros Hp Hs Ha. destruct (handle_all_spec node_key inputs h h' rs (fun _ => False) Ha) as (Hl & Hsort & Hd & Hadm).
  - intros key ts. unfold last_of. by rewrite Hp, lookup_empty.
  - intros key s. by rewrite Hs, lookup_empty.
  - split; [done|]. split; [intros key; eapply sorted_drop, Hsort|]. split; [|done]. intros key s Hk. by destruct (Hd key s Hk) as [[]|?].
Qed.
End Keeps.

(** ** Serving a peer *)

(** What is around keeps the streams to the LAN, and no forward is of port 0;
    the generator fills what it is given. *)
Class SurroundingsView (N X : Type) `{LV : HostTunnel.LanView N X} `{SN : !Surroundings N} := {
  known_peers_view n y : HostTunnel.lan (known_peers n).1 y = HostTunnel.lan n y;
  lookup_target_view n t y : HostTunnel.lan (lookup_target n t).1 y = HostTunnel.lan n y;
  no_port_zero n n' fs : configured_forwards n = (n', Ok fs) -> Forall (fun p => 0 < p.1)%Z fs;
}.
Class OsRngView (R : Type) `{OsRng R} := { fill_bytes_view r n : length (fill_bytes r n).2 = n }.

Section Serving.
Context `{P : Primitives, L : !PrimitiveLaws P} {W I SS H K N X R : Type}
  `{HL : HostDerp.HostLink W, HV : !HostDerp.HostLinkView W, HU : !HostDerp.HostLinkUp W}
  `{TV : Smoltcp.TcpView K} `{SM : !HostTunnel.Iface I SS H K, SMV : !HostTunnel.IfaceView I SS H K} `{LV : HostTunnel.LanView N X}
  `{SN : !Surroundings N, SNV : !SurroundingsView N X} `{RV : OsRngView R}.
Abbreviation TunnelStack := (HostTunnel.TunnelStack I SS H X).
Abbreviation HostT := (Host W TunnelStack N R).

(** What the client has written. *)
Definition wire (h : HostT) : bytes := HostDerp.written (HostDerp.tls (client h)).
(** A packet for [key], as it is on the wire. *)
Definition relayed (key packet : bytes) : bytes := derp_wire SendPacket (key ++ packet).

Lemma host_send_spec key packet h : (Z.of_nat (length (key ++ packet)) < 2 ^ 32)%Z ->
  exists c, on_client (HostDerp.send_packet key packet) h = (set_client h c, Ok tt) /\
    wire (set_client h c) = wire h ++ relayed key packet.
Proof.
  intros Hl. destruct (HostDerp.host_write_frame SendPacket (key ++ packet) (client h) Hl) as (c & E & Hw). exists c.
  unfold on_client, HostDerp.send_packet. rewrite E. split; [done|]. apply Hw.
Qed.

(** The peer takes packets from its relay connection, one after another. *)
Fixpoint hears (s : Session) (packets : list bytes) : Session * outcome WgError (list bytes) :=
  match packets with
  | [] => (s, Ok [])
  | p :: packets =>
      let (s, plain) := decrypt s p in
      match plain with
      | Ok plain => let (s, r) := hears s packets in (s, let? plains := r in Ok (plain :: plains))
      | Err e => (s, Err e)
      | Panic => (s, Panic)
      | NoFuel => (s, NoFuel)
      end
  end.

(** The host's session with [key] and the peer's, each below [k] packets. *)
Definition paired (h : HostT) (key : bytes) (s : Session) (k : Z) : Prop :=
  exists r, sessions (state h) !! key = Some r /\ feeds s r /\ feeds r s /\ (send_counter s <= k)%Z /\ (send_counter r <= k)%Z.

Definition sized (p : bytes) : Prop := length p <= 1500.

(** The packets of one plaintext each way. *)
Lemma host_encrypt (r s : Session) (plain out : bytes) : feeds r s -> feeds s r -> (send_counter r < REJECT_AFTER_MESSAGES)%Z ->
  sized plain -> length plain + 48 <= length out ->
  exists r' pkt s', encrypt r plain out = Ok (r', pkt ++ drop (length pkt) out, length pkt) /\ length pkt <= 1548 /\
    pkt !! 0 = Some MSG_TRANSPORT /\ decrypt s pkt = (s', Ok (padded plain)) /\ feeds r' s' /\ feeds s' r' /\
    send_counter r' = (send_counter r + 1)%Z /\ send_counter s' = send_counter s.
Proof.
  unfold sized. intros Hf Hb Hc Hl Ho. pose proof (div_ceil_ge (length plain)) as Hd.
  destruct (channel_step r s plain out Hf Hb Hc) as (r' & pkt & s' & ? & Hp & ? & ? & ? & ? & ? & ?); [lia|rewrite length_padded; lia|].
  rewrite length_padded in Hp. exists r', pkt, s'. split_and!; try done. lia.
Qed.

(** Another session in place of the one with [key], and what else may change. *)
Definition with_session (h : HostT) (key : bytes) (r : Session) : HostT := set_state h (set_sessions (state h) (<[key := r]> (sessions (state h)))).

Definition same_host (h h' : HostT) : Prop :=
  peers (state h') = peers (state h) /\ next_index (state h') = next_index (state h) /\ stack (state h') = stack (state h) /\
  tunnel_peer (state h') = tunnel_peer (state h) /\ around h' = around h.

Lemma same_host_trans a b c : same_host a b -> same_host b c -> same_host a c.
Proof. unfold same_host. intuition congruence. Qed.

(** What is pending reaches the peer, in order. *)
Lemma send_pending_spec key pending h s k : length key = 32 -> paired h key s k -> Forall sized pending ->
  (k + Z.of_nat (length pending) <= REJECT_AFTER_MESSAGES)%Z ->
  exists h' packets s', send_pending key pending h = (h', Ok tt) /\ wire h' = wire h ++ concat (map (relayed key) packets) /\
    hears s packets = (s', Ok (map padded pending)) /\ paired h' key s' (k + Z.of_nat (length pending)) /\ same_host h h'.
Proof.
  intros Hkey. revert h s k. induction pending as [|out pending IH]; intros h s k Hp Hs Hk; cbn [send_pending map].
  { exists h, [], s. cbn. rewrite app_nil_r, Z.add_0_r. by split_and!. }
  inversion_clear Hs as [|? ? Hout Hs']. cbn [length] in Hk. pose proof Hp as (r & Hr & Hf & Hb & Hcs & Hcr).
  destruct (host_encrypt r s out (zeros (length out + 64)) Hb Hf) as (r' & pkt & s1 & E & Hpl & _ & Hd & Hf' & Hb' & Hc1 & Hc2); [lia|done|rewrite length_zeros; lia|].
  unfold bind at 1, get_sessions at 1. cbn beta iota. rewrite Hr. cbn [ok_or]. rewrite bind_lift. rewrite E. cbn [map_err]. rewrite bind_lift. cbn beta iota.
  unfold change at 1. rewrite bind_modify. fold (with_session h key r'). rewrite slice_app_l_exact by done. rewrite bind_lift.
  destruct (host_send_spec key pkt (with_session h key r')) as (c & Es & Hw); [rewrite length_app; lia|]. rewrite (bind_ok _ _ _ _ _ Es). set (h1 := set_client _ c) in *.
  destruct (IH h1 s1 (k + 1)%Z) as (h' & packets & s' & E' & Hw' & Hh' & Hp' & Hsame); [|done|lia|].
  { exists r'. cbn. rewrite lookup_insert_eq. split_and!; (done || lia). }
  exists h', (pkt :: packets), s'. split; [exact E'|]. split; [rewrite Hw', Hw; cbn [map concat]; by rewrite <- app_assoc|]. split; [cbn [hears]; by rewrite Hd, Hh'|].
  split; [|by eapply same_host_trans; [|exact Hsame]]. destruct Hp' as (r2 & ? & ? & ? & ? & ?). exists r2. cbn [length]. split_and!; (done || lia).
Qed.

(** *** What the host promises

    With the cryptography and the relay left out: a peer's packet is answered if
    it is a ping, and goes to the stack if it is IPv4; what the stack sends goes
    back. *)
Inductive event := Up (payload : bytes) | Silence.

Definition inner_turn (t : TunnelStack) (n : N) (now : Z) : option TunnelStack * N * list bytes :=
  match HostTunnel.stack_turn (E:=Error) t (as_i64 now) n with
  | (n, Ok t) =>
      (Some (HostTunnel.set_device t {| HostTunnel.inbound := HostTunnel.inbound (HostTunnel.device t); HostTunnel.outbound := [] |}), n,
       HostTunnel.outbound (HostTunnel.device t))
  | (n, _) => (Some t, n, [])
  end.
Definition inner_new (n : N) (address : bytes) : option TunnelStack * N :=
  match configured_forwards n with
  | (n, Ok fs) =>
      match HostTunnel.stack_new (E:=Error) address ((SOCKS_PORT, HostTunnel.Socks) :: fs) SOCKET_POOL with
      | Ok t => (Some t, n)
      | _ => (None, n)
      end
  | (n, _) => (None, n)
  end.
Definition inner_feed (t : option TunnelStack) (n : N) (packet : bytes) (now : Z) : option TunnelStack * N * list bytes :=
  if decide (20 <= length packet /\ bshr (default x00 (packet !! 0)) 4 = x04) then
    match (match t with Some t => (Some t, n) | None => inner_new n (take 4 (drop 16 packet)) end) with
    | (Some t, n) => inner_turn (HostTunnel.arrival t (Some packet)) n now
    | (None, n) => (None, n, [])
    end
  else (t, n, []).
Definition inner_step (t : option TunnelStack) (n : N) (e : event) (now : Z) : option TunnelStack * N * list bytes :=
  match e with
  | Up payload =>
      match Tsmp.parse_ping (E:=Error) (padded payload) with
      | Ok (Some ping) => (t, n, [WgNode.pong_reply (E:=Error) ping])
      | _ => inner_feed t n (padded payload) now
      end
  | Silence => match t with Some t => inner_turn t n now | None => (t, n, []) end
  end.
Fixpoint inner_run (t : option TunnelStack) (n : N) (es : list (event * Z)) : option TunnelStack * N * list bytes :=
  match es with
  | [] => (t, n, [])
  | (e, now) :: es =>
      let '(t, n, outs) := inner_step t n e now in
      let '(t, n, more) := inner_run t n es in
      (t, n, outs ++ more)
  end.

(** A peer with session [s] and the host: each event, and what the peer hears of
    the packets it makes the host send. *)
Inductive talk (node_key : NodePrivate) (key : bytes) : HostT -> Session -> list (event * Z) -> list bytes -> HostT -> Session -> Prop :=
| talk_end h s : talk node_key key h s [] [] h s
| talk_up h s payload now s1 out n h1 packets s2 plains es heard h' s' :
    encrypt s payload (zeros 1600) = Ok (s1, out, n) -> handle_packet node_key key (take n out) now h = (h1, Ok tt) ->
    wire h1 = wire h ++ concat (map (relayed key) packets) -> hears s1 packets = (s2, Ok plains) ->
    talk node_key key h1 s2 es heard h' s' -> talk node_key key h s ((Up payload, now) :: es) (plains ++ heard) h' s'
| talk_silence h s now h1 packets s2 plains es heard h' s' :
    drain_stack now h = (h1, Ok tt) -> wire h1 = wire h ++ concat (map (relayed key) packets) -> hears s packets = (s2, Ok plains) ->
    talk node_key key h1 s2 es heard h' s' -> talk node_key key h s ((Silence, now) :: es) (plains ++ heard) h' s'.

(** The stack, if there is one, is steady and serves [key]. *)
Definition host_ok (key : bytes) (h : HostT) : Prop :=
  forall t, stack (state h) = Some t -> HostTunnel.steady (around h) t /\ tunnel_peer (state h) = Some key.

Definition inner_of (h : HostT) : option TunnelStack * N := (stack (state h), around h).

Lemma forward_entries_lan n es y : HostTunnel.lan (forward_entries n es).1 y = HostTunnel.lan n y.
Proof.
  revert n. induction es as [|e es IH]; intros n; cbn [forward_entries]; [done|].
  assert (HostTunnel.lan (forward_entry n e).1 y = HostTunnel.lan n y) as He.
  { unfold forward_entry. destruct (split_once _ _) as [[l t]|]; [|done]. destruct (parse_uint _ _) as [p|]; [|done].
    pose proof (lookup_target_view n (HostState.trim t) y) as Hv. by destruct (lookup_target n (HostState.trim t)). }
  destruct (forward_entry n e) as [n1 f]. specialize (IH n1). destruct (forward_entries n1 es) as [n2 fs]. cbn [fst] in *. congruence.
Qed.
Lemma forward_entries_range n es p : In p (forward_entries n es).2 -> (0 <= p.1 <= u16_max)%Z.
Proof.
  revert n. induction es as [|e es IH]; intros n; cbn [forward_entries]; [done|].
  assert (forall q, (forward_entry n e).2 = Some q -> (0 <= q.1 <= u16_max)%Z) as He.
  { unfold forward_entry. destruct (split_once _ _) as [[l t]|]; [|done]. destruct (parse_uint _ _) as [v|] eqn:Ep; [|done].
    assert (0 <= v <= u16_max)%Z as Hv.
      { unfold parse_uint in Ep. destruct (strip_plus _); [done|]. by apply parse_digits_range in Ep. }
      destruct (lookup_target n _) as [n' [a|]]; cbn; [|done]. by intros q [= <-]. }
  destruct (forward_entry n e) as [n1 f]. specialize (IH n1). destruct (forward_entries n1 es) as [n2 fs]. cbn [snd] in *.
  destruct f as [q|]; [|done]. intros [->|Hin]; [by apply He|by apply IH].
Qed.

Lemma forwards_spec n : exists n' fs, configured_forwards n = (n', Ok fs) /\ (forall y, HostTunnel.lan n' y = HostTunnel.lan n y) /\
  Forall (fun p => 0 < p.1 < 2 ^ 16)%Z fs.
Proof.
  destruct (configured_forwards n) as [n' r] eqn:E. pose proof E as E0. unfold configured_forwards in E. destruct (forward_variable n) as [spec|].
  2:{ injection E as <- <-. exists n, []. by split_and!. }
  pose proof (forward_entries_lan n (split_at x2c spec)) as Hl. pose proof (forward_entries_range n (split_at x2c spec)) as Hr.
  destruct (forward_entries n (split_at x2c spec)) as [n1 fs]. injection E as <- <-. exists n1, fs. split; [done|]. split; [exact Hl|].
  pose proof (no_port_zero n n1 fs E0) as Hz. rewrite List.Forall_forall in *. intros p Hp. specialize (Hz p Hp). specialize (Hr p Hp). unfold u16_max in Hr. lia.
Qed.

(** The host did it, and the peer heard what it was to hear. *)
Definition delivers (key : bytes) (h : HostT) (s : Session) (k : Z) (inner : option TunnelStack * N * list bytes) (hr : HostT * outcome Error unit) : Prop :=
  let '(t', n', outs) := inner in
  exists h' packets s', hr = (h', Ok tt) /\ wire h' = wire h ++ concat (map (relayed key) packets) /\
    hears s packets = (s', Ok (map padded outs)) /\ paired h' key s' (k + Z.of_nat (length outs)) /\ host_ok key h' /\ inner_of h' = (t', n') /\
    peers (state h') = peers (state h).
Definition cost (inner : option TunnelStack * N * list bytes) : Z := Z.of_nat (length inner.2).

Lemma delivers_nothing key h s k : host_ok key h -> paired h key s k -> delivers key h s k (stack (state h), around h, []) (h, Ok tt).
Proof. intros Hok Hp. exists h, [], s. cbn. rewrite app_nil_r, Z.add_0_r. by split_and!. Qed.

(** What went before was nothing on the wire. *)
Lemma delivers_from key h0 h s k inner hr : wire h = wire h0 -> peers (state h) = peers (state h0) -> delivers key h s k inner hr -> delivers key h0 s k inner hr.
Proof.
  destruct inner as [[t n] outs]. intros Hw Hp (h' & packets & s' & E1 & E2 & E3 & E4 & E5 & E6 & E7). exists h', packets, s'.
  split_and!; try done; congruence.
Qed.

(** A turn of the stack, and its packets on their way. *)
Lemma drain_ready key h s k t now n1 t1 : length key = 32 -> paired h key s k -> stack (state h) = Some t -> tunnel_peer (state h) = Some key ->
  HostTunnel.stack_turn (E:=Error) t (as_i64 now) (around h) = (n1, Ok t1) -> HostTunnel.steady n1 t1 ->
  (k + cost (inner_turn t (around h) now) <= REJECT_AFTER_MESSAGES)%Z ->
  delivers key h s k (inner_turn t (around h) now) (drain_stack now h).
Proof.
  intros Hkey Hp Hst Htp Et Hs1. unfold inner_turn, cost. rewrite Et. cbn [snd]. intros Hk.
  unfold drain_stack. unfold bind at 1, get_sessions at 1. cbn beta iota. rewrite Hst, Htp.
  unfold bind at 1, on_around at 1. rewrite Et. cbn beta iota. rewrite HostTunnel.pop_all_spec by lia. rewrite bind_lift. cbn beta iota. rewrite app_nil_l.
  unfold change at 1. rewrite bind_modify. set (h1 := set_state _ _).
  assert (host_ok key h1) as Hok1.
  { intros t2 [= <-]. split; [|exact Htp]. destruct Hs1 as (Hi1 & Hin1 & _). split; [by apply HostTunnel.inv_device|]. split; [exact Hin1|constructor]. }
  assert (paired h1 key s k) as Hp1 by exact Hp. case_decide as Hn.
  { rewrite Hn. exists h1, [], s. cbn [map concat length]. rewrite app_nil_r, Z.add_0_r. split_and!; try done. }
  destruct (send_pending_spec key (HostTunnel.outbound (HostTunnel.device t1)) h1 s k Hkey Hp1) as (h' & packets & s' & E' & Hw' & Hh' & Hp' & Hsame); [|exact Hk|].
  { destruct Hs1 as (_ & _ & Hm). unfold HostTunnel.within_mtu in Hm. refine (List.Forall_impl _ _ Hm). unfold sized, HostTunnel.TUNNEL_MTU. intros; simpl in *; lia. }
  exists h', packets, s'. destruct Hsame as (S1 & S2 & S3 & S4 & S5). split_and!; try done.
  - intros t2 Ht2. rewrite S3 in Ht2. rewrite S5, S4. by apply Hok1.
  - unfold inner_of. by rewrite S3, S5.
Qed.

Lemma silence_spec key h s k now : length key = 32 -> host_ok key h -> paired h key s k ->
  let inner := inner_step (stack (state h)) (around h) Silence now in
  (k + cost inner <= REJECT_AFTER_MESSAGES)%Z -> delivers key h s k inner (drain_stack now h).
Proof.
  intros Hkey Hok Hp. cbn [inner_step]. destruct (stack (state h)) as [t|] eqn:Hst.
  - destruct (Hok t Hst) as [Hsteady Htp]. pose proof (HostTunnel.steady_settled _ _ Hsteady) as Hset. destruct Hsteady as (_ & Hinb & Hmtu).
    destruct (HostTunnel.turn_spec (E:=Error) (around h) t (as_i64 now) Hset) as (n1 & t1 & Et & Hs1 & _); [rewrite Hinb; simpl; lia|done|].
    by apply (drain_ready key h s k t now n1 t1).
  - intros _. assert (drain_stack now h = (h, Ok tt)) as ->. { unfold drain_stack, bind, get_sessions. cbn beta iota. by rewrite Hst. }
    rewrite <- Hst. by apply delivers_nothing.
Qed.

(** The stack is there, or made. *)
Lemma stack_ready key h packet : host_ok key h -> 20 <= length packet ->
  exists h1 t, (match stack (state h) with
      | Some _ => ret tt
      | None => do! addr := lift (slice packet 16 20) in do! forwards := on_around configured_forwards in
          do! t := lift (HostTunnel.stack_new addr ((SOCKS_PORT, HostTunnel.Socks) :: forwards) SOCKET_POOL) in
          change (fun s => set_stack s (Some t))
      end) h = (h1, Ok tt) /\ stack (state h1) = Some t /\ HostTunnel.steady (around h1) t /\ wire h1 = wire h /\
      sessions (state h1) = sessions (state h) /\ peers (state h1) = peers (state h) /\
      (match stack (state h) with Some t => (Some t, around h) | None => inner_new (around h) (take 4 (drop 16 packet)) end) = (Some t, around h1).
Proof.
  intros Hok Hl. destruct (stack (state h)) as [t|] eqn:Hst.
  - exists h, t. destruct (Hok t Hst). split_and!; done.
  - destruct (forwards_spec (around h)) as (n1 & fs & Ef & Hlan & Hfs). rewrite slice_ok by lia. rewrite bind_lift.
    unfold bind at 1, on_around at 1. rewrite Ef. cbn beta iota.
    destruct (HostTunnel.stack_new_spec (E:=Error) (take (20 - 16) (drop 16 packet)) ((SOCKS_PORT, HostTunnel.Socks) :: fs) SOCKET_POOL n1) as (t & Et & Hsteady & _).
    { constructor; [unfold SOCKS_PORT; cbn; lia|done]. }
    rewrite Et, bind_lift. eexists _, t. split; [reflexivity|]. split_and!; try done. unfold inner_new. rewrite Ef. replace (20 - 16) with 4 in Et by done. by rewrite Et.
Qed.

(** A packet for the stack. *)
Lemma feed_spec key packet h s k now : length key = 32 -> host_ok key h -> paired h key s k ->
  let inner := inner_feed (stack (state h)) (around h) packet now in
  (k + cost inner <= REJECT_AFTER_MESSAGES)%Z -> delivers key h s k inner (feed_stack key packet now h).
Proof.
  intros Hkey Hok Hp. cbn zeta. unfold inner_feed.
  destruct (decide (20 <= length packet /\ bshr (default x00 (packet !! 0)) 4 = x04)) as [[Hl Hv]|Hv].
  2:{ intros _. assert (feed_stack key packet now h = (h, Ok tt)) as ->; [|by apply delivers_nothing]. unfold feed_stack. case_decide as Hl; [done|].
      destruct packet as [|b rest]; [simpl in Hl; lia|]. rewrite (index_ok _ 0 b) by done. rewrite bind_lift, decide_True; [done|].
      intros Hb. apply Hv. split; [lia|exact Hb]. }
  unfold feed_stack. rewrite decide_False by lia. destruct packet as [|b rest] eqn:Epk; [simpl in Hl; lia|]. rewrite <- Epk in *.
  assert (packet !! 0 = Some b) as Hb by (by rewrite Epk). rewrite (index_ok _ 0 b Hb), bind_lift. rewrite Hb in Hv. cbn [default from_option] in Hv.
  rewrite decide_False by (by intros Hn).
  destruct (stack_ready key h packet Hok) as (h1 & t & E1 & Ht1 & Hs1 & Hw1 & Hss1 & Hpe1 & Hin1); [lia|]. rewrite Hin1. intros Hk.
  unfold bind at 1, get_sessions at 1. cbn beta iota. rewrite (bind_ok _ _ _ _ _ E1). unfold change at 1. rewrite bind_modify. cbn beta iota.
  unfold bind at 1, get_sessions at 1. cbn beta iota. cbn [state set_state set_tunnel_peer stack]. rewrite Ht1. cbn [unwrap]. rewrite bind_lift.
  unfold change at 1. rewrite bind_modify. set (h2 := set_state _ _).
  destruct (HostTunnel.arrival_turn (E:=Error) (around h1) t (Some packet) (as_i64 now) Hs1) as (n2 & t2 & Et2 & Hs2 & _).
  apply (delivers_from key h h2); [exact Hw1|exact Hpe1|].
  apply (drain_ready key h2 s k (HostTunnel.arrival t (Some packet)) now n2 t2); try done.
  destruct Hp as (r & Hr & ?). exists r. split; [|done]. cbn. by rewrite Hss1.
Qed.

(** A packet the peer encrypts. *)
Lemma up_spec node_key key h s k payload now : length key = 32 -> host_ok key h -> paired h key s k -> sized payload ->
  let inner := inner_step (stack (state h)) (around h) (Up payload) now in
  (k + 1 + cost inner <= REJECT_AFTER_MESSAGES)%Z ->
  exists s1 out n, encrypt s payload (zeros 1600) = Ok (s1, out, n) /\
    delivers key h s1 (k + 1) inner (handle_packet node_key key (take n out) now h).
Proof.
  intros Hkey Hok (r & Hr & Hf & Hb & Hcs & Hcr) Hsz. cbn zeta. unfold cost. intros Hk.
  destruct (host_encrypt s r payload (zeros 1600) Hf Hb) as (s1 & pkt & r1 & E & Hpl & Hkind & Hd & Hf1 & Hb1 & Hc1 & Hc2); [lia|done|rewrite length_zeros; unfold sized in Hsz; lia|].
  rewrite E. exists s1, (pkt ++ drop (length pkt) (zeros 1600)), (length pkt). split; [done|]. rewrite take_app_length.
  unfold handle_packet. destruct pkt as [|kind rest] eqn:Epkt; [done|]. assert (kind = MSG_TRANSPORT) as -> by (by injection Hkind). rewrite <- Epkt in *. rewrite !decide_False by done. rewrite decide_True by done.
  unfold handle_transport. unfold bind at 1, get_sessions at 1. cbn beta iota. rewrite Hr. cbn [ok_or]. rewrite bind_lift, Hd. unfold change at 1. rewrite bind_modify.
  fold (with_session h key r1). set (h1 := with_session h key r1). cbn [map_err]. rewrite bind_lift.
  assert (paired h1 key s1 (k + 1)) as Hp1. { exists r1. cbn. rewrite lookup_insert_eq. split_and!; (done || lia). }
  assert (host_ok key h1) as Hok1 by exact Hok. cbn [inner_step] in *.
  destruct (Tsmp.parse_ping_total (E:=Error) (padded payload)) as [Hping|(ping & ihl & Hping & Hpok & _)]; rewrite Hping in *; rewrite bind_lift; cbn beta iota.
  - by apply (feed_spec key (padded payload) h1 s1 (k + 1) now).
  - destruct (Tsmp.pong_checksum (E:=Error) ping Hpok) as (sum & _ & Hck & _). unfold WgNode.pong_reply in *.
    rewrite Tsmp.write_pong_eq by (done || (rewrite length_zeros; lia)). rewrite Hck in *. cbn [obind]. rewrite bind_lift. cbn [ok_or]. rewrite bind_lift. cbn beta iota.
    pose proof (Tsmp.length_pong_packet ping sum Hpok) as Hpl2. rewrite slice_app_l_exact by done. rewrite bind_lift.
    destruct (host_encrypt r1 s1 (Tsmp.pong_packet ping sum) (zeros 256) Hb1 Hf1) as (r2 & pkt2 & s2 & E2 & Hl2 & _ & Hd2 & Hf2 & Hb2 & Hc3 & Hc4);
      [cbn [snd length] in Hk; lia|unfold sized; lia|rewrite length_zeros; lia|].
    rewrite E2. cbn [map_err]. rewrite bind_lift. cbn beta iota. unfold change at 1. rewrite bind_modify. fold (with_session h1 key r2). set (h2 := with_session h1 key r2).
    rewrite slice_app_l_exact by done. rewrite bind_lift.
    destruct (host_send_spec key pkt2 h2) as (c & Es & Hw); [rewrite length_app; lia|]. rewrite Es. exists (set_client h2 c), [pkt2], s2.
    split; [done|]. split; [cbn [map concat]; rewrite app_nil_r; exact Hw|]. split; [cbn [hears map]; by rewrite Hd2|].
    split; [|done]. exists r2. cbn. rewrite lookup_insert_eq. split_and!; (done || lia).
Qed.

(** The whole conversation. *)
Definition size_ok (e : event * Z) : Prop := match e.1 with Up p => sized p | Silence => True end.

Lemma talk_all node_key key es h s k : length key = 32 -> host_ok key h -> paired h key s k -> Forall size_ok es ->
  forall t' n' outs, inner_run (stack (state h)) (around h) es = (t', n', outs) ->
  (k + Z.of_nat (length es) + Z.of_nat (length outs) <= REJECT_AFTER_MESSAGES)%Z ->
  exists h' s', talk node_key key h s es (map padded outs) h' s' /\ inner_of h' = (t', n').
Proof.
  intros Hkey. revert h s k. induction es as [|[e now] es IH]; intros h s k Hok Hp Hsz t' n' outs; cbn [inner_run].
  { intros [= <- <- <-] _. exists h, s. split; [constructor|done]. }
  inversion_clear Hsz as [|? ? Hsz1 Hszs]. destruct (inner_step (stack (state h)) (around h) e now) as [[t1 n1] outs1] eqn:E1.
  destruct (inner_run t1 n1 es) as [[t2 n2] outs2] eqn:E2. intros [= <- <- <-] Hk. cbn [length] in Hk. rewrite length_app in Hk.
  assert (forall h1 s2, host_ok key h1 -> paired h1 key s2 (k + 1 + Z.of_nat (length outs1)) -> inner_of h1 = (t1, n1) ->
    exists h' s', talk node_key key h1 s2 es (map padded outs2) h' s' /\ inner_of h' = (t2, n2)) as Hrest.
  { intros h1 s2 Hok1 Hp1 [= Hs1 Hn1]. eapply IH; [done|exact Hp1|done|by rewrite Hs1, Hn1|lia]. }
  rewrite map_app. destruct e as [payload|].
  - pose proof (up_spec node_key key h s k payload now Hkey Hok Hp Hsz1) as Hup. cbn zeta in Hup. rewrite E1 in Hup. unfold cost in Hup. cbn [snd] in Hup.
    destruct Hup as (s1 & out & n & Ee & h1 & packets & s2 & Eh & Hw & Hh & Hp1 & Hok1 & Hin & _); [lia|].
    destruct (Hrest h1 s2 Hok1 Hp1 Hin) as (h' & s' & Ht & Hi). exists h', s'. split; [|done]. by eapply talk_up.
  - pose proof (silence_spec key h s k now Hkey Hok Hp) as Hsil. cbn zeta in Hsil. rewrite E1 in Hsil. unfold cost in Hsil. cbn [snd] in Hsil.
    destruct Hsil as (h1 & packets & s2 & Eh & Hw & Hh & Hp1 & Hok1 & Hin & _); [lia|].
    destruct (Hrest h1 s2 Hok1) as (h' & s' & Ht & Hi); [|done|].
    { destruct Hp1 as (r & ? & ? & ? & ? & ?). exists r. split_and!; (done || lia). }
    exists h', s'. split; [|done]. by eapply talk_silence.
Qed.

(** The peer's initiation, and the host's answer to it. *)
Lemma host_handshake node_key a ea li ts now h :
  priv_ok node_key -> priv_ok a -> priv_ok ea -> length ts = 12 -> (0 <= li < 2 ^ 32)%Z -> (1 <= next_index (state h) < 2 ^ 32)%Z ->
  let key := as_bytes (public_of a) in
  admitted (around h) key -> (forall prev, last_of h key = Some prev -> is_newer_than ts prev = true) ->
  exists i m1 response ki h1, initiator_new a (public_of node_key) ea li ts = Ok (i, m1) /\
    handle_packet node_key key m1 now h = (h1, Ok tt) /\ wire h1 = wire h ++ relayed key response /\
    consume_response i response = Ok ki /\ paired h1 key (session_new ki) 0 /\
    stack (state h1) = stack (state h) /\ tunnel_peer (state h1) = tunnel_peer (state h) /\ around h1 = (known_peers (around h)).1.
Proof.
  intros Hk Ha Hea Hts Hli Hidx key Hadm Hnew.
  destruct (consume_initiation_spec a node_key ea li ts) as (i & m1 & r & H1' & H2' & Hst & Hps & Hpe & Hpi & Hie & His & Hil); try done.
  pose proof (consume_initiation_Ok_inv _ _ _ _ H2') as (_ & Hkind & _). exists i, m1. rewrite H1'. unfold handle_packet. destruct m1 as [|b rest] eqn:Em; [done|]. assert (b = MSG_INITIATION) as -> by (by injection Hkind).
  rewrite decide_True by done. rewrite <- Em in *. unfold handle_initiation. unfold bind at 1. unfold on_around at 1. unfold admitted in Hadm.
  destruct (known_peers (around h)) as [n known]. cbn [snd fst] in *. cbn beta iota.
  assert (bool_decide (known = []) || existsb (fun p => bool_decide (as_bytes p = key)) known = true) as ->.
  { apply orb_true_iff. destruct Hadm as [->|(p & Hp & Hpk)]; [by left|right]. apply existsb_exists. exists p. split; [done|]. by apply bool_decide_eq_true. }
  cbn [negb]. rewrite H2'. cbn [map_err]. rewrite bind_lift. cbn beta iota. cbn [in_peer_static in_timestamp]. fold key.
  unfold bind at 1, get_sessions at 1. cbn beta iota. change (state (set_around h n)) with (state h).
  assert (WgPeer.accept_handshake_timestamp (default (WgPeer.peer_new (public_of a)) (peers (state h) !! key)) ts =
    (WgPeer.with_timestamp (default (WgPeer.peer_new (public_of a)) (peers (state h) !! key)) (Some ts), Ok tt)) as ->.
  { pose proof (last_of_default h key (public_of a)) as Hl. unfold WgPeer.accept_handshake_timestamp. rewrite Hl.
    destruct (last_of h key) as [prev|]; [|done]. by rewrite (Hnew prev eq_refl). }
  unfold change at 1. rewrite bind_modify. cbn [map_err]. rewrite bind_lift. unfold take_index. unfold bind at 1 2, get_sessions at 1. cbn beta iota.
  unfold change at 1. rewrite bind_modify. unfold ret at 1. cbn beta iota. unfold bind at 1, generate_key at 1.
  cbn [rng set_state set_around]. pose proof (fill_bytes_view (rng h) Keys.KEY_LEN) as Hseed. destruct (fill_bytes (rng h) Keys.KEY_LEN) as [rng' seed]. cbn [snd] in Hseed. cbn beta iota.
  assert (priv_ok (generate (k:=Keys.Node) seed).1) as Heph by (unfold priv_ok, generate; cbn [fst priv_bytes]; rewrite length_take; lia).
  destruct (respond_consume i r (generate seed).1 (next_index (state h))) as (m2 & kr & ki & H3' & H4' & Hk1 & Hk2 & Hk3 & Hk4 & Hk5 & Hk6 & Hk7 & Hk8);
    try done; try congruence; [lia|]. cbn [state set_state set_around set_peers next_index]. rewrite H3'. cbn [map_err]. rewrite bind_lift. cbn beta iota.
  assert (length m2 = 92) as Hm2.
  { destruct (respond_spec r (generate seed).1 (next_index (state h)) Heph) as (c & t & m & _ & Hcl & Htl & Hml & Hrs); [rewrite Hps; by apply public_of_ok|].
    cbv zeta in Hrs. rewrite Hrs in H3'. apply Ok_inj in H3'. assert (length (as_bytes (public_of (generate (k:=Keys.Node) seed).1)) = 32) as Hel by (apply public_of_ok; done).
    apply (f_equal fst) in H3'. cbn [fst] in H3'. rewrite <- H3'. unfold resp_segs. cbn [concat]. rewrite !length_app, !length_to_le, length_zeros, Hel. simpl. lia. }
  assert (length key = 32) as Hkl by (apply public_of_ok; done).
  match goal with |- context [on_client (HostDerp.send_packet key m2)] => idtac end.
  unfold bind at 1. match goal with |- context [on_client (HostDerp.send_packet key m2) ?h0] =>
    destruct (host_send_spec key m2 h0) as (c & Es & Hw); [rewrite length_app; lia|]; rewrite Es end. cbn beta iota.
  unfold bind at 1, get_sessions at 1. cbn beta iota. cbn [state set_client set_rng set_state set_around set_peers set_next_index peers]. rewrite lookup_insert_eq.
  cbn [unwrap]. rewrite bind_lift. unfold change at 1. rewrite bind_modify. unfold change, modify.
  eexists m2, ki, _. split; [done|]. split; [reflexivity|]. split; [exact Hw|]. split; [done|]. split; [|done].
  eexists. split; [cbn; by rewrite lookup_insert_eq|]. unfold feeds. split_and!; try done;
    cbn [send_cipher receive_cipher s_peer_index s_local_index session_new]; try done; try congruence.
  - exists []. split; [|constructor]. apply session_new_ok; (lia || congruence).
  - exists []. split; [|constructor]. apply session_new_ok; (lia || congruence).
Qed.

(** C3. The host serves a peer through the relay. Let a peer whose DERP key is its
    static key be admitted and its timestamp be news. The host answers its
    initiation with a response the peer accepts, and then, for any packets of
    the peer and any silences, each step succeeds and what the peer hears of the
    packets the host sends is, in order and in full, what the host promises
    without the cryptography: the pong of each ping, and the packets of the
    tunnel's stack, which is made at the first IPv4 packet, gets each of them,
    and takes its turns. *)
Theorem host_serves_peer node_key a ea li ts now h es t' n' outs :
  priv_ok node_key -> priv_ok a -> priv_ok ea -> length ts = 12 -> (0 <= li < 2 ^ 32)%Z -> (1 <= next_index (state h) < 2 ^ 32)%Z ->
  let key := as_bytes (public_of a) in
  admitted (around h) key -> (forall prev, last_of h key = Some prev -> is_newer_than ts prev = true) -> host_ok key h ->
  Forall size_ok es -> inner_run (stack (state h)) (known_peers (around h)).1 es = (t', n', outs) ->
  (Z.of_nat (length es) + Z.of_nat (length outs) <= REJECT_AFTER_MESSAGES)%Z ->
  exists i m1 response ki h1 h2 s2, initiator_new a (public_of node_key) ea li ts = Ok (i, m1) /\
    handle_packet node_key key m1 now h = (h1, Ok tt) /\ wire h1 = wire h ++ relayed key response /\
    consume_response i response = Ok ki /\
    talk node_key key h1 (session_new ki) es (map padded outs) h2 s2 /\ inner_of h2 = (t', n').
Proof.
  intros Hk Ha Hea Hts Hli Hidx key Hadm Hnew Hok Hsz Hrun Hlen.
  destruct (host_handshake node_key a ea li ts now h) as (i & m1 & response & ki & h1 & E1 & E2 & E3 & E4 & Hp & Hst & Htp & Har); try done.
  assert (length key = 32) as Hkl by (apply public_of_ok; done).
  assert (host_ok key h1) as Hok1.
  { intros t Ht. rewrite Hst in Ht. destruct (Hok t Ht) as [Hs Htp']. split; [|by rewrite Htp]. rewrite Har.
    eapply HostTunnel.steady_lan; [|exact Hs]. intros y. apply known_peers_view. }
  destruct (talk_all node_key key es h1 (session_new ki) 0 Hkl Hok1 Hp Hsz t' n' outs) as (h2 & s2 & Ht & Hi); [by rewrite Hst, Har|lia|].
  by exists i, m1, response, ki, h1, h2, s2.
Qed.
End Serving.

(** *** An example: nobody listed, no forwards, a generator of sevens. *)
Import HostTunnel.Example.
#[local] Existing Instances HostDerp.session_link HostDerp.session_view HostDerp.session_up.
#[local] Existing Instances Toy.toy Toy.toy_laws.

Module Example.

#[export] Instance quiet_surroundings : Surroundings network := {
  known_peers n := (n, []);
  forward_variable _ := None;
  lookup_target n _ := (n, None);
}.
#[export] Instance quiet_view : SurroundingsView network nat.
Proof. split; [done|done|]. intros n n' fs [= _ <-]. constructor. Defined.
#[export] Instance sevens : OsRng unit := { fill_bytes r n := (r, replicate n x07) }.
#[export] Instance sevens_view : OsRngView unit.
Proof. split. intros r n. apply length_replicate. Defined.

Abbreviation HostT := (Host HostDerp.session (HostTunnel.TunnelStack unit (list sock) nat nat) network unit).
Definition host : HostT := Build_Host (HostDerp.client_new ([], [])) sessions_new [] tt.
Definition node_key : NodePrivate := Private (replicate 32 x02).
Definition peer_key : NodePrivate := Private (replicate 32 x01).
Definition key : bytes := as_bytes (public_of peer_key).
Definition initiation : bytes :=
  match initiator_new peer_key (public_of node_key) (Private (replicate 32 x03)) 7 (zeros 12) with Ok (_, m) => m | _ => [] end.
Definition ping_packet : bytes :=
  [x45; x00; x00; x1d; x00; x00; x00; x00; x40; x63; x00; x00; x64; x40; x00; x02; x64; x40; x00; x01] ++ [x70] ++ bs "12345678".
(** An IPv4 packet; to the stack of the example, something said to its first socket. *)
Definition ip_packet : bytes := [x45; x00; x00; x18; x00; x00; x00; x00; x40; x06; x00; x00; x64; x40; x00; x02; x64; x40; x00; x01] ++ bs "data".
Definition events : list (event * Z) := [(Silence, 5%Z); (Up ping_packet, 6%Z); (Up ip_packet, 7%Z); (Silence, 8%Z)].

(** The initiation is answered; again, from whoever, it is not. *)
Definition inputs : list (input * Z) :=
  [(Arrived key initiation, 1%Z); (Arrived key initiation, 2%Z); (Arrived (replicate 32 x09) initiation, 3%Z); (Tick, 4%Z); (Arrived key (bs "junk"), 5%Z)].
Example initiation_once : (handle_all node_key inputs host).2 = [true; false; false; true; false].
Proof. vm_compute. reflexivity. Qed.
End Example.
Import Example.

Lemma handshakes_fresh_witness : exists h' rs,
  handle_all (P:=Toy.toy) Example.node_key Example.inputs Example.host = (h', rs) /\ length rs = 5 /\
  (forall key, Sorted Z.lt (times key (answers (P:=Toy.toy) Example.node_key Example.inputs rs))).
Proof.
  destruct (handle_all (P:=Toy.toy) Example.node_key Example.inputs Example.host) as [h' rs] eqn:E. exists h', rs. split; [reflexivity|].
  destruct (handshakes_fresh (L:=Toy.toy_laws) Example.node_key Example.inputs Example.host h' rs eq_refl eq_refl E) as (H1 & H2 & _).
  split; [exact H1|exact H2].
Defined.

Lemma host_serves_peer_witness : exists t' n' outs i m1 response ki h1 h2 s2,
  inner_run None [] Example.events = (t', n', outs) /\ length outs = 1 /\
  initiator_new (P:=Toy.toy) Example.peer_key (public_of (P:=Toy.toy) Example.node_key) (Private (replicate 32 x03)) 7 (zeros 12) = Ok (i, m1) /\
  handle_packet (P:=Toy.toy) Example.node_key Example.key m1 1 Example.host = (h1, Ok tt) /\ wire h1 = relayed Example.key response /\
  consume_response (P:=Toy.toy) i response = Ok ki /\
  talk (P:=Toy.toy) Example.node_key Example.key h1 (session_new ki) Example.events (map padded outs) h2 s2 /\ inner_of h2 = (t', n').
Proof.
  destruct (inner_run (I:=unit) (SS:=list Smoltcp.Example.sock) (H:=nat) (X:=nat) None ([] : HostTunnel.Example.network) Example.events) as [[t' n'] outs] eqn:E.
  assert (length outs = 1) as Hl. { apply (f_equal (fun r => length r.2)) in E. cbn [snd] in E. rewrite <- E. vm_compute. reflexivity. }
  destruct (host_serves_peer (L:=Toy.toy_laws) Example.node_key Example.peer_key (Private (replicate 32 x03)) 7 (zeros 12) 1 Example.host Example.events t' n' outs)
    as (i & m1 & response & ki & h1 & h2 & s2 & H1 & H2 & H3 & H4 & H5 & H6).
  - reflexivity.
  - reflexivity.
  - reflexivity.
  - reflexivity.
  - lia.
  - cbn. lia.
  - left. reflexivity.
  - intros prev. vm_compute. discriminate.
  - intros t. discriminate.
  - repeat constructor; vm_compute; lia.
  - exact E.
  - rewrite Hl. vm_compute. discriminate.
  - exists t', n', outs, i, m1, response, ki, h1, h2, s2. split; [reflexivity|]. split; [exact Hl|]. split; [exact H1|]. split; [exact H2|].
    split; [exact H3|]. split; [exact H4|]. split; [exact H5|exact H6].
Defined.
