(* ===== verification/FwConfig.v ===== *)
(** The firmware's configuration sector: [lando-fw/src/config.rs].

    The flash driver is third-party code: [FlashOps] has the three operations
    the store calls, [FlashLaws] what it relies on, and [Ram] is an instance for
    the examples. [load] and [save] follow the layout byte by byte; a slice out
    of the 512-byte buffer is a panic. *)
From S2P Require Import Prelude Utf8.

Definition FLASH_SIZE : Z := 4 * 1024 * 1024.
Definition MAGIC : bytes := bs "LANDOCFG".
Definition VERSION : byte := x03.
Definition MAX_FIELD : nat := 96.

(** [embassy_rp::flash]: the sector size, and [Flash]: a read gives the bytes or
    an error, an erase or write the flash afterwards and whether it succeeded. *)
Class FlashOps (F : Type) := {
  ERASE_SIZE : Z;
  blocking_read : F -> Z -> nat -> option bytes;
  blocking_erase : F -> Z -> Z -> F * bool;
  blocking_write : F -> Z -> bytes -> F * bool;
}.

(** A sector holds the buffer; reads have the asked length; an erase sets the range to ones; a write to an
    erased place is what is read there afterwards. *)
Class FlashLaws (F : Type) {O : FlashOps F} : Prop := {
  sector_size : (512 <= ERASE_SIZE)%Z;
  read_length f off n b : blocking_read f off n = Some b -> length b = n;
  erase_ones f a b f' off n :
    blocking_erase f a b = (f', true) -> (a <= off)%Z -> (off + Z.of_nat n <= b)%Z ->
    blocking_read f' off n = Some (replicate n xff);
  write_read f off data f' :
    blocking_write f off data = (f', true) -> blocking_read f off (length data) = Some (replicate (length data) xff) ->
    blocking_read f' off (length data) = Some data;
}.

Record Config := {
  ssid : bytes; password : bytes; auth_key : bytes; control_host : bytes; control_key : bytes;
  machine_key : option bytes; node_key : option bytes
}.

(** [#[derive(Default)]] *)
Definition config_default : Config :=
  {| ssid := []; password := []; auth_key := []; control_host := []; control_key := []; machine_key := None; node_key := None |}.

Definition is_complete (self : Config) : bool := bool_decide (ssid self <> []) && bool_decide (password self <> []).

Section Store.
Context {F : Type} `{O : FlashOps F} {E : Type}.

Definition CONFIG_OFFSET : Z := FLASH_SIZE - ERASE_SIZE.

(** The closure [read_field] of [load]: the field and [pos] afterwards, which
    stays where it was when there is none. [String::try_from] refuses what does
    not fit, which the test on [len] has excluded. *)
Definition read_field (buf : bytes) (pos : nat) : outcome E (option bytes * nat) :=
  match buf !! pos with
  | None => Ok (None, pos)
  | Some b =>
      let len := Z.to_nat (bz b) in
      if decide (MAX_FIELD < len \/ length buf < pos + 1 + len) then Ok (None, pos)
      else
        let? text := slice buf (pos + 1) (pos + 1 + len) in
        match from_utf8 text with
        | None => Ok (None, pos)
        | Some text => Ok (if decide (length text <= MAX_FIELD) then Some text else None, pos + 1 + len)
        end
  end.

(** The closure [read_key] of [load]. *)
Definition read_key (buf : bytes) (pos : nat) : outcome E (option bytes * nat) :=
  match buf !! pos with
  | None => Ok (None, pos)
  | Some present =>
      let pos := pos + 1 in
      if decide (present <> x01) then Ok (None, pos)
      else
        match get_range buf pos (pos + 32) with
        | None => Ok (None, pos)
        | Some b => let? k := copy_range (zeros 32) 0 32 b in Ok (Some k, pos + 32)
        end
  end.

(** [Store::load] *)
Definition load (flash : F) : outcome E (option Config) :=
  match blocking_read flash CONFIG_OFFSET 512 with
  | None => Ok None
  | Some buf =>
      let? magic := slice buf 0 8 in
      let? version := index buf 8 in
      if decide (magic <> MAGIC \/ version <> VERSION) then Ok None
      else
        let pos := 9 in
        let? (ssid, pos) := read_field buf pos in
        try? ssid := ok_or ssid tt else None in
        let? (password, pos) := read_field buf pos in
        try? password := ok_or password tt else None in
        let? (auth_key, pos) := read_field buf pos in
        let? (control_host, pos) := read_field buf pos in
        let? (control_key, pos) := read_field buf pos in
        let? (machine_key, pos) := read_key buf pos in
        let? (node_key, pos) := read_key buf pos in
        Ok (Some {| ssid := ssid; password := password; auth_key := default [] auth_key;
                    control_host := default [] control_host; control_key := default [] control_key;
                    machine_key := machine_key; node_key := node_key |})
  end.

(** The loop of [save] over the fields: the buffer and the position. *)
Fixpoint save_fields (fields : list bytes) (buf : bytes) (pos : nat) : outcome E (bytes * nat) :=
  match fields with
  | [] => Ok (buf, pos)
  | bytes :: fields =>
      let? buf := set_at buf pos (zb (Z.of_nat (length bytes))) in
      let? buf := copy_range buf (pos + 1) (pos + 1 + length bytes) bytes in
      save_fields fields buf (pos + (1 + length bytes))
  end.

(** The loop of [save] over the keys. *)
Fixpoint save_keys (keys : list (option bytes)) (buf : bytes) (pos : nat) : outcome E (bytes * nat) :=
  match keys with
  | [] => Ok (buf, pos)
  | Some k :: keys =>
      let? buf := set_at buf pos x01 in
      let? buf := copy_range buf (pos + 1) (pos + 33) k in
      save_keys keys buf (pos + 33)
  | None :: keys =>
      let? buf := set_at buf pos x00 in
      save_keys keys buf (pos + 1)
  end.

(** [Store::save]: the flash afterwards and whether it succeeded. *)
Definition save (flash : F) (config : Config) : outcome E (F * bool) :=
  let buf := zeros 512 in
  let? buf := copy_range buf 0 8 MAGIC in
  let? buf := set_at buf 8 VERSION in
  let pos := 9 in
  let? (buf, pos) := save_fields [ssid config; password config; auth_key config; control_host config; control_key config] buf pos in
  let? (buf, pos) := save_keys [machine_key config; node_key config] buf pos in
  let (flash, ok) := blocking_erase flash CONFIG_OFFSET (CONFIG_OFFSET + ERASE_SIZE) in
  if ok then Ok (blocking_write flash CONFIG_OFFSET buf) else Ok (flash, false).

(** [Store::clear] *)
Definition clear (flash : F) : F * bool := blocking_erase flash CONFIG_OFFSET (CONFIG_OFFSET + ERASE_SIZE).
End Store.

(** ** Proofs *)

Definition fields (c : Config) : list bytes := [ssid c; password c; auth_key c; control_host c; control_key c].
Definition keys (c : Config) : list (option bytes) := [machine_key c; node_key c].
Definition field_wire (f : bytes) : bytes := zb (Z.of_nat (length f)) :: f.
Definition key_wire (k : option bytes) : bytes := match k with Some k => x01 :: k | None => [x00] end.
Definition config_bytes (c : Config) : bytes :=
  MAGIC ++ [VERSION] ++ concat (map field_wire (fields c)) ++ concat (map key_wire (keys c)).

(** What the types and the provisioning guarantee. *)
Definition field_ok (f : bytes) : Prop := length f <= MAX_FIELD /\ utf8_valid f = true.
Definition key_ok (k : option bytes) : Prop := match k with Some k => length k = 32 | None => True end.
Definition config_ok (c : Config) : Prop := Forall field_ok (fields c) /\ Forall key_ok (keys c).

(** A byte and a body written at the position, or a panic when they do not fit. *)
Lemma save_part {E A} p h f r n (k : bytes -> outcome E A) :
  n = length f ->
  (let? buf := set_at (p ++ r) (length p) h in let? buf := copy_range buf (length p + 1) (length p + 1 + n) f in k buf) =
    if decide (S (length f) <= length r) then k ((p ++ h :: f) ++ drop (S (length f)) r) else Panic.
Proof.
  intros ->. destruct r as [|x r]; [unfold set_at; by rewrite !decide_False by len|].
  rewrite (set_at_app_r p _ 0) by (simpl; lia). cbn [obind list_insert insert length drop].
  unfold copy_range. rewrite length_app. cbn [length]. case_decide as H1; [|by rewrite decide_False by lia].
  rewrite decide_True by lia. cbn [obind]. f_equal. rewrite (cons_middle _ p r), app_assoc, overwrite_app by len.
  by rewrite <- !app_assoc.
Qed.

Lemma save_fields_spec {E} fs p r :
  let w := concat (map field_wire fs) in
  save_fields (E:=E) fs (p ++ r) (length p) =
    if decide (length w <= length r) then Ok ((p ++ w) ++ drop (length w) r, length p + length w) else Panic.
Proof.
  revert p r. induction fs as [|f fs IH]; intros p r; cbn [save_fields map concat].
  { rewrite decide_True by (simpl; lia). cbn [length drop]. by rewrite app_nil_r, Nat.add_0_r. }
  rewrite save_part by done. fold (field_wire f). rewrite length_app. change (length (field_wire f)) with (S (length f)).
  case_decide; [|by rewrite decide_False by lia].
  replace (length p + (1 + length f)) with (length (p ++ field_wire f)) by (rewrite length_app; simpl; lia).
  rewrite IH, length_drop. case_decide; [rewrite decide_True by lia|by rewrite decide_False by lia].
  rewrite drop_drop, <- !app_assoc, length_app. cbn [field_wire length]. do 2 f_equal. lia.
Qed.

Lemma save_keys_spec {E} ks p r :
  Forall key_ok ks ->
  let w := concat (map key_wire ks) in
  save_keys (E:=E) ks (p ++ r) (length p) =
    if decide (length w <= length r) then Ok ((p ++ w) ++ drop (length w) r, length p + length w) else Panic.
Proof.
  intros Hks. revert p r. induction Hks as [|k ks Hk _ IH]; intros p r; cbn [save_keys map concat].
  { rewrite decide_True by (simpl; lia). cbn [length drop]. by rewrite app_nil_r, Nat.add_0_r. }
  assert (forall k', length (key_wire k) <= length r -> length p + length (key_wire k) = k' ->
    save_keys (E:=E) ks ((p ++ key_wire k) ++ drop (length (key_wire k)) r) k' =
      if decide (length (concat (map key_wire ks)) <= length (drop (length (key_wire k)) r))
      then Ok ((p ++ key_wire k ++ concat (map key_wire ks)) ++ drop (length (key_wire k ++ concat (map key_wire ks))) r,
               length p + length (key_wire k ++ concat (map key_wire ks))) else Panic) as Hrest.
  { intros k' Hl <-. rewrite <- length_app, IH. case_decide; [|done]. rewrite drop_drop, <- !app_assoc, !length_app.
    do 2 f_equal. lia. }
  destruct k as [k|].
  - replace (length p + 33) with (length p + 1 + 32) by lia. rewrite save_part by done.
    change (length (key_wire (Some k))) with (S (length k)) in *. change (x01 :: k) with (key_wire (Some k)).
    unfold key_ok in Hk. pose proof (length_app (key_wire (Some k)) (concat (map key_wire ks))) as Hw. change (length (key_wire (Some k))) with (S (length k)) in Hw.
    destruct (decide (S (length k) <= length r)) as [H1|H1]; [|by rewrite decide_False by lia].
    rewrite Hrest by lia. repeat case_decide; try done; rewrite ?length_drop in *; lia.
  - change (length (key_wire None)) with 1 in *. destruct r as [|x r].
    { unfold set_at. by rewrite !decide_False by len. }
    rewrite (set_at_app_r p _ 0) by (simpl; lia). cbn [obind list_insert insert].
    change (p ++ x00 :: r) with (p ++ [x00] ++ r). rewrite app_assoc. change r with (drop 1 (x :: r)) at 1.
    rewrite Hrest by (simpl; lia). cbn [key_wire length app drop]. rewrite drop_0. repeat case_decide; try done; lia.
Qed.

Lemma config_bytes_length c :
  Forall key_ok (keys c) ->
  length (config_bytes c) = 9 + list_sum (map (fun f => S (length f)) (fields c)) +
    list_sum (map (fun k => match k with Some _ => 33 | None => 1 end) (keys c)).
Proof.
  intros Hk. destruct c as [f1 f2 f3 f4 f5 k1 k2]. unfold config_bytes, fields, keys in *. cbn [map concat list_sum ssid password auth_key
    control_host control_key machine_key node_key] in *. rewrite !length_app. unfold field_wire. cbn [length].
  apply List.Forall_cons_iff in Hk as [Hk1 Hk]. apply List.Forall_cons_iff in Hk as [Hk2 _].
  destruct k1, k2; cbn [key_wire length key_ok fold_right] in *; change (length MAGIC) with 8; unfold list_sum; cbn [fold_right]; lia.
Qed.

Lemma read_field_wire {E} p f r :
  field_ok f -> read_field (E:=E) (p ++ field_wire f ++ r) (length p) = Ok (Some f, length p + length (field_wire f)).
Proof.
  intros [Hl Hu]. unfold read_field, field_wire, MAX_FIELD in *. cbn [app].
  rewrite list_lookup_middle by done. rewrite bz_zb_small by lia. rewrite Nat2Z.id.
  rewrite decide_False by (rewrite length_app; cbn [length]; rewrite length_app; lia).
  rewrite (cons_middle _ p (f ++ r)), app_assoc. rewrite slice_seg by (rewrite length_app; simpl; lia). cbn [obind].
  rewrite from_utf8_valid by done. rewrite decide_True by done. cbn [length]. do 2 f_equal. lia.
Qed.

Lemma read_key_wire {E} p k r :
  key_ok k -> read_key (E:=E) (p ++ key_wire k ++ r) (length p) = Ok (k, length p + length (key_wire k)).
Proof.
  intros Hk. unfold read_key. destruct k as [k|]; cbn [key_wire app].
  - rewrite list_lookup_middle by done. rewrite decide_False by auto. unfold key_ok in Hk.
    rewrite (cons_middle _ p (k ++ r)), app_assoc.
    pose proof (slice_seg (E:=E) (p ++ [x01]) k r (length p + 1) (length p + 1 + 32) ltac:(rewrite length_app; simpl; lia) ltac:(rewrite length_app; simpl; lia)) as Hs.
    unfold slice in Hs. destruct (get_range _ _ _) as [b|]; [|done]. injection Hs as ->.
    rewrite copy_range_ok by (rewrite ?length_zeros; lia). cbn [obind].
    pose proof (overwrite_app [] (zeros 32) k 0 eq_refl : overwrite (zeros 32) 0 k = k ++ _) as ->.
    rewrite drop_ge by (rewrite length_zeros; lia). rewrite app_nil_r. cbn [length]. do 2 f_equal. lia.
  - rewrite list_lookup_middle by done. by rewrite decide_True.
Qed.

Lemma read_field_total {E} buf pos :
  exists o pos', read_field (E:=E) buf pos = Ok (o, pos') /\ forall f, o = Some f -> field_ok f.
Proof.
  unfold read_field. destruct (buf !! pos) as [b|]; [|by eexists _, _]. case_decide as Hd; [by eexists _, _|].
  rewrite slice_ok by lia. cbn [obind]. destruct (from_utf8 _) as [t|] eqn:Et; [|by eexists _, _].
  apply from_utf8_Some in Et as [-> Hv]. eexists _, _. split; [done|]. case_decide as Hl; [|done].
  by intros f [= <-].
Qed.

Lemma read_key_total {E} buf pos :
  exists o pos', read_key (E:=E) buf pos = Ok (o, pos') /\ key_ok o.
Proof.
  unfold read_key. destruct (buf !! pos) as [b|]; [|by eexists _, _]. case_decide; [by eexists _, _|].
  destruct (get_range _ _ _) as [k|] eqn:Ek; [|by eexists _, _]. unfold get_range in Ek. case_decide; [|done]. injection Ek as <-.
  rewrite copy_range_ok by (rewrite ?length_zeros, ?length_take, ?length_drop; lia). cbn [obind]. eexists _, _. split; [done|].
  unfold key_ok. rewrite length_overwrite by (rewrite ?length_zeros, ?length_take, ?length_drop; lia). apply length_zeros.
Qed.

Section StoreProofs.
Context {F : Type} `{O : FlashOps F, L : !FlashLaws F} {E : Type}.

Lemma save_spec flash c :
  config_ok c ->
  save (E:=E) flash c =
    if decide (length (config_bytes c) <= 512) then
      let (flash, ok) := blocking_erase flash CONFIG_OFFSET (CONFIG_OFFSET + ERASE_SIZE) in
      if ok then Ok (blocking_write flash CONFIG_OFFSET (config_bytes c ++ zeros (512 - length (config_bytes c)))) else Ok (flash, false)
    else Panic.
Proof.
  intros [_ Hk]. unfold save.
  assert (copy_range (E:=E) (zeros 512) 0 8 MAGIC = Ok (MAGIC ++ zeros 504)) as -> by (vm_compute; reflexivity). cbn [obind].
  assert (set_at (E:=E) (MAGIC ++ zeros 504) 8 VERSION = Ok ((MAGIC ++ [VERSION]) ++ zeros 503)) as -> by (vm_compute; reflexivity). cbn [obind].
  fold (fields c). pose proof (save_fields_spec (E:=E) (fields c) (MAGIC ++ [VERSION]) (zeros 503)) as Hfs.
  change (length (MAGIC ++ [VERSION])) with 9 in Hfs. rewrite length_zeros in Hfs. cbv zeta in Hfs. rewrite Hfs. clear Hfs.
  set (w := concat (map field_wire (fields c))). fold (keys c). pose proof (save_keys_spec (E:=E) (keys c)) as Hks.
  assert (length (config_bytes c) = 9 + length w + length (concat (map key_wire (keys c)))) as Hl
    by (unfold config_bytes; rewrite !length_app; simpl; lia).
  case_decide as Hw; [|by rewrite decide_False by lia]. cbn [obind].
  specialize (Hks ((MAGIC ++ [VERSION]) ++ w) (drop (length w) (zeros 503)) Hk). cbv zeta in Hks.
  rewrite length_drop, length_zeros, length_app in Hks. change (length (MAGIC ++ [VERSION])) with 9 in Hks. rewrite Hks. clear Hks.
  destruct (decide (length (concat (map key_wire (keys c))) <= 503 - length w)) as [H|H]; [|by rewrite decide_False by lia].
  rewrite decide_True by lia. cbn [obind]. unfold config_bytes at 1. rewrite <- !app_assoc.
  unfold zeros. rewrite !drop_replicate. do 8 f_equal. rewrite Hl. by replace (503 - length w - length (concat (map key_wire (keys c)))) with (512 - (9 + length w + length (concat (map key_wire (keys c))))) by lia.
Qed.

Lemma load_written flash c r :
  config_ok c -> blocking_read flash CONFIG_OFFSET 512 = Some (config_bytes c ++ r) -> load (E:=E) flash = Ok (Some c).
Proof.
  intros [Hf Hk] Hr. unfold load. rewrite Hr. unfold config_bytes. rewrite <- !app_assoc.
  rewrite (slice_app_l_exact MAGIC) by done. cbn [obind]. rewrite (index_ok _ 8 VERSION) by done. cbn [obind].
  rewrite decide_False by (intros [H|H]; by apply H). rewrite (app_assoc MAGIC).
  destruct c as [f1 f2 f3 f4 f5 k1 k2]. unfold fields, keys in *.
  cbn [map concat ssid password auth_key control_host control_key machine_key node_key] in *. rewrite !app_nil_r, <- !app_assoc.
  repeat match goal with H : Forall _ (_ :: _) |- _ => apply List.Forall_cons_iff in H as [? ?] end.
  change 9 with (length (MAGIC ++ [VERSION])). rewrite (app_assoc MAGIC).
  do 5 (rewrite read_field_wire by done; cbn [obind ok_or try_or]; rewrite <- length_app, (app_assoc _ (field_wire _))).
  rewrite read_key_wire by done. cbn [obind]. rewrite <- length_app, (app_assoc _ (key_wire k1)).
  rewrite read_key_wire by done. cbn [obind default]. done.
Qed.

(** C37. What is saved is what is loaded: for any configuration whose fields are
    text of at most 96 bytes and whose layout fits the 512-byte buffer, a save
    that succeeds makes [load] return exactly it, keys included; a layout that
    does not fit is a panic before the flash is touched, and without keys every
    configuration fits. *)
Theorem config_roundtrip flash c :
  config_ok c ->
  match save (E:=E) flash c with
  | Ok (flash', true) => load (E:=E) flash' = Ok (Some c) /\ length (config_bytes c) <= 512
  | Ok (_, false) => length (config_bytes c) <= 512
  | Panic => 512 < length (config_bytes c) /\ (machine_key c <> None \/ node_key c <> None)
  | _ => False
  end.
Proof.
  intros Hc. rewrite save_spec by done. pose proof sector_size as Hsec. case_decide as Hl.
  - destruct (blocking_erase _ _ _) as [f1 [|]] eqn:He; [|done].
    set (data := config_bytes c ++ zeros _). assert (length data = 512) as Hd by (unfold data; rewrite length_app, length_zeros; lia).
    destruct (blocking_write f1 CONFIG_OFFSET data) as [f2 [|]] eqn:Hw; [|done]. split; [|done].
    apply (load_written f2 c (zeros (512 - length (config_bytes c)))); [done|]. fold data. rewrite <- Hd.
    eapply write_read; [exact Hw|]. rewrite Hd. eapply erase_ones; [exact He|lia|lia].
  - split; [lia|]. pose proof Hc as [Hf Hk]. rewrite config_bytes_length in Hl by done.
    destruct (machine_key c) eqn:E1; [by left|]. destruct (node_key c) eqn:E2; [by right|]. exfalso. apply Hl.
    unfold fields, keys in *. rewrite E1, E2. repeat match goal with H : Forall _ (_ :: _) |- _ => apply List.Forall_cons_iff in H as [[? ?] ?] end.
    unfold MAX_FIELD, list_sum in *. cbn [map fold_right]. lia.
Qed.

(** A sector that does not validate is an unprovisioned device, never an
    error: whatever the flash holds, [load] returns no configuration or one whose
    fields are text of at most 96 bytes and whose keys have 32; an erased sector
    gives none. *)
Theorem config_load_total flash :
  (load (E:=E) flash = Ok None \/ exists c, load (E:=E) flash = Ok (Some c) /\ config_ok c) /\
  (forall flash', clear flash = (flash', true) -> load (E:=E) flash' = Ok None).
Proof.
  split.
  - unfold load. destruct (blocking_read flash _ 512) as [buf|] eqn:Hr; [|by left]. apply read_length in Hr.
    rewrite slice_ok by lia. cbn [obind]. destruct (lookup_lt_is_Some_2 buf 8 ltac:(lia)) as [v Hv].
    rewrite (index_ok _ _ _ Hv). cbn [obind]. case_decide; [by left|].
    destruct (read_field_total (E:=E) buf 9) as (o1 & p1 & -> & H1). cbn [obind]. destruct o1 as [f1|]; cbn [ok_or try_or]; [|by left].
    destruct (read_field_total (E:=E) buf p1) as (o2 & p2 & -> & H2). cbn [obind]. destruct o2 as [f2|]; cbn [ok_or try_or]; [|by left].
    destruct (read_field_total (E:=E) buf p2) as (o3 & p3 & -> & H3). cbn [obind].
    destruct (read_field_total (E:=E) buf p3) as (o4 & p4 & -> & H4). cbn [obind].
    destruct (read_field_total (E:=E) buf p4) as (o5 & p5 & -> & H5). cbn [obind].
    destruct (read_key_total (E:=E) buf p5) as (k1 & p6 & -> & Hk1). cbn [obind].
    destruct (read_key_total (E:=E) buf p6) as (k2 & p7 & -> & Hk2). cbn [obind]. right. eexists. split; [done|].
    assert (forall o, (forall f, o = Some f -> field_ok f) -> field_ok (default [] o)) as Hdef.
    { intros [f|] Ho; [by apply Ho|]. split; [apply Nat.le_0_l|done]. }
    split; unfold fields, keys; cbn [ssid password auth_key control_host control_key machine_key node_key];
      repeat (apply List.Forall_cons; [by auto|]); constructor.
  - intros flash' Hc. unfold clear in Hc. pose proof sector_size as Hsec. unfold load.
    rewrite (erase_ones _ _ _ _ CONFIG_OFFSET 512 Hc) by lia. reflexivity.
Qed.
End StoreProofs.

(** The largest configuration the types allow does not fit: saving it crashes. *)
Lemma config_save_overflow {F} `{O : FlashOps F} {E} (flash : F) :
  let field := replicate 96 x61 in
  let c := {| ssid := field; password := field; auth_key := field; control_host := field; control_key := field;
              machine_key := Some (replicate 32 x01); node_key := Some (replicate 32 x02) |} in
  config_ok c /\ length (config_bytes c) = 560 /\ save (E:=E) flash c = Panic.
Proof.
  split; [|split; reflexivity]. split; repeat constructor; (reflexivity || (vm_compute; lia)).
Qed.

(** *** A flash for the examples *)
Module Ram.
Definition read_at (f : Z -> byte) (off : Z) (n : nat) : bytes := map (fun i => f (off + Z.of_nat i)%Z) (seq 0 n).
#[export] Instance ops : FlashOps (Z -> byte) := {
  ERASE_SIZE := 4096;
  blocking_read f off n := Some (read_at f off n);
  blocking_erase f a b := (fun z => if decide (a <= z < b)%Z then xff else f z, true);
  blocking_write f off data := (fun z => if decide (off <= z)%Z then default (f z) (data !! Z.to_nat (z - off)) else f z, true);
}.

Lemma read_at_lookup f off n data :
  length data = n -> (forall i b, data !! i = Some b -> f (off + Z.of_nat i)%Z = b) -> read_at f off n = data.
Proof.
  intros Hl Hf. unfold read_at. apply list_eq. intros i. change (map ?g ?l) with (g <$> l). rewrite list_lookup_fmap.
  destruct (data !! i) as [b|] eqn:Hb.
  - rewrite lookup_seq_lt by (apply lookup_lt_Some in Hb; lia). cbn. by rewrite (Hf i b Hb).
  - rewrite lookup_seq_ge by (apply lookup_ge_None in Hb; lia). done.
Qed.

#[export] Instance laws : FlashLaws (Z -> byte).
Proof.
  split.
  - cbn. lia.
  - cbn. intros f off n b [= <-]. unfold read_at. by rewrite length_map, length_seq.
  - cbn. intros f a b f' off n [= <-] Ha Hb. f_equal. apply read_at_lookup; [apply length_replicate|].
    intros i c [-> Hi]%lookup_replicate. by rewrite decide_True by lia.
  - cbn. intros f off data f' [= <-] _. f_equal. apply read_at_lookup; [done|]. intros i c Hc.
    rewrite decide_True by lia. replace (Z.to_nat (off + Z.of_nat i - off)) with i by lia. by rewrite Hc.
Qed.
End Ram.
#[local] Existing Instances Ram.ops Ram.laws.

Definition example_flash : Z -> byte := fun _ => x5a.
Definition example_config : Config :=
  {| ssid := bs "attic"; password := bs "correct horse"; auth_key := []; control_host := bs "10.0.0.9:8080"; control_key := [];
     machine_key := Some (replicate 32 x07); node_key := None |}.

Lemma config_roundtrip_witness :
  match save (E:=Empty_set) example_flash example_config with
  | Ok (flash', true) => load (E:=Empty_set) flash' = Ok (Some example_config) /\ length (config_bytes example_config) <= 512
  | Ok (_, false) => length (config_bytes example_config) <= 512
  | Panic => 512 < length (config_bytes example_config) /\ (machine_key example_config <> None \/ node_key example_config <> None)
  | _ => False
  end.
Proof.
  apply (config_roundtrip (E:=Empty_set) example_flash example_config).
  split; repeat constructor; (reflexivity || (vm_compute; lia)).
Defined.

Lemma config_load_total_witness : load (E:=Empty_set) (clear example_flash).1 = Ok None.
Proof. apply (config_load_total (E:=Empty_set) example_flash). reflexivity. Defined.
