(* ===== verification/H2Conn.v ===== *)
(** The HTTP/2 connection of the firmware: [lando-fw/src/h2conn.rs].

    The TCP socket is third-party code ([Socket.SocketOps], [Socket.SocketView]).
    Every operation takes the connection and the socket and gives both back; on
    an error the connection is dropped, and so is the model's. *)
From S2P Require Import Prelude Crypto Buffer Framing Socket H2Reader H2Writer ControlResponse.
From S2P Require Noise.

Definition INITIAL_WINDOW : Z := 16 * 1024.
Definition MAX_FRAME : Z := 16 * 1024.
Definition MAX_MESSAGE : nat := 4096.
Definition MAX_CIPHERTEXT : nat := 4093.
Definition MAX_PLAINTEXT : nat := 4077.

(** The error type of the file; [H2Writer.H2Error] is the writer's. *)
Inductive H2Error := Io | Noise | Frame | Server | TooLarge.

Record H2Conn := {
  session : Noise.Session; reader : FrameReader; next_stream : Z;
  pending : bytes; pending_len : nat; pending_pos : nat;
  raw : bytes; raw_len : nat
}.

Definition set_session (c : H2Conn) (s : Noise.Session) : H2Conn :=
  {| session := s; reader := reader c; next_stream := next_stream c; pending := pending c; pending_len := pending_len c;
     pending_pos := pending_pos c; raw := raw c; raw_len := raw_len c |}.
Definition set_reader (c : H2Conn) (r : FrameReader) : H2Conn :=
  {| session := session c; reader := r; next_stream := next_stream c; pending := pending c; pending_len := pending_len c;
     pending_pos := pending_pos c; raw := raw c; raw_len := raw_len c |}.
Definition set_next_stream (c : H2Conn) (n : Z) : H2Conn :=
  {| session := session c; reader := reader c; next_stream := n; pending := pending c; pending_len := pending_len c;
     pending_pos := pending_pos c; raw := raw c; raw_len := raw_len c |}.
Definition set_pending (c : H2Conn) (p : bytes) (len pos : nat) : H2Conn :=
  {| session := session c; reader := reader c; next_stream := next_stream c; pending := p; pending_len := len;
     pending_pos := pos; raw := raw c; raw_len := raw_len c |}.
Definition set_raw (c : H2Conn) (r : bytes) (len : nat) : H2Conn :=
  {| session := session c; reader := reader c; next_stream := next_stream c; pending := pending c; pending_len := pending_len c;
     pending_pos := pending_pos c; raw := r; raw_len := len |}.

(** A frame written by a [Writer] over a fresh buffer. *)
Definition built (room : nat) (f : writer -> outcome H2Writer.H2Error writer) : outcome H2Error bytes :=
  let? w := map_err (fun _ => Frame) (f (Writer (zeros room) 0)) in
  slice (w_buf w) 0 (w_pos w).

Section Conn.
Context `{P : Primitives} {W : Type} `{SO : SocketOps W}.

(** The loop of [send]. *)
Fixpoint send_chunks (cs : list bytes) (c : H2Conn) (w : W) : outcome H2Error (H2Conn * W) :=
  match cs with
  | [] => Ok (c, w)
  | chunk :: cs =>
      let? (s, frame, n) := map_err (fun _ => Noise) (Noise.write_record (session c) chunk (zeros MAX_MESSAGE)) in
      let c := set_session c s in
      let? out := slice frame 0 n in
      let (w, ok) := sock_write w out in
      if ok then send_chunks cs c w else Err Io
  end.

(** [H2Conn::send] *)
Definition send (c : H2Conn) (w : W) (plaintext : bytes) : outcome H2Error (H2Conn * W) :=
  send_chunks (chunks MAX_PLAINTEXT plaintext) c w.

(** The loop of [drain_records]. *)
Fixpoint drain_loop (fuel : nat) (c : H2Conn) (pos : nat) : outcome H2Error (H2Conn * nat) :=
  match fuel with
  | O => NoFuel
  | S fuel =>
      let? rest := nsub (raw_len c) pos in
      if decide (rest < Noise.HEADER_LEN) then Ok (c, pos)
      else
        let? header := slice (raw c) pos (pos + Noise.HEADER_LEN) in
        let? (kind, len) := map_err (fun _ => Noise) (Noise.parse_header header) in
        let len := Z.to_nat len in
        if decide (MAX_CIPHERTEXT < len) then Err TooLarge
        else if decide (rest < Noise.HEADER_LEN + len) then Ok (c, pos)
        else if decide (kind = Noise.MSG_TYPE_ERROR) then Err Server
        else if decide (length (pending c) < pending_len c + len) then Ok (c, pos)
        else
          let? src := slice (raw c) (pos + Noise.HEADER_LEN) (pos + Noise.HEADER_LEN + len) in
          let? body := copy_range (zeros MAX_CIPHERTEXT) 0 len src in
          let? arg := slice body 0 len in
          let? (s, arg, n) := map_err (fun _ => Noise) (Noise.read_record (session c) arg) in
          let? body := copy_range body 0 len arg in
          let? plain := slice body 0 n in
          let? p := copy_range (pending c) (pending_len c) (pending_len c + n) plain in
          let c := set_pending (set_session c s) p (pending_len c + n) (pending_pos c) in
          drain_loop fuel c (pos + (Noise.HEADER_LEN + len))
  end.

(** [drain_records] *)
Definition drain_records (c : H2Conn) : outcome H2Error H2Conn :=
  let? c :=
    if decide (0 < pending_pos c) then
      let? p := copy_down (pending c) (pending_pos c) (pending_len c) in
      let? len := nsub (pending_len c) (pending_pos c) in
      Ok (set_pending c p len 0)
    else Ok c in
  let? (c, pos) := drain_loop (S (raw_len c)) c 0 in
  let? r := copy_down (raw c) pos (raw_len c) in
  let? len := nsub (raw_len c) pos in
  Ok (set_raw c r len).

(** [absorb] *)
Definition absorb (c : H2Conn) (b : bytes) : outcome H2Error H2Conn :=
  if decide (length (raw c) < raw_len c + length b) then Err TooLarge
  else
    let? r := copy_range (raw c) (raw_len c) (raw_len c + length b) b in
    drain_records (set_raw c r (raw_len c + length b)).

(** The loop of [pump]; the fuel is the number of reads. *)
Fixpoint pump_loop (fuel : nat) (before : nat) (c : H2Conn) (w : W) : outcome H2Error (H2Conn * W) :=
  match fuel with
  | O => NoFuel
  | S fuel =>
      if decide (raw_len c = length (raw c)) then Err TooLarge
      else
        let (w, b) := sock_read w (length (raw c) - raw_len c) in
        let? b := ok_or b Io in
        if decide (length b = 0) then Err Io
        else
          let? r := copy_range (raw c) (raw_len c) (raw_len c + length b) b in
          let? c := drain_records (set_raw c r (raw_len c + length b)) in
          let? avail := nsub (pending_len c) (pending_pos c) in
          if decide (before < avail) then Ok (c, w) else pump_loop fuel before c w
  end.

(** [pump] *)
Definition pump (fuel : nat) (c : H2Conn) (w : W) : outcome H2Error (H2Conn * W) :=
  let? before := nsub (pending_len c) (pending_pos c) in
  let? c := drain_records c in
  let? avail := nsub (pending_len c) (pending_pos c) in
  if decide (before < avail) then Ok (c, w) else pump_loop fuel before c w.

(** [skip_early_payload]; the device's [usize] has 32 bits. *)
Fixpoint skip_early_payload (fuel : nat) (c : H2Conn) (w : W) : outcome H2Error (H2Conn * W) :=
  match fuel with
  | O => NoFuel
  | S fuel' =>
      let? buffered := slice (pending c) (pending_pos c) (pending_len c) in
      let? e := map_err (fun e : Empty_set => match e with end) (parse_early_payload 32 buffered) in
      match e with
      | Absent => Ok (c, w)
      | Present consumed _ => Ok (set_pending c (pending c) (pending_len c) (pending_pos c + consumed), w)
      | Incomplete =>
          let? (c, w) := pump fuel c w in
          skip_early_payload fuel' c w
      end
  end.

(** [H2Conn::start] *)
Definition start (fuel : nat) (s : Noise.Session) (leftover : bytes) (w : W) : outcome H2Error (H2Conn * W) :=
  let conn := {| session := s; reader := new; next_stream := 1; pending := zeros MAX_MESSAGE; pending_len := 0; pending_pos := 0;
                 raw := zeros (2 * MAX_MESSAGE); raw_len := 0 |} in
  let? b := built 128 (fun w => let? w := preface w in settings w INITIAL_WINDOW MAX_FRAME) in
  let? (conn, w) := send conn w b in
  let? conn := absorb conn leftover in
  skip_early_payload fuel conn w.

Definition has_ack (cf : ControlFrame) : bool := negb (bool_decide (band (fh_flags (cf_header cf)) flag.ACK = x00)).

(** [handle_control] *)
Definition handle_control (c : H2Conn) (w : W) (cf : ControlFrame) : outcome H2Error (H2Conn * W) :=
  let kind := fh_kind (cf_header cf) in
  if bool_decide (kind = frame_type.SETTINGS) && negb (has_ack cf) then
    let? b := built 64 settings_ack in send c w b
  else if bool_decide (kind = frame_type.PING) && negb (has_ack cf) then
    let? p := payload cf in
    let? b := built 64 (fun w => ping_ack w p) in send c w b
  else if decide (kind = frame_type.GOAWAY \/ kind = frame_type.RST_STREAM) then Err Server
  else Ok (c, w).

(** [for cf in acks.iter().flatten()] *)
Fixpoint handle_controls (acks : list ControlFrame) (c : H2Conn) (w : W) : outcome H2Error (H2Conn * W) :=
  match acks with
  | [] => Ok (c, w)
  | cf :: acks => let? (c, w) := handle_control c w cf in handle_controls acks c w
  end.

(** What one pass over the pending plaintext gathers: the chunks handed to
    [on_data], the [acks] array as far as it is filled, and [done]. *)
Record Batch := { b_reader : FrameReader; b_offset : nat; b_chunks : list bytes; b_acks : list ControlFrame; b_done : bool }.

Definition on_item (stream_id : Z) (item : Item) (b : Batch) : Batch :=
  match item with
  | Control cf =>
      {| b_reader := b_reader b; b_offset := b_offset b; b_chunks := b_chunks b;
         b_acks := if decide (length (b_acks b) < 4) then b_acks b ++ [cf] else b_acks b; b_done := b_done b |}
  | Body header chunk ends =>
      {| b_reader := b_reader b; b_offset := b_offset b;
         b_chunks := if decide (fh_kind header = frame_type.DATA /\ fh_stream_id header = stream_id) then b_chunks b ++ [chunk] else b_chunks b;
         b_acks := b_acks b;
         b_done := if decide (fh_stream_id header = stream_id) then ends && end_stream header || b_done b else b_done b |}
  end.

(** [while offset < avail] in [post_stream] *)
Fixpoint batch_loop (fuel : nat) (stream_id : Z) (scratch : bytes) (avail : nat) (b : Batch) : outcome H2Error Batch :=
  match fuel with
  | O => NoFuel
  | S fuel =>
      if decide (b_offset b < avail) then
        let? input := slice scratch (b_offset b) avail in
        let? (r, used, item) := map_err (fun e : Empty_set => match e with end) (feed (b_reader b) input) in
        let b := {| b_reader := r; b_offset := b_offset b + used; b_chunks := b_chunks b; b_acks := b_acks b; b_done := b_done b |} in
        match item with
        | None => if decide (used = 0) then Ok b else batch_loop fuel stream_id scratch avail b
        | Some item => batch_loop fuel stream_id scratch avail (on_item stream_id item b)
        end
      else Ok b
  end.

(** The body of the reading loop of [post_stream]: the chunks, and [done]. *)
Definition post_pass (fuel : nat) (stream_id : Z) (c : H2Conn) (w : W) : outcome H2Error (H2Conn * W * list bytes * bool) :=
  let? (c, w) := if decide (pending_pos c = pending_len c) then pump fuel c w else Ok (c, w) in
  let? avail := nsub (pending_len c) (pending_pos c) in
  let? src := slice (pending c) (pending_pos c) (pending_len c) in
  let? scratch := copy_range (zeros MAX_MESSAGE) 0 avail src in
  let? b := batch_loop (S avail) stream_id scratch avail
              {| b_reader := reader c; b_offset := 0; b_chunks := []; b_acks := []; b_done := false |} in
  let c := set_pending (set_reader c (b_reader b)) (pending c) (pending_len c) (pending_pos c + b_offset b) in
  let? (c, w) := handle_controls (b_acks b) c w in
  let (owed, r) := take_pending_window (reader c) in
  let c := set_reader c r in
  let? (c, w) :=
    if decide (0 < owed)%Z then let? f := built 32 (fun w => window_update w 0 owed) in send c w f else Ok (c, w) in
  Ok (c, w, b_chunks b, b_done b).

Fixpoint post_loop (fuel : nat) (reads : nat) (stream_id : Z) (c : H2Conn) (w : W) : outcome H2Error (H2Conn * W * list bytes) :=
  match fuel with
  | O => NoFuel
  | S fuel =>
      let? (c, w, chunks, done) := post_pass reads stream_id c w in
      if (done : bool) then Ok (c, w, chunks)
      else let? (c, w, more) := post_loop fuel reads stream_id c w in Ok (c, w, chunks ++ more)
  end.

(** The loop of [post_stream] over the request body. *)
Fixpoint send_body (stream_id : Z) (total : nat) (cs : list bytes) (i : nat) (c : H2Conn) (w : W) : outcome H2Error (H2Conn * W) :=
  match cs with
  | [] => Ok (c, w)
  | chunk :: cs =>
      let last := bool_decide (total <= (i + 1) * (MAX_PLAINTEXT - FRAME_HEADER_LEN)) in
      let? f := built MAX_PLAINTEXT (fun w => data w stream_id chunk last) in
      let? (c, w) := send c w f in
      send_body stream_id total cs (S i) c w
  end.

(** [post_stream], with the chunks handed to [on_data]. *)
Definition post_stream (fuel reads : nat) (c : H2Conn) (w : W) (authority path body : bytes) : outcome H2Error (H2Conn * W * list bytes) :=
  let stream_id := next_stream c in
  let? next := uadd 32 (next_stream c) 2 in
  let c := set_next_stream c next in
  let? head := built 320 (fun w => post_headers w stream_id authority path (Z.of_nat (length body))) in
  let? (c, w) := send c w head in
  let? (c, w) := send_body stream_id (length body) (chunks (MAX_PLAINTEXT - FRAME_HEADER_LEN) body) 0 c w in
  post_loop fuel reads stream_id c w.

(** The closure of [post]: the buffer and [written] after the chunks. *)
Fixpoint collect_body (cs : list bytes) (out : bytes) (written : nat) : outcome H2Error (bytes * nat) :=
  match cs with
  | [] => Ok (out, written)
  | chunk :: cs =>
      let room := length out - written in
      let n := room `min` length chunk in
      let? src := slice chunk 0 n in
      let? out := copy_range out written (written + n) src in
      collect_body cs out (written + n)
  end.

(** [post]: the response body in [out] and how much of it was written. *)
Definition post (fuel reads : nat) (c : H2Conn) (w : W) (authority path body out : bytes) : outcome H2Error (H2Conn * W * bytes * nat) :=
  let? (c, w, cs) := post_stream fuel reads c w authority path body in
  let? (out, written) := collect_body cs out 0 in
  Ok (c, w, out, written).
End Conn.

(** ** Proofs: from the socket to the plaintext *)

(** Received but not decrypted; decrypted but not fed to the reader. *)
Definition staged (c : H2Conn) : bytes := take (raw_len c) (raw c).
Definition ready (c : H2Conn) : bytes := take (pending_len c - pending_pos c) (drop (pending_pos c) (pending c)).

Definition conn_ok (c : H2Conn) : Prop :=
  length (pending c) = MAX_MESSAGE /\ length (raw c) = 2 * MAX_MESSAGE /\
  pending_pos c <= pending_len c <= MAX_MESSAGE /\ raw_len c <= 2 * MAX_MESSAGE.

(** Everything but the buffers and the receiving nonce. *)
Definition same_sender (c c' : H2Conn) : Prop :=
  Noise.tx (session c') = Noise.tx (session c) /\ Noise.tx_nonce (session c') = Noise.tx_nonce (session c) /\
  Noise.rx (session c') = Noise.rx (session c) /\ reader c' = reader c /\ next_stream c' = next_stream c.

Lemma same_sender_refl c : same_sender c c.
Proof. by split_and!. Qed.
Lemma same_sender_trans a b c : same_sender a b -> same_sender b c -> same_sender a c.
Proof. unfold same_sender. intros (-> & -> & -> & -> & ->). done. Qed.

(** The server's messages [qs] are what is staged and what is still to come. *)
Definition receives `{P : Primitives} (c : H2Conn) (future : bytes) (qs : list bytes) : Prop :=
  conn_ok c /\ Noise.carries (Noise.rx (session c)) (Noise.rx_nonce (session c)) qs (staged c ++ future).

(** Why decrypting stopped: the next record is not all there, or would not fit. *)
Definition waits (staged : bytes) (room : nat) (qs : list bytes) : Prop :=
  match qs with [] => staged = [] | q :: _ => length staged < 19 + length q \/ room < 16 + length q end.

Lemma length_staged c : conn_ok c -> length (staged c) = raw_len c.
Proof. intros (_ & Hr & _ & Hl). unfold staged. rewrite length_take. lia. Qed.
Lemma length_ready c : conn_ok c -> length (ready c) = pending_len c - pending_pos c.
Proof. intros (Hp & _ & Hl & _). unfold ready. rewrite length_take, length_drop. lia. Qed.

Section ConnProofs.
Context `{P : Primitives, L : !PrimitiveLaws P}.

(** One record: all there, decrypted and appended. *)
Lemma drain_step fuel c pos q c0 t rest :
  conn_ok c -> pending_pos c = 0 -> pos <= raw_len c ->
  drop pos (staged c) = Noise.record_of c0 t ++ rest ->
  (0 <= Noise.rx_nonce (session c) < u64_max)%Z -> length q <= MAX_PLAINTEXT -> length c0 = length q -> length t = 16 ->
  chacha_encrypt (Noise.rx (session c)) (Noise.record_nonce (Noise.rx_nonce (session c))) [] q = Some (c0, t) ->
  drain_loop (S fuel) c pos =
    if decide (MAX_MESSAGE < pending_len c + (length q + 16)) then Ok (c, pos)
    else
      let s := session c in
      let s := {| Noise.tx := Noise.tx s; Noise.rx := Noise.rx s; Noise.tx_nonce := Noise.tx_nonce s;
                  Noise.rx_nonce := Noise.rx_nonce s + 1; Noise.handshake_hash := Noise.handshake_hash s |} in
      drain_loop fuel (set_pending (set_session c s) (overwrite (pending c) (pending_len c) q) (pending_len c + length q) (pending_pos c))
        (pos + (19 + length q)).
Proof.
  intros Hc Hpp Hpos Hrest Hn Hq Hc0 Ht HE. pose proof (length_staged c Hc) as Hls. pose proof Hc as (Hpl & Hrl & Hpend & Hrn).
  assert (length (drop pos (staged c)) = raw_len c - pos) as Hld by (rewrite length_drop; lia).
  rewrite Hrest, length_app, Noise.length_record_of in Hld by done.
  assert (forall a b, pos <= a -> a <= b -> b <= raw_len c -> slice (E:=H2Error) (raw c) a b = Ok (take (b - a) (drop (a - pos) (drop pos (staged c))))) as Hslice.
  { intros a b Ha Hb Hb2. rewrite slice_ok by lia. rewrite drop_drop. replace (pos + (a - pos)) with a by lia.
    unfold staged. rewrite skipn_firstn_comm, take_take. do 2 f_equal. lia. }
  cbn [drain_loop]. rewrite nsub_ok by done. cbn [obind]. rewrite decide_False by (unfold Noise.HEADER_LEN; lia).
  rewrite Hslice by (unfold Noise.HEADER_LEN; lia). cbn [obind]. rewrite Nat.sub_diag, drop_0, Hrest.
  replace (pos + Noise.HEADER_LEN - pos) with 3 by (unfold Noise.HEADER_LEN; lia).
  rewrite take_app_le by (rewrite Noise.length_record_of by done; lia).
  rewrite Noise.parse_header_record by (unfold Noise.MAX_PLAINTEXT_SIZE, Noise.MAX_CIPHERTEXT_SIZE, Noise.MAX_MESSAGE_SIZE, Noise.HEADER_LEN, Noise.TAG_LEN, MAX_PLAINTEXT in *; lia).
  cbn [map_err obind]. rewrite Nat2Z.id, Hc0. unfold MAX_CIPHERTEXT, MAX_PLAINTEXT, Noise.HEADER_LEN in *.
  rewrite !decide_False by lia. rewrite (decide_False (P:=_ = Noise.MSG_TYPE_ERROR)) by done.
  rewrite Hpl. case_decide as Hroom; [done|].
  rewrite Hslice by lia. cbn [obind]. rewrite Hrest.
  replace (pos + 3 - pos) with 3 by lia. replace (pos + 3 + (length q + 16) - (pos + 3)) with (length (c0 ++ t)) by (rewrite length_app; lia).
  rewrite drop_app_le, Noise.drop_record_header by (rewrite Noise.length_record_of by done; lia). rewrite take_app_length.
  assert (length (c0 ++ t) = length q + 16) as Hct by (rewrite length_app; lia).
  rewrite copy_range_ok by (rewrite ?length_zeros; lia). cbn [obind].
  pose proof (overwrite_app [] (zeros 4093) (c0 ++ t) 0 eq_refl : overwrite (zeros 4093) 0 (c0 ++ t) = (c0 ++ t) ++ _) as ->.
  rewrite slice_app_l_exact by done. cbn [obind].
  rewrite (Noise.read_record_spec (session c) q c0 t) by done. cbn [map_err obind].
  rewrite copy_range_app_l by (rewrite ?length_app; lia). cbn [obind].
  assert (overwrite (c0 ++ t) 0 (q ++ t) = q ++ t) as ->.
  { unfold overwrite. rewrite drop_ge by (rewrite !length_app; lia). apply app_nil_r. }
  rewrite <- app_assoc, slice_app_l_exact by done. cbn [obind].
  rewrite copy_range_ok by (unfold MAX_MESSAGE in *; lia). cbn [obind]. f_equal. lia.
Qed.

(** A record that is not all there is waited for. *)
Lemma drain_short fuel c pos (q c0 t future wire : bytes) :
  conn_ok c -> pos <= raw_len c -> drop pos (staged c) ++ future = Noise.record_of c0 t ++ wire ->
  length (drop pos (staged c)) < 19 + length q -> length q <= MAX_PLAINTEXT -> length c0 = length q -> length t = 16 ->
  drain_loop (S fuel) c pos = Ok (c, pos).
Proof.
  intros Hc Hpos Hw Hs Hq Hc0 Ht. pose proof (length_staged c Hc) as Hls. pose proof Hc as (Hpl & Hrl & Hpend & Hrn).
  rewrite length_drop, Hls in Hs. cbn [drain_loop]. rewrite nsub_ok by done. cbn [obind]. unfold Noise.HEADER_LEN.
  case_decide as H3; [done|]. rewrite slice_ok by lia. cbn [obind].
  assert (take (pos + 3 - pos) (drop pos (raw c)) = take 3 (Noise.record_of c0 t)) as ->.
  { replace (pos + 3 - pos) with 3 by lia. rewrite <- (take_app_le (Noise.record_of c0 t) wire) by (rewrite Noise.length_record_of by done; lia).
    rewrite <- Hw, take_app_le by (rewrite length_drop; lia). unfold staged. rewrite skipn_firstn_comm, take_take. f_equal. lia. }
  rewrite Noise.parse_header_record by (unfold Noise.MAX_PLAINTEXT_SIZE, Noise.MAX_CIPHERTEXT_SIZE, Noise.MAX_MESSAGE_SIZE, Noise.HEADER_LEN, Noise.TAG_LEN, MAX_PLAINTEXT in *; lia).
  cbn [map_err obind]. rewrite Nat2Z.id, Hc0. unfold MAX_CIPHERTEXT, MAX_PLAINTEXT in *.
  rewrite decide_False by lia. by rewrite decide_True by lia.
Qed.

(** The loop decrypts records in order until it has to wait. *)
Lemma drain_loop_spec fuel qs c pos future :
  conn_ok c -> pending_pos c = 0 -> pos <= raw_len c -> raw_len c - pos < fuel ->
  Noise.carries (Noise.rx (session c)) (Noise.rx_nonce (session c)) qs (drop pos (staged c) ++ future) ->
  exists c' pos' k, drain_loop fuel c pos = Ok (c', pos') /\ k <= length qs /\ conn_ok c' /\ pos <= pos' <= raw_len c /\
    same_sender c c' /\ raw c' = raw c /\ raw_len c' = raw_len c /\ pending_pos c' = 0 /\
    ready c' = ready c ++ concat (take k qs) /\
    Noise.carries (Noise.rx (session c')) (Noise.rx_nonce (session c')) (drop k qs) (drop pos' (staged c) ++ future) /\
    waits (drop pos' (staged c)) (MAX_MESSAGE - pending_len c') (drop k qs).
Proof.
  revert fuel c pos. induction qs as [|q qs IH]; intros fuel c pos Hc Hpp Hpos Hfuel Hcar.
  - apply Noise.carries_nil_inv, app_nil in Hcar as [Hnil ->].
    assert (raw_len c - pos = 0) as H0 by (rewrite <- (length_staged c Hc), <- length_drop, Hnil; done).
    destruct fuel as [|fuel]; [lia|]. cbn [drain_loop]. rewrite nsub_ok by done. cbn [obind]. rewrite decide_True by (unfold Noise.HEADER_LEN; lia).
    exists c, pos, 0. cbn [take drop concat]. rewrite app_nil_r, Hnil. split_and!; try (done || lia || constructor).
  - pose proof Hcar as (c0 & t & wire & Hw & Hn & Hp & HE & Hc0 & Ht & Hcar')%Noise.carries_cons_inv.
    assert (length q <= MAX_PLAINTEXT) as Hq by (unfold Noise.MAX_PLAINTEXT_SIZE, Noise.MAX_CIPHERTEXT_SIZE, Noise.MAX_MESSAGE_SIZE, Noise.HEADER_LEN, Noise.TAG_LEN, MAX_PLAINTEXT in *; lia).
    destruct fuel as [|fuel]; [lia|].
    assert (forall m, drain_loop (S fuel) c pos = Ok (c, pos) -> waits (drop pos (staged c)) (MAX_MESSAGE - pending_len c) (q :: qs) -> m = S fuel ->
      exists c' pos' k, drain_loop m c pos = Ok (c', pos') /\ k <= length (q :: qs) /\ conn_ok c' /\ pos <= pos' <= raw_len c /\
        same_sender c c' /\ raw c' = raw c /\ raw_len c' = raw_len c /\ pending_pos c' = 0 /\
        ready c' = ready c ++ concat (take k (q :: qs)) /\
        Noise.carries (Noise.rx (session c')) (Noise.rx_nonce (session c')) (drop k (q :: qs)) (drop pos' (staged c) ++ future) /\
        waits (drop pos' (staged c)) (MAX_MESSAGE - pending_len c') (drop k (q :: qs))) as Hstop.
    { intros m Hd Hwait ->. exists c, pos, 0. cbn [take drop concat]. rewrite app_nil_r. split_and!; try (done || lia). }
    destruct (decide (length (drop pos (staged c)) < 19 + length q)) as [Hshort|Hlong].
    { apply (Hstop (S fuel)); [|by left|done]. by apply (drain_short fuel c pos q c0 t future wire). }
    rewrite <- Hc0 in Hlong. apply app_cut in Hw as [Hcut Hwire]; [|rewrite Noise.length_record_of by done; lia].
    pose proof (drain_step fuel c pos q c0 t _ Hc Hpp Hpos Hcut Hn Hq Hc0 Ht HE) as Hstep.
    case_decide as Hroom; [apply (Hstop (S fuel)); [done|right; lia|done]|]. rewrite Hstep. clear Hstop Hstep. cbv zeta.
    match goal with |- context [drain_loop fuel ?c _] => set (c1 := c) end. pose proof Hc as (Hpl & Hrl & Hpend & Hrn).
    assert (conn_ok c1) as Hc1.
    { unfold conn_ok, c1. cbn. rewrite length_overwrite by (unfold MAX_MESSAGE in *; lia). split_and!; try (done || lia). }
    assert (ready c1 = ready c ++ q) as Hready.
    { unfold ready, c1. cbn [pending_len pending_pos pending set_pending set_session]. rewrite Hpp, !Nat.sub_0_r, !drop_0.
      apply take_overwrite. lia. }
    rewrite Noise.length_record_of, Hc0, drop_drop in Hwire by done. rewrite Hc0 in Hlong.
    rewrite length_drop, (length_staged c Hc) in Hlong.
    destruct (IH fuel c1 (pos + (19 + length q))) as (c' & pos' & k & Hd & Hk & Hc' & Hpos' & Hsame & Hraw & Hrl' & Hpp' & Hrd & Hcar2 & Hwait);
      try done; [cbn; lia|cbn; lia|change (staged c1) with (staged c); by rewrite Hwire|].
    exists c', pos', (S k). split; [done|]. cbn [length take drop concat]. split; [lia|]. split; [done|]. split; [cbn in Hpos'; lia|].
    split_and!; try done. by rewrite Hrd, Hready, <- app_assoc.
Qed.

(** [drain_records] loses and reorders nothing, whatever has arrived so far. *)
Lemma drain_records_spec c future qs :
  receives c future qs ->
  exists c' k, drain_records c = Ok c' /\ k <= length qs /\ receives c' future (drop k qs) /\ same_sender c c' /\ pending_pos c' = 0 /\
    ready c' = ready c ++ concat (take k qs) /\ waits (staged c') (MAX_MESSAGE - length (ready c')) (drop k qs).
Proof.
  intros [Hc Hcar]. pose proof Hc as (Hpl & Hrl & Hpend & Hrn). unfold drain_records.
  assert (exists c1, (if decide (0 < pending_pos c) then
      let? p := copy_down (pending c) (pending_pos c) (pending_len c) in
      let? len := nsub (pending_len c) (pending_pos c) in
      Ok (E:=H2Error) (set_pending c p len 0) else Ok c) = Ok c1 /\ conn_ok c1 /\ pending_pos c1 = 0 /\ ready c1 = ready c /\
      session c1 = session c /\ reader c1 = reader c /\ next_stream c1 = next_stream c /\ raw c1 = raw c /\ raw_len c1 = raw_len c)
    as (c1 & -> & Hc1 & Hp1 & Hrd1 & Hs1 & Hr1 & Hn1 & Hraw1 & Hlen1).
  { case_decide as Hp; [|exists c; split_and!; (done || lia)].
    destruct (copy_down_ok (E:=H2Error) (pending c) (pending_pos c) (pending_len c)) as (p & -> & Hl & Ht); [lia|lia|]. cbn [obind].
    rewrite nsub_ok by lia. cbn [obind]. eexists. split; [done|]. split_and!; try done.
    { unfold conn_ok. cbn [pending pending_len pending_pos raw raw_len set_pending]. split_and!; (done || congruence || lia). }
    unfold ready. cbn [pending pending_len pending_pos set_pending]. by rewrite Nat.sub_0_r, drop_0, Ht. }
  cbn [obind].
  destruct (drain_loop_spec (S (raw_len c1)) qs c1 0 future) as (c2 & pos & k & -> & Hk & Hc2 & Hpos & Hsame & Hraw2 & Hlen2 & Hp2 & Hrd2 & Hcar2 & Hwait);
    try done; [lia|lia|unfold staged; by rewrite drop_0, Hs1, Hraw1, Hlen1|].
  cbn [obind]. pose proof Hc2 as (Hpl2 & Hrl2 & Hpend2 & Hrn2).
  destruct (copy_down_ok (E:=H2Error) (raw c2) pos (raw_len c2)) as (r & -> & Hl & Ht); [lia|lia|]. cbn [obind].
  rewrite nsub_ok by lia. cbn [obind]. set (c3 := set_raw c2 r (raw_len c2 - pos)).
  assert (staged c3 = drop pos (staged c1)) as Hst.
  { unfold staged, c3. cbn [raw raw_len set_raw]. rewrite Ht, Hraw2, Hlen2. by rewrite skipn_firstn_comm. }
  assert (conn_ok c3) as Hc3 by (unfold conn_ok, c3; cbn [pending pending_len pending_pos raw raw_len set_raw]; split_and!; (done || congruence || lia)).
  exists c3, k. split; [done|]. split; [done|]. split; [split; [done|rewrite Hst; exact Hcar2]|].
  split; [|split; [done|]].
  - destruct Hsame as (? & ? & ? & ? & ?). unfold same_sender, c3. cbn. rewrite <- Hs1, <- Hr1, <- Hn1. by split_and!.
  - change (ready c3) with (ready c2). rewrite Hrd2, Hrd1. split; [done|]. rewrite <- Hrd1, <- Hrd2, Hst.
    rewrite (length_ready c2 Hc2), Hp2, Nat.sub_0_r. done.
Qed.

(** New bytes at the end of what is staged. *)
Lemma receives_more c b future qs r :
  receives c (b ++ future) qs -> raw_len c + length b <= 2 * MAX_MESSAGE ->
  r = overwrite (raw c) (raw_len c) b -> receives (set_raw c r (raw_len c + length b)) future qs.
Proof.
  intros [Hc Hcar] Hl ->. pose proof Hc as (Hpl & Hrl & Hpend & Hrn). split.
  - unfold conn_ok. cbn [pending pending_len pending_pos raw raw_len set_raw]. rewrite length_overwrite by lia. split_and!; (done || lia).
  - unfold staged. cbn [raw raw_len set_raw session]. rewrite take_overwrite by lia. by rewrite <- app_assoc.
Qed.

Lemma receives_consume c n future qs :
  receives c future qs -> n <= length (ready c) ->
  receives (set_pending c (pending c) (pending_len c) (pending_pos c + n)) future qs /\
  ready (set_pending c (pending c) (pending_len c) (pending_pos c + n)) = drop n (ready c).
Proof.
  intros [Hc Hcar] Hn. rewrite length_ready in Hn by done. pose proof Hc as (Hpl & Hrl & Hpend & Hrn). split; [split; [|done]|].
  - unfold conn_ok. cbn [pending pending_len pending_pos raw raw_len set_pending]. split_and!; (done || lia).
  - unfold ready. cbn [pending pending_len pending_pos set_pending]. rewrite skipn_firstn_comm, drop_drop. f_equal. lia.
Qed.

(** What happens to the buffers between two frames: bytes from the socket, a
    drain, and plaintext taken by the caller. *)
Inductive staging := Absorb (b : bytes) | Drain | Consume (n : nat).

Definition stage (op : staging) (c : H2Conn) : outcome H2Error (H2Conn * bytes) :=
  match op with
  | Absorb b => let? c := absorb c b in Ok (c, [])
  | Drain => let? c := drain_records c in Ok (c, [])
  | Consume n =>
      let n := n `min` length (ready c) in
      Ok (set_pending c (pending c) (pending_len c) (pending_pos c + n), take n (ready c))
  end.
Fixpoint stage_all (ops : list staging) (c : H2Conn) : outcome H2Error (H2Conn * bytes) :=
  match ops with
  | [] => Ok (c, [])
  | op :: ops =>
      let? (c, out) := stage op c in
      let? (c, rest) := stage_all ops c in
      Ok (c, out ++ rest)
  end.
Definition arrived (op : staging) : bytes := match op with Absorb b => b | _ => [] end.

Lemma stage_spec op c future qs :
  receives c (arrived op ++ future) qs ->
  match stage op c with
  | Ok (c', out) => exists k, k <= length qs /\ receives c' future (drop k qs) /\ out ++ ready c' = ready c ++ concat (take k qs)
  | Err e => e = TooLarge /\ 2 * MAX_MESSAGE < raw_len c + length (arrived op)
  | _ => False
  end.
Proof.
  intros Hr. destruct op as [b| |n]; cbn [arrived stage] in *.
  - pose proof Hr as [(Hpl & Hrl & Hpend & Hrn) _]. unfold absorb. rewrite Hrl. case_decide as Hl; [by split|].
    rewrite copy_range_ok by lia. cbn [obind].
    destruct (drain_records_spec (set_raw c (overwrite (raw c) (raw_len c) b) (raw_len c + length b)) future qs)
      as (c' & k & -> & Hk & Hr' & _ & _ & Hrd & _); [by apply receives_more; [|lia|]|]. cbn [obind]. by exists k.
  - destruct (drain_records_spec c future qs Hr) as (c' & k & -> & Hk & Hr' & _ & _ & Hrd & _). cbn [obind]. by exists k.
  - destruct (receives_consume c (n `min` length (ready c)) future qs Hr ltac:(lia)) as [Hr' Hrd].
    exists 0. cbn [take drop concat]. rewrite Hrd, app_nil_r, take_drop. split; [lia|]. by split.
Qed.

(** C31. The staging buffers carry the server's stream: however its records are
    cut by the socket, and whenever the caller takes plaintext, what has been
    taken followed by what is ready is the server's messages up to some point,
    in order and each once; the rest is still staged. The only failure is bytes
    that do not fit the 8192-byte buffer beside what is staged at the time, the steps
    before having gone well. And it never gets stuck: once the
    caller has taken everything, a drain either makes a message ready or leaves
    less than one maximal record staged, so there is room to read. *)
Theorem records_staged c ops future qs :
  receives c (concat (map arrived ops) ++ future) qs ->
  match stage_all ops c with
  | Ok (c', out) => exists k, k <= length qs /\ receives c' future (drop k qs) /\ out ++ ready c' = ready c ++ concat (take k qs) /\
      (ready c' = [] -> Forall (fun q => q <> []) qs -> exists c'', drain_records c' = Ok c'' /\ (ready c'' <> [] \/ raw_len c'' < MAX_MESSAGE))
  | Err e => e = TooLarge /\ exists before b after c' out, ops = before ++ Absorb b :: after /\ stage_all before c = Ok (c', out) /\
      2 * MAX_MESSAGE < length (staged c') + length b
  | _ => False
  end.
Proof.
  revert c qs. induction ops as [|op ops IH]; intros c qs Hr; cbn [stage_all map concat app] in *.
  - exists 0. cbn [take drop concat]. rewrite app_nil_r. split; [lia|]. split; [done|]. split; [done|]. intros He Hne.
    destruct (drain_records_spec c future qs Hr) as (c2 & k & Hd & Hk & Hr2 & _ & Hp2 & Hrd & Hw). exists c2. split; [done|].
    rewrite He in Hrd. cbn [app] in Hrd. destruct k as [|k].
    + right. pose proof Hr2 as [Hc2 Hcar2]. rewrite <- (length_staged c2 Hc2). rewrite drop_0 in Hcar2, Hw. rewrite take_0 in Hrd. rewrite Hrd in Hw.
      destruct qs as [|q qs]; cbn [waits] in Hw; [rewrite Hw; vm_compute; lia|].
      apply Noise.carries_cons_inv in Hcar2 as (c0 & t & wire & _ & _ & Hp & _).
      unfold Noise.MAX_PLAINTEXT_SIZE, Noise.MAX_CIPHERTEXT_SIZE, Noise.MAX_MESSAGE_SIZE, Noise.HEADER_LEN, Noise.TAG_LEN, MAX_MESSAGE in *.
      cbn [length concat] in Hw. lia.
    + left. rewrite Hrd. destruct qs as [|q qs]; [simpl in Hk; lia|]. cbn [take concat].
      apply List.Forall_cons_iff in Hne as [Hq _]. by destruct q.
  - rewrite <- app_assoc in Hr. pose proof (stage_spec op c _ qs Hr) as Hs.
    destruct (stage op c) as [[c1 out]|e| |] eqn:Eop; cbn [obind]; [| |done..].
    2:{ destruct Hs as [-> Hl]. split; [done|]. destruct op as [b| |n]; [|cbn [arrived length] in Hl; pose proof Hr as [(_ & _ & _ & ?) _]; lia..].
        exists [], b, ops, c, []. rewrite (length_staged c) by apply Hr. done. }
    destruct Hs as (k & Hk & Hr1 & Ho). specialize (IH c1 (drop k qs) Hr1).
    destruct (stage_all ops c1) as [[c2 rest]|e| |] eqn:Eall; cbn [obind]; [| |done..].
    2:{ destruct IH as [-> (before & b & after & c2 & rest & -> & Eb & Hl)]. split; [done|]. exists (op :: before), b, after, c2, (out ++ rest).
        split; [done|]. split; [cbn [stage_all]; by rewrite Eop; cbn [obind]; rewrite Eb|done]. }
    destruct IH as (j & Hj & Hr2 & Ho2 & Hnext). exists (k + j). rewrite length_drop in Hj. rewrite drop_drop in Hr2.
    split; [lia|]. split; [done|]. split.
    + rewrite <- app_assoc, Ho2, app_assoc, Ho, <- app_assoc, <- concat_app. by rewrite take_take_drop.
    + intros He Hne. apply Hnext; [done|]. by apply Forall_drop.
Qed.
End ConnProofs.

(** Two messages, the first cut inside its header and its last three bytes left
    with the caller's next call. *)
#[local] Existing Instances Toy.toy Toy.toy_laws.
Definition example_conn : H2Conn :=
  {| session := {| Noise.tx := replicate 32 x01; Noise.rx := replicate 32 x02; Noise.tx_nonce := 4; Noise.rx_nonce := 7; Noise.handshake_hash := zeros 32 |};
     reader := new; next_stream := 1; pending := zeros MAX_MESSAGE; pending_len := 0; pending_pos := 0;
     raw := zeros (2 * MAX_MESSAGE); raw_len := 0 |}.
Definition example_record (p : bytes) : bytes := Noise.record_of p (Toy.seal (replicate 32 x02) [] p).2.
Definition example_wire : bytes := example_record (bs "hello") ++ example_record (bs "world") ++ [].

Lemma example_receives : receives example_conn example_wire [bs "hello"; bs "world"].
Proof.
  split; [unfold conn_ok, example_conn, MAX_MESSAGE; cbn [pending pending_len pending_pos raw raw_len]; rewrite !length_zeros; lia|].
  change (staged example_conn) with (@nil byte). cbn [app]. unfold example_wire.
  repeat (apply Noise.carries_cons; [cbn; unfold u64_max; lia|vm_compute; discriminate|reflexivity|reflexivity|reflexivity|]). constructor.
Qed.

Definition example_ops : list staging := [Absorb (take 2 example_wire); Drain; Absorb (drop 2 example_wire); Consume 7].

Lemma records_staged_witness :
  receives example_conn (concat (map arrived example_ops) ++ []) [bs "hello"; bs "world"] /\
  match stage_all example_ops example_conn with
  | Ok (c', out) => exists k, k <= length [bs "hello"; bs "world"] /\ receives c' [] (drop k [bs "hello"; bs "world"]) /\
      out ++ ready c' = ready example_conn ++ concat (take k [bs "hello"; bs "world"]) /\
      (ready c' = [] -> Forall (fun q => q <> []) [bs "hello"; bs "world"] ->
       exists c'', drain_records c' = Ok c'' /\ (ready c'' <> [] \/ raw_len c'' < MAX_MESSAGE))
  | _ => False
  end.
Proof.
  assert (receives example_conn (concat (map arrived example_ops) ++ []) [bs "hello"; bs "world"]) as Hr.
  { replace (concat (map arrived example_ops) ++ []) with example_wire by (vm_compute; reflexivity). exact example_receives. }
  split; [exact Hr|]. pose proof (records_staged example_conn example_ops [] [bs "hello"; bs "world"] Hr) as H.
  assert (is_ok (stage_all example_ops example_conn) = true) as Hok by (vm_compute; reflexivity).
  destruct (stage_all example_ops example_conn) as [[c' out]|e| |]; [exact H|discriminate Hok..].
Defined.
