(* ===== verification/H2Post.v ===== *)
(** A request and its response over the firmware's HTTP/2 connection: the parts
    composed. [H2Conn.post_stream] writes frames ([H2Writer]), each in a Noise
    record ([Noise]), stages what the socket gives ([H2Conn]), and reads frames
    out of it ([H2Reader]). The theorem says what the two ends of the socket see:
    the request on the wire, the response body at the caller, and the flow-control
    credit returned for it. *)
From S2P Require Import Prelude Decimal Crypto Buffer Framing Socket H2Reader H2Writer H2Conn H2Events.
From S2P Require Noise.

(** ** Sending *)
Section Sending.
Context `{P : Primitives, L : !PrimitiveLaws P} {W : Type} `{SO : SocketOps W, SV : !SocketView W, SU : !SocketUp W}.

(** From [c] to [c'], the messages [ms] went out, a record each; nothing else changed. *)
Definition sends (c : H2Conn) (w : W) (ms : list bytes) (c' : H2Conn) (w' : W) : Prop :=
  exists wire, outbound w' = outbound w ++ wire /\ inbound w' = inbound w /\
    Noise.carries (Noise.tx (session c)) (Noise.tx_nonce (session c)) ms wire /\
    c' = set_session c {| Noise.tx := Noise.tx (session c); Noise.rx := Noise.rx (session c);
           Noise.tx_nonce := Noise.tx_nonce (session c) + Z.of_nat (length ms); Noise.rx_nonce := Noise.rx_nonce (session c);
           Noise.handshake_hash := Noise.handshake_hash (session c) |}.

(** So many messages can still be numbered. *)
Definition can_send (n : Z) (c : H2Conn) : Prop :=
  length (Noise.tx (session c)) = 32 /\ (0 <= Noise.tx_nonce (session c))%Z /\ (Noise.tx_nonce (session c) + n <= u64_max)%Z.

Lemma sends_nil c w : sends c w [] c w.
Proof.
  exists []. rewrite app_nil_r. split_and!; [done|done|constructor|]. destruct c as [[tx rx txn rxn hh] ? ? ? ? ? ? ?].
  unfold set_session. cbn. by rewrite Z.add_0_r.
Qed.

Lemma sends_trans c1 w1 ms1 c2 w2 ms2 c3 w3 : sends c1 w1 ms1 c2 w2 -> sends c2 w2 ms2 c3 w3 -> sends c1 w1 (ms1 ++ ms2) c3 w3.
Proof.
  intros (x & Ho1 & Hi1 & Hc1 & ->) (y & Ho2 & Hi2 & Hc2 & ->). exists (x ++ y). split_and!.
  - by rewrite Ho2, Ho1, app_assoc.
  - congruence.
  - by apply Noise.carries_app.
  - unfold set_session. cbn. do 2 f_equal. rewrite length_app. lia.
Qed.

Lemma can_send_less n m c : (m <= n)%Z -> can_send n c -> can_send m c.
Proof. unfold can_send. intros ? (? & ? & ?). split_and!; (done || lia). Qed.

Lemma sends_can_send n c w ms c' w' : sends c w ms c' w' -> can_send (Z.of_nat (length ms) + n) c -> can_send n c'.
Proof. intros (? & _ & _ & _ & ->) (? & ? & ?). unfold can_send. cbn. split_and!; (done || lia). Qed.

Lemma sends_keeps c w ms c' w' : sends c w ms c' w' ->
  inbound w' = inbound w /\ ready c' = ready c /\ reader c' = reader c /\ next_stream c' = next_stream c /\
  (forall future qs, receives c future qs -> receives c' future qs) /\
  Noise.tx (session c') = Noise.tx (session c) /\ Noise.tx_nonce (session c') = (Noise.tx_nonce (session c) + Z.of_nat (length ms))%Z /\
  pending_pos c' = pending_pos c /\ pending_len c' = pending_len c.
Proof. intros (? & _ & ? & _ & ->). by split_and!. Qed.

(** One message that fits a record. *)
Lemma send_spec c w p : p <> [] -> length p <= MAX_PLAINTEXT -> can_send 1 c -> exists c' w', send c w p = Ok (c', w') /\ sends c w [p] c' w'.
Proof.
  intros Hp Hl (Htx & H0 & Hn). unfold send. unfold MAX_PLAINTEXT in *.
  rewrite chunks_step by (lia || done). rewrite drop_ge, take_ge by lia. cbn [send_chunks].
  destruct (Noise.write_record_spec (session c) p (zeros MAX_MESSAGE)) as (c0 & t & E & Hc0 & Ht & ->);
    [done|lia|unfold Noise.MAX_PLAINTEXT_SIZE, Noise.MAX_CIPHERTEXT_SIZE, Noise.MAX_MESSAGE_SIZE, Noise.HEADER_LEN, Noise.TAG_LEN; lia|
     rewrite length_zeros; unfold MAX_MESSAGE; lia|].
  cbn [map_err obind]. assert (length (Noise.record_of c0 t) = 19 + length p) as Hr by (rewrite Noise.length_record_of; lia).
  rewrite slice_app_l_exact by done. cbn [obind].
  destruct (sock_write_up w (Noise.record_of c0 t)) as [w' Hw]. rewrite Hw. apply sock_write_view in Hw as [Ho Hi].
  cbn [chunks chunks_aux length send_chunks]. eexists _, w'. split; [done|].
  exists (Noise.record_of c0 t ++ []). rewrite app_nil_r. split_and!; [done..| |done].
  rewrite <- (app_nil_r (Noise.record_of c0 t)). apply Noise.carries_cons; try done; [lia| |constructor].
  unfold Noise.MAX_PLAINTEXT_SIZE, Noise.MAX_CIPHERTEXT_SIZE, Noise.MAX_MESSAGE_SIZE, Noise.HEADER_LEN, Noise.TAG_LEN. lia.
Qed.

(** A frame written over a fresh buffer is the frame. *)
Lemma built_put room f b : (forall w : writer, writer_ok w -> f w = put w b) -> length b <= room -> built room f = Ok b.
Proof.
  intros Hf Hl. unfold built. rewrite Hf by (unfold writer_ok; cbn; lia). unfold put. rewrite wput_fits by (cbn; rewrite length_zeros; lia).
  cbn [map_err obind]. rewrite advance_start by (rewrite length_zeros; lia). cbn [w_buf w_pos]. by rewrite slice_app_l_exact.
Qed.

(** A frame built and sent. *)
Lemma built_send room f s c w : (forall w : writer, writer_ok w -> f w = put w (sent_wire s)) -> 9 + length (s_payload s) <= room ->
  room <= MAX_PLAINTEXT -> can_send 1 c ->
  exists c' w', (let? b := built room f in send c w b) = Ok (c', w') /\ sends c w [sent_wire s] c' w'.
Proof.
  intros Hf Hl Hr Hs. rewrite (built_put room f (sent_wire s)) by (done || (unfold sent_wire; rewrite length_h2_wire; lia)). cbn [obind].
  apply send_spec; [|unfold sent_wire; rewrite length_h2_wire; lia|done].
  intros Hn. apply (f_equal length) in Hn. unfold sent_wire in Hn. rewrite length_h2_wire in Hn. simpl in Hn. lia.
Qed.

Definition BODY_CHUNK : nat := MAX_PLAINTEXT - FRAME_HEADER_LEN.

Lemma send_body_spec sid body i c w :
  can_send (Z.of_nat (length (chunks BODY_CHUNK body))) c ->
  exists c' w', send_body sid (i * BODY_CHUNK + length body) (chunks BODY_CHUNK body) i c w = Ok (c', w') /\
    sends c w (map sent_wire (body_frames sid (chunks BODY_CHUNK body))) c' w'.
Proof.
  remember (chunks BODY_CHUNK body) as cs eqn:Hcs. revert body i c w Hcs.
  induction cs as [|chunk cs IH]; intros body i c w Hcs Hs; cbn [send_body].
  { exists c, w. split; [done|]. apply sends_nil. }
  destruct (decide (body = [])) as [->|Hne]; [done|]. rewrite chunks_step in Hcs by (done || unfold BODY_CHUNK, MAX_PLAINTEXT, FRAME_HEADER_LEN; lia).
  simplify_eq. set (n := BODY_CHUNK) in *. assert (n = 4068) as Hn by done.
  assert (0 < length body) as Hb by (destruct body; simpl; [done|lia]).
  assert (bool_decide (i * n + length body <= (i + 1) * (MAX_PLAINTEXT - FRAME_HEADER_LEN)) = bool_decide (length body <= n)) as ->.
  { apply bool_decide_ext. change (MAX_PLAINTEXT - FRAME_HEADER_LEN) with n. lia. }
  assert (body_frames sid (take n body :: chunks n (drop n body)) =
    data_frame sid (bool_decide (length body <= n)) (take n body) :: body_frames sid (chunks n (drop n body))) as ->.
  { case_bool_decide as Hle; [rewrite drop_ge by lia; done|].
    assert (drop n body <> []) by (intros Hd; apply (f_equal length) in Hd; rewrite length_drop in Hd; simpl in Hd; lia).
    rewrite (chunks_step n (drop n body)) by (done || lia). apply body_frames_cons. }
  cbn [length] in Hs.
  pose proof (length_take body n) as Htake.
  destruct (built_send MAX_PLAINTEXT (fun w => data w sid (take n body) (bool_decide (length body <= n)))
    (data_frame sid (bool_decide (length body <= n)) (take n body)) c w) as (c1 & w1 & Hb1 & Hs1).
  - intros w0 _. apply data_spec. unfold fits_u32. lia.
  - cbn [data_frame s_payload]. unfold MAX_PLAINTEXT. lia.
  - apply Nat.le_refl.
  - eapply can_send_less; [|exact Hs]. lia.
  - destruct (IH (drop n body) (i + 1) c1 w1 eq_refl) as (c2 & w2 & Hb2 & Hs2).
    { eapply sends_can_send; [exact Hs1|]. eapply can_send_less; [|exact Hs]. simpl. lia. }
    exists c2, w2. split; [|apply (sends_trans _ _ [_] _ _ _ _ _ Hs1 Hs2)].
    apply obind_Ok_inv in Hb1 as (f & -> & Hsend). cbn [obind]. rewrite Hsend. cbn [obind].
    destruct (decide (length body <= n)) as [Hle|Hgt].
    + rewrite drop_ge in * by lia. cbn [send_body] in *. done.
    + replace (i * n + length body) with ((i + 1) * n + length (drop n body)) by (rewrite length_drop; lia).
      by rewrite Nat.add_1_r in Hb2 |- *.
Qed.
End Sending.

(** ** Receiving *)
Section Pumping.
Context `{P : Primitives, L : !PrimitiveLaws P} {W : Type} `{SO : SocketOps W, SV : !SocketView W, SU : !SocketUp W}.

(** [c'] has decrypted more of the same stream than [c]. *)
Definition pumped (c : H2Conn) (w : W) (qs : list bytes) (c' : H2Conn) (w' : W) : Prop :=
  exists k, 0 < k <= length qs /\ receives c' (inbound w') (drop k qs) /\ same_sender c c' /\
    ready c' = ready c ++ concat (take k qs) /\ outbound w' = outbound w /\ length (inbound w') <= length (inbound w).

Lemma receives_avail c future qs : receives c future qs -> nsub (E:=H2Error) (pending_len c) (pending_pos c) = Ok (length (ready c)).
Proof. intros [Hc _]. pose proof Hc as (_ & _ & ? & _). rewrite nsub_ok by lia. by rewrite length_ready. Qed.

(** A drain that decrypts nothing leaves the first record incomplete, if it has room. *)
Lemma drain_or_wait c future q qs : receives c future (q :: qs) -> length (ready c) + 16 + length q <= MAX_MESSAGE ->
  exists c' k, drain_records c = Ok c' /\ k <= length (q :: qs) /\ receives c' future (drop k (q :: qs)) /\ same_sender c c' /\
    ready c' = ready c ++ concat (take k (q :: qs)) /\ (k = 0 -> raw_len c' < 19 + length q).
Proof.
  intros Hr Hroom. destruct (drain_records_spec c future (q :: qs) Hr) as (c' & k & Hd & Hk & Hr' & Hs & _ & Hrd & Hw).
  exists c', k. split_and!; try done. intros ->. pose proof Hr' as [Hc' _]. rewrite <- (length_staged c' Hc').
  rewrite Hrd in Hw. cbn [drop waits take concat] in Hw. rewrite app_nil_r in Hw. lia.
Qed.

Lemma pumped_intro c0 c w0 w q qs k : q <> [] -> 0 < k <= length (q :: qs) -> receives c (inbound w) (drop k (q :: qs)) -> same_sender c0 c ->
  ready c = ready c0 ++ concat (take k (q :: qs)) -> outbound w = outbound w0 -> length (inbound w) <= length (inbound w0) ->
  pumped c0 w0 (q :: qs) c w /\ length (ready c0) < length (ready c).
Proof.
  intros Hq Hk Hr Hs Hrd Ho Hi. split; [exists k; split_and!; (done || lia)|]. rewrite Hrd. destruct k as [|k]; [lia|].
  cbn [take concat]. rewrite !length_app. destruct q; [done|simpl; lia].
Qed.

Lemma pump_loop_spec fuel q qs c w :
  receives c (inbound w) (q :: qs) -> q <> [] -> length (ready c) + 16 + length q <= MAX_MESSAGE -> raw_len c < 19 + length q ->
  length (inbound w) < fuel ->
  exists c' w', pump_loop fuel (length (ready c)) c w = Ok (c', w') /\ pumped c w (q :: qs) c' w' /\ length (ready c) < length (ready c').
Proof.
  revert c w. induction fuel as [|fuel IH]; intros c w Hr Hq Hroom Hraw Hfuel; [lia|].
  pose proof Hr as [Hc Hcar]. pose proof Hc as (Hpl & Hrl & Hpend & Hrn). cbn [pump_loop].
  apply Noise.carries_cons_inv in Hcar as (c0 & t & wire & Hw & _ & Hp & _ & Hc0 & Ht & _).
  assert (length q <= 4077) as Hq4 by (unfold Noise.MAX_PLAINTEXT_SIZE, Noise.MAX_CIPHERTEXT_SIZE, Noise.MAX_MESSAGE_SIZE, Noise.HEADER_LEN, Noise.TAG_LEN in Hp; lia).
  rewrite decide_False by (unfold MAX_MESSAGE in *; lia).
  assert (inbound w <> []) as Hin.
  { intros Hn. rewrite Hn, app_nil_r in Hw. apply (f_equal length) in Hw. rewrite length_app, Noise.length_record_of, length_staged in Hw by done. lia. }
  destruct (sock_read_up w (length (raw c) - raw_len c)) as (w1 & b & Hb); [unfold MAX_MESSAGE in *; lia|done|].
  rewrite Hb. apply sock_read_view in Hb as (Hbl & Hbi & Hbo & Hbe). cbn [ok_or obind].
  assert (length b <> 0) as Hb0.
  { intros H0. apply Hin, Hbe; [unfold MAX_MESSAGE in *; lia|]. by destruct b. }
  rewrite decide_False by done. rewrite copy_range_ok by lia. cbn [obind].
  set (c1 := set_raw c (overwrite (raw c) (raw_len c) b) (raw_len c + length b)).
  assert (receives c1 (inbound w1) (q :: qs)) as Hr1 by (apply receives_more; [by rewrite <- Hbi|lia|done]).
  assert (length (inbound w1) < length (inbound w)) as Hless by (rewrite Hbi, length_app; lia).
  destruct (drain_or_wait c1 (inbound w1) q qs Hr1 Hroom) as (c2 & k & -> & Hk & Hr2 & Hs2 & Hrd2 & Hwait). cbn [obind].
  rewrite (receives_avail c2 _ _ Hr2). cbn [obind]. change (ready c1) with (ready c) in Hrd2.
  assert (same_sender c c2) as Hsame by (by apply (same_sender_trans _ c1)).
  destruct (decide (k = 0)) as [->|Hk0].
  - cbn [take concat] in Hrd2. rewrite app_nil_r in Hrd2. rewrite drop_0 in Hr2. rewrite <- Hrd2, decide_False by lia.
    destruct (IH c2 w1 Hr2 Hq) as (c' & w' & Hpump & (j & Hj & Hr' & Hs' & Hrd' & Ho' & Hi') & Hlt); [by rewrite Hrd2|by apply Hwait|lia|].
    exists c', w'. split; [done|]. split; [|done]. exists j. rewrite <- Hrd2.
    split_and!; (done || lia || (by apply (same_sender_trans _ c2)) || congruence).
  - destruct (pumped_intro c c2 w w1 q qs k) as [Hpd Hlt]; try (done || lia). exists c2, w1.
    rewrite decide_True by done. by split_and!.
Qed.

(** [pump] makes at least one more message ready, while there is one to come
    and its record has room. *)
Lemma pump_spec fuel q qs c w :
  receives c (inbound w) (q :: qs) -> q <> [] -> length (ready c) + 16 + length q <= MAX_MESSAGE -> length (inbound w) < fuel ->
  exists c' w', pump fuel c w = Ok (c', w') /\ pumped c w (q :: qs) c' w'.
Proof.
  intros Hr Hq Hroom Hfuel. unfold pump. rewrite (receives_avail c _ _ Hr). cbn [obind].
  destruct (drain_or_wait c (inbound w) q qs Hr Hroom) as (c2 & k & -> & Hk & Hr2 & Hs2 & Hrd2 & Hwait). cbn [obind].
  rewrite (receives_avail c2 _ _ Hr2). cbn [obind]. destruct (decide (k = 0)) as [->|Hk0].
  - cbn [take concat] in Hrd2. rewrite app_nil_r in Hrd2. rewrite drop_0 in Hr2. rewrite <- Hrd2, decide_False by lia.
    destruct (pump_loop_spec fuel q qs c2 w Hr2 Hq) as (c' & w' & Hpump & (j & Hj & Hr' & Hs' & Hrd' & Ho' & Hi') & Hlt);
      [by rewrite Hrd2|by apply Hwait|lia|].
    exists c', w'. split; [done|]. exists j. rewrite <- Hrd2. split_and!; (done || lia || (by apply (same_sender_trans _ c2))).
  - destruct (pumped_intro c c2 w w q qs k) as [Hpd Hlt]; try (done || lia). exists c2, w. by rewrite decide_True.
Qed.
End Pumping.

(** ** A batch of frames *)

(** One item, in terms of the events it stands for. *)
Lemma on_item_spec sid i b : item_ok i -> Forall stays_open (item_seen i) -> Forall control_open (b_acks b) -> length (b_acks b) <= 4 ->
  let b' := on_item sid i b in
  b_reader b' = b_reader b /\ b_offset b' = b_offset b /\
  concat (b_chunks b') = concat (b_chunks b) ++ our_data sid (item_seen i) /\
  b_done b' = ended sid (item_seen i) || b_done b /\
  Forall control_open (b_acks b') /\ length (b_acks b') <= 4.
Proof.
  intros Hi Ho Ha Hl. destruct i as [cf|h chunk e]; cbn [on_item b_reader b_offset b_chunks b_acks b_done item_seen item_ok] in *.
  - unfold payload in *. rewrite slice_to in * by done. apply List.Forall_cons_iff in Ho as [Ho _]. cbn [our_data map concat data_of ended existsb ends_on app].
    rewrite app_nil_r. split_and!; try done.
    + case_decide; [|done]. apply Forall_app. split; [done|]. repeat constructor; [done|apply Ho..].
    + case_decide; [|done]. rewrite length_app. simpl. lia.
  - split; [done|]. split; [done|].
    assert (our_data sid match chunk with [] => [EvEmpty h] | _ => body_events h chunk e end =
      if decide (fh_kind h = frame_type.DATA /\ fh_stream_id h = sid) then chunk else []) as ->.
    { destruct chunk; [by case_decide|]. apply our_data_body. }
    assert (ended sid match chunk with [] => [EvEmpty h] | _ => body_events h chunk e end =
      bool_decide (fh_stream_id h = sid) && (e && end_stream h)) as ->.
    { destruct chunk; [rewrite Hi by done; cbn; by rewrite orb_false_r|by apply ended_body]. }
    split; [|split; [|done]].
    + case_decide; [|by rewrite app_nil_r]. rewrite concat_app. cbn [concat]. by rewrite app_nil_r.
    + case_decide as Hs; [rewrite bool_decide_eq_true_2 by done|rewrite bool_decide_eq_false_2 by done]; done.
Qed.

(** The loop over the pending plaintext is the reader's loop, with [on_item]
    folded over the items. *)
Lemma batch_loop_spec fuel sid (scratch : bytes) avail k b p ev :
  avail <= length scratch -> b_offset b <= avail -> avail - b_offset b < fuel ->
  h2_ok (avail - b_offset b + k) (b_reader b) ->
  run h2_format (h2_at (b_reader b)) (drop (b_offset b) (take avail scratch)) = inr (p, ev) ->
  Forall stays_open ev -> Forall control_open (b_acks b) -> length (b_acks b) <= 4 ->
  exists b', batch_loop fuel sid scratch avail b = Ok b' /\ b_offset b' = avail /\ h2_ok k (b_reader b') /\ h2_at (b_reader b') = p /\
    concat (b_chunks b') = concat (b_chunks b) ++ our_data sid ev /\ b_done b' = ended sid ev || b_done b /\
    Forall control_open (b_acks b') /\ length (b_acks b') <= 4 /\
    pending_window (b_reader b') = (pending_window (b_reader b) + Z.of_nat (data_count ev))%Z.
Proof.
  revert b ev. induction fuel as [|fuel IH]; intros b ev Hav Hoff Hfuel Hok Hrun Hopen Ha Hl; [lia|]. cbn [batch_loop].
  case_decide as Hlt.
  2:{ assert (b_offset b = avail) as Heq by lia. rewrite Heq in *. rewrite drop_ge in Hrun by (rewrite length_take; lia).
      cbn [run] in Hrun. simplify_eq. rewrite Nat.sub_diag in Hok.
      exists b. cbn. rewrite app_nil_r. split_and!; (done || lia). }
  rewrite slice_ok by lia. cbn [obind].
  assert (take (avail - b_offset b) (drop (b_offset b) scratch) = drop (b_offset b) (take avail scratch)) as ->.
  { by rewrite skipn_firstn_comm. }
  set (input := drop (b_offset b) (take avail scratch)) in *.
  assert (length input = avail - b_offset b) as Hin by (unfold input; rewrite length_drop, length_take; lia). rewrite <- Hin in Hok.
  pose proof (feed_steps (FramingLaws:=h2_framing_laws) (b_reader b) input k Hok) as Hs.
  destruct (feed (b_reader b) input) as [[[r n] item]|[]| |] eqn:Ef; [|done..].
  destruct Hs as (Hr & Hn & Hprog & Hnone & Hstep). cbn [map_err obind]. specialize (Hprog ltac:(lia)).
  rewrite <- (take_drop n input), (run_app_inr _ _ _ _ _ _ Hstep) in Hrun. cbn [reader_at h2_framing_laws] in Hrun.
  destruct (run h2_format (h2_at r) (drop n input)) as [|[p1 ev1]] eqn:Hrest; [done|]. simplify_eq.
  apply Forall_app in Hopen as [Hopen1 Hopen2].
  pose proof Hok as Hok0. rewrite <- (Nat.sub_0_r (length input)) in Hok0.
  pose proof (feed_pending 3 _ input 0 k r n item Hok0 ltac:(lia) Ef) as Hpend.
  set (b1 := {| b_reader := r; b_offset := b_offset b + n; b_chunks := b_chunks b; b_acks := b_acks b; b_done := b_done b |}).
  assert (drop (b_offset b + n) (take avail scratch) = drop n input) as Hdrop by (unfold input; by rewrite drop_drop).
  assert (forall b2, b_reader b2 = r -> b_offset b2 = b_offset b + n -> Forall control_open (b_acks b2) -> length (b_acks b2) <= 4 ->
    exists b', batch_loop fuel sid scratch avail b2 = Ok b' /\ b_offset b' = avail /\ h2_ok k (b_reader b') /\ h2_at (b_reader b') = p /\
      concat (b_chunks b') = concat (b_chunks b2) ++ our_data sid ev1 /\ b_done b' = ended sid ev1 || b_done b2 /\
      Forall control_open (b_acks b') /\ length (b_acks b') <= 4 /\ pending_window (b_reader b') = (pending_window r + Z.of_nat (data_count ev1))%Z) as Hnext.
  { intros b2 Hbr Hbo Hba Hbl. rewrite <- Hbr. apply IH; try done; rewrite ?Hbr, ?Hbo; try lia.
    - replace (avail - (b_offset b + n) + k) with (length input - n + k) by lia. exact Hr.
    - by rewrite Hdrop. }
  rewrite our_data_app, ended_app, data_count_app, Nat2Z.inj_add.
  destruct item as [i|]; cbn [from_option] in *.
  - pose proof (feed_item_ok 3 _ input 0 k r n i Hok0 ltac:(lia) Ef) as Hi.
    destruct (on_item_spec sid i b1 Hi Hopen1 Ha Hl) as (Hr2 & Ho2 & Hc2 & Hd2 & Ha2 & Hl2).
    destruct (Hnext (on_item sid i b1) Hr2 Ho2 Ha2 Hl2) as (b' & -> & Hof & Hk & Hat & Hc & Hd & Hac & Hlen & Hpw).
    exists b'. rewrite data_bytes_count in Hpend by done. split_and!; try done.
    + by rewrite Hc, Hc2, <- app_assoc.
    + rewrite Hd, Hd2. cbn [b1 b_done]. change (item_events i) with (item_seen i). by destruct (ended sid ev1), (ended sid (item_seen i)).
    + rewrite Hpw, Hpend. change (item_events i) with (item_seen i). lia.
  - rewrite decide_False by lia.
    destruct (Hnext b1 eq_refl eq_refl Ha Hl) as (b' & -> & Hof & Hk & Hat & Hc & Hd & Hac & Hlen & Hpw).
    exists b'. split_and!; try done. rewrite Hpw, Hpend. cbn. lia.
Qed.

(** ** Replies *)
Section Replies.
Context `{P : Primitives, L : !PrimitiveLaws P} {W : Type} `{SO : SocketOps W, SV : !SocketView W, SU : !SocketUp W}.

(** [ms] went out; the receiving side may have moved on. *)
Definition sent_out (c : H2Conn) (w : W) (ms : list bytes) (c' : H2Conn) (w' : W) : Prop :=
  exists wire, outbound w' = outbound w ++ wire /\ Noise.carries (Noise.tx (session c)) (Noise.tx_nonce (session c)) ms wire /\
    Noise.tx (session c') = Noise.tx (session c) /\
    Noise.tx_nonce (session c') = (Noise.tx_nonce (session c) + Z.of_nat (length ms))%Z /\ next_stream c' = next_stream c.

Lemma sends_sent_out c w ms c' w' : sends c w ms c' w' -> sent_out c w ms c' w'.
Proof. intros (wire & ? & _ & ? & ->). exists wire. by split_and!. Qed.

Lemma sent_out_trans c1 w1 ms1 c2 w2 ms2 c3 w3 : sent_out c1 w1 ms1 c2 w2 -> sent_out c2 w2 ms2 c3 w3 -> sent_out c1 w1 (ms1 ++ ms2) c3 w3.
Proof.
  intros (x & Ho1 & Hc1 & Ht1 & Hn1 & Hs1) (y & Ho2 & Hc2 & Ht2 & Hn2 & Hs2). exists (x ++ y). rewrite Ht1, Hn1 in Hc2. split_and!.
  - by rewrite Ho2, Ho1, app_assoc.
  - by apply Noise.carries_app.
  - congruence.
  - rewrite Hn2, Hn1, length_app. lia.
  - congruence.
Qed.

Lemma sent_out_can_send n c w ms c' w' : sent_out c w ms c' w' -> can_send (Z.of_nat (length ms) + n) c -> can_send n c'.
Proof. intros (wire & _ & _ & Ht & Hn & _) (? & ? & ?). unfold can_send. rewrite Ht, Hn. split_and!; (done || lia). Qed.

Lemma sent_out_receive c w c' w' : Noise.tx (session c') = Noise.tx (session c) -> Noise.tx_nonce (session c') = Noise.tx_nonce (session c) ->
  next_stream c' = next_stream c -> outbound w' = outbound w -> sent_out c w [] c' w'.
Proof. intros ??? Ho. exists []. rewrite app_nil_r. split_and!; try done; [constructor|simpl; lia]. Qed.

Lemma handle_control_spec c w cf : control_open cf -> can_send 1 c ->
  exists c' w' rs, handle_control c w cf = Ok (c', w') /\ sends c w (map sent_wire rs) c' w' /\ length rs <= 1 /\ Forall reply rs /\ total_credit rs = 0%Z.
Proof.
  intros (Hp & Hg & Hr) Hs. unfold handle_control.
  destruct (bool_decide (fh_kind (cf_header cf) = frame_type.SETTINGS) && negb (has_ack cf)).
  { destruct (built_send 64 settings_ack (Sent false frame_type.SETTINGS flag.ACK 0 []) c w) as (c' & w' & -> & Hsend);
      [intros; apply settings_ack_spec|simpl; lia|unfold MAX_PLAINTEXT; lia|done|].
    exists c', w', [Sent false frame_type.SETTINGS flag.ACK 0 []]. split_and!; try done. apply Forall_singleton. constructor. }
  destruct (bool_decide (fh_kind (cf_header cf) = frame_type.PING) && negb (has_ack cf)).
  { unfold payload. rewrite slice_to by done. cbn [obind]. set (p := take _ _).
    assert (length (take 8 (p ++ zeros 8)) = 8) as Hl by (rewrite length_take, length_app, length_zeros; lia).
    destruct (built_send 64 (fun w => ping_ack w p) (Sent false frame_type.PING flag.ACK 0 (take 8 (p ++ zeros 8))) c w) as (c' & w' & -> & Hsend);
      [intros; apply ping_ack_spec|cbn [s_payload]; lia|unfold MAX_PLAINTEXT; lia|done|].
    exists c', w', [Sent false frame_type.PING flag.ACK 0 (take 8 (p ++ zeros 8))]. split_and!; try done. apply Forall_singleton. by constructor. }
  rewrite decide_False by (intros [?|?]; done). exists c, w, []. split_and!; try done; [apply sends_nil|simpl; lia].
Qed.

Lemma handle_controls_spec acks c w : Forall control_open acks -> can_send (Z.of_nat (length acks)) c ->
  exists c' w' rs, handle_controls acks c w = Ok (c', w') /\ sends c w (map sent_wire rs) c' w' /\ length rs <= length acks /\
    Forall reply rs /\ total_credit rs = 0%Z.
Proof.
  revert c w. induction acks as [|cf acks IH]; intros c w Ho Hs; cbn [handle_controls length] in *.
  { exists c, w, []. split_and!; try done. apply sends_nil. }
  apply List.Forall_cons_iff in Ho as [Ho Hos].
  destruct (handle_control_spec c w cf Ho) as (c1 & w1 & rs1 & -> & Hs1 & Hl1 & Hr1 & Ht1); [by eapply can_send_less; [|done]; lia|].
  destruct (IH c1 w1 Hos) as (c2 & w2 & rs2 & E2 & Hs2 & Hl2 & Hr2 & Ht2).
  { eapply sends_can_send; [exact Hs1|]. eapply can_send_less; [|exact Hs]. rewrite length_map. lia. }
  exists c2, w2, (rs1 ++ rs2). cbn [obind]. rewrite length_app, total_credit_app, map_app. split_and!; [done| |lia|by apply Forall_app|lia].
  by apply (sends_trans _ _ _ c1 w1).
Qed.

(** The credit for [n] bytes of [DATA]. *)
Lemma credit_spec c w n : (0 <= n < 2 ^ 31)%Z -> can_send 1 c ->
  exists c' w' rs, (if decide (0 < n)%Z then let? f := built 32 (fun w => window_update w 0 n) in send c w f else Ok (c, w)) = Ok (c', w') /\
    sends c w (map sent_wire rs) c' w' /\ length rs <= 1 /\ Forall reply rs /\ total_credit rs = n.
Proof.
  intros Hn Hs. case_decide as H0.
  2:{ exists c, w, []. split_and!; try done; [apply sends_nil|simpl; lia..]. }
  destruct (built_send 32 (fun w => window_update w 0 n) (Sent false frame_type.WINDOW_UPDATE x00 0 (to_be 4 n)) c w) as (c' & w' & -> & Hsend).
  - intros w0 _. rewrite window_update_spec. by rewrite Z.mod_small by lia.
  - cbn [s_payload]. rewrite length_to_be. lia.
  - unfold MAX_PLAINTEXT. lia.
  - done.
  - exists c', w', [Sent false frame_type.WINDOW_UPDATE x00 0 (to_be 4 n)]. split_and!; try done; [apply Forall_singleton; constructor; lia|].
    cbn [total_credit foldr credit s_kind s_payload]. unfold credit. cbn [s_kind s_payload]. rewrite decide_True by done.
    rewrite from_to_be_small by (simpl; lia). lia.
Qed.
End Replies.

(** ** One pass *)
Section Passes.
Context `{P : Primitives, L : !PrimitiveLaws P} {W : Type} `{SO : SocketOps W, SV : !SocketView W, SU : !SocketUp W}.

(** The rest of the server's stream reads as [ev] and ends at [p]. *)
Definition serving (c : H2Conn) (w : W) (qs : list bytes) (p : position_in FrameHeader) (ev : list (event FrameHeader)) : Prop :=
  receives c (inbound w) qs /\ Forall (fun q => q <> []) qs /\ reader_idle (reader c) /\
  run h2_format (h2_at (reader c)) (ready c ++ concat qs) = inr (p, ev) /\ Forall stays_open ev.

Lemma fill_spec reads c w qs p ev : serving c w qs p ev -> ready c ++ concat qs <> [] -> length (inbound w) < reads ->
  exists c' w' k, (if decide (pending_pos c = pending_len c) then pump reads c w else Ok (c, w)) = Ok (c', w') /\
    serving c' w' (drop k qs) p ev /\ ready c' <> [] /\ ready c' ++ concat (drop k qs) = ready c ++ concat qs /\
    same_sender c c' /\ outbound w' = outbound w /\ length (inbound w') <= length (inbound w).
Proof.
  intros (Hr & Hne & Hidle & Hrun & Hopen) Hrest Hreads. pose proof Hr as [Hc Hcar]. pose proof (length_ready c Hc) as Hl.
  case_decide as Hempty.
  - assert (ready c = []) as He by (destruct (ready c); [done|simpl in Hl; lia]).
    destruct qs as [|q qs]; [by rewrite He in Hrest|]. pose proof Hne as [Hq _]%List.Forall_cons_iff.
    apply Noise.carries_cons_inv in Hcar as (c0 & t & wire & _ & _ & Hp & _).
    unfold Noise.MAX_PLAINTEXT_SIZE, Noise.MAX_CIPHERTEXT_SIZE, Noise.MAX_MESSAGE_SIZE, Noise.HEADER_LEN, Noise.TAG_LEN in Hp.
    destruct (pump_spec reads q qs c w Hr Hq) as (c' & w' & Hpump & k & Hk & Hr' & Hs & Hrd & Ho & Hi);
      [rewrite He; unfold MAX_MESSAGE; simpl; lia|done|].
    assert (ready c' ++ concat (drop k (q :: qs)) = ready c ++ concat (q :: qs)) as Hsame.
    { rewrite Hrd, <- app_assoc, <- concat_app. by rewrite take_drop. }
    exists c', w', k. split; [done|]. split; [|split_and!; try done].
    + unfold serving. destruct Hs as (? & ? & ? & Hrd' & ?). rewrite Hrd', Hsame. split_and!; try done; [by apply Forall_drop|apply Hidle..].
    + rewrite Hrd, He. destruct k as [|k]; [lia|]. cbn [take concat app]. by destruct q.
  - exists c, w, 0. split_and!; try done. intros He. rewrite He in Hl. simpl in Hl. destruct Hc as (_ & _ & ? & _). lia.
Qed.

(** The reader takes all that is ready. *)
Lemma feed_ready sid c p ev : conn_ok c -> reader_idle (reader c) -> run h2_format (h2_at (reader c)) (ready c) = inr (p, ev) -> Forall stays_open ev ->
  exists b, (let? avail := nsub (E:=H2Error) (pending_len c) (pending_pos c) in
      let? src := slice (pending c) (pending_pos c) (pending_len c) in
      let? scratch := copy_range (zeros MAX_MESSAGE) 0 avail src in
      batch_loop (S avail) sid scratch avail
              {| b_reader := reader c; b_offset := 0; b_chunks := []; b_acks := []; b_done := false |}) = Ok b /\
    b_offset b = length (ready c) /\ reader_idle (take_pending_window (b_reader b)).2 /\ h2_at (b_reader b) = p /\
    concat (b_chunks b) = our_data sid ev /\ b_done b = ended sid ev /\
    Forall control_open (b_acks b) /\ length (b_acks b) <= 4 /\
    pending_window (b_reader b) = Z.of_nat (data_count ev) /\ data_count ev <= MAX_MESSAGE.
Proof.
  intros Hc [Hp0 Hidle] Hrun Hopen. pose proof (length_ready c Hc) as Hl. pose proof Hc as (Hpl & Hrl & Hpend & Hrn).
  rewrite nsub_ok by lia. cbn [obind]. rewrite slice_ok by lia. cbn [obind]. fold (ready c). rewrite <- Hl.
  rewrite copy_range_ok by (rewrite ?length_zeros; lia). cbn [obind].
  pose proof (overwrite_app [] (zeros MAX_MESSAGE) (ready c) 0 eq_refl) as Hov. cbn [app] in Hov. rewrite Hov.
  assert (exists k, Z.of_nat (length (ready c) + k) = 2 ^ 32 - 1)%Z as [k Hk].
  { exists (Z.to_nat (2 ^ 32 - 1 - Z.of_nat (length (ready c)))). unfold MAX_MESSAGE in *. lia. }
  destruct (batch_loop_spec (S (length (ready c))) sid (ready c ++ drop (length (ready c)) (zeros MAX_MESSAGE)) (length (ready c)) k
    {| b_reader := reader c; b_offset := 0; b_chunks := []; b_acks := []; b_done := false |} p ev)
    as (b & Hb & Hoff & Hok & Hat & Hch & Hd & Ha & Hla & Hw); cbn [b_reader b_offset b_chunks b_acks b_done]; try done.
  - rewrite length_app. lia.
  - lia.
  - lia.
  - apply Hidle. rewrite Nat.sub_0_r, Hk. lia.
  - rewrite take_app_length. by rewrite drop_0.
  - cbn [length]. lia.
  - cbn [concat app b_reader b_done b_chunks] in *. rewrite orb_false_r in Hd. rewrite Hp0, Z.add_0_l in Hw.
    exists b. split_and!; try done; [by eapply reader_idle_reset|].
    destruct Hok as (_ & _ & _ & _ & Hk' & _). rewrite Hw in Hk'. unfold MAX_MESSAGE in *. lia.
Qed.

Lemma serving_advance c c' w w' qs p q ev1 ev2 : receives c' (inbound w') qs -> Forall (fun q => q <> []) qs -> reader_idle (reader c') -> ready c' = [] ->
  run h2_format (h2_at (reader c)) (ready c) = inr (q, ev1) -> h2_at (reader c') = q -> serving c w qs p (ev1 ++ ev2) ->
  run h2_format (h2_at (reader c)) (ready c ++ concat qs) = inr (p, ev1 ++ ev2) ->
  serving c' w' qs p ev2.
Proof.
  intros Hr Hne Hidle He H1 <- (_ & _ & _ & _ & Hopen) Hrun. rewrite (run_app_inr _ _ _ _ _ _ H1) in Hrun.
  apply Forall_app in Hopen as [_ Ho]. destruct (run h2_format (h2_at (reader c')) (concat qs)) as [|[p' ev']] eqn:E; [done|].
  injection Hrun as -> Hev. apply app_inv_head in Hev as ->. unfold serving. rewrite He. by split_and!.
Qed.

(** A pass hands out what was ready, replies and returns the credit. *)
Lemma post_pass_spec reads sid c w qs p ev : serving c w qs p ev -> ready c ++ concat qs <> [] -> length (inbound w) < reads -> can_send 5 c ->
  exists c' w' cs k rs ev1 ev2, post_pass reads sid c w = Ok (c', w', cs, ended sid ev1) /\ ev = ev1 ++ ev2 /\
    concat cs = our_data sid ev1 /\ serving c' w' (drop k qs) p ev2 /\ ready c' = [] /\
    length (concat (drop k qs)) < length (ready c ++ concat qs) /\
    sent_out c w (map sent_wire rs) c' w' /\ length rs <= 5 /\ Forall reply rs /\ total_credit rs = Z.of_nat (data_count ev1) /\
    length (inbound w') <= length (inbound w).
Proof.
  intros Hserv Hrest Hreads Hs. unfold post_pass.
  destruct (fill_spec reads c w qs p ev Hserv Hrest Hreads) as (c1 & w1 & k & -> & Hserv1 & Hne1 & Hsame & Hss & Ho1 & Hi1). cbn [obind].
  pose proof Hserv1 as ([Hc1 Hcar1] & Hqs & Hidle & Hrun & Hopen). rewrite run_app in Hrun.
  destruct (run h2_format (h2_at (reader c1)) (ready c1)) as [|[q ev1]] eqn:Hrun1; [done|].
  destruct (run h2_format q (concat (drop k qs))) as [|[p2 ev2]] eqn:Hrun2; [done|]. simplify_eq.
  pose proof Hopen as [Hopen1 _]%Forall_app.
  destruct (feed_ready sid c1 q ev1 Hc1 Hidle Hrun1 Hopen1) as (b & Hb & Hoff & Hidle2 & Hat & Hch & Hd & Ha & Hla & Hw & Hcount).
  apply obind_Ok_inv in Hb as (avail & -> & Hb). cbn [obind]. apply obind_Ok_inv in Hb as (src & -> & Hb). cbn [obind].
  apply obind_Ok_inv in Hb as (scratch & -> & Hb). cbn [obind]. rewrite Hb. cbn [obind]. rewrite Hoff.
  set (c2 := set_pending (set_reader c1 (b_reader b)) _ _ _).
  pose proof (receives_consume c1 (length (ready c1)) (inbound w1) (drop k qs) (conj Hc1 Hcar1) ltac:(done)) as [[Hc2 Hcar2] Hrd2].
  rewrite drop_ge in Hrd2 by done.
  assert (receives c2 (inbound w1) (drop k qs)) as Hr2 by (split; [exact Hc2|exact Hcar2]).
  assert (sent_out c w [] c2 w1) as Hso2 by (destruct Hss as (? & ? & ? & ? & ?); by apply sent_out_receive).
  assert (can_send 5 c2) as Hs2 by (eapply sent_out_can_send; [exact Hso2|done]).
  destruct (handle_controls_spec (b_acks b) c2 w1 Ha) as (c3 & w3 & rs & -> & Hs3 & Hl3 & Hrep3 & Ht3); [eapply can_send_less; [|done]; lia|].
  cbn [obind]. pose proof (sends_keeps _ _ _ _ _ Hs3) as (Hi3 & Hrd3 & Hreader3 & _ & Hr3 & _).
  rewrite Hreader3. change (reader c2) with (b_reader b). unfold take_pending_window at 1. cbn zeta. rewrite Hw.
  set (c4 := set_reader c3 _).
  assert (sent_out c2 w1 (map sent_wire rs) c4 w3) as Hso4.
  { destruct (sends_sent_out _ _ _ _ _ Hs3) as (wire & ? & ? & ? & ? & ?). exists wire. by split_and!. }
  destruct (credit_spec c4 w3 (Z.of_nat (data_count ev1))) as (c5 & w5 & rs5 & -> & Hs5 & Hl5 & Hrep5 & Ht5); [unfold MAX_MESSAGE in *; lia| |].
  { eapply sent_out_can_send; [exact Hso4|]. eapply can_send_less; [|exact Hs2]. rewrite length_map. lia. }
  cbn [obind]. pose proof (sends_keeps _ _ _ _ _ Hs5) as (Hi5 & Hrd5 & Hreader5 & _ & Hr5 & _).
  assert (ready c5 = []) as He by (rewrite Hrd5; change (ready c4) with (ready c3); rewrite Hrd3; exact Hrd2).
  exists c5, w5, (b_chunks b), k, (rs ++ rs5), ev1, ev2.
  rewrite Hd, map_app, (length_app rs), total_credit_app. split_and!; try (done || lia).
  - apply (serving_advance c1 c5 w1 w5 (drop k qs) p q ev1 ev2); try done.
    + apply Hr5. rewrite Hi5, Hi3. by apply Hr3.
    + rewrite Hreader5. exact Hidle2.
    + by rewrite Hreader5.
    + rewrite (run_app_inr _ _ _ _ _ _ Hrun1), Hrun2. done.
  - rewrite <- Hsame, length_app. destruct (ready c1); [done|simpl; lia].
  - apply (sent_out_trans _ _ [] _ _ _ _ _ Hso2). apply (sent_out_trans _ _ _ _ _ _ _ _ Hso4). by apply sends_sent_out.
  - by apply Forall_app.
  - rewrite Hi5, Hi3. lia.
Qed.
End Passes.

(** ** The exchange *)
Section Exchange.
Context `{P : Primitives, L : !PrimitiveLaws P} {W : Type} `{SO : SocketOps W, SV : !SocketView W, SU : !SocketUp W}.

Lemma post_loop_spec fuel reads sid c w qs ev : serving c w qs between ev -> ends_last sid ev ->
  length (inbound w) < reads -> length (ready c ++ concat qs) < fuel -> can_send (5 * Z.of_nat (length (ready c ++ concat qs))) c ->
  exists c' w' cs rs, post_loop fuel reads sid c w = Ok (c', w', cs) /\ concat cs = our_data sid ev /\
    serving c' w' [] between [] /\ ready c' = [] /\ h2_at (reader c') = between /\ sent_out c w (map sent_wire rs) c' w' /\
    (Z.of_nat (length rs) <= 5 * Z.of_nat (length (ready c ++ concat qs)))%Z /\
    Forall reply rs /\ total_credit rs = Z.of_nat (data_count ev).
Proof.
  revert c w qs ev. induction fuel as [|fuel IH]; intros c w qs ev Hserv Hlast Hreads Hfuel Hsend; [lia|]. cbn [post_loop].
  assert (ready c ++ concat qs <> []) as Hne.
  { intros Hn. destruct Hserv as (_ & _ & _ & Hrun & _). rewrite Hn in Hrun. cbn [run] in Hrun. injection Hrun as _ <-.
    destruct Hlast as ([|] & ? & ? & _); done. }
  assert (0 < length (ready c ++ concat qs)) as Hpos by (destruct (ready c ++ concat qs); [done|simpl; lia]).
  destruct (post_pass_spec reads sid c w qs between ev Hserv Hne Hreads) as
    (c1 & w1 & cs1 & k & rs1 & ev1 & ev2 & -> & -> & Hcs1 & Hserv1 & He1 & Hless & Hso1 & Hlen1 & Hrep1 & Ht1 & Hin1);
    [eapply can_send_less; [|done]; lia|].
  cbn [obind]. apply ends_last_split in Hlast. rewrite our_data_app, data_count_app, Nat2Z.inj_add. destruct (ended sid ev1).
  - subst ev2. pose proof Hserv1 as (_ & Hqs & _ & Hrun & _). rewrite He1 in Hrun. cbn [app] in Hrun.
    assert (drop k qs = []) as Hk.
    { destruct (drop k qs) as [|q rest]; [done|]. exfalso. apply List.Forall_cons_iff in Hqs as [Hq _].
      eapply run_between_events; [|exact Hrun|done|done]. cbn [concat]. by destruct q. }
    rewrite Hk in *. cbn [concat run] in Hrun. injection Hrun as Hat. exists c1, w1, cs1, rs1.
    change (our_data sid []) with (@nil byte). rewrite app_nil_r. cbn [data_count map sum_list]. rewrite Z.add_0_r. split_and!; (done || lia).
  - destruct Hlast as [_ Hlast].
    assert (length (ready c1 ++ concat (drop k qs)) < length (ready c ++ concat qs)) as Hless' by (by rewrite He1).
    destruct (IH c1 w1 (drop k qs) ev2 Hserv1 Hlast ltac:(lia) ltac:(lia)) as (c2 & w2 & cs2 & rs2 & -> & Hcs2 & Hserv2 & He2 & Hat2 & Hso2 & Hlen2 & Hrep2 & Ht2).
    { eapply sent_out_can_send; [exact Hso1|]. eapply can_send_less; [|exact Hsend]. rewrite length_map. lia. }
    cbn [obind]. exists c2, w2, (cs1 ++ cs2), (rs1 ++ rs2).
    rewrite concat_app, Hcs1, Hcs2, map_app, (length_app rs1), total_credit_app, Ht1, Ht2.
    split_and!; try (done || lia); [by apply (sent_out_trans _ _ _ c1 w1)|by apply Forall_app].
Qed.

End Exchange.

(** ** A whole request *)
Section Request.
Context `{P : Primitives, L : !PrimitiveLaws P} {W : Type} `{SO : SocketOps W, SV : !SocketView W, SU : !SocketUp W}.

(** Between requests: the server's coming messages are [qs], what they say is
    [stream], and it starts with a frame. *)
Definition idle (c : H2Conn) (w : W) (qs : list bytes) (stream : bytes) : Prop :=
  receives c (inbound w) qs /\ Forall (fun q => q <> []) qs /\ reader_idle (reader c) /\ h2_at (reader c) = between /\
  ready c ++ concat qs = stream.

(** The frames of a request. *)
Definition request (sid : Z) (authority path body : bytes) : list sent :=
  Sent false frame_type.HEADERS flag.END_HEADERS sid (block_bytes authority path (dec (Z.of_nat (length body)))) ::
  body_frames sid (chunks BODY_CHUNK body).

Lemma body_chunks_bound (body : bytes) : length (chunks BODY_CHUNK body) <= length body.
Proof. pose proof (chunks_length BODY_CHUNK body ltac:(unfold BODY_CHUNK, MAX_PLAINTEXT, FRAME_HEADER_LEN; lia)). unfold BODY_CHUNK, MAX_PLAINTEXT, FRAME_HEADER_LEN in *. lia. Qed.

Lemma send_request c w sid authority path body : fits_u32 authority -> fits_u32 path -> (Z.of_nat (length body) < 2 ^ 64)%Z ->
  length (block_bytes authority path (dec (Z.of_nat (length body)))) <= 256 -> can_send (1 + Z.of_nat (length body)) c ->
  exists c' w', (let? head := built 320 (fun w => post_headers w sid authority path (Z.of_nat (length body))) in
      let? (c, w) := send c w head in
      send_body sid (length body) (chunks (MAX_PLAINTEXT - FRAME_HEADER_LEN) body) 0 c w) = Ok (c', w') /\
    sends c w (map sent_wire (request sid authority path body)) c' w'.
Proof.
  intros Ha Hp Hl Hb Hs. set (head := Sent false frame_type.HEADERS flag.END_HEADERS sid (block_bytes authority path (dec (Z.of_nat (length body))))).
  destruct (built_send 320 (fun w => post_headers w sid authority path (Z.of_nat (length body))) head c w) as (c1 & w1 & E1 & Hs1).
  - intros w0 _. rewrite post_headers_spec by (done || lia). by rewrite decide_False by lia.
  - cbn [head s_payload]. lia.
  - unfold MAX_PLAINTEXT. lia.
  - eapply can_send_less; [|done]. lia.
  - apply obind_Ok_inv in E1 as (f & -> & E1). cbn [obind]. rewrite E1. cbn [obind].
    pose proof (body_chunks_bound body) as Hn.
    destruct (send_body_spec sid body 0 c1 w1) as (c2 & w2 & E2 & Hs2).
    { eapply sends_can_send; [exact Hs1|]. eapply can_send_less; [|exact Hs]. cbn [length]. lia. }
    exists c2, w2. split; [exact E2|]. exact (sends_trans _ _ [_] _ _ _ _ _ Hs1 Hs2).
Qed.

Lemma post_stream_spec fuel reads c w authority path body frames qs :
  let sid := next_stream c in let total := length (concat (map sent_wire frames)) in
  fits_u32 authority -> fits_u32 path -> (Z.of_nat (length body) < 2 ^ 64)%Z ->
  length (block_bytes authority path (dec (Z.of_nat (length body)))) <= 256 -> (sid + 2 < 2 ^ 32)%Z ->
  idle c w qs (concat (map sent_wire frames)) -> response sid frames ->
  can_send (1 + Z.of_nat (length body) + 5 * Z.of_nat total) c -> length (inbound w) < reads -> total < fuel ->
  exists c' w' cs replies wire, post_stream fuel reads c w authority path body = Ok (c', w', cs) /\
    concat cs = response_body sid frames /\
    outbound w' = outbound w ++ wire /\
    Noise.carries (Noise.tx (session c)) (Noise.tx_nonce (session c)) (map sent_wire (request sid authority path body ++ replies)) wire /\
    Forall reply replies /\ total_credit replies = Z.of_nat (data_total frames) /\
    idle c' w' [] [] /\ next_stream c' = (sid + 2)%Z.
Proof.
  intros sid total Ha Hp Hl Hb Hsid (Hr & Hne & Hidle & Hat & Hstream) Hresp Hs Hreads Hfuel.
  unfold post_stream. fold sid. rewrite uadd_ok by done. cbn [obind]. set (c0 := set_next_stream c (sid + 2)).
  destruct (send_request c0 w sid authority path body Ha Hp Hl Hb) as (c1 & w1 & E1 & Hs1); [eapply can_send_less; [|exact Hs]; lia|].
  apply obind_Ok_inv in E1 as (head & -> & E1). cbn [obind]. apply obind_Ok_inv in E1 as ([c1' w1'] & -> & E1). cbn [obind]. rewrite E1. cbn [obind].
  pose proof (sends_keeps _ _ _ _ _ Hs1) as (Hi1 & Hrd1 & Hreader1 & Hn1 & Hr1 & Htx1 & Hnonce1 & _).
  destruct (frames_events sid frames Hresp) as (Hrun & Hopen & Hlast & Hdata & Hcount & _).
  assert (length (ready c1 ++ concat qs) = total) as Ht by (rewrite Hrd1; change (ready c0) with (ready c); by rewrite Hstream).
  destruct (post_loop_spec fuel reads sid c1 w1 qs (concat (map delivered frames))) as
    (c2 & w2 & cs & rs & -> & Hcs & Hserv & He & Hat2 & Hso & Hlen & Hrep & Hcr); try done.
  - unfold serving. rewrite Hreader1, Hrd1. change (reader c0) with (reader c). change (ready c0) with (ready c).
    rewrite Hat, Hstream, Hi1. split_and!; try done; [|apply Hidle..]. apply Hr1. destruct Hr as [Hc Hcar]. split; [exact Hc|exact Hcar].
  - by rewrite Hi1.
  - by rewrite Ht.
  - rewrite Ht. eapply sends_can_send; [exact Hs1|]. eapply can_send_less; [|exact Hs]. pose proof (body_chunks_bound body).
    unfold request. cbn [map length]. rewrite length_map, length_body_frames. lia.
  - destruct (sent_out_trans _ _ _ _ _ _ _ _ (sends_sent_out _ _ _ _ _ Hs1) Hso) as (wire & Ho & Hcar & _ & _ & Hnext).
    exists c2, w2, cs, rs, wire. rewrite <- map_app in Hcar. rewrite <- Hdata, <- Hcount. split_and!; try done.
    destruct Hserv as (Hr2 & _ & Hidle2 & _). unfold idle. rewrite He. by split_and!.
Qed.

(** The closure of [post] fills the caller's buffer and drops the rest. *)
Lemma collect_body_spec cs before out :
  collect_body cs (before ++ out) (length before) =
    Ok (before ++ take (length out) (concat cs) ++ drop (length (concat cs)) out, length before + length out `min` length (concat cs)).
Proof.
  revert before out. induction cs as [|chunk cs IH]; intros before out; cbn [collect_body concat].
  { rewrite take_nil, Nat.min_0_r, Nat.add_0_r. done. }
  replace (length (before ++ out) - length before) with (length out) by (rewrite length_app; lia). set (n := length out `min` length chunk).
  rewrite slice_to by lia. cbn [obind]. assert (length (take n chunk) = n) as Hn by (rewrite length_take; lia).
  rewrite copy_range_ok by (rewrite ?length_app; lia). cbn [obind]. rewrite (overwrite_app before) by done.
  rewrite Hn, app_assoc. replace (length before + n) with (length (before ++ take n chunk)) by (rewrite length_app; lia).
  rewrite IH, !length_app, Hn, length_drop, drop_drop, <- app_assoc.
  destruct (decide (length chunk <= length out)).
  - assert (n = length chunk) as -> by lia. rewrite (take_ge chunk) by lia. rewrite take_app, (take_ge chunk) by lia.
    rewrite <- app_assoc. do 2 f_equal. lia.
  - assert (n = length out) as -> by lia. rewrite take_app. replace (length out - length chunk) with 0 by lia.
    rewrite Nat.sub_diag, !take_0, !app_nil_r. rewrite !drop_ge by lia. do 2 f_equal. lia.
Qed.

(** C24. A request is answered: on an idle connection that stays up, [post]
    terminates with the body of the response on its own stream in the caller's
    buffer, as far as it fits, however the server's frames are spread over
    records and the records over reads, and whatever other frames come between.
    The wire carries exactly the request (a HEADERS frame and the body with
    END_STREAM on its last DATA frame) and replies of ours, each in its own Noise
    record; the replies return one byte of flow-control credit for every DATA
    byte received; and the connection is idle again. *)
Theorem post_exchange fuel reads c w authority path body out frames qs :
  let sid := next_stream c in let total := length (concat (map sent_wire frames)) in
  let content := response_body sid frames in
  fits_u32 authority -> fits_u32 path -> (Z.of_nat (length body) < 2 ^ 64)%Z ->
  length (block_bytes authority path (dec (Z.of_nat (length body)))) <= 256 -> (sid + 2 < 2 ^ 32)%Z ->
  idle c w qs (concat (map sent_wire frames)) -> response sid frames ->
  can_send (1 + Z.of_nat (length body) + 5 * Z.of_nat total) c -> length (inbound w) < reads -> total < fuel ->
  exists c' w' replies wire,
    post fuel reads c w authority path body out =
      Ok (c', w', take (length out) content ++ drop (length content) out, length out `min` length content) /\
    outbound w' = outbound w ++ wire /\
    Noise.carries (Noise.tx (session c)) (Noise.tx_nonce (session c)) (map sent_wire (request sid authority path body ++ replies)) wire /\
    Forall reply replies /\ total_credit replies = Z.of_nat (data_total frames) /\
    idle c' w' [] [] /\ next_stream c' = (sid + 2)%Z.
Proof.
  intros sid total content Ha Hp Hl Hb Hsid Hidle Hresp Hs Hreads Hfuel.
  destruct (post_stream_spec fuel reads c w authority path body frames qs Ha Hp Hl Hb Hsid Hidle Hresp Hs Hreads Hfuel)
    as (c' & w' & cs & rs & wire & E & Hcs & Hrest). exists c', w', rs, wire. split; [|exact Hrest].
  unfold post. rewrite E. cbn [obind]. pose proof (collect_body_spec cs [] out) as Hc. cbn [app length] in Hc. rewrite Hc. cbn [obind]. by rewrite Hcs.
Qed.
End Request.

(** An example: the response of [H2Events], cut across two records, over a socket
    that gives at most five bytes a read. *)
#[local] Existing Instances Toy.toy Toy.toy_laws.
Import H2Events.Example.
Definition example_socket : pipe := (example_record (take 20 example_stream) ++ example_record (drop 20 example_stream) ++ [], []).

Lemma socket_idle : idle example_conn example_socket [take 20 example_stream; drop 20 example_stream] example_stream.
Proof.
  split_and!.
  - split; [unfold conn_ok, example_conn, MAX_MESSAGE; cbn [pending pending_len pending_pos raw raw_len]; rewrite !length_zeros; lia|].
    change (staged example_conn) with (@nil byte). cbn [app]. unfold example_socket. cbn [inbound pipe_view fst].
    repeat (apply Noise.carries_cons; [cbn; unfold u64_max; lia|vm_compute; discriminate|reflexivity|reflexivity|reflexivity|]). constructor.
  - repeat (constructor; [vm_compute; discriminate|]). constructor.
  - split; [done|]. intros k Hk. by apply h2_new_ok.
  - reflexivity.
  - change (ready example_conn) with (@nil byte). cbn [app concat]. by rewrite app_nil_r, take_drop.
Qed.

Lemma post_exchange_witness :
  exists c' w' replies wire,
    post 60 200 example_conn example_socket (bs "h") (bs "/map") (bs "{}") (zeros 4) = Ok (c', w', bs "hi" ++ zeros 2, 2) /\
    outbound w' = [] ++ wire /\
    Noise.carries (replicate 32 x01) 4 (map sent_wire (request 1 (bs "h") (bs "/map") (bs "{}") ++ replies)) wire /\
    Forall reply replies /\ total_credit replies = 2%Z /\ idle c' w' [] [] /\ next_stream c' = 3%Z.
Proof.
  destruct (post_exchange 60 200 example_conn example_socket (bs "h") (bs "/map") (bs "{}") (zeros 4) example_frames [take 20 example_stream; drop 20 example_stream])
    as (c' & w' & replies & wire & E & Ho & Hc & Hr & Ht & Hi & Hn).
  - vm_compute. reflexivity.
  - vm_compute. reflexivity.
  - vm_compute. reflexivity.
  - vm_compute. lia.
  - vm_compute. reflexivity.
  - exact socket_idle.
  - exact example_response.
  - split_and!; vm_compute; (reflexivity || discriminate).
  - vm_compute. lia.
  - vm_compute. lia.
  - exists c', w', replies, wire. assert (response_body (next_stream example_conn) example_frames = bs "hi") as Hb by (vm_compute; reflexivity).
    rewrite Hb in E. assert (data_total example_frames = 2) as Hd by (vm_compute; reflexivity). rewrite Hd in Ht.
    split; [exact E|]. split; [exact Ho|]. split; [exact Hc|]. split; [exact Hr|]. split; [exact Ht|]. split; [exact Hi|exact Hn].
Defined.
