(* ===== verification/HostTransport.v ===== *)
(** The control connection of the host: [lando-host/src/transport.rs].

    A Noise transport over TCP ([NoiseTransport]) and HTTP/2 over it ([H2Conn]).
    The socket is a parameter; records, frames and the handshake are those of the
    core. Both write the state they have when they fail: what was sent stays sent,
    and the caller of [post] has seen the chunks that came. [trace_frames] prints
    and is left out. *)
From S2P Require Import Prelude StateError Crypto Keys Buffer Upgrade Socket ControlResponse Framing H2Reader H2Writer H2Events ControlServer.
From S2P Require Noise.

Definition INITIAL_WINDOW : Z := 64 * 1024.
Definition MAX_FRAME : Z := 16 * 1024.
(** [noise::MAX_PLAINTEXT_SIZE], as a [usize]. *)
Definition MAX_PLAINTEXT : nat := Z.to_nat Noise.MAX_PLAINTEXT_SIZE.

(** The error messages of the file, by kind, with the values they quote. *)
Inductive Error :=
| BuildingRequest (e : UpgradeError) | Connecting | SettingTimeout | SendingUpgrade | UpgradeTooLong | Reading | ClosedInUpgrade
| RefusedUpgrade (text : bytes) | ParsingUpgrade (e : UpgradeError) | RejectedHandshake (message : bytes) | ClosedInHandshake
| CompletingHandshake (e : Noise.NoiseError) | TruncatedRecord | UnexpectedType (kind : byte)
| Encrypting (e : Noise.NoiseError) | Decrypting (e : Noise.NoiseError) | WritingRecord | RecordTooLong (len : nat) | ControlPlane (message : bytes)
| Encoding (e : H2Writer.H2Error) | Goaway (code : Z) | StreamReset (code : Z).

(** TCP as [std::net] has it. *)
Class HostNet (W : Type) := {
  #[global] host_socket :: SocketOps W;
  dial : W -> bytes * Z -> W * bool;
  (** [set_read_timeout], in seconds. *)
  set_timeout : W -> Z -> W * bool;
}.

Record NoiseTransport (W : Type) := { stream : W; session : Noise.Session; rx : bytes; rx_pos : nat }.
Arguments stream {W}.
Arguments session {W}.
Arguments rx {W}.
Arguments rx_pos {W}.
Arguments Build_NoiseTransport {W}.

Section Transport.
Context `{P : Primitives} {W : Type} `{HN : HostNet W}.
Abbreviation T := (NoiseTransport W).
Abbreviation M := (SE T Error).

Definition set_stream (t : T) (w : W) : T := {| stream := w; session := session t; rx := rx t; rx_pos := rx_pos t |}.
Definition set_session (t : T) (s : Noise.Session) : T := {| stream := stream t; session := s; rx := rx t; rx_pos := rx_pos t |}.
Definition set_rx (t : T) (b : bytes) (n : nat) : T := {| stream := stream t; session := session t; rx := b; rx_pos := n |}.

(** ** Connecting, on the bare socket *)

Definition on_net {A} (f : W -> W * A) : SE W Error A := fun w => let (w, a) := f w in (w, Ok a).
Definition check_net (f : W -> W * bool) (e : Error) : SE W Error unit := do! ok := on_net f in if (ok : bool) then ret tt else lift (Err e).

(** [read_into]: the buffer, [have] and how much was read. *)
Definition read_into (buf : bytes) (have : nat) : SE W Error (bytes * nat * nat) :=
  if decide (have = length buf) then lift (Err UpgradeTooLong)
  else
    do! room := lift (nsub (length buf) have) in
    do! b := on_net (fun w => sock_read w room) in
    do! b := lift (ok_or b Reading) in
    do! buf := lift (copy_range buf have (have + length b) b) in
    ret (buf, have + length b, length b).

(** [let body_start = loop { .. }]; the fuel is the number of reads. *)
Fixpoint upgrade_loop (fuel : nat) (buf : bytes) (have : nat) : SE W Error (bytes * nat * nat) :=
  match fuel with
  | O => lift NoFuel
  | S fuel =>
      do! (buf, have, n) := read_into buf have in
      if decide (n = 0) then lift (Err ClosedInUpgrade)
      else
        do! got := lift (slice buf 0 have) in
        match parse_response got with
        | Ok end_ => ret (buf, have, end_)
        | Err Upgrade.Incomplete => upgrade_loop fuel buf have
        | Err NotSwitching => lift (Err (RefusedUpgrade got))
        | Err e => lift (Err (ParsingUpgrade e))
        | Panic => lift Panic
        | NoFuel => lift NoFuel
        end
  end.

(** What the server says where it rejects the handshake. *)
Definition rejection (buf : bytes) (have body_start : nat) : outcome Error bytes :=
  let? l1 := index buf (body_start + 1) in
  let? l2 := index buf (body_start + 2) in
  let len := Z.to_nat (from_be [l1; l2]) in
  slice buf (body_start + Noise.HEADER_LEN) ((body_start + Noise.HEADER_LEN + len) `min` have).

(** [while have - body_start < RESPONSE_LEN] *)
Fixpoint response_loop (fuel : nat) (buf : bytes) (have body_start : nat) : SE W Error (bytes * nat) :=
  match fuel with
  | O => lift NoFuel
  | S fuel =>
      do! body := lift (nsub have body_start) in
      if decide (body < Noise.RESPONSE_LEN) then
        do! rejected :=
          if decide (Noise.HEADER_LEN <= body) then
            do! t := lift (index buf body_start) in ret (bool_decide (t = Noise.MSG_TYPE_ERROR))
          else ret false in
        if (rejected : bool) then
          do! message := lift (rejection buf have body_start) in lift (Err (RejectedHandshake message))
        else
          do! (buf, have, n) := read_into buf have in
          if decide (n = 0) then lift (Err ClosedInHandshake) else response_loop fuel buf have body_start
      else ret (buf, have)
  end.

(** [connect] as far as the session: it and the bytes read behind the response. *)
Definition handshake (fuel : nat) (host : bytes) (port : Z) (control_key : MachinePublic) (machine_key ephemeral : MachinePrivate)
    (capability_version : Z) : SE W Error (Noise.Session * bytes) :=
  do! (handshake, initiation) := lift (expect_ok (Noise.start machine_key control_key capability_version ephemeral)) in
  do! (request, n) := lift (map_err BuildingRequest (build_request host initiation (zeros MAX_REQUEST_LEN))) in
  do! _ := check_net (fun w => dial w (host, port)) Connecting in
  do! _ := check_net (fun w => set_timeout w 30) SettingTimeout in
  do! request := lift (slice request 0 n) in
  do! _ := check_net (fun w => sock_write w request) SendingUpgrade in
  do! (buf, have, body_start) := upgrade_loop fuel (zeros (8 * 1024)) 0 in
  do! (buf, have) := response_loop fuel buf have body_start in
  do! resp := lift (slice buf body_start (body_start + Noise.RESPONSE_LEN)) in
  do! session := lift (map_err CompletingHandshake (Noise.finish handshake resp)) in
  let start := body_start + Noise.RESPONSE_LEN in
  if decide (start < have) then do! leftover := lift (slice buf start have) in ret (session, leftover) else ret (session, []).

(** ** On the session *)

Definition on_stream {A} (f : W -> W * A) : M A := fun t => let (w, a) := f (stream t) in (set_stream t w, Ok a).

(** [self.session.read_record(&mut body)?], the plaintext put behind [rx]. *)
Definition take_record (body : bytes) : M unit :=
  do! t := get_state in
  do! (s, body, n) := lift (map_err Decrypting (Noise.read_record (session t) body)) in
  do! plain := lift (slice body 0 n) in
  modify (fun t => set_rx (set_session t s) (rx t ++ plain) (rx_pos t)).

(** [absorb] *)
Fixpoint absorb_loop (fuel : nat) (b : bytes) : M unit :=
  match fuel with
  | O => lift NoFuel
  | S fuel =>
      if decide (length b < Noise.HEADER_LEN) then ret tt
      else
        do! header := lift (slice b 0 Noise.HEADER_LEN) in
        do! (kind, len) := lift (expect_ok (Noise.parse_header header)) in
        let len := Z.to_nat len in
        if decide (length b < Noise.HEADER_LEN + len) then lift (Err TruncatedRecord)
        else
          do! body := lift (slice b Noise.HEADER_LEN (Noise.HEADER_LEN + len)) in
          if decide (kind <> Noise.MSG_TYPE_RECORD) then lift (Err (UnexpectedType kind))
          else
            do! _ := take_record body in
            do! rest := lift (slice b (Noise.HEADER_LEN + len) (length b)) in
            absorb_loop fuel rest
  end.
Definition absorb (b : bytes) : M unit := absorb_loop (S (length b)) b.

(** [NoiseTransport::connect] *)
Definition connect (fuel : nat) (host : bytes) (port : Z) (control_key : MachinePublic) (machine_key ephemeral : MachinePrivate)
    (capability_version : Z) : SE W Error T := fun w =>
  match handshake fuel host port control_key machine_key ephemeral capability_version w with
  | (w, Ok (s, leftover)) =>
      let (t, r) := absorb leftover {| stream := w; session := s; rx := []; rx_pos := 0 |} in
      (stream t, let? _ := r in Ok t)
  | (w, Err e) => (w, Err e)
  | (w, Panic) => (w, Panic)
  | (w, NoFuel) => (w, NoFuel)
  end.

(** [set_read_timeout] *)
Definition set_read_timeout (seconds : Z) : M unit :=
  do! ok := on_stream (fun w => set_timeout w seconds) in if (ok : bool) then ret tt else lift (Err SettingTimeout).

(** The loop of [send]; a [TcpStream] has nothing to flush. *)
Fixpoint send_chunks (cs : list bytes) (frame : bytes) : M unit :=
  match cs with
  | [] => ret tt
  | chunk :: cs =>
      do! t := get_state in
      do! (s, frame, n) := lift (map_err Encrypting (Noise.write_record (session t) chunk frame)) in
      do! _ := modify (fun t => set_session t s) in
      do! out := lift (slice frame 0 n) in
      do! ok := on_stream (fun w => sock_write w out) in
      if (ok : bool) then send_chunks cs frame else lift (Err WritingRecord)
  end.
Definition send (plaintext : bytes) : M unit := send_chunks (chunks MAX_PLAINTEXT plaintext) (zeros (Z.to_nat Noise.MAX_MESSAGE_SIZE)).

(** [Read::read_exact] for [n] bytes more, of which each read gives some. *)
Fixpoint read_exact (fuel n : nat) (got : bytes) : M bytes :=
  if decide (n = 0) then ret got
  else
    match fuel with
    | O => lift NoFuel
    | S fuel =>
        do! b := on_stream (fun w => sock_read w n) in
        do! b := lift (ok_or b Reading) in
        if decide (length b = 0) then lift (Err Reading)
        else do! rest := lift (nsub n (length b)) in read_exact fuel rest (got ++ b)
    end.

(** [pump] *)
Definition pump : M unit :=
  do! header := read_exact Noise.HEADER_LEN Noise.HEADER_LEN [] in
  do! (kind, len) := lift (expect_ok (Noise.parse_header header)) in
  if decide (Noise.MAX_CIPHERTEXT_SIZE < len)%Z then lift (Err (RecordTooLong (Z.to_nat len)))
  else
    let len := Z.to_nat len in
    do! body := read_exact len len [] in
    if decide (kind = Noise.MSG_TYPE_RECORD) then take_record body
    else if decide (kind = Noise.MSG_TYPE_ERROR) then lift (Err (ControlPlane body))
    else lift (Err (UnexpectedType kind)).

(** [buffered] *)
Definition buffered : M bytes := do! t := get_state in lift (slice (rx t) (rx_pos t) (length (rx t))).

(** [consume]; [drain] panics past the end. *)
Definition consume (n : nat) : M unit :=
  do! t := get_state in
  let pos := rx_pos t + n in
  if decide (pos = length (rx t)) then modify (fun t => set_rx t [] 0)
  else if decide (16 * 1024 < pos) then
    do! rest := lift (slice (rx t) pos (length (rx t))) in modify (fun t => set_rx t rest 0)
  else modify (fun t => set_rx t (rx t) pos).

(** [skip_early_payload]; [usize] has 64 bits. The fuel is the number of records. *)
Fixpoint skip_early_payload (fuel : nat) : M unit :=
  match fuel with
  | O => lift NoFuel
  | S fuel =>
      do! got := buffered in
      do! e := lift (expect_ok (parse_early_payload 64 got)) in
      match e with
      | Absent => ret tt
      | Present consumed _ => consume consumed
      | ControlResponse.Incomplete => do! _ := pump in skip_early_payload fuel
      end
  end.
End Transport.

(** ** HTTP/2 over the session *)

Record H2Conn (W : Type) := { transport : NoiseTransport W; reader : FrameReader; next_stream : Z }.
Arguments transport {W}.
Arguments reader {W}.
Arguments next_stream {W}.
Arguments Build_H2Conn {W}.

(** What a [Writer] puts in a fresh buffer. *)
Definition built (room : nat) (f : writer -> outcome H2Writer.H2Error writer) : outcome Error bytes :=
  let? w := map_err Encoding (f (Writer (zeros room) 0)) in
  slice (w_buf w) 0 (w_pos w).

Section Conn.
Context `{P : Primitives} {W : Type} `{HN : HostNet W}.
Abbreviation C := (H2Conn W).
Abbreviation M := (SE C Error).

Definition set_transport (c : C) (t : NoiseTransport W) : C := {| transport := t; reader := reader c; next_stream := next_stream c |}.
Definition set_reader (c : C) (r : FrameReader) : C := {| transport := transport c; reader := r; next_stream := next_stream c |}.
Definition set_next_stream (c : C) (n : Z) : C := {| transport := transport c; reader := reader c; next_stream := n |}.

Definition on_transport {A} (m : SE (NoiseTransport W) Error A) : M A := fun c => let (t, r) := m (transport c) in (set_transport c t, r).

(** A frame built in a buffer of [room] bytes, and sent. *)
Definition send_built (room : nat) (f : writer -> outcome H2Writer.H2Error writer) : M unit :=
  do! b := lift (built room f) in on_transport (send b).

(** [H2Conn::start] *)
Definition start (fuel : nat) (t : NoiseTransport W) : NoiseTransport W * outcome Error C :=
  let conn := {| transport := t; reader := new; next_stream := 1 |} in
  let (c, r) :=
    (do! _ := send_built 128 (fun w => let? w := preface w in settings w INITIAL_WINDOW MAX_FRAME) in
     on_transport (skip_early_payload fuel)) conn in
  (transport c, let? _ := r in Ok c).

Definition has_ack (cf : ControlFrame) : bool := negb (bool_decide (band (fh_flags (cf_header cf)) flag.ACK = x00)).

(** [payload().get(a..b).map(u32::from_be_bytes).unwrap_or(0)] *)
Definition code_at (p : bytes) (a : nat) : Z := if decide (a + 4 <= length p) then from_be (take 4 (drop a p)) else 0.

(** [handle_control] *)
Definition handle_control (cf : ControlFrame) : M unit :=
  let kind := fh_kind (cf_header cf) in
  if bool_decide (kind = frame_type.SETTINGS) && negb (has_ack cf) then send_built 64 settings_ack
  else if bool_decide (kind = frame_type.PING) && negb (has_ack cf) then
    do! p := lift (payload cf) in send_built 64 (fun w => ping_ack w p)
  else if decide (kind = frame_type.GOAWAY) then
    do! p := lift (payload cf) in lift (Err (Goaway (code_at p 4)))
  else if decide (kind = frame_type.RST_STREAM) then
    do! p := lift (payload cf) in lift (Err (StreamReset (code_at p 0)))
  else ret tt.

(** [replenish_window] *)
Definition replenish_window : M unit :=
  do! c := get_state in
  let (owed, r) := take_pending_window (reader c) in
  do! _ := modify (fun c => set_reader c r) in
  if decide (owed = 0)%Z then ret tt else send_built 32 (fun w => window_update w 0 owed).

(** *** With the caller's closure, which has a state of its own. *)
Context {A : Type} (on_data : bytes -> SE A Error unit).
Abbreviation MA := (SE (C * A) Error).

Definition conn {X} (m : M X) : MA X := fun s => let (c, r) := m s.1 in ((c, s.2), r).
Definition caller {X} (m : SE A Error X) : MA X := fun s => let (a, r) := m s.2 in ((s.1, a), r).

(** The match on an item; [done]. *)
Definition on_item (stream_id : Z) (item : Item) (done : bool) : MA bool :=
  match item with
  | Control cf => do! _ := conn (handle_control cf) in ret done
  | Body header chunk ends =>
      do! _ := if decide (fh_kind header = frame_type.DATA /\ fh_stream_id header = stream_id) then caller (on_data chunk) else ret tt in
      ret (if ends && end_stream header && bool_decide (fh_stream_id header = stream_id) then true else done)
  end.

(** [while offset < pending.len()] *)
Fixpoint feed_loop (fuel : nat) (stream_id : Z) (pending : bytes) (offset : nat) (done : bool) : MA (nat * bool) :=
  match fuel with
  | O => lift NoFuel
  | S fuel =>
      if decide (offset < length pending) then
        do! input := lift (slice pending offset (length pending)) in
        do! s := get_state in
        do! (r, used, item) := lift (expect_ok (feed (reader s.1) input)) in
        do! _ := conn (modify (fun c => set_reader c r)) in
        let offset := offset + used in
        match item with
        | None => if decide (used = 0) then ret (offset, done) else feed_loop fuel stream_id pending offset done
        | Some item => do! done := on_item stream_id item done in feed_loop fuel stream_id pending offset done
        end
      else ret (offset, done)
  end.

(** The top of the loop of [read_until_end_of]: a copy of what is buffered, once
    something is. *)
Definition fill : MA bytes :=
  do! got := conn (on_transport buffered) in
  do! _ := if decide (length got = 0) then conn (on_transport pump) else ret tt in
  conn (on_transport buffered).

(** The body of the loop; [done]. *)
Definition read_pass (stream_id : Z) : MA bool :=
  do! pending := fill in
  do! (offset, done) := feed_loop (S (length pending)) stream_id pending 0 false in
  do! _ := conn (on_transport (consume offset)) in
  do! _ := conn replenish_window in
  ret done.

(** [read_until_end_of]; the fuel is the number of passes. *)
Fixpoint read_until_end_of (fuel : nat) (stream_id : Z) : MA unit :=
  match fuel with
  | O => lift NoFuel
  | S fuel =>
      do! done := read_pass stream_id in
      if (done : bool) then ret tt else read_until_end_of fuel stream_id
  end.

(** [while let Some(chunk) = chunks.next()] *)
Fixpoint send_body (stream_id : Z) (cs : list bytes) : MA unit :=
  match cs with
  | [] => ret tt
  | chunk :: cs =>
      let last := match cs with [] => true | _ => false end in
      do! _ := conn (send_built MAX_PLAINTEXT (fun w => data w stream_id chunk last)) in
      send_body stream_id cs
  end.

(** [post] *)
Definition post (fuel : nat) (authority path body : bytes) : MA unit :=
  do! s := get_state in
  let stream_id := next_stream s.1 in
  do! next := lift (uadd 32 stream_id 2) in
  do! _ := conn (modify (fun c => set_next_stream c next)) in
  do! _ := conn (send_built 512 (fun w => post_headers w stream_id authority path (Z.of_nat (length body)))) in
  do! _ :=
    match chunks (MAX_PLAINTEXT - FRAME_HEADER_LEN) body with
    | [] => conn (send_built MAX_PLAINTEXT (fun w => data w stream_id [] true))
    | cs => send_body stream_id cs
    end in
  read_until_end_of fuel stream_id.
End Conn.

(** ** What is relied on *)
Class HostNetView (W : Type) `{HN : HostNet W} `{SV : !SocketView W} := {
  set_timeout_view w d w' ok : set_timeout w d = (w', ok) -> inbound w' = inbound w /\ outbound w' = outbound w /\ ((0 < d)%Z -> ok = true);
}.

(** ** The transport *)

(** A session further on by so many records, read or written. *)
Definition took (s : Noise.Session) (n : nat) : Noise.Session :=
  {| Noise.tx := Noise.tx s; Noise.rx := Noise.rx s; Noise.tx_nonce := Noise.tx_nonce s; Noise.rx_nonce := Noise.rx_nonce s + Z.of_nat n;
     Noise.handshake_hash := Noise.handshake_hash s |}.
Definition gave (s : Noise.Session) (n : nat) : Noise.Session :=
  {| Noise.tx := Noise.tx s; Noise.rx := Noise.rx s; Noise.tx_nonce := Noise.tx_nonce s + Z.of_nat n; Noise.rx_nonce := Noise.rx_nonce s;
     Noise.handshake_hash := Noise.handshake_hash s |}.

Lemma took_0 s : took s 0 = s.
Proof. destruct s. unfold took. cbn. by rewrite Z.add_0_r. Qed.
Lemma took_S s n : took (took s 1) n = took s (S n).
Proof. unfold took. cbn. f_equal. lia. Qed.
Lemma gave_0 s : gave s 0 = s.
Proof. destruct s. unfold gave. cbn. by rewrite Z.add_0_r. Qed.
Lemma gave_gave s m n : gave (gave s m) n = gave s (m + n).
Proof. unfold gave. cbn. f_equal. lia. Qed.

Section TransportProofs.
Context `{P : Primitives, L : !PrimitiveLaws P} {W : Type} `{HN : HostNet W, SV : !SocketView W, SU : !SocketUp W}.
Abbreviation T := (NoiseTransport W).

(** Decrypted but not consumed. *)
Definition ready (t : T) : bytes := drop (rx_pos t) (rx t).
Definition transport_ok (t : T) : Prop := rx_pos t <= length (rx t).

(** The server's coming messages are [qs]. *)
Definition receives (t : T) (qs : list bytes) : Prop :=
  transport_ok t /\ Noise.carries (Noise.rx (session t)) (Noise.rx_nonce (session t)) qs (inbound (stream t)).

(** The messages [ms] went out, a record each, and nothing else changed. *)
Definition sent_off (t : T) (ms : list bytes) (t' : T) : Prop :=
  exists wire, outbound (stream t') = outbound (stream t) ++ wire /\ inbound (stream t') = inbound (stream t) /\
    Noise.carries (Noise.tx (session t)) (Noise.tx_nonce (session t)) ms wire /\
    session t' = gave (session t) (length ms) /\ rx t' = rx t /\ rx_pos t' = rx_pos t.

(** So many messages can still be numbered. *)
Definition can_send (n : Z) (t : T) : Prop :=
  length (Noise.tx (session t)) = 32 /\ (0 <= Noise.tx_nonce (session t))%Z /\ (Noise.tx_nonce (session t) + n <= u64_max)%Z.

Lemma host_can_send_less n m t : (m <= n)%Z -> can_send n t -> can_send m t.
Proof. unfold can_send. intros ? (? & ? & ?). split_and!; (done || lia). Qed.
Lemma sent_off_nil t : sent_off t [] t.
Proof. exists []. rewrite app_nil_r, gave_0. split_and!; try done. constructor. Qed.
Lemma sent_off_trans t1 ms1 t2 ms2 t3 : sent_off t1 ms1 t2 -> sent_off t2 ms2 t3 -> sent_off t1 (ms1 ++ ms2) t3.
Proof.
  intros (x & Ho1 & Hi1 & Hc1 & Hs1 & Hr1 & Hp1) (y & Ho2 & Hi2 & Hc2 & Hs2 & Hr2 & Hp2). rewrite Hs1 in Hc2, Hs2. exists (x ++ y). split_and!; try congruence.
  - by rewrite Ho2, Ho1, app_assoc.
  - by apply Noise.carries_app.
  - by rewrite Hs2, gave_gave, length_app.
Qed.
Lemma sent_off_can_send n t ms t' : sent_off t ms t' -> can_send (Z.of_nat (length ms) + n) t -> can_send n t'.
Proof. intros (? & _ & _ & _ & Hs & _) (? & ? & ?). unfold can_send. rewrite Hs. cbn. split_and!; (done || lia). Qed.
Lemma sent_off_receives t ms t' qs : sent_off t ms t' -> receives t qs -> receives t' qs /\ ready t' = ready t.
Proof. intros (? & _ & Hi & _ & Hs & Hr & Hp) [Hok Hc]. unfold receives, transport_ok, ready in *. by rewrite Hs, Hi, Hr, Hp. Qed.

Lemma host_run_stream {A} (f : W -> W * A) (t : T) w a : f (stream t) = (w, a) -> on_stream f t = (set_stream t w, Ok a).
Proof. unfold on_stream. by intros ->. Qed.

Lemma read_exact_spec fuel n got (t : T) : n <= fuel -> n <= length (inbound (stream t)) ->
  exists w, read_exact fuel n got t = (set_stream t w, Ok (got ++ take n (inbound (stream t)))) /\
    inbound w = drop n (inbound (stream t)) /\ outbound w = outbound (stream t).
Proof.
  revert n got t. induction fuel as [|fuel IH]; intros n got t Hf Hn; cbn [read_exact].
  - rewrite decide_True by lia. exists (stream t). assert (n = 0) as -> by lia. rewrite take_0, app_nil_r. by destruct t.
  - case_decide as H0.
    { exists (stream t). subst n. rewrite take_0, app_nil_r. by destruct t. }
    destruct (sock_read_some (stream t) n) as (w & b & E & Hb & Hi & Ho); [lia|by intros Hnil; rewrite Hnil in Hn; simpl in Hn; lia|].
    rewrite (bind_ok _ _ _ _ _ (host_run_stream (fun w => sock_read w n) t _ _ E)). cbn [ok_or]. rewrite bind_lift, decide_False by lia. rewrite nsub_ok, bind_lift by lia.
    destruct (IH (n - length b) (got ++ b) (set_stream t w)) as (w' & E' & Hi' & Ho'); [lia|cbn; rewrite Hi, length_app in Hn; lia|]. cbn [stream set_stream] in *.
    exists w'. rewrite E'. split; [|split; [|congruence]].
    + do 2 f_equal. rewrite <- app_assoc, Hi. f_equal. by rewrite (take_app_ge b) by lia.
    + rewrite Hi', Hi. rewrite drop_app_ge by lia. done.
Qed.

(** A record in full is decrypted behind what is ready. *)
Lemma take_record_spec (t : T) q c g : length g = 16 -> (0 <= Noise.rx_nonce (session t) < u64_max)%Z -> length c = length q ->
  chacha_encrypt (Noise.rx (session t)) (Noise.record_nonce (Noise.rx_nonce (session t))) [] q = Some (c, g) ->
  take_record (c ++ g) t = ({| stream := stream t; session := took (session t) 1; rx := rx t ++ q; rx_pos := rx_pos t |}, Ok tt).
Proof.
  intros Hg Hn Hc E. unfold take_record. rewrite bind_get, (Noise.read_record_spec _ q c g) by done. cbn [map_err]. rewrite bind_lift.
  rewrite slice_app_l_exact, bind_lift by done. done.
Qed.

Lemma host_pump_spec (t : T) q qs : receives t (q :: qs) ->
  exists w, pump t = ({| stream := w; session := took (session t) 1; rx := rx t ++ q; rx_pos := rx_pos t |}, Ok tt) /\
    outbound w = outbound (stream t) /\
    receives {| stream := w; session := took (session t) 1; rx := rx t ++ q; rx_pos := rx_pos t |} qs.
Proof.
  intros [Hok Hc]. apply Noise.carries_cons_inv in Hc as (c & g & wire & Hw & Hn & Hp & E & Hlc & Hlg & Hrest).
  assert (length (Noise.record_of c g) = 19 + length c) as Hlr by (by apply Noise.length_record_of). unfold pump.
  destruct (read_exact_spec 3 3 [] t) as (w1 & E1 & Hi1 & Ho1); [lia|rewrite Hw, length_app; lia|]. rewrite Hw, take_app_le in E1 by lia. cbn [app] in E1.
  unfold Noise.HEADER_LEN. rewrite (bind_ok _ _ _ _ _ E1). rewrite Noise.parse_header_record by (by rewrite Hlc). cbn [expect_ok]. rewrite bind_lift.
  unfold Noise.MAX_PLAINTEXT_SIZE, Noise.MAX_CIPHERTEXT_SIZE, Noise.MAX_MESSAGE_SIZE, Noise.HEADER_LEN, Noise.TAG_LEN in *. rewrite decide_False by lia. rewrite Nat2Z.id.
  rewrite Hw, drop_app_le, Noise.drop_record_header in Hi1 by lia.
  destruct (read_exact_spec (length c + 16) (length c + 16) [] (set_stream t w1)) as (w2 & E2 & Hi2 & Ho2); [lia|cbn; rewrite Hi1, !length_app; lia|].
  cbn [stream set_stream app] in *. rewrite Hi1 in E2, Hi2. replace (length c + 16) with (length (c ++ g)) in E2, Hi2 by (rewrite length_app; lia).
  rewrite take_app_length in E2. rewrite drop_app_length in Hi2. rewrite length_app, Hlg in E2. rewrite (bind_ok _ _ _ _ _ E2). rewrite decide_True by done.
  exists w2. rewrite (take_record_spec _ q) by done. cbn [stream session rx rx_pos set_stream]. split; [done|]. split; [congruence|].
  unfold receives, transport_ok in *. cbn [stream session rx rx_pos took]. rewrite Hi2, length_app. split; [lia|]. exact Hrest.
Qed.

(** One message that fits a record. *)
Lemma host_send_message (t : T) p : p <> [] -> length p <= MAX_PLAINTEXT -> can_send 1 t -> exists t', send p t = (t', Ok tt) /\ sent_off t [p] t'.
Proof.
  intros Hp Hl (Htx & H0 & Hn). unfold send. assert (MAX_PLAINTEXT = 4077) as Hm by reflexivity. rewrite Hm in *.
  rewrite chunks_step by (lia || done). rewrite drop_ge, take_ge by lia. cbn [send_chunks]. rewrite bind_get.
  destruct (Noise.write_record_spec (session t) p (zeros (Z.to_nat Noise.MAX_MESSAGE_SIZE))) as (c & g & E & Hc & Hg & ->);
    [done|lia|unfold Noise.MAX_PLAINTEXT_SIZE, Noise.MAX_CIPHERTEXT_SIZE, Noise.MAX_MESSAGE_SIZE, Noise.HEADER_LEN, Noise.TAG_LEN; lia|
     rewrite length_zeros; unfold Noise.MAX_MESSAGE_SIZE; lia|].
  cbn [map_err]. rewrite bind_lift, bind_modify. assert (length (Noise.record_of c g) = 19 + length p) as Hr by (rewrite Noise.length_record_of; lia).
  rewrite slice_app_l_exact, bind_lift by done. destruct (sock_write_up (stream t) (Noise.record_of c g)) as [w Hw].
  rewrite (bind_ok _ _ _ _ _ (host_run_stream (fun w => sock_write w (Noise.record_of c g)) (set_session t _) _ _ Hw)). apply sock_write_view in Hw as [Ho Hi].
  cbn [chunks chunks_aux length send_chunks]. eexists. split; [reflexivity|]. exists (Noise.record_of c g). split_and!; try done.
  rewrite <- (app_nil_r (Noise.record_of c g)). apply Noise.carries_cons; try done; [lia| |constructor].
  unfold Noise.MAX_PLAINTEXT_SIZE, Noise.MAX_CIPHERTEXT_SIZE, Noise.MAX_MESSAGE_SIZE, Noise.HEADER_LEN, Noise.TAG_LEN. lia.
Qed.

Lemma buffered_spec (t : T) : transport_ok t -> buffered t = (t, Ok (ready t)).
Proof. intros Hok. unfold buffered. rewrite bind_get, slice_from by done. done. Qed.

(** All of it consumed. *)
Lemma consume_all (t : T) : transport_ok t -> consume (length (ready t)) t = (set_rx t [] 0, Ok tt).
Proof.
  intros Hok. unfold consume. rewrite bind_get. unfold transport_ok, ready in *. rewrite length_drop, decide_True by lia. done.
Qed.
End TransportProofs.

(** ** Connecting *)
Section ConnectProofs.
Context `{P : Primitives, L : !PrimitiveLaws P} {W : Type} `{HN : HostNet W, SV : !SocketView W, SU : !SocketUp W, NV : !HostNetView W}.
Abbreviation T := (NoiseTransport W).

(** [rest] ends inside the record of the next message. *)
Definition cut_short (qs : list bytes) (rest : bytes) : Prop :=
  match qs with [] => rest = [] | q :: _ => length rest < 19 + length q end.

(** The whole records among the bytes at hand are decrypted. What is left of the
    next one is refused, or forgotten if it is not even a header. *)
Lemma absorb_loop_spec fuel qs b future (t : T) : length b < fuel ->
  Noise.carries (Noise.rx (session t)) (Noise.rx_nonce (session t)) qs (b ++ future) ->
  exists k whole rest, b = whole ++ rest /\ k <= length qs /\ cut_short (drop k qs) rest /\
    Noise.carries (Noise.rx (session t)) (Noise.rx_nonce (session t)) (take k qs) whole /\
    Noise.carries (Noise.rx (session t)) (Noise.rx_nonce (session t) + Z.of_nat k) (drop k qs) (rest ++ future) /\
    absorb_loop fuel b t = ({| stream := stream t; session := took (session t) k; rx := rx t ++ concat (take k qs); rx_pos := rx_pos t |},
      if decide (length rest < Noise.HEADER_LEN) then Ok tt else Err TruncatedRecord).
Proof.
  revert fuel b t. induction qs as [|q qs IH]; intros fuel b t Hf Hc; (destruct fuel as [|fuel]; [lia|]).
  - exists 0, [], []. pose proof (Noise.carries_nil_inv _ _ _ Hc) as Hn. apply app_eq_nil in Hn as [-> ->]. rewrite took_0. cbn [app take drop concat].
    rewrite app_nil_r. split_and!; [done|lia|done|constructor|constructor|]. by destruct t.
  - pose proof Hc as Hc0. apply Noise.carries_cons_inv in Hc as (c & g & wire & Hw & Hn & Hp & E & Hlc & Hlg & Hrest).
    assert (length (Noise.record_of c g) = 19 + length c) as Hlr by (by apply Noise.length_record_of).
    unfold Noise.MAX_PLAINTEXT_SIZE, Noise.MAX_CIPHERTEXT_SIZE, Noise.MAX_MESSAGE_SIZE, Noise.HEADER_LEN, Noise.TAG_LEN in *.
    assert (3 <= length b -> take 3 b = take 3 (Noise.record_of c g)) as Hhead.
    { intros H3. rewrite <- (take_app_le b future), Hw by lia. by rewrite take_app_le by lia. }
    cbn [absorb_loop]. unfold Noise.HEADER_LEN. destruct (decide (length b < 19 + length q)) as [Hshort|Hall].
    + exists 0, [], b. rewrite took_0. cbn [app take drop concat]. rewrite app_nil_r, Z.add_0_r. replace {| stream := stream t; session := session t; rx := rx t; rx_pos := rx_pos t |} with t by (by destruct t).
      split; [done|]. split; [lia|]. split; [done|]. split; [constructor|]. split; [exact Hc0|]. case_decide as H3; [done|].
      rewrite slice_to, Hhead, bind_lift by lia. rewrite Noise.parse_header_record by (unfold Noise.MAX_PLAINTEXT_SIZE, Noise.MAX_CIPHERTEXT_SIZE, Noise.MAX_MESSAGE_SIZE, Noise.HEADER_LEN, Noise.TAG_LEN; lia).
      cbn [expect_ok]. rewrite bind_lift, Nat2Z.id. by rewrite decide_True by lia.
    + apply app_cut in Hw as [Hb Hfut]; [|lia]. set (b' := drop (length (Noise.record_of c g)) b) in *. clearbody b'. subst b.
      rewrite length_app, Hlr in Hf, Hall. rewrite decide_False by (rewrite length_app; lia). rewrite slice_to, Hhead, bind_lift by (rewrite length_app; lia).
      rewrite Noise.parse_header_record by (unfold Noise.MAX_PLAINTEXT_SIZE, Noise.MAX_CIPHERTEXT_SIZE, Noise.MAX_MESSAGE_SIZE, Noise.HEADER_LEN, Noise.TAG_LEN; lia).
      cbn [expect_ok]. rewrite bind_lift, Nat2Z.id. rewrite decide_False by (rewrite length_app; lia).
      rewrite slice_ok, bind_lift by (rewrite ?length_app; lia). rewrite drop_app_le, Noise.drop_record_header by lia.
      replace (3 + (length c + 16) - 3) with (length (c ++ g)) by (rewrite length_app; lia). rewrite take_app_length, decide_False by (intros Hk; by apply Hk).
      rewrite (bind_ok _ _ _ _ _ (take_record_spec t q c g Hlg Hn Hlc E)). rewrite slice_from, bind_lift by (rewrite length_app; lia).
      replace (3 + (length c + 16)) with (length (Noise.record_of c g)) by lia. rewrite drop_app_length.
      rewrite <- Hfut in Hrest.
      destruct (IH fuel b' {| stream := stream t; session := took (session t) 1; rx := rx t ++ q; rx_pos := rx_pos t |}) as (k & whole & rest & -> & Hk & Hcut & Hwhole & Hleft & E');
        [lia|exact Hrest|]. cbn [stream session rx rx_pos] in *. exists (S k), (Noise.record_of c g ++ whole), rest. cbn [take drop concat length].
      split; [by rewrite <- app_assoc|]. split; [lia|]. split; [done|]. split; [|split].
      * by apply Noise.carries_cons.
      * replace (Noise.rx_nonce (session t) + Z.of_nat (S k))%Z with (Noise.rx_nonce (took (session t) 1) + Z.of_nat k)%Z by (unfold took; cbn; lia). exact Hleft.
      * rewrite E', took_S. by rewrite <- app_assoc.
Qed.

Lemma host_run_net {A} (f : W -> W * A) w w' a : f w = (w', a) -> on_net f w = (w', Ok a).
Proof. unfold on_net. by intros ->. Qed.
Lemma run_check (f : W -> W * bool) e w w' : f w = (w', true) -> check_net f e w = (w', Ok tt).
Proof. intros Hf. unfold check_net. by rewrite (bind_ok _ _ _ _ _ (host_run_net f _ _ _ Hf)). Qed.

Lemma read_into_spec w (got z : bytes) : z <> [] -> inbound w <> [] ->
  exists w' b, read_into (got ++ z) (length got) w = (w', Ok ((got ++ b) ++ drop (length b) z, length (got ++ b), length b)) /\
    0 < length b <= length z /\ inbound w = b ++ inbound w' /\ outbound w' = outbound w.
Proof.
  intros Hz Hi. assert (0 < length z) as Hlz by (destruct z; [done|simpl; lia]). destruct (sock_read_some w (length z) Hlz Hi) as (w' & b & E & Hb & Hin & Ho).
  exists w', b. split; [|done]. unfold read_into. rewrite decide_False by (rewrite length_app; lia). rewrite length_app, nsub_ok, bind_lift by lia.
  replace (length got + length z - length got) with (length z) by lia. rewrite (bind_ok _ _ _ _ _ (host_run_net (fun w => sock_read w (length z)) w _ _ E)). cbn [ok_or]. rewrite bind_lift.
  rewrite copy_range_ok by (rewrite ?length_app; lia). rewrite bind_lift, overwrite_app by done. by rewrite <- app_assoc, length_app.
Qed.

Lemma host_upgrade_loop_spec fuel head w (got z : bytes) rest : switches head -> got ++ inbound w = head ++ rest -> length got < length head ->
  length head <= length (got ++ z) -> length (inbound w) < fuel ->
  exists w' b z', upgrade_loop fuel (got ++ z) (length got) w = (w', Ok ((head ++ b) ++ z', length (head ++ b), length head)) /\
    b ++ inbound w' = rest /\ length ((head ++ b) ++ z') = length (got ++ z) /\ outbound w' = outbound w /\ length (inbound w') <= length (inbound w).
Proof.
  intros Hs. revert w got z. induction fuel as [|fuel IH]; intros w got z He Hg Hl Hf; [lia|]. cbn [upgrade_loop]. rewrite length_app in Hl.
  assert (inbound w <> []) as Hin by (intros Hn; rewrite Hn, app_nil_r in He; apply (f_equal length) in He; rewrite length_app in He; lia).
  destruct (read_into_spec w got z) as (w1 & b & E & Hb & Hi & Hor); [by intros ->; simpl in Hl; lia|done|]. rewrite (bind_ok _ _ _ _ _ E). rewrite decide_False by lia.
  rewrite slice_app_l_exact by done. rewrite bind_lift. rewrite Hi, app_assoc in He. rewrite (parse_response_prefix head _ _ _ Hs He).
  assert (length (drop (length b) z) = length z - length b) as Hdz by apply length_drop. set (z' := drop (length b) z) in *. clearbody z'.
  case_decide as Hd.
  - apply app_cut in He as [Hgb Hrest]; [|done]. set (b' := drop (length head) (got ++ b)) in *. clearbody b'. exists w1, b', z'. rewrite <- Hgb. unfold ret. split; [done|].
    split; [done|]. rewrite !length_app in *. rewrite Hi, length_app. split_and!; (done || lia).
  - destruct (IH w1 (got ++ b) z' He) as (w' & b' & z'' & E' & Hrest & Hlz & Hor' & Hi'); [lia|rewrite !length_app; lia|rewrite Hi, length_app in Hf; lia|].
    exists w', b', z''. split; [exact E'|]. rewrite Hlz, Hi, !length_app. split_and!; (done || congruence || lia).
Qed.

(** The response is read whole; what is taken for an error frame is not one. *)
Lemma host_response_loop_spec fuel head w (got z : bytes) resp rest : got ++ inbound w = resp ++ rest -> length resp = Noise.RESPONSE_LEN -> resp !! 0 <> Some Noise.MSG_TYPE_ERROR ->
  length resp <= length (got ++ z) -> length (inbound w) < fuel ->
  exists w' b z', response_loop fuel ((head ++ got) ++ z) (length (head ++ got)) (length head) w = (w', Ok ((head ++ resp ++ b) ++ z', length (head ++ resp ++ b))) /\
    b ++ inbound w' = rest /\ length ((head ++ resp ++ b) ++ z') = length ((head ++ got) ++ z) /\ outbound w' = outbound w.
Proof.
  intros He Hr Ht. revert w got z He. induction fuel as [|fuel IH]; intros w got z He Hl Hf; [lia|]. cbn [response_loop]. rewrite length_app in Hl.
  rewrite length_app, nsub_ok, bind_lift by lia. replace (length head + length got - length head) with (length got) by lia. rewrite <- Hr. case_decide as Hg.
  - assert (inbound w <> []) as Hin by (intros Hn; rewrite Hn, app_nil_r in He; apply (f_equal length) in He; rewrite length_app in He; lia).
    assert (forall k : bool -> SE W Error (bytes * nat), bind (if decide (Noise.HEADER_LEN <= length got) then
        do! t := lift (index ((head ++ got) ++ z) (length head)) in ret (bool_decide (t = Noise.MSG_TYPE_ERROR)) else ret false) k w = k false w) as Hnot.
    { intros k. case_decide as Hh; [|done]. destruct got as [|t got]; [unfold Noise.HEADER_LEN in Hh; simpl in Hh; lia|].
      rewrite (index_ok _ (length head) t) by (rewrite <- app_assoc, lookup_app_r, Nat.sub_diag by lia; done). rewrite bind_assoc, bind_lift.
      assert (resp !! 0 = Some t) as Hresp. { destruct resp as [|t0 resp]; [done|]. cbn in He. by injection He as ->. }
      rewrite bool_decide_eq_false_2; [done|]. intros ->. by apply Ht. }
    rewrite Hnot. cbn beta iota.
    destruct (read_into_spec w (head ++ got) z) as (w1 & b & E & Hb & Hi & Hor); [by intros ->; simpl in Hl; lia|done|].
    rewrite length_app in E. rewrite (bind_ok _ _ _ _ _ E). cbn beta iota. rewrite decide_False by lia. rewrite Hi, app_assoc in He.
    assert (length (drop (length b) z) = length z - length b) as Hdz by apply length_drop.
    destruct (IH w1 (got ++ b) (drop (length b) z) He) as (w' & b' & z' & E' & Hrest & Hlz & Hor'); [rewrite !length_app; lia|rewrite Hi, length_app in Hf; lia|].
    exists w', b', z'. rewrite <- (app_assoc head got b). rewrite <- app_assoc in E' |- *. split; [|split; [done|split; [|congruence]]].
    + exact E'.
    + rewrite Hlz, !length_app. lia.
  - apply app_cut in He as [Hgr Hrest]; [|lia]. exists w, (drop (length resp) got), z. rewrite <- Hgr, length_app. by split_and!.
Qed.

(** C11. [connect] with a server that switches protocols and answers as the holder
    of the control key, and sends the messages [qs] behind its answer: the session
    is the server's. How much of what follows is read along with the answer is up
    to the network. Whole records among it are decrypted and ready, in order; but if
    it ends inside a record, [connect] fails, or, if not even the three bytes of the
    header have come, forgets them, so that what is read next is not a record. *)
Theorem connect_coalesced fuel host port c m e er v w w0 head hs msg st resp sv qs wire :
  priv_ok m -> priv_ok c -> priv_ok e -> priv_ok er -> (0 <= v < 65536)%Z ->
  Noise.start m (public_of c) v e = Ok (hs, msg) -> Noise.responder c er msg = Some (st, resp, sv) ->
  dial w (host, port) = (w0, true) -> inbound w0 = head ++ resp ++ wire -> switches head -> length head + Noise.RESPONSE_LEN <= 8 * 1024 ->
  Noise.carries (Noise.tx sv) (Noise.tx_nonce sv) qs wire ->
  length (request_text host msg) <= MAX_REQUEST_LEN -> length (inbound w0) < fuel ->
  exists w' cl k whole rest, matched cl sv /\ st = public_of m /\ outbound w' = outbound w0 ++ request_text host msg /\
    wire = whole ++ rest ++ inbound w' /\ k <= length qs /\ cut_short (drop k qs) rest /\
    Noise.carries (Noise.tx sv) (Noise.tx_nonce sv) (take k qs) whole /\
    Noise.carries (Noise.tx sv) (Noise.tx_nonce sv + Z.of_nat k) (drop k qs) (rest ++ inbound w') /\
    connect fuel host port (public_of c) m e v w =
      (w', if decide (length rest < Noise.HEADER_LEN) then Ok {| stream := w'; session := took cl k; rx := concat (take k qs); rx_pos := 0 |} else Err TruncatedRecord).
Proof.
  intros Hm Hc He Her Hv Hstart Hresp Hdial Hin Hsw Hroom Hcar Hreq Hf.
  destruct (Noise.responder_reads m c v e hs msg Hm Hc He Hv Hstart) as (Hlm & Hrs & Hmk & Hek).
  destruct (Noise.finish_reads c er hs st msg resp sv Her) as (cl & Hfin & Hst & Hlr & Htx & Hrx & Hhh & Hn1 & Hn2 & Hn3 & Hn4 & _); [by rewrite Hmk|by rewrite Hek|by rewrite Hmk, Hek|done|].
  rewrite Hmk in Hst. pose proof (responder_type _ _ _ _ _ _ Hresp) as Htype. destruct (set_timeout w0 30) as [w1 ok1] eqn:Et.
  destruct (set_timeout_view _ _ _ _ Et) as (Hi1 & Ho1 & Hok1). rewrite (Hok1 ltac:(lia)) in Et. clear Hok1.
  destruct (sock_write_up w1 (request_text host msg)) as [w2 Ew]. destruct (sock_write_view _ _ _ Ew) as [Ho2 Hi2].
  unfold connect, handshake. set (buf := zeros (8 * 1024)). assert (length buf = 8 * 1024) as Hlb by apply length_zeros. clearbody buf.
  rewrite Hstart. cbn [expect_ok]. rewrite bind_lift. rewrite build_request_exact by lia. rewrite decide_False by (rewrite length_zeros; unfold MAX_REQUEST_LEN in *; lia).
  cbn [map_err]. rewrite bind_lift, (bind_ok _ _ _ _ _ (run_check (fun w => dial w (host, port)) _ _ _ Hdial)), (bind_ok _ _ _ _ _ (run_check (fun w => set_timeout w 30) _ _ _ Et)).
  rewrite slice_app_l_exact by done. rewrite bind_lift, (bind_ok _ _ _ _ _ (run_check (fun w => sock_write w (request_text host msg)) _ _ _ Ew)).
  rewrite Hin in Hi1. rewrite Hi1 in Hi2. rewrite Hin in Hf. unfold Noise.RESPONSE_LEN in Hroom.
  destruct (host_upgrade_loop_spec fuel head w2 [] buf (resp ++ wire)) as (w3 & b & z & E3 & Hb & Hl3 & Hor3 & Hle3);
    [done|exact Hi2|destruct (switches_window head Hsw); simpl; lia|cbn [app]; lia|rewrite Hi2; exact Hf|].
  cbn [app length] in E3, Hl3. rewrite (bind_ok _ _ _ _ _ E3). rewrite Hlb in Hl3. rewrite Hi2 in Hle3.
  destruct (host_response_loop_spec fuel head w3 b z resp wire) as (w4 & b' & z' & E4 & Hb' & Hl4 & Hor4); [done|by rewrite Hlr|by rewrite Htype| |lia|].
  { rewrite <- app_assoc, !length_app in Hl3. rewrite length_app. lia. }
  rewrite (bind_ok _ _ _ _ _ E4). rewrite <- !app_assoc. unfold Noise.RESPONSE_LEN. rewrite <- Hlr.
  rewrite (slice_seg head resp (b' ++ z')), bind_lift, Hfin by done. cbn [map_err]. rewrite bind_lift. rewrite !length_app in *.
  replace (head ++ resp ++ b' ++ z') with ((head ++ resp) ++ b' ++ z') by (by rewrite <- app_assoc).
  assert ((if decide (length head + length resp < length head + (length resp + length b')) then
      do! leftover := lift (slice ((head ++ resp) ++ b' ++ z') (length head + length resp) (length head + (length resp + length b'))) in ret (cl, leftover)
    else ret (cl, [])) w4 = (w4, Ok (E:=Error) (cl, b'))) as ->.
  { case_decide as Hlt; [by rewrite (slice_seg (head ++ resp) b' z'), bind_lift by (rewrite ?length_app; lia)|].
    destruct b'; [done|simpl in Hlt; lia]. }
  assert (Noise.carries (Noise.rx cl) (Noise.rx_nonce cl) qs (b' ++ inbound w4)) as Hcar4 by (rewrite Hrx, Hn2, <- Hn3, Hb'; exact Hcar).
  destruct (absorb_loop_spec (S (length b')) qs b' (inbound w4) {| stream := w4; session := cl; rx := []; rx_pos := 0 |} (Nat.lt_succ_diag_r _) Hcar4)
    as (k & whole & rest & -> & Hk & Hcut & Hwhole & Hleft & E). unfold absorb. rewrite E. cbn [stream session rx rx_pos app] in *. rewrite Hrx, Hn2, <- Hn3 in Hwhole, Hleft.
  exists w4, cl, k, whole, rest. split; [by unfold matched|]. split; [done|]. split; [congruence|]. rewrite <- app_assoc in Hb'.
  split_and!; try done. by case_decide.
Qed.
End ConnectProofs.

(** *** An example: the server's first record comes with its answer, on a pipe that
    gives five bytes a read. *)
#[export] Instance pipe_host : HostNet pipe := { dial p _ := (p, true); set_timeout p _ := (p, true) }.
#[export] Instance pipe_host_view : HostNetView pipe.
Proof. split. by intros w d w' ok [= <- <-]. Defined.

Section Example.
#[local] Existing Instances Toy.toy Toy.toy_laws.
Import ControlServer.Example.
Definition example_record (k p : bytes) : bytes := Noise.record_of p (Toy.seal k [] p).2.
Definition example_wire : bytes := example_record (Noise.tx example_answer.2) (bs "settings") ++ [].
Definition example_server : pipe := (example_response ++ example_answer.1.2 ++ example_wire, []).

Lemma example_carried : Noise.carries (Noise.tx example_answer.2) (Noise.tx_nonce example_answer.2) [bs "settings"] example_wire.
Proof. apply Noise.carries_cons; [vm_compute; by split|vm_compute; discriminate|vm_compute; reflexivity|reflexivity|reflexivity|constructor]. Qed.
Lemma example_request : length (request_text (bs "h") example_start.2) <= MAX_REQUEST_LEN /\ length (inbound example_server) < 300.
Proof. split; apply Nat.leb_le || apply Nat.ltb_lt; vm_compute; reflexivity. Qed.

Lemma connect_coalesced_witness :
  exists w' cl k whole rest, matched cl example_answer.2 /\ example_answer.1.1 = public_of (Private (replicate 32 x01)) /\
    outbound w' = outbound example_server ++ request_text (bs "h") example_start.2 /\
    example_wire = whole ++ rest ++ inbound w' /\ k <= length [bs "settings"] /\ cut_short (drop k [bs "settings"]) rest /\
    Noise.carries (Noise.tx example_answer.2) (Noise.tx_nonce example_answer.2) (take k [bs "settings"]) whole /\
    Noise.carries (Noise.tx example_answer.2) (Noise.tx_nonce example_answer.2 + Z.of_nat k) (drop k [bs "settings"]) (rest ++ inbound w') /\
    connect 300 (bs "h") 80 (public_of (Private (replicate 32 x02))) (Private (replicate 32 x01)) (Private (replicate 32 x03)) 133 example_server =
      (w', if decide (length rest < Noise.HEADER_LEN) then Ok {| stream := w'; session := took cl k; rx := concat (take k [bs "settings"]); rx_pos := 0 |} else Err TruncatedRecord).
Proof.
  refine (connect_coalesced 300 (bs "h") 80 (Private (replicate 32 x02)) (Private (replicate 32 x01)) (Private (replicate 32 x03)) (Private (replicate 32 x04)) 133
    example_server example_server example_response example_start.1 example_start.2 example_answer.1.1 example_answer.1.2 example_answer.2 [bs "settings"] example_wire
    (example_key_ok _) (example_key_ok _) (example_key_ok _) (example_key_ok _) _ example_started example_answered eq_refl eq_refl _ _ example_carried
    (proj1 example_request) (proj2 example_request)).
  - lia.
  - vm_compute. reflexivity.
  - apply Nat.leb_le. vm_compute. reflexivity.
Defined.
Definition example_connect (server : pipe) : pipe * outcome Error (NoiseTransport pipe) :=
  connect 300 (bs "h") 80 (public_of (Private (replicate 32 x02))) (Private (replicate 32 x01)) (Private (replicate 32 x03)) 133 server.

(** A byte of the record has come with the answer: it is forgotten, and what is read
    next is no record. *)
Example byte_forgotten :
  match example_connect example_server with
  | (_, Ok t) => rx t = [] /\ (pump t).2 = Err (RecordTooLong 6259)
  | _ => False
  end.
Proof. by vm_compute. Qed.

(** Three have: the connection is given up. *)
Example record_torn :
  (example_connect (bs "HTTP/1.1 101 Switching Protocols" ++ CRLF ++ bs "U: noise" ++ BLANK_LINE ++ example_answer.1.2 ++ example_wire, [])).2 = Err TruncatedRecord.
Proof. by vm_compute. Qed.
End Example.
