(* ===== verification/HostPost.v ===== *)
(** A request over the host's HTTP/2 connection: [H2Conn::post] of
    [lando-host/src/transport.rs], whose definitions are in [HostTransport].

    Every control frame is answered where it stands, and the credit of a pass is
    returned at its end. The theorem has the two ends of the connection, as that of
    [H2Post] has for the firmware. *)
From S2P Require Import Prelude StateError Decimal Crypto Buffer Framing Socket ControlResponse H2Reader H2Writer H2Events HostTransport.
From S2P Require Noise.

Section Conn.
Context `{P : Primitives, L : !PrimitiveLaws P} {W : Type} `{HN : HostNet W, SV : !SocketView W, SU : !SocketUp W}.
Abbreviation C := (H2Conn W).

(** The frames [ss] were sent, a record each. *)
Definition sends (c : C) (ss : list sent) (c' : C) : Prop :=
  sent_off (transport c) (map sent_wire ss) (transport c') /\ reader c' = reader c /\ next_stream c' = next_stream c.

Lemma host_sends_nil c : sends c [] c.
Proof. split; [apply sent_off_nil|done]. Qed.
Lemma host_sends_trans c1 s1 c2 s2 c3 : sends c1 s1 c2 -> sends c2 s2 c3 -> sends c1 (s1 ++ s2) c3.
Proof. intros (H1 & Hr1 & Hn1) (H2 & Hr2 & Hn2). split; [rewrite map_app; by eapply sent_off_trans|]. split; congruence. Qed.
Lemma host_sends_can_send n c ss c' : sends c ss c' -> can_send (Z.of_nat (length ss) + n) (transport c) -> can_send n (transport c').
Proof. intros (Hs & _) Hc. eapply sent_off_can_send; [exact Hs|]. by rewrite length_map. Qed.

Lemma host_built_put room f b : (forall w : writer, writer_ok w -> f w = put w b) -> length b <= room -> built room f = Ok b.
Proof.
  intros Hf Hl. unfold built. rewrite Hf by (unfold writer_ok; cbn; lia). unfold put. rewrite wput_fits by (cbn; rewrite length_zeros; lia).
  cbn [map_err obind]. rewrite advance_start by (rewrite length_zeros; lia). cbn [w_buf w_pos]. by rewrite slice_app_l_exact.
Qed.

(** A frame built and sent. *)
Lemma send_built_spec room f s c : (forall w : writer, writer_ok w -> f w = put w (sent_wire s)) -> 9 + length (s_payload s) <= room ->
  room <= MAX_PLAINTEXT -> can_send 1 (transport c) -> exists c', send_built room f c = (c', Ok tt) /\ sends c [s] c'.
Proof.
  intros Hf Hl Hr Hs. assert (length (sent_wire s) = 9 + length (s_payload s)) as Hw by (unfold sent_wire; apply length_h2_wire).
  unfold send_built. rewrite (host_built_put room f (sent_wire s)), bind_lift by (done || lia).
  destruct (host_send_message (transport c) (sent_wire s)) as (t & E & Hsent); [intros Hn; rewrite Hn in Hw; simpl in Hw; lia|lia|done|].
  unfold on_transport. rewrite E. eexists. split; [done|]. by split.
Qed.

(** ** Replies *)
Lemma host_handle_control_spec cf c : control_open cf -> can_send 1 (transport c) ->
  exists c', handle_control cf c = (c', Ok tt) /\
    sends c (ack_of (fh_kind (cf_header cf)) (fh_flags (cf_header cf)) (take (payload_len cf) (cf_payload cf))) c'.
Proof.
  intros (Hp & Hg & Hr) Hs. unfold handle_control, has_ack, ack_of.
  destruct (decide (band (fh_flags (cf_header cf)) flag.ACK = x00)) as [Ha|Ha].
  2:{ rewrite (bool_decide_eq_false_2 _ Ha), !andb_false_r, !decide_False by done. exists c. split; [done|apply host_sends_nil]. }
  rewrite (bool_decide_eq_true_2 _ Ha), !andb_true_r. destruct (decide (fh_kind (cf_header cf) = frame_type.SETTINGS)) as [Hset|Hset].
  { rewrite (bool_decide_eq_true_2 _ Hset). apply (send_built_spec 64 settings_ack (Sent false frame_type.SETTINGS flag.ACK 0 []) c);
      [intros; apply settings_ack_spec|simpl; lia|apply Nat.leb_le; vm_compute; reflexivity|done]. }
  rewrite (bool_decide_eq_false_2 _ Hset). destruct (decide (fh_kind (cf_header cf) = frame_type.PING)) as [Hping|Hping].
  { rewrite (bool_decide_eq_true_2 _ Hping). unfold payload. rewrite slice_to, bind_lift by done. set (p := take _ (cf_payload cf)).
    assert (length (take 8 (p ++ zeros 8)) = 8) as Hl by (rewrite length_take, length_app, length_zeros; lia).
    apply (send_built_spec 64 (fun w => ping_ack w p) (Sent false frame_type.PING flag.ACK 0 (take 8 (p ++ zeros 8))) c);
      [intros; apply ping_ack_spec|cbn [s_payload]; lia|apply Nat.leb_le; vm_compute; reflexivity|done]. }
  rewrite (bool_decide_eq_false_2 _ Hping), !decide_False by done. exists c. split; [done|apply host_sends_nil].
Qed.

(** The credit for the bytes of [DATA] the reader has counted. *)
Lemma replenish_spec c n : pending_window (reader c) = n -> (0 <= n < 2 ^ 31)%Z -> can_send 1 (transport c) ->
  exists c' rs, replenish_window c = (c', Ok tt) /\ sent_off (transport c) (map sent_wire rs) (transport c') /\ reader c' = (take_pending_window (reader c)).2 /\
    next_stream c' = next_stream c /\ length rs <= 1 /\ Forall reply rs /\ total_credit rs = n /\ acks rs = [].
Proof.
  intros Hw Hn Hs. unfold replenish_window. rewrite bind_get. unfold take_pending_window. rewrite bind_modify, Hw. cbn [snd]. case_decide as H0.
  { eexists _, []. split; [reflexivity|]. split_and!; try done; [apply sent_off_nil|simpl; lia]. }
  destruct (send_built_spec 32 (fun w => window_update w 0 n) (Sent false frame_type.WINDOW_UPDATE x00 0 (to_be 4 n)) (set_reader c (H2Reader.set_pending 0 (reader c)))) as (c' & -> & Hsend & Hr' & Hn').
  - intros w0 _. rewrite window_update_spec. by rewrite Z.mod_small by lia.
  - cbn [s_payload]. rewrite length_to_be. lia.
  - apply Nat.leb_le. vm_compute. reflexivity.
  - done.
  - exists c', [Sent false frame_type.WINDOW_UPDATE x00 0 (to_be 4 n)]. split_and!; try done; [apply Forall_singleton; constructor; lia|].
    cbn [total_credit foldr]. unfold credit. cbn [s_kind s_payload]. rewrite decide_True by done. rewrite from_to_be_small by (simpl; lia). lia.
Qed.

(** What goes back for the events [ev]. *)
Definition answered (ev : list (event FrameHeader)) (rs : list sent) : Prop :=
  Forall reply rs /\ acks rs = asked_acks ev /\ total_credit rs = Z.of_nat (data_count ev).
Lemma answered_app ev1 rs1 ev2 rs2 : answered ev1 rs1 -> answered ev2 rs2 -> answered (ev1 ++ ev2) (rs1 ++ rs2).
Proof.
  intros (H1 & Ha1 & Ht1) (H2 & Ha2 & Ht2). unfold answered. rewrite acks_app, asked_acks_app, total_credit_app, data_count_app, Nat2Z.inj_add, Ha1, Ha2, Ht1, Ht2.
  split; [by apply Forall_app|done].
Qed.

(** ** A pass *)
(** The closure does not fail on the states it gets to. *)
Context {A : Type} (on_data : bytes -> SE A Error unit) (eat : A -> bytes -> A) (good : A -> Prop).
Hypothesis eats : forall chunk a, good a -> on_data chunk a = (eat a chunk, Ok tt) /\ good (eat a chunk).
Abbreviation S := (C * A)%type.

Lemma run_conn {X} (m : SE C Error X) (s : S) c x : m s.1 = (c, Ok x) -> conn m s = ((c, s.2), Ok x).
Proof. unfold conn. by intros ->. Qed.
Lemma run_transport {X} (m : SE (NoiseTransport W) Error X) (c : C) t x : m (transport c) = (t, Ok x) -> on_transport m c = (set_transport c t, Ok x).
Proof. unfold on_transport. by intros ->. Qed.

(** One item, in terms of the events it stands for. *)
Lemma host_on_item_spec sid i done (s : S) : item_ok i -> Forall stays_open (item_seen i) -> can_send 1 (transport s.1) -> good s.2 ->
  exists s' cs rs, on_item on_data sid i done s = (s', Ok (ended sid (item_seen i) || done)) /\ s'.2 = foldl eat s.2 cs /\ good s'.2 /\ concat cs = our_data sid (item_seen i) /\
    sends s.1 rs s'.1 /\ length rs <= 1 /\ rs = asked_acks (item_seen i).
Proof using eats L SU.
  intros Hi Ho Hs Hgood. destruct i as [cf|h chunk e]; cbn [on_item item_seen item_ok] in *.
  - unfold payload in *. rewrite slice_to in * by done. apply List.Forall_cons_iff in Ho as [Ho _].
    destruct (host_handle_control_spec cf s.1) as (c' & E & Hsend); [done..|]. rewrite (bind_ok _ _ _ _ _ (run_conn _ s _ _ E)).
    eexists (c', s.2), [], _. split_and!; [done..|exact Hsend|apply ack_of_reply|symmetry; apply app_nil_r].
  - assert (our_data sid match chunk with [] => [EvEmpty h] | _ => body_events h chunk e end =
      if decide (fh_kind h = frame_type.DATA /\ fh_stream_id h = sid) then chunk else []) as ->.
    { destruct chunk; [by case_decide|]. apply our_data_body. }
    assert (ended sid match chunk with [] => [EvEmpty h] | _ => body_events h chunk e end =
      e && end_stream h && bool_decide (fh_stream_id h = sid)) as ->.
    { destruct chunk; [rewrite Hi by done; cbn; by rewrite orb_false_r, andb_comm|]. rewrite ended_body by done. by rewrite andb_comm. }
    assert (ret (E:=Error) (if e && end_stream h && bool_decide (fh_stream_id h = sid) then true else done) =
      ret (S:=S) (e && end_stream h && bool_decide (fh_stream_id h = sid) || done)) as -> by (by destruct (_ && bool_decide _)).
    assert (asked_acks match chunk with [] => [EvEmpty h] | _ => body_events h chunk e end = []) as -> by (destruct chunk; [done|apply asked_acks_body]).
    case_decide.
    + destruct (eats chunk s.2 Hgood) as [He Hgood']. assert (caller (on_data chunk) s = ((s.1, eat s.2 chunk), Ok tt)) as Ec by (unfold caller; by rewrite He). rewrite (bind_ok _ _ _ _ _ Ec).
      exists (s.1, eat s.2 chunk), [chunk], []. cbn [foldl concat]. rewrite app_nil_r. split_and!; try done; [apply host_sends_nil|simpl; lia].
    + exists s, [], []. split_and!; try done; [apply host_sends_nil|simpl; lia].
Qed.

(** The loop over the plaintext at hand: its events, answered and handed out. *)
Lemma feed_loop_spec fuel sid (pending : bytes) offset k done (s : S) p ev :
  offset <= length pending -> length pending - offset < fuel -> h2_ok (length pending - offset + k) (reader s.1) ->
  run h2_format (h2_at (reader s.1)) (drop offset pending) = inr (p, ev) -> Forall stays_open ev ->
  can_send (Z.of_nat (length pending - offset)) (transport s.1) -> good s.2 ->
  exists s' cs rs, feed_loop on_data fuel sid pending offset done s = (s', Ok (length pending, ended sid ev || done)) /\
    s'.2 = foldl eat s.2 cs /\ good s'.2 /\ concat cs = our_data sid ev /\ sent_off (transport s.1) (map sent_wire rs) (transport s'.1) /\
    next_stream s'.1 = next_stream s.1 /\ length rs <= length pending - offset /\ rs = asked_acks ev /\
    h2_ok k (reader s'.1) /\ h2_at (reader s'.1) = p /\ pending_window (reader s'.1) = (pending_window (reader s.1) + Z.of_nat (data_count ev))%Z.
Proof using eats L SU.
  revert offset done s ev. induction fuel as [|fuel IH]; intros offset done s ev Hoff Hfuel Hok Hrun Hopen Hs Hgood; [lia|]. cbn [feed_loop].
  case_decide as Hlt.
  2:{ assert (offset = length pending) as -> by lia. rewrite drop_all in Hrun. cbn [run] in Hrun. injection Hrun as <- <-. rewrite Nat.sub_diag in Hok.
      exists s, [], []. split_and!; try done; [apply sent_off_nil|simpl; lia|cbn; lia]. }
  rewrite slice_from, bind_lift, bind_get by lia. set (input := drop offset pending) in *.
  assert (length input = length pending - offset) as Hin by (unfold input; by rewrite length_drop). rewrite <- Hin in Hok, Hs |- *.
  pose proof (feed_steps (FramingLaws:=h2_framing_laws) (reader s.1) input k Hok) as Hst.
  destruct (feed (reader s.1) input) as [[[r n] item]|[]| |] eqn:Ef; [|done..].
  destruct Hst as (Hr & Hn & Hprog & Hnone & Hstep). cbn [expect_ok]. rewrite bind_lift. specialize (Hprog ltac:(lia)).
  set (s1 := (set_reader s.1 r, s.2)). rewrite (bind_ok _ _ s s1 tt) by done.
  rewrite <- (take_drop n input), (run_app_inr _ _ _ _ _ _ Hstep) in Hrun. cbn [reader_at h2_framing_laws] in Hrun.
  destruct (run h2_format (h2_at r) (drop n input)) as [|[p1 ev1]] eqn:Hrest; [done|]. simplify_eq.
  apply Forall_app in Hopen as [Hopen1 Hopen2].
  pose proof Hok as Hok0. rewrite <- (Nat.sub_0_r (length input)) in Hok0.
  pose proof (feed_pending 3 _ input 0 k r n item Hok0 ltac:(lia) Ef) as Hpend.
  assert (drop (offset + n) pending = drop n input) as Hdrop by (unfold input; by rewrite drop_drop).
  assert (forall s2 d, reader s2.1 = r -> can_send (Z.of_nat (length input - n)) (transport s2.1) -> good s2.2 ->
    exists s' cs rs, feed_loop on_data fuel sid pending (offset + n) d s2 = (s', Ok (length pending, ended sid ev1 || d)) /\
      s'.2 = foldl eat s2.2 cs /\ good s'.2 /\ concat cs = our_data sid ev1 /\ sent_off (transport s2.1) (map sent_wire rs) (transport s'.1) /\
      next_stream s'.1 = next_stream s2.1 /\ length rs <= length input - n /\ rs = asked_acks ev1 /\
      h2_ok k (reader s'.1) /\ h2_at (reader s'.1) = p /\ pending_window (reader s'.1) = (pending_window r + Z.of_nat (data_count ev1))%Z) as Hnext.
  { intros s2 d Hs2 Hc2 Hg2. replace (length input - n) with (length pending - (offset + n)) in * by lia. rewrite <- Hs2. apply IH; try done; try lia.
    - rewrite Hs2. exact Hr.
    - by rewrite Hs2, Hdrop. }
  rewrite our_data_app, ended_app, data_count_app, asked_acks_app, Nat2Z.inj_add. destruct item as [i|]; cbn [from_option] in *.
  - pose proof (feed_item_ok 3 _ input 0 k r n i Hok0 ltac:(lia) Ef) as Hi.
    destruct (host_on_item_spec sid i done s1 Hi Hopen1) as (s2 & cs2 & rs2 & E2 & Ha2 & Hg2 & Hcs2 & (Hs2 & Hr2 & Hn2) & Hl2 & Hrep2); [eapply host_can_send_less; [|exact Hs]; lia|exact Hgood|].
    rewrite (bind_ok _ _ _ _ _ E2). destruct (Hnext s2 (ended sid (item_seen i) || done) Hr2) as (s' & cs & rs & -> & Ha & Hg & Hcs & Hsent & Hns & Hlen & Hrep & Hk & Hat & Hpw).
    { eapply sent_off_can_send; [exact Hs2|]. eapply host_can_send_less; [|exact Hs]. rewrite length_map. lia. }
    { exact Hg2. }
    exists s', (cs2 ++ cs), (rs2 ++ rs). rewrite data_bytes_count in Hpend by done. change (item_events i) with (item_seen i).
    rewrite map_app, foldl_app, concat_app, (length_app rs2), Hcs2, Hcs. split_and!; try done.
    + by destruct (ended sid ev1), (ended sid (item_seen i)).
    + by rewrite Ha, Ha2.
    + by apply (sent_off_trans _ _ (transport s2.1)).
    + by rewrite Hns, Hn2.
    + lia.
    + by rewrite Hrep2, Hrep.
    + rewrite Hpw, Hpend. lia.
  - rewrite decide_False by lia. destruct (Hnext s1 done eq_refl) as (s' & cs & rs & -> & Ha & Hg & Hcs & Hsent & Hns & Hlen & Hrep & Hk & Hat & Hpw);
      [eapply host_can_send_less; [|exact Hs]; lia|exact Hgood|].
    exists s', cs, rs. split_and!; try done; [lia|]. rewrite Hpw, Hpend. cbn. lia.
Qed.

(** [ms] went out; the receiving side may have moved on. *)
Definition sent_out (t : NoiseTransport W) (ms : list bytes) (t' : NoiseTransport W) : Prop :=
  exists wire, outbound (stream t') = outbound (stream t) ++ wire /\ Noise.carries (Noise.tx (session t)) (Noise.tx_nonce (session t)) ms wire /\
    Noise.tx (session t') = Noise.tx (session t) /\ Noise.tx_nonce (session t') = (Noise.tx_nonce (session t) + Z.of_nat (length ms))%Z.

Lemma sent_off_out t ms t' : sent_off t ms t' -> sent_out t ms t'.
Proof. intros (wire & Ho & _ & Hc & Hs & _). exists wire. by rewrite Hs. Qed.
Lemma host_sent_out_trans t1 ms1 t2 ms2 t3 : sent_out t1 ms1 t2 -> sent_out t2 ms2 t3 -> sent_out t1 (ms1 ++ ms2) t3.
Proof.
  intros (x & Ho1 & Hc1 & Ht1 & Hn1) (y & Ho2 & Hc2 & Ht2 & Hn2). exists (x ++ y). rewrite Ht1, Hn1 in Hc2. split_and!.
  - by rewrite Ho2, Ho1, app_assoc.
  - by apply Noise.carries_app.
  - congruence.
  - rewrite Hn2, Hn1, length_app. lia.
Qed.
Lemma host_sent_out_can_send n t ms t' : sent_out t ms t' -> can_send (Z.of_nat (length ms) + n) t -> can_send n t'.
Proof. intros (wire & _ & _ & Ht & Hn) (? & ? & ?). unfold can_send. rewrite Ht, Hn. split_and!; (done || lia). Qed.
Lemma received_out t t' : outbound (stream t') = outbound (stream t) -> Noise.tx (session t') = Noise.tx (session t) -> Noise.tx_nonce (session t') = Noise.tx_nonce (session t) ->
  sent_out t [] t'.
Proof. intros Ho Ht Hn. exists []. rewrite app_nil_r. split_and!; try done; [constructor|simpl; lia]. Qed.

(** The server's coming messages are [qs], which with what is ready read as [ev] and
    end at [p], and then [later] ones, of which nothing is read yet. *)
Definition serving (c : C) (qs later : list bytes) (p : position_in FrameHeader) (ev : list (event FrameHeader)) : Prop :=
  receives (transport c) (qs ++ later) /\ Forall (fun q => q <> []) qs /\ reader_idle (reader c) /\ (Z.of_nat (length (ready (transport c))) < 2 ^ 31)%Z /\
  run h2_format (h2_at (reader c)) (ready (transport c) ++ concat qs) = inr (p, ev) /\ Forall stays_open ev.

(** Where nothing is ready, a record is read. *)
Lemma host_fill_spec (s : S) qs later p ev : serving s.1 qs later p ev -> ready (transport s.1) ++ concat qs <> [] ->
  exists c qs', fill s = ((c, s.2), Ok (ready (transport c))) /\
    serving c qs' later p ev /\ ready (transport c) <> [] /\ ready (transport c) ++ concat qs' = ready (transport s.1) ++ concat qs /\
    length qs' + (if decide (ready (transport s.1) = []) then 1 else 0) <= length qs /\
    sent_out (transport s.1) [] (transport c) /\ reader c = reader s.1 /\ next_stream c = next_stream s.1.
Proof using SU L.
  destruct s as [c a]. cbn [fst snd]. unfold fill. intros (Hr & Hne & Hidle & Hlen & Hrun & Hopen) Hrest. pose proof Hr as [Hok _].
  rewrite (bind_ok _ _ _ _ _ (run_conn _ (c, a) _ _ (run_transport _ c _ _ (buffered_spec _ Hok)))). cbn [snd].
  assert (set_transport c (transport c) = c) as Hsame by (by destruct c). rewrite Hsame. case_decide as Hempty.
  - assert (ready (transport c) = []) as He by (by apply nil_length_inv). destruct qs as [|q qs]; [by rewrite He in Hrest|].
    apply List.Forall_cons_iff in Hne as [Hq Hne]. destruct (host_pump_spec (transport c) q (qs ++ later) Hr) as (w & Ep & Ho & Hr').
    rewrite (bind_ok _ _ _ _ _ (run_conn _ (c, a) _ _ (run_transport _ c _ _ Ep))). set (t' := Build_NoiseTransport _ _ _ _) in *.
    pose proof Hr' as [Hok' Hc']. exists (set_transport c t'), qs.
    assert (ready t' = q) as Hrd by (unfold ready in *; unfold t'; cbn [rx rx_pos]; rewrite drop_app_le by exact Hok; by rewrite He).
    assert (length q <= 4077) as Hq4.
    { destruct Hr as [_ Hcar]. apply Noise.carries_cons_inv in Hcar as (? & ? & ? & _ & _ & Hp & _).
      unfold Noise.MAX_PLAINTEXT_SIZE, Noise.MAX_CIPHERTEXT_SIZE, Noise.MAX_MESSAGE_SIZE, Noise.HEADER_LEN, Noise.TAG_LEN in Hp. lia. }
    split; [|split; [|split; [|split; [|split; [|split; [|done]]]]]].
    + apply (run_conn (on_transport buffered) (set_transport c t', a) (set_transport c t')). apply (run_transport buffered (set_transport c t') t'). by apply buffered_spec.
    + unfold serving. cbn [transport set_transport reader]. rewrite Hrd. rewrite He in Hrun. cbn [app concat] in Hrun. split_and!; try done; [apply Hidle..|lia].
    + cbn [transport set_transport]. by rewrite Hrd.
    + cbn [transport set_transport]. by rewrite Hrd, He.
    + rewrite decide_True by done. simpl. lia.
    + by apply received_out.
  - assert (ready (transport c) <> []) as Hne' by (intros Hn; by rewrite Hn in Hempty). exists c, qs.
    change (bind (ret tt) ?f) with (bind (lift (Ok (E:=Error) tt)) f). rewrite bind_lift. rewrite decide_False by done.
    split; [|split; [|split; [|split; [|split; [|split]]]]]; try done; [|lia|by apply received_out].
    rewrite (run_conn _ (c, a) _ _ (run_transport _ c _ _ (buffered_spec _ Hok))). cbn [snd]. by rewrite Hsame.
Qed.

(** A pass hands out what is ready, answers and returns the credit. *)
Lemma read_pass_spec sid (s : S) qs later p ev : serving s.1 qs later p ev -> ready (transport s.1) ++ concat qs <> [] ->
  can_send (2 * Z.of_nat (length (ready (transport s.1) ++ concat qs))) (transport s.1) -> good s.2 ->
  exists s' cs rs qs' ev1 ev2, read_pass on_data sid s = (s', Ok (ended sid ev1)) /\ ev = ev1 ++ ev2 /\
    s'.2 = foldl eat s.2 cs /\ good s'.2 /\ concat cs = our_data sid ev1 /\ serving s'.1 qs' later p ev2 /\ ready (transport s'.1) = [] /\
    length qs' + (if decide (ready (transport s.1) = []) then 1 else 0) <= length qs /\
    sent_out (transport s.1) (map sent_wire rs) (transport s'.1) /\ next_stream s'.1 = next_stream s.1 /\
    length rs + 2 * length (concat qs') <= 2 * length (ready (transport s.1) ++ concat qs) /\
    answered ev1 rs.
Proof using eats SU L.
  intros Hserv Hrest Hs Hgood. destruct (host_fill_spec s qs later p ev Hserv Hrest) as (c1 & qs' & E1 & Hserv1 & Hne1 & Hsame & Hlen & Hout & Hrd1 & Hns1).
  unfold read_pass. rewrite (bind_ok _ _ _ _ _ E1). clear E1. pose proof Hserv1 as ([Hok1 Hcar1] & Hqs & Hidle & Hbound & Hrun & Hopen). rewrite run_app in Hrun.
  set (t1 := transport c1) in *. set (pending := ready t1) in *. destruct (run h2_format (h2_at (reader c1)) pending) as [|[q ev1]] eqn:Hrun1; [done|].
  destruct (run h2_format q (concat qs')) as [|[p2 ev2]] eqn:Hrun2; [done|]. simplify_eq. pose proof Hopen as [Hopen1 Hopen2]%Forall_app.
  assert (length pending + length (concat qs') = length (ready (transport s.1) ++ concat qs)) as Htot by (rewrite <- Hsame, length_app; done).
  assert (0 < length pending) as Hpos by (destruct pending; [done|simpl; lia]). rewrite <- Htot in Hs.
  assert (exists k, Z.of_nat (length pending + k) = 2 ^ 32 - 1)%Z as [k Hk].
  { exists (Z.to_nat (2 ^ 32 - 1 - Z.of_nat (length pending))). lia. }
  destruct (feed_loop_spec (Datatypes.S (length pending)) sid pending 0 k false (c1, s.2) q ev1) as (s2 & cs & rs & E2 & Ha & Hg2 & Hcs & Hsent & Hns & Hlrs & Hrep & Hk2 & Hat & Hpw);
    [lia|lia|cbn [fst]; apply Hidle; lia|done|done|eapply host_sent_out_can_send; [exact Hout|]; eapply host_can_send_less; [|exact Hs]; simpl; lia|exact Hgood|].
  cbn [fst snd] in *. rewrite (bind_ok _ _ _ _ _ E2). rewrite orb_false_r. fold t1 in Hsent. clear E2.
  destruct (sent_off_receives t1 _ _ (qs' ++ later) Hsent (conj Hok1 Hcar1)) as [[Hok2 Hcar2] Hrd2]. fold pending in Hrd2. rewrite <- Hrd2.
  rewrite (bind_ok _ _ _ _ _ (run_conn _ s2 _ _ (run_transport _ s2.1 _ _ (consume_all _ Hok2)))).
  set (c3 := set_transport s2.1 (set_rx (transport s2.1) [] 0)). destruct Hidle as [Hp0 Hidle]. rewrite Hrd1 in *.
  rewrite Hp0, Z.add_0_l in Hpw. assert (data_count ev1 <= length pending) as Hcount by (destruct Hk2 as (_ & _ & _ & _ & Hw & _); rewrite Hpw in Hw; lia).
  assert (sent_out (transport s.1) (map sent_wire rs) (transport c3)) as Hout3.
  { apply (host_sent_out_trans _ [] _ _ _ Hout). exact (sent_off_out _ _ _ Hsent). }
  destruct (replenish_spec c3 (Z.of_nat (data_count ev1))) as (c4 & rs4 & E4 & Hsent4 & Hr4 & Hn4 & Hl4 & Hrep4 & Ht4 & Hnoack4); [exact Hpw|lia| |].
  { eapply host_sent_out_can_send; [exact Hout3|]. eapply host_can_send_less; [|exact Hs]. rewrite length_map. lia. }
  rewrite (bind_ok _ _ _ _ _ (run_conn _ (c3, s2.2) _ _ E4)).
  destruct (sent_off_receives _ _ _ (qs' ++ later) Hsent4) as [Hr4' Hrd4]; [split; [unfold transport_ok; cbn; lia|exact Hcar2]|].
  assert (ready (transport c3) = []) as He3 by (unfold ready; cbn; done). rewrite He3 in Hrd4.
  exists (c4, s2.2), cs, (rs ++ rs4), qs', ev1, ev2. cbn [fst snd].
  split; [done|]. split; [done|]. split; [done|]. split; [done|]. split; [done|]. split; [|split; [done|]].
  { unfold serving. rewrite Hr4, Hrd4. split_and!; try done; [by eapply reader_idle_reset..|]. change (h2_at (take_pending_window (reader c3)).2) with (h2_at (reader s2.1)). by rewrite Hat. }
  split; [done|]. split; [rewrite map_app; by apply (host_sent_out_trans _ _ (transport c3)); [|apply sent_off_out]|]. split; [rewrite Hn4; change (next_stream c3) with (next_stream s2.1); congruence|].
  split; [rewrite length_app; lia|]. destruct (asked_acks_reply ev1) as [H1 H2]. unfold answered.
  rewrite total_credit_app, acks_app, Hnoack4, Hrep, asked_acks_acks, app_nil_r. split; [by apply Forall_app|]. split; [done|lia].
Qed.

(** The passes until the stream ends. *)
Lemma read_until_spec fuel sid (s : S) qs later ev : serving s.1 qs later between ev -> ends_last sid ev -> length qs + 1 < fuel ->
  can_send (2 * Z.of_nat (length (ready (transport s.1) ++ concat qs))) (transport s.1) -> good s.2 ->
  exists s' cs rs, read_until_end_of on_data fuel sid s = (s', Ok tt) /\ s'.2 = foldl eat s.2 cs /\ good s'.2 /\ concat cs = our_data sid ev /\
    serving s'.1 [] later between [] /\ ready (transport s'.1) = [] /\ h2_at (reader s'.1) = between /\ sent_out (transport s.1) (map sent_wire rs) (transport s'.1) /\
    next_stream s'.1 = next_stream s.1 /\ answered ev rs /\
    length rs <= 2 * length (ready (transport s.1) ++ concat qs).
Proof using eats SU L.
  intros Hserv Hlast Hfuel. assert (length qs + (if decide (ready (transport s.1) = []) then 0 else 1) < fuel) as Hf by (case_decide; lia). clear Hfuel.
  revert s qs ev Hserv Hlast Hf. induction fuel as [|fuel IH]; intros s qs ev Hserv Hlast Hf Hs Hgood; [lia|]. cbn [read_until_end_of].
  assert (ready (transport s.1) ++ concat qs <> []) as Hne.
  { intros Hn. destruct Hserv as (_ & _ & _ & _ & Hrun & _). rewrite Hn in Hrun. cbn [run] in Hrun. injection Hrun as _ <-.
    destruct Hlast as ([|] & ? & ? & _); done. }
  destruct (read_pass_spec sid s qs later between ev Hserv Hne Hs Hgood) as (s1 & cs1 & rs1 & qs1 & ev1 & ev2 & E1 & -> & Ha1 & Hg1 & Hcs1 & Hserv1 & He1 & Hlen1 & Hout1 & Hns1 & Hb1 & Hrep1).
  rewrite (bind_ok _ _ _ _ _ E1). apply ends_last_split in Hlast. rewrite our_data_app. destruct (ended sid ev1).
  - subst ev2. pose proof Hserv1 as (_ & Hqs & _ & _ & Hrun & _). rewrite He1 in Hrun. cbn [app] in Hrun.
    assert (qs1 = []) as ->.
    { destruct qs1 as [|q rest]; [done|]. exfalso. apply List.Forall_cons_iff in Hqs as [Hq _].
      eapply run_between_events; [|exact Hrun|done|done]. cbn [concat]. by destruct q. }
    cbn [concat run] in Hrun. injection Hrun as Hat. exists s1, cs1, rs1. change (our_data sid []) with (@nil byte). rewrite app_nil_r.
    rewrite (app_nil_r ev1). by split_and!; try lia.
  - destruct Hlast as [_ Hlast]. destruct (IH s1 qs1 ev2 Hserv1 Hlast) as (s2 & cs2 & rs2 & E2 & Ha2 & Hg2 & Hcs2 & Hserv2 & He2 & Hat2 & Hout2 & Hns2 & Hrep2 & Hn2).
    + rewrite He1, decide_True by done. case_decide; lia.
    + rewrite He1. cbn [app]. eapply host_sent_out_can_send; [exact Hout1|]. eapply host_can_send_less; [|exact Hs]. rewrite length_map. lia.
    + exact Hg1.
    + exists s2, (cs1 ++ cs2), (rs1 ++ rs2). rewrite foldl_app, concat_app, map_app, Hcs1, Hcs2, <- Ha1.
      rewrite He1 in Hn2. cbn [app] in Hn2. split_and!; try done; [by apply (host_sent_out_trans _ _ (transport s1.1))|congruence|by apply answered_app|rewrite length_app; lia].
Qed.

(** ** A whole request *)

(** Between requests: the server's coming messages are [qs] and [later] ones; what
    the first say is [stream], and it starts with a frame. *)
Definition idle (c : C) (qs later : list bytes) (stream : bytes) : Prop :=
  receives (transport c) (qs ++ later) /\ Forall (fun q => q <> []) qs /\ reader_idle (reader c) /\ h2_at (reader c) = between /\
  (Z.of_nat (length (ready (transport c))) < 2 ^ 31)%Z /\ ready (transport c) ++ concat qs = stream.

(** The frames of a request: an empty body is a frame too. *)
Definition BODY_CHUNK : nat := MAX_PLAINTEXT - FRAME_HEADER_LEN.
Definition request (sid : Z) (authority path body : bytes) : list sent :=
  Sent false frame_type.HEADERS flag.END_HEADERS sid (block_bytes authority path (dec (Z.of_nat (length body)))) ::
  match chunks BODY_CHUNK body with [] => [data_frame sid true []] | cs => body_frames sid cs end.

Lemma body_chunk : BODY_CHUNK = 4068.
Proof. reflexivity. Qed.
Lemma max_plaintext : MAX_PLAINTEXT = 4077.
Proof. reflexivity. Qed.

Lemma send_data_spec sid chunk last (s : S) : length chunk <= BODY_CHUNK -> can_send 1 (transport s.1) ->
  exists c, conn (send_built MAX_PLAINTEXT (fun w => data w sid chunk last)) s = ((c, s.2), Ok tt) /\ sends s.1 [data_frame sid last chunk] c.
Proof using L SU.
  rewrite body_chunk. intros Hl Hs. destruct (send_built_spec MAX_PLAINTEXT (fun w => data w sid chunk last) (data_frame sid last chunk) s.1) as (c & E & Hsend).
  - intros w0 _. apply data_spec. unfold fits_u32. lia.
  - cbn [data_frame s_payload]. rewrite max_plaintext. lia.
  - apply Nat.le_refl.
  - done.
  - exists c. split; [by apply run_conn|done].
Qed.

Lemma host_send_body_spec sid cs (s : S) : Forall (fun chunk => length chunk <= BODY_CHUNK) cs -> can_send (Z.of_nat (length cs)) (transport s.1) ->
  exists c, send_body sid cs s = ((c, s.2), Ok tt) /\ sends s.1 (body_frames sid cs) c.
Proof using L SU.
  revert s. induction cs as [|chunk cs IH]; intros s Hc Hs; cbn [send_body].
  { exists s.1. split; [by destruct s|apply host_sends_nil]. }
  apply List.Forall_cons_iff in Hc as [Hl Hc]. cbn [length] in Hs.
  destruct (send_data_spec sid chunk (match cs with [] => true | _ => false end) s Hl) as (c1 & E1 & Hs1); [eapply host_can_send_less; [|done]; lia|].
  rewrite (bind_ok _ _ _ _ _ E1). destruct (IH (c1, s.2) Hc) as (c2 & E2 & Hs2); [eapply host_sends_can_send; [exact Hs1|]; eapply host_can_send_less; [|exact Hs]; simpl; lia|].
  exists c2. split; [exact E2|]. assert (body_frames sid (chunk :: cs) = [data_frame sid (match cs with [] => true | _ => false end) chunk] ++ body_frames sid cs) as -> by (by destruct cs).
  by apply (host_sends_trans _ _ c1).
Qed.

Lemma chunks_bounded (body : bytes) : Forall (fun chunk => length chunk <= BODY_CHUNK) (chunks BODY_CHUNK body) /\ length (chunks BODY_CHUNK body) <= length body.
Proof.
  rewrite body_chunk. split; [|pose proof (chunks_length 4068 body ltac:(lia)); lia]. remember (length body) as n eqn:Hn. revert body Hn.
  induction n as [n IH] using lt_wf_ind. intros body ->. destruct (decide (body = [])) as [->|Hne]; [constructor|]. rewrite chunks_step by (done || lia).
  constructor; [rewrite length_take; lia|]. apply (IH (length (drop 4068 body))); [|done]. rewrite length_drop. destruct body; [done|simpl; lia].
Qed.

Lemma host_send_request (s : S) sid authority path body : fits_u32 authority -> fits_u32 path -> (Z.of_nat (length body) < 2 ^ 64)%Z ->
  length (block_bytes authority path (dec (Z.of_nat (length body)))) <= 256 -> can_send (2 + Z.of_nat (length body)) (transport s.1) ->
  exists c, (do! _ := conn (send_built 512 (fun w => post_headers w sid authority path (Z.of_nat (length body)))) in
      match chunks BODY_CHUNK body with
      | [] => conn (send_built MAX_PLAINTEXT (fun w => data w sid [] true))
      | cs => send_body sid cs
      end) s = ((c, s.2), Ok tt) /\
    sends s.1 (request sid authority path body) c /\ length (request sid authority path body) <= 2 + length body.
Proof using L SU.
  intros Ha Hp Hl Hb Hs. set (head := Sent false frame_type.HEADERS flag.END_HEADERS sid (block_bytes authority path (dec (Z.of_nat (length body))))).
  destruct (send_built_spec 512 (fun w => post_headers w sid authority path (Z.of_nat (length body))) head s.1) as (c1 & E1 & Hs1).
  - intros w0 _. rewrite post_headers_spec by (done || lia). by rewrite decide_False by lia.
  - cbn [head s_payload]. lia.
  - rewrite max_plaintext. lia.
  - eapply host_can_send_less; [|done]. lia.
  - rewrite (bind_ok _ _ _ _ _ (run_conn _ s _ _ E1)). destruct (chunks_bounded body) as [Hc Hn]. unfold request. fold head.
    assert (can_send (1 + Z.of_nat (length body)) (transport (c1, s.2).1)) as Hs' by (eapply host_sends_can_send; [exact Hs1|]; eapply host_can_send_less; [|exact Hs]; simpl; lia).
    destruct (chunks BODY_CHUNK body) as [|chunk cs].
    + destruct (send_data_spec sid [] true (c1, s.2)) as (c2 & E2 & Hs2); [simpl; lia|eapply host_can_send_less; [|exact Hs']; lia|].
      exists c2. split; [exact E2|]. split; [by apply (host_sends_trans _ [head] c1)|simpl; lia].
    + destruct (host_send_body_spec sid (chunk :: cs) (c1, s.2) Hc) as (c2 & E2 & Hs2); [eapply host_can_send_less; [|exact Hs']; lia|].
      exists c2. split; [exact E2|]. split; [by apply (host_sends_trans _ [head] c1)|]. cbn [length]. rewrite length_body_frames. lia.
Qed.

(** The next request: messages that were still to come are taken for its answer. *)
Lemma idle_next (c : C) qs later : Forall (fun q => q <> []) qs -> idle c [] (qs ++ later) [] -> idle c qs later (concat qs).
Proof.
  intros Hne (Hr & _ & Hidle & Hat & Hb & He). cbn [app concat] in *. rewrite app_nil_r in He. unfold idle. rewrite He. by split_and!.
Qed.
End Conn.

Section Exchange.
Context `{P : Primitives, L : !PrimitiveLaws P} {W : Type} `{HN : HostNet W, SV : !SocketView W, SU : !SocketUp W}.

(** The exchange, as the theorem below and the RPCs of the host have it. *)
Lemma host_exchange {A : Type} (on_data : bytes -> SE A Error unit) (eat : A -> bytes -> A) (good : A -> Prop) fuel authority path body frames qs later (s : H2Conn W * A) :
  let sid := next_stream s.1 in let total := length (concat (map sent_wire frames)) in
  (forall chunk a, good a -> on_data chunk a = (eat a chunk, Ok tt) /\ good (eat a chunk)) -> good s.2 ->
  fits_u32 authority -> fits_u32 path -> (Z.of_nat (length body) < 2 ^ 64)%Z ->
  length (block_bytes authority path (dec (Z.of_nat (length body)))) <= 256 -> (sid + 2 < 2 ^ 32)%Z ->
  idle s.1 qs later (concat (map sent_wire frames)) -> response sid frames ->
  can_send (2 + Z.of_nat (length body) + 2 * Z.of_nat total) (transport s.1) -> length qs + 1 < fuel ->
  exists s' cs replies, post on_data fuel authority path body s = (s', Ok tt) /\
    s'.2 = foldl eat s.2 cs /\ good s'.2 /\ concat cs = response_body sid frames /\
    sent_out (transport s.1) (map sent_wire (request sid authority path body ++ replies)) (transport s'.1) /\ length (request sid authority path body ++ replies) <= 2 + length body + 2 * total /\
    replied frames replies /\ idle s'.1 [] later [] /\ next_stream s'.1 = (sid + 2)%Z.
Proof.
  intros sid total Heat Hgood Ha Hp Hl Hb Hsid (Hr & Hne & Hidle & Hat & Hbound & Hstream) Hresp Hs Hfuel.
  unfold post. rewrite bind_get. fold sid. rewrite uadd_ok, bind_lift by done. set (s0 := (set_next_stream s.1 (sid + 2), s.2)). rewrite (bind_ok _ _ s s0 tt) by done.
  destruct (host_send_request s0 sid authority path body Ha Hp Hl Hb) as (c1 & E1 & (Hs1 & Hr1 & Hn1) & Hlr); [eapply host_can_send_less; [|exact Hs]; lia|].
  rewrite <- bind_assoc. rewrite (bind_ok _ _ _ _ _ E1). cbn [fst snd s0] in *. change (transport (set_next_stream s.1 (sid + 2))) with (transport s.1) in Hs1.
  destruct (frames_events sid frames Hresp) as (Hrun & Hopen & Hlast & Hdata & Hcount & Hacks).
  destruct (sent_off_receives _ _ _ (qs ++ later) Hs1 Hr) as [Hr1' Hrd1].
  assert (length (ready (transport c1) ++ concat qs) = total) as Ht by (rewrite Hrd1; by rewrite Hstream).
  destruct (read_until_spec on_data eat good Heat fuel sid (c1, s.2) qs later (concat (map delivered frames))) as
    (s2 & cs & rs & E2 & Ha2 & Hg2 & Hcs & Hserv & He & Hat2 & Hso & Hns & Hrep & Hnr); try done.
  - unfold serving. cbn [fst]. rewrite Hr1, Hrd1, Hstream. change (reader (set_next_stream s.1 (sid + 2))) with (reader s.1). rewrite Hat. by split_and!; try apply Hidle.
  - cbn [fst]. rewrite Ht. eapply sent_off_can_send; [exact Hs1|]. eapply host_can_send_less; [|exact Hs]. rewrite length_map. lia.
  - rewrite E2. pose proof (host_sent_out_trans _ _ _ _ _ (sent_off_out _ _ _ Hs1) Hso) as Hout. rewrite <- map_app in Hout.
    exists s2, cs, rs. rewrite <- Hdata. unfold answered in Hrep. rewrite Hacks, Hcount in Hrep. cbn [fst] in Hns. cbn [fst] in Hnr. rewrite Ht in Hnr.
    assert (length (request sid authority path body ++ rs) <= 2 + length body + 2 * total) by (rewrite length_app; lia).
    split_and!; try done; [|by rewrite Hns, Hn1]. destruct Hserv as (Hr2 & _ & Hidle2 & _). unfold idle. rewrite He. by split_and!.
Qed.

(** C12. A request is answered: on an idle connection that stays up, and with a closure
    that does not fail, [post] ends, the closure having been given the body of the response on its own stream,
    in order and in some pieces, however the server's frames are spread over records
    and whatever other frames come between. The wire carries the request, with
    END_STREAM on its last frame even where the body is empty, and then [replied]: in
    the order of the server's frames an acknowledgement of each SETTINGS and of each
    PING, with the bytes it brought, that is not one itself, and of nothing else, and
    credit between them, a byte for every byte of DATA. And the connection is idle
    again, with the [later] messages still to come. *)
Theorem host_post {A : Type} (on_data : bytes -> SE A Error unit) (eat : A -> bytes -> A) (good : A -> Prop) fuel authority path body frames qs later (s : H2Conn W * A) :
  let sid := next_stream s.1 in let total := length (concat (map sent_wire frames)) in
  (forall chunk a, good a -> on_data chunk a = (eat a chunk, Ok tt) /\ good (eat a chunk)) -> good s.2 ->
  fits_u32 authority -> fits_u32 path -> (Z.of_nat (length body) < 2 ^ 64)%Z ->
  length (block_bytes authority path (dec (Z.of_nat (length body)))) <= 256 -> (sid + 2 < 2 ^ 32)%Z ->
  idle s.1 qs later (concat (map sent_wire frames)) -> response sid frames ->
  can_send (2 + Z.of_nat (length body) + 2 * Z.of_nat total) (transport s.1) -> length qs + 1 < fuel ->
  exists s' cs replies wire, post on_data fuel authority path body s = (s', Ok tt) /\
    s'.2 = foldl eat s.2 cs /\ good s'.2 /\ concat cs = response_body sid frames /\
    outbound (stream (transport s'.1)) = outbound (stream (transport s.1)) ++ wire /\
    Noise.carries (Noise.tx (session (transport s.1))) (Noise.tx_nonce (session (transport s.1))) (map sent_wire (request sid authority path body ++ replies)) wire /\
    replied frames replies /\ idle s'.1 [] later [] /\ next_stream s'.1 = (sid + 2)%Z.
Proof.
  intros sid total Heat Hgood Ha Hp Hl Hb Hsid Hidle Hresp Hs Hfuel.
  destruct (host_exchange on_data eat good fuel authority path body frames qs later s) as (s' & cs & rs & E & Ha2 & Hg & Hcs & (wire & Ho & Hcar & _) & _ & Hrest); try done.
  exists s', cs, rs, wire. by split_and!; try apply Hrest.
Qed.
End Exchange.

(** ** The start of the connection *)
Section Start.
Context `{P : Primitives, L : !PrimitiveLaws P} {W : Type} `{HN : HostNet W, SV : !SocketView W, SU : !SocketUp W}.

Lemma consume_spec (t : NoiseTransport W) n : transport_ok t -> n <= length (ready t) ->
  exists t', consume n t = (t', Ok tt) /\ transport_ok t' /\ ready t' = drop n (ready t) /\ stream t' = stream t /\ session t' = session t.
Proof.
  unfold transport_ok, ready. intros Hok Hn. rewrite length_drop in Hn. unfold consume. rewrite bind_get. rewrite drop_drop. case_decide as Hall.
  { eexists. split; [reflexivity|]. cbn. rewrite drop_ge by lia. split_and!; (done || lia). }
  case_decide; [rewrite slice_from, bind_lift by lia|]; (eexists; split; [reflexivity|]); cbn; split_and!; (done || lia).
Qed.

(** What follows the early payload, if there is one. *)
Definition after_early (b : bytes) : bytes := match early_of b with Present n _ => drop n b | _ => b end.

Lemma skip_early_spec fuel (t : NoiseTransport W) qs later : receives t (qs ++ later) -> Forall (fun q => q <> []) qs ->
  early_of (ready t ++ concat qs) <> Incomplete -> length qs < fuel ->
  exists t' qs', skip_early_payload fuel t = (t', Ok tt) /\ receives t' (qs' ++ later) /\ Forall (fun q => q <> []) qs' /\ length qs' <= length qs /\
    ready t' ++ concat qs' = after_early (ready t ++ concat qs) /\ length (ready t') <= length (ready t ++ concat qs) /\ sent_out t [] t'.
Proof.
  revert t qs. induction fuel as [|fuel IH]; intros t qs Hr Hne Hd Hf; [lia|]. cbn [skip_early_payload]. pose proof Hr as [Hok Hcar].
  rewrite (bind_ok _ _ _ _ _ (buffered_spec t Hok)), early_spec. cbn [expect_ok]. rewrite bind_lift. unfold after_early.
  destruct (early_of (ready t)) as [| |n json] eqn:Ee.
  - rewrite early_stable, Ee by (by rewrite Ee). exists t, qs. split_and!; try done; [rewrite length_app; lia|by apply received_out].
  - destruct qs as [|q qs]; [by cbn [concat] in Hd; rewrite app_nil_r in Hd|]. apply List.Forall_cons_iff in Hne as [Hq Hne]. cbn [length] in Hf.
    destruct (host_pump_spec t q (qs ++ later) Hr) as (w & E & Ho & Hr'). rewrite (bind_ok _ _ _ _ _ E). set (t1 := Build_NoiseTransport _ _ _ _) in *.
    assert (ready t1 = ready t ++ q) as Hrd by (unfold ready, t1; cbn [rx rx_pos]; by rewrite drop_app_le by exact Hok).
    assert (ready t1 ++ concat qs = ready t ++ concat (q :: qs)) as Hsame by (rewrite Hrd, <- app_assoc; done).
    destruct (IH t1 qs Hr' Hne) as (t' & qs' & -> & Hr2 & Hne2 & Hl2 & Hrd2 & Hb2 & Hout); [by rewrite Hsame|lia|]. rewrite Hsame in Hrd2, Hb2.
    exists t', qs'. split_and!; try done; [simpl; lia|]. apply (host_sent_out_trans t [] t1 []); [by apply received_out|done].
  - pose proof (early_decided (ready t)) as Hdec. rewrite Ee in Hdec. pose proof (f_equal length Hdec) as Hl. rewrite !length_app, length_drop, length_to_be in Hl. change (length EARLY_PAYLOAD_MAGIC) with 5 in Hl.
    assert (n = 9 + length json) as Hn by (unfold early_of in Ee; repeat case_decide; try done; injection Ee as <- <-; rewrite length_take, length_drop; lia).
    destruct (consume_spec t n Hok) as (t' & E & Hok' & Hrd & Hst & Hse); [lia|]. rewrite early_stable, Ee by (by rewrite Ee).
    exists t', qs. split; [exact E|]. unfold receives. rewrite Hst, Hse, Hrd, drop_app_le by lia. split_and!; try done; [rewrite length_drop, length_app; lia|].
    apply received_out; congruence.
Qed.

Lemma settings_wire : built 128 (fun w => let? w := preface w in settings w INITIAL_WINDOW MAX_FRAME) =
  Ok (PREFACE ++ h2_wire false frame_type.SETTINGS x00 0 (entries_bytes (settings_entries INITIAL_WINDOW MAX_FRAME))).
Proof. vm_compute. reflexivity. Qed.

(** [start] leaves the connection between frames: its preface and settings are
    sent, and the early payload is passed over where the server sent one, however
    it is spread over records, with nothing of the HTTP/2 stream behind it lost. *)
Theorem start_idle fuel (t : NoiseTransport W) qs later : receives t (qs ++ later) -> Forall (fun q => q <> []) qs ->
  early_of (ready t ++ concat qs) <> Incomplete -> (Z.of_nat (length (ready t ++ concat qs)) < 2 ^ 31)%Z -> length qs < fuel -> can_send 1 t ->
  exists c qs' wire, start fuel t = (transport c, Ok c) /\ idle c qs' later (after_early (ready t ++ concat qs)) /\ length qs' <= length qs /\ next_stream c = 1%Z /\
    outbound (stream (transport c)) = outbound (stream t) ++ wire /\
    Noise.carries (Noise.tx (session t)) (Noise.tx_nonce (session t))
      [PREFACE ++ h2_wire false frame_type.SETTINGS x00 0 (entries_bytes (settings_entries INITIAL_WINDOW MAX_FRAME))] wire /\
    Noise.tx (session (transport c)) = Noise.tx (session t) /\ Noise.tx_nonce (session (transport c)) = (Noise.tx_nonce (session t) + 1)%Z.
Proof.
  intros Hr Hne Hd Hb Hf Hs. unfold start, send_built. rewrite settings_wire. set (b := PREFACE ++ _). assert (b <> [] /\ length b <= MAX_PLAINTEXT) as [Hb0 Hbl].
  { split; [by vm_compute|]. apply Nat.leb_le. vm_compute. reflexivity. }
  clearbody b. destruct (host_send_message t b Hb0 Hbl Hs) as (t1 & E1 & Hs1). destruct (sent_off_receives _ _ _ _ Hs1 Hr) as [Hr1 Hrd1].
  rewrite <- Hrd1 in Hd, Hb |- *. destruct (skip_early_spec fuel t1 qs later Hr1 Hne Hd Hf) as (t2 & qs' & E2 & Hr2 & Hne2 & Hl2 & Hrd2 & Hb2 & Hout2).
  set (c0 := {| transport := t; reader := new; next_stream := 1 |}).
  rewrite bind_assoc, bind_lift. rewrite (bind_ok _ _ _ _ _ (run_transport (send b) c0 _ _ E1)). rewrite (run_transport (skip_early_payload fuel) (set_transport c0 t1) _ _ E2).
  exists (set_transport (set_transport c0 t1) t2), qs'. cbn [transport set_transport obind].
  destruct (host_sent_out_trans _ _ _ _ _ (sent_off_out _ _ _ Hs1) Hout2) as (wire & Ho & Hcar & Ht & Hn). exists wire. split; [done|].
  split_and!; try done. unfold idle. cbn [transport set_transport reader next_stream]. split_and!; try done; [split; [done|]; intros k Hk; by apply h2_new_ok|lia].
Qed.
End Start.

(** An example: the response of [H2Events], cut across two records, collected into
    a list. *)
#[local] Existing Instances Toy.toy Toy.toy_laws.
Import H2Events.Example.
Definition example_socket : pipe :=
  (example_record (replicate 32 x02) (take 20 example_stream) ++ example_record (replicate 32 x02) (drop 20 example_stream) ++ [], []).
Definition example_conn : H2Conn pipe :=
  {| transport := {| stream := example_socket; rx := []; rx_pos := 0;
       session := {| Noise.tx := replicate 32 x01; Noise.rx := replicate 32 x02; Noise.tx_nonce := 4; Noise.rx_nonce := 7; Noise.handshake_hash := zeros 32 |} |};
     reader := new; next_stream := 1 |}.
Definition collect (chunk : bytes) : SE bytes Error unit := modify (fun got => got ++ chunk).

Lemma example_idle : idle example_conn [take 20 example_stream; drop 20 example_stream] [] example_stream.
Proof.
  split_and!.
  - split; [apply le_0_n|]. unfold example_conn. cbn [stream session transport inbound pipe_view fst example_socket].
    repeat (apply Noise.carries_cons; [cbn; unfold u64_max; lia|vm_compute; discriminate|reflexivity|reflexivity|reflexivity|]). constructor.
  - repeat (constructor; [vm_compute; discriminate|]). constructor.
  - split; [done|]. intros k Hk. by apply h2_new_ok.
  - reflexivity.
  - vm_compute. reflexivity.
  - change (ready (transport example_conn)) with (@nil byte). cbn [app concat]. by rewrite app_nil_r, take_drop.
Qed.

Lemma host_post_witness :
  exists s' cs replies wire, post collect 4 (bs "h") (bs "/map") [] (example_conn, []) = (s', Ok tt) /\
    s'.2 = foldl app [] cs /\ True /\ concat cs = bs "hi" /\
    outbound (stream (transport s'.1)) = [] ++ wire /\
    Noise.carries (replicate 32 x01) 4 (map sent_wire (request 1 (bs "h") (bs "/map") [] ++ replies)) wire /\
    Forall reply replies /\ acks replies = [Sent false frame_type.SETTINGS flag.ACK 0 []; Sent false frame_type.PING flag.ACK 0 (bs "pingpong")] /\
    total_credit replies = 2%Z /\ idle s'.1 [] [] [] /\ next_stream s'.1 = 3%Z.
Proof.
  destruct (host_post collect app (fun _ => True) 4 (bs "h") (bs "/map") [] example_frames [take 20 example_stream; drop 20 example_stream] [] (example_conn, []))
    as (s' & cs & replies & wire & E & Ha & Hg & Hb & Ho & Hc & (Hr & Hk & Ht) & Hi & Hn).
  - intros chunk a _. by split.
  - done.
  - vm_compute. reflexivity.
  - vm_compute. reflexivity.
  - vm_compute. reflexivity.
  - apply Nat.leb_le. vm_compute. reflexivity.
  - vm_compute. reflexivity.
  - exact example_idle.
  - exact example_response.
  - split_and!; vm_compute; (reflexivity || discriminate).
  - cbn [length]. lia.
  - exists s', cs, replies, wire. assert (response_body (next_stream example_conn) example_frames = bs "hi") as Hbody by (vm_compute; reflexivity).
    cbn [fst] in Hb. rewrite Hbody in Hb. assert (data_total example_frames = 2) as Hd by (vm_compute; reflexivity). rewrite Hd in Ht.
    assert (acks_for example_frames = [Sent false frame_type.SETTINGS flag.ACK 0 []; Sent false frame_type.PING flag.ACK 0 (bs "pingpong")]) as Hacks by (vm_compute; reflexivity). rewrite Hacks in Hk.
    split; [exact E|]. split; [exact Ha|]. split; [exact Hg|]. split; [exact Hb|]. split; [exact Ho|]. split; [exact Hc|]. split; [exact Hr|]. split; [exact Hk|]. split; [exact Ht|]. split; [exact Hi|exact Hn].
Defined.

(** The early payload and the first bytes of the stream in one record. *)
Definition early_messages : list bytes := [EARLY_PAYLOAD_MAGIC ++ to_be 4 2 ++ bs "{}" ++ take 5 example_stream; drop 5 example_stream].
Definition example_transport : NoiseTransport pipe :=
  {| stream := (concat (map (example_record (replicate 32 x02)) early_messages), []); session := session (transport example_conn); rx := []; rx_pos := 0 |}.

Lemma start_idle_witness :
  exists c qs' wire, start 3 example_transport = (transport c, Ok c) /\ idle c qs' [] example_stream /\ length qs' <= 2 /\ next_stream c = 1%Z /\
    outbound (stream (transport c)) = [] ++ wire /\
    Noise.carries (replicate 32 x01) 4 [PREFACE ++ h2_wire false frame_type.SETTINGS x00 0 (entries_bytes (settings_entries INITIAL_WINDOW MAX_FRAME))] wire /\
    Noise.tx (session (transport c)) = replicate 32 x01 /\ Noise.tx_nonce (session (transport c)) = (4 + 1)%Z.
Proof.
  assert (after_early (ready example_transport ++ concat early_messages) = example_stream) as Ha by (vm_compute; reflexivity).
  destruct (start_idle 3 example_transport early_messages []) as (c & qs' & wire & E & Hi & Hl & Hn & Ho & Hc & Ht & Hx).
  - split; [apply le_0_n|]. unfold example_transport. cbn [stream session transport inbound pipe_view fst]. rewrite app_nil_r.
    unfold early_messages. cbn [map concat].
    repeat (apply Noise.carries_cons; [cbn; unfold u64_max; lia|vm_compute; discriminate|reflexivity|reflexivity|reflexivity|]). constructor.
  - repeat (constructor; [vm_compute; discriminate|]). constructor.
  - vm_compute. discriminate.
  - vm_compute. reflexivity.
  - cbn [length early_messages]. lia.
  - split_and!; vm_compute; (reflexivity || discriminate).
  - rewrite Ha in Hi. exists c, qs', wire. split; [exact E|]. split; [exact Hi|]. split; [exact Hl|]. split; [exact Hn|]. split; [exact Ho|]. split; [exact Hc|]. split; [exact Ht|exact Hx].
Defined.
