(* ===== verification/HostMain.v ===== *)
(** The control client of the host: [lando-host/src/main.rs].

    [control_plane] registers the node and holds the netmap long poll, publishing
    the peers for the datapath. The environment and the key file are a value
    [Environment]; what is printed is left out, except for the report of a netmap,
    which is a value. The command line ([run]), the listening loop of [derp_check]
    and the two threads of [node_mode] are not modelled. *)
From S2P Require Import Prelude StateError Decimal Utf8 Crypto Keys Json JsonTree Framing Upgrade Socket ControlServer H2Reader H2Writer H2Events HostTransport HostPost.
From S2P Require Import ControlRequest ControlResponse NetmapStream CoreRoot.
From S2P Require HostState Noise.

Definition PINNED_CONTROL_KEY : bytes := bs "mkey:7d2792f9c98d753d2042471536801949104c247f95eac770f8fb321595e2173b".
Definition LOGIN_TIMEOUT : Z := 300.
Definition DERP_HOME_REGION : Z := 1.
Definition MAP_POLL_TIMEOUT : Z := 180.

(** The error messages of the file, by kind, with the values they quote. *)
Inductive Error :=
| Transport (e : HostTransport.Error) | StateFile (e : HostState.Error) | BadControlKey (e : KeyError) | ReadingAuthKey (path : bytes)
| BuildingRegister (e : JsonError) | ParsingRegister (e : JsonError) (body : bytes) | RefusedRegistration (message : bytes) | KeyNotAccepted (url : bytes)
| EmptyFollowUp | ParsingFollowUp (e : JsonError) (body : bytes) | LoginFailed (message : bytes) | StillInteractive | BuildingMap (e : JsonError).

(** A file read as text; the variables of the environment, those that are text. *)
Inductive file_text := Text (s : bytes) | NotFound | Unreadable.
Record Environment := { var : bytes -> option bytes; key_file : bytes -> file_text }.

(** [load_auth_key] *)
Definition load_auth_key (env : Environment) : outcome Error (option bytes) :=
  match var env (bs "LANDO_AUTHKEY") with
  | Some v => Ok (Some v)
  | None =>
      let path := default (bs ".lando-authkey") (var env (bs "LANDO_AUTHKEY_FILE")) in
      match key_file env path with
      | Text s => Ok (Some s)
      | NotFound => Ok None
      | Unreadable => Err (ReadingAuthKey path)
      end
  end.

(** ** The netmap, for the reader and for the datapath *)

(** What [report_netmap] prints. *)
Record Report := { addresses : option bytes; name : option bytes; peer_count : option nat; error_line : option bytes }.

Definition netmap_get (body k : bytes) : outcome JsonError (option Value) :=
  let? r := result_ok (field body k) in Ok (mjoin r).

(** [report_netmap] *)
Definition report_netmap (body : bytes) (verbose : bool) : outcome JsonError Report :=
  let? node := netmap_get body (bs "Node") in
  let? addrs := match node with Some node => nested_raw node (bs "Addresses") | None => Ok None end in
  let? nm := match node with Some node => if verbose then nested_str node (bs "Name") else Ok None | None => Ok None end in
  let? ps := netmap_get body (bs "Peers") in
  let n := match ps with Some (VRaw peers) => Some (length (filter (fun b => b = x7b) peers)) | _ => None end in
  let? err := netmap_get body (bs "Error") in
  let line := match and_then err as_str with Some (b :: err) => Some (b :: err) | _ => None end in
  Ok {| addresses := addrs; name := nm; peer_count := n; error_line := line |}.

(** What the program shows while it polls: the list behind [peers_out], where there
    is one, and the reports printed. *)
Record Shown := { peers_out : option (list NodePublic); reports : list Report }.

(** What the closure of [poll_netmap] keeps, with what it shows. *)
Record Poll := { current : bytes; count : nat; shown : Shown }.
Definition poll_new (sh : Shown) : Poll := {| current := []; count := 0; shown := sh |}.

(** A netmap is complete: it is reported, and its peers published if it has any. *)
Definition netmap_complete (p : Poll) : outcome HostTransport.Error Poll :=
  let? report := Prelude.expect_ok (report_netmap (current p) (bool_decide (count p + 1 = 1))) in
  let? out :=
    match peers_out (shown p) with
    | None => Ok None
    | Some old => let? found := Prelude.expect_ok (peers (current p)) in Ok (Some (if decide (map node_key found = []) then old else map node_key found))
    end in
  Ok {| current := []; count := count p + 1; shown := {| peers_out := out; reports := reports (shown p) ++ [report] |} |}.

(** The closure for one frame. *)
Definition on_frame (fr : MapFrame) (p : Poll) : outcome HostTransport.Error Poll :=
  if decide (total_len fr = 0)%Z then Ok p
  else
    let p := {| current := current p ++ chunk fr; count := count p; shown := shown p |} in
    if ends fr then netmap_complete p else Ok p.

(** The closure, with the frame reader it has moved into it. *)
Definition on_chunk (data : bytes) : SE (MapFrames * Poll) HostTransport.Error unit := fun s =>
  match feed_each on_frame (length data) s.1 data s.2 with
  | Ok s => (s, Ok tt)
  | Err e => (s, Err e)
  | Panic => (s, Panic)
  | NoFuel => (s, NoFuel)
  end.

Section Client.
Context `{P : Primitives} {W : Type} `{HN : HostNet W}.
Abbreviation C := (H2Conn W).

(** [conn.post(..)?] with a closure and its state. *)
Definition posted {A} (fuel : nat) (host path body : bytes) (on_data : bytes -> SE A HostTransport.Error unit) (a : A) : C -> C * A * outcome Error unit := fun c =>
  let (s, r) := post on_data fuel host path body (c, a) in (s, map_err Transport r).

Definition collect (chunk : bytes) : SE bytes HostTransport.Error unit := modify (fun got => got ++ chunk).

(** [register] *)
Definition register (fuel : nat) (host : bytes) (req : Register) : SE C Error bytes :=
  do! (buf, n) := lift (map_err BuildingRegister (write_register_request (zeros 4096) req)) in
  do! body := lift (slice buf 0 n) in
  fun c => let '(c, got, r) := posted fuel host REGISTER_PATH body collect [] c in (c, let? _ := r in Ok got).

Definition with_followup (req : Register) (url : bytes) : Register :=
  {| r_capability_version := r_capability_version req; r_node_key := r_node_key req; auth_key := auth_key req; followup := Some url;
     r_hostinfo := r_hostinfo req; ephemeral := ephemeral req |}.

Definition set_poll_timeout (seconds : Z) : SE C Error unit := fun c =>
  let (c, r) := on_transport (set_read_timeout seconds) c in (c, map_err Transport r).

(** The registration in [control_plane], from the first request to the answer that
    is good: its body and what it says. *)
Definition login (fuel : nat) (host : bytes) (base : Register) : SE C Error (bytes * RegisterResponse) :=
  let interactive := match auth_key base with None => true | Some _ => false end in
  do! first := register fuel host base in
  do! parsed := lift (map_err (fun e => ParsingRegister e first) (parse_register_response first)) in
  if decide (error parsed <> []) then lift (Err (RefusedRegistration (error parsed)))
  else
    do! body :=
      if decide (auth_url parsed = []) then ret first
      else if negb interactive then lift (Err (KeyNotAccepted (auth_url parsed)))
      else
        do! _ := set_poll_timeout LOGIN_TIMEOUT in
        register fuel host (with_followup base (auth_url parsed)) in
    do! parsed := lift (map_err (fun e => if decide (body = []) then EmptyFollowUp else ParsingFollowUp e body) (parse_register_response body)) in
    if decide (error parsed <> []) then lift (Err (LoginFailed (error parsed)))
    else if decide (auth_url parsed <> []) then lift (Err StillInteractive)
    else ret (body, parsed).

Definition streaming_request (node : NodePublic) (disco : DiscoPublic) (hostinfo : Hostinfo) : MapRequest :=
  {| m_capability_version := CAPABILITY_VERSION; m_node_key := node; m_disco_key := disco; m_hostinfo := hostinfo; ControlRequest.stream := true;
     keep_alive := true; omit_peers := false; endpoints := []; endpoint_types := [] |}.

(** [poll_netmap]; what was shown stays when it ends. *)
Definition poll_netmap (fuel : nat) (host : bytes) (node : NodePublic) (disco : DiscoPublic) (hostinfo : Hostinfo) : SE (C * Shown) Error unit :=
  do! (buf, n) := lift (map_err BuildingMap (write_map_request (zeros 4096) (streaming_request node disco hostinfo))) in
  do! body := lift (slice buf 0 n) in
  fun s => let '(c, (_, poll), r) := posted fuel host MAP_PATH body on_chunk (map_frames_new, poll_new s.2) s.1 in ((c, shown poll), r).

(** On the connection, of what [poll_netmap] works on. *)
Definition on_conn {A} (m : SE C Error A) : SE (C * Shown) Error A := fun s => let (c, r) := m s.1 in ((c, s.2), r).

(** [control_plane] *)
Record Process (F : Type) := { files : F; net : W; screen : Shown }.
Arguments files {F}.
Arguments net {F}.
Arguments screen {F}.

Definition hostinfo_of (hostname : bytes) (home_derp : Z) : Hostinfo :=
  {| ControlRequest.hostname := hostname; ipn_version := ipn_version hostinfo_default; os := os hostinfo_default; os_version := os_version hostinfo_default;
     machine := machine hostinfo_default; routable_ips := routable_ips hostinfo_default; preferred_derp := home_derp;
     derp_latency_ms := derp_latency_ms hostinfo_default; working_udp := working_udp hostinfo_default |}.

Context {F : Type} `{FO : HostState.FileOps F}.

(** From the session on: [H2Conn::start], the login, the poll. *)
Definition online (fuel : nat) (env : Environment) (host hostname : bytes) (home_derp : Z) (state : HostState.State) (t : NoiseTransport W)
    (sh : Shown) : W * Shown * outcome Error unit :=
  let (t, started) := start fuel t in
  match map_err Transport started with
  | Ok c =>
      let node := public_of (HostState.node_key state) in
      let hostinfo := hostinfo_of hostname home_derp in
      let '(c, sh, r) :=
        (do! auth_key := lift (load_auth_key env) in
         let base := {| r_capability_version := CAPABILITY_VERSION; r_node_key := node; auth_key := HostState.trim <$> auth_key; followup := None;
                        r_hostinfo := hostinfo; ephemeral := false |} in
         do! _ := on_conn (do! r := login fuel host base in do! _ := set_poll_timeout MAP_POLL_TIMEOUT in ret r) in
         poll_netmap fuel host node (public_of (HostState.disco_key state)) hostinfo) (c, sh) in
      (HostTransport.stream (transport c), sh, r)
  | Err e => (HostTransport.stream t, sh, Err e)
  | Panic => (HostTransport.stream t, sh, Panic)
  | NoFuel => (HostTransport.stream t, sh, NoFuel)
  end.

(** [control_plane]; [keys] is what the generator gives the state file, [ephemeral]
    what it gives the handshake. *)
Definition control_plane (fuel : nat) (env : Environment) (home_derp : Z) (keys : bytes) (ephemeral : MachinePrivate) : SE (Process F) Error unit := fun p =>
  let host := default DEFAULT_CONTROL_HOST (var env (bs "LANDO_CONTROL_HOST")) in
  let key_str := default PINNED_CONTROL_KEY (var env (bs "LANDO_CONTROL_KEY")) in
  let hostname := default (bs "lando") (var env (bs "LANDO_HOSTNAME")) in
  let port := default 80%Z (and_then (var env (bs "LANDO_CONTROL_PORT")) (parse_uint 65535)) in
  match map_err BadControlKey (parse key_str) with
  | Ok control_key =>
      let (fs, loaded) := HostState.load_or_create (files p) keys in
      match map_err StateFile loaded with
      | Ok (state, _) =>
          let (w, connected) := connect fuel host port control_key (HostState.machine_key state) ephemeral CAPABILITY_VERSION (net p) in
          match map_err Transport connected with
          | Ok t =>
              let '(w, sh, r) := online fuel env host hostname home_derp state t (screen p) in
              ({| files := fs; net := w; screen := sh |}, r)
          | Err e => ({| files := fs; net := w; screen := screen p |}, Err e)
          | Panic => ({| files := fs; net := w; screen := screen p |}, Panic)
          | NoFuel => ({| files := fs; net := w; screen := screen p |}, NoFuel)
          end
      | Err e => ({| files := fs; net := net p; screen := screen p |}, Err e)
      | Panic => ({| files := fs; net := net p; screen := screen p |}, Panic)
      | NoFuel => ({| files := fs; net := net p; screen := screen p |}, NoFuel)
      end
  | Err e => (p, Err e)
  | Panic => (p, Panic)
  | NoFuel => (p, NoFuel)
  end.
End Client.

(** ** Proofs: the readers never fail *)

Lemma netmap_get_total nm k : exists o, netmap_get nm k = Ok o.
Proof. unfold netmap_get. destruct (field_no_panic nm k) as [[o ->]|[e ->]]; by eexists. Qed.
Lemma nested_reads_total v k : (exists o, nested_str v k = Ok o) /\ (exists o, nested_raw v k = Ok o).
Proof. destruct v as [| | | |l]; cbn [nested_str nested_raw]; try (split; by eexists). destruct (field_no_panic l k) as [[o ->]|[e ->]]; split; by eexists. Qed.

Lemma report_total nm verbose : exists r, report_netmap nm verbose = Ok r.
Proof.
  unfold report_netmap. destruct (netmap_get_total nm (bs "Node")) as [node ->]. cbn [obind].
  assert (exists o, match node with Some node => nested_raw node (bs "Addresses") | None => Ok None end = Ok o) as [a ->] by (destruct node as [n|]; [apply nested_reads_total|by eexists]).
  cbn [obind]. assert (exists o, match node with Some node => if verbose then nested_str node (bs "Name") else Ok None | None => Ok None end = Ok o) as [m ->].
  { destruct node as [n|]; [|by eexists]. destruct verbose; [apply nested_reads_total|by eexists]. }
  cbn [obind]. destruct (netmap_get_total nm (bs "Peers")) as [p ->]. cbn [obind]. destruct (netmap_get_total nm (bs "Error")) as [e ->]. by eexists.
Qed.

(** The node keys a netmap names, and what is printed of it. *)
Definition known (nm : bytes) : list NodePublic := match peers nm with Ok l => map node_key l | _ => [] end.
Definition printed (nm : bytes) (verbose : bool) : Report :=
  match report_netmap nm verbose with Ok r => r | _ => {| addresses := None; name := None; peer_count := None; error_line := None |} end.

(** One netmap after the other: the last that names peers is what is published. *)
Definition publish (old : list NodePublic) (nm : bytes) : list NodePublic := if decide (known nm = []) then old else known nm.
Definition show (verbose : bool) (sh : Shown) (nm : bytes) : Shown := {| peers_out := (fun old => publish old nm) <$> peers_out sh; reports := reports sh ++ [printed nm verbose] |}.

Definition completed (p : Poll) : Poll := {| current := []; count := count p + 1; shown := show (bool_decide (count p + 1 = 1)) (shown p) (current p) |}.
Definition push (p : Poll) (b : bytes) : Poll := {| current := current p ++ b; count := count p; shown := shown p |}.

Lemma netmap_complete_spec p : netmap_complete p = Ok (completed p).
Proof.
  unfold netmap_complete, completed, show, printed. destruct (report_total (current p) (bool_decide (count p + 1 = 1))) as [r ->]. cbn [Prelude.expect_ok obind].
  destruct (peers_out (shown p)) as [old|]; cbn [fmap option_fmap option_map]; [|done]. unfold publish, known. by destruct (peers_total (current p)) as [l ->].
Qed.

(** The closure, event by event. *)
Definition on_event (p : Poll) (e : event Z) : Poll :=
  match e with EvByte _ b last => let p := push p [b] in if last then completed p else p | _ => p end.

Lemma push_push p a b : push (push p a) b = push p (a ++ b).
Proof. unfold push. cbn. by rewrite app_assoc. Qed.

Lemma body_seen h c last p : c <> [] -> foldl on_event p (body_events h c last) = if last then completed (push p c) else push p c.
Proof.
  revert p. induction c as [|b c IH]; intros p Hc; [done|]. destruct c as [|b2 c]; [done|].
  change (body_events h (b :: b2 :: c) last) with (EvByte h b false :: body_events h (b2 :: c) last). cbn [foldl on_event].
  rewrite IH by done. rewrite !push_push. done.
Qed.

Lemma on_frame_spec fr p : frame_ok fr -> on_frame fr p = Ok (foldl on_event p (map_seen fr)).
Proof.
  intros [_ Hz]. unfold on_frame, map_seen. case_decide as H0; [by rewrite (proj1 Hz H0)|]. destruct (chunk fr) as [|b c] eqn:Ec; [by destruct H0; apply Hz|].
  rewrite body_seen by done. fold (push p (b :: c)). destruct (ends fr); [apply netmap_complete_spec|done].
Qed.

Lemma on_frame_seen fr p : frame_ok fr -> True -> on_frame fr p = Ok (foldl on_event p (map_seen fr)) /\ True.
Proof. intros Hf _. split; [by apply on_frame_spec|done]. Qed.

(** A netmap, or nothing for a keep-alive. *)
Definition on_netmap (p : Poll) (nm : bytes) : Poll := match nm with [] => p | _ => completed (push p nm) end.
Lemma on_netmap_spec p nm : foldl on_event p (map_delivered nm) = on_netmap p nm.
Proof. destruct nm as [|b nm]; [done|]. apply (body_seen _ (b :: nm) true). done. Qed.

(** What the netmaps of a stream leave on the screen: the keep-alives do nothing,
    only the first netmap is reported with its name. *)
Fixpoint show_all (first : bool) (sh : Shown) (nms : list bytes) : Shown :=
  match nms with [] => sh | [] :: nms => show_all first sh nms | nm :: nms => show_all false (show first sh nm) nms end.

Lemma on_netmaps_spec nms p : current p = [] -> current (foldl on_netmap p nms) = [] /\ shown (foldl on_netmap p nms) = show_all (bool_decide (count p = 0)) (shown p) nms.
Proof.
  revert p. induction nms as [|nm nms IH]; intros p Hc; [done|]. cbn [foldl]. destruct nm as [|b nm]; [by apply IH|].
  change (on_netmap p (b :: nm)) with (completed (push p (b :: nm))). destruct (IH (completed (push p (b :: nm)))) as [H1 H2]; [done|]. split; [done|]. rewrite H2.
  cbn [completed count push shown current show_all]. rewrite Hc. rewrite (bool_decide_eq_false_2 (count p + 1 = 0)) by lia.
  do 2 f_equal. apply bool_decide_ext. lia.
Qed.

(** In the end: the peers of the last netmap that names any. *)
Lemma published_last nms first sh : peers_out (show_all first sh nms) = (fun old => foldl publish old nms) <$> peers_out sh.
Proof.
  revert first sh. induction nms as [|nm nms IH]; intros first sh; [cbn [show_all foldl]; by destruct (peers_out sh)|]. destruct nm as [|b nm].
  - cbn [show_all foldl]. rewrite IH. destruct (peers_out sh) as [old|]; [|done]. assert (publish old [] = old) as Hp. { unfold publish. rewrite decide_True; [done|]. reflexivity. }
    cbn [fmap option_fmap option_map foldl]. by rewrite Hp.
  - cbn [show_all]. rewrite IH. cbn [show peers_out foldl]. by destruct (peers_out sh).
Qed.

(** What the closure does with a chunk. *)
Definition eat_chunk (s : MapFrames * Poll) (data : bytes) : MapFrames * Poll :=
  match feed_each on_frame (length data) s.1 data s.2 with Ok s => s | _ => s end.

Lemma map_run_total p data : exists q ev, run map_format p data = inr (q, ev).
Proof. destruct (run map_format p data) as [[]|[q ev]]. by exists q, ev. Qed.

Lemma on_chunk_spec data s : stream_ok s.1 -> on_chunk data s = (eat_chunk s data, Ok tt) /\ stream_ok (eat_chunk s data).1.
Proof.
  intros Hok. destruct (map_run_total (map_at s.1) data) as (q & ev & Hrun). unfold on_chunk, eat_chunk.
  destruct (feed_each_spec on_frame on_event (fun _ => True) on_frame_seen (length data) s.1 data s.2 q ev Hok I (Nat.le_refl _) Hrun) as (f & -> & Hf & _). done.
Qed.

Lemma eat_chunks cs s : stream_ok s.1 -> feed_chunks on_frame s.1 cs s.2 = Ok (foldl eat_chunk s cs).
Proof.
  revert s. induction cs as [|data cs IH]; intros [f p] Hok; [done|]. cbn [feed_chunks foldl fst snd] in *. destruct (map_run_total (map_at f) data) as (q & ev & Hrun).
  destruct (feed_each_spec on_frame on_event (fun _ => True) on_frame_seen (length data) f data p q ev Hok I (Nat.le_refl _) Hrun) as (f1 & E & Hf & _).
  unfold eat_chunk at 2. cbn [fst snd]. rewrite E. cbn [obind]. apply (IH (f1, _) Hf).
Qed.

(** The chunks of a whole stream. *)
Lemma eat_netmaps cs nms sh : Forall (fun nm => Z.of_nat (length nm) < 2 ^ 32)%Z nms -> concat cs = concat (map map_wire nms) ->
  shown (foldl eat_chunk (map_frames_new, poll_new sh) cs).2 = show_all true sh nms.
Proof.
  intros Hn Hc. destruct (netmaps_seen on_frame on_event (fun _ => True) on_frame_seen on_netmap nms cs (poll_new sh) I on_netmap_spec Hn Hc) as (f & E & _).
  pose proof (eat_chunks cs (map_frames_new, poll_new sh) stream_new) as E2. cbn [fst snd] in E2. rewrite E2 in E. apply Ok_inj in E. rewrite E. cbn [snd].
  by destruct (on_netmaps_spec nms (poll_new sh) eq_refl) as [_ ->].
Qed.

(** ** Proofs: the requests *)

(** What the exchange of a request takes: the strings fit, the server's next
    messages are the frames of the answer, and the fuel is enough for them. *)
Record answers {W : Type} `{HN : HostNet W} `{P : Primitives} `{SV : !SocketView W} (fuel : nat) (host path body : bytes) (frames : list sent) (qs later : list bytes) (c : H2Conn W) : Prop := {
  host_fits : fits_u32 host;
  block_fits : length (block_bytes host path (dec (Z.of_nat (length body)))) <= 256;
  stream_fits : (next_stream c + 2 < 2 ^ 32)%Z;
  at_rest : idle c qs later (concat (map sent_wire frames));
  answered : response (next_stream c) frames;
  fuel_enough : length qs + 1 < fuel;
}.

Section Rpc.
Context `{P : Primitives, L : !PrimitiveLaws P} {W : Type} `{HN : HostNet W, SV : !SocketView W, SU : !SocketUp W, HV : !HostNetView W}.

(** What an exchange leaves: the request and the replies it called for on the wire,
    and the connection idle, with the next stream. *)
Definition exchanged (c : H2Conn W) (host path body : bytes) (frames : list sent) (later : list bytes) (c' : H2Conn W) : Prop :=
  exists replies, sent_out (transport c) (map sent_wire (request (next_stream c) host path body ++ replies)) (transport c') /\
    length (request (next_stream c) host path body ++ replies) <= 2 + length body + 2 * length (concat (map sent_wire frames)) /\
    replied frames replies /\ idle c' [] later [] /\ next_stream c' = (next_stream c + 2)%Z.

(** The records an exchange may take. *)
Definition exchange_cost (body : bytes) (frames : list sent) : Z := 2 + Z.of_nat (length body) + 2 * Z.of_nat (length (concat (map sent_wire frames))).

Lemma posted_spec {A : Type} (on_data : bytes -> SE A HostTransport.Error unit) (eat : A -> bytes -> A) (good : A -> Prop) fuel host path body frames qs later c a :
  (forall chunk a, good a -> on_data chunk a = (eat a chunk, Ok tt) /\ good (eat a chunk)) -> good a ->
  fits_u32 path -> length body <= 4096 -> answers fuel host path body frames qs later c -> can_send (exchange_cost body frames) (transport c) ->
  exists c' cs, posted fuel host path body on_data a c = (c', foldl eat a cs, Ok tt) /\ concat cs = response_body (next_stream c) frames /\ exchanged c host path body frames later c'.
Proof using L SU.
  intros Heat Hg Hp Hb [H1 H2 H3 H4 H5 H6] Hs.
  destruct (host_exchange on_data eat good fuel host path body frames qs later (c, a)) as ([c' a'] & cs & replies & E & Ha & _ & Hcs & Hout & Hl & Hr & Hi & Hn); try done; [lia|].
  cbn [fst snd] in *. exists c', cs. unfold posted. rewrite E, Ha. split_and!; try done. exists replies. by split_and!.
Qed.

Lemma collected (cs : list bytes) got : foldl app got cs = got ++ concat cs.
Proof. revert got. induction cs as [|c cs IH]; intros got; cbn [foldl concat]; [by rewrite app_nil_r|]. by rewrite IH, <- app_assoc. Qed.

(** The text of a request. *)
Definition register_text (req : Register) : bytes := text (JObj [] (register_tree req)).
Definition map_text (req : MapRequest) : bytes := text (JObj [] (map_tree req)).

Lemma register_spec fuel host req frames qs later c : register_ok req -> length (register_text req) <= 4096 ->
  answers fuel host REGISTER_PATH (register_text req) frames qs later c -> can_send (exchange_cost (register_text req) frames) (transport c) ->
  exists c', register fuel host req c = (c', Ok (response_body (next_stream c) frames)) /\ exchanged c host REGISTER_PATH (register_text req) frames later c'.
Proof using L SU.
  intros Hr Hl Hx Hs. unfold register. rewrite writes_register by done. fold (register_text req). rewrite decide_False by (rewrite length_zeros; lia).
  cbn [map_err]. rewrite bind_lift, slice_app_l_exact by done. rewrite bind_lift.
  destruct (posted_spec collect app (fun _ => True) fuel host REGISTER_PATH (register_text req) frames qs later c []) as (c' & cs & E & Hcs & Hex); try done.
  exists c'. rewrite E. split; [|done]. cbn [obind]. by rewrite collected, Hcs.
Qed.

(** The netmaps reach the datapath: on an idle connection, [poll_netmap] sends the
    request for a stream; as the netmaps come, whatever HTTP/2 frames and records
    they are cut into and whatever keep-alives stand between them, each is reported
    once, and the published peers are, in the end, those of the last netmap that
    names any: a netmap without peers leaves the list in place, and any other replaces
    the list as a whole ([delta_forgets] below). The connection is idle again. *)
Theorem netmap_published fuel host node disco hostinfo frames netmaps qs later (c : H2Conn W) (sh : Shown) :
  let req := streaming_request node disco hostinfo in
  ControlRequest.map_ok req -> length (map_text req) <= 4096 ->
  answers fuel host MAP_PATH (map_text req) frames qs later c -> can_send (exchange_cost (map_text req) frames) (transport c) ->
  response_body (next_stream c) frames = concat (map map_wire netmaps) -> Forall (fun nm => Z.of_nat (length nm) < 2 ^ 32)%Z netmaps ->
  exists c', poll_netmap fuel host node disco hostinfo (c, sh) = ((c', show_all true sh netmaps), Ok tt) /\
    peers_out (show_all true sh netmaps) = (fun old => foldl publish old netmaps) <$> peers_out sh /\
    exchanged c host MAP_PATH (map_text req) frames later c'.
Proof.
  intros req Hr Hl Hx Hs Hbody Hn. unfold poll_netmap. fold req. rewrite writes_map by done. fold (map_text req). rewrite decide_False by (rewrite length_zeros; lia).
  cbn [map_err]. rewrite bind_lift, slice_app_l_exact by done. rewrite bind_lift. cbn [fst snd].
  destruct (posted_spec on_chunk eat_chunk (fun s => stream_ok s.1) fuel host MAP_PATH (map_text req) frames qs later c (map_frames_new, poll_new sh)) as (c' & cs & E & Hcs & Hex); try done.
  { intros chunk a. apply on_chunk_spec. }
  { apply stream_new. }
  rewrite E. exists c'. rewrite Hbody in Hcs. pose proof (eat_netmaps cs netmaps sh Hn Hcs) as Hshown.
  destruct (foldl eat_chunk _ cs) as [f p]. cbn [snd] in Hshown. rewrite Hshown. split_and!; try done. apply published_last.
Qed.

Lemma timeout_spec d (c : H2Conn W) : (0 < d)%Z -> exists c', set_poll_timeout d c = (c', Ok tt) /\ sent_out (transport c) [] (transport c') /\
  next_stream c' = next_stream c /\ (forall qs later bytes_, idle c qs later bytes_ -> idle c' qs later bytes_).
Proof using SU HV.
  intros Hd. unfold set_poll_timeout, on_transport, set_read_timeout, on_stream, bind. destruct (set_timeout (HostTransport.stream (transport c)) d) as [w ok] eqn:Et.
  destruct (set_timeout_view _ _ _ _ Et) as (Hi & Ho & ->); [|done]. eexists. split; [reflexivity|]. split_and!; [by apply received_out|done|].
  intros qs later st ([Hok Hcar] & Hrest). unfold idle, receives, transport_ok, ready in *. cbn [transport set_transport set_stream HostTransport.stream session rx rx_pos reader]. rewrite Hi. by split_and!; try apply Hrest.
Qed.

(** The answer to a follow-up. *)
Definition followup_verdict (body : bytes) : outcome Error (bytes * RegisterResponse) :=
  match parse_register_response body with
  | Ok r => if decide (error r <> []) then Err (LoginFailed (error r)) else if decide (auth_url r <> []) then Err StillInteractive else Ok (body, r)
  | Err e => Err (if decide (body = []) then EmptyFollowUp else ParsingFollowUp e body)
  | Panic => Panic
  | NoFuel => NoFuel
  end.

(** C14. The interactive login: without an auth key, an answer that names a URL is followed
    up by a second request on the next stream, the first again with that URL as its
    [Followup], and it is the answer to this one, whenever it comes, that decides:
    the login ends well exactly when it names neither an error nor another URL.
    The wire carries the two requests in this order, each with the acknowledgements
    and the credit the server's frames called for; the messages behind the second answer are left for
    the netmap poll. *)
Theorem login_followed fuel host base frames1 frames2 qs1 qs2 later (c : H2Conn W) first :
  let again := with_followup base (auth_url first) in let sid := next_stream c in
  auth_key base = None -> register_ok base -> register_ok again -> length (register_text base) <= 4096 -> length (register_text again) <= 4096 ->
  answers fuel host REGISTER_PATH (register_text base) frames1 qs1 (qs2 ++ later) c ->
  parse_register_response (response_body sid frames1) = Ok first -> error first = [] -> auth_url first <> [] ->
  Forall (fun q => q <> []) qs2 -> concat qs2 = concat (map sent_wire frames2) -> response (sid + 2) frames2 -> length qs2 + 1 < fuel -> (sid + 4 < 2 ^ 32)%Z ->
  length (block_bytes host REGISTER_PATH (dec (Z.of_nat (length (register_text again))))) <= 256 ->
  can_send (exchange_cost (register_text base) frames1 + exchange_cost (register_text again) frames2) (transport c) ->
  exists c' replies1 replies2, login fuel host base c = (c', followup_verdict (response_body (sid + 2) frames2)) /\
    sent_out (transport c) (map sent_wire (request sid host REGISTER_PATH (register_text base) ++ replies1) ++
      map sent_wire (request (sid + 2) host REGISTER_PATH (register_text again) ++ replies2)) (transport c') /\
    replied frames1 replies1 /\ replied frames2 replies2 /\ idle c' [] later [] /\ next_stream c' = (sid + 4)%Z.
Proof.
  intros again sid Hkey Hb Ha Hlb Hla Hx1 Hparse Herr Hurl Hne Hq2 Hr2 Hf2 Hsid Hblock Hs. unfold login. rewrite Hkey.
  destruct (register_spec fuel host base frames1 qs1 (qs2 ++ later) c Hb Hlb Hx1) as (c1 & E1 & (rs1 & Hout1 & Hl1 & Hrep1 & Hi1 & Hn1)).
  { eapply host_can_send_less; [|exact Hs]. unfold exchange_cost. lia. }
  rewrite (bind_ok _ _ _ _ _ E1). fold sid in E1, Hout1, Hn1, Hl1 |- *. rewrite Hparse. cbn [map_err]. rewrite bind_lift. rewrite (decide_False (P:=error first <> [])) by (intros Hx; by apply Hx).
  rewrite (decide_False (P:=auth_url first = [])) by done. cbn [negb]. fold again.
  destruct (timeout_spec LOGIN_TIMEOUT c1) as (c2 & E2 & Hout2 & Hn2 & Hi2); [done|].
  pose proof (host_sent_out_trans _ _ _ _ _ Hout1 Hout2) as Hout12. rewrite app_nil_r in Hout12.
  destruct (register_spec fuel host again frames2 qs2 later c2 Ha Hla) as (c3 & E3 & (rs2 & Hout3 & Hl3 & Hrep3 & Hi3 & Hn3)).
  - rewrite Hn1 in Hn2. destruct Hx1 as [H1 H2 H3 H4 H5 H6]. split; try done; rewrite ?Hn2; [lia| |done]. rewrite <- Hq2. by apply Hi2, idle_next.
  - eapply host_sent_out_can_send; [exact Hout12|]. eapply host_can_send_less; [|exact Hs]. rewrite length_map. unfold exchange_cost in *. lia.
  - rewrite Hn2, Hn1 in E3, Hout3, Hn3. replace (sid + 2 + 2)%Z with (sid + 4)%Z in Hn3 by lia.
    exists c3, rs1, rs2. split.
    + rewrite bind_assoc, (bind_ok _ _ _ _ _ E2), (bind_ok _ _ _ _ _ E3). unfold followup_verdict. set (body := response_body (sid + 2) frames2). cbn beta. destruct (parse_register_response body) as [r|e| |]; cbn [map_err]; try done.
      rewrite bind_lift. by repeat case_decide.
    + split; [by apply (host_sent_out_trans _ _ _ _ _ Hout12)|by split].
Qed.
End Rpc.

(** ** Proofs: from the session to the published peers *)
Section Online.
Context `{P : Primitives, L : !PrimitiveLaws P} {W : Type} `{HN : HostNet W, SV : !SocketView W, SU : !SocketUp W, HV : !HostNetView W}.

(** The login that needs no browser. *)
Lemma login_direct fuel host base frames qs later (c : H2Conn W) r : register_ok base -> length (register_text base) <= 4096 ->
  answers fuel host REGISTER_PATH (register_text base) frames qs later c -> can_send (exchange_cost (register_text base) frames) (transport c) ->
  parse_register_response (response_body (next_stream c) frames) = Ok r -> error r = [] -> auth_url r = [] ->
  exists c', login fuel host base c = (c', Ok (response_body (next_stream c) frames, r)) /\ exchanged c host REGISTER_PATH (register_text base) frames later c'.
Proof using L SU.
  intros Hb Hl Hx Hs Hparse Herr Hurl. destruct (register_spec fuel host base frames qs later c Hb Hl Hx Hs) as (c' & E & Hex). exists c'. split; [|done].
  unfold login. rewrite (bind_ok _ _ _ _ _ E), Hparse. cbn [map_err]. rewrite bind_lift. rewrite (decide_False (P:=error r <> [])) by (intros Hn; by apply Hn).
  rewrite (decide_True (P:=auth_url r = [])) by done. unfold bind at 1, ret at 1. rewrite Hparse. cbn [map_err]. rewrite bind_lift.
  rewrite (decide_False (P:=error r <> [])) by (intros Hn; by apply Hn). by rewrite (decide_False (P:=auth_url r <> [])) by (intros Hn; by apply Hn).
Qed.

Lemma run_on_conn {A} (m : SE (H2Conn W) Error A) c c' sh r : m c = (c', r) -> on_conn m (c, sh) = ((c', sh), r).
Proof using. unfold on_conn. cbn [fst snd]. by intros ->. Qed.

(** The first message of ours. *)
Definition opening : bytes := PREFACE ++ h2_wire false frame_type.SETTINGS x00 0 (entries_bytes (settings_entries INITIAL_WINDOW MAX_FRAME)).

Lemma exchanged_cost (c c' : H2Conn W) host path body frames later n : exchanged c host path body frames later c' ->
  can_send (exchange_cost body frames + n) (transport c) -> can_send n (transport c').
Proof using.
  intros (replies & Hout & Hl & _) Hs. eapply host_sent_out_can_send; [exact Hout|]. eapply host_can_send_less; [|exact Hs]. rewrite length_map. unfold exchange_cost. lia.
Qed.

(** C13. The host comes online: on a session with the control server, with an auth key at
    hand, [online] opens HTTP/2, passes over the early payload, registers, and holds
    the netmap poll until the server ends it; then what is shown is the netmaps of the
    stream, the published peers being those of the last that names any. All of it is
    read however the server's bytes are cut into frames and records, the bytes of the
    registration's answer and of the netmaps included that came earlier than they
    were asked for; and the wire carries, in records numbered from the session's
    counter on, the opening, the registration, the request for the netmaps, and after
    each of the two what the server's frames called for ([replied]): each SETTINGS and
    PING acknowledged, in order, and a byte of credit for every byte of DATA. *)
Theorem online_published fuel env host hostname home_derp state (t : NoiseTransport W) sh key frames1 frames2 netmaps qs1 qs2 later r :
  let node := public_of (HostState.node_key state) in let disco := public_of (HostState.disco_key state) in
  let info := hostinfo_of hostname home_derp in let req := streaming_request node disco info in
  let base := {| r_capability_version := CAPABILITY_VERSION; r_node_key := node; auth_key := Some (HostState.trim key); followup := None; r_hostinfo := info; ephemeral := false |} in
  load_auth_key env = Ok (Some key) -> register_ok base -> length (register_text base) <= 4096 -> ControlRequest.map_ok req -> length (map_text req) <= 4096 ->
  fits_u32 host -> length (block_bytes host REGISTER_PATH (dec (Z.of_nat (length (register_text base))))) <= 256 ->
  length (block_bytes host MAP_PATH (dec (Z.of_nat (length (map_text req))))) <= 256 ->
  receives t (qs1 ++ qs2 ++ later) -> Forall (fun q => q <> []) (qs1 ++ qs2) -> early_of (ready t ++ concat qs1) <> Incomplete -> (Z.of_nat (length (ready t ++ concat qs1)) < 2 ^ 31)%Z ->
  after_early (ready t ++ concat qs1) = concat (map sent_wire frames1) -> response 1 frames1 ->
  concat qs2 = concat (map sent_wire frames2) -> response 3 frames2 ->
  parse_register_response (response_body 1 frames1) = Ok r -> error r = [] -> auth_url r = [] ->
  response_body 3 frames2 = concat (map map_wire netmaps) -> Forall (fun nm => Z.of_nat (length nm) < 2 ^ 32)%Z netmaps ->
  can_send (1 + exchange_cost (register_text base) frames1 + exchange_cost (map_text req) frames2) t -> length qs1 + 1 < fuel -> length qs2 + 1 < fuel ->
  exists w' wire replies1 replies2, online fuel env host hostname home_derp state t sh = (w', show_all true sh netmaps, Ok tt) /\
    peers_out (show_all true sh netmaps) = (fun old => foldl publish old netmaps) <$> peers_out sh /\
    outbound w' = outbound (HostTransport.stream t) ++ wire /\
    Noise.carries (Noise.tx (session t)) (Noise.tx_nonce (session t))
      ([opening] ++ map sent_wire (request 1 host REGISTER_PATH (register_text base) ++ replies1) ++ map sent_wire (request 3 host MAP_PATH (map_text req) ++ replies2)) wire /\
    replied frames1 replies1 /\ replied frames2 replies2.
Proof.
  intros node disco info req base Hkey Hb Hlb Hm Hlm Hhost Hblock1 Hblock2 Hrec Hne Hearly Hsize Hwire1 Hresp1 Hwire2 Hresp2 Hparse Herr Hurl Hbody Hnm Hs Hf1 Hf2.
  apply Forall_app in Hne as [Hne1 Hne2]. assert (0 <= exchange_cost (register_text base) frames1)%Z as Hc1 by (unfold exchange_cost; lia).
  assert (0 <= exchange_cost (map_text req) frames2)%Z as Hc2 by (unfold exchange_cost; lia).
  destruct (start_idle fuel t qs1 (qs2 ++ later) Hrec Hne1 Hearly Hsize) as (c0 & qs' & wire0 & E0 & Hi0 & Hq & Hn0 & Ho0 & Hcar0 & Htx0 & Hno0); [lia|eapply host_can_send_less; [|exact Hs]; lia|].
  rewrite Hwire1 in Hi0. assert (sent_out t [opening] (transport c0)) as Hout0 by (exists wire0; by split_and!).
  assert (answers fuel host REGISTER_PATH (register_text base) frames1 qs' (qs2 ++ later) c0) as Ha1 by (split; [exact Hhost|exact Hblock1|by rewrite Hn0|exact Hi0|by rewrite Hn0|lia]).
  destruct (login_direct fuel host base frames1 qs' (qs2 ++ later) c0 r Hb Hlb Ha1) as (c1 & E1 & Hex1); [|by rewrite Hn0|done|done|].
  { eapply host_sent_out_can_send; [exact Hout0|]. eapply host_can_send_less; [|exact Hs]. cbn [length]. lia. }
  pose proof Hex1 as (rs1 & Hout1 & _ & Hrep1 & Hi1 & Hn1). rewrite Hn0 in Hout1, Hn1, E1.
  destruct (timeout_spec MAP_POLL_TIMEOUT c1) as (c2 & E2 & Hout2 & Hn2 & Hi2); [done|]. rewrite Hn1 in Hn2. change (1 + 2)%Z with 3%Z in Hn2.
  pose proof (host_sent_out_trans _ _ _ _ _ (host_sent_out_trans _ _ _ _ _ Hout0 Hout1) Hout2) as Hout. rewrite app_nil_r in Hout.
  assert (answers fuel host MAP_PATH (map_text req) frames2 qs2 later c2) as Ha2.
  { split; [exact Hhost|exact Hblock2|by rewrite Hn2|rewrite <- Hwire2; by apply Hi2, idle_next|by rewrite Hn2|exact Hf2]. }
  destruct (netmap_published fuel host node disco info frames2 netmaps qs2 later c2 sh Hm Hlm Ha2) as (c3 & E3 & Hpub & (rs2 & Hout3 & _ & Hrep2 & _)); [|by rewrite Hn2|done|].
  { eapply host_sent_out_can_send; [exact Hout2|]. cbn [length]. apply (exchanged_cost c0 c1 _ _ _ _ _ _ Hex1). eapply host_sent_out_can_send; [exact Hout0|].
    eapply host_can_send_less; [|exact Hs]. cbn [length]. fold req. lia. }
  rewrite Hn2 in Hout3. destruct (host_sent_out_trans _ _ _ _ _ Hout Hout3) as (wire & Ho & Hcar & _).
  exists (HostTransport.stream (transport c3)), wire, rs1, rs2. split.
  - unfold online. rewrite E0. cbn [map_err]. rewrite Hkey, bind_lift. cbn [fmap option_fmap option_map]. fold node disco info base.
    assert (on_conn (do! r := login fuel host base in do! _ := set_poll_timeout MAP_POLL_TIMEOUT in ret r) (c0, sh) = ((c2, sh), Ok (response_body 1 frames1, r))) as E.
    { apply run_on_conn. rewrite (bind_ok _ _ _ _ _ E1), (bind_ok _ _ _ _ _ E2). done. }
    rewrite (bind_ok _ _ _ _ _ E), E3. reflexivity.
  - split; [exact Hpub|]. split; [exact Ho|]. split; [rewrite app_assoc; exact Hcar|]. split; [exact Hrep1|exact Hrep2].
Qed.
End Online.

(** Examples: a stream of a netmap with a peer, a keep-alive and a netmap without
    peers, in two DATA frames with a PING between them; and a server that wants a
    browser first and is content then. *)
#[local] Existing Instances Toy.toy Toy.toy_laws.
Module Example.
Definition saying (msgs : list bytes) : H2Conn pipe :=
  {| transport := {| HostTransport.stream := (concat (map (example_record (replicate 32 x02)) msgs), []); rx := []; rx_pos := 0;
       session := {| Noise.tx := replicate 32 x01; Noise.rx := replicate 32 x02; Noise.tx_nonce := 4; Noise.rx_nonce := 7; Noise.handshake_hash := zeros 32 |} |};
     reader := new; next_stream := 1 |}.

Definition peer : NodePublic := Public (replicate 32 xab).
Definition netmap : bytes :=
  text (JObj [] (MCons [] (bs "Peers") [] [] (JArr [] (ECons [] (JObj [] (MCons [] (bs "Key") [] [] (JStr (wire_form peer)) [] MNil)) [] ENil)) [] MNil)).
Definition netmaps : list bytes := [netmap; []; bs "{}"].
Definition netmap_bytes : bytes := concat (map map_wire netmaps).
Definition netmap_frames : list sent :=
  [Sent false frame_type.HEADERS flag.END_HEADERS 1 [x88]; Sent false frame_type.DATA x00 1 (take 50 netmap_bytes);
   Sent false frame_type.PING x00 0 (bs "pingpong"); Sent false frame_type.DATA flag.END_STREAM 1 (drop 50 netmap_bytes)].
Definition netmap_stream : bytes := concat (map sent_wire netmap_frames).
Definition netmap_messages : list bytes := [take 33 netmap_stream; drop 33 netmap_stream].

Lemma netmap_response : response 1 netmap_frames.
Proof.
  split_and!.
  - repeat (constructor; [split; vm_compute; (done || split; (done || discriminate))|]). constructor.
  - repeat (constructor; [split; discriminate|]). constructor.
  - exists (take 3 netmap_frames), (Sent false frame_type.DATA flag.END_STREAM 1 (drop 50 netmap_bytes)). split_and!; [reflexivity|reflexivity|].
    repeat (constructor; [reflexivity|]). constructor.
Qed.

Lemma netmap_idle : idle (saying netmap_messages) netmap_messages [] netmap_stream.
Proof.
  split_and!.
  - split; [apply le_0_n|]. unfold saying. cbn [HostTransport.stream session transport inbound pipe_view fst]. rewrite app_nil_r. unfold netmap_messages. cbn [map concat].
    repeat (apply Noise.carries_cons; [cbn; unfold u64_max; lia|vm_compute; discriminate|reflexivity|reflexivity|reflexivity|]). constructor.
  - repeat (constructor; [vm_compute; discriminate|]). constructor.
  - split; [done|]. intros k Hk. by apply h2_new_ok.
  - reflexivity.
  - vm_compute. reflexivity.
  - unfold netmap_messages. cbn [concat]. rewrite app_nil_r. apply (take_drop 33 netmap_stream).
Qed.

Definition poll_text : bytes := map_text (streaming_request peer (Public (replicate 32 xcd)) example_hostinfo).

Lemma netmap_answers : answers 4 (bs "h") MAP_PATH poll_text netmap_frames netmap_messages [] (saying netmap_messages).
Proof.
  split; [vm_compute; reflexivity|apply Nat.leb_le; vm_compute; reflexivity|vm_compute; reflexivity|exact netmap_idle|exact netmap_response|cbn [length netmap_messages]; lia].
Qed.

Lemma poll_request_ok : ControlRequest.map_ok (streaming_request peer (Public (replicate 32 xcd)) example_hostinfo).
Proof. pose proof example_hostinfo_ok as [? ?]. split_and!; try done; cbn; try lia; constructor. Qed.
End Example.
Import Example.

Lemma netmap_published_witness :
  exists c', poll_netmap 4 (bs "h") peer (Public (replicate 32 xcd)) example_hostinfo (saying netmap_messages, {| peers_out := Some []; reports := [] |}) =
    ((c', show_all true {| peers_out := Some []; reports := [] |} netmaps), Ok tt) /\
    peers_out (show_all true {| peers_out := Some []; reports := [] |} netmaps) = Some [peer] /\
    exchanged (saying netmap_messages) (bs "h") MAP_PATH poll_text netmap_frames [] c'.
Proof.
  destruct (netmap_published 4 (bs "h") peer (Public (replicate 32 xcd)) example_hostinfo netmap_frames netmaps netmap_messages [] (saying netmap_messages)
    {| peers_out := Some []; reports := [] |}) as (c' & E & Hp & Hex).
  - exact poll_request_ok.
  - apply Nat.leb_le. vm_compute. reflexivity.
  - exact netmap_answers.
  - split_and!; vm_compute; (reflexivity || discriminate).
  - vm_compute. reflexivity.
  - repeat (constructor; [vm_compute; reflexivity|]). constructor.
  - assert ((fun old => foldl publish old netmaps) <$> Some [] = Some [peer]) as Hlast by (vm_compute; reflexivity). cbn [peers_out] in Hp. rewrite Hlast in Hp.
    exists c'. split; [exact E|]. split; [exact Hp|exact Hex].
Defined.

(** A change of one peer, as the control plane sends it in [PeersChanged], makes the
    datapath forget the others: the list is replaced although the netmap does not
    have [Peers]. *)
Definition peers_netmap (key : bytes) (ps : list NodePublic) : bytes :=
  text (JObj [] (MCons [] key [] [] (JArr [] (fold_right (fun p es => ECons [] (JObj [] (MCons [] (bs "Key") [] [] (JStr (wire_form p)) [] MNil)) [] es) ENil ps)) [] MNil)).
Example delta_forgets :
  let a : NodePublic := Public (replicate 32 x0a) in let b : NodePublic := Public (replicate 32 x0b) in
  publish [] (peers_netmap (bs "Peers") [a; b]) = [a; b] /\ publish [a; b] (peers_netmap (bs "PeersChanged") [b]) = [b].
Proof. vm_compute. split; reflexivity. Qed.

Module Browser.
Definition base : Register :=
  {| r_capability_version := 145; r_node_key := peer; auth_key := None; followup := None; r_hostinfo := example_hostinfo; ephemeral := false |}.
Definition url : bytes := bs "https://login/a/1".
Definition answer (sid : Z) (body : bytes) : list sent := [Sent false frame_type.HEADERS flag.END_HEADERS sid [x88]; Sent false frame_type.DATA flag.END_STREAM sid body].
Definition body1 : bytes := text (JObj [] (MCons [] (bs "AuthURL") [] [] (JStr url) [] MNil)).
Definition body2 : bytes := text (JObj [] (MCons [] (bs "MachineAuthorized") [] [] (JBool true) [] MNil)).
Definition stream1 : bytes := concat (map sent_wire (answer 1 body1)).
Definition stream2 : bytes := concat (map sent_wire (answer 3 body2)).
Definition asked : RegisterResponse := {| machine_authorized := false; node_key_expired := false; auth_url := url; error := [] |}.
Definition content : RegisterResponse := {| machine_authorized := true; node_key_expired := false; auth_url := []; error := [] |}.

Lemma answer_response sid body : (0 <= sid < 2 ^ 31)%Z -> (Z.of_nat (length body) < 2 ^ 24)%Z -> response sid (answer sid body).
Proof.
  intros Hs Hb. split_and!.
  - repeat (constructor; [split; cbn [s_payload s_stream]; [done|cbn [length]; lia]|]). constructor.
  - repeat (constructor; [split; discriminate|]). constructor.
  - exists (take 1 (answer sid body)), (Sent false frame_type.DATA flag.END_STREAM sid body). split_and!; [reflexivity| |].
    + unfold ends_stream. cbn [s_kind s_stream sent_header]. by rewrite bool_decide_eq_true_2.
    + repeat (constructor; [|]); [|constructor]. unfold ends_stream. cbn. apply andb_false_r.
Qed.

Lemma register_answers : answers 3 (bs "h") REGISTER_PATH (register_text base) (answer 1 body1) [stream1] ([stream2] ++ []) (saying [stream1; stream2]).
Proof.
  split; [vm_compute; reflexivity|apply Nat.leb_le; vm_compute; reflexivity|vm_compute; reflexivity| |apply answer_response; vm_compute; (done || by split)|cbn [length]; lia].
  split_and!.
  - split; [apply le_0_n|]. unfold saying. cbn [HostTransport.stream session transport inbound pipe_view fst]. rewrite app_nil_r. cbn [map concat app].
    repeat (apply Noise.carries_cons; [cbn; unfold u64_max; lia|vm_compute; discriminate|reflexivity|reflexivity|reflexivity|]). constructor.
  - repeat (constructor; [vm_compute; discriminate|]). constructor.
  - split; [done|]. intros k Hk. by apply h2_new_ok.
  - reflexivity.
  - vm_compute. reflexivity.
  - apply app_nil_r.
Qed.

Lemma base_ok : register_ok base /\ register_ok (with_followup base url).
Proof. pose proof example_hostinfo_ok as [? ?]. split; split_and!; try done; cbn; lia. Qed.
End Browser.
Import Browser.

Lemma login_followed_witness :
  exists c' replies1 replies2, login 3 (bs "h") base (saying [stream1; stream2]) = (c', Ok (body2, content)) /\
    sent_out (transport (saying [stream1; stream2])) (map sent_wire (request 1 (bs "h") REGISTER_PATH (register_text base) ++ replies1) ++
      map sent_wire (request (1 + 2) (bs "h") REGISTER_PATH (register_text (with_followup base url)) ++ replies2)) (transport c') /\
    replied (answer 1 body1) replies1 /\ replied (answer 3 body2) replies2 /\ idle c' [] [] [] /\ next_stream c' = (1 + 4)%Z.
Proof.
  destruct (login_followed 3 (bs "h") base (answer 1 body1) (answer 3 body2) [stream1] [stream2] [] (saying [stream1; stream2]) asked)
    as (c' & rs1 & rs2 & E & Hrest).
  - reflexivity.
  - apply base_ok.
  - apply base_ok.
  - apply Nat.leb_le. vm_compute. reflexivity.
  - apply Nat.leb_le. vm_compute. reflexivity.
  - exact register_answers.
  - vm_compute. reflexivity.
  - reflexivity.
  - discriminate.
  - constructor; [vm_compute; discriminate|constructor].
  - apply app_nil_r.
  - apply answer_response; vm_compute; (done || by split).
  - cbn [length]. lia.
  - vm_compute. reflexivity.
  - apply Nat.leb_le. vm_compute. reflexivity.
  - split_and!; vm_compute; (reflexivity || discriminate).
  - assert (followup_verdict (response_body (1 + 2) (answer 3 body2)) = Ok (body2, content)) as Hv by (vm_compute; reflexivity).
    change (next_stream (saying [stream1; stream2])) with 1%Z in *. rewrite Hv in E. exists c', rs1, rs2. split; [exact E|exact Hrest].
Defined.

(** The host online: an early payload and the server's SETTINGS in the first record,
    the answer to the registration in the second with the first bytes of the netmaps'
    frames asked for only later in the third. *)
Module Session.
Definition env : Environment := {| var := fun k => if decide (k = bs "LANDO_AUTHKEY") then Some (bs "tskey-auth-1" ++ [x0a]) else None; key_file := fun _ => NotFound |}.
Definition state : HostState.State :=
  {| HostState.machine_key := Private (replicate 32 x01); HostState.node_key := Private (replicate 32 x02); HostState.disco_key := Private (replicate 32 x03) |}.
Definition shown_at_first : Shown := {| peers_out := Some []; reports := [] |}.
Definition frames1 : list sent := Sent false frame_type.SETTINGS x00 0 [] :: answer 1 body2.
Definition frames2 : list sent :=
  [Sent false frame_type.HEADERS flag.END_HEADERS 3 [x88]; Sent false frame_type.DATA x00 3 (take 50 netmap_bytes);
   Sent false frame_type.PING x00 0 (bs "pingpong"); Sent false frame_type.DATA flag.END_STREAM 3 (drop 50 netmap_bytes)].
Definition early : bytes := EARLY_PAYLOAD_MAGIC ++ to_be 4 2 ++ bs "{}".
Definition wire1 : bytes := concat (map sent_wire frames1).
Definition wire2 : bytes := concat (map sent_wire frames2).
Definition messages1 : list bytes := [early ++ take 9 wire1; drop 9 wire1].
Definition messages2 : list bytes := [wire2].
Definition entered : NoiseTransport pipe := transport (saying (messages1 ++ messages2)).
Definition info : Hostinfo := hostinfo_of (bs "lando") 1.
Definition request1 : Register :=
  {| r_capability_version := CAPABILITY_VERSION; r_node_key := public_of (HostState.node_key state); auth_key := Some (bs "tskey-auth-1"); followup := None; r_hostinfo := info; ephemeral := false |}.
Definition request2 : MapRequest := streaming_request (public_of (HostState.node_key state)) (public_of (HostState.disco_key state)) info.

Lemma response1 : response 1 frames1.
Proof.
  split_and!.
  - repeat (constructor; [split; vm_compute; (done || split; (done || discriminate))|]). constructor.
  - repeat (constructor; [split; discriminate|]). constructor.
  - exists (take 2 frames1), (Sent false frame_type.DATA flag.END_STREAM 1 body2). split_and!; [reflexivity|reflexivity|].
    repeat (constructor; [reflexivity|]). constructor.
Qed.

Lemma response2 : response 3 frames2.
Proof.
  split_and!.
  - repeat (constructor; [split; vm_compute; (done || split; (done || discriminate))|]). constructor.
  - repeat (constructor; [split; discriminate|]). constructor.
  - exists (take 3 frames2), (Sent false frame_type.DATA flag.END_STREAM 3 (drop 50 netmap_bytes)). split_and!; [reflexivity|reflexivity|].
    repeat (constructor; [reflexivity|]). constructor.
Qed.

Lemma entered_receives : receives entered (messages1 ++ messages2 ++ []).
Proof.
  split; [apply le_0_n|]. unfold entered, saying. cbn [HostTransport.stream session transport inbound pipe_view fst]. rewrite app_nil_r. unfold messages1, messages2. cbn [map concat app].
  repeat (apply Noise.carries_cons; [cbn; unfold u64_max; lia|vm_compute; discriminate|reflexivity|reflexivity|reflexivity|]). constructor.
Qed.

Lemma info_ok : hostinfo_ok info /\ latency_ok info.
Proof. split; [split_and!; try reflexivity; cbn; try lia; constructor|exact I]. Qed.

Lemma requests_ok : register_ok request1 /\ ControlRequest.map_ok request2.
Proof. pose proof info_ok as [H1 H2]. split; split_and!; try done; try (cbn; lia); try (vm_compute; reflexivity); constructor. Qed.

Lemma online_published_witness :
  exists w' wire replies1 replies2, online 4 env (bs "h") (bs "lando") 1 state entered shown_at_first = (w', show_all true shown_at_first netmaps, Ok tt) /\
    peers_out (show_all true shown_at_first netmaps) = Some [peer] /\ outbound w' = [] ++ wire /\
    Noise.carries (replicate 32 x01) 4
      ([opening] ++ map sent_wire (request 1 (bs "h") REGISTER_PATH (register_text request1) ++ replies1) ++ map sent_wire (request 3 (bs "h") MAP_PATH (map_text request2) ++ replies2)) wire /\
    acks replies1 = [Sent false frame_type.SETTINGS flag.ACK 0 []] /\ acks replies2 = [Sent false frame_type.PING flag.ACK 0 (bs "pingpong")] /\
    replied frames1 replies1 /\ replied frames2 replies2.
Proof.
  destruct (online_published 4 env (bs "h") (bs "lando") 1 state entered shown_at_first (bs "tskey-auth-1" ++ [x0a]) frames1 frames2 netmaps messages1 messages2 [] content)
    as (w' & wire & rs1 & rs2 & E & Hp & Ho & Hc & Hr1 & Hr2).
  - vm_compute. reflexivity.
  - exact (proj1 requests_ok).
  - apply Nat.leb_le. vm_compute. reflexivity.
  - exact (proj2 requests_ok).
  - apply Nat.leb_le. vm_compute. reflexivity.
  - vm_compute. reflexivity.
  - apply Nat.leb_le. vm_compute. reflexivity.
  - apply Nat.leb_le. vm_compute. reflexivity.
  - exact entered_receives.
  - repeat (constructor; [vm_compute; discriminate|]). constructor.
  - vm_compute. discriminate.
  - vm_compute. reflexivity.
  - vm_compute. reflexivity.
  - exact response1.
  - apply app_nil_r.
  - exact response2.
  - vm_compute. reflexivity.
  - reflexivity.
  - reflexivity.
  - vm_compute. reflexivity.
  - repeat (constructor; [vm_compute; reflexivity|]). constructor.
  - split_and!; vm_compute; (reflexivity || discriminate).
  - cbn [length messages1]. lia.
  - cbn [length messages2]. lia.
  - assert ((fun old => foldl publish old netmaps) <$> peers_out shown_at_first = Some [peer]) as Hlast by (vm_compute; reflexivity). rewrite Hlast in Hp.
    exists w', wire, rs1, rs2. split; [exact E|]. split; [exact Hp|]. split; [exact Ho|]. split; [exact Hc|].
    assert (acks_for frames1 = [Sent false frame_type.SETTINGS flag.ACK 0 []]) as Ha1 by (vm_compute; reflexivity).
    assert (acks_for frames2 = [Sent false frame_type.PING flag.ACK 0 (bs "pingpong")]) as Ha2 by (vm_compute; reflexivity).
    split; [rewrite <- Ha1; apply Hr1|]. split; [rewrite <- Ha2; apply Hr2|]. split; [exact Hr1|exact Hr2].
Defined.
End Session.
