(* ===== verification/FwConsole.v ===== *)
(** The firmware before it is online: the panic report, the console and the keys of
    [lando-fw/src/main.rs].

    [PanicReport] is what a panic leaves for the next boot, [Console] the task that
    provisions the flash and, in [boot], the keys [main] makes. What is logged and the
    USB device are not modelled; a string of heapless is its bytes, with its capacity
    written out. *)
From S2P Require Import Prelude StateError Decimal Utf8.
From S2P Require HostState FwConfig.

(** [push_str] of a heapless string of capacity [cap]: all of it or nothing. *)
Definition push_str (cap : nat) (s add : bytes) : option bytes := if decide (length s + length add <= cap) then Some (s ++ add) else None.

(** [core::write!]: the pieces of the format in order, up to one that does not fit. *)
Fixpoint write_pieces (cap : nat) (s : bytes) (pieces : list bytes) : bytes :=
  match pieces with
  | [] => s
  | piece :: pieces => match push_str cap s piece with Some s => write_pieces cap s pieces | None => s end
  end.

(** ** [mod panic_report] *)
Module PanicReport.
Definition MAGIC : Z := 0x4c414e44.
Definition LEN : nat := 192.

(** The memory that survives a reset. *)
Record Report := { magic : Z; len : Z; text : bytes }.

(** [take] *)
Definition take {E} (report : Report) : outcome E (Report * option bytes) :=
  if decide (magic report <> MAGIC) then Ok (report, None)
  else
    let report := {| magic := 0; len := len report; text := text report |} in
    let n := Z.to_nat (len report) `min` LEN in
    let? got := slice (text report) 0 n in
    Ok (report, match from_utf8 got with Some t => push_str LEN [] t | None => None end).

(** [panic]: the location, if the panic has one, and the message in the pieces its
    format writes; the reset is the end of it. *)
Definition panic {E} (location : option (bytes * Z)) (message : list bytes) (report : Report) : outcome E Report :=
  let t := match location with Some (file, line) => write_pieces LEN [] [file; bs ":"; dec line; bs " "] | None => [] end in
  let t := write_pieces LEN t message in
  let n := length t `min` LEN in
  let? src := slice t 0 n in
  let? buf := copy_range (text report) 0 n src in
  Ok {| magic := MAGIC; len := wrap 32 (Z.of_nat n); text := buf |}.

(** The pieces that fit, up to the first that does not. *)
Fixpoint fitting (room : nat) (pieces : list bytes) : list bytes :=
  match pieces with
  | [] => []
  | p :: pieces => if decide (length p <= room) then p :: fitting (room - length p) pieces else []
  end.

Lemma write_fitting cap s pieces : length s <= cap -> write_pieces cap s pieces = s ++ concat (fitting (cap - length s) pieces) /\ length (write_pieces cap s pieces) <= cap.
Proof.
  revert s. induction pieces as [|p pieces IH]; intros s Hs; cbn [write_pieces fitting concat]; [by rewrite app_nil_r|]. unfold push_str. case_decide as Hp.
  - rewrite decide_True by lia. destruct (IH (s ++ p)) as [E Hl]; [rewrite length_app; lia|]. split; [|done]. rewrite E, length_app. cbn [concat].
    rewrite <- app_assoc. do 4 f_equal. lia.
  - rewrite decide_False by lia. cbn [concat]. by rewrite app_nil_r.
Qed.

(** What the reader of the next boot is given. *)
Definition message_of (location : option (bytes * Z)) (message : list bytes) : bytes :=
  match location with
  | Some (file, line) => let t := concat (fitting LEN [file; bs ":"; dec line; bs " "]) in t ++ concat (fitting (LEN - length t) message)
  | None => concat (fitting LEN message)
  end.

Lemma fitting_utf8 room pieces : Forall (fun p => utf8_valid p = true) pieces -> utf8_valid (concat (fitting room pieces)) = true.
Proof.
  intros Hp. revert room. induction Hp as [|p pieces Hp _ IH]; intros room; cbn [fitting]; [done|]. case_decide; [|done]. cbn [concat]. rewrite utf8_valid_app by done. apply IH.
Qed.

(** C20. A panic is told to the next boot once: whatever the memory held, the report
    it leaves is taken as the location and then as much of the message as fits in
    192 bytes, cut between pieces of the format and so never inside a character, and
    not taken a second time; a boot that finds no report takes nothing. *)
Theorem panic_reported (location : option (bytes * Z)) (message : list bytes) (before : Report) :
  match location with Some (file, line) => utf8_valid file = true | None => True end ->
  Forall (fun p => utf8_valid p = true) message -> length (text before) = LEN ->
  exists left taken, panic (E:=Empty_set) location message before = Ok left /\ take (E:=Empty_set) left = Ok (taken, Some (message_of location message)) /\
    take (E:=Empty_set) taken = Ok (taken, None) /\ length (message_of location message) <= LEN /\
    (magic before <> MAGIC -> take (E:=Empty_set) before = Ok (before, None)).
Proof.
  intros Hloc Hm Hb. unfold panic. set (head := match location with Some (file, line) => write_pieces LEN [] [file; bs ":"; dec line; bs " "] | None => [] end).
  assert (length head <= LEN /\ utf8_valid head = true /\ message_of location message = head ++ concat (fitting (LEN - length head) message)) as (Hh & Hu & Hmsg).
  { unfold head, message_of. destruct location as [[file line]|]; [|split_and!; [apply le_0_n|done|done]].
    destruct (write_fitting LEN [] [file; bs ":"; dec line; bs " "]) as [-> Hl]; [simpl; lia|]. cbn [app length] in *. rewrite Nat.sub_0_r in *. split_and!; try done.
    apply fitting_utf8. repeat constructor; try done. apply utf8_ascii. refine (List.Forall_impl _ _ (dec_digits line)).
    intros b Hd. unfold is_digit in Hd. apply bool_decide_eq_true in Hd. unfold is_ascii, in_range. apply bool_decide_eq_true. lia. }
  destruct (write_fitting LEN head message Hh) as [Ht Hl]. rewrite Ht in *. rewrite <- Hmsg in *. set (t := message_of location message) in *.
  rewrite Nat.min_l by done. rewrite slice_to, take_ge by done. cbn [obind]. rewrite copy_range_ok by lia. cbn [obind].
  eexists _, _. split; [reflexivity|]. unfold take at 1. cbn [magic len text]. rewrite decide_False by (intros H; by apply H).
  unfold wrap. rewrite Z.mod_small by (unfold LEN in *; lia). rewrite Nat2Z.id, Nat.min_l by done.
  assert (utf8_valid t = true) as Hut by (rewrite Hmsg; rewrite utf8_valid_app by done; by apply fitting_utf8).
  rewrite slice_to by (rewrite length_overwrite; lia). cbn [obind]. rewrite (take_overwrite _ 0 t) by lia.
  split.
  { rewrite take_0. cbn [app]. rewrite from_utf8_valid by done. unfold push_str. cbn [length app]. by rewrite decide_True by lia. }
  split; [|split; [done|]].
  - unfold take. cbn [magic]. by rewrite decide_True by done.
  - intros Hn. unfold take. by rewrite decide_True.
Qed.
End PanicReport.

(** ** The console *)
Module Console.
Import FwConfig.

(** [char::encode_utf8] of the character with the number of a byte. *)
Definition char_of (b : byte) : bytes :=
  if decide (bz b < 128)%Z then [b] else [zb (Z.lor 192 (Z.shiftr (bz b) 6)); zb (Z.lor 128 (Z.land (bz b) 63))].

(** [str::split_once] at a character of one byte. *)
Fixpoint split_once (c : byte) (s : bytes) : option (bytes * bytes) :=
  match s with
  | [] => None
  | b :: s => if decide (b = c) then Some ([], s) else match split_once c s with Some (l, r) => Some (b :: l, r) | None => None end
  end.

Definition LINE : nat := 160.

Record Console (F : Type) := { line : bytes; pending : Config; store : F; derp_enabled : bool }.
Arguments line {F}.
Arguments pending {F}.
Arguments store {F}.
Arguments derp_enabled {F}.

(** The bootloader is the end of the console. *)
Inductive Stop := UsbBoot.

Section Task.
Context {F : Type} `{O : FlashOps F}.
Abbreviation C := (Console F).
Abbreviation M := (SE C Stop).

Definition set_line (c : C) (l : bytes) : C := {| line := l; pending := pending c; store := store c; derp_enabled := derp_enabled c |}.
Definition set_pending (c : C) (p : Config) : C := {| line := line c; pending := p; store := store c; derp_enabled := derp_enabled c |}.
Definition set_store (c : C) (f : F) : C := {| line := line c; pending := pending c; store := f; derp_enabled := derp_enabled c |}.

(** [match String::try_from(value)]: a value that does not fit is only logged. *)
Definition stage (value : bytes) (f : Config -> bytes -> Config) : M unit :=
  match push_str MAX_FIELD [] value with Some v => modify (fun c => set_pending c (f (pending c) v)) | None => ret tt end.

Definition with_ssid (c : Config) (v : bytes) : Config :=
  {| ssid := v; password := password c; auth_key := auth_key c; control_host := control_host c; control_key := control_key c; machine_key := machine_key c; node_key := node_key c |}.
Definition with_password (c : Config) (v : bytes) : Config :=
  {| ssid := ssid c; password := v; auth_key := auth_key c; control_host := control_host c; control_key := control_key c; machine_key := machine_key c; node_key := node_key c |}.
Definition with_host (c : Config) (v : bytes) : Config :=
  {| ssid := ssid c; password := password c; auth_key := auth_key c; control_host := v; control_key := control_key c; machine_key := machine_key c; node_key := node_key c |}.
Definition with_control_key (c : Config) (v : bytes) : Config :=
  {| ssid := ssid c; password := password c; auth_key := auth_key c; control_host := control_host c; control_key := v; machine_key := machine_key c; node_key := node_key c |}.
Definition with_auth_key (c : Config) (v : bytes) : Config :=
  {| ssid := ssid c; password := password c; auth_key := v; control_host := control_host c; control_key := control_key c; machine_key := machine_key c; node_key := node_key c |}.

(** [handle_command]; [show] and [help] only print. *)
Definition handle_command (text : bytes) : M unit :=
  let text := HostState.trim text in
  let (cmd, value) := default (text, []) (split_once x20 text) in
  if decide (cmd = bs "ssid") then stage value with_ssid
  else if decide (cmd = bs "pass") then stage value with_password
  else if decide (cmd = bs "host") then stage value with_host
  else if decide (cmd = bs "ckey") then stage value with_control_key
  else if decide (cmd = bs "key") then stage value with_auth_key
  else if decide (cmd = bs "derp") then modify (fun c => {| line := line c; pending := pending c; store := store c; derp_enabled := true |})
  else if decide (cmd = bs "save") then
    do! c := get_state in
    do! (f, _) := lift (save (store c) (pending c)) in
    modify (fun c => set_store c f)
  else if decide (cmd = bs "clear") then modify (fun c => set_store c (clear (store c)).1)
  else if decide (cmd = bs "show") then do! c := get_state in do! _ := lift (load (E:=Stop) (store c)) in ret tt
  else ret tt.

(** A byte of the console. *)
Definition on_byte (b : byte) : M unit :=
  do! c := get_state in
  if decide (b = x0d \/ b = x0a) then
    do! _ := handle_command (line c) in modify (fun c => set_line c [])
  else if decide (b = x62 /\ line c = []) then lift (Err UsbBoot)
  else match push_str LINE (line c) (char_of b) with Some l => modify (fun c => set_line c l) | None => ret tt end.

(** Packets of the console, one after the other; a lost connection changes nothing. *)
Fixpoint on_bytes (bs : bytes) : M unit :=
  match bs with
  | [] => ret tt
  | b :: bs => do! _ := on_byte b in on_bytes bs
  end.

(** The console as the task starts it. *)
Definition console_new (f : F) : outcome Stop C :=
  let? stored := load f in
  Ok {| line := []; pending := default config_default stored; store := f; derp_enabled := true |}.

(** ** The keys *)

(** What [main] does with the flash at boot: [k1] and [k2] are what the generator
    gives if it is asked. The configuration, and the flash afterwards. *)
Definition boot (f : F) (k1 k2 : bytes) : outcome Stop (F * option Config) :=
  let? stored := load f in
  match stored with
  | None => Ok (f, None)
  | Some cfg =>
      if decide (machine_key cfg = None \/ node_key cfg = None) then
        let cfg := {| ssid := ssid cfg; password := password cfg; auth_key := auth_key cfg; control_host := control_host cfg; control_key := control_key cfg;
                      machine_key := Some k1; node_key := Some k2 |} in
        let? (f, _) := save f cfg in Ok (f, Some cfg)
      else Ok (f, Some cfg)
  end.
End Task.
End Console.

(** ** Proofs: the console *)
Section ConsoleProofs.
Import FwConfig Console.
Context {F : Type} `{O : FlashOps F, L : !FlashLaws F}.

(** Characters one can see, and those and the blank. *)
Definition visible (b : byte) : bool := bool_decide (33 <= bz b <= 126)%Z.
Definition printable (b : byte) : bool := bool_decide (32 <= bz b <= 126)%Z.

Lemma visible_no_space b l n : visible b = true -> HostState.drop_all n HostState.spaces (b :: l) = b :: l /\ HostState.drop_all n (map (@rev byte) HostState.spaces) (b :: l) = b :: l.
Proof.
  intros Hb. assert (HostState.drop_first HostState.spaces (b :: l) = None /\ HostState.drop_first (map (@rev byte) HostState.spaces) (b :: l) = None) as [H1 H2]
    by (destruct b; try discriminate; split; reflexivity).
  destruct n; [done|]. cbn [HostState.drop_all]. by rewrite H1, H2.
Qed.

Lemma trim_visible a mid z : visible a = true -> visible z = true -> HostState.trim (a :: mid ++ [z]) = a :: mid ++ [z].
Proof.
  intros Ha Hz. unfold HostState.trim, HostState.trim_start. rewrite (proj1 (visible_no_space a _ _ Ha)). unfold HostState.trim_end.
  rewrite (app_comm_cons mid [z] a), rev_unit. rewrite (proj2 (visible_no_space z _ _ Hz)). by rewrite <- rev_unit, rev_involutive.
Qed.

(** What can be typed as a value: it neither starts nor ends with a blank. *)
Definition typeable (v : bytes) : Prop := Forall (fun b => printable b = true) v /\ length v <= MAX_FIELD /\ exists mid z, v = mid ++ [z] /\ visible z = true.

Lemma printable_ascii v : Forall (fun b => printable b = true) v -> utf8_valid v = true.
Proof.
  intros Hv. apply utf8_ascii. refine (List.Forall_impl _ _ Hv). intros b Hb. unfold printable in Hb. apply bool_decide_eq_true in Hb.
  unfold is_ascii, in_range. apply bool_decide_eq_true. lia.
Qed.

Lemma typing text rest (c : Console F) : Forall (fun b => printable b = true) text -> length (line c ++ text) <= LINE ->
  (line c <> [] \/ head text <> Some x62) -> on_bytes (text ++ rest) c = on_bytes rest (set_line c (line c ++ text)).
Proof.
  intros Ht. revert c. induction Ht as [|b text Hb Ht IH]; intros c Hl Hnb.
  { cbn [app]. rewrite app_nil_r. by destruct c. }
  cbn [app on_bytes]. assert (on_byte b c = (set_line c (line c ++ [b]), Ok tt)) as E.
  { unfold on_byte. rewrite bind_get. unfold printable in Hb. apply bool_decide_eq_true in Hb.
    rewrite (decide_False (P:=b = x0d \/ b = x0a)) by (intros [-> | ->]; [change (bz x0d) with 13%Z in Hb|change (bz x0a) with 10%Z in Hb]; lia).
    rewrite (decide_False (P:=b = x62 /\ line c = [])) by (intros [-> Hc]; destruct Hnb as [H|H]; by apply H).
    unfold char_of. rewrite decide_True by lia. unfold push_str. rewrite decide_True by (rewrite length_app in Hl; simpl in Hl |- *; lia). done. }
  rewrite (bind_ok _ _ _ _ _ E). rewrite IH.
  - cbn [set_line line]. by rewrite <- app_assoc.
  - cbn [set_line line]. by rewrite <- app_assoc.
  - left. cbn [set_line line]. by destruct (line c).
Qed.

(** A command, typed from the start of a line. *)
Lemma typed_command text rest (c c1 : Console F) : line c = [] -> Forall (fun b => printable b = true) text -> length text <= LINE -> head text <> Some x62 ->
  handle_command text (set_line c text) = (c1, Ok tt) -> on_bytes (text ++ x0d :: rest) c = on_bytes rest (set_line c1 []).
Proof.
  intros Hc Ht Hl Hb E. rewrite typing; [|done|by rewrite Hc|by right]. rewrite Hc. cbn [app on_bytes]. unfold on_byte at 1.
  rewrite bind_assoc, bind_get. rewrite decide_True by by left. cbn [set_line line]. rewrite bind_assoc. by rewrite (bind_ok _ _ _ _ _ E).
Qed.

Lemma split_word (w v : bytes) : Forall (fun b => visible b = true) w -> split_once x20 (w ++ x20 :: v) = Some (w, v).
Proof.
  intros Hw. induction Hw as [|b w Hb _ IH]; cbn [app split_once]; [by rewrite decide_True|].
  rewrite decide_False by (intros ->; vm_compute in Hb; discriminate). by rewrite IH.
Qed.

Lemma stage_fits (c : Console F) v f : length v <= MAX_FIELD -> stage v f c = (set_pending c (f (pending c) v), Ok tt).
Proof. intros Hv. unfold stage, push_str. cbn [length app]. by rewrite decide_True by lia. Qed.

Lemma command_split (w v : bytes) a w' : w = a :: w' -> Forall (fun b => visible b = true) w -> typeable v ->
  HostState.trim (w ++ x20 :: v) = w ++ x20 :: v /\ split_once x20 (w ++ x20 :: v) = Some (w, v).
Proof.
  intros Hw Hf (Hp & _ & mid & z & -> & Hz). split; [|by apply split_word]. subst w. apply List.Forall_cons_iff in Hf as [Ha _].
  change ((a :: w') ++ x20 :: mid ++ [z]) with (a :: w' ++ (x20 :: mid) ++ [z]). rewrite app_assoc. by apply trim_visible.
Qed.

Lemma ssid_command v (c : Console F) : typeable v -> handle_command (bs "ssid " ++ v) c = (set_pending c (with_ssid (pending c) v), Ok tt).
Proof.
  intros Hv. destruct (command_split (bs "ssid") v x73 (bs "sid") eq_refl) as [Ht Hs]; [repeat constructor|done|].
  change (bs "ssid " ++ v) with (bs "ssid" ++ x20 :: v). unfold handle_command. rewrite Ht, Hs. cbn [from_option id]. rewrite decide_True by done. apply stage_fits, Hv.
Qed.

Lemma pass_command v (c : Console F) : typeable v -> handle_command (bs "pass " ++ v) c = (set_pending c (with_password (pending c) v), Ok tt).
Proof.
  intros Hv. destruct (command_split (bs "pass") v x70 (bs "ass") eq_refl) as [Ht Hs]; [repeat constructor|done|].
  change (bs "pass " ++ v) with (bs "pass" ++ x20 :: v). unfold handle_command. rewrite Ht, Hs. cbn [from_option id]. rewrite decide_False by done. rewrite decide_True by done. apply stage_fits, Hv.
Qed.

Lemma save_command (c : Console F) : handle_command (bs "save") c = match save (store c) (pending c) with Ok (f, _) => (set_store c f, Ok tt) | Err e => (c, Err e) | Panic => (c, Panic) | NoFuel => (c, NoFuel) end.
Proof.
  unfold handle_command. change (HostState.trim (bs "save")) with (bs "save"). change (split_once x20 (bs "save")) with (@None (bytes * bytes)). cbn [from_option id].
  rewrite !(decide_False (P:=bs "save" = _)) by done. rewrite decide_True by done. rewrite bind_get. unfold bind, lift. destruct (save (store c) (pending c)) as [[f ok]| | |]; done.
Qed.

(** A flash that takes what it is given. *)
Definition flash_up : Prop := (forall f a b, exists f', blocking_erase f a b = (f', true)) /\ (forall f a d, exists f', blocking_write f a d = (f', true)).

Lemma save_up {E} (f : F) c : flash_up -> config_ok c ->
  (length (config_bytes c) <= 512 /\ exists f', save (E:=E) f c = Ok (f', true) /\ load (E:=E) f' = Ok (Some c)) \/ (512 < length (config_bytes c) /\ save (E:=E) f c = Panic).
Proof using L.
  intros [He Hw] Hc. rewrite save_spec by done. case_decide as Hl; [left|right; by split; [lia|]]. split; [done|].
  destruct (He f CONFIG_OFFSET (CONFIG_OFFSET + ERASE_SIZE)%Z) as [f1 E1]. rewrite E1. set (data := config_bytes c ++ zeros (512 - length (config_bytes c))).
  destruct (Hw f1 CONFIG_OFFSET data) as [f2 E2]. rewrite E2. exists f2. split; [done|]. pose proof sector_size as Hsec.
  assert (length data = 512) as Hd by (unfold data; rewrite length_app, length_zeros; lia).
  apply (load_written f2 c (zeros (512 - length (config_bytes c)))); [done|]. fold data. rewrite <- Hd.
  eapply write_read; [exact E2|]. rewrite Hd. eapply erase_ones; [exact E1|lia|lia].
Qed.

(** The configuration with its keys. *)
Definition with_keys (c : Config) (k1 k2 : bytes) : Config :=
  {| ssid := ssid c; password := password c; auth_key := auth_key c; control_host := control_host c; control_key := control_key c;
     machine_key := Some k1; node_key := Some k2 |}.

(** C17. A new device is provisioned over its console: whatever configuration was
    pending, typing [ssid], [pass] and [save] with values that can be typed leaves in
    the flash a complete configuration with these values. At the next boot the keys
    are generated and kept, and every later boot has the same ones, so that the node
    keeps its identity; but if the fields leave no room for the keys, that boot
    panics, and so does every boot after it: the save that the console accepted
    cannot be undone there, because the console is not yet running. *)
Theorem device_provisioned (c : Console F) (s p k1 k2 : bytes) :
  let want := with_password (with_ssid (pending c) s) p in
  line c = [] -> config_ok (pending c) -> machine_key (pending c) = None -> node_key (pending c) = None -> typeable s -> typeable p -> flash_up ->
  length k1 = 32 -> length k2 = 32 ->
  exists c', on_bytes (bs "ssid " ++ s ++ [x0d] ++ bs "pass " ++ p ++ [x0d] ++ bs "save" ++ [x0d]) c = (c', Ok tt) /\
    load (E:=Stop) (store c') = Ok (Some want) /\ is_complete want = true /\
    ((exists f, boot (store c') k1 k2 = Ok (f, Some (with_keys want k1 k2)) /\ forall j1 j2, boot f j1 j2 = Ok (f, Some (with_keys want k1 k2))) \/
     512 < length (config_bytes (with_keys want k1 k2)) /\ boot (store c') k1 k2 = Panic).
Proof using L.
  intros want Hl Hc Hm Hn Hs Hp Hup Hk1 Hk2. pose proof Hs as (Hs1 & Hs2 & smid & sz & Hs3 & _). pose proof Hp as (Hp1 & Hp2 & pmid & pz & Hp3 & _).
  set (c1 := set_line (set_pending (set_line c (bs "ssid " ++ s)) (with_ssid (pending c) s)) []).
  set (c2 := set_line (set_pending (set_line c1 (bs "pass " ++ p)) want) []).
  assert (config_ok want) as Hw.
  { destruct Hc as [Hf Hk]. split; [|exact Hk]. unfold fields, want in *. cbn [with_password with_ssid ssid password auth_key control_host control_key] in *.
    do 2 (apply List.Forall_cons_iff in Hf as [_ Hf]). do 2 (constructor; [split; [done|by apply printable_ascii]|]). exact Hf. }
  destruct (save_up (E:=Stop) (store c2) want Hup Hw) as [[Hlen (f1 & Esave & Eload)]|[Hlen _]].
  2:{ exfalso. rewrite config_bytes_length in Hlen by apply Hw. destruct Hw as [Hf _]. unfold fields, keys, want in *.
      cbn [with_password with_ssid ssid password auth_key control_host control_key machine_key node_key] in *. rewrite Hm, Hn in Hlen.
      repeat match goal with H : Forall _ (_ :: _) |- _ => apply List.Forall_cons_iff in H as [[? ?] ?] end. unfold MAX_FIELD, list_sum in *. cbn [map fold_right] in Hlen. lia. }
  exists (set_line (set_store (set_line c2 (bs "save")) f1) []). split; [|split; [exact Eload|split]].
  - rewrite !app_assoc, <- !(app_assoc _ [x0d]). rewrite <- !app_assoc. cbn [app].
    assert (handle_command (bs "ssid " ++ s) (set_line c (bs "ssid " ++ s)) = (set_pending (set_line c (bs "ssid " ++ s)) (with_ssid (pending c) s), Ok tt)) as E1 by exact (ssid_command s (set_line c _) Hs).
    assert (handle_command (bs "pass " ++ p) (set_line c1 (bs "pass " ++ p)) = (set_pending (set_line c1 (bs "pass " ++ p)) want, Ok tt)) as E2 by exact (pass_command p (set_line c1 _) Hp).
    assert (handle_command (bs "save") (set_line c2 (bs "save")) = (set_store (set_line c2 (bs "save")) f1, Ok tt)) as E3.
    { rewrite save_command. change (store (set_line c2 (bs "save"))) with (store c2). change (pending (set_line c2 (bs "save"))) with want. by rewrite Esave. }
    rewrite (app_assoc (bs "ssid ") s). rewrite (typed_command (bs "ssid " ++ s) _ c (set_pending (set_line c (bs "ssid " ++ s)) (with_ssid (pending c) s)) Hl); [|apply Forall_app; split; [repeat constructor|done]|rewrite length_app; unfold LINE, MAX_FIELD in *; simpl; lia|done|exact E1].
    fold c1. rewrite (app_assoc (bs "pass ") p). rewrite (typed_command (bs "pass " ++ p) _ c1 (set_pending (set_line c1 (bs "pass " ++ p)) want) eq_refl); [|apply Forall_app; split; [repeat constructor|done]|rewrite length_app; unfold LINE, MAX_FIELD in *; simpl; lia|done|exact E2].
    fold c2. by rewrite (typed_command (bs "save") [] c2 (set_store (set_line c2 (bs "save")) f1) eq_refl ltac:(repeat constructor) ltac:(vm_compute; lia) ltac:(done) E3).
  - unfold is_complete, want. cbn. rewrite Hs3, Hp3. rewrite !bool_decide_eq_true_2; [done|by destruct pmid|by destruct smid].
  - cbn [store set_line set_store]. unfold boot. rewrite Eload. cbn [obind]. change (machine_key want) with (machine_key (pending c)). rewrite Hm. rewrite decide_True by by left.
    fold (with_keys want k1 k2). assert (config_ok (with_keys want k1 k2)) as Hwk by (destruct Hw as [Hf _]; split; [exact Hf|repeat constructor; done]).
    destruct (save_up (E:=Stop) f1 (with_keys want k1 k2) Hup Hwk) as [[_ (f2 & E2 & L2)]|[Hlen2 E2]]; rewrite E2; cbn [obind]; [left|right; done].
    exists f2. split; [done|]. intros j1 j2. rewrite L2. cbn [obind with_keys machine_key node_key]. rewrite decide_False by (intros [H|H]; discriminate). done.
Qed.
End ConsoleProofs.

Lemma panic_reported_witness :
  let before := {| PanicReport.magic := 7; PanicReport.len := 9; PanicReport.text := replicate 192 xff |} in
  exists left taken, PanicReport.panic (E:=Empty_set) (Some (bs "src/wg.rs", 42%Z)) [bs "index out of bounds: the len is "; bs "16"] before = Ok left /\
    PanicReport.take (E:=Empty_set) left = Ok (taken, Some (bs "src/wg.rs:42 index out of bounds: the len is 16")) /\
    PanicReport.take (E:=Empty_set) taken = Ok (taken, None).
Proof.
  destruct (PanicReport.panic_reported (Some (bs "src/wg.rs", 42%Z)) [bs "index out of bounds: the len is "; bs "16"]
    {| PanicReport.magic := 7; PanicReport.len := 9; PanicReport.text := replicate 192 xff |}) as (left & taken & E1 & E2 & E3 & _).
  - vm_compute. reflexivity.
  - repeat (constructor; [vm_compute; reflexivity|]). constructor.
  - vm_compute. reflexivity.
  - assert (PanicReport.message_of (Some (bs "src/wg.rs", 42%Z)) [bs "index out of bounds: the len is "; bs "16"] = bs "src/wg.rs:42 index out of bounds: the len is 16") as Hm by (vm_compute; reflexivity).
    rewrite Hm in E2. exists left, taken. split; [exact E1|]. split; [exact E2|exact E3].
Defined.

Module Bench.
Import FwConfig Console.
#[local] Existing Instances FwConfig.Ram.ops FwConfig.Ram.laws.

Definition blank : Console (Z -> byte) := {| line := []; pending := config_default; store := fun _ => xff; derp_enabled := true |}.
Definition typed : bytes := bs "ssid " ++ bs "attic" ++ [x0d] ++ bs "pass " ++ bs "correct horse" ++ [x0d] ++ bs "save" ++ [x0d].
Definition want : Config := with_password (with_ssid config_default (bs "attic")) (bs "correct horse").
Definition machine : bytes := replicate 32 x11.
Definition node : bytes := replicate 32 x22.

Lemma attic_typeable : typeable (bs "attic").
Proof. split; [repeat constructor|split; [vm_compute; lia|]]. exists (bs "atti"), x63. done. Qed.
Lemma horse_typeable : typeable (bs "correct horse").
Proof. split; [repeat constructor|split; [vm_compute; lia|]]. exists (bs "correct hors"), x65. done. Qed.
Lemma ram_up : flash_up (F:=Z -> byte).
Proof. split; intros; by eexists. Qed.
Lemma default_ok : config_ok config_default.
Proof. split; [|repeat constructor]. repeat (constructor; [split; [apply le_0_n|reflexivity]|]). constructor. Qed.

Lemma device_provisioned_witness :
  exists c', on_bytes typed blank = (c', Ok tt) /\ load (E:=Stop) (store c') = Ok (Some want) /\ is_complete want = true /\
    exists f, boot (store c') machine node = Ok (f, Some (with_keys want machine node)) /\ forall j1 j2, boot f j1 j2 = Ok (f, Some (with_keys want machine node)).
Proof.
  destruct (device_provisioned blank (bs "attic") (bs "correct horse") machine node) as (c' & E & Hl & Hc & Hb).
  - reflexivity.
  - exact default_ok.
  - reflexivity.
  - reflexivity.
  - exact attic_typeable.
  - exact horse_typeable.
  - exact ram_up.
  - reflexivity.
  - reflexivity.
  - exists c'. split; [exact E|]. split; [exact Hl|]. split; [exact Hc|]. destruct Hb as [Hb|[Hlen _]]; [exact Hb|]. exfalso.
    assert (Nat.leb (length (config_bytes (with_keys want machine node))) 512 = true) as Hle by (vm_compute; reflexivity). apply Nat.leb_le in Hle.
    change (with_password (with_ssid (pending blank) (bs "attic")) (bs "correct horse")) with want in Hlen. lia.
Defined.

(** Five fields of 96 bytes: the console saves them, and no boot after that ends. *)
Definition long (b : byte) : bytes := replicate 96 b.
Definition full : Config :=
  {| ssid := long x61; password := long x62; auth_key := long x63; control_host := long x64; control_key := long x65; machine_key := None; node_key := None |}.
Example full_saved_then_stuck :
  match save (E:=Stop) (fun _ => xff) full with
  | Ok (f, ok) => ok = true /\ load (E:=Stop) f = Ok (Some full) /\ boot f machine node = Panic
  | _ => False
  end.
Proof. vm_compute. split_and!; reflexivity. Qed.

(** A character outside ASCII is typed as its UTF-8 bytes, and each is taken for a
    character of its own: [é] is saved as two. *)
Example accent_mangled : (on_bytes (bs "ssid caf" ++ [xc3; xa9] ++ [x0d]) blank).1.(pending).(ssid) = bs "caf" ++ [xc3; x83; xc2; xa9].
Proof. vm_compute. reflexivity. Qed.
End Bench.
