(* ===== verification/FwMain.v ===== *)
(** The firmware online: the control session of [lando-fw/src/main.rs].

    [Session] has the requests the device makes ([register], [advertise], [map_poll])
    and what it says of the answers, [Supervisor] an attempt to come online and the
    loop around the attempts. Logging, the radio, DHCP and the tasks beside the session
    are embassy's; [post] and [connect] are those of [H2Conn] and [FwControl]. *)
From S2P Require Import Prelude StateError Decimal Utf8 Crypto Keys Json JsonTree Framing Socket H2Reader H2Writer H2Events.
From S2P Require Import ControlRequest ControlResponse NetmapStream CoreRoot FwConsole.
From S2P Require Noise FwConfig FwControl H2Conn H2Post WgNode.

(** ** The control session *)
Module Session.
Import H2Conn.

(** [hostinfo] *)
Definition hostinfo (routes : list bytes) (preferred_derp : Z) : Hostinfo :=
  {| hostname := bs "lando-pico"; ipn_version := ipn_version hostinfo_default; os := os hostinfo_default; os_version := os_version hostinfo_default;
     machine := machine hostinfo_default; routable_ips := routes; ControlRequest.preferred_derp := preferred_derp;
     derp_latency_ms := Some 30%Z; working_udp := true |}.

(** The one-shot request of [advertise], the registration and the long poll. *)
Definition advertisement (node : NodePublic) (disco : DiscoPublic) (endpoint : bytes) (routes : list bytes) : MapRequest :=
  {| m_capability_version := CAPABILITY_VERSION; m_node_key := node; m_disco_key := disco; m_hostinfo := hostinfo routes WgNode.DERP_REGION;
     stream := false; keep_alive := false; omit_peers := true; endpoints := [endpoint]; endpoint_types := [endpoint_type.LOCAL] |}.
Definition registration (auth_key : bytes) (node : NodePublic) (routes : list bytes) : Register :=
  {| r_capability_version := CAPABILITY_VERSION; r_node_key := node; auth_key := if decide (auth_key = []) then None else Some auth_key;
     followup := None; r_hostinfo := hostinfo routes WgNode.DERP_REGION; ephemeral := false |}.
Definition long_poll (node : NodePublic) (disco : DiscoPublic) : MapRequest :=
  {| m_capability_version := CAPABILITY_VERSION; m_node_key := node; m_disco_key := disco;
     m_hostinfo := {| hostname := bs "lando-pico"; ipn_version := ipn_version hostinfo_default; os := os hostinfo_default; os_version := os_version hostinfo_default;
       machine := machine hostinfo_default; routable_ips := routable_ips hostinfo_default; ControlRequest.preferred_derp := 1;
       derp_latency_ms := derp_latency_ms hostinfo_default; working_udp := working_udp hostinfo_default |};
     stream := true; keep_alive := true; omit_peers := true; endpoints := []; endpoint_types := [] |}.

(** What [register] says of the answer, in a string of 64 bytes. *)
Definition bool_text (b : bool) : bytes := if b then bs "true" else bs "false".
Definition status_of (answer : bytes) : outcome Empty_set bytes :=
  match parse_register_response answer with
  | Ok r =>
      Ok (if decide (error r <> []) then write_pieces 64 [] [bs "refused: "; error r]
          else if decide (auth_url r <> []) then write_pieces 64 [] [bs "needs interactive login"]
          else write_pieces 64 [] [bs "registered, authorized="; bool_text (machine_authorized r)])
  | Err _ => Ok (write_pieces 64 [] [bs "bad response ("; dec (Z.of_nat (length answer)); bs " bytes)"])
  | Panic => Panic
  | NoFuel => NoFuel
  end.

(** What [report_self] logs. *)
Inductive SelfReport := NoNode | NotAnObject | Self (home derp : bytes) (endpoints : option nat) (hostinfo : nat).

(** [report_self] *)
Definition report_self (netmap : bytes) : outcome JsonError SelfReport :=
  let? node := result_ok (field netmap (bs "Node")) in
  match node with
  | Some (Some (VRaw node)) =>
      let get k := let? r := result_ok (field node k) in Ok (mjoin r) in
      let? home := get (bs "HomeDERP") in
      let? derp := get (bs "DERP") in
      let? eps := get (bs "Endpoints") in
      let? info := get (bs "Hostinfo") in
      Ok (Self (match home with Some (VNumber n) => n | _ => bs "none" end) (default (bs "none") (and_then derp as_str))
            (match eps with Some (VRaw r) => Some (length r) | _ => None end) (match info with Some (VRaw h) => length h | _ => 0 end))
  | Some (Some _) => Ok NotAnObject
  | _ => Ok NoNode
  end.

(** What the closure of [map_poll] keeps: [reported] is what it has reported. *)
Definition NETMAP : nat := 8192.
Record Watch := { count : Z; current : nat; netmap : bytes; netmap_len : nat; reported : option SelfReport }.
Definition watch_new : Watch := {| count := 0; current := 0; netmap := zeros NETMAP; netmap_len := 0; reported := None |}.

(** The first frame is buffered, as far as it fits. *)
Definition keep (s : Watch) (chunk : bytes) : outcome H2Error Watch :=
  match reported s with
  | Some _ => Ok s
  | None =>
      let? room := nsub (length (netmap s)) (netmap_len s) in
      let n := room `min` length chunk in
      let? src := slice chunk 0 n in
      let? buf := copy_range (netmap s) (netmap_len s) (netmap_len s + n) src in
      Ok {| count := count s; current := current s; netmap := buf; netmap_len := netmap_len s + n; reported := reported s |}
  end.

(** The closure for a frame; the frame counter wraps. *)
Definition on_frame (fr : MapFrame) (s : Watch) : outcome H2Error Watch :=
  if decide (total_len fr = 0)%Z then Ok s
  else
    let s := {| count := count s; current := current s + length (chunk fr); netmap := netmap s; netmap_len := netmap_len s; reported := reported s |} in
    let? s := keep s (chunk fr) in
    if ends fr then
      let? reported :=
        match reported s with
        | Some r => Ok (Some r)
        | None => let? got := slice (netmap s) 0 (netmap_len s) in let? r := Prelude.expect_ok (report_self got) in Ok (Some r)
        end in
      Ok {| count := wrap 32 (count s + 1); current := 0; netmap := netmap s; netmap_len := netmap_len s; reported := reported |}
    else Ok s.

Section Requests.
Context `{P : Primitives} {W : Type} `{SO : SocketOps W}.

(** [advertise]: how long the answer was. *)
Definition advertise (fuel reads : nat) (c : H2Conn) (w : W) (host : bytes) (node : NodePublic) (disco : DiscoPublic) (endpoint : bytes) (routes : list bytes) :
    outcome H2Error (H2Conn * W * nat) :=
  let? (body, n) := map_err (fun _ => Frame) (write_map_request (zeros 768) (advertisement node disco endpoint routes)) in
  let? body := slice body 0 n in
  let? (c, w, _, len) := post fuel reads c w host MAP_PATH body (zeros 256) in
  Ok (c, w, len).

(** [register] *)
Definition register (fuel reads : nat) (c : H2Conn) (w : W) (host auth_key : bytes) (node : NodePublic) (routes : list bytes) : outcome H2Error (H2Conn * W * bytes) :=
  let? (body, n) := map_err (fun _ => Frame) (write_register_request (zeros 640) (registration auth_key node routes)) in
  let? body := slice body 0 n in
  let? (c, w, out, len) := post fuel reads c w host REGISTER_PATH body (zeros 1024) in
  let? answer := slice out 0 len in
  let? status := Prelude.expect_ok (status_of answer) in
  Ok (c, w, status).

(** [map_poll] *)
Definition map_poll (fuel reads : nat) (c : H2Conn) (w : W) (host : bytes) (node : NodePublic) (disco : DiscoPublic) : outcome H2Error (H2Conn * W * Watch) :=
  let? (body, n) := map_err (fun _ => Frame) (write_map_request (zeros 640) (long_poll node disco)) in
  let? body := slice body 0 n in
  let? (c, w, cs) := post_stream fuel reads c w host MAP_PATH body in
  let? (_, s) := feed_chunks on_frame map_frames_new cs watch_new in
  Ok (c, w, s).
End Requests.
End Session.

(** ** The supervised session *)
Module Supervisor.
Import H2Conn Session.

Definition CONTROL_KEY : bytes := bs "mkey:7d2792f9c98d753d2042471536801949104c247f95eac770f8fb321595e2173b".

(** The control server of a configuration: host and port, and its key. *)
Definition control_target (cfg : FwConfig.Config) : bytes * Z :=
  let host_spec := if decide (FwConfig.control_host cfg = []) then DEFAULT_CONTROL_HOST else FwConfig.control_host cfg in
  match Console.split_once x3a host_spec with
  | Some (h, p) => (h, default 80%Z (parse_uint 65535 p))
  | None => (host_spec, 80%Z)
  end.
Definition control_key_of (cfg : FwConfig.Config) : outcome KeyError MachinePublic :=
  parse (if decide (FwConfig.control_key cfg = []) then CONTROL_KEY else FwConfig.control_key cfg).

(** The [Debug] texts of the two error types. *)
Definition control_error_text (e : FwControl.ControlError) : bytes :=
  match e with FwControl.Dns => bs "Dns" | FwControl.Connect => bs "Connect" | FwControl.Io => bs "Io" | FwControl.Refused => bs "Refused" | FwControl.Handshake => bs "Handshake" end.
Definition h2_error_text (e : H2Error) : bytes :=
  match e with Io => bs "Io" | H2Conn.Noise => bs "Noise" | Frame => bs "Frame" | Server => bs "Server" | TooLarge => bs "TooLarge" end.

Section Attempt.
Context `{P : Primitives} {W : Type} `{NW : FwControl.Network W}.

(** An attempt as far as the registration, over a network [w] of its own: what
    [control_status] says of its failure, or the connection, the socket and the
    answer to the registration. *)
Definition bring_up (fuel reads : nat) (cfg : FwConfig.Config) (control_key : MachinePublic) (machine_key ephemeral : MachinePrivate) (node : NodePublic)
    (routes : list bytes) (w : W) : outcome Empty_set (bytes + (H2Conn * W * bytes)) :=
  let (host, port) := control_target cfg in
  match FwControl.connect fuel host port control_key machine_key ephemeral CAPABILITY_VERSION w with
  | (_, Err e) => Ok (inl (write_pieces 64 [] [bs "ts2021 failed: "; control_error_text e]))
  | (w, Ok (session, leftover, leftover_len)) =>
      let? leftover := slice leftover 0 leftover_len in
      match start fuel session leftover w with
      | Err e => Ok (inl (write_pieces 64 [] [bs "h2 failed: "; h2_error_text e]))
      | Ok (conn, w) =>
          match register fuel reads conn w host (FwConfig.auth_key cfg) node routes with
          | Err e => Ok (inl (write_pieces 64 [] [bs "register: "; h2_error_text e]))
          | Ok up => Ok (inr up)
          | Panic => Panic
          | NoFuel => NoFuel
          end
      | Panic => Panic
      | NoFuel => NoFuel
      end
  | (_, Panic) => Panic
  | (_, NoFuel) => NoFuel
  end.
End Attempt.

(** The state of the loop, and what it does at the end of a session. *)
Record Sup := { backoff : Z; consecutive_failures : Z }.
Definition sup_new : Sup := {| backoff := 1; consecutive_failures := 0 |}.
Inductive next := Retry | SysReset.

(** The end of a session, which was [online] if the registration had an answer: how
    long is waited, and what comes after it. *)
Definition ended (s : Sup) (online : bool) : Sup * Z * next :=
  let s := if online then {| backoff := 1; consecutive_failures := 0 |} else s in
  let wait := backoff s in
  let s := {| backoff := Z.min (backoff s * 2) 60; consecutive_failures := consecutive_failures s + 1 |} in
  (s, wait, if decide (12 <= consecutive_failures s)%Z then SysReset else Retry).

(** One session after the other: the waits, and whether it came to a reset. *)
Fixpoint supervise (s : Sup) (sessions : list bool) : list Z * bool :=
  match sessions with
  | [] => ([], false)
  | online :: sessions =>
      match ended s online with
      | (_, wait, SysReset) => ([wait], true)
      | (s, wait, Retry) => let (waits, reset) := supervise s sessions in (wait :: waits, reset)
      end
  end.

(** The relay of a session waits in the same way, and does not reset. *)
Fixpoint relay_waits (n : nat) (relay_backoff : Z) : list Z :=
  match n with O => [] | S n => relay_backoff :: relay_waits n (Z.min (relay_backoff * 2) 60) end.

(** The loop that joins the access point waits from two seconds to thirty. *)
Fixpoint join_waits (n : nat) (backoff : Z) : list Z :=
  match n with O => [] | S n => backoff :: join_waits n (Z.min (backoff * 2) 30) end.
End Supervisor.

(** ** Proofs: the supervisor *)
Section SupervisorProofs.
Import Supervisor.

(** The wait after [k] failures in a row. *)
Definition wait_of (k : nat) : Z := Z.min (2 ^ Z.of_nat k) 60.

(** Sessions that ended since the last one that was online, it included; the start of
    the device counts as none. *)
Fixpoint streak (k : nat) (sessions : list bool) : nat :=
  match sessions with [] => k | online :: sessions => streak (if online then 1 else S k) sessions end.

(** So many sessions in a row, from [k] on, come to twelve. *)
Fixpoint exhausts (k : nat) (sessions : list bool) : bool :=
  match sessions with
  | [] => false
  | online :: sessions => let k := if online then 1 else S k in bool_decide (k = 12) || exhausts k sessions
  end.
(** The waits of the sessions until then. *)
Fixpoint waits_from (k : nat) (sessions : list bool) : list Z :=
  match sessions with
  | [] => []
  | online :: sessions =>
      let k := if online then 0 else k in
      wait_of k :: if decide (S k = 12) then [] else waits_from (S k) sessions
  end.
Definition sup_after (k : nat) : Sup := {| backoff := wait_of k; consecutive_failures := Z.of_nat k |}.

Lemma wait_next k : Z.min (wait_of k * 2) 60 = wait_of (S k).
Proof. unfold wait_of. rewrite Nat2Z.inj_succ, Z.pow_succ_r by lia. lia. Qed.

Lemma supervise_from k sessions : k < 12 -> supervise (sup_after k) sessions = (waits_from k sessions, exhausts k sessions).
Proof.
  revert k. induction sessions as [|online sessions IH]; intros k Hk; [done|]. cbn [supervise waits_from exhausts].
  assert ((if online then {| backoff := 1; consecutive_failures := 0 |} else sup_after k) = sup_after (if online then 0 else k)) as Hs by (by destruct online).
  unfold ended. rewrite Hs. set (j := if online then 0 else k). assert (j < 12) as Hj by (unfold j; destruct online; lia).
  assert ((if online then 1 else S k) = S j) as -> by (unfold j; by destruct online). clearbody j. cbn [backoff consecutive_failures sup_after].
  rewrite wait_next. replace (Z.of_nat j + 1)%Z with (Z.of_nat (S j)) by lia. fold (sup_after (S j)). destruct (decide (S j = 12)) as [He|He].
  - rewrite decide_True by lia. by rewrite bool_decide_eq_true_2.
  - rewrite decide_False by lia. rewrite bool_decide_eq_false_2 by done. rewrite IH by lia. done.
Qed.

(** C19. The supervisor: whatever sessions come, the wait after one is the power of two
    of the sessions since the last that was online, and at most a minute; the device
    is reset exactly when twelve in a row have ended, the online one they start with
    included; it takes seven minutes of waiting to come to that, and a session that
    comes online starts the count again. *)
Theorem supervised (sessions : list bool) :
  supervise sup_new sessions = (waits_from 0 sessions, exhausts 0 sessions) /\
  (exhausts 0 sessions = true <-> exists before after, sessions = before ++ after /\ streak 0 before = 12) /\
  Forall (fun wait => 1 <= wait <= 60)%Z (waits_from 0 sessions) /\
  (forall online more, let r := supervise sup_new ([online] ++ replicate 11 false ++ more) in r.2 = true /\ fold_right Z.add 0%Z r.1 = 423%Z).
Proof.
  split_and!.
  - by apply (supervise_from 0); lia.
  - assert (forall k, k < 12 -> exhausts k sessions = true <-> exists before after, sessions = before ++ after /\ streak k before = 12) as H; [|apply H; lia].
    induction sessions as [|online sessions IH]; intros k Hk; cbn [exhausts].
    { split; [done|]. intros (before & after & He & Hs). destruct before; [simpl in Hs; lia|done]. }
    set (j := if online then 1 else S k). assert (j <= 12) as Hj by (unfold j; destruct online; lia). split.
    + intros [He%bool_decide_eq_true|He]%orb_prop; [exists [online], sessions; split; [done|exact He]|].
      destruct (decide (j = 12)) as [E|E]; [exists [online], sessions; split; [done|exact E]|].
      destruct (proj1 (IH j ltac:(lia)) He) as (before & after & -> & Hs). exists (online :: before), after. split; [done|exact Hs].
    + intros (before & after & He & Hs). destruct before as [|b before]; [simpl in Hs; lia|]. injection He as <- ->. apply orb_true_intro.
      destruct (decide (j = 12)) as [E|E]; [left; by apply bool_decide_eq_true|right]. apply IH; [lia|]. exists before, after. split; [done|exact Hs].
  - assert (forall k, Forall (fun wait => 1 <= wait <= 60)%Z (waits_from k sessions)) as H; [|apply H].
    induction sessions as [|online sessions IH]; intros k; cbn [waits_from]; constructor.
    + unfold wait_of. pose proof (Z.pow_pos_nonneg 2 (Z.of_nat (if online then 0 else k)) ltac:(lia) ltac:(lia)). lia.
    + case_decide; [constructor|apply IH].
  - intros online more r. unfold r. rewrite (supervise_from 0) by lia. destruct online; cbn; split; reflexivity.
Qed.

(** The waits of the relay and of the radio in closed form. *)
Lemma waits_doubled n : relay_waits n 1 = map wait_of (seq 0 n) /\ join_waits n 2 = map (fun k => Z.min (2 ^ Z.of_nat (S k)) 30) (seq 0 n).
Proof.
  assert (forall k, relay_waits n (wait_of k) = map wait_of (seq k n)) as H1.
  { induction n as [|n IH]; intros k; [done|]. cbn [relay_waits seq map]. by rewrite wait_next, IH. }
  assert (forall k, join_waits n (Z.min (2 ^ Z.of_nat (S k)) 30) = map (fun k => Z.min (2 ^ Z.of_nat (S k)) 30) (seq k n)) as H2.
  { clear H1. induction n as [|n IH]; intros k; [done|]. cbn [join_waits seq map]. rewrite <- IH. do 2 f_equal.
    rewrite (Nat2Z.inj_succ (S k)), Z.pow_succ_r by lia. lia. }
  split; [apply (H1 0)|apply (H2 0)].
Qed.
End SupervisorProofs.

(** ** Proofs: the netmap watch *)
Section WatchProofs.
Import Session.

Lemma report_self_total nm : exists r, report_self nm = Ok r.
Proof.
  unfold report_self. destruct (field_no_panic nm (bs "Node")) as [[o ->]|[e ->]]; cbn [result_ok obind]; [|by eexists].
  destruct o as [[s|s|b| |node]|]; try by eexists.
  assert (forall k, exists o, (let? r := result_ok (field node k) in Ok (mjoin r)) = (Ok o : outcome JsonError _)) as H by (intros k; destruct (field_no_panic node k) as [[o ->]|[e ->]]; by eexists).
  destruct (H (bs "HomeDERP")) as [o1 ->]. cbn [obind]. destruct (H (bs "DERP")) as [o2 ->]. cbn [obind].
  destruct (H (bs "Endpoints")) as [o3 ->]. cbn [obind]. destruct (H (bs "Hostinfo")) as [o4 ->]. by eexists.
Qed.
Definition self_report (nm : bytes) : SelfReport := match report_self nm with Ok r => r | _ => NoNode end.

Definition watch_ok (s : Watch) : Prop := length (netmap s) = NETMAP /\ netmap_len s <= NETMAP.

(** The closure, byte by byte. *)
Definition push (s : Watch) (b : byte) : Watch :=
  let fits := negb (bool_decide (is_Some (reported s))) && bool_decide (netmap_len s < NETMAP) in
  {| count := count s; current := current s + 1; netmap := if fits then overwrite (netmap s) (netmap_len s) [b] else netmap s;
     netmap_len := if fits then netmap_len s + 1 else netmap_len s; reported := reported s |}.
Definition finish (s : Watch) : Watch :=
  {| count := wrap 32 (count s + 1); current := 0; netmap := netmap s; netmap_len := netmap_len s;
     reported := Some (default (self_report (take (netmap_len s) (netmap s))) (reported s)) |}.
Definition watch_event (s : Watch) (e : event Z) : Watch :=
  match e with EvByte _ b last => let s := push s b in if last then finish s else s | _ => s end.

Lemma push_ok s b : watch_ok s -> watch_ok (push s b).
Proof.
  intros [Hl Hn]. unfold push, watch_ok. cbn [netmap netmap_len]. destruct (bool_decide_reflect (netmap_len s < NETMAP)) as [H|H]; [|by rewrite andb_false_r].
  destruct (negb _); cbn [andb]; [|done]. rewrite length_overwrite by (simpl; lia). split; [done|lia].
Qed.
Lemma pushes_ok chunk s : watch_ok s -> watch_ok (foldl push s chunk).
Proof. revert s. induction chunk as [|b chunk IH]; intros s Hs; [done|]. cbn [foldl]. by apply IH, push_ok. Qed.

Lemma overwrite_cons {A} (l : list A) n b src : n + S (length src) <= length l -> overwrite (overwrite l n [b]) (n + 1) src = overwrite l n (b :: src).
Proof.
  intros Hn. rewrite <- (take_drop n l). assert (n = length (take n l)) as Hl by (rewrite length_take; lia). set (p := take n l) in *. set (q := drop n l).
  rewrite (overwrite_app p) by done. rewrite (app_assoc p [b]), (overwrite_app (p ++ [b])) by (rewrite length_app, <- Hl; done). rewrite (overwrite_app p) by done.
  rewrite <- app_assoc. cbn [app length]. by rewrite drop_drop.
Qed.

(** The bytes of a chunk. *)
Lemma pushes_spec chunk s : watch_ok s -> foldl push s chunk =
  {| count := count s; current := current s + length chunk;
     netmap := match reported s with None => overwrite (netmap s) (netmap_len s) (take (NETMAP - netmap_len s) chunk) | Some _ => netmap s end;
     netmap_len := match reported s with None => netmap_len s + (NETMAP - netmap_len s) `min` length chunk | Some _ => netmap_len s end; reported := reported s |}.
Proof.
  revert s. induction chunk as [|b chunk IH]; intros s Hs.
  { cbn [foldl length]. destruct s as [n c buf len [r|]]; cbn; [by rewrite Nat.add_0_r|]. rewrite take_nil, Nat.min_0_r, !Nat.add_0_r. do 2 f_equal.
    unfold overwrite. cbn [length app]. by rewrite ?Nat.add_0_r, take_drop. }
  cbn [foldl]. rewrite IH by by apply push_ok. destruct Hs as [Hl Hn]. unfold push. cbn [count current netmap netmap_len reported].
  destruct (reported s) as [r|]; cbn [negb].
  - rewrite bool_decide_eq_true_2 by done. cbn [negb andb length]. f_equal. lia.
  - rewrite (bool_decide_eq_false_2 (is_Some None)) by (intros [? ?]; done). cbn [negb andb]. case_bool_decide as Hr.
    + f_equal; [simpl; lia| |simpl; lia]. destruct (NETMAP - netmap_len s) as [|room] eqn:E; [lia|]. replace (NETMAP - (netmap_len s + 1)) with room by lia. cbn [take firstn].
      apply overwrite_cons. rewrite length_take. lia.
    + replace (NETMAP - netmap_len s) with 0 by lia. cbn [take firstn]. f_equal; simpl; lia.
Qed.

Lemma watch_body h chunk last s : chunk <> [] -> foldl watch_event s (body_events h chunk last) = if last then finish (foldl push s chunk) else foldl push s chunk.
Proof.
  revert s. induction chunk as [|b chunk IH]; intros s Hc; [done|]. destruct chunk as [|b2 chunk]; [done|].
  change (body_events h (b :: b2 :: chunk) last) with (EvByte h b false :: body_events h (b2 :: chunk) last). cbn [foldl watch_event]. by rewrite IH.
Qed.

Lemma keep_spec s chunk : watch_ok s ->
  keep {| count := count s; current := current s + length chunk; netmap := netmap s; netmap_len := netmap_len s; reported := reported s |} chunk = Ok (foldl push s chunk).
Proof.
  intros Hs. rewrite pushes_spec by done. destruct Hs as [Hl Hn]. unfold keep. cbn [count current netmap netmap_len reported]. destruct (reported s); [done|].
  rewrite Hl, nsub_ok by lia. cbn [obind]. rewrite slice_to by lia. cbn [obind]. rewrite copy_range_ok by (rewrite ?length_take; lia). cbn [obind]. do 2 f_equal.
  f_equal. destruct (decide (length chunk <= NETMAP - netmap_len s)); [rewrite !take_ge by lia; done|]. by rewrite Nat.min_l by lia.
Qed.

Lemma watch_frame fr s : frame_ok fr -> watch_ok s -> on_frame fr s = Ok (foldl watch_event s (map_seen fr)) /\ watch_ok (foldl watch_event s (map_seen fr)).
Proof.
  intros [_ Hz] Hs. unfold on_frame, map_seen. case_decide as H0; [by rewrite (proj1 Hz H0)|]. destruct (chunk fr) as [|b c] eqn:Ec; [by destruct H0; apply Hz|].
  rewrite watch_body by done. rewrite keep_spec by done. pose proof (pushes_ok (b :: c) s Hs) as Hok. set (s1 := foldl push s (b :: c)) in *. cbn [obind]. destruct (ends fr); [|done].
  split; [|exact Hok]. unfold finish. destruct (reported s1); [done|]. destruct Hok as [Hl Hn]. rewrite slice_to by lia. cbn [obind].
  unfold self_report. by destruct (report_self_total (take (netmap_len s1) (netmap s1))) as [r ->].
Qed.

Definition watch_netmap (s : Watch) (nm : bytes) : Watch := match nm with [] => s | _ => finish (foldl push s nm) end.
Lemma watch_netmap_spec s nm : foldl watch_event s (map_delivered nm) = watch_netmap s nm.
Proof. destruct nm as [|b nm]; [done|]. by apply (watch_body _ (b :: nm) true). Qed.

(** What is seen of a stream of netmaps: how many, and what the first says. *)
Definition is_netmap (nm : bytes) : bool := bool_decide (nm <> []).
Fixpoint first_report (nms : list bytes) : option SelfReport :=
  match nms with [] => None | [] :: nms => first_report nms | nm :: _ => Some (self_report (take NETMAP nm)) end.

Lemma later_netmaps nms s r : watch_ok s -> reported s = Some r ->
  reported (foldl watch_netmap s nms) = Some r /\ count (foldl watch_netmap s nms) = (if decide (List.filter is_netmap nms = []) then count s else wrap 32 (count s + Z.of_nat (length (List.filter is_netmap nms)))).
Proof.
  revert s. induction nms as [|nm nms IH]; intros s Hs Hr; [done|]. cbn [foldl List.filter]. destruct nm as [|b nm]; [by apply IH|]. change (is_netmap (b :: nm)) with true. cbv iota.
  cbn [watch_netmap]. pose proof (pushes_ok (b :: nm) s Hs) as Hok. pose proof (pushes_spec (b :: nm) s Hs) as Hp. rewrite Hr in Hp. set (s1 := foldl push s (b :: nm)) in *.
  assert (reported (finish s1) = Some r) as Hr1 by (unfold finish; cbn [reported]; by rewrite Hp). destruct (IH (finish s1) Hok Hr1) as [-> ->]. split; [done|].
  assert (count (finish s1) = wrap 32 (count s + 1)) as -> by (unfold finish; cbn [count]; by rewrite Hp). rewrite (decide_False (P:=_ :: _ = [])) by done. cbn [length].
  case_decide as Hf; [rewrite Hf; done|]. unfold wrap. rewrite Zplus_mod_idemp_l. f_equal. lia.
Qed.

Lemma netmaps_watched nms : reported (foldl watch_netmap watch_new nms) = first_report nms /\ count (foldl watch_netmap watch_new nms) = wrap 32 (Z.of_nat (length (List.filter is_netmap nms))).
Proof.
  induction nms as [|nm nms IH]; [done|]. cbn [foldl List.filter]. destruct nm as [|b nm]; [exact IH|]. change (is_netmap (b :: nm)) with true. cbv iota. cbn [watch_netmap first_report length].
  assert (watch_ok watch_new) as Hnew by (split; [apply length_zeros|apply le_0_n]). pose proof (pushes_ok (b :: nm) watch_new Hnew) as Hok.
  pose proof (pushes_spec (b :: nm) watch_new Hnew) as Hp. set (s1 := foldl push watch_new (b :: nm)) in *.
  assert (reported (finish s1) = Some (self_report (take NETMAP (b :: nm)))) as Hr.
  { unfold finish. cbn [reported]. rewrite Hp. cbn [watch_new reported netmap netmap_len from_option]. do 2 f_equal. rewrite Nat.sub_0_r. cbn [Nat.add].
    replace (NETMAP `min` length (b :: nm)) with (0 + length (take NETMAP (b :: nm))) by (rewrite length_take; lia). rewrite take_overwrite by apply le_0_n. by rewrite take_0. }
  destruct (later_netmaps nms (finish s1) _ Hok Hr) as [-> ->]. split; [done|].
  assert (count (finish s1) = wrap 32 1) as -> by (unfold finish; cbn [count]; by rewrite Hp).
  case_decide as Hf; [by rewrite Hf|]. unfold wrap. rewrite Zplus_mod_idemp_l. f_equal. lia.
Qed.
End WatchProofs.

(** ** Proofs: the requests of a session *)
Section SessionProofs.
Import H2Conn H2Post Session.
Context `{P : Primitives, L : !PrimitiveLaws P} {W : Type} `{SO : SocketOps W, SV : !SocketView W, SU : !SocketUp W}.

(** What a request takes: the strings fit, the server's messages are the frames of
    the answer, the records can be numbered, and the fuel is enough. *)
Record asks (fuel reads : nat) (c : H2Conn) (w : W) (host path body : bytes) (frames : list sent) (qs : list bytes) : Prop := {
  asks_host : fits_u32 host;
  asks_block : length (block_bytes host path (dec (Z.of_nat (length body)))) <= 256;
  asks_stream : (next_stream c + 2 < 2 ^ 32)%Z;
  asks_idle : idle c w qs (concat (map sent_wire frames));
  asks_response : response (next_stream c) frames;
  asks_send : can_send (1 + Z.of_nat (length body) + 5 * Z.of_nat (length (concat (map sent_wire frames)))) c;
  asks_reads : length (inbound w) < reads;
  asks_fuel : length (concat (map sent_wire frames)) < fuel;
}.

(** What it leaves: the request and the replies on the wire, credit for every DATA
    byte, and the connection idle. *)
Definition asked (c : H2Conn) (w : W) (host path body : bytes) (frames : list sent) (c' : H2Conn) (w' : W) : Prop :=
  exists replies wire, outbound w' = outbound w ++ wire /\
    Noise.carries (Noise.tx (session c)) (Noise.tx_nonce (session c)) (map sent_wire (request (next_stream c) host path body ++ replies)) wire /\
    Forall reply replies /\ total_credit replies = Z.of_nat (data_total frames) /\ idle c' w' [] [] /\ next_stream c' = (next_stream c + 2)%Z.

Lemma streamed fuel reads c w host path body frames qs : fits_u32 path -> length body <= 4096 -> asks fuel reads c w host path body frames qs ->
  exists c' w' cs, post_stream fuel reads c w host path body = Ok (c', w', cs) /\ concat cs = response_body (next_stream c) frames /\ asked c w host path body frames c' w'.
Proof using L SU.
  intros Hp Hb [H1 H2 H3 H4 H5 H6 H7 H8].
  destruct (post_stream_spec fuel reads c w host path body frames qs) as (c' & w' & cs & replies & wire & E & Hcs & Hrest); try done; [lia|].
  exists c', w', cs. split_and!; try done. by exists replies, wire.
Qed.

(** The answer that the caller's buffer has room for. *)
Lemma answered_in fuel reads c w host path body room frames qs : fits_u32 path -> length body <= 4096 -> asks fuel reads c w host path body frames qs ->
  let content := response_body (next_stream c) frames in
  exists c' w' rest, post fuel reads c w host path body (zeros room) = Ok (c', w', take room content ++ rest, length (take room content)) /\
    asked c w host path body frames c' w'.
Proof using L SU.
  intros Hp Hb Hx content. destruct (streamed fuel reads c w host path body frames qs Hp Hb Hx) as (c' & w' & cs & E & Hcs & Hasked).
  exists c', w', (drop (length content) (zeros room)). split; [|done]. unfold post. rewrite E. cbn [obind].
  pose proof (collect_body_spec cs [] (zeros room)) as Hc. cbn [app length] in Hc. rewrite Hc. cbn [obind]. rewrite Hcs, length_zeros. do 2 f_equal. rewrite length_take. fold content. lia.
Qed.

Lemma status_total b : exists s, status_of b = Ok s.
Proof.
  unfold status_of. destruct (proj2 (register_response_read [] MNil [] b)) as [[r ->]|[e ->]]; by eexists.
Qed.

(** A registration comes to its answer: on a connection that stays up the request
    for the key and the routes is sent, and the status is that of the first 1024
    bytes of the answer, in at most 64 bytes, whatever the answer says. *)
Theorem registered fuel reads c w host auth_key node routes frames qs :
  let body := text (JObj [] (register_tree (registration auth_key node routes))) in
  register_ok (registration auth_key node routes) -> length body <= 640 -> asks fuel reads c w host REGISTER_PATH body frames qs ->
  exists c' w' status, register fuel reads c w host auth_key node routes = Ok (c', w', status) /\
    status_of (take 1024 (response_body (next_stream c) frames)) = Ok status /\ length status <= 64 /\ asked c w host REGISTER_PATH body frames c' w'.
Proof.
  intros body Hr Hl Hx. unfold register. rewrite writes_register by done. fold body. rewrite decide_False by (rewrite length_zeros; lia). cbn [map_err obind].
  rewrite slice_app_l_exact by done. cbn [obind]. destruct (answered_in fuel reads c w host REGISTER_PATH body 1024 frames qs) as (c' & w' & rest & E & Hasked); [vm_compute; reflexivity|lia|done|].
  rewrite E. cbn [obind]. rewrite slice_app_l_exact by done. cbn [obind]. destruct (status_total (take 1024 (response_body (next_stream c) frames))) as [s Es]. rewrite Es. cbn [Prelude.expect_ok obind].
  exists c', w', s. split_and!; try done. clear -Es. unfold status_of in Es.
  assert (forall pieces, length (write_pieces 64 [] pieces) <= 64) as H by (intros pieces; apply PanicReport.write_fitting, le_0_n).
  destruct (parse_register_response _); try done; apply Ok_inj in Es; subst s; repeat case_decide; apply H.
Qed.

(** The same of the one-shot request that describes the device: its answer is read
    and only its length, up to 256, told. *)
Theorem advertised fuel reads c w host node disco endpoint routes frames qs :
  let body := text (JObj [] (map_tree (advertisement node disco endpoint routes))) in
  ControlRequest.map_ok (advertisement node disco endpoint routes) -> length body <= 768 -> asks fuel reads c w host MAP_PATH body frames qs ->
  exists c' w', advertise fuel reads c w host node disco endpoint routes = Ok (c', w', 256 `min` length (response_body (next_stream c) frames)) /\
    asked c w host MAP_PATH body frames c' w'.
Proof.
  intros body Hr Hl Hx. unfold advertise. rewrite writes_map by done. fold body. rewrite decide_False by (rewrite length_zeros; lia). cbn [map_err obind].
  rewrite slice_app_l_exact by done. cbn [obind]. destruct (answered_in fuel reads c w host MAP_PATH body 256 frames qs) as (c' & w' & rest & E & Hasked); [vm_compute; reflexivity|lia|done|].
  rewrite E. cbn [obind]. exists c', w'. split; [|done]. by rewrite length_take.
Qed.

(** C18. The long poll of the device: the netmaps of the stream are counted, whatever
    frames, records and reads they are cut into, and the first, as far as 8192
    bytes of it, says what is reported about the device; keep-alives do nothing,
    and no netmap is too long. *)
Theorem poll_watched fuel reads c w host node disco frames netmaps qs :
  let body := text (JObj [] (map_tree (long_poll node disco))) in
  ControlRequest.map_ok (long_poll node disco) -> length body <= 640 -> asks fuel reads c w host MAP_PATH body frames qs ->
  response_body (next_stream c) frames = concat (map map_wire netmaps) -> Forall (fun nm => Z.of_nat (length nm) < 2 ^ 32)%Z netmaps ->
  exists c' w' s, map_poll fuel reads c w host node disco = Ok (c', w', s) /\
    reported s = first_report netmaps /\ count s = wrap 32 (Z.of_nat (length (List.filter is_netmap netmaps))) /\ asked c w host MAP_PATH body frames c' w'.
Proof.
  intros body Hr Hl Hx Hbody Hn. unfold map_poll. rewrite writes_map by done. fold body. rewrite decide_False by (rewrite length_zeros; lia). cbn [map_err obind].
  rewrite slice_app_l_exact by done. cbn [obind]. destruct (streamed fuel reads c w host MAP_PATH body frames qs) as (c' & w' & cs & E & Hcs & Hasked); [vm_compute; reflexivity|lia|done|].
  rewrite E. cbn [obind]. rewrite Hbody in Hcs. assert (watch_ok watch_new) as Hnew by (split; [apply length_zeros|apply le_0_n]).
  destruct (netmaps_seen on_frame watch_event watch_ok watch_frame watch_netmap netmaps cs watch_new Hnew watch_netmap_spec Hn Hcs) as (f & Ef & _). rewrite Ef. cbn [obind].
  destruct (netmaps_watched netmaps) as [H1 H2]. by exists c', w', (foldl watch_netmap watch_new netmaps).
Qed.
End SessionProofs.

Module Exchange.
Import H2Conn H2Post Session.
#[local] Existing Instances Toy.toy Toy.toy_laws.

(** A response of two frames on stream 1, a message, over the connection of
    [H2Conn]'s example. *)
Definition answer (body : bytes) : list sent := [Sent false frame_type.HEADERS flag.END_HEADERS 1 [x88]; Sent false frame_type.DATA flag.END_STREAM 1 body].
Definition server (body : bytes) : pipe := (H2Conn.example_record (concat (map sent_wire (answer body))) ++ [], []).

Lemma exchange_response body : (Z.of_nat (length body) < 2 ^ 24)%Z -> response 1 (answer body).
Proof.
  intros Hb. split_and!.
  - repeat (constructor; [split; cbn [s_payload s_stream]; [done|cbn [length]; lia]|]). constructor.
  - repeat (constructor; [split; discriminate|]). constructor.
  - exists (take 1 (answer body)), (Sent false frame_type.DATA flag.END_STREAM 1 body). split_and!; [reflexivity|reflexivity|].
    repeat (constructor; [|]); [reflexivity|constructor].
Qed.

Definition key : NodePublic := Public (replicate 32 xab).
Definition disco : DiscoPublic := Public (replicate 32 xcd).
Definition refusal : bytes := text (JObj [] (MCons [] (bs "Error") [] [] (JStr (bs "not allowed")) [] MNil)).
Definition register_body : bytes := text (JObj [] (register_tree (registration (bs "tskey-1") key [bs "10.0.0.0/24"]))).
Definition poll_body : bytes := text (JObj [] (map_tree (long_poll key disco))).
Definition own_netmap : bytes := text (JObj [] (MCons [] (bs "Node") [] [] (JObj [] (MCons [] (bs "HomeDERP") [] [] (JNum (bs "28")) [] MNil)) [] MNil)).
Definition stream : bytes := concat (map map_wire [own_netmap; []; bs "{}"]).

Lemma refusal_asks : asks 80 400 example_conn (server refusal) (bs "h") REGISTER_PATH register_body (answer refusal) [concat (map sent_wire (answer refusal))].
Proof.
  split; [vm_compute; reflexivity|apply Nat.leb_le; vm_compute; reflexivity|vm_compute; reflexivity| |apply exchange_response; vm_compute; done
    |split_and!; vm_compute; (reflexivity || discriminate)|apply Nat.ltb_lt; vm_compute; reflexivity|apply Nat.ltb_lt; vm_compute; reflexivity].
  split_and!.
  - split; [unfold conn_ok, example_conn, MAX_MESSAGE; cbn [pending pending_len pending_pos raw raw_len]; rewrite !length_zeros; lia|].
    change (staged example_conn) with (@nil byte). cbn [app]. unfold server. cbn [inbound pipe_view fst].
    repeat (apply Noise.carries_cons; [cbn; unfold u64_max; lia|vm_compute; discriminate|reflexivity|reflexivity|reflexivity|]). constructor.
  - repeat (constructor; [vm_compute; discriminate|]). constructor.
  - split; [done|]. intros k Hk. by apply h2_new_ok.
  - reflexivity.
  - change (ready example_conn) with (@nil byte). apply app_nil_r.
Qed.

Lemma stream_asks : asks 140 400 example_conn (server stream) (bs "h") MAP_PATH poll_body (answer stream) [concat (map sent_wire (answer stream))].
Proof.
  split; [vm_compute; reflexivity|apply Nat.leb_le; vm_compute; reflexivity|vm_compute; reflexivity| |apply exchange_response; vm_compute; done
    |split_and!; vm_compute; (reflexivity || discriminate)|apply Nat.ltb_lt; vm_compute; reflexivity|apply Nat.ltb_lt; vm_compute; reflexivity].
  split_and!.
  - split; [unfold conn_ok, example_conn, MAX_MESSAGE; cbn [pending pending_len pending_pos raw raw_len]; rewrite !length_zeros; lia|].
    change (staged example_conn) with (@nil byte). cbn [app]. unfold server. cbn [inbound pipe_view fst].
    repeat (apply Noise.carries_cons; [cbn; unfold u64_max; lia|vm_compute; discriminate|reflexivity|reflexivity|reflexivity|]). constructor.
  - repeat (constructor; [vm_compute; discriminate|]). constructor.
  - split; [done|]. intros k Hk. by apply h2_new_ok.
  - reflexivity.
  - change (ready example_conn) with (@nil byte). apply app_nil_r.
Qed.

Lemma registration_ok : register_ok (registration (bs "tskey-1") key [bs "10.0.0.0/24"]) /\ ControlRequest.map_ok (long_poll key disco).
Proof.
  split; split_and!; try done; try (cbn; lia); try (repeat constructor; done).
Qed.

Lemma registered_witness :
  exists c' w', register 80 400 example_conn (server refusal) (bs "h") (bs "tskey-1") key [bs "10.0.0.0/24"] = Ok (c', w', bs "refused: not allowed") /\
    asked example_conn (server refusal) (bs "h") REGISTER_PATH register_body (answer refusal) c' w'.
Proof.
  destruct (registered 80 400 example_conn (server refusal) (bs "h") (bs "tskey-1") key [bs "10.0.0.0/24"] (answer refusal) [concat (map sent_wire (answer refusal))])
    as (c' & w' & status & E & Hs & _ & Hasked).
  - apply registration_ok.
  - apply Nat.leb_le. vm_compute. reflexivity.
  - exact refusal_asks.
  - assert (status_of (take 1024 (response_body (next_stream example_conn) (answer refusal))) = Ok (bs "refused: not allowed")) as Hv by (vm_compute; reflexivity).
    rewrite Hv in Hs. apply Ok_inj in Hs. subst status. exists c', w'. split; [exact E|exact Hasked].
Defined.

Lemma poll_watched_witness :
  exists c' w' s, map_poll 140 400 example_conn (server stream) (bs "h") key disco = Ok (c', w', s) /\
    reported s = Some (Self (bs "28") (bs "none") None 0) /\ count s = 2%Z /\ asked example_conn (server stream) (bs "h") MAP_PATH poll_body (answer stream) c' w'.
Proof.
  destruct (poll_watched 140 400 example_conn (server stream) (bs "h") key disco (answer stream) [own_netmap; []; bs "{}"] [concat (map sent_wire (answer stream))])
    as (c' & w' & s & E & Hr & Hc & Hasked).
  - apply registration_ok.
  - apply Nat.leb_le. vm_compute. reflexivity.
  - exact stream_asks.
  - vm_compute. reflexivity.
  - repeat (constructor; [vm_compute; reflexivity|]). constructor.
  - assert (first_report [own_netmap; []; bs "{}"] = Some (Self (bs "28") (bs "none") None 0)) as Hf by (vm_compute; reflexivity). rewrite Hf in Hr.
    assert (wrap 32 (Z.of_nat (length (List.filter is_netmap [own_netmap; []; bs "{}"]))) = 2%Z) as Hw by (vm_compute; reflexivity). rewrite Hw in Hc.
    exists c', w', s. split; [exact E|]. split; [exact Hr|]. split; [exact Hc|exact Hasked].
Defined.
End Exchange.
